(* ===== verification/_CoqProject ===== *)
-Q . S2P
Prelude.v
Types.v
Bitmap.v
Encoding.v
LogHandler.v
RecordPageHandler.v
RecordPageSpec.v
RecordPool.v
RecordLog.v
RecordFile.v
RecordFileSpec.v
RecordScan.v
RecordScanSpec.v
RecordFileTheorems.v
Table.v
TableSpec.v
RowTable.v
MvccTrx.v
MvccSpec.v
MvccTheorems.v
MvccRecovery.v
LogFile.v
LogFileSpec.v
DiskLog.v
DiskLogSpec.v
DiskLogTheorems.v
LruCache.v
LruSpec.v
Crc.v
FrameManager.v
FrameSpec.v
FrameTheorems.v
BufferPool.v
BufferPoolSpec.v
BufferPoolHeld.v
BufferPoolTheorems.v
BufferPoolHeader.v
BufferPoolRecovery.v
KeyCompare.v
LowerBound.v
LatchMemo.v
TreePoolMem.v
LatchMemoSpec.v
BplusNode.v
BplusLog.v
BplusNodeSpec.v
BplusOps.v
BplusNodeOps.v
BplusMoves.v
BplusShape.v
BplusTree.v
BplusRoot.v
BplusInsert.v
BplusGrow.v
BplusLeaves.v
BplusFind.v
BplusInsertLeaf.v
BplusMtr.v
BplusGive.v
BplusPair.v
BplusNeighbour.v
BplusShrink.v
BplusEntry.v
BplusScanner.v
BplusScan.v
BplusIndex.v
BplusDelete.v
BplusTheorems.v
TreeTableIndex.v
TableTheorems.v
Expression.v
ExprRewrite.v
ExprSpec.v
ExprTheorems.v
