(* ===== verification/Prelude.v ===== *)
(** * MiniOB: a verification library for the storage engine and the rewriting of plans

    The program is a database server in C++ (src/src/observer, with helpers in src/deps/common).
    The library translates the parts that keep and find data into functions and proves what they
    promise to one another. Below, paths are relative to src/src/observer unless they start with
    deps.

    ** How the parts interact

    A table ([Table], storage/table) keeps its rows in a record file and an entry for each of them
    in every index. The record file and the B+ trees keep their pages in files of fixed-size pages
    that the buffer pools bring into memory (storage/buffer). A change of a page is first appended
    to the commit log (storage/clog), whose background thread writes it to log files; a page keeps
    the LSN of its last change, and replaying the log on start applies what the page does not
    have yet. A dirty page goes through the double write buffer, so that a torn page can be
    restored. Transactions (storage/trx) stamp rows with the ids of the transactions that inserted
    and deleted them, and see the rows that their snapshot allows. A query is a tree of logical
    operators with expressions that is rewritten before it is executed (sql).

    The parts meet at interfaces, which are classes: the operations of a component, and a second
    class with the laws that its clients may use. Clients are proved against the laws; every
    interface with laws has an instance for which they are proved, and on which the examples that
    show the hypotheses to be satisfiable run.

    - [LogHandler], [LogTotal], [WalLaws] (LogHandler.v): the commit log. Clients: pages, buffer
      pools, transactions. Instances: the vacuous handler, a list of records; [DiskLogHandler] is
      the handler on disk, whose contract is the abstract log of DiskLogSpec.v.
    - [RecordPool], [RecordPoolLaws] (RecordPool.v): the buffer pools as the record manager sees
      them. Instance: pages in memory.
    - [TreePool], [TreePoolLaws] (LatchMemo.v): the buffer pool as a tree sees it, with pins and
      free pages. Instance: TreePoolMem.v.
    - [RowTable], [RowTableLaws] (RowTable.v): a table as the transactions see it. Instance: a
      finite map.
    - [TableIndex], [TableIndexLaws] (Table.v): an index as a table sees it. Instance: the B+ tree
      (TreeTableIndex.v).
    - [KeyOrder] (KeyCompare.v): what a tree needs of the comparison of its keys. Instance:
      integer keys with their record identifiers.
    - [CStrings] (Expression.v): the conversions of strings that the standard library makes.

    ** The files and the code

    The state of a component is a record with the members of the class as fields, an operation a
    function in the monad [M] below with the name of the method; a header of the file says where
    the code is. The operations of a component come first, its invariants and lemmas in files with
    the suffix Spec, its properties in files with the suffix Theorems where they are many.

    - Prelude (this file), Types (common/rc, buffer/page.h, record/record.h), Encoding: the monad,
      accesses to bytes, result codes, images of integers.
    - Bitmap (deps/common/lang/bitmap.cpp), Crc (deps/common/math/crc.cpp), LruCache, LruSpec
      (deps/common/lang/lru_cache.h), LowerBound (deps/common/lang/lower_bound.h).
    - LogHandler, LogFile, LogFileSpec, DiskLog, DiskLogSpec, DiskLogTheorems: storage/clog.
    - FrameManager, FrameSpec, FrameTheorems; BufferPool, BufferPoolSpec, BufferPoolHeld,
      BufferPoolHeader, BufferPoolTheorems, BufferPoolRecovery: storage/buffer with the double write
      buffer, the manager of the pools, their log and the device below.
    - RecordPageHandler, RecordPageSpec, RecordPool, RecordLog: one page of records, its log and the
      replay. RecordFile, RecordFileSpec: the handler of a file. RecordScan, RecordScanSpec: the
      scanner. RecordFileTheorems: both. All storage/record.
    - Table, TableSpec, TableTheorems: storage/table/table.cpp. TreeTableIndex:
      storage/index/bplus_tree_index.cpp.
    - RowTable, MvccTrx, MvccSpec, MvccTheorems, MvccRecovery: storage/trx.
    - KeyCompare, LatchMemo, LatchMemoSpec, TreePoolMem, and the files that start with Bplus:
      storage/index. BplusNode, BplusLog, BplusTree and BplusScanner translate the code. The others
      prove it: what the bytes of a node represent (BplusNodeSpec, BplusOps, BplusNodeOps,
      BplusMoves, BplusRoot), the levels and leaves of a tree (BplusShape, BplusLeaves, BplusFind),
      insertion (BplusInsert, BplusInsertLeaf, BplusGrow, BplusEntry), deletion (BplusGive,
      BplusPair, BplusNeighbour, BplusShrink, BplusDelete), the mini transaction (BplusMtr), the scan
      (BplusScan, BplusIndex), and the operations of an index (BplusTheorems).
    - Expression (common/value.cpp, common/type, sql/expr), ExprRewrite (sql/optimizer), ExprSpec,
      ExprTheorems.

    ** What the theorems show

    - Tables: the indexes are in step with the rows after any sequence of operations, also after
      insertions that fail half way ([table_runs_in_step]); a new index is filled with the rows that
      the session sees, and stays when the metadata cannot be written ([create_index_in_step]); rows
      it does not see cannot be deleted any more ([hidden_rows_break_deletion]).
    - Record files: a file is a finite map from identifiers to records ([file_runs_refine]), a scan
      meets each record once, in order ([scan_enumerates]); so does a page ([page_refines],
      [iterator_enumerates]); replaying the log of a page brings it to its last state, whatever had
      reached the disk ([redo_page], [redo_init_page]).
    - Trees: insertion, deletion, lookup and runs of them are those of a sorted list
      ([insert_entry_refines], [delete_entry_refines], [get_entry_equal], [index_runs_refine]).
    - Buffer pools: a page answers what was last put into it, whatever is evicted and written
      back ([pages_keep_contents]); allocation acts on a set of pages
      ([allocation_is_a_page_set]); the header is recovered from the log ([header_is_recovered]);
      frames are a table of pin counts ([frame_manager_implements_table]); the cache is a list in
      the order of use ([lru_refines_list]); the checksum notices a changed byte ([crc32_detects]).
    - Commit log: a run of the handler is one of an abstract log ([log_implements_contract]); it is
      read back after a crash and continued ([recovery_reads_the_log], [replay_restarts_the_log],
      [iterate_reads_back], [file_name_roundtrip]); stopping drains it ([stop_drains_the_log]).
      Where it goes wrong: [buffer_accounting_drifts], [lsn_beyond_int_is_never_written], and the
      example [torn_tail_loses_later_entries].
    - Transactions: no call of a reachable state fails an assertion, unless a session deletes twice a
      row of its own or the ids run out ([calls_are_safe]); commit and rollback do what they say
      ([commit_stamps], [rollback_undoes]); the rows a transaction sees do not change when another one
      ends, except rows newer than its snapshot that are being deleted ([snapshots_are_stable]).
      Recovery leaves the rows as they are ([recovery_rolls_nothing_back]). Where they go wrong:
      [recovered_rows_stay_locked], [recovered_clock_hides_committed_rows],
      [own_row_deleted_twice_aborts], [rollback_resurrects_a_deleted_row] and
      [snapshot_misses_begin_id].
    - Expressions: they have the types they announce ([expressions_have_their_types]); rewriting
      keeps their values ([rewriting_keeps_values]), except where [and_false_is_lost] and
      [or_of_false_is_true] show that it does not; the rewriting of a plan ends
      ([plan_rewriting_ends]).

    ** Conventions and bounds

    [None] is the abnormal end of the process: a failed assertion, undefined behaviour such as an
    access outside an array, or waiting for ever. Errors of the code are values of type [RC].
    32-bit integers are [Z] with [wrap32] where the code adds to them.

    A recursion that is not structural has a fuel, and running out of it is [None]; since the theorems
    say that a result is there, they show that the fuel suffices. Loops over the pages of a file take
    the page count of the pool, the search for a free page the number of free pages, loops over
    a page its capacity, the rounds of the log thread the length of its queue, the walk of the cache
    the number of nodes. The recursions of a tree take a parameter [n], enough if it covers the
    levels and, for a scan, the items; each operation adds at most one level, so a run of [k] operations
    is content with the levels plus [k]. Rewriting takes the size of the expression or the plan, which every
    round that changes something makes smaller.

    The examples that show hypotheses to be satisfiable are small: nodes of four and six items in
    pages of 112 bytes, pools and files of a few pages.

    ** What is not modelled

    - Threads: there is one, with the thread of the log as a part of the state of DiskLog. Latches of
      frames are kept where trees take them; the locks of the record file handler, of the pools and of the
      transaction kit are not. Interleavings of transactions are sequences of calls.
    - The PAX format of pages: its insertion, reading and [get_chunk] are left as an exercise in the
      source and end the process; ChunkFileScanner is only of use with it.
    - Files of metadata: [Table::create], [open], [drop], [serialize], TableMeta and IndexMeta but for the
      list of indexes that [Table::create_index] extends, FieldMeta and the
      directories of a database (storage/db, storage/default, storage/persist); they pass names on and
      read and write JSON. The same holds of [create] and [open] of BplusTreeIndex: what they answer to
      [Table::create_index], and what the file system answers to it, are arguments of the model.
    - SQL but for expressions and rewriting: the lexer and parser are generated, statements resolve names, executors
      and operators call the parts above, plan generators build one tree out of another; the
      evaluation on chunks, aggregates.
    - Sessions, the network protocols, the client, the configuration and the helpers for logging, time,
      threads and metrics in deps/common: input and output, or not part of what is kept.
    - B+ trees on attributes of the type float: the comparison is not an order, since numbers closer than
      EPSILON are equal. Theorems on whole runs of an index are for integer keys.
    - Access times of frames, contents of messages, the reserve of the hash set of the cache. *)
From Stdlib Require Export ZArith Lia.
From stdpp Require Export base tactics numbers list gmap.

#[global] Open Scope Z_scope.
#[global] Set Default Goal Selector "!".
#[global] Set Warnings "-clear-no-such-hyp,-register-all".

(** ** The program monad

    A C++ routine that works on shared state and may hit a violated [assert] /
    [ASSERT] or undefined behaviour (an access outside an array, a null
    dereference) is a function from states to [option (result * state)].
    [None] is the abnormal end of the process, never an error code: error codes
    are values of type [RC] in the result. *)
Definition M (S A : Type) : Type := S → option (A * S).

Definition ret {S A} (a : A) : M S A := λ s, Some (a, s).
Definition bind {S A B} (c : M S A) (k : A → M S B) : M S B := λ s,
  match c s with
  | Some (a, s') => k a s'
  | None => None
  end.

Definition get {S} : M S S := λ s, Some (s, s).
Definition put {S} (s' : S) : M S unit := λ _, Some (tt, s').
Definition modify {S} (f : S → S) : M S unit := λ s, Some (tt, f s).
(** [ASSERT(b)] / [assert(b)] *)
Definition assertM {S} (b : bool) : M S unit := λ s, if b then Some (tt, s) else None.
(** an access that is undefined when it answers [None] *)
Definition liftO {S A} (o : option A) : M S A := λ s, match o with Some a => Some (a, s) | None => None end.
Definition abort {S A} : M S A := λ _, None.

Declare Scope prog_scope.
Delimit Scope prog_scope with prog.
Notation "'let*' x ':=' c 'in' k" := (bind c (λ x, k))
  (at level 10, x pattern, c at level 100, k at level 200) : prog_scope.
Notation "c ';;;' k" := (bind c (λ _, k))
  (at level 100, k at level 200, right associativity) : prog_scope.
#[global] Open Scope prog_scope.

(** one step of a program whose first call is known *)
Lemma bind_eq {S A B} (c : M S A) (k : A → M S B) s a s' : c s = Some (a, s') → bind c k s = k a s'.
Proof. unfold bind. by intros ->. Qed.
Lemma bind_get {S B} (k : S → M S B) s : bind get k s = k s s.
Proof. done. Qed.
Lemma bind_modify {S B} (f : S → S) (k : unit → M S B) s : bind (modify f) k s = k tt (f s).
Proof. done. Qed.
Lemma bind_ret {S A B} (a : A) (k : A → M S B) s : bind (ret a) k s = k a s.
Proof. done. Qed.
Lemma bind_liftO {S A B} (o : option A) a (k : A → M S B) s : o = Some a → bind (liftO o) k s = k a s.
Proof. by intros ->. Qed.
Lemma bind_assertM {S B} (b : bool) (k : unit → M S B) s : b = true → bind (assertM b) k s = k tt s.
Proof. by intros ->. Qed.
Lemma bind_assoc {S A B C} (c : M S A) (k : A → M S B) (k' : B → M S C) s :
  bind (bind c k) k' s = bind c (λ a, bind (k a) k') s.
Proof. unfold bind. by destruct (c s) as [[]|]. Qed.
(** a call that returns, inverted *)
Lemma bind_Some {S A B} (c : M S A) (k : A → M S B) s b s2 :
  bind c k s = Some (b, s2) → ∃ a s1, c s = Some (a, s1) ∧ k a s1 = Some (b, s2).
Proof. unfold bind. destruct (c s) as [[a s1]|] eqn:E; [eauto|done]. Qed.

Lemma bind_liftO_Some {S A B} (o : option A) (k : A → M S B) s b s2 :
  bind (liftO o) k s = Some (b, s2) → ∃ a, o = Some a ∧ k a s = Some (b, s2).
Proof. unfold bind, liftO. destruct o; naive_solver. Qed.
Lemma bind_assertM_Some {S B} (c : bool) (k : unit → M S B) s b s2 :
  bind (assertM c) k s = Some (b, s2) → c = true ∧ k tt s = Some (b, s2).
Proof. unfold bind, assertM. destruct c; naive_solver. Qed.

(** Run a loop body over a list, threading the state. *)
Fixpoint forM {S A} (l : list A) (f : A → M S unit) : M S unit :=
  match l with
  | [] => ret tt
  | x :: l' => f x ;;; forM l' f
  end.

(** ** Machine integers *)

(** two's complement wrap-around of a [w]-bit signed integer *)
Definition wrap_s (w z : Z) : Z := (z + 2 ^ (w - 1)) mod 2 ^ w - 2 ^ (w - 1).
Definition wrap32 (z : Z) : Z := wrap_s 32 z.
Definition in_int32 (z : Z) : Prop := - 2 ^ 31 ≤ z < 2 ^ 31.

Lemma wrap32_id z : in_int32 z → wrap32 z = z.
Proof.
  unfold in_int32, wrap32, wrap_s. intros Hz. rewrite Z.mod_small; lia.
Qed.

Lemma wrap32_range z : in_int32 (wrap32 z).
Proof.
  unfold in_int32, wrap32, wrap_s.
  pose proof (Z.mod_pos_bound (z + 2 ^ (32 - 1)) (2 ^ 32)). lia.
Qed.

(** ** Arrays: lists indexed by machine integers

    [rd] and [wr] answer [None] outside the array, where C++ is undefined. *)
Definition len {A} (l : list A) : Z := Z.of_nat (length l).
Definition rd {A} (l : list A) (i : Z) : option A :=
  if decide (0 ≤ i) then l !! Z.to_nat i else None.
Definition wr {A} (l : list A) (i : Z) (x : A) : option (list A) :=
  if decide (0 ≤ i < len l) then Some (<[Z.to_nat i := x]> l) else None.
(** [memcpy] out of and into an array *)
Definition mem_read {A} (l : list A) (off n : Z) : option (list A) :=
  if decide (0 ≤ off ∧ 0 ≤ n ∧ off + n ≤ len l)
  then Some (take (Z.to_nat n) (drop (Z.to_nat off) l)) else None.
Definition mem_write {A} (l : list A) (off : Z) (src : list A) : option (list A) :=
  if decide (0 ≤ off ∧ off + len src ≤ len l)
  then Some (take (Z.to_nat off) l ++ src ++ drop (Z.to_nat off + length src) l) else None.

Create HintDb arr.

Section arrays.
Context {A : Type}.
Implicit Types (l src : list A) (i j off n : Z).

Lemma rd_Some_range l i x : rd l i = Some x → 0 ≤ i < len l.
Proof.
  unfold rd, len. case_decide; [|done]. intros H1%lookup_lt_Some. lia.
Qed.

Lemma rd_is_Some l i : 0 ≤ i < len l → is_Some (rd l i).
Proof.
  unfold rd, len. intros. rewrite decide_True by lia. apply lookup_lt_is_Some. lia.
Qed.

Lemma rd_None l i : rd l i = None ↔ ¬ (0 ≤ i < len l).
Proof.
  unfold rd, len. case_decide; [|split; [lia|done]].
  rewrite lookup_ge_None. lia.
Qed.

Lemma wr_is_Some l i x : 0 ≤ i < len l → wr l i x = Some (<[Z.to_nat i := x]> l).
Proof. unfold wr. intros. by rewrite decide_True. Qed.

Lemma wr_Some_range l i x l' : wr l i x = Some l' → 0 ≤ i < len l.
Proof. unfold wr. by case_decide. Qed.

Lemma wr_len l i x l' : wr l i x = Some l' → len l' = len l.
Proof. unfold wr. case_decide; [|done]. intros [= <-]. unfold len. by rewrite length_insert. Qed.

Lemma rd_wr_eq l i x l' : wr l i x = Some l' → rd l' i = Some x.
Proof.
  unfold wr, rd, len. case_decide; [|done]. intros [= <-].
  rewrite decide_True by lia. apply list_lookup_insert_eq. lia.
Qed.

Lemma rd_wr_ne l i j x l' : wr l i x = Some l' → i ≠ j → rd l' j = rd l j.
Proof.
  unfold wr, rd, len. case_decide; [|done]. intros [= <-] Hne.
  case_decide; [|done]. apply list_lookup_insert_ne. lia.
Qed.

Lemma mem_write_len l off src l' : mem_write l off src = Some l' → len l' = len l.
Proof.
  unfold mem_write, len. case_decide; [|done]. intros [= <-].
  rewrite !length_app, length_take, length_drop. lia.
Qed.

Lemma mem_write_is_Some l off src :
  0 ≤ off → off + len src ≤ len l → is_Some (mem_write l off src).
Proof. intros. unfold mem_write. rewrite decide_True by done. eauto. Qed.

Lemma mem_read_is_Some l off n :
  0 ≤ off → 0 ≤ n → off + n ≤ len l → is_Some (mem_read l off n).
Proof. intros. unfold mem_read. rewrite decide_True by done. eauto. Qed.

Lemma mem_read_len l off n r : mem_read l off n = Some r → len r = n.
Proof.
  unfold mem_read, len. case_decide; [|done]. intros [= <-].
  rewrite length_take, length_drop. lia.
Qed.

(** what was written is read back *)
Lemma mem_read_write_eq l off src l' :
  mem_write l off src = Some l' → mem_read l' off (len src) = Some src.
Proof.
  intros Hw. pose proof (mem_write_len _ _ _ _ Hw) as Hlen. revert Hw.
  unfold mem_write, mem_read. case_decide; [|done]. intros [= <-].
  rewrite decide_True by (unfold len in *; lia). f_equal.
  rewrite drop_app_length' by (rewrite length_take; unfold len in *; lia).
  apply take_app_length'. unfold len. lia.
Qed.

(** a write does not touch a disjoint range *)
Lemma mem_read_write_ne l off src l' off' n :
  mem_write l off src = Some l' →
  off' + n ≤ off ∨ off + len src ≤ off' →
  mem_read l' off' n = mem_read l off' n.
Proof.
  intros Hw Hdisj. pose proof (mem_write_len _ _ _ _ Hw) as Hlen. revert Hw.
  unfold mem_write, mem_read. case_decide as Hr; [|done]. intros [= <-].
  rewrite Hlen. case_decide as Hr'; [|done]. f_equal. unfold len in *.
  apply list_eq. intros k. destruct (decide (k < Z.to_nat n)%nat) as [Hk|Hk].
  - rewrite !lookup_take_lt, !lookup_drop by lia.
    destruct Hdisj.
    + rewrite lookup_app_l by (rewrite length_take; lia).
      by rewrite lookup_take_lt by lia.
    + rewrite app_assoc, lookup_app_r by (rewrite length_app, length_take; lia).
      rewrite lookup_drop. f_equal. rewrite length_app, length_take. lia.
  - rewrite !lookup_take_ge by lia. done.
Qed.
End arrays.

#[export] Hint Resolve rd_is_Some mem_write_is_Some mem_read_is_Some : arr.

(** ** Filters that keep everything, or nothing *)
Section filters.
Context {A : Type} (P : A → Prop) `{∀ x, Decision (P x)}.
Lemma list_filter_all l : Forall P l → filter P l = l.
Proof. induction 1 as [|x l Hx Hl IH]; [done|]. by rewrite filter_cons, decide_True, IH. Qed.
Lemma list_filter_none l : Forall (λ x, ¬ P x) l → filter P l = [].
Proof. induction 1 as [|x l Hx Hl IH]; [done|]. by rewrite filter_cons, decide_False. Qed.
End filters.

(** ** Tactics *)

(** split the [Some]/[None] outcome of every intermediate call in a hypothesis *)
Ltac munfold := unfold bind, ret, get, put, modify, assertM, liftO, abort in *.
Ltac mstep H :=
  repeat match type of H with
  | match ?o with Some _ => _ | None => _ end = _ => let E := fresh "E" in destruct o eqn:E; [|discriminate H]
  | (let (_, _) := ?p in _) = _ => destruct p
  | (if ?b then _ else None) = _ => let E := fresh "E" in destruct b eqn:E; [|discriminate H]
  | Some _ = Some _ => injection H as H
  end.
(** run the administrative steps at the head of a program *)
Ltac mrun := repeat first [rewrite bind_get | rewrite bind_modify | rewrite bind_ret | rewrite bind_assoc]; cbv beta iota zeta.
(** invert the run of a program that returned, down to the next branch *)
Ltac minv H :=
  repeat match type of H with
  | bind _ _ _ = _ =>
      first
      [ rewrite bind_get in H | rewrite bind_modify in H | rewrite bind_ret in H | rewrite bind_assoc in H
      | let E := fresh "E" in apply bind_assertM_Some in H as [E H]
      | let a := fresh "a" in let E := fresh "E" in apply bind_liftO_Some in H as (a & E & H)
      | let a := fresh "a" in let s := fresh "s" in let E := fresh "E" in apply bind_Some in H as (a & s & E & H) ];
      cbv beta iota zeta in H
  end.
Ltac destruct_ifs :=
  repeat match goal with
  | |- context [if ?b then _ else _] => let E := fresh "E" in destruct b eqn:E
  end.
(** reflect boolean integer tests into propositions *)
Ltac zbool :=
  repeat match goal with
  | H : (_ =? _) = true |- _ => apply Z.eqb_eq in H
  | H : (_ =? _) = false |- _ => apply Z.eqb_neq in H
  | H : (_ <? _) = true |- _ => apply Z.ltb_lt in H
  | H : (_ <? _) = false |- _ => apply Z.ltb_ge in H
  | H : (_ <=? _) = true |- _ => apply Z.leb_le in H
  | H : (_ <=? _) = false |- _ => apply Z.leb_gt in H
  end.
