(* ===== verification/Types.v ===== *)
(** * Types and result codes shared by every component

    [RC] of src/observer/common/rc.h, the scalar types of common/types.h, the
    page constants of storage/buffer/page.h and [RID] of storage/record/record.h. *)
From S2P Require Import Prelude.

(** common/rc.h: [enum class RC] *)
Inductive RC : Set :=
| SUCCESS | INVALID_ARGUMENT | UNIMPLEMENTED | SQL_SYNTAX | INTERNAL | NOMEM | NOTFOUND
| EMPTY | FULL | EXIST | NOT_EXIST | BUFFERPOOL_OPEN | BUFFERPOOL_NOBUF
| BUFFERPOOL_INVALID_PAGE_NUM | RECORD_OPENNED | RECORD_INVALID_RID | RECORD_INVALID_KEY
| RECORD_DUPLICATE_KEY | RECORD_NOMEM | RECORD_EOF | RECORD_NOT_EXIST | RECORD_INVISIBLE
| SCHEMA_DB_EXIST | SCHEMA_DB_NOT_EXIST | SCHEMA_DB_NOT_OPENED | SCHEMA_TABLE_NOT_EXIST
| SCHEMA_TABLE_EXIST | SCHEMA_FIELD_NOT_EXIST | SCHEMA_FIELD_MISSING
| SCHEMA_FIELD_TYPE_MISMATCH | SCHEMA_INDEX_NAME_REPEAT | IOERR_READ | IOERR_WRITE
| IOERR_ACCESS | IOERR_OPEN | IOERR_CLOSE | IOERR_SEEK | IOERR_TOO_LONG | IOERR_SYNC
| LOCKED_UNLOCK | LOCKED_NEED_WAIT | LOCKED_CONCURRENCY_CONFLICT | FILE_EXIST
| FILE_NOT_EXIST | FILE_NAME | FILE_BOUND | FILE_CREATE | FILE_OPEN | FILE_NOT_OPENED
| FILE_CLOSE | FILE_REMOVE | VARIABLE_NOT_EXISTS | VARIABLE_NOT_VALID | LOGBUF_FULL
| LOG_FILE_FULL | LOG_ENTRY_INVALID | UNSUPPORTED.

#[export] Instance RC_eq_dec : EqDecision RC.
Proof. solve_decision. Defined.

(** common/rc.cpp: [OB_SUCC], [OB_FAIL] *)
Definition OB_SUCC (rc : RC) : bool := bool_decide (rc = SUCCESS).
Definition OB_FAIL (rc : RC) : bool := bool_decide (rc ≠ SUCCESS).

(** common/types.h *)
Abbreviation PageNum := Z (only parsing).
Abbreviation SlotNum := Z (only parsing).
Abbreviation LSN := Z (only parsing).
Inductive ReadWriteMode : Set := READ_ONLY | READ_WRITE.

(** storage/buffer/page.h; [sizeof(PageNum) = 4], [sizeof(LSN) = 8], [sizeof(CheckSum) = 4] *)
Definition BP_INVALID_PAGE_NUM : PageNum := -1.
Definition BP_HEADER_PAGE : PageNum := 0.
Definition BP_PAGE_SIZE : Z := Z.shiftl 1 13.
Definition BP_PAGE_DATA_SIZE : Z := BP_PAGE_SIZE - 4 - 8 - 4.

(** storage/record/record.h: [RID] *)
Record RID := mkRID { page_num : PageNum; slot_num : SlotNum }.

#[export] Instance RID_eq_dec : EqDecision RID.
Proof. solve_decision. Defined.
#[export] Instance RID_countable : Countable RID.
Proof.
  refine (inj_countable' (λ r, (page_num r, slot_num r)) (λ p, mkRID p.1 p.2) _).
  by intros [].
Defined.

(** [RID::compare]: a difference of 32-bit integers *)
Definition rid_compare (r1 r2 : RID) : Z :=
  let page_diff := wrap32 (page_num r1 - page_num r2) in
  if negb (page_diff =? 0) then page_diff
  else wrap32 (slot_num r1 - slot_num r2).

Definition rid_min : RID := mkRID 0 0.
Definition rid_max : RID := mkRID (2 ^ 31 - 1) (2 ^ 31 - 1).

(** page and slot numbers that the engine hands out are never negative *)
Definition rid_ok (r : RID) : Prop := 0 ≤ page_num r < 2 ^ 31 ∧ 0 ≤ slot_num r < 2 ^ 31.

(** deps/common/lang/string.cpp: [is_blank] in the C locale, over the characters of the string *)
Definition is_space (c : Ascii.ascii) : bool := let n := Ascii.N_of_ascii c in bool_decide (n = 32 ∨ 9 ≤ n ≤ 13)%N.
Definition is_blank (name : list Ascii.ascii) : bool := forallb is_space name.
