(* ===== verification/Bitmap.v ===== *)
(** * Bitmap: common/lang/bitmap.cpp

    The allocation bitmap used by record pages and by the buffer pool header. A
    byte is a [Z] between 0 and 255 (the C++ code tests a [char] against -1, the
    byte 255); the operations answer [None] where the C++ access is undefined
    (a byte outside the array, a shift by a negative amount). *)
From S2P Require Import Prelude.

(** ** Operations *)

Definition test_bit (byte i : Z) : bool := negb (Z.land byte (Z.shiftl 1 i) =? 0).

(** [find_first_zero] / [find_first_setted]: the loop [for (i = start; i < 8; i++)],
    [n] iterations left *)
Fixpoint find_first_zero (n : nat) (byte start : Z) : Z :=
  match n with
  | O => -1
  | S n => if start <? 8 then if negb (test_bit byte start) then start
                              else find_first_zero n byte (start + 1)
           else -1
  end.
Fixpoint find_first_setted (n : nat) (byte start : Z) : Z :=
  match n with
  | O => -1
  | S n => if start <? 8 then if test_bit byte start then start
                              else find_first_setted n byte (start + 1)
           else -1
  end.

Definition bytes (size : Z) : Z :=
  if Z.rem size 8 =? 0 then Z.quot size 8 else Z.quot size 8 + 1.

Definition get_bit (bitmap : list Z) (index : Z) : option bool :=
  if index <? 0 then None else
  bits ← rd bitmap (Z.quot index 8);
  Some (test_bit bits (Z.rem index 8)).

Definition set_bit (bitmap : list Z) (index : Z) : option (list Z) :=
  if index <? 0 then None else
  bits ← rd bitmap (Z.quot index 8);
  wr bitmap (Z.quot index 8) (Z.lor bits (Z.shiftl 1 (Z.rem index 8))).

Definition clear_bit (bitmap : list Z) (index : Z) : option (list Z) :=
  if index <? 0 then None else
  bits ← rd bitmap (Z.quot index 8);
  wr bitmap (Z.quot index 8) (Z.land bits (Z.lnot (Z.shiftl 1 (Z.rem index 8)))).

(** the loop of [next_unsetted_bit]: [n] bytes left, at byte [iter] *)
Fixpoint next_unsetted_loop (n : nat) (bitmap : list Z) (iter start_in_byte : Z) : option Z :=
  match n with
  | O => Some (-1)
  | S n =>
      byte ← rd bitmap iter;
      if negb (byte =? 255) then
        let index_in_byte := find_first_zero 8 byte start_in_byte in
        if 0 <=? index_in_byte then Some (iter * 8 + index_in_byte)
        else next_unsetted_loop n bitmap (iter + 1) 0
      else next_unsetted_loop n bitmap (iter + 1) 0
  end.

Definition next_unsetted_bit (bitmap : list Z) (size start : Z) : option Z :=
  let iter := Z.quot start 8 in
  ret ← next_unsetted_loop (Z.to_nat (bytes size - iter)) bitmap iter (Z.rem start 8);
  Some (if size <=? ret then -1 else ret).

Fixpoint next_setted_loop (n : nat) (bitmap : list Z) (iter start_in_byte : Z) : option Z :=
  match n with
  | O => Some (-1)
  | S n =>
      byte ← rd bitmap iter;
      if negb (byte =? 0) then
        let index_in_byte := find_first_setted 8 byte start_in_byte in
        if 0 <=? index_in_byte then Some (iter * 8 + index_in_byte)
        else next_setted_loop n bitmap (iter + 1) 0
      else next_setted_loop n bitmap (iter + 1) 0
  end.

Definition next_setted_bit (bitmap : list Z) (size start : Z) : option Z :=
  let iter := Z.quot start 8 in
  ret ← next_setted_loop (Z.to_nat (bytes size - iter)) bitmap iter (Z.rem start 8);
  Some (if size <=? ret then -1 else ret).

(** ** The abstract bitmap: the set of its set bits *)

Definition bit (bitmap : list Z) (index : Z) : bool :=
  match get_bit bitmap index with Some b => b | None => false end.

(** every byte is a byte, and there are enough of them for [size] bits *)
Record bitmap_ok (bitmap : list Z) (size : Z) : Prop := {
  bm_size : 0 ≤ size;
  bm_bytes : Forall (λ b, 0 ≤ b < 256) bitmap;
  bm_len : bytes size ≤ len bitmap;
}.

(** the number of set bits among the first [n] *)
Fixpoint popcount_upto (n : nat) (bitmap : list Z) : Z :=
  match n with
  | O => 0
  | S n => popcount_upto n bitmap + (if bit bitmap (Z.of_nat n) then 1 else 0)
  end.
Definition popcount (size : Z) (bitmap : list Z) : Z := popcount_upto (Z.to_nat size) bitmap.

(** ** Single bits *)

Lemma test_bit_spec byte i : 0 ≤ i → test_bit byte i = Z.testbit byte i.
Proof.
  intros Hi. unfold test_bit. destruct (Z.testbit byte i) eqn:E.
  - apply negb_true_iff, Z.eqb_neq. intros H0.
    assert (Ht : Z.testbit (Z.land byte (Z.shiftl 1 i)) i = true).
    { rewrite Z.land_spec, Z.shiftl_spec, E by lia. by rewrite Z.sub_diag. }
    rewrite H0, Z.bits_0 in Ht. done.
  - apply negb_false_iff, Z.eqb_eq, Z.bits_inj'. intros n Hn.
    rewrite Z.land_spec, Z.bits_0, Z.shiftl_spec by lia.
    destruct (decide (n = i)) as [->|Hne]; [by rewrite E|].
    destruct (decide (n < i)).
    + rewrite (Z.testbit_neg_r 1) by lia. apply andb_false_r.
    + replace (Z.testbit 1 (n - i)) with false; [apply andb_false_r|].
      symmetry. change 1 with (2 ^ 0). apply Z.pow2_bits_false. lia.
Qed.

Lemma testbit_one k : 0 ≤ k → Z.testbit 1 k = bool_decide (k = 0).
Proof.
  intros. change 1 with (2 ^ 0). destruct (decide (k = 0)) as [->|]; [done|].
  rewrite bool_decide_eq_false_2 by done. by apply Z.pow2_bits_false.
Qed.

Lemma test_bit_set byte i j :
  0 ≤ i → 0 ≤ j →
  test_bit (Z.lor byte (Z.shiftl 1 i)) j = bool_decide (i = j) || test_bit byte j.
Proof.
  intros. rewrite !test_bit_spec, Z.lor_spec, Z.shiftl_spec by lia.
  destruct (decide (i = j)) as [->|].
  - rewrite Z.sub_diag, bool_decide_eq_true_2 by done. simpl. apply orb_true_r.
  - rewrite bool_decide_eq_false_2 by done. simpl. destruct (decide (j < i)).
    + by rewrite (Z.testbit_neg_r 1), orb_false_r by lia.
    + rewrite testbit_one, bool_decide_eq_false_2, orb_false_r by lia. done.
Qed.

Lemma test_bit_clear byte i j :
  0 ≤ i → 0 ≤ j →
  test_bit (Z.land byte (Z.lnot (Z.shiftl 1 i))) j = negb (bool_decide (i = j)) && test_bit byte j.
Proof.
  intros. rewrite !test_bit_spec, Z.land_spec, Z.lnot_spec, Z.shiftl_spec by lia.
  destruct (decide (i = j)) as [->|].
  - rewrite Z.sub_diag, bool_decide_eq_true_2 by done. simpl. apply andb_false_r.
  - rewrite bool_decide_eq_false_2 by done. simpl. destruct (decide (j < i)).
    + by rewrite (Z.testbit_neg_r 1), andb_true_r by lia.
    + rewrite testbit_one, bool_decide_eq_false_2, andb_true_r by lia. done.
Qed.

Lemma byte_bits_bound b : 0 ≤ b → (∀ i, 8 ≤ i → Z.testbit b i = false) → b < 256.
Proof.
  intros H0 Hbits. destruct (decide (b = 0)) as [->|]; [lia|].
  assert (Hlog : Z.log2 b < 8).
  { destruct (decide (8 ≤ Z.log2 b)) as [Hge|]; [|lia].
    specialize (Hbits _ Hge). rewrite Z.bit_log2 in Hbits by lia. done. }
  change 256 with (2 ^ 8). apply Z.log2_lt_pow2; lia.
Qed.

Lemma byte_high_bits b i : 0 ≤ b < 256 → 8 ≤ i → Z.testbit b i = false.
Proof.
  intros. destruct (decide (b = 0)) as [->|]; [apply Z.bits_0|].
  apply Z.bits_above_log2; [lia|].
  enough (Z.log2 b < 8) by lia. apply Z.log2_lt_pow2; [lia|]. change (2 ^ 8) with 256. lia.
Qed.

Lemma byte_set_range b i : 0 ≤ b < 256 → 0 ≤ i < 8 → 0 ≤ Z.lor b (Z.shiftl 1 i) < 256.
Proof.
  intros Hb Hi. assert (0 ≤ Z.lor b (Z.shiftl 1 i)).
  { apply Z.lor_nonneg. split; [lia|]. apply Z.shiftl_nonneg. lia. }
  split; [done|]. apply byte_bits_bound; [done|]. intros j Hj.
  rewrite Z.lor_spec, (byte_high_bits b), Z.shiftl_spec by lia.
  rewrite testbit_one, bool_decide_eq_false_2 by lia. done.
Qed.

Lemma byte_clear_range b i : 0 ≤ b < 256 → 0 ≤ i < 8 → 0 ≤ Z.land b (Z.lnot (Z.shiftl 1 i)) < 256.
Proof.
  intros Hb Hi. assert (0 ≤ Z.land b (Z.lnot (Z.shiftl 1 i))) by (apply Z.land_nonneg; lia).
  split; [done|]. apply byte_bits_bound; [done|]. intros j Hj.
  by rewrite Z.land_spec, (byte_high_bits b) by lia.
Qed.

(** ** Byte position of a bit *)

Lemma quot8 i : 0 ≤ i → Z.quot i 8 = i / 8.
Proof. intros. apply Z.quot_div_nonneg; lia. Qed.
Lemma rem8 i : 0 ≤ i → Z.rem i 8 = i mod 8.
Proof. intros. apply Z.rem_mod_nonneg; lia. Qed.
Lemma bytes_spec size : 0 ≤ size → bytes size = (size + 7) / 8.
Proof.
  intros. unfold bytes. rewrite rem8, quot8 by done.
  case_match eqn:E; zbool; Z.to_euclidean_division_equations; lia.
Qed.

Lemma byte_in_range bm size i : bitmap_ok bm size → 0 ≤ i < size → 0 ≤ i / 8 < len bm.
Proof.
  intros [Hs _ Hl] Hi. rewrite bytes_spec in Hl by done.
  Z.to_euclidean_division_equations; lia.
Qed.

Lemma get_bit_bit bm size i : bitmap_ok bm size → 0 ≤ i < size → get_bit bm i = Some (bit bm i).
Proof.
  intros Hok Hi. unfold bit, get_bit.
  destruct (i <? 0) eqn:E; zbool; [lia|]. rewrite quot8 by lia.
  destruct (rd_is_Some bm (i / 8)) as [b Hb]; [eauto using byte_in_range|]. by rewrite Hb.
Qed.

(** both updates replace one byte; [upd] is the new value of each bit *)
Lemma update_byte_spec bm size i f upd :
  bitmap_ok bm size → 0 ≤ i < size →
  (∀ b, 0 ≤ b < 256 → 0 ≤ f b < 256) →
  (∀ b k, 0 ≤ k < 8 → test_bit (f b) k = if bool_decide (i mod 8 = k) then upd else test_bit b k) →
  ∃ bm', (b ← rd bm (i / 8); wr bm (i / 8) (f b)) = Some bm' ∧ bitmap_ok bm' size ∧
    len bm' = len bm ∧ ∀ j, 0 ≤ j → bit bm' j = if bool_decide (i = j) then upd else bit bm j.
Proof.
  intros Hok Hi Hrange Hbits.
  pose proof (byte_in_range _ _ _ Hok Hi) as Hin.
  destruct (rd_is_Some bm (i / 8) Hin) as [b Hb].
  destruct (wr bm (i / 8) (f b)) as [bm'|] eqn:Hw; [|by rewrite wr_is_Some in Hw by lia].
  exists bm'. rewrite Hb. simpl. split; [done|].
  pose proof (wr_len _ _ _ _ Hw) as Hlen. destruct Hok as [Hs Hb256 Hl].
  assert (0 ≤ b < 256).
  { unfold rd in Hb. case_decide; [|done]. by eapply Forall_lookup_1 in Hb256. }
  split; [split; [done| |lia]|split; [done|]].
  { unfold wr in Hw. case_decide; [|done]. injection Hw as <-. apply Forall_insert; auto. }
  intros j Hj. unfold bit, get_bit.
  destruct (j <? 0) eqn:E; zbool; [lia|]. rewrite quot8, rem8 by lia.
  destruct (decide (i / 8 = j / 8)) as [Heq|Hne].
  - rewrite <-Heq, (rd_wr_eq _ _ _ _ Hw), Hb. simpl.
    rewrite Hbits by (apply Z.mod_pos_bound; lia).
    assert (bool_decide (i mod 8 = j mod 8) = bool_decide (i = j)) as ->; [|done].
    apply bool_decide_ext. split; [|by intros ->].
    Z.to_euclidean_division_equations; lia.
  - rewrite (rd_wr_ne _ _ _ _ _ Hw Hne), bool_decide_eq_false_2; [done|]. by intros ->.
Qed.

Lemma set_bit_spec bm size i :
  bitmap_ok bm size → 0 ≤ i < size →
  ∃ bm', set_bit bm i = Some bm' ∧ bitmap_ok bm' size ∧ len bm' = len bm ∧
    ∀ j, 0 ≤ j → bit bm' j = if bool_decide (i = j) then true else bit bm j.
Proof.
  intros Hok Hi. unfold set_bit. destruct (i <? 0) eqn:E; zbool; [lia|].
  rewrite quot8, rem8 by lia. pose proof (Z.mod_pos_bound i 8).
  apply update_byte_spec; [done..| |].
  - intros; apply byte_set_range; lia.
  - intros b k Hk. rewrite test_bit_set by lia. by case_bool_decide.
Qed.

Lemma clear_bit_spec bm size i :
  bitmap_ok bm size → 0 ≤ i < size →
  ∃ bm', clear_bit bm i = Some bm' ∧ bitmap_ok bm' size ∧ len bm' = len bm ∧
    ∀ j, 0 ≤ j → bit bm' j = if bool_decide (i = j) then false else bit bm j.
Proof.
  intros Hok Hi. unfold clear_bit. destruct (i <? 0) eqn:E; zbool; [lia|].
  rewrite quot8, rem8 by lia. pose proof (Z.mod_pos_bound i 8).
  apply update_byte_spec; [done..| |].
  - intros; apply byte_clear_range; lia.
  - intros b k Hk. rewrite test_bit_clear by lia. by case_bool_decide.
Qed.

(** ** Searching *)

(** what a search for the first bit equal to [want] in [from, upto) answers *)
Definition first_bit (bm : list Z) (want : bool) (from upto r : Z) : Prop :=
  (r = -1 ∧ ∀ j, from ≤ j < upto → bit bm j = negb want) ∨
  (from ≤ r < upto ∧ bit bm r = want ∧ ∀ j, from ≤ j < r → bit bm j = negb want).

Lemma find_first_zero_spec n byte start :
  0 ≤ start ≤ 8 → 8 - start ≤ Z.of_nat n →
  (find_first_zero n byte start = -1 ∧ ∀ k, start ≤ k < 8 → test_bit byte k = true) ∨
  (start ≤ find_first_zero n byte start < 8 ∧ test_bit byte (find_first_zero n byte start) = false ∧
   ∀ k, start ≤ k < find_first_zero n byte start → test_bit byte k = true).
Proof.
  revert start. induction n as [|n IH]; intros start Hs Hn; simpl; [left; split; [done|lia]|].
  destruct (start <? 8) eqn:E; zbool; [|left; split; [done|lia]].
  destruct (test_bit byte start) eqn:Et; simpl; [|right; split; [lia|split; [done|lia]]].
  destruct (IH (start + 1)) as [[-> Hall]|(Hr & Hz & Hall)]; [lia..| |].
  - left. split; [done|]. intros k Hk. destruct (decide (k = start)) as [->|]; [done|]. apply Hall; lia.
  - right. split; [lia|]. split; [done|]. intros k Hk.
    destruct (decide (k = start)) as [->|]; [done|]. apply Hall; lia.
Qed.

Lemma find_first_setted_spec n byte start :
  0 ≤ start ≤ 8 → 8 - start ≤ Z.of_nat n →
  (find_first_setted n byte start = -1 ∧ ∀ k, start ≤ k < 8 → test_bit byte k = false) ∨
  (start ≤ find_first_setted n byte start < 8 ∧ test_bit byte (find_first_setted n byte start) = true ∧
   ∀ k, start ≤ k < find_first_setted n byte start → test_bit byte k = false).
Proof.
  revert start. induction n as [|n IH]; intros start Hs Hn; simpl; [left; split; [done|lia]|].
  destruct (start <? 8) eqn:E; zbool; [|left; split; [done|lia]].
  destruct (test_bit byte start) eqn:Et; simpl; [right; split; [lia|split; [done|lia]]|].
  destruct (IH (start + 1)) as [[-> Hall]|(Hr & Hz & Hall)]; [lia..| |].
  - left. split; [done|]. intros k Hk. destruct (decide (k = start)) as [->|]; [done|]. apply Hall; lia.
  - right. split; [lia|]. split; [done|]. intros k Hk.
    destruct (decide (k = start)) as [->|]; [done|]. apply Hall; lia.
Qed.

Lemma bit_in_byte bm iter byte j :
  rd bm iter = Some byte → iter * 8 ≤ j < iter * 8 + 8 → bit bm j = test_bit byte (j - iter * 8).
Proof.
  intros Hrd Hj. pose proof (rd_Some_range _ _ _ Hrd).
  unfold bit, get_bit. destruct (j <? 0) eqn:E; zbool; [lia|].
  rewrite quot8, rem8 by lia.
  assert (j / 8 = iter) as -> by (Z.to_euclidean_division_equations; lia).
  rewrite Hrd. simpl. f_equal. Z.to_euclidean_division_equations; lia.
Qed.

Lemma test_bit_255 k : 0 ≤ k < 8 → test_bit 255 k = true.
Proof.
  intros. rewrite test_bit_spec by lia. change 255 with (Z.ones 8).
  apply Z.ones_spec_low. lia.
Qed.

Lemma test_bit_0 k : 0 ≤ k → test_bit 0 k = false.
Proof. intros. by rewrite test_bit_spec, Z.bits_0 by lia. Qed.

(** extend a search that found nothing in the current byte *)
Lemma first_bit_skip bm want from mid upto r :
  0 ≤ from ≤ mid → (∀ j, from ≤ j < mid → bit bm j = negb want) →
  first_bit bm want mid upto r → first_bit bm want from upto r.
Proof.
  intros Hm Hpre [[-> Hall]|(Hr & Hb & Hall)].
  - left. split; [done|]. intros j Hj. destruct (decide (j < mid)); [apply Hpre; lia|apply Hall; lia].
  - right. split; [lia|]. split; [done|]. intros j Hj.
    destruct (decide (j < mid)); [apply Hpre; lia|apply Hall; lia].
Qed.

Lemma next_unsetted_loop_spec n bm iter s :
  0 ≤ iter → 0 ≤ s < 8 → iter + Z.of_nat n ≤ len bm →
  ∃ r, next_unsetted_loop n bm iter s = Some r ∧
       first_bit bm false (iter * 8 + s) ((iter + Z.of_nat n) * 8) r.
Proof.
  revert iter s. induction n as [|n IH]; intros iter s Hi Hs Hl; cbn [next_unsetted_loop].
  { exists (-1). split; [done|]. left. split; [done|]. lia. }
  destruct (rd_is_Some bm iter) as [byte Hrd]; [lia|]. rewrite Hrd. cbn [mbind option_bind].
  destruct (IH (iter + 1) 0) as (r & Hr & Hfb); [lia..|].
  replace ((iter + 1) * 8 + 0) with (iter * 8 + 8) in Hfb by lia.
  replace (iter + 1 + Z.of_nat n) with (iter + Z.of_nat (S n)) in Hfb by lia.
  destruct (byte =? 255) eqn:E; simpl negb; cbv iota; zbool.
  { exists r. split; [done|]. apply first_bit_skip with (iter * 8 + 8); [lia| |done].
    intros j Hj. rewrite (bit_in_byte _ _ _ _ Hrd), E, test_bit_255 by lia. done. }
  destruct (find_first_zero_spec 8 byte s) as [[Hff Hall]|(Hrange & Hz & Hall)]; [lia|lia|..].
  - rewrite Hff. simpl. exists r. split; [done|].
    apply first_bit_skip with (iter * 8 + 8); [lia| |done].
    intros j Hj. rewrite (bit_in_byte _ _ _ _ Hrd) by lia. apply Hall. lia.
  - destruct (0 <=? _) eqn:Ele; zbool; [|lia]. eexists. split; [done|]. right.
    split; [lia|]. split.
    + rewrite (bit_in_byte _ _ _ _ Hrd) by lia. rewrite <-Hz. f_equal. lia.
    + intros j Hj. rewrite (bit_in_byte _ _ _ _ Hrd) by lia. apply Hall. lia.
Qed.

Lemma next_setted_loop_spec n bm iter s :
  0 ≤ iter → 0 ≤ s < 8 → iter + Z.of_nat n ≤ len bm →
  ∃ r, next_setted_loop n bm iter s = Some r ∧
       first_bit bm true (iter * 8 + s) ((iter + Z.of_nat n) * 8) r.
Proof.
  revert iter s. induction n as [|n IH]; intros iter s Hi Hs Hl; cbn [next_setted_loop].
  { exists (-1). split; [done|]. left. split; [done|]. lia. }
  destruct (rd_is_Some bm iter) as [byte Hrd]; [lia|]. rewrite Hrd. cbn [mbind option_bind].
  destruct (IH (iter + 1) 0) as (r & Hr & Hfb); [lia..|].
  replace ((iter + 1) * 8 + 0) with (iter * 8 + 8) in Hfb by lia.
  replace (iter + 1 + Z.of_nat n) with (iter + Z.of_nat (S n)) in Hfb by lia.
  destruct (byte =? 0) eqn:E; simpl negb; cbv iota; zbool.
  { exists r. split; [done|]. apply first_bit_skip with (iter * 8 + 8); [lia| |done].
    intros j Hj. rewrite (bit_in_byte _ _ _ _ Hrd), E, test_bit_0 by lia. done. }
  destruct (find_first_setted_spec 8 byte s) as [[Hff Hall]|(Hrange & Hz & Hall)]; [lia|lia|..].
  - rewrite Hff. simpl. exists r. split; [done|].
    apply first_bit_skip with (iter * 8 + 8); [lia| |done].
    intros j Hj. rewrite (bit_in_byte _ _ _ _ Hrd) by lia. apply Hall. lia.
  - destruct (0 <=? _) eqn:Ele; zbool; [|lia]. eexists. split; [done|]. right.
    split; [lia|]. split.
    + rewrite (bit_in_byte _ _ _ _ Hrd) by lia. rewrite <-Hz. f_equal. lia.
    + intros j Hj. rewrite (bit_in_byte _ _ _ _ Hrd) by lia. apply Hall. lia.
Qed.

(** a search over whole bytes, cut at [size] *)
Lemma first_bit_cut bm want from upto size r :
  0 ≤ from → size ≤ upto → first_bit bm want from upto r →
  first_bit bm want from size (if size <=? r then -1 else r).
Proof.
  intros Hf Hs [[-> Hall]|(Hr & Hb & Hall)].
  - destruct (size <=? -1) eqn:E; zbool; left; (split; [done|]); intros; apply Hall; lia.
  - destruct (size <=? r) eqn:E; zbool.
    + left. split; [done|]. intros j Hj. apply Hall. lia.
    + right. split; [lia|]. split; [done|]. intros; apply Hall; lia.
Qed.

Lemma search_bounds size start :
  0 ≤ start ≤ size →
  start / 8 + Z.of_nat (Z.to_nat (bytes size - start / 8)) = Z.max (start / 8) (bytes size) ∧
  size ≤ Z.max (start / 8) (bytes size) * 8.
Proof.
  intros. rewrite bytes_spec by lia.
  split; Z.to_euclidean_division_equations; lia.
Qed.

(** [next_unsetted_bit] answers the first clear bit at or after [start], or -1 *)
Lemma next_unsetted_bit_spec bm size start :
  bitmap_ok bm size → 0 ≤ start ≤ size →
  ∃ r, next_unsetted_bit bm size start = Some r ∧ first_bit bm false start size r.
Proof.
  intros [Hsz Hb Hl] Hs. unfold next_unsetted_bit. rewrite quot8, rem8 by lia.
  pose proof (Z.mod_pos_bound start 8). pose proof (search_bounds size start Hs) as [He Hub].
  rewrite bytes_spec in Hl, He, Hub |- * by lia.
  destruct (next_unsetted_loop_spec (Z.to_nat ((size + 7) / 8 - start / 8)) bm (start / 8) (start mod 8))
    as (r & Hr & Hfb); [Z.to_euclidean_division_equations; lia..|].
  rewrite Hr. simpl. eexists. split; [done|].
  replace (start / 8 * 8 + start mod 8) with start in Hfb by (Z.to_euclidean_division_equations; lia).
  rewrite He in Hfb. by eapply first_bit_cut; [lia| |].
Qed.

Lemma next_setted_bit_spec bm size start :
  bitmap_ok bm size → 0 ≤ start ≤ size →
  ∃ r, next_setted_bit bm size start = Some r ∧ first_bit bm true start size r.
Proof.
  intros [Hsz Hb Hl] Hs. unfold next_setted_bit. rewrite quot8, rem8 by lia.
  pose proof (Z.mod_pos_bound start 8). pose proof (search_bounds size start Hs) as [He Hub].
  rewrite bytes_spec in Hl, He, Hub |- * by lia.
  destruct (next_setted_loop_spec (Z.to_nat ((size + 7) / 8 - start / 8)) bm (start / 8) (start mod 8))
    as (r & Hr & Hfb); [Z.to_euclidean_division_equations; lia..|].
  rewrite Hr. simpl. eexists. split; [done|].
  replace (start / 8 * 8 + start mod 8) with start in Hfb by (Z.to_euclidean_division_equations; lia).
  rewrite He in Hfb. by eapply first_bit_cut; [lia| |].
Qed.

(** ** Counting set bits *)

Lemma popcount_upto_ext n bm bm' :
  (∀ j, 0 ≤ j < Z.of_nat n → bit bm j = bit bm' j) → popcount_upto n bm = popcount_upto n bm'.
Proof.
  induction n as [|n IH]; intros He; [done|]. cbn [popcount_upto].
  rewrite IH by (intros; apply He; lia). by rewrite He by lia.
Qed.

Lemma popcount_upto_range n bm : 0 ≤ popcount_upto n bm ≤ Z.of_nat n.
Proof. induction n as [|n IH]; cbn [popcount_upto]; [lia|]. case_match; lia. Qed.

Lemma popcount_range size bm : 0 ≤ size → 0 ≤ popcount size bm ≤ size.
Proof. intros. pose proof (popcount_upto_range (Z.to_nat size) bm). unfold popcount. lia. Qed.

Definition bit_num (bm : list Z) (i : Z) : Z := if bit bm i then 1 else 0.

(** flipping one bit moves the count by the difference of that bit *)
Lemma popcount_upto_update n bm bm' i (b : bool) :
  0 ≤ i → (∀ j, 0 ≤ j → bit bm' j = if bool_decide (i = j) then b else bit bm j) →
  popcount_upto n bm' =
    popcount_upto n bm + (if decide (i < Z.of_nat n) then (if b then 1 else 0) - bit_num bm i else 0).
Proof.
  intros Hi Hupd. induction n as [|n IH]; cbn [popcount_upto].
  { by destruct (decide (i < Z.of_nat 0)); [lia|]. }
  rewrite IH, Hupd by lia. unfold bit_num.
  destruct (decide (i = Z.of_nat n)) as [->|Hne].
  - rewrite bool_decide_eq_true_2 by done.
    rewrite decide_False, decide_True by lia. lia.
  - rewrite bool_decide_eq_false_2 by done.
    destruct (decide (i < Z.of_nat n)).
    + rewrite decide_True by lia. lia.
    + rewrite decide_False by lia. lia.
Qed.

Lemma popcount_update size bm bm' i b :
  0 ≤ i < size → (∀ j, 0 ≤ j → bit bm' j = if bool_decide (i = j) then b else bit bm j) →
  popcount size bm' = popcount size bm + (if b then 1 else 0) - bit_num bm i.
Proof.
  intros Hi Hu. unfold popcount. rewrite (popcount_upto_update _ _ _ i b) by (done || lia).
  rewrite decide_True by lia. lia.
Qed.

Lemma popcount_upto_all n bm :
  (∀ j, 0 ≤ j < Z.of_nat n → bit bm j = true) → popcount_upto n bm = Z.of_nat n.
Proof.
  induction n as [|n IH]; intros Hall; cbn [popcount_upto]; [done|].
  rewrite IH, Hall by (intros; try apply Hall; lia). lia.
Qed.

Lemma popcount_upto_none n bm :
  (∀ j, 0 ≤ j < Z.of_nat n → bit bm j = false) → popcount_upto n bm = 0.
Proof.
  induction n as [|n IH]; intros Hall; cbn [popcount_upto]; [done|].
  rewrite IH, Hall by (intros; try apply Hall; lia). lia.
Qed.

Lemma popcount_full size bm j : popcount size bm = size → 0 ≤ j < size → bit bm j = true.
Proof.
  unfold popcount. intros Hp Hj. assert (Hp' : popcount_upto (Z.to_nat size) bm = Z.of_nat (Z.to_nat size)) by lia.
  assert (Hj' : j < Z.of_nat (Z.to_nat size)) by lia. clear Hp. revert Hp' Hj'.
  induction (Z.to_nat size) as [|n IH]; intros Hp Hn; [lia|]. cbn [popcount_upto] in Hp.
  pose proof (popcount_upto_range n bm). destruct (bit bm (Z.of_nat n)) eqn:E; [|lia].
  destruct (decide (j = Z.of_nat n)) as [->|]; [done|]. apply IH; lia.
Qed.

(** a bitmap whose count is below its size has a free bit, which the search finds *)
Lemma next_unsetted_bit_found bm size :
  bitmap_ok bm size → popcount size bm ≠ size →
  ∃ r, next_unsetted_bit bm size 0 = Some r ∧ 0 ≤ r < size ∧ bit bm r = false ∧
    ∀ j, 0 ≤ j < r → bit bm j = true.
Proof.
  intros Hok Hne. pose proof (bm_size _ _ Hok).
  destruct (next_unsetted_bit_spec bm size 0 Hok) as (r & Hr & [[-> Hall]|(Hrange & Hb & Hall)]); [lia|..].
  - exfalso. apply Hne. unfold popcount. rewrite popcount_upto_all; [lia|]. intros; apply Hall; lia.
  - exists r. eauto.
Qed.

(** ** The empty bitmap *)

Lemma bit_zeroes n i : bit (replicate n 0) i = false.
Proof.
  unfold bit, get_bit. destruct (i <? 0) eqn:E; [done|]. zbool.
  destruct (rd (replicate n 0) (Z.quot i 8)) as [b|] eqn:Hr; [|done]. simpl.
  unfold rd in Hr. case_decide; [|done]. apply lookup_replicate in Hr as [-> _].
  apply test_bit_0. rewrite rem8 by lia. apply Z.mod_pos_bound. lia.
Qed.

Lemma bitmap_ok_zeroes size :
  0 ≤ size → bitmap_ok (replicate (Z.to_nat ((size + 7) / 8)) 0) size.
Proof.
  intros. split; [done| |].
  - apply Forall_replicate. lia.
  - unfold len. rewrite length_replicate, bytes_spec by done. lia.
Qed.

Lemma popcount_zeroes size n : popcount size (replicate n 0) = 0.
Proof. unfold popcount. apply popcount_upto_none. intros. apply bit_zeroes. Qed.

(** the set positions in [from, size), in increasing order *)
Definition set_bits (size : Z) (bm : list Z) : list Z :=
  filter (λ i, bit bm i = true) (seqZ 0 size).

Lemma elem_of_set_bits size bm i : i ∈ set_bits size bm ↔ 0 ≤ i < size ∧ bit bm i = true.
Proof. unfold set_bits. rewrite list_elem_of_filter, elem_of_seqZ. naive_solver lia. Qed.

(** the set positions from [start] on: none when the search fails, otherwise the one it
    finds, then those after it *)
Lemma set_bits_from bm start size r :
  0 ≤ start ≤ size → first_bit bm true start size r →
  filter (λ i, bit bm i = true) (seqZ start (size - start)) =
    if decide (r = -1) then [] else r :: filter (λ i, bit bm i = true) (seqZ (r + 1) (size - (r + 1))).
Proof.
  intros Hs Hfb.
  assert (Hskip : ∀ upto, start ≤ upto ≤ size → (∀ j, start ≤ j < upto → bit bm j = false) →
    filter (λ i, bit bm i = true) (seqZ start (size - start)) =
    filter (λ i, bit bm i = true) (seqZ upto (size - upto))).
  { intros upto Hu Hall. replace (size - start) with ((upto - start) + (size - upto)) by lia.
    rewrite seqZ_app, filter_app by lia. replace (start + (upto - start)) with upto by lia.
    assert (filter (λ i, bit bm i = true) (seqZ start (upto - start)) = []) as ->; [|done].
    apply elem_of_nil_inv. intros j [Hb Hj%elem_of_seqZ]%list_elem_of_filter.
    rewrite Hall in Hb by lia. done. }
  destruct Hfb as [[-> Hall]|(Hr & Hb & Hall)].
  - rewrite decide_True by done. rewrite (Hskip size) by (try apply Hall; lia). by rewrite Z.sub_diag.
  - rewrite decide_False by lia. rewrite (Hskip r) by (try apply Hall; lia).
    rewrite seqZ_cons by lia. rewrite filter_cons_True by done. do 3 f_equal; lia.
Qed.

#[export] Hint Resolve bitmap_ok_zeroes bm_size : arr.
