(* ===== verification/Encoding.v ===== *)
(** * Little-endian images of 32-bit and 64-bit fields

    Log payloads are C structs written to and read from byte arrays by
    [reinterpret_cast] and [memcpy]. Their integer fields are little-endian
    (the engine runs on x86-64 / aarch64). *)
From S2P Require Import Prelude.

Fixpoint le_bytes (n : nat) (z : Z) : list Z :=
  match n with
  | O => []
  | S n => z mod 256 :: le_bytes n (z / 256)
  end.

Fixpoint le_value (bs : list Z) : Z :=
  match bs with
  | [] => 0
  | b :: bs => b + 256 * le_value bs
  end.

(** a signed 32-bit field, and its value read back *)
Definition enc32 (z : Z) : list Z := le_bytes 4 z.
Definition dec32 (bs : list Z) : Z := wrap32 (le_value bs).
Definition enc64 (z : Z) : list Z := le_bytes 8 z.
Definition dec64 (bs : list Z) : Z := wrap_s 64 (le_value bs).

(** the 32-bit field at byte offset [off] *)
Definition field32 (bs : list Z) (off : Z) : option Z :=
  w ← mem_read bs off 4; Some (dec32 w).

Lemma length_le_bytes n z : length (le_bytes n z) = n.
Proof. revert z. induction n; intros; simpl; [done|]. by f_equal. Qed.

Lemma le_bytes_range n z : Forall (λ b, 0 ≤ b < 256) (le_bytes n z).
Proof.
  revert z. induction n as [|n IH]; intros z; simpl; constructor; [|done].
  apply Z.mod_pos_bound. lia.
Qed.

Lemma le_value_bytes n z : le_value (le_bytes n z) = z mod 256 ^ Z.of_nat n.
Proof.
  revert z. induction n as [|n IH]; intros z; [simpl; by rewrite Z.mod_1_r|].
  cbn [le_bytes le_value]. rewrite IH, Nat2Z.inj_succ, Z.pow_succ_r by lia.
  rewrite (Z.rem_mul_r z 256 (256 ^ Z.of_nat n)); [lia|lia|apply Z.pow_pos_nonneg; lia].
Qed.

Lemma wrap_s_mod w z : 1 ≤ w → wrap_s w (z mod 2 ^ w) = wrap_s w z.
Proof. intros. unfold wrap_s. by rewrite Z.add_mod_idemp_l by lia. Qed.

Lemma dec32_enc32 z : in_int32 z → dec32 (enc32 z) = z.
Proof.
  intros Hz. unfold dec32, enc32. rewrite le_value_bytes.
  change (256 ^ Z.of_nat 4) with (2 ^ 32). unfold wrap32.
  rewrite wrap_s_mod by lia. by apply wrap32_id.
Qed.

Lemma dec64_enc64 z : - 2 ^ 63 ≤ z < 2 ^ 63 → dec64 (enc64 z) = z.
Proof.
  intros Hz. unfold dec64, enc64. rewrite le_value_bytes.
  change (256 ^ Z.of_nat 8) with (2 ^ 64). rewrite wrap_s_mod by lia.
  unfold wrap_s. rewrite Z.mod_small; lia.
Qed.

Lemma len_enc32 z : len (enc32 z) = 4.
Proof. unfold len, enc32. by rewrite length_le_bytes. Qed.
Lemma len_enc64 z : len (enc64 z) = 8.
Proof. unfold len, enc64. by rewrite length_le_bytes. Qed.

Lemma len_app {A} (l1 l2 : list A) : len (l1 ++ l2) = len l1 + len l2.
Proof. unfold len. rewrite length_app. lia. Qed.

(** read back one part of a concatenation *)
Lemma mem_read_app {A} (l1 l2 l3 : list A) :
  mem_read (l1 ++ l2 ++ l3) (len l1) (len l2) = Some l2.
Proof.
  unfold mem_read. rewrite decide_True by (rewrite !len_app; unfold len; lia). f_equal.
  rewrite drop_app_length' by (unfold len; lia). apply take_app_length'. unfold len. lia.
Qed.

Lemma field32_app l1 z l3 : in_int32 z → field32 (l1 ++ enc32 z ++ l3) (len l1) = Some z.
Proof.
  intros Hz. unfold field32. pose proof (mem_read_app l1 (enc32 z) l3) as E.
  rewrite len_enc32 in E. rewrite E. simpl. by rewrite dec32_enc32.
Qed.

(** a struct of 32-bit fields, followed by [tail] *)
Fixpoint enc_fields (zs : list Z) : list Z :=
  match zs with [] => [] | z :: zs => enc32 z ++ enc_fields zs end.

Lemma len_enc_fields zs : len (enc_fields zs) = 4 * len zs.
Proof.
  induction zs as [|z zs IH]; [done|]. cbn [enc_fields].
  rewrite len_app, len_enc32, IH. unfold len. cbn [length]. lia.
Qed.

Lemma enc_fields_app zs1 zs2 : enc_fields (zs1 ++ zs2) = enc_fields zs1 ++ enc_fields zs2.
Proof. induction zs1 as [|z zs IH]; [done|]. cbn [app enc_fields]. by rewrite IH, app_assoc. Qed.

(** field number [k] of the struct is read at offset [4 * k], wrapped to 32 bits *)
Lemma field32_enc_fields' zs tail k z :
  zs !! k = Some z → field32 (enc_fields zs ++ tail) (4 * Z.of_nat k) = Some (wrap32 z).
Proof.
  intros Hk. rewrite <-(take_drop_middle zs k z Hk), enc_fields_app. cbn [enc_fields].
  rewrite <-!app_assoc.
  replace (4 * Z.of_nat k) with (len (enc_fields (take k zs))).
  2:{ rewrite len_enc_fields. apply lookup_lt_Some in Hk. unfold len. rewrite length_take. lia. }
  unfold field32. pose proof (mem_read_app (enc_fields (take k zs)) (enc32 z)
    (enc_fields (drop (S k) zs) ++ tail)) as E.
  rewrite len_enc32 in E. rewrite E. cbn [mbind option_bind]. f_equal. unfold dec32, enc32.
  rewrite le_value_bytes. change (256 ^ Z.of_nat 4) with (2 ^ 32). unfold wrap32. by apply wrap_s_mod.
Qed.

Lemma field32_enc_fields zs tail k z :
  zs !! k = Some z → in_int32 z → field32 (enc_fields zs ++ tail) (4 * Z.of_nat k) = Some z.
Proof. intros Hk Hz. rewrite (field32_enc_fields' _ _ _ _ Hk). by rewrite wrap32_id. Qed.

Lemma mem_read_enc_fields_tail zs tail n :
  0 ≤ n ≤ len tail → mem_read (enc_fields zs ++ tail) (4 * len zs) n = Some (take (Z.to_nat n) tail).
Proof.
  intros Hn. unfold mem_read. pose proof (len_enc_fields zs) as Hl.
  rewrite decide_True by (rewrite len_app, Hl; unfold len in *; lia). f_equal.
  rewrite drop_app_length'; [done|]. unfold len in *. lia.
Qed.
