(* ===== verification/LogHandler.v ===== *)
(** * LogHandler: the interface of the commit log (storage/clog/log_handler.h)

    The record manager, the buffer pool and the transactions write the redo log
    through the virtual class [LogHandler]. [LogHandler] here is that class as a
    typeclass; [VacuousLogHandler] (storage/clog/vacuous_log_handler.h) is the
    instance that drops every entry, the disk log is the instance of
    DiskLog.v. [WalLaws] states what a log that keeps its entries
    promises to its clients. *)
From S2P Require Import Prelude Types.

(** storage/clog/log_module.h *)
Inductive LogModule : Set := BUFFER_POOL | BPLUS_TREE | RECORD_MANAGER | TRANSACTION.
#[export] Instance LogModule_eq_dec : EqDecision LogModule.
Proof. solve_decision. Defined.

Definition LogModule_index (m : LogModule) : Z :=
  match m with BUFFER_POOL => 0 | BPLUS_TREE => 1 | RECORD_MANAGER => 2 | TRANSACTION => 3 end.

(** one entry of the log: sequence number, module and payload bytes *)
Record LogRec := mkLogRec { lr_lsn : LSN; lr_module : LogModule; lr_data : list Z }.

(** [append] answers the result code and the LSN given to the entry (0, the
    callers' initial value, when it was not set); [wait_lsn] the result code. *)
Class LogHandler (L : Type) := {
  append : LogModule → list Z → M L (RC * LSN);
  wait_lsn : LSN → M L RC;
}.

(** a log that is [log_ready] takes every payload of at most [log_max] bytes, room
    enough for a page image, and stays ready *)
Class LogTotal (L : Type) `{LogHandler L} := {
  log_ready : L → Prop;
  log_max : Z;
  log_max_page : 64 + BP_PAGE_DATA_SIZE ≤ log_max;
  append_total l m data :
    log_ready l → len data ≤ log_max →
    ∃ rc lsn l', append m data l = Some ((rc, lsn), l') ∧ log_ready l';
  wait_total l lsn : log_ready l → ∃ rc l', wait_lsn lsn l = Some (rc, l') ∧ log_ready l';
}.

(** what a log that keeps its entries promises: an appended entry gets the next
    LSN and stays at the end of the log *)
Class WalLaws (L : Type) `{LogTotal L} := {
  wal_entries : L → list LogRec;
  wal_lsn : L → LSN;
  wal_lsn_nonneg l : log_ready l → 0 ≤ wal_lsn l;
  wal_append l m data :
    log_ready l → len data ≤ log_max →
    ∃ l', append m data l = Some ((SUCCESS, wal_lsn l + 1), l') ∧ log_ready l' ∧
      wal_lsn l' = wal_lsn l + 1 ∧
      wal_entries l' = wal_entries l ++ [mkLogRec (wal_lsn l + 1) m data];
  wal_wait l lsn rc l' : log_ready l → wait_lsn lsn l = Some (rc, l') → wal_lsn l' = wal_lsn l ∧ wal_entries l' = wal_entries l;
}.

(** waiting, any number of times *)
Definition waited {L} `{LogHandler L} : relation L := rtc (λ l l', ∃ lsn rc, wait_lsn lsn l = Some (rc, l')).

Lemma waited_refl {L} `{LogHandler L} (l : L) : waited l l.
Proof. apply rtc_refl. Qed.
Lemma waited_once {L} `{LogHandler L} (l : L) lsn rc l' : wait_lsn lsn l = Some (rc, l') → waited l l'.
Proof. intros E. apply rtc_once. by exists lsn, rc. Qed.
Lemma waited_trans {L} `{LogHandler L} (l1 l2 l3 : L) : waited l1 l2 → waited l2 l3 → waited l1 l3.
Proof. apply transitivity. Qed.
#[export] Hint Resolve waited_refl : core.

Lemma waited_same {L} `{WalLaws L} (l l' : L) : waited l l' → log_ready l → log_ready l' ∧ wal_lsn l' = wal_lsn l ∧ wal_entries l' = wal_entries l.
Proof.
  induction 1 as [l|l1 l2 l3 (lsn & rc & E) _ IH]; intros Hr; [done|]. destruct (wal_wait _ _ _ _ Hr E) as [Hl He].
  destruct (wait_total l1 lsn Hr) as (rc' & l2' & E' & Hr'). assert (l2' = l2) as -> by congruence. destruct (IH Hr') as (? & ? & ?). split; [done|]. split; congruence.
Qed.

(** [VacuousLogHandler]: [lsn = 0; return RC::SUCCESS] *)
Definition vacuous_append (m : LogModule) (data : list Z) : M unit (RC * LSN) := ret (SUCCESS, 0).
Definition vacuous_wait_lsn (lsn : LSN) : M unit RC := ret SUCCESS.
#[export] Instance VacuousLogHandler : LogHandler unit :=
  {| append := vacuous_append; wait_lsn := vacuous_wait_lsn |}.

#[export] Program Instance VacuousLogTotal : LogTotal unit :=
  {| log_ready := λ _, True; log_max := 2 ^ 31 |}.
Next Obligation. by vm_compute. Qed.
Next Obligation. intros [] m data _ _. by exists SUCCESS, 0, tt. Qed.
Next Obligation. intros [] lsn _. by exists SUCCESS, tt. Qed.

(** the smallest log that keeps its entries: the sequence of them *)
Definition list_append (m : LogModule) (data : list Z) : M (list LogRec) (RC * LSN) := λ l,
  Some ((SUCCESS, len l + 1), l ++ [mkLogRec (len l + 1) m data]).
Definition list_wait_lsn (lsn : LSN) : M (list LogRec) RC := ret SUCCESS.
#[export] Instance ListLogHandler : LogHandler (list LogRec) :=
  {| append := list_append; wait_lsn := list_wait_lsn |}.
#[export] Program Instance ListLogTotal : LogTotal (list LogRec) :=
  {| log_ready := λ _, True; log_max := 2 ^ 31 |}.
Next Obligation. by vm_compute. Qed.
Next Obligation. intros l m data _ _. unfold append; simpl. unfold list_append. eauto. Qed.
Next Obligation. intros l lsn _. by exists SUCCESS, l. Qed.
#[export] Program Instance ListWalLaws : WalLaws (list LogRec) :=
  {| wal_entries := id; wal_lsn := len |}.
Next Obligation. intros l _. unfold len. lia. Qed.
Next Obligation.
  intros l m data _ _. eexists. split; [done|]. split; [done|]. split; [|done].
  unfold len. rewrite length_app. simpl. lia.
Qed.
Next Obligation. by intros l lsn rc l' _ [= <- <-]. Qed.
