(* ===== verification/RecordPageHandler.v ===== *)
(** * RecordPageHandler: storage/record/record_manager.cpp, one page

    A page of a table file in row format: the [PageHeader], the slot bitmap and
    the record area of the frame's [BP_PAGE_DATA_SIZE] bytes. Each operation
    changes the page in memory, appends its redo entry through the record log
    (record_log.cpp) and stamps the frame with the entry's LSN. *)
From S2P Require Import Prelude Types Bitmap Encoding LogHandler.

(** ** Layout arithmetic *)

(** [sizeof(PageHeader)]: seven [int32_t] *)
Definition PAGE_HEADER_SIZE : Z := 28.

(** [(size + 7) & ~7] *)
Definition align8 (size : Z) : Z := Z.land (size + 7) (Z.lnot 7).

(** [(int)((page_size - PAGE_HEADER_SIZE - fixed_size - 1) / (record_size + 0.125))]:
    the quotient of two doubles truncated towards zero, written over the common
    denominator 8. The operands are small integers and eighths, exact as doubles,
    and a quotient that is not an integer is further from the next one than a
    rounding error, so the exact truncated quotient is the value computed. *)
Definition page_record_capacity (page_size record_size fixed_size : Z) : Z :=
  Z.quot (8 * (page_size - PAGE_HEADER_SIZE - fixed_size - 1)) (8 * record_size + 1).

Definition page_bitmap_size (record_capacity : Z) : Z := Z.quot (record_capacity + 7) 8.

(** ** State *)

Record PageHeader := mkPageHeader {
  record_num : Z;
  column_num : Z;
  record_real_size : Z;
  record_size : Z;
  record_capacity : Z;
  col_idx_offset : Z;
  data_offset : Z;
}.

(** the frame the handler works on. [header] and [bitmap] are the typed views of
    bytes [0, 28) and [28, 28 + page_bitmap_size) of the frame; [data] holds all
    its bytes and is read and written only from [col_idx_offset] on. *)
Record RecordFrame := mkRecordFrame {
  frame_page_num : PageNum;
  frame_lsn : LSN;
  frame_dirty : bool;
  header : PageHeader;
  bitmap : list Z;
  data : list Z;
}.

Definition with_record_num (h : PageHeader) (n : Z) : PageHeader :=
  mkPageHeader n (column_num h) (record_real_size h) (record_size h) (record_capacity h)
    (col_idx_offset h) (data_offset h).
Definition with_capacity (h : PageHeader) (n : Z) : PageHeader :=
  mkPageHeader (record_num h) (column_num h) (record_real_size h) (record_size h) n
    (col_idx_offset h) (data_offset h).
Definition set_lsn (lsn : LSN) (f : RecordFrame) : RecordFrame :=
  mkRecordFrame (frame_page_num f) lsn (frame_dirty f) (header f) (bitmap f) (data f).
Definition mark_dirty (f : RecordFrame) : RecordFrame :=
  mkRecordFrame (frame_page_num f) (frame_lsn f) true (header f) (bitmap f) (data f).
Definition set_header (h : PageHeader) (f : RecordFrame) : RecordFrame :=
  mkRecordFrame (frame_page_num f) (frame_lsn f) (frame_dirty f) h (bitmap f) (data f).
Definition set_bitmap (bm : list Z) (f : RecordFrame) : RecordFrame :=
  mkRecordFrame (frame_page_num f) (frame_lsn f) (frame_dirty f) (header f) bm (data f).
Definition set_data (d : list Z) (f : RecordFrame) : RecordFrame :=
  mkRecordFrame (frame_page_num f) (frame_lsn f) (frame_dirty f) (header f) (bitmap f) d.

(** [RecordPageHandler] with its [RecordLogHandler] member and the log behind it *)
Record Handler (L : Type) := mkHandler {
  frame_ : RecordFrame;
  rw_mode_ : ReadWriteMode;
  buffer_pool_id_ : Z;
  log_record_size_ : Z;    (** [RecordLogHandler::record_size_] *)
  log_ : L;
}.
Arguments mkHandler {L}.
Arguments frame_ {L}. Arguments rw_mode_ {L}. Arguments buffer_pool_id_ {L}.
Arguments log_record_size_ {L}. Arguments log_ {L}.

(** ** The record log: storage/record/record_log.cpp *)

Inductive RecordOperation : Set := INIT_PAGE | INSERT | DELETE | UPDATE.
#[export] Instance RecordOperation_eq_dec : EqDecision RecordOperation.
Proof. solve_decision. Defined.
Definition type_id (op : RecordOperation) : Z :=
  match op with INIT_PAGE => 0 | INSERT => 1 | DELETE => 2 | UPDATE => 3 end.
Definition op_of_id (z : Z) : option RecordOperation :=
  match z with 0 => Some INIT_PAGE | 1 => Some INSERT | 2 => Some DELETE | 3 => Some UPDATE | _ => None end.

(** [enum class StorageFormat] of common/types.h *)
Definition ROW_FORMAT : Z := 1.
Definition PAX_FORMAT : Z := 2.

(** [RecordLogHeader] and the bytes after it; [slot_or_size] is the union *)
Record RecordLogHeader := mkRecordLogHeader {
  lh_buffer_pool_id : Z;
  lh_operation_type : Z;
  lh_page_num : PageNum;
  lh_storage_format : Z;
  lh_column_num : Z;
  slot_or_size : Z;
  lh_data : list Z;
}.
Definition RecordLogHeader_SIZE : Z := 24.

Definition enc_log (h : RecordLogHeader) : list Z :=
  enc_fields [lh_buffer_pool_id h; lh_operation_type h; lh_page_num h; lh_storage_format h;
              lh_column_num h; slot_or_size h] ++ lh_data h.

Section handler.
Context {L : Type} `{LogHandler L}.
(** the indeterminate value of [RecordLogHeader::column_num] in the header that
    [delete_record] leaves uninitialised *)
Variable uninit : Z.

Definition upd_frame (f : RecordFrame → RecordFrame) (h : Handler L) : Handler L :=
  mkHandler (f (frame_ h)) (rw_mode_ h) (buffer_pool_id_ h) (log_record_size_ h) (log_ h).

(** [log_handler_->append(...)], then [frame->set_lsn(lsn)] when it succeeded with [lsn > 0] *)
Definition log_append (payload : list Z) : M (Handler L) RC := λ h,
  match append RECORD_MANAGER payload (log_ h) with
  | None => None
  | Some ((rc, lsn), l') =>
      let h' := mkHandler (frame_ h) (rw_mode_ h) (buffer_pool_id_ h) (log_record_size_ h) l' in
      Some (rc, if OB_SUCC rc && (0 <? lsn) then upd_frame (set_lsn lsn) h' else h')
  end.

Definition log_init_new_page (storage_format : Z) (page_num : PageNum) (column_index : list Z) : M (Handler L) RC :=
  let* h := get in
  log_append (enc_log (mkRecordLogHeader (buffer_pool_id_ h) (type_id INIT_PAGE) page_num storage_format
    (Z.quot (len column_index) 4) (log_record_size_ h) column_index)).

Definition log_insert_record (rid : RID) (record : list Z) : M (Handler L) RC :=
  let* h := get in
  let* rec := liftO (mem_read record 0 (log_record_size_ h)) in
  log_append (enc_log (mkRecordLogHeader (buffer_pool_id_ h) (type_id INSERT) (page_num rid) ROW_FORMAT
    0 (slot_num rid) rec)).

Definition log_update_record (rid : RID) (record : list Z) : M (Handler L) RC :=
  let* h := get in
  let* rec := liftO (mem_read record 0 (log_record_size_ h)) in
  log_append (enc_log (mkRecordLogHeader (buffer_pool_id_ h) (type_id UPDATE) (page_num rid) ROW_FORMAT
    0 (slot_num rid) rec)).

Definition log_delete_record (rid : RID) : M (Handler L) RC :=
  let* h := get in
  log_append (enc_log (mkRecordLogHeader (buffer_pool_id_ h) (type_id DELETE) (page_num rid) ROW_FORMAT
    uninit (slot_num rid) [])).

(** ** Page operations *)

(** [get_record_data(slot)] as an offset into the frame data *)
Definition get_record_data (hd : PageHeader) (slot : SlotNum) : Z :=
  data_offset hd + record_size hd * slot.

(** [fix_record_capacity]: [n] iterations left *)
Fixpoint fix_record_capacity_loop (n : nat) (last_record_offset : Z) (hd : PageHeader) : option PageHeader :=
  if BP_PAGE_DATA_SIZE <? last_record_offset then
    match n with
    | O => None
    | S n => fix_record_capacity_loop n (last_record_offset - record_size hd)
               (with_capacity hd (record_capacity hd - 1))
    end
  else Some hd.
Definition fix_record_capacity (hd : PageHeader) : option PageHeader :=
  let last_record_offset := data_offset hd + record_capacity hd * record_size hd in
  fix_record_capacity_loop (Z.to_nat (record_capacity hd)) last_record_offset hd.

(** the header computed by both versions of [init_empty_page] before [fix_record_capacity] *)
Definition fresh_header (record_size0 column_num0 : Z) : PageHeader :=
  let rs := align8 record_size0 in
  let cap := page_record_capacity BP_PAGE_DATA_SIZE rs (column_num0 * 4) in
  let off := align8 (PAGE_HEADER_SIZE + page_bitmap_size cap) in
  mkPageHeader 0 column_num0 record_size0 rs cap off (off + column_num0 * 4).

(** the header, the assertion and the cleared bitmap of [init_empty_page] *)
Definition init_page_layout (record_size0 column_num0 : Z) : M (Handler L) PageHeader :=
  let* hd := liftO (fix_record_capacity (fresh_header record_size0 column_num0)) in
  assertM (data_offset hd + record_capacity hd * record_size hd <=? BP_PAGE_DATA_SIZE) ;;;
  modify (upd_frame (set_header hd)) ;;;
  modify (upd_frame (set_bitmap (replicate (Z.to_nat (page_bitmap_size (record_capacity hd))) 0))) ;;;
  ret hd.

(** the column index written by the PAX format, from the column lengths *)
Fixpoint column_index_values (cap prev : Z) (field_lens : list Z) : list Z :=
  match field_lens with
  | [] => []
  | l :: ls => (l * cap + prev) :: column_index_values cap (l * cap + prev) ls
  end.

(** only the PAX format keeps a column index *)
Definition column_lens (storage_format : Z) (table_fields : option (list Z)) : list Z :=
  match table_fields with
  | Some fl => if storage_format =? PAX_FORMAT then fl else []
  | None => []
  end.

(** [init_empty_page(buffer_pool, log_handler, page_num, record_size, table_meta)] on a
    frame already latched by [init]; [table_fields] are the lengths of the fields of
    [table_meta], [None] for a null pointer *)
Definition init_empty_page (storage_format : Z) (record_size0 : Z) (table_fields : option (list Z)) : M (Handler L) RC :=
  modify (λ h, mkHandler (frame_ h) READ_WRITE (buffer_pool_id_ h) record_size0 (log_ h)) ;;;
  let field_lens := column_lens storage_format table_fields in
  let column_num0 := len field_lens in
  let* hd := init_page_layout record_size0 column_num0 in
  let index := enc_fields (column_index_values (record_capacity hd) 0 field_lens) in
  let* h := get in
  let* d := liftO (mem_write (data (frame_ h)) (col_idx_offset hd) index) in
  modify (upd_frame (set_data d)) ;;;
  log_init_new_page storage_format (frame_page_num (frame_ h)) index.

(** the version of [init_empty_page] used by the replay: no log entry is written *)
Definition init_empty_page_redo (record_size0 column_num0 : Z) (col_idx_data : list Z) : M (Handler L) RC :=
  modify (λ h, mkHandler (frame_ h) READ_WRITE (buffer_pool_id_ h) record_size0 (log_ h)) ;;;
  let* hd := init_page_layout record_size0 column_num0 in
  let* index := liftO (mem_read col_idx_data 0 (column_num0 * 4)) in
  let* h := get in
  let* d := liftO (mem_write (data (frame_ h)) (col_idx_offset hd) index) in
  modify (upd_frame (set_data d)) ;;;
  ret SUCCESS.

(** [memcpy(get_record_data(slot), data, record_real_size)] *)
Definition write_slot (slot : SlotNum) (src : list Z) : M (Handler L) unit :=
  let* h := get in
  let hd := header (frame_ h) in
  let* rec := liftO (mem_read src 0 (record_real_size hd)) in
  let* d := liftO (mem_write (data (frame_ h)) (get_record_data hd slot) rec) in
  modify (upd_frame (set_data d)).

Definition is_full (h : Handler L) : bool :=
  record_capacity (header (frame_ h)) <=? record_num (header (frame_ h)).

Definition not_read_only (h : Handler L) : bool :=
  match rw_mode_ h with READ_ONLY => false | READ_WRITE => true end.

(** [RowRecordPageHandler::insert_record]; the [RID] is the output parameter *)
Definition insert_record (src : list Z) : M (Handler L) (RC * option RID) :=
  let* h := get in
  assertM (not_read_only h) ;;;
  let hd := header (frame_ h) in
  if record_num hd =? record_capacity hd then ret (RECORD_NOMEM, None)
  else
    let* index := liftO (next_unsetted_bit (bitmap (frame_ h)) (record_capacity hd) 0) in
    let* bm := liftO (set_bit (bitmap (frame_ h)) index) in
    modify (upd_frame (set_bitmap bm)) ;;;
    modify (upd_frame (set_header (with_record_num hd (record_num hd + 1)))) ;;;
    let rid := mkRID (frame_page_num (frame_ h)) index in
    log_insert_record rid src ;;;
    write_slot index src ;;;
    modify (upd_frame mark_dirty) ;;;
    ret (SUCCESS, Some rid).

(** [RowRecordPageHandler::recover_insert_record] *)
Definition recover_insert_record (src : list Z) (rid : RID) : M (Handler L) RC :=
  let* h := get in
  let hd := header (frame_ h) in
  if record_capacity hd <=? slot_num rid then ret RECORD_INVALID_RID
  else
    let* b := liftO (get_bit (bitmap (frame_ h)) (slot_num rid)) in
    (if negb b then
      let* bm := liftO (set_bit (bitmap (frame_ h)) (slot_num rid)) in
      modify (upd_frame (set_bitmap bm)) ;;;
      modify (upd_frame (set_header (with_record_num hd (record_num hd + 1))))
    else ret tt) ;;;
    write_slot (slot_num rid) src ;;;
    modify (upd_frame mark_dirty) ;;;
    ret SUCCESS.

(** [RowRecordPageHandler::delete_record] (and [PaxRecordPageHandler::delete_record],
    the same text) *)
Definition delete_record (rid : RID) : M (Handler L) RC :=
  let* h := get in
  assertM (not_read_only h) ;;;
  let hd := header (frame_ h) in
  let* b := liftO (get_bit (bitmap (frame_ h)) (slot_num rid)) in
  if b then
    let* bm := liftO (clear_bit (bitmap (frame_ h)) (slot_num rid)) in
    modify (upd_frame (set_bitmap bm)) ;;;
    modify (upd_frame (set_header (with_record_num hd (record_num hd - 1)))) ;;;
    modify (upd_frame mark_dirty) ;;;
    log_delete_record rid ;;;
    ret SUCCESS
  else ret RECORD_NOT_EXIST.

(** [RowRecordPageHandler::update_record] with a source other than the record itself *)
Definition update_record (rid : RID) (src : list Z) : M (Handler L) RC :=
  let* h := get in
  assertM (not_read_only h) ;;;
  let hd := header (frame_ h) in
  if record_capacity hd <=? slot_num rid then ret INVALID_ARGUMENT
  else
    let* b := liftO (get_bit (bitmap (frame_ h)) (slot_num rid)) in
    if b then
      modify (upd_frame mark_dirty) ;;;
      write_slot (slot_num rid) src ;;;
      log_update_record rid src ;;;
      ret SUCCESS
    else ret RECORD_NOT_EXIST.

(** [RowRecordPageHandler::get_record]: the record's bytes *)
Definition get_record (rid : RID) : M (Handler L) (RC * option (list Z)) :=
  let* h := get in
  let hd := header (frame_ h) in
  if record_capacity hd <=? slot_num rid then ret (RECORD_INVALID_RID, None)
  else
    let* b := liftO (get_bit (bitmap (frame_ h)) (slot_num rid)) in
    if negb b then ret (RECORD_NOT_EXIST, None)
    else
      let* r := liftO (mem_read (data (frame_ h)) (get_record_data hd (slot_num rid)) (record_real_size hd)) in
      ret (SUCCESS, Some r).

(** [RecordPageIterator]: the cursor is [next_slot_num_] *)
Definition iter_init (start_slot : SlotNum) (h : Handler L) : option SlotNum :=
  next_setted_bit (bitmap (frame_ h)) (record_capacity (header (frame_ h))) start_slot.
Definition iter_has_next (cursor : SlotNum) : bool := negb (cursor =? -1).
(** [RecordPageIterator::next]: [record] is the in/out parameter (left as it was when
    [get_record] fails); also answers the next cursor *)
Definition iter_next (cursor : SlotNum) (record : RID * list Z) (h : Handler L) :
    option (RC * (RID * list Z) * SlotNum) :=
  let rid := mkRID (frame_page_num (frame_ h)) cursor in
  match get_record rid h with
  | None => None
  | Some ((_, r), _) =>
      let record' := match r with Some d => (rid, d) | None => record end in
      cursor' ← (if 0 <=? cursor
                 then next_setted_bit (bitmap (frame_ h)) (record_capacity (header (frame_ h))) (cursor + 1)
                 else Some cursor);
      Some (if negb (slot_num record'.1 =? -1) then SUCCESS else RECORD_EOF, record', cursor')
  end.
End handler.

(** ** The abstract page: a finite map from slots to records *)

Definition record_at (f : RecordFrame) (slot : SlotNum) : option (list Z) :=
  let hd := header f in
  if decide (0 ≤ slot < record_capacity hd) then
    if bit (bitmap f) slot
    then mem_read (data f) (get_record_data hd slot) (record_real_size hd) else None
  else None.

Definition contents (f : RecordFrame) : gmap Z (list Z) :=
  list_to_map (omap (λ i, r ← record_at f i; Some (i, r)) (seqZ 0 (record_capacity (header f)))).

(** the invariant of a page *)
Record page_ok (f : RecordFrame) : Prop := {
  po_bitmap : bitmap_ok (bitmap f) (record_capacity (header f));
  po_count : record_num (header f) = popcount (record_capacity (header f)) (bitmap f);
  po_real : 0 ≤ record_real_size (header f) ≤ record_size (header f);
  po_room : PAGE_HEADER_SIZE + page_bitmap_size (record_capacity (header f)) ≤ col_idx_offset (header f);
  po_index : col_idx_offset (header f) ≤ data_offset (header f);
  po_fit : data_offset (header f) + record_capacity (header f) * record_size (header f) ≤ BP_PAGE_DATA_SIZE;
  po_data : len (data f) = BP_PAGE_DATA_SIZE;
}.

(** the invariant of a handler that is ready to change its page *)
Record handler_ok {L} `{LogTotal L} (h : Handler L) : Prop := {
  ho_page : page_ok (frame_ h);
  ho_mode : rw_mode_ h = READ_WRITE;
  ho_log : log_ready (log_ h);
  ho_size : log_record_size_ h = record_real_size (header (frame_ h));
}.

(** ** Lemmas on the abstract page *)

Lemma record_at_Some_range f i r : record_at f i = Some r → 0 ≤ i < record_capacity (header f).
Proof. unfold record_at. by case_decide. Qed.

Lemma lookup_omap_list_to_map (g : Z → option (list Z)) (l : list Z) i :
  NoDup l →
  (list_to_map (omap (λ i, r ← g i; Some (i, r)) l) : gmap Z (list Z)) !! i =
    if decide (i ∈ l) then g i else None.
Proof.
  induction l as [|j l IH]; intros Hnd.
  { rewrite decide_False by set_solver. done. }
  apply NoDup_cons in Hnd as [Hj Hnd]. specialize (IH Hnd). cbn [omap list_omap].
  destruct (g j) as [r|] eqn:Eg; cbn [mbind option_bind].
  - rewrite list_to_map_cons. destruct (decide (i = j)) as [->|Hne].
    + rewrite lookup_insert_eq, decide_True by set_solver. done.
    + rewrite lookup_insert_ne, IH by done.
      destruct (decide (i ∈ l)); [rewrite decide_True by set_solver; done|].
      rewrite decide_False by set_solver. done.
  - rewrite IH. destruct (decide (i ∈ l)); [rewrite decide_True by set_solver; done|].
    destruct (decide (i ∈ j :: l)); [|done]. by assert (i = j) as -> by set_solver.
Qed.

Lemma lookup_contents f i : contents f !! i = record_at f i.
Proof.
  unfold contents. rewrite lookup_omap_list_to_map by apply NoDup_seqZ.
  case_decide as Hin; [done|]. rewrite elem_of_seqZ in Hin.
  unfold record_at. rewrite decide_False by lia. done.
Qed.

(** the contents depend only on the header's layout, the bitmap and the data *)
Lemma contents_eq f f' :
  record_capacity (header f) = record_capacity (header f') →
  (∀ i, record_at f i = record_at f' i) → contents f = contents f'.
Proof. intros Hc Hr. apply map_eq. intros i. by rewrite !lookup_contents. Qed.

Lemma slot_bounds f i :
  page_ok f → 0 ≤ i < record_capacity (header f) →
  0 ≤ get_record_data (header f) i ∧
  get_record_data (header f) i + record_real_size (header f) ≤ len (data f).
Proof.
  intros [Hb Hc Hr Hro Hi Hf Hd] Hs. unfold get_record_data. rewrite Hd.
  assert (0 ≤ page_bitmap_size (record_capacity (header f))).
  { unfold page_bitmap_size. rewrite Z.quot_div_nonneg by lia. apply Z.div_pos; lia. }
  unfold PAGE_HEADER_SIZE in *. nia.
Qed.

Lemma record_at_is_Some f i :
  page_ok f → 0 ≤ i < record_capacity (header f) →
  is_Some (record_at f i) ↔ bit (bitmap f) i = true.
Proof.
  intros Hok Hi. unfold record_at. rewrite decide_True by done.
  destruct (bit (bitmap f) i); [|naive_solver].
  split; [done|]. intros _. destruct (slot_bounds f i Hok Hi).
  apply mem_read_is_Some; [lia| |lia]. destruct Hok; lia.
Qed.

(** two different slots do not overlap *)
Lemma slots_disjoint hd i j :
  0 ≤ record_real_size hd ≤ record_size hd → i ≠ j →
  get_record_data hd j + record_real_size hd ≤ get_record_data hd i ∨
  get_record_data hd i + record_real_size hd ≤ get_record_data hd j.
Proof. intros Hr Hne. unfold get_record_data. destruct (decide (j < i)); [left|right]; nia. Qed.

Lemma page_ok_lsn f l d : page_ok f → page_ok (mkRecordFrame (frame_page_num f) l d (header f) (bitmap f) (data f)).
Proof. by intros []; constructor. Qed.

(** writing a record into slot [i] and setting its bit adds it to the contents *)
Lemma contents_write f i rec bm' d' n l dt :
  page_ok f → 0 ≤ i < record_capacity (header f) → len rec = record_real_size (header f) →
  mem_write (data f) (get_record_data (header f) i) rec = Some d' →
  (∀ j, 0 ≤ j → bit bm' j = if bool_decide (i = j) then true else bit (bitmap f) j) →
  contents (mkRecordFrame (frame_page_num f) l dt (with_record_num (header f) n) bm' d') =
    <[i := rec]> (contents f).
Proof.
  intros Hok Hi Hrec Hw Hbit. apply map_eq. intros j. rewrite lookup_contents.
  destruct (decide (i = j)) as [<-|Hne].
  - rewrite lookup_insert_eq. unfold record_at; simpl.
    rewrite decide_True, Hbit, bool_decide_eq_true_2 by (done || lia).
    unfold get_record_data; simpl. fold (get_record_data (header f) i).
    rewrite <-Hrec. by eapply mem_read_write_eq.
  - rewrite lookup_insert_ne, lookup_contents by done. unfold record_at; simpl.
    case_decide; [|done]. rewrite Hbit, bool_decide_eq_false_2 by (done || lia).
    destruct (bit (bitmap f) j); [|done].
    unfold get_record_data; simpl. fold (get_record_data (header f) j).
    eapply mem_read_write_ne; [done|]. rewrite Hrec.
    destruct Hok. destruct (slots_disjoint (header f) i j); auto.
Qed.

(** clearing the bit of slot [i] removes it *)
Lemma contents_clear f i bm' n l dt :
  (∀ j, 0 ≤ j → bit bm' j = if bool_decide (i = j) then false else bit (bitmap f) j) →
  contents (mkRecordFrame (frame_page_num f) l dt (with_record_num (header f) n) bm' (data f)) =
    delete i (contents f).
Proof.
  intros Hbit. apply map_eq. intros j. rewrite lookup_contents.
  destruct (decide (i = j)) as [<-|Hne].
  - rewrite lookup_delete_eq. unfold record_at; simpl. case_decide; [|done].
    rewrite Hbit, bool_decide_eq_true_2 by (done || lia). done.
  - rewrite lookup_delete_ne, lookup_contents by done. unfold record_at; simpl.
    case_decide; [|done]. rewrite Hbit, bool_decide_eq_false_2 by (done || lia). done.
Qed.

(** the number of records is the size of the map *)
Lemma page_ok_update f i b bm' d' l dt :
  page_ok f → 0 ≤ i < record_capacity (header f) → len d' = len (data f) →
  bitmap_ok bm' (record_capacity (header f)) →
  (∀ j, 0 ≤ j → bit bm' j = if bool_decide (i = j) then b else bit (bitmap f) j) →
  page_ok (mkRecordFrame (frame_page_num f) l dt
    (with_record_num (header f) (record_num (header f) + (if b then 1 else 0) - bit_num (bitmap f) i)) bm' d').
Proof.
  intros [Hb Hc Hr Hro Hi Hf Hd] Hrange Hlen Hbm Hbit. constructor; simpl; try done; [|lia].
  rewrite Hc. symmetry. by apply popcount_update.
Qed.

(** ** The operations *)

Section specs.
Context {L : Type} `{LT : LogTotal L}.
Implicit Types (h : Handler L).

Lemma record_size_bound f : page_ok f → record_capacity (header f) ≠ 0 →
  record_real_size (header f) ≤ BP_PAGE_DATA_SIZE.
Proof.
  intros Hok Hc. pose proof (bm_size _ _ (po_bitmap _ Hok)).
  destruct (slot_bounds f 0 Hok); [lia|]. rewrite (po_data _ Hok) in *. lia.
Qed.

Lemma len_enc_log lh : len (enc_log lh) = RecordLogHeader_SIZE + len (lh_data lh).
Proof. unfold enc_log. rewrite len_app, len_enc_fields. done. Qed.

(** a handler whose page differs at most in its LSN and whose log is still ready *)
Definition logged h h' : Prop :=
  rw_mode_ h' = rw_mode_ h ∧ buffer_pool_id_ h' = buffer_pool_id_ h ∧
  log_record_size_ h' = log_record_size_ h ∧ log_ready (log_ h') ∧
  ∃ lsn, frame_ h' = set_lsn lsn (frame_ h).

Lemma log_append_total h payload :
  log_ready (log_ h) → len payload ≤ log_max →
  ∃ rc h', log_append payload h = Some (rc, h') ∧ logged h h'.
Proof.
  intros Hr Hl. destruct (append_total (log_ h) RECORD_MANAGER payload Hr Hl) as (rc & lsn & l' & E & Hr').
  unfold log_append. rewrite E. do 2 eexists. split; [done|].
  unfold logged. case_match; simpl; do 4 (split; [done|]); [by exists lsn|].
  exists (frame_lsn (frame_ h)). by destruct h as [[] ? ? ? ?].
Qed.

Lemma log_record_total h rid src (f : RID → list Z → M (Handler L) RC) :
  (f = log_insert_record ∨ f = log_update_record) →
  log_ready (log_ h) → 0 ≤ log_record_size_ h ≤ BP_PAGE_DATA_SIZE → log_record_size_ h ≤ len src →
  ∃ rc h', f rid src h = Some (rc, h') ∧ logged h h'.
Proof.
  intros Hf Hr Hs Hl. destruct (mem_read_is_Some src 0 (log_record_size_ h)) as [rec Hrec]; [lia..|].
  pose proof (mem_read_len _ _ _ _ Hrec). pose proof log_max_page.
  destruct Hf as [-> | ->]; [unfold log_insert_record|unfold log_update_record];
    rewrite bind_get, (bind_liftO _ _ _ _ Hrec); apply log_append_total; try done;
    rewrite len_enc_log; simpl; unfold RecordLogHeader_SIZE; lia.
Qed.

Lemma log_delete_total uninit h rid :
  log_ready (log_ h) → ∃ rc h', log_delete_record uninit rid h = Some (rc, h') ∧ logged h h'.
Proof.
  intros Hr. unfold log_delete_record. rewrite bind_get. apply log_append_total; [done|].
  rewrite len_enc_log. pose proof log_max_page. assert (0 ≤ BP_PAGE_DATA_SIZE) by done.
  unfold RecordLogHeader_SIZE, len. cbn [lh_data length]. lia.
Qed.

Lemma write_slot_eq h i src :
  page_ok (frame_ h) → 0 ≤ i < record_capacity (header (frame_ h)) →
  record_real_size (header (frame_ h)) ≤ len src →
  ∃ rec d', mem_read src 0 (record_real_size (header (frame_ h))) = Some rec ∧
    len rec = record_real_size (header (frame_ h)) ∧
    mem_write (data (frame_ h)) (get_record_data (header (frame_ h)) i) rec = Some d' ∧
    len d' = len (data (frame_ h)) ∧
    write_slot i src h = Some (tt, upd_frame (set_data d') h).
Proof.
  intros Hok Hi Hl. pose proof (po_real _ Hok).
  destruct (mem_read_is_Some src 0 (record_real_size (header (frame_ h)))) as [rec Hrec]; [lia..|].
  pose proof (mem_read_len _ _ _ _ Hrec) as Hrl. destruct (slot_bounds _ _ Hok Hi).
  destruct (mem_write_is_Some (data (frame_ h)) (get_record_data (header (frame_ h)) i) rec) as [d' Hd]; [lia..|].
  exists rec, d'. do 3 (split; [done|]). split; [by eapply mem_write_len|].
  unfold write_slot. rewrite bind_get, (bind_liftO _ _ _ _ Hrec), (bind_liftO _ _ _ _ Hd). done.
Qed.

(** a full page refuses an insertion and is left as it was *)
Lemma insert_record_full h src :
  rw_mode_ h = READ_WRITE →
  record_num (header (frame_ h)) = record_capacity (header (frame_ h)) →
  insert_record src h = Some ((RECORD_NOMEM, None), h).
Proof.
  intros Hm Hf. unfold insert_record. rewrite bind_get, bind_assertM by (unfold not_read_only; by rewrite Hm).
  cbv zeta. by rewrite Hf, Z.eqb_refl.
Qed.

(** an insertion stores the record in the first free slot and keeps the others *)
Lemma insert_record_ok h src :
  handler_ok h → record_real_size (header (frame_ h)) ≤ len src →
  record_num (header (frame_ h)) ≠ record_capacity (header (frame_ h)) →
  ∃ slot rec h',
    insert_record src h = Some ((SUCCESS, Some (mkRID (frame_page_num (frame_ h)) slot)), h') ∧
    handler_ok h' ∧ 0 ≤ slot < record_capacity (header (frame_ h)) ∧
    mem_read src 0 (record_real_size (header (frame_ h))) = Some rec ∧
    contents (frame_ h) !! slot = None ∧
    (∀ j, 0 ≤ j < slot → is_Some (contents (frame_ h) !! j)) ∧
    contents (frame_ h') = <[slot := rec]> (contents (frame_ h)) ∧
    header (frame_ h') = with_record_num (header (frame_ h)) (record_num (header (frame_ h)) + 1) ∧
    frame_dirty (frame_ h') = true.
Proof.
  intros [Hok Hm Hlog Hsz] Hl Hne. pose proof (po_real _ Hok).
  destruct (next_unsetted_bit_found (bitmap (frame_ h)) (record_capacity (header (frame_ h))))
    as (slot & Hslot & Hrange & Hclr & Hbefore);
    [apply Hok|rewrite <-(po_count _ Hok); done|].
  destruct (set_bit_spec _ _ slot (po_bitmap _ Hok) Hrange) as (bm' & Hset & Hbm' & _ & Hbits).
  assert (Hsmall : record_real_size (header (frame_ h)) ≤ BP_PAGE_DATA_SIZE)
    by (apply record_size_bound; [done|lia]).
  unfold insert_record. rewrite bind_get, bind_assertM by (unfold not_read_only; by rewrite Hm).
  cbv zeta. destruct (_ =? _) eqn:E; zbool; [done|].
  rewrite (bind_liftO _ _ _ _ Hslot), (bind_liftO _ _ _ _ Hset), !bind_modify.
  set (h1 := upd_frame (set_header _) _).
  destruct (log_record_total h1 (mkRID (frame_page_num (frame_ h)) slot) src log_insert_record)
    as (rc & h2 & E2 & Hm2 & Hb2 & Hs2 & Hr2 & lsn & Hf2); [by left|done| | |].
  { change (log_record_size_ h1) with (log_record_size_ h). lia. }
  { change (log_record_size_ h1) with (log_record_size_ h). lia. }
  rewrite (bind_eq _ _ _ _ _ E2).
  assert (Hok2 : page_ok (frame_ h2)).
  { rewrite Hf2. pose proof (page_ok_update _ slot true bm' (data (frame_ h)) lsn (frame_dirty (frame_ h))
      Hok Hrange eq_refl Hbm' Hbits) as Hp. unfold bit_num in Hp. rewrite Hclr, Z.sub_0_r in Hp. exact Hp. }
  destruct (write_slot_eq h2 slot src Hok2) as (rec & d' & Hrec & Hrl & Hw & Hdl & Hws).
  { rewrite Hf2. done. } { rewrite Hf2. done. }
  rewrite (bind_eq _ _ _ _ _ Hws), bind_modify. rewrite Hf2 in Hrec, Hw, Hrl, Hdl. simpl in Hrec, Hw, Hrl, Hdl.
  do 3 eexists. split; [done|].
  split; [|split; [done|split; [exact Hrec|split; [|split; [|split; [|split; [|done]]]]]]].
  - constructor; simpl; rewrite ?Hf2; simpl.
    + pose proof (page_ok_update _ slot true bm' d' lsn true Hok Hrange Hdl Hbm' Hbits) as Hp.
      unfold bit_num in Hp. rewrite Hclr, Z.sub_0_r in Hp. exact Hp.
    + by rewrite Hm2.
    + done.
    + by rewrite Hs2.
  - rewrite lookup_contents. unfold record_at. rewrite decide_True, Hclr by done. done.
  - intros j Hj. rewrite lookup_contents. apply record_at_is_Some; [done|lia|]. by apply Hbefore.
  - cbn [frame_ upd_frame]. rewrite Hf2. exact (contents_write (frame_ h) slot rec bm' d' _ lsn true Hok Hrange Hrl Hw Hbits).
  - cbn [frame_ upd_frame]. by rewrite Hf2.
Qed.

Lemma get_bit_contents f i :
  page_ok f → 0 ≤ i < record_capacity (header f) →
  get_bit (bitmap f) i = Some (bool_decide (is_Some (contents f !! i))).
Proof.
  intros Hok Hi. rewrite (get_bit_bit _ _ _ (po_bitmap _ Hok) Hi). f_equal.
  destruct (bit (bitmap f) i) eqn:Eb.
  - symmetry. apply bool_decide_eq_true_2. rewrite lookup_contents. by apply record_at_is_Some.
  - symmetry. apply bool_decide_eq_false_2. rewrite lookup_contents, record_at_is_Some by done. by rewrite Eb.
Qed.

(** [get_record] reads the abstract contents, with the code's error for each miss *)
Lemma get_record_ok h rid :
  page_ok (frame_ h) → 0 ≤ slot_num rid →
  get_record rid h =
    Some (if decide (record_capacity (header (frame_ h)) ≤ slot_num rid) then (RECORD_INVALID_RID, None)
          else match contents (frame_ h) !! slot_num rid with
               | Some r => (SUCCESS, Some r)
               | None => (RECORD_NOT_EXIST, None)
               end, h).
Proof.
  intros Hok H0. unfold get_record. rewrite bind_get. cbv zeta.
  destruct (_ <=? _) eqn:E; zbool; [by rewrite decide_True|]. rewrite decide_False by lia.
  rewrite (bind_liftO _ _ _ _ (get_bit_contents (frame_ h) (slot_num rid) Hok ltac:(lia))).
  rewrite lookup_contents. case_bool_decide as Hs; simpl.
  - destruct Hs as [r Hr]. rewrite Hr. unfold record_at in Hr. rewrite decide_True in Hr by lia.
    case_match; [|done]. by rewrite (bind_liftO _ _ _ _ Hr).
  - rewrite <-eq_None_not_Some in Hs. by rewrite Hs.
Qed.

(** a deletion removes exactly the record it names; a free slot is an error and no change *)
Lemma delete_record_ok uninit h rid :
  handler_ok h → 0 ≤ slot_num rid < record_capacity (header (frame_ h)) →
  match contents (frame_ h) !! slot_num rid with
  | None => delete_record uninit rid h = Some (RECORD_NOT_EXIST, h)
  | Some _ => ∃ h', delete_record uninit rid h = Some (SUCCESS, h') ∧ handler_ok h' ∧
      contents (frame_ h') = delete (slot_num rid) (contents (frame_ h)) ∧
      header (frame_ h') = with_record_num (header (frame_ h)) (record_num (header (frame_ h)) - 1) ∧
      frame_dirty (frame_ h') = true
  end.
Proof.
  intros [Hok Hm Hlog Hsz] Hi. unfold delete_record.
  rewrite bind_get, bind_assertM by (unfold not_read_only; by rewrite Hm). cbv zeta.
  pose proof (get_bit_contents (frame_ h) (slot_num rid) Hok Hi) as Hgb.
  rewrite (bind_liftO _ _ _ _ Hgb). clear Hgb.
  destruct (contents (frame_ h) !! slot_num rid) as [r|] eqn:Ec.
  2:{ by rewrite bool_decide_eq_false_2 by (by intros [? ?]). }
  rewrite bool_decide_eq_true_2 by eauto.
  destruct (clear_bit_spec _ _ _ (po_bitmap _ Hok) Hi) as (bm' & Hclr & Hbm' & _ & Hbits).
  rewrite (bind_liftO _ _ _ _ Hclr), !bind_modify.
  set (h1 := upd_frame mark_dirty _).
  destruct (log_delete_total uninit h1 rid) as (rc & h2 & E2 & Hm2 & Hb2 & Hs2 & Hr2 & lsn & Hf2); [done|].
  rewrite (bind_eq _ _ _ _ _ E2). eexists. split; [done|].
  assert (Hset : bit (bitmap (frame_ h)) (slot_num rid) = true).
  { apply record_at_is_Some; [done..|]. rewrite <-lookup_contents, Ec. eauto. }
  split; [constructor|split; [|split]].
  - pose proof (page_ok_update _ _ false bm' (data (frame_ h)) lsn true Hok Hi eq_refl Hbm' Hbits) as Hp.
    unfold bit_num in Hp. rewrite Hset, Z.add_0_r in Hp. rewrite Hf2. exact Hp.
  - by rewrite Hm2.
  - done.
  - rewrite Hs2, Hf2. exact Hsz.
  - rewrite Hf2. exact (contents_clear (frame_ h) (slot_num rid) bm' _ lsn true Hbits).
  - by rewrite Hf2.
  - by rewrite Hf2.
Qed.

(** an update replaces exactly the record it names *)
Lemma update_record_ok h rid src :
  handler_ok h → 0 ≤ slot_num rid → record_real_size (header (frame_ h)) ≤ len src →
  if decide (record_capacity (header (frame_ h)) ≤ slot_num rid)
  then update_record rid src h = Some (INVALID_ARGUMENT, h)
  else match contents (frame_ h) !! slot_num rid with
  | None => update_record rid src h = Some (RECORD_NOT_EXIST, h)
  | Some _ => ∃ rec h', update_record rid src h = Some (SUCCESS, h') ∧ handler_ok h' ∧
      mem_read src 0 (record_real_size (header (frame_ h))) = Some rec ∧
      contents (frame_ h') = <[slot_num rid := rec]> (contents (frame_ h)) ∧
      header (frame_ h') = header (frame_ h) ∧ frame_dirty (frame_ h') = true
  end.
Proof.
  intros [Hok Hm Hlog Hsz] H0 Hl. pose proof (po_real _ Hok). unfold update_record.
  rewrite bind_get, bind_assertM by (unfold not_read_only; by rewrite Hm). cbv zeta.
  case_decide as Hcap; [by rewrite (proj2 (Z.leb_le _ _) Hcap)|].
  destruct (_ <=? _) eqn:E; zbool; [lia|].
  assert (Hi : 0 ≤ slot_num rid < record_capacity (header (frame_ h))) by lia.
  rewrite (bind_liftO _ _ _ _ (get_bit_contents (frame_ h) (slot_num rid) Hok Hi)).
  destruct (contents (frame_ h) !! slot_num rid) as [r|] eqn:Ec.
  2:{ by rewrite bool_decide_eq_false_2 by (by intros [? ?]). }
  rewrite bool_decide_eq_true_2 by eauto. rewrite bind_modify.
  assert (Hok1 : page_ok (frame_ (upd_frame mark_dirty h))) by (apply page_ok_lsn; done).
  destruct (write_slot_eq _ (slot_num rid) src Hok1) as (rec & d' & Hrec & Hrl & Hw & Hdl & Hws); [done..|].
  rewrite (bind_eq _ _ _ _ _ Hws).
  set (h1 := upd_frame (set_data d') _).
  assert (record_real_size (header (frame_ h)) ≤ BP_PAGE_DATA_SIZE) by (apply record_size_bound; [done|lia]).
  destruct (log_record_total h1 rid src log_update_record)
    as (rc & h2 & E2 & Hm2 & Hb2 & Hs2 & Hr2 & lsn & Hf2); [by right|done| | |].
  { change (log_record_size_ h1) with (log_record_size_ h). lia. }
  { change (log_record_size_ h1) with (log_record_size_ h). lia. }
  rewrite (bind_eq _ _ _ _ _ E2). do 2 eexists. split; [done|].
  assert (Hset : bit (bitmap (frame_ h)) (slot_num rid) = true).
  { apply record_at_is_Some; [done..|]. rewrite <-lookup_contents, Ec. eauto. }
  split; [constructor|split; [exact Hrec|split; [|by rewrite Hf2]]].
  - rewrite Hf2. destruct Hok. constructor; simpl; try done. by rewrite <-po_data0.
  - by rewrite Hm2.
  - done.
  - rewrite Hs2, Hf2. exact Hsz.
  - rewrite Hf2.
    pose proof (contents_write (frame_ h) _ rec (bitmap (frame_ h)) d' (record_num (header (frame_ h))) lsn true
      Hok Hi Hrl Hw) as Hcw.
    assert (Hwr : with_record_num (header (frame_ h)) (record_num (header (frame_ h))) = header (frame_ h))
      by (by destruct (header (frame_ h))).
    rewrite Hwr in Hcw. apply Hcw. intros j Hj. case_bool_decide; [by subst j|done].
Qed.
End specs.

(** ** The layout of a new page *)

Lemma align8_spec z : 0 ≤ z → align8 z = (z + 7) / 8 * 8.
Proof.
  intros. unfold align8. replace (Z.lnot 7) with (- 2 ^ 3) by done.
  apply Z.bits_inj'. intros n Hn. rewrite Z.land_spec.
  replace ((z + 7) / 8 * 8) with (Z.shiftl (Z.shiftr (z + 7) 3) 3)
    by (rewrite Z.shiftl_mul_pow2, Z.shiftr_div_pow2 by lia; done).
  rewrite Z.shiftl_spec by lia. replace (- 2 ^ 3) with (Z.shiftl (-1) 3) by done.
  rewrite Z.shiftl_spec by lia. destruct (decide (n < 3)).
  - rewrite !(Z.testbit_neg_r _ (n - 3)) by lia. apply andb_false_r.
  - rewrite Z.bits_m1, Z.shiftr_spec, andb_true_r by lia. f_equal. lia.
Qed.

Lemma fix_record_capacity_loop_spec n hd :
  0 ≤ record_size hd → data_offset hd ≤ BP_PAGE_DATA_SIZE →
  0 ≤ record_capacity hd ≤ Z.of_nat n →
  ∃ cap, fix_record_capacity_loop n (data_offset hd + record_capacity hd * record_size hd) hd =
           Some (with_capacity hd cap) ∧
    0 ≤ cap ≤ record_capacity hd ∧ data_offset hd + cap * record_size hd ≤ BP_PAGE_DATA_SIZE ∧
    (cap = record_capacity hd ∨ BP_PAGE_DATA_SIZE < data_offset hd + (cap + 1) * record_size hd).
Proof.
  revert hd. induction n as [|n IH]; intros hd Hs Ho Hc; cbn [fix_record_capacity_loop].
  - destruct (_ <? _) eqn:E; zbool; [nia|]. exists (record_capacity hd).
    split; [by destruct hd|]. repeat split; try lia.
  - destruct (_ <? _) eqn:E; zbool.
    2:{ exists (record_capacity hd). split; [by destruct hd|]. repeat split; try lia. }
    set (hd' := with_capacity hd (record_capacity hd - 1)).
    replace (data_offset hd + record_capacity hd * record_size hd - record_size hd)
      with (data_offset hd' + record_capacity hd' * record_size hd') by (unfold hd'; simpl; lia).
    destruct (IH hd') as (cap & Heq & Hcap & Hfit & Hmax); [done..| |].
    { unfold hd'. simpl. split; [|lia].
      destruct (decide (record_capacity hd = 0)) as [E0|]; [|lia]. rewrite E0 in *. lia. }
    exists cap. rewrite Heq. split; [done|]. unfold hd' in *; simpl in *.
    split; [lia|]. split; [done|]. right. destruct Hmax as [-> | ?]; [|done].
    replace (record_capacity hd - 1 + 1) with (record_capacity hd) by lia. done.
Qed.

(** the header of a new page: the records fit the page after the bitmap and the column index *)
Lemma fresh_header_spec rs cn :
  1 ≤ rs → 0 ≤ cn ≤ 1000 →
  ∃ hd, fix_record_capacity (fresh_header rs cn) = Some hd ∧
    record_num hd = 0 ∧ record_real_size hd = rs ∧ column_num hd = cn ∧ record_size hd = align8 rs ∧
    rs ≤ record_size hd ∧ 0 ≤ record_capacity hd ∧
    PAGE_HEADER_SIZE + page_bitmap_size (record_capacity hd) ≤ col_idx_offset hd ∧
    col_idx_offset hd + 4 * cn = data_offset hd ∧ 0 ≤ col_idx_offset hd ∧
    data_offset hd ≤ BP_PAGE_DATA_SIZE ∧
    data_offset hd + record_capacity hd * record_size hd ≤ BP_PAGE_DATA_SIZE.
Proof.
  intros Hrs Hcn. unfold fix_record_capacity.
  assert (Hal : align8 rs = (rs + 7) / 8 * 8) by (apply align8_spec; lia).
  assert (Hge : 8 ≤ align8 rs ∧ rs ≤ align8 rs) by (rewrite Hal; Z.to_euclidean_division_equations; lia).
  set (cap := page_record_capacity BP_PAGE_DATA_SIZE (align8 rs) (cn * 4)).
  assert (Hcap : 0 ≤ cap ≤ 1002 - cn * 32 / 65).
  { unfold cap, page_record_capacity. change BP_PAGE_DATA_SIZE with 8176. change PAGE_HEADER_SIZE with 28.
    rewrite Z.quot_div_nonneg by lia. split; [apply Z.div_pos; lia|].
    transitivity ((8 * (8176 - 28 - cn * 4 - 1)) / 65).
    - apply Z.div_le_compat_l; lia.
    - Z.to_euclidean_division_equations; lia. }
  assert (Hbs : page_bitmap_size cap = (cap + 7) / 8).
  { unfold page_bitmap_size. apply Z.quot_div_nonneg; lia. }
  assert (Hoff : align8 (PAGE_HEADER_SIZE + page_bitmap_size cap) = (28 + (cap + 7) / 8 + 7) / 8 * 8).
  { rewrite Hbs. apply align8_spec. pose proof (Z.div_pos (cap + 7) 8). unfold PAGE_HEADER_SIZE. lia. }
  destruct (fix_record_capacity_loop_spec (Z.to_nat (record_capacity (fresh_header rs cn))) (fresh_header rs cn))
    as (cap' & Heq & Hc' & Hfit & _); simpl; fold cap.
  { lia. }
  { rewrite Hoff. change BP_PAGE_DATA_SIZE with 8176. Z.to_euclidean_division_equations; lia. }
  { lia. }
  simpl in Heq, Hfit, Hc'. fold cap in Heq, Hfit, Hc'. rewrite Heq. eexists. split; [done|]. simpl. fold cap.
  do 4 (split; [done|]). split; [lia|]. split; [lia|].
  assert (Hle : page_bitmap_size cap' ≤ page_bitmap_size cap).
  { unfold page_bitmap_size. rewrite !Z.quot_div_nonneg by lia. apply Z.div_le_mono; lia. }
  assert (Hup : PAGE_HEADER_SIZE + page_bitmap_size cap ≤ align8 (PAGE_HEADER_SIZE + page_bitmap_size cap)).
  { rewrite Hoff, Hbs. unfold PAGE_HEADER_SIZE. Z.to_euclidean_division_equations; lia. }
  split; [lia|]. split; [lia|]. split; [rewrite Hoff; Z.to_euclidean_division_equations; lia|].
  split; [|lia]. rewrite Hoff. change BP_PAGE_DATA_SIZE with 8176.
  Z.to_euclidean_division_equations; lia.
Qed.

Lemma bitmap_ok_fresh cap : 0 ≤ cap → bitmap_ok (replicate (Z.to_nat (page_bitmap_size cap)) 0) cap.
Proof.
  intros. unfold page_bitmap_size. rewrite Z.quot_div_nonneg by lia. by apply bitmap_ok_zeroes.
Qed.

(** the page that [init_empty_page] lays out over any frame of the right size satisfies the
    invariant and holds no record *)
Lemma fresh_page_ok pn lsn dirty hd d :
  record_num hd = 0 → 0 ≤ record_real_size hd ≤ record_size hd → 0 ≤ record_capacity hd →
  PAGE_HEADER_SIZE + page_bitmap_size (record_capacity hd) ≤ col_idx_offset hd →
  col_idx_offset hd ≤ data_offset hd →
  data_offset hd + record_capacity hd * record_size hd ≤ BP_PAGE_DATA_SIZE →
  len d = BP_PAGE_DATA_SIZE →
  let f := mkRecordFrame pn lsn dirty hd (replicate (Z.to_nat (page_bitmap_size (record_capacity hd))) 0) d in
  page_ok f ∧ contents f = ∅.
Proof.
  intros Hn Hr Hc Hroom Hidx Hfit Hd. split.
  - constructor; simpl; try done; [by apply bitmap_ok_fresh|]. by rewrite popcount_zeroes.
  - apply map_eq. intros i. rewrite lookup_contents, lookup_empty. unfold record_at; simpl.
    case_decide; [|done]. by rewrite bit_zeroes.
Qed.

(** ** Recovery insertion, page initialisation and iteration *)

Section specs2.
Context {L : Type} `{LT : LogTotal L}.
Implicit Types (h : Handler L).

(** [recover_insert_record] puts the record into the slot it names, whether free or taken *)
Lemma recover_insert_record_ok h src rid :
  page_ok (frame_ h) → 0 ≤ slot_num rid → record_real_size (header (frame_ h)) ≤ len src →
  if decide (record_capacity (header (frame_ h)) ≤ slot_num rid)
  then recover_insert_record src rid h = Some (RECORD_INVALID_RID, h)
  else ∃ rec h', recover_insert_record src rid h = Some (SUCCESS, h') ∧ page_ok (frame_ h') ∧
      mem_read src 0 (record_real_size (header (frame_ h))) = Some rec ∧
      contents (frame_ h') = <[slot_num rid := rec]> (contents (frame_ h)) ∧
      frame_lsn (frame_ h') = frame_lsn (frame_ h) ∧ frame_dirty (frame_ h') = true ∧ log_ h' = log_ h.
Proof.
  intros Hok H0 Hl. unfold recover_insert_record. rewrite bind_get. cbv zeta.
  case_decide as Hcap; [by rewrite (proj2 (Z.leb_le _ _) Hcap)|].
  destruct (_ <=? _) eqn:E; zbool; [lia|].
  assert (Hi : 0 ≤ slot_num rid < record_capacity (header (frame_ h))) by lia.
  rewrite (bind_liftO _ _ _ _ (get_bit_bit _ _ _ (po_bitmap _ Hok) Hi)).
  destruct (bit (bitmap (frame_ h)) (slot_num rid)) eqn:Eb; cbn [negb].
  - rewrite bind_ret.
    destruct (write_slot_eq h (slot_num rid) src) as (rec & d' & Hrec & Hrl & Hw & Hdl & Hws); [done..|].
    rewrite (bind_eq _ _ _ _ _ Hws), bind_modify. do 2 eexists. split; [done|].
    assert (Hbits : ∀ j, 0 ≤ j → bit (bitmap (frame_ h)) j =
      if bool_decide (slot_num rid = j) then true else bit (bitmap (frame_ h)) j).
    { intros j Hj. case_bool_decide; [by subst j|done]. }
    pose proof (page_ok_update _ _ true _ d' (frame_lsn (frame_ h)) true Hok Hi Hdl (po_bitmap _ Hok) Hbits) as Hp.
    pose proof (contents_write _ _ rec _ d' (record_num (header (frame_ h))) (frame_lsn (frame_ h)) true Hok Hi Hrl Hw Hbits) as Hcw.
    unfold bit_num in Hp. rewrite Eb, Z.add_simpl_r in Hp.
    replace (with_record_num (header (frame_ h)) (record_num (header (frame_ h)))) with (header (frame_ h)) in Hp, Hcw
      by (by destruct (header (frame_ h))).
    split; [exact Hp|]. split; [exact Hrec|]. split; [exact Hcw|]. done.
  - destruct (set_bit_spec _ _ _ (po_bitmap _ Hok) Hi) as (bm' & Hset & Hbm' & _ & Hbits).
    rewrite bind_assoc, (bind_liftO _ _ _ _ Hset), !bind_assoc, bind_modify, bind_modify.
    set (h1 := upd_frame (set_header _) _).
    assert (Hok1 : page_ok (frame_ h1)).
    { pose proof (page_ok_update _ _ true bm' (data (frame_ h)) (frame_lsn (frame_ h)) (frame_dirty (frame_ h))
        Hok Hi eq_refl Hbm' Hbits) as Hp. unfold bit_num in Hp. rewrite Eb, Z.sub_0_r in Hp. exact Hp. }
    destruct (write_slot_eq h1 (slot_num rid) src) as (rec & d' & Hrec & Hrl & Hw & Hdl & Hws); [done..|].
    rewrite (bind_eq _ _ _ _ _ Hws), bind_modify. do 2 eexists. split; [done|].
    pose proof (page_ok_update _ _ true bm' d' (frame_lsn (frame_ h)) true Hok Hi Hdl Hbm' Hbits) as Hp.
    unfold bit_num in Hp. rewrite Eb, Z.sub_0_r in Hp.
    split; [exact Hp|]. split; [exact Hrec|]. split; [|done].
    exact (contents_write _ _ rec bm' d' _ (frame_lsn (frame_ h)) true Hok Hi Hrl Hw Hbits).
Qed.

Lemma len_column_index cap prev fl : len (column_index_values cap prev fl) = len fl.
Proof.
  revert prev. induction fl as [|l fl IH]; intros prev; [done|]. cbn [column_index_values].
  specialize (IH (l * cap + prev)). unfold len in *. cbn [length]. lia.
Qed.

(** the layout step of both versions: it never fails the assertion *)
Lemma init_page_layout_ok h rs cn :
  1 ≤ rs → 0 ≤ cn ≤ 1000 → len (data (frame_ h)) = BP_PAGE_DATA_SIZE →
  ∃ hd, init_page_layout rs cn h = Some (hd, upd_frame (set_bitmap
      (replicate (Z.to_nat (page_bitmap_size (record_capacity hd))) 0)) (upd_frame (set_header hd) h)) ∧
    fix_record_capacity (fresh_header rs cn) = Some hd ∧ column_num hd = cn ∧ record_real_size hd = rs ∧
    0 ≤ col_idx_offset hd ∧ col_idx_offset hd + 4 * cn ≤ BP_PAGE_DATA_SIZE ∧
    ∀ pn lsn dt d, len d = BP_PAGE_DATA_SIZE →
      let f := mkRecordFrame pn lsn dt hd (replicate (Z.to_nat (page_bitmap_size (record_capacity hd))) 0) d in
      page_ok f ∧ contents f = ∅.
Proof.
  intros Hrs Hcn Hd. destruct (fresh_header_spec rs cn Hrs Hcn)
    as (hd & Hfix & Hn & Hrr & Hc & Hsz & Hle & Hcap & Hroom & Hidx & Hpos & Hdo & Hfit).
  exists hd. split; [|split; [done|split; [done|split; [done|split; [done|split; [lia|]]]]]].
  - unfold init_page_layout. rewrite (bind_liftO _ _ _ _ Hfix), bind_assertM by (by apply Z.leb_le).
    by rewrite !bind_modify.
  - intros. apply fresh_page_ok; try done; lia.
Qed.

Lemma init_empty_page_ok h sf rs tf :
  let field_lens := column_lens sf tf in
  log_ready (log_ h) → 1 ≤ rs → len field_lens ≤ 1000 → len (data (frame_ h)) = BP_PAGE_DATA_SIZE →
  ∃ rc h', init_empty_page sf rs tf h = Some (rc, h') ∧ handler_ok h' ∧ contents (frame_ h') = ∅ ∧
    record_real_size (header (frame_ h')) = rs ∧ frame_page_num (frame_ h') = frame_page_num (frame_ h) ∧
    frame_dirty (frame_ h') = frame_dirty (frame_ h) ∧
    fix_record_capacity (fresh_header rs (len field_lens)) = Some (header (frame_ h')).
Proof.
  intros field_lens Hlog Hrs Hfl Hd. unfold init_empty_page. rewrite bind_modify. fold field_lens. cbv zeta.
  set (h0 := mkHandler (frame_ h) READ_WRITE _ _ _).
  destruct (init_page_layout_ok h0 rs (len field_lens)) as (hd & E & Hfix & Hcn & Hrr & Hpos & Hidx & Hfresh);
    [done|unfold len in *; lia|done|].
  rewrite (bind_eq _ _ _ _ _ E), bind_get. clear E.
  set (index := enc_fields _).
  assert (Hix : len index = 4 * len field_lens) by (unfold index; by rewrite len_enc_fields, len_column_index).
  destruct (mem_write_is_Some (data (frame_ h)) (col_idx_offset hd) index) as [d' Hw]; [done|lia|].
  rewrite (bind_liftO _ _ _ _ Hw), bind_modify.
  pose proof (mem_write_len _ _ _ _ Hw) as Hdl.
  destruct (log_append_total (upd_frame (set_data d') (upd_frame (set_bitmap
     (replicate (Z.to_nat (page_bitmap_size (record_capacity hd))) 0)) (upd_frame (set_header hd) h0)))
     (enc_log (mkRecordLogHeader (buffer_pool_id_ h) (type_id INIT_PAGE) (frame_page_num (frame_ h)) sf
      (Z.quot (len index) 4) rs index))) as (rc & h' & E' & Hm & Hb & Hs & Hr & lsn & Hf); [done| |].
  { rewrite len_enc_log. pose proof log_max_page. cbn [lh_data]. unfold RecordLogHeader_SIZE. lia. }
  exists rc, h'. split; [exact E'|].
  destruct (Hfresh (frame_page_num (frame_ h)) lsn (frame_dirty (frame_ h)) d') as [Hpage Hempty]; [lia|].
  rewrite Hf. split; [constructor; rewrite ?Hf; [exact Hpage|by rewrite Hm|done|by rewrite Hs]|]. by repeat split.
Qed.

(** the loop [while (iterator.has_next()) iterator.next(record)] of the scanners, with at
    most [n] steps; answers the records in the order they are met *)
Fixpoint iter_loop (n : nat) (cursor : SlotNum) (h : Handler L) : option (list (RID * list Z)) :=
  if iter_has_next cursor then
    match n with
    | O => None
    | S n =>
        '(_, r, cursor') ← iter_next cursor (mkRID (-1) (-1), []) h;
        rest ← iter_loop n cursor' h;
        Some (r :: rest)
    end
  else Some [].

Lemma iter_loop_spec n h start c :
  page_ok (frame_ h) → 0 ≤ start ≤ record_capacity (header (frame_ h)) →
  first_bit (bitmap (frame_ h)) true start (record_capacity (header (frame_ h))) c →
  record_capacity (header (frame_ h)) - start ≤ Z.of_nat n →
  ∃ l, iter_loop n c h = Some l ∧
    map fst l = map (mkRID (frame_page_num (frame_ h)))
      (filter (λ i, bit (bitmap (frame_ h)) i = true) (seqZ start (record_capacity (header (frame_ h)) - start))) ∧
    Forall (λ p, contents (frame_ h) !! slot_num p.1 = Some p.2) l.
Proof.
  intros Hok. set (cap := record_capacity (header (frame_ h))).
  revert start c. induction n as [|n IH]; intros start c Hs Hfb Hn.
  { exists []. rewrite (set_bits_from _ _ _ _ Hs Hfb). replace start with cap in * by lia.
    destruct Hfb as [[-> _]|[? _]]; [|lia]. by rewrite decide_True. }
  rewrite (set_bits_from _ _ _ _ Hs Hfb). cbn [iter_loop]. unfold iter_has_next.
  destruct Hfb as [[-> Hall]|(Hr & Hb & _)]; [exists []; by rewrite decide_True|].
  rewrite decide_False by lia. destruct (c =? -1) eqn:E; zbool; [lia|]. cbn [negb].
  unfold iter_next. rewrite get_record_ok by (simpl; lia || done). cbn [slot_num].
  fold cap. rewrite decide_False by lia.
  assert (is_Some (contents (frame_ h) !! c)) as [r Hc].
  { rewrite lookup_contents. apply record_at_is_Some; [done|fold cap; lia|done]. }
  rewrite Hc. cbn [mbind option_bind fst slot_num]. rewrite (proj2 (Z.leb_le 0 c)) by lia. fold cap.
  destruct (next_setted_bit_spec (bitmap (frame_ h)) cap (c + 1)) as (c' & Hc' & Hfb'); [apply Hok|lia|].
  rewrite Hc'. cbn [mbind option_bind].
  destruct (IH (c + 1) c') as (l & Hl & Hmap & Hall); [lia|done|lia|].
  rewrite Hl. eexists. split; [done|]. cbn [map fst]. rewrite Hmap. split; [done|]. by constructor.
Qed.
End specs2.
