(* ===== verification/RecordPageSpec.v ===== *)
(** * RecordPageSpec: what a table page promises

    The contract of [RecordPageHandler] towards the record file handler: a finite
    map from slots to records, filled at the first free slot. [page_refines] shows
    that every sequence of operations on the bytes of a page answers what the map
    answers. *)
From S2P Require Import Prelude Types Bitmap Encoding LogHandler RecordPageHandler.

(** ** The abstract page *)

Definition first_free (cap : Z) (m : gmap Z (list Z)) : option SlotNum :=
  head (filter (λ i, m !! i = None) (seqZ 0 cap)).

Definition abs_insert (cap : Z) (rec : list Z) (m : gmap Z (list Z)) : RC * option SlotNum * gmap Z (list Z) :=
  match first_free cap m with
  | None => (RECORD_NOMEM, None, m)
  | Some s => (SUCCESS, Some s, <[s := rec]> m)
  end.
Definition abs_delete (s : SlotNum) (m : gmap Z (list Z)) : RC * gmap Z (list Z) :=
  match m !! s with None => (RECORD_NOT_EXIST, m) | Some _ => (SUCCESS, delete s m) end.
Definition abs_update (cap : Z) (s : SlotNum) (rec : list Z) (m : gmap Z (list Z)) : RC * gmap Z (list Z) :=
  if decide (cap ≤ s) then (INVALID_ARGUMENT, m)
  else match m !! s with None => (RECORD_NOT_EXIST, m) | Some _ => (SUCCESS, <[s := rec]> m) end.
Definition abs_get (cap : Z) (s : SlotNum) (m : gmap Z (list Z)) : RC * option (list Z) :=
  if decide (cap ≤ s) then (RECORD_INVALID_RID, None)
  else match m !! s with None => (RECORD_NOT_EXIST, None) | Some r => (SUCCESS, Some r) end.

(** ** Programs over a page *)

Inductive PageOp : Type :=
| OpInsert (src : list Z) | OpDelete (s : SlotNum) | OpUpdate (s : SlotNum) (src : list Z) | OpGet (s : SlotNum).

(** the result code, and the slot or the record that comes with it *)
Record PageRes := mkPageRes { res_rc : RC; res_slot : option SlotNum; res_rec : option (list Z) }.

Definition abs_step (cap : Z) (n : nat) (op : PageOp) (m : gmap Z (list Z)) : PageRes * gmap Z (list Z) :=
  match op with
  | OpInsert src => let '(rc, s, m') := abs_insert cap (take n src) m in (mkPageRes rc s None, m')
  | OpDelete s => let '(rc, m') := abs_delete s m in (mkPageRes rc None None, m')
  | OpUpdate s src => let '(rc, m') := abs_update cap s (take n src) m in (mkPageRes rc None None, m')
  | OpGet s => let '(rc, r) := abs_get cap s m in (mkPageRes rc None r, m)
  end.
Fixpoint abs_run (cap : Z) (n : nat) (ops : list PageOp) (m : gmap Z (list Z)) : list PageRes * gmap Z (list Z) :=
  match ops with
  | [] => ([], m)
  | op :: ops =>
      let '(r, m') := abs_step cap n op m in
      let '(rs, m'') := abs_run cap n ops m' in (r :: rs, m'')
  end.

Section page.
Context {L : Type} `{LT : LogTotal L}.
Variable uninit : Z.
Implicit Types (h : Handler L).

Definition page_step (op : PageOp) : M (Handler L) PageRes :=
  let* h := get in
  let rid s := mkRID (frame_page_num (frame_ h)) s in
  match op with
  | OpInsert src => let* r := insert_record src in ret (mkPageRes r.1 (slot_num <$> r.2) None)
  | OpDelete s => let* rc := delete_record uninit (rid s) in ret (mkPageRes rc None None)
  | OpUpdate s src => let* rc := update_record (rid s) src in ret (mkPageRes rc None None)
  | OpGet s => let* r := get_record (rid s) in ret (mkPageRes r.1 None r.2)
  end.
Fixpoint page_run (ops : list PageOp) : M (Handler L) (list PageRes) :=
  match ops with
  | [] => ret []
  | op :: ops => let* r := page_step op in let* rs := page_run ops in ret (r :: rs)
  end.

(** the calls the record file handler makes: sources of a record's size, slots that are not
    negative and, for a deletion, inside the page *)
Definition op_ok (cap size : Z) (op : PageOp) : Prop :=
  match op with
  | OpInsert src => size ≤ len src
  | OpDelete s => 0 ≤ s < cap
  | OpUpdate s src => 0 ≤ s ∧ size ≤ len src
  | OpGet s => 0 ≤ s
  end.

Definition cap_of h := record_capacity (header (frame_ h)).
Definition size_of h := record_real_size (header (frame_ h)).

Lemma mem_read_take (src : list Z) n rec : mem_read src 0 n = Some rec → rec = take (Z.to_nat n) src.
Proof. unfold mem_read. case_decide; [|done]. by intros [= <-]. Qed.

Lemma first_free_Some cap m s :
  0 ≤ s < cap → m !! s = None → (∀ j, 0 ≤ j < s → is_Some (m !! j)) → first_free cap m = Some s.
Proof.
  intros Hs Hm Hb. unfold first_free.
  replace cap with (s + (cap - s)) by lia. rewrite seqZ_app, filter_app by lia.
  assert (filter (λ i, m !! i = None) (seqZ 0 s) = []) as ->.
  { apply elem_of_nil_inv. intros j [Hj Hin%elem_of_seqZ]%list_elem_of_filter.
    destruct (Hb j) as [? ?]; [lia|congruence]. }
  rewrite seqZ_cons, filter_cons_True by (lia || done). done.
Qed.

Lemma first_free_None f :
  page_ok f → record_num (header f) = record_capacity (header f) →
  first_free (record_capacity (header f)) (contents f) = None.
Proof.
  intros Hok Hfull. unfold first_free.
  assert (filter (λ i, contents f !! i = None) (seqZ 0 (record_capacity (header f))) = []) as ->; [|done].
  apply elem_of_nil_inv. intros j [Hj Hin%elem_of_seqZ]%list_elem_of_filter.
  apply eq_None_not_Some in Hj. apply Hj. rewrite lookup_contents. apply record_at_is_Some; [done|lia|].
  apply (popcount_full (record_capacity (header f))); [|lia]. rewrite <-(po_count _ Hok). done.
Qed.

(** the header up to the number of records *)
Definition layout (f : RecordFrame) : PageHeader := with_record_num (header f) 0.

Lemma layout_cap f f' : layout f' = layout f →
  record_capacity (header f') = record_capacity (header f) ∧ record_real_size (header f') = record_real_size (header f).
Proof. unfold layout. destruct (header f), (header f'); simpl. by intros [=]. Qed.

(** every operation answers what the abstract page answers, and keeps the invariant *)
Lemma page_step_refines h op :
  handler_ok h → op_ok (cap_of h) (size_of h) op →
  ∃ r h', page_step op h = Some (r, h') ∧ handler_ok h' ∧ layout (frame_ h') = layout (frame_ h) ∧
    abs_step (cap_of h) (Z.to_nat (size_of h)) op (contents (frame_ h)) = (r, contents (frame_ h')).
Proof.
  intros Hok Hop. pose proof (ho_page _ Hok) as Hpage.
  destruct op as [src|s|s src|s]; unfold page_step; rewrite bind_get; cbv zeta; cbn [op_ok abs_step] in *.
  - destruct (decide (record_num (header (frame_ h)) = cap_of h)) as [Hfull|Hroom].
    + rewrite (bind_eq _ _ _ _ _ (insert_record_full h src (ho_mode _ Hok) Hfull)).
      do 2 eexists. split; [done|]. split; [done|]. split; [done|].
      unfold abs_insert, cap_of. by rewrite first_free_None.
    + destruct (insert_record_ok h src Hok Hop Hroom)
        as (slot & rec & h' & E & Hok' & Hs & Hrec & Hnone & Hbefore & Hc & Hh & _).
      rewrite (bind_eq _ _ _ _ _ E). do 2 eexists. split; [done|]. split; [done|].
      unfold layout. rewrite Hh. split; [done|].
      unfold abs_insert. rewrite (first_free_Some _ _ slot) by (unfold cap_of; done).
      by rewrite Hc, (mem_read_take _ _ _ Hrec).
  - pose proof (delete_record_ok uninit h (mkRID (frame_page_num (frame_ h)) s) Hok Hop) as Hd. cbn [slot_num] in Hd.
    unfold abs_delete. destruct (contents (frame_ h) !! s).
    + destruct Hd as (h' & E & Hok' & Hc & Hh & _). rewrite (bind_eq _ _ _ _ _ E), <-Hc.
      do 2 eexists. split; [done|]. unfold layout. by rewrite Hh.
    + rewrite (bind_eq _ _ _ _ _ Hd). by do 2 eexists.
  - pose proof (update_record_ok h (mkRID (frame_page_num (frame_ h)) s) src Hok (proj1 Hop) (proj2 Hop)) as Hu.
    cbn [slot_num] in Hu. unfold abs_update, cap_of. case_decide.
    { rewrite (bind_eq _ _ _ _ _ Hu). by do 2 eexists. }
    destruct (contents (frame_ h) !! s).
    + destruct Hu as (rec & h' & E & Hok' & Hrec & Hc & Hh & _). rewrite (bind_eq _ _ _ _ _ E).
      do 2 eexists. split; [done|]. split; [done|]. unfold size_of, layout.
      rewrite Hh, Hc, (mem_read_take _ _ _ Hrec). done.
    + rewrite (bind_eq _ _ _ _ _ Hu). by do 2 eexists.
  - rewrite (bind_eq _ _ _ _ _ (get_record_ok h (mkRID (frame_page_num (frame_ h)) s) Hpage Hop)). cbn [slot_num].
    do 2 eexists. split; [done|]. split; [done|]. split; [done|]. unfold abs_get, cap_of.
    case_decide; [done|]. by destruct (contents (frame_ h) !! s).
Qed.

Lemma page_run_refines ops : ∀ h,
  handler_ok h → Forall (op_ok (cap_of h) (size_of h)) ops →
  ∃ rs h', page_run ops h = Some (rs, h') ∧ handler_ok h' ∧
    abs_run (cap_of h) (Z.to_nat (size_of h)) ops (contents (frame_ h)) = (rs, contents (frame_ h')).
Proof.
  induction ops as [|op ops IH]; intros h Hok Hops; [by do 2 eexists|].
  apply Forall_cons in Hops as [Hop Hops].
  destruct (page_step_refines h op Hok Hop) as (r & h1 & E & Hok1 & Hlay & Ha).
  apply layout_cap in Hlay as [Hc Hs]. change (cap_of h1 = cap_of h) in Hc. change (size_of h1 = size_of h) in Hs.
  rewrite <-Hc, <-Hs in Hops. destruct (IH h1 Hok1 Hops) as (rs & h2 & E2 & Hok2 & Ha2).
  exists (r :: rs), h2. cbn [page_run abs_run]. rewrite (bind_eq _ _ _ _ _ E), (bind_eq _ _ _ _ _ E2), Ha.
  rewrite Hc, Hs in Ha2. by rewrite Ha2.
Qed.
End page.

(** ** Operations keep the identity of the page; a refused one changes nothing *)

Section frames.
Context {L : Type} `{LogHandler L}.
Variable uninit : Z.
Implicit Types (h : Handler L).

Definition same_page h h' : Prop :=
  frame_page_num (frame_ h') = frame_page_num (frame_ h) ∧ buffer_pool_id_ h' = buffer_pool_id_ h.

Lemma log_append_same payload h rc h' : log_append payload h = Some (rc, h') → same_page h h'.
Proof.
  unfold log_append. destruct (append _ _ _) as [[[rc0 lsn] l']|]; [|done]. intros [= <- <-].
  by case_match.
Qed.
Lemma write_slot_same i src h u h' : write_slot i src h = Some (u, h') → same_page h h'.
Proof. unfold write_slot. intros Hw. minv Hw. by injection Hw as <- <-. Qed.

Lemma page_step_same op h r h' :
  page_step uninit op h = Some (r, h') →
  same_page h h' ∧ (res_rc r ≠ SUCCESS → h' = h).
Proof.
  unfold page_step. destruct op as [src|s|s src|s]; intros Hs; minv Hs; injection Hs as <- <-; cbn [res_rc].
  - unfold insert_record in E. minv E. case_match; [injection E as <- <-; done|]. minv E. injection E as <- <-.
    unfold log_insert_record in E3. minv E3. apply log_append_same in E3 as [E3 E3'].
    apply write_slot_same in E4 as [E4 E4']. split; [|done]. split; cbn in *. all: congruence.
  - unfold delete_record in E. minv E. destruct a0; [|injection E as <- <-; done]. minv E. injection E as <- <-.
    unfold log_delete_record in E3. minv E3. apply log_append_same in E3 as [E3 E3']. split; [|done]. by split.
  - unfold update_record in E. minv E. case_match; [injection E as <- <-; done|]. minv E.
    destruct a0; [|injection E as <- <-; done]. minv E. injection E as <- <-.
    unfold log_update_record in E3. minv E3. apply log_append_same in E3 as [E3 E3'].
    apply write_slot_same in E2 as [E2 E2']. split; [|done]. split; cbn in *. all: congruence.
  - unfold get_record in E. minv E. case_match; [injection E as <- <-; done|]. minv E.
    destruct a0; cbn [negb] in E; minv E; by injection E as <- <-.
Qed.
End frames.

(** ** The record count is the size of the map *)

Lemma filter_ext_in {A} (P Q : A → Prop) `{∀ x, Decision (P x), ∀ x, Decision (Q x)} (l : list A) :
  (∀ x, x ∈ l → P x ↔ Q x) → filter P l = filter Q l.
Proof.
  induction l as [|x l IH]; intros Hl; [done|]. rewrite !filter_cons, IH by (intros; apply Hl; set_solver).
  assert (P x ↔ Q x) by (apply Hl; set_solver). repeat case_decide; tauto.
Qed.

Lemma size_omap_list_to_map (g : Z → option (list Z)) (l : list Z) :
  NoDup l →
  size (list_to_map (omap (λ i, r ← g i; Some (i, r)) l) : gmap Z (list Z)) =
    length (filter (λ i, is_Some (g i)) l).
Proof.
  induction l as [|j l IH]; intros Hnd; [done|]. apply NoDup_cons in Hnd as [Hj Hnd]. cbn [omap list_omap].
  destruct (g j) as [r|] eqn:Eg; cbn [mbind option_bind].
  - rewrite list_to_map_cons, map_size_insert_None, IH by (rewrite ?lookup_omap_list_to_map by done; by rewrite ?decide_False by done).
    rewrite filter_cons_True by eauto. done.
  - rewrite IH by done. rewrite filter_cons_False; [done|]. rewrite Eg. by intros [? ?].
Qed.

Lemma popcount_length n bm : popcount_upto n bm = Z.of_nat (length (filter (λ i, bit bm i = true) (seqZ 0 (Z.of_nat n)))).
Proof.
  induction n as [|n IH]; [done|]. cbn [popcount_upto].
  replace (Z.of_nat (S n)) with (Z.of_nat n + 1) by lia. rewrite seqZ_app, filter_app, length_app, IH by lia.
  rewrite Z.add_0_l. change (seqZ (Z.of_nat n) 1) with [Z.of_nat n].
  destruct (bit bm (Z.of_nat n)) eqn:E; [rewrite filter_cons_True by done|rewrite filter_cons_False by congruence]; simpl; lia.
Qed.

Lemma record_num_size f : page_ok f → record_num (header f) = Z.of_nat (size (contents f)).
Proof.
  intros Hok. rewrite (po_count _ Hok). unfold contents. rewrite size_omap_list_to_map by apply NoDup_seqZ.
  pose proof (bm_size _ _ (po_bitmap _ Hok)). unfold popcount. rewrite popcount_length, Z2Nat.id by done.
  do 2 f_equal. apply filter_ext_in. intros i Hi%elem_of_seqZ. rewrite record_at_is_Some by (lia || done). done.
Qed.

(** ** Properties *)

(** [C5] A page of a table file implements a finite map from slots to records. Starting
    from [init_empty_page] on any frame, every sequence of insertions (at the first
    free slot, RECORD_NOMEM when there is none), deletions, updates and lookups ends
    without a violated assertion or an access outside the page, answers the result
    codes, slots and records that the abstract map answers, leaves the page holding
    exactly the map's records, and preserves the page invariant. *)
Theorem page_refines {L} `{LT : LogTotal L} (uninit : Z) (h : Handler L) (rs : Z) (table_fields : option (list Z))
    (ops : list PageOp) :
  log_ready (log_ h) → 1 ≤ rs → len (data (frame_ h)) = BP_PAGE_DATA_SIZE →
  ∃ rc h1, init_empty_page ROW_FORMAT rs table_fields h = Some (rc, h1) ∧ handler_ok h1 ∧ contents (frame_ h1) = ∅ ∧
    size_of h1 = rs ∧
    (Forall (op_ok (cap_of h1) rs) ops →
     ∃ res h2, page_run uninit ops h1 = Some (res, h2) ∧ handler_ok h2 ∧
       abs_run (cap_of h1) (Z.to_nat rs) ops ∅ = (res, contents (frame_ h2))).
Proof.
  intros Hlog Hrs Hd.
  assert (Hfl : column_lens ROW_FORMAT table_fields = []) by by destruct table_fields.
  destruct (init_empty_page_ok h ROW_FORMAT rs table_fields Hlog Hrs) as (rc & h1 & E & Hok & Hc & Hsz & _);
    [by rewrite Hfl|done|].
  exists rc, h1. split; [exact E|]. do 3 (split; [done|]). intros Hops. rewrite <-Hsz in Hops.
  destruct (page_run_refines uninit ops h1 Hok Hops) as (res & h2 & E2 & Hok2 & Ha).
  exists res, h2. split; [exact E2|]. split; [done|]. rewrite <-Ha, Hc. unfold size_of. by rewrite Hsz.
Qed.

Definition blank_handler : Handler (list LogRec) :=
  mkHandler (mkRecordFrame 7 0 false (mkPageHeader 0 0 0 0 0 0 0) []
    (replicate (Z.to_nat BP_PAGE_DATA_SIZE) 0)) READ_ONLY 1 0 [].

Lemma page_refines_witness :
  ∃ rc h1, init_empty_page ROW_FORMAT 5 None blank_handler = Some (rc, h1) ∧ handler_ok h1 ∧ contents (frame_ h1) = ∅ ∧
    size_of h1 = 5 ∧
    (Forall (op_ok (cap_of h1) 5) [OpInsert [1;2;3;4;5]; OpGet 0; OpUpdate 0 [9;9;9;9;9]; OpDelete 0; OpGet 0] →
     ∃ res h2, page_run 0 [OpInsert [1;2;3;4;5]; OpGet 0; OpUpdate 0 [9;9;9;9;9]; OpDelete 0; OpGet 0] h1 = Some (res, h2) ∧
       handler_ok h2 ∧
       abs_run (cap_of h1) (Z.to_nat 5) [OpInsert [1;2;3;4;5]; OpGet 0; OpUpdate 0 [9;9;9;9;9]; OpDelete 0; OpGet 0] ∅
         = (res, contents (frame_ h2))).
Proof. apply (page_refines 0 blank_handler 5 None); [exact I|lia|by vm_compute]. Defined.

(** [C28] Iterating over a page with [RecordPageIterator] from slot 0 meets every record of
    the page exactly once, in the order of the slots, with the bytes stored in it. *)
Theorem iterator_enumerates {L} `{LT : LogTotal L} (h : Handler L) :
  page_ok (frame_ h) →
  ∃ c l, iter_init 0 h = Some c ∧ iter_loop (Z.to_nat (cap_of h)) c h = Some l ∧
    map fst l = map (mkRID (frame_page_num (frame_ h))) (set_bits (cap_of h) (bitmap (frame_ h))) ∧
    Forall (λ p, contents (frame_ h) !! slot_num p.1 = Some p.2) l ∧
    (∀ s r, contents (frame_ h) !! s = Some r ↔ (mkRID (frame_page_num (frame_ h)) s, r) ∈ l).
Proof.
  intros Hok. pose proof (bm_size _ _ (po_bitmap _ Hok)) as Hcap.
  destruct (next_setted_bit_spec _ _ 0 (po_bitmap _ Hok)) as (c & Hc & Hfb); [lia|].
  destruct (iter_loop_spec (Z.to_nat (cap_of h)) h 0 c Hok) as (l & Hl & Hmap & Hall);
    [lia|done|unfold cap_of; lia|].
  rewrite Z.sub_0_r in Hmap. exists c, l. do 4 (split; [done|]).
  intros s r. split.
  - intros Hs. assert (Hin : mkRID (frame_page_num (frame_ h)) s ∈ map fst l).
    { rewrite Hmap. apply list_elem_of_fmap. exists s. split; [done|]. apply elem_of_set_bits.
      pose proof Hs as Hs'. rewrite lookup_contents in Hs'. pose proof (record_at_Some_range _ _ _ Hs').
      split; [done|]. apply record_at_is_Some; [done..|]. eauto. }
    apply list_elem_of_fmap in Hin as ([rid r'] & Heq & Hin). simpl in Heq. subst rid.
    rewrite Forall_forall in Hall. specialize (Hall _ Hin). simpl in Hall. by simplify_eq.
  - intros Hin. rewrite Forall_forall in Hall. exact (Hall _ Hin).
Qed.

Definition two_records : Handler (list LogRec) :=
  mkHandler (mkRecordFrame 7 0 false (mkPageHeader 2 0 1 8 16 32 32) [5; 0]
    (replicate (Z.to_nat BP_PAGE_DATA_SIZE) 3)) READ_ONLY 1 1 [].

Lemma iterator_enumerates_witness :
  ∃ c l, iter_init 0 two_records = Some c ∧ iter_loop (Z.to_nat (cap_of two_records)) c two_records = Some l ∧
    map fst l = map (mkRID (frame_page_num (frame_ two_records)))
      (set_bits (cap_of two_records) (bitmap (frame_ two_records))) ∧
    Forall (λ p, contents (frame_ two_records) !! slot_num p.1 = Some p.2) l ∧
    (∀ s r, contents (frame_ two_records) !! s = Some r ↔ (mkRID (frame_page_num (frame_ two_records)) s, r) ∈ l).
Proof.
  apply (iterator_enumerates two_records). constructor; try (by vm_compute).
  split; [by vm_compute| |by vm_compute]. repeat constructor; by vm_compute.
Defined.
