(* ===== verification/RecordPool.v ===== *)
(** * RecordPool: the buffer pools as the record manager sees them

    The record manager reaches pages through [BufferPoolManager::get_buffer_pool],
    [DiskBufferPool::get_this_page] and the [Frame] pointer it gets back. The class
    [RecordPool] is that interface; [pool_frame] is the memory behind the frame
    pointer and [pool_store] a write through it. [RecordPageHandler::init] and
    [cleanup] are defined over it. *)
From stdpp Require Import sorting.
From S2P Require Import Prelude Types Bitmap Encoding LogHandler RecordPageHandler.

Class RecordPool (B : Type) := {
  get_buffer_pool : Z → B → RC;                       (** [BufferPoolManager::get_buffer_pool(id)] *)
  get_this_page : Z → PageNum → M B RC;               (** [DiskBufferPool::get_this_page]: pins the frame *)
  unpin_page : Z → PageNum → M B RC;
  allocate_page : Z → M B (RC * PageNum);             (** [DiskBufferPool::allocate_page]: pins the frame *)
  pool_frame : Z → PageNum → B → option RecordFrame;  (** the page in memory *)
  pool_store : Z → RecordFrame → B → B;               (** a write through the frame pointer *)
  recover_page : Z → PageNum → M B RC;                (** [DiskBufferPool::recover_page]: marks the page as allocated *)
  pool_pages : Z → B → list PageNum;                  (** the bits from page 1 on that are set in the header *)
  pool_page_count : Z → B → Z;                        (** [page_count] of the header *)
}.

(** the same pages in memory *)
Definition same_frames {B} `{RecordPool B} (b b' : B) : Prop := ∀ id pn, pool_frame id pn b' = pool_frame id pn b.

(** what the pools promise: a page that exists is served and pinning does not change it; a new
    page is a page the pool did not have *)
Class RecordPoolLaws (B : Type) `{RecordPool B} := {
  get_buffer_pool_ok b id pn f : pool_frame id pn b = Some f → get_buffer_pool id b = SUCCESS;
  get_this_page_ok b id pn f : pool_frame id pn b = Some f → ∃ b', get_this_page id pn b = Some (SUCCESS, b') ∧ same_frames b b';
  get_this_page_none b id pn : 1 ≤ pn → pool_frame id pn b = None → ∃ rc b', get_this_page id pn b = Some (rc, b') ∧ rc ≠ SUCCESS ∧ same_frames b b';
  unpin_page_ok b id pn f : pool_frame id pn b = Some f → ∃ b', unpin_page id pn b = Some (SUCCESS, b') ∧ same_frames b b';
  recover_page_ok b id pn f : pool_frame id pn b = Some f → ∃ b', recover_page id pn b = Some (SUCCESS, b') ∧ same_frames b b';
  allocate_page_ok b id : ∃ rc pn b', allocate_page id b = Some ((rc, pn), b') ∧
    ((rc = SUCCESS ∧ 1 ≤ pn ∧ pool_frame id pn b = None ∧ (∃ f, pool_frame id pn b' = Some f ∧ len (data f) = BP_PAGE_DATA_SIZE) ∧
      ∀ id' pn', (id', pn') ≠ (id, pn) → pool_frame id' pn' b' = pool_frame id' pn' b) ∨
     (rc ≠ SUCCESS ∧ same_frames b b'));
  pool_frame_num b id pn f : pool_frame id pn b = Some f → frame_page_num f = pn;
  pool_frame_bound b id pn f : pool_frame id pn b = Some f → pn < 2 ^ 31;   (** [PageNum] is an [int32_t] *)
  pool_store_eq b id f :
    is_Some (pool_frame id (frame_page_num f) b) →
    pool_frame id (frame_page_num f) (pool_store id f b) = Some f;
  pool_store_ne b id f id' pn' :
    (id', pn') ≠ (id, frame_page_num f) → pool_frame id' pn' (pool_store id f b) = pool_frame id' pn' b;
  pool_pages_spec b id p : p ∈ pool_pages id b ↔ 1 ≤ p ∧ is_Some (pool_frame id p b);
  pool_pages_sorted b id : StronglySorted Z.lt (pool_pages id b);
  pool_pages_count b id p : p ∈ pool_pages id b → p < pool_page_count id b;
}.

Section handler_life.
Context {B L : Type} `{RecordPool B} `{LogHandler L}.

(** [RecordPageHandler::init] on a handler that is not open: the state it works on, or the error *)
Definition handler_init (id : Z) (pn : PageNum) (mode : ReadWriteMode) (l : L) : M B (RC * option (Handler L)) :=
  let* ret_ := get_this_page id pn in
  if negb (OB_SUCC ret_) then ret (ret_, None)
  else
    let* b := get in
    let* f := liftO (pool_frame id pn b) in
    ret (ret_, Some (mkHandler f mode id (record_real_size (header f)) l)).

(** [RecordPageHandler::cleanup]: the frame is released as the handler left it *)
Definition handler_cleanup (h : Handler L) : M B RC :=
  modify (pool_store (buffer_pool_id_ h) (frame_ h)) ;;;
  unpin_page (buffer_pool_id_ h) (frame_page_num (frame_ h)) ;;;
  ret SUCCESS.

(** [RecordPageHandler::recover_init]: the page is marked as allocated, the record log is not set up *)
Definition handler_recover_init (id : Z) (pn : PageNum) (l : L) : M B (RC * option (Handler L)) :=
  let* r := handler_init id pn READ_WRITE l in
  match r.2 with
  | None => ret r
  | Some h => recover_page id pn ;;; ret r
  end.

(** open the page, run [op] on it, release it: the scope of a [RecordPageHandler] in the
    record file handler and in the log replayer. [op] works on the handler and its log *)
Definition with_open {A} (init : M B (RC * option (Handler L))) (l : L) (fail : RC → A) (op : M (Handler L) A) : M B (A * L) :=
  let* r := init in
  match r.2 with
  | None => ret (fail r.1, l)
  | Some h =>
      let* o := liftO (op h) in
      let h' := o.2 in
      handler_cleanup h' ;;;
      ret (o.1, log_ h')
  end.
Definition with_handler {A} (id : Z) (pn : PageNum) (mode : ReadWriteMode) (l : L)
    (fail : RC → A) (op : M (Handler L) A) : M B (A * L) :=
  with_open (handler_init id pn mode l) l fail op.
End handler_life.

(** ** Sorted lists of pages *)

Lemma sorted_pages_eq (l1 l2 : list Z) : StronglySorted Z.lt l1 → StronglySorted Z.lt l2 → (∀ p, p ∈ l1 ↔ p ∈ l2) → l1 = l2.
Proof.
  revert l2. induction l1 as [|x l1 IH]; intros [|y l2] H1 H2 E; [done|exfalso; apply (not_elem_of_nil y), E; left|exfalso; apply (not_elem_of_nil x), E; left|].
  apply StronglySorted_inv in H1 as [H1 Hx]. apply StronglySorted_inv in H2 as [H2 Hy]. rewrite Forall_forall in Hx, Hy.
  assert (Hyx : x = y ∨ y < x) by (destruct (proj1 (elem_of_cons _ _ _) (proj1 (E x) (list_elem_of_here _ _))); auto).
  assert (Hxy : y = x ∨ x < y) by (destruct (proj1 (elem_of_cons _ _ _) (proj2 (E y) (list_elem_of_here _ _))); auto).
  assert (x = y) as -> by lia. f_equal. apply IH; [done..|]. intros p. specialize (E p). rewrite !elem_of_cons in E.
  split; intros Hp; [specialize (Hx _ Hp)|specialize (Hy _ Hp)]; destruct E as [E1 E2].
  - destruct E1; [by right|lia|done].
  - destruct E2; [by right|lia|done].
Qed.

Section laws.
Context {B L : Type} `{PL : RecordPoolLaws B} `{LH : LogHandler L}.
Implicit Types (b : B).

Lemma same_frames_refl b : same_frames b b.
Proof. done. Qed.
Lemma same_frames_trans b1 b2 b3 : same_frames b1 b2 → same_frames b2 b3 → same_frames b1 b3.
Proof. intros H1 H2 id pn. by rewrite H2, H1. Qed.
Lemma pool_pages_ext id b b' : (∀ pn, is_Some (pool_frame id pn b') ↔ is_Some (pool_frame id pn b)) → pool_pages id b' = pool_pages id b.
Proof. intros E. apply sorted_pages_eq; [apply pool_pages_sorted..|]. intros p. by rewrite !pool_pages_spec, E. Qed.
Lemma same_pages id b b' : same_frames b b' → pool_pages id b' = pool_pages id b.
Proof. intros E. apply pool_pages_ext. intros pn. by rewrite E. Qed.
Lemma changed_pages id pn b b' : is_Some (pool_frame id pn b) → is_Some (pool_frame id pn b') → (∀ id' pn', (id', pn') ≠ (id, pn) → pool_frame id' pn' b' = pool_frame id' pn' b) → pool_pages id b' = pool_pages id b.
Proof. intros H1 H2 E. apply pool_pages_ext. intros p. destruct (decide (p = pn)) as [->|]; [done|]. rewrite E; [done|congruence]. Qed.

(** the scope of a handler on an existing page: [op]'s frame replaces the page, nothing else changes *)
Lemma with_open_ok {A} (init : M B (RC * option (Handler L))) id pn mode (l : L) (fail : RC → A) (op : M (Handler L) A) b b1 f a h' :
  pool_frame id pn b = Some f → init b = Some ((SUCCESS, Some (mkHandler f mode id (record_real_size (header f)) l)), b1) → same_frames b b1 →
  op (mkHandler f mode id (record_real_size (header f)) l) = Some (a, h') →
  frame_page_num (frame_ h') = pn → buffer_pool_id_ h' = id →
  ∃ b', with_open init l fail op b = Some ((a, log_ h'), b') ∧
    pool_frame id pn b' = Some (frame_ h') ∧
    (∀ id' pn', (id', pn') ≠ (id, pn) → pool_frame id' pn' b' = pool_frame id' pn' b) ∧
    pool_pages id b' = pool_pages id b.
Proof.
  intros Hf E1 Hb1 Hop Hpn Hid. unfold with_open. rewrite (bind_eq _ _ _ _ _ E1). cbn [snd]. rewrite (bind_liftO _ _ _ _ Hop). cbn [fst snd].
  unfold handler_cleanup. rewrite bind_assoc, bind_modify, bind_assoc, Hid, Hpn.
  assert (Hst : pool_frame id pn (pool_store id (frame_ h') b1) = Some (frame_ h')).
  { rewrite <-Hpn. apply pool_store_eq. rewrite Hpn, Hb1, Hf. eauto. }
  destruct (unpin_page_ok _ _ _ _ Hst) as (b2 & E2 & Hb2). rewrite (bind_eq _ _ _ _ _ E2).
  rewrite bind_ret. exists b2. split; [done|]. assert (Hf2 : pool_frame id pn b2 = Some (frame_ h')) by by rewrite Hb2.
  assert (Hne : ∀ id' pn', (id', pn') ≠ (id, pn) → pool_frame id' pn' b2 = pool_frame id' pn' b).
  { intros id' pn' Hne. rewrite Hb2, pool_store_ne by congruence. apply Hb1. }
  split; [done|]. split; [done|]. apply (changed_pages id pn); [rewrite Hf; eauto|rewrite Hf2; eauto|done].
Qed.
Lemma handler_init_ok id pn mode (l : L) b f : pool_frame id pn b = Some f →
  ∃ b', handler_init id pn mode l b = Some ((SUCCESS, Some (mkHandler f mode id (record_real_size (header f)) l)), b') ∧ same_frames b b'.
Proof.
  intros Hf. destruct (get_this_page_ok _ _ _ _ Hf) as (b1 & E1 & Hb1). exists b1. unfold handler_init. rewrite (bind_eq _ _ _ _ _ E1).
  change (OB_SUCC SUCCESS) with true. cbn [negb]. rewrite bind_get, (bind_liftO _ f) by by rewrite Hb1. done.
Qed.
Lemma handler_init_none id pn mode (l : L) b : 1 ≤ pn → pool_frame id pn b = None →
  ∃ rc b', handler_init id pn mode l b = Some ((rc, None), b') ∧ rc ≠ SUCCESS ∧ same_frames b b'.
Proof.
  intros H1 Hf. destruct (get_this_page_none _ _ _ H1 Hf) as (rc & b1 & E1 & Hrc & Hb1). exists rc, b1. unfold handler_init. rewrite (bind_eq _ _ _ _ _ E1). by destruct rc.
Qed.
Lemma handler_recover_init_ok id pn (l : L) b f : pool_frame id pn b = Some f →
  ∃ b', handler_recover_init id pn l b = Some ((SUCCESS, Some (mkHandler f READ_WRITE id (record_real_size (header f)) l)), b') ∧ same_frames b b'.
Proof.
  intros Hf. destruct (handler_init_ok id pn READ_WRITE l b f Hf) as (b1 & E1 & Hb1). unfold handler_recover_init. rewrite (bind_eq _ _ _ _ _ E1). cbn [snd].
  destruct (recover_page_ok b1 id pn f) as (b2 & E2 & Hb2); [by rewrite Hb1|]. rewrite (bind_eq _ _ _ _ _ E2). exists b2. split; [done|]. by apply (same_frames_trans b b1).
Qed.
Lemma with_handler_ok {A} id pn mode (l : L) (fail : RC → A) (op : M (Handler L) A) b f a h' :
  pool_frame id pn b = Some f →
  op (mkHandler f mode id (record_real_size (header f)) l) = Some (a, h') →
  frame_page_num (frame_ h') = pn → buffer_pool_id_ h' = id →
  ∃ b', with_handler id pn mode l fail op b = Some ((a, log_ h'), b') ∧
    pool_frame id pn b' = Some (frame_ h') ∧
    (∀ id' pn', (id', pn') ≠ (id, pn) → pool_frame id' pn' b' = pool_frame id' pn' b) ∧
    pool_pages id b' = pool_pages id b.
Proof. intros Hf Hop Hpn Hid. destruct (handler_init_ok id pn mode l b f Hf) as (b1 & E1 & Hb1). by apply (with_open_ok _ id pn mode l fail op b b1 f). Qed.
End laws.

(** ** The pool that holds every page in memory *)

Abbreviation MemPool := (gmap (Z * Z) RecordFrame).

Definition mem_frame (id : Z) (pn : PageNum) (b : MemPool) : option RecordFrame :=
  f ← b !! (id, pn); if decide (frame_page_num f = pn ∧ pn < 2 ^ 31) then Some f else None.
Definition mem_last (id : Z) (b : MemPool) : Z := map_fold (λ k _ acc, if decide (k.1 = id) then Z.max acc k.2 else acc) 0 b.
Definition mem_pages (id : Z) (b : MemPool) : list PageNum :=
  filter (λ p, is_Some (mem_frame id p b)) (seqZ 1 (mem_last id b)).
Definition blank_frame (pn : PageNum) : RecordFrame :=
  mkRecordFrame pn 0 false (mkPageHeader 0 0 0 0 0 0 0) [] (replicate (Z.to_nat BP_PAGE_DATA_SIZE) 0).
Definition mem_allocate (id : Z) : M MemPool (RC * PageNum) := λ b,
  let pn := mem_last id b + 1 in
  if decide (pn < 2 ^ 31) then Some ((SUCCESS, pn), <[(id, pn) := blank_frame pn]> b) else Some ((BUFFERPOOL_NOBUF, pn), b).
#[export] Instance MemRecordPool : RecordPool MemPool := {|
  get_buffer_pool id b := SUCCESS;
  get_this_page id pn b := Some (match mem_frame id pn b with Some _ => SUCCESS | None => BUFFERPOOL_INVALID_PAGE_NUM end, b);
  unpin_page id pn b := Some (SUCCESS, b);
  allocate_page := mem_allocate;
  pool_frame := mem_frame;
  pool_store id f b := <[(id, frame_page_num f) := f]> b;
  recover_page id pn b := Some (SUCCESS, b);
  pool_pages := mem_pages;
  pool_page_count id b := mem_last id b + 1;
|}.

Lemma mem_frame_Some id pn b f : mem_frame id pn b = Some f ↔ b !! (id, pn) = Some f ∧ frame_page_num f = pn ∧ pn < 2 ^ 31.
Proof.
  unfold mem_frame. destruct (b !! (id, pn)) as [g|]; simpl; [|naive_solver]. case_decide; naive_solver.
Qed.

Lemma mem_last_bound id b : 0 ≤ mem_last id b ∧ ∀ pn f, b !! (id, pn) = Some f → pn ≤ mem_last id b.
Proof.
  unfold mem_last. apply (map_fold_weak_ind (λ acc m, 0 ≤ acc ∧ ∀ pn f, m !! (id, pn) = Some f → pn ≤ acc)); [by split|].
  intros [i p] x m acc Hi [H0 IH]. split; [case_decide; cbn; lia|]. intros pn f [[[= -> ->] _]|[_ Hk]]%lookup_insert_Some; [rewrite decide_True by done; cbn; lia|]. specialize (IH pn f Hk). case_decide; cbn; lia.
Qed.
Lemma seqZ_sorted m n : StronglySorted Z.lt (seqZ m n).
Proof.
  destruct (decide (0 ≤ n)) as [Hn|]; [|rewrite seqZ_nil by lia; constructor]. revert m. pattern n. apply natlike_ind; [intros m; rewrite seqZ_nil by lia; constructor| |done].
  intros k Hk IH m. rewrite seqZ_cons by lia. rewrite Z.pred_succ. constructor; [apply IH|]. apply Forall_forall. intros x Hx%elem_of_seqZ. lia.
Qed.
Lemma filter_sorted (P : Z → Prop) `{∀ x, Decision (P x)} l : StronglySorted Z.lt l → StronglySorted Z.lt (filter P l).
Proof.
  induction 1 as [|x l Hs IH Hx]; [constructor|]. rewrite filter_cons. case_decide; [|done]. constructor; [done|]. rewrite Forall_forall in *. intros y [_ Hy]%list_elem_of_filter. auto.
Qed.

#[export] Instance MemRecordPoolLaws : RecordPoolLaws MemPool.
Proof.
  constructor; cbn [get_buffer_pool get_this_page unpin_page recover_page allocate_page pool_frame pool_store pool_pages pool_page_count MemRecordPool]; try done.
  - intros b id pn f Hf. rewrite Hf. by exists b.
  - intros b id pn _ Hf. rewrite Hf. by exists BUFFERPOOL_INVALID_PAGE_NUM, b.
  - intros b id pn f Hf; by exists b.
  - intros b id pn f Hf; by exists b.
  - intros b id. destruct (mem_last_bound id b) as [H0 Hb]. unfold mem_allocate. case_decide as Hlt; [|do 3 eexists; split; [done|]; by right]. do 3 eexists. split; [done|]. left. split; [done|]. split; [lia|].
    split; [unfold mem_frame; destruct (b !! (id, mem_last id b + 1)) eqn:E; [apply Hb in E; lia|done]|]. split; [exists (blank_frame (mem_last id b + 1)); split; [apply mem_frame_Some; rewrite lookup_insert_eq; split; [done|split; [done|lia]]|by vm_compute]|].
    intros id' pn' Hne. unfold mem_frame. f_equal. apply lookup_insert_ne. congruence.
  - by intros b id pn f (_ & ? & _)%mem_frame_Some.
  - by intros b id pn f (_ & _ & ?)%mem_frame_Some.
  - intros b id f [g (_ & _ & Hb)%mem_frame_Some]. apply mem_frame_Some. by rewrite lookup_insert_eq.
  - intros b id f id' pn' Hne. unfold mem_frame. f_equal. apply lookup_insert_ne. congruence.
  - intros b id p. unfold mem_pages. rewrite list_elem_of_filter, elem_of_seqZ. split; [intros [H1 H2]; split; [lia|done]|]. intros [H1 [f Hf]]. split; [eauto|]. apply mem_frame_Some in Hf as [Hf _]. destruct (mem_last_bound id b) as [_ Hb]. specialize (Hb _ _ Hf). lia.
  - intros b id. apply filter_sorted, seqZ_sorted.
  - intros b id p [_ Hp%elem_of_seqZ]%list_elem_of_filter. lia.
Qed.
