(* ===== verification/RecordLog.v ===== *)
(** * RecordLog: replaying the record log (storage/record/record_log.cpp)

    [RecordLogReplayer] applies one entry of the commit log to the page it names,
    unless the page already carries an LSN at least as large. The main theorem is
    the redo property: whatever prefix of the changes had reached the disk,
    replaying the log brings the page back to the state in which it was left. *)
From S2P Require Import Prelude Types Bitmap Encoding LogHandler RecordPageHandler RecordPageSpec RecordPool.

(** the fields of the entry, read through [reinterpret_cast<const RecordLogHeader *>] *)
Definition dec_log (payload : list Z) : option RecordLogHeader :=
  bp ← field32 payload 0;
  ot ← field32 payload 4;
  pn ← field32 payload 8;
  sf ← field32 payload 12;
  cn ← field32 payload 16;
  ss ← field32 payload 20;
  Some (mkRecordLogHeader bp ot pn sf cn ss (drop 24 payload)).

Section replayer.
Context {B : Type} `{RecordPool B}.
Variable uninit : Z.

(** a [RecordPageHandler] opened on the page in the replay, with a [VacuousLogHandler] *)
Definition replay_on (lh : RecordLogHeader) (op : M (Handler unit) RC) : M B RC :=
  let* r := with_handler (lh_buffer_pool_id lh) (lh_page_num lh) READ_WRITE tt id op in ret r.1.

Definition replay_init_page (lh : RecordLogHeader) : M B RC :=
  replay_on lh (init_empty_page_redo (slot_or_size lh) (lh_column_num lh) (lh_data lh)).

(** the record page handler of the PAX format ends the process on an insertion and
    does not implement updates *)
Definition replay_insert (lh : RecordLogHeader) : M B RC :=
  replay_on lh (if lh_storage_format lh =? ROW_FORMAT
                then let* r := insert_record (lh_data lh) in ret r.1 else abort).

Definition replay_delete (lh : RecordLogHeader) : M B RC :=
  replay_on lh (delete_record uninit (mkRID (lh_page_num lh) (slot_or_size lh))).

Definition replay_update (lh : RecordLogHeader) : M B RC :=
  replay_on lh (if lh_storage_format lh =? ROW_FORMAT
                then update_record (mkRID (lh_page_num lh) (slot_or_size lh)) (lh_data lh)
                else ret UNIMPLEMENTED).

Definition replay_switch (lh : RecordLogHeader) : M B RC :=
  match op_of_id (lh_operation_type lh) with
  | Some INIT_PAGE => replay_init_page lh
  | Some INSERT => replay_insert lh
  | Some DELETE => replay_delete lh
  | Some UPDATE => replay_update lh
  | None => ret INVALID_ARGUMENT
  end.

(** [RecordLogReplayer::replay]; the frame pinned here stays pinned until the end *)
Definition replay (entry : LogRec) : M B RC :=
  if negb (bool_decide (lr_module entry = RECORD_MANAGER)) then ret INVALID_ARGUMENT
  else if len (lr_data entry) <? RecordLogHeader_SIZE then ret INVALID_ARGUMENT
  else
    let* lh := liftO (dec_log (lr_data entry)) in
    let bp := lh_buffer_pool_id lh in
    let pn := lh_page_num lh in
    let* b := get in
    let rc := get_buffer_pool bp b in
    if OB_FAIL rc then ret rc
    else
      let* rc := get_this_page bp pn in
      if OB_FAIL rc then ret rc
      else
        let* b := get in
        let* frame := liftO (pool_frame bp pn b) in
        if lr_lsn entry <=? frame_lsn frame then unpin_page bp pn ;;; ret SUCCESS
        else
          let* rc := replay_switch lh in
          if OB_FAIL rc then unpin_page bp pn ;;; ret rc
          else
            let* b := get in
            let* frame := liftO (pool_frame bp pn b) in
            modify (pool_store bp (set_lsn (lr_lsn entry) frame)) ;;;
            unpin_page bp pn ;;;
            ret SUCCESS.

(** [RecordLogReplayer::on_done]: nothing is left to do *)
Definition on_done : M B RC := ret SUCCESS.

(** the replay of a log, as the integrated replayer drives it: it stops at the first error *)
Fixpoint replay_all (es : list LogRec) : M B RC :=
  match es with
  | [] => ret SUCCESS
  | e :: es => let* rc := replay e in if OB_FAIL rc then ret rc else replay_all es
  end.
End replayer.

(** ** Encoding *)

(** an encoded header is decoded to the header it came from *)
Lemma dec_log_enc_log lh :
  in_int32 (lh_buffer_pool_id lh) → in_int32 (lh_operation_type lh) → in_int32 (lh_page_num lh) →
  in_int32 (lh_storage_format lh) → in_int32 (slot_or_size lh) →
  dec_log (enc_log lh) = Some (mkRecordLogHeader (lh_buffer_pool_id lh) (lh_operation_type lh) (lh_page_num lh)
    (lh_storage_format lh) (wrap32 (lh_column_num lh)) (slot_or_size lh) (lh_data lh)).
Proof.
  intros. unfold dec_log, enc_log.
  set (fs := [_; _; _; _; _; _]).
  rewrite (field32_enc_fields fs _ 0 (lh_buffer_pool_id lh) eq_refl) by done.
  rewrite (field32_enc_fields fs _ 1 (lh_operation_type lh) eq_refl) by done.
  rewrite (field32_enc_fields fs _ 2 (lh_page_num lh) eq_refl) by done.
  rewrite (field32_enc_fields fs _ 3 (lh_storage_format lh) eq_refl) by done.
  rewrite (field32_enc_fields' fs _ 4 (lh_column_num lh) eq_refl).
  rewrite (field32_enc_fields fs _ 5 (slot_or_size lh) eq_refl) by done.
  done.
Qed.

(** ** What each logged operation appends *)

Section wal.
Context {L : Type} `{W : WalLaws L}.
Variable uninit : Z.
Implicit Types (h : Handler L).

(** the state after a logged operation: one more entry, its LSN on the frame and in the log *)
Record logged_entry (h h' : Handler L) (payload : list Z) : Prop := {
  le_entries : wal_entries (log_ h') =
    wal_entries (log_ h) ++ [mkLogRec (wal_lsn (log_ h) + 1) RECORD_MANAGER payload];
  le_lsn : wal_lsn (log_ h') = wal_lsn (log_ h) + 1;
  le_frame : frame_lsn (frame_ h') = wal_lsn (log_ h) + 1;
  le_num : frame_page_num (frame_ h') = frame_page_num (frame_ h);
  le_pool : buffer_pool_id_ h' = buffer_pool_id_ h;
}.

(** a handler that differs only in page bytes has the same log *)
Definition same_log h h' : Prop :=
  log_ h' = log_ h ∧ frame_page_num (frame_ h') = frame_page_num (frame_ h) ∧
  buffer_pool_id_ h' = buffer_pool_id_ h ∧ log_record_size_ h' = log_record_size_ h.

Lemma log_append_wal h payload rc h' :
  log_ready (log_ h) → len payload ≤ log_max → log_append payload h = Some (rc, h') →
  logged_entry h h' payload.
Proof.
  intros Hr Hl. destruct (wal_append (log_ h) RECORD_MANAGER payload Hr Hl) as (l' & E & Hr' & Hlsn & He).
  pose proof (wal_lsn_nonneg _ Hr). unfold log_append. rewrite E.
  change (OB_SUCC SUCCESS) with true. cbn [andb]. rewrite (proj2 (Z.ltb_lt _ _)) by lia.
  intros [= <- <-]. by constructor.
Qed.

Lemma write_slot_log i src h u h' : write_slot i src h = Some (u, h') →
  same_log h h' ∧ frame_lsn (frame_ h') = frame_lsn (frame_ h).
Proof. unfold write_slot. intros Hw. minv Hw. by injection Hw as <- <-. Qed.

(** the entry of each operation on a handler whose log is ready *)
Definition op_entry h (op : RecordOperation) (slot : SlotNum) (cn : Z) (rec : list Z) : list Z :=
  enc_log (mkRecordLogHeader (buffer_pool_id_ h) (type_id op) (frame_page_num (frame_ h)) ROW_FORMAT cn slot rec).

Lemma handler_size_bound h :
  handler_ok h → record_capacity (header (frame_ h)) ≠ 0 →
  RecordLogHeader_SIZE + log_record_size_ h ≤ log_max.
Proof.
  intros [Hok Hm Hl Hs] Hc. rewrite Hs. pose proof (record_size_bound _ Hok Hc). pose proof log_max_page.
  unfold RecordLogHeader_SIZE. lia.
Qed.

Lemma insert_record_wal src h rid h' :
  handler_ok h → insert_record src h = Some ((SUCCESS, Some rid), h') →
  ∃ rec, mem_read src 0 (size_of h) = Some rec ∧ rid = mkRID (frame_page_num (frame_ h)) (slot_num rid) ∧
    logged_entry h h' (op_entry h INSERT (slot_num rid) 0 rec).
Proof.
  intros Hok. unfold insert_record. intros Hi. minv Hi.
  destruct (_ =? _) eqn:Ef in Hi; [by injection Hi|]. minv Hi. zbool.
  injection Hi as <- <-. cbn [slot_num].
  unfold log_insert_record in E2. minv E2. exists a3. split; [|split; [done|]].
  { unfold size_of. rewrite <-(ho_size _ Hok). exact E4. }
  apply write_slot_log in E3 as [(Hl & Hn & Hb & _) Hlsn].
  assert (Hsz : RecordLogHeader_SIZE + log_record_size_ h ≤ log_max).
  { apply handler_size_bound; [done|]. intros Hz. rewrite Hz in Ef.
    pose proof (po_count _ (ho_page _ Hok)) as Hc. rewrite Hz in Hc. by rewrite Hc in Ef. }
  apply log_append_wal in E2 as [He Hwl Hfl Hfn Hfb].
  - constructor; cbn; rewrite ?Hl, ?Hn, ?Hb, ?Hlsn; done.
  - exact (ho_log _ Hok).
  - rewrite len_enc_log. cbn [lh_data]. rewrite (mem_read_len _ _ _ _ E4). exact Hsz.
Qed.

Lemma delete_record_wal rid h h' :
  handler_ok h → delete_record uninit rid h = Some (SUCCESS, h') → page_num rid = frame_page_num (frame_ h) →
  logged_entry h h' (op_entry h DELETE (slot_num rid) uninit []).
Proof.
  intros Hok. unfold delete_record. intros Hd Hpn. minv Hd.
  destruct a; [|by injection Hd]. minv Hd. injection Hd as <-.
  unfold log_delete_record in E2. minv E2. rewrite Hpn in E2.
  apply log_append_wal in E2 as [He Hwl Hfl Hfn Hfb]; [by constructor|exact (ho_log _ Hok)|].
  rewrite len_enc_log. pose proof log_max_page. assert (0 ≤ BP_PAGE_DATA_SIZE) by done.
  unfold RecordLogHeader_SIZE, len. cbn [lh_data length]. lia.
Qed.

Lemma update_record_wal rid src h h' :
  handler_ok h → update_record rid src h = Some (SUCCESS, h') → page_num rid = frame_page_num (frame_ h) →
  0 ≤ slot_num rid →
  ∃ rec, mem_read src 0 (size_of h) = Some rec ∧ logged_entry h h' (op_entry h UPDATE (slot_num rid) 0 rec).
Proof.
  intros Hok. unfold update_record. intros Hu Hpn Hs0. minv Hu.
  destruct (_ <=? _) eqn:Ec in Hu; [by injection Hu|]. minv Hu. zbool.
  destruct a; [|by injection Hu]. minv Hu. injection Hu as <-.
  apply write_slot_log in E1 as [(Hl & Hn & Hb & Hs) Hlsn].
  unfold log_update_record in E2. minv E2. rewrite Hpn, Hs, Hb in *. exists a1. split.
  { unfold size_of. rewrite <-(ho_size _ Hok). exact E1. }
  apply log_append_wal in E2 as [He Hwl Hfl Hfn Hfb].
  - constructor; rewrite ?He, ?Hwl, ?Hfl, ?Hfn, ?Hfb, ?Hl, ?Hb, ?Hn; done.
  - rewrite Hl. exact (ho_log _ Hok).
  - rewrite len_enc_log. cbn [lh_data]. rewrite (mem_read_len _ _ _ _ E1).
    cbn [log_record_size_ upd_frame]. apply handler_size_bound; [done|lia].
Qed.
End wal.

(** ** One operation, replayed *)

(** the entry [payload] undoes to [lh] and replays as the operation [op] on page [pn] of pool [id] *)
Record entry_of (id : Z) (pn : PageNum) (payload : list Z) (lh : RecordLogHeader) (op : PageOp) : Prop := {
  eo_dec : dec_log payload = Some lh;
  eo_size : RecordLogHeader_SIZE ≤ len payload;
  eo_pool : lh_buffer_pool_id lh = id;
  eo_page : lh_page_num lh = pn;
  eo_op : match op with
    | OpInsert src => op_of_id (lh_operation_type lh) = Some INSERT ∧ lh_storage_format lh = ROW_FORMAT ∧ lh_data lh = src
    | OpDelete s => op_of_id (lh_operation_type lh) = Some DELETE ∧ slot_or_size lh = s
    | OpUpdate s src => op_of_id (lh_operation_type lh) = Some UPDATE ∧ lh_storage_format lh = ROW_FORMAT ∧
        slot_or_size lh = s ∧ lh_data lh = src
    | OpGet _ => False
    end;
}.

Lemma enc_log_entry lh op :
  in_int32 (lh_buffer_pool_id lh) → in_int32 (lh_page_num lh) → in_int32 (slot_or_size lh) →
  lh_storage_format lh = ROW_FORMAT →
  match op with
  | OpInsert src => lh_operation_type lh = type_id INSERT ∧ lh_data lh = src
  | OpDelete s => lh_operation_type lh = type_id DELETE ∧ slot_or_size lh = s
  | OpUpdate s src => lh_operation_type lh = type_id UPDATE ∧ slot_or_size lh = s ∧ lh_data lh = src
  | OpGet _ => False
  end →
  ∃ lh', entry_of (lh_buffer_pool_id lh) (lh_page_num lh) (enc_log lh) lh' op.
Proof.
  intros Hb Hp Hs Hf Hop. assert (in_int32 (lh_operation_type lh)).
  { unfold in_int32. destruct op; try done; destruct Hop as [-> _]; simpl; lia. }
  assert (in_int32 (lh_storage_format lh)) by (rewrite Hf; by vm_compute).
  eexists. split; [by apply dec_log_enc_log|rewrite len_enc_log; unfold len; lia|done..|].
  destruct op; try done; cbn; destruct Hop as [-> Hop]; naive_solver.
Qed.

Section redo.
Context {L B : Type} `{W : WalLaws L} `{PL : RecordPoolLaws B}.
Variables (uninit uninit' : Z).
Implicit Types (h : Handler L) (b : B).

(** the identifiers fit their 32-bit fields *)
Definition ids_ok h : Prop :=
  in_int32 (buffer_pool_id_ h) ∧ in_int32 (frame_page_num (frame_ h)) ∧ record_capacity (header (frame_ h)) < 2 ^ 31.

(** an operation either leaves everything as it was or appends one entry that replays as an
    operation with the same effect *)
Lemma page_step_wal op h r h' :
  handler_ok h → ids_ok h → op_ok (cap_of h) (size_of h) op → page_step uninit op h = Some (r, h') →
  h' = h ∨ ∃ payload lh op', logged_entry h h' payload ∧ res_rc r = SUCCESS ∧
    entry_of (buffer_pool_id_ h) (frame_page_num (frame_ h)) payload lh op' ∧
    op_ok (cap_of h) (size_of h) op' ∧
    ∀ m, abs_step (cap_of h) (Z.to_nat (size_of h)) op' m = abs_step (cap_of h) (Z.to_nat (size_of h)) op m.
Proof.
  intros Hok (Hb & Hp & Hcap) Hop Hs.
  pose proof (po_real _ (ho_page _ Hok)) as Hreal.
  destruct (decide (res_rc r = SUCCESS)) as [Hrc|Hrc]; [|left; by apply (page_step_same _ _ _ _ _ Hs)].
  assert (Htake : ∀ src rec : list Z, mem_read src 0 (size_of h) = Some rec →
    size_of h ≤ len rec ∧ take (Z.to_nat (size_of h)) rec = take (Z.to_nat (size_of h)) src).
  { intros src rec Hr. split; [by rewrite (mem_read_len _ _ _ _ Hr)|].
    by rewrite (mem_read_take _ _ _ Hr), take_take, Nat.min_id. }
  unfold page_step in Hs. destruct op as [src|s|s src|s]; cbn [op_ok] in Hop; minv Hs; injection Hs as <- <-; cbn in Hrc.
  - right. destruct a as [rc0 [rid|]]; cbn in Hrc; subst rc0.
    2:{ unfold insert_record in E. minv E. by case_match; minv E. }
    destruct (insert_record_wal _ _ _ _ Hok E) as (rec & Hrec & Hrid & Hle).
    destruct (Htake _ _ Hrec) as [Hlen Heq].
    assert (Hsl : 0 ≤ slot_num rid < cap_of h).
    { destruct (decide (record_num (header (frame_ h)) = cap_of h)) as [Hfull|Hroom].
      - pose proof (insert_record_full h src (ho_mode _ Hok) Hfull). congruence.
      - destruct (insert_record_ok h src Hok Hop Hroom) as (slot & ? & ? & E' & _ & Hr & _).
        rewrite E in E'. injection E' as Heq' _. subst rid. exact Hr. }
    destruct (enc_log_entry (mkRecordLogHeader (buffer_pool_id_ h) (type_id INSERT) (frame_page_num (frame_ h))
      ROW_FORMAT 0 (slot_num rid) rec) (OpInsert rec)) as [lh Hlh]; cbn; try done; [unfold in_int32, cap_of in *; lia|].
    eexists; exists lh, (OpInsert rec). split; [exact Hle|]. split; [done|]. split; [exact Hlh|]. split; [done|].
    intros m. cbn. by rewrite Heq.
  - right. subst a. pose proof (delete_record_wal uninit _ _ _ Hok E eq_refl) as Hle.
    destruct (enc_log_entry (mkRecordLogHeader (buffer_pool_id_ h) (type_id DELETE) (frame_page_num (frame_ h))
      ROW_FORMAT uninit s []) (OpDelete s)) as [lh Hlh]; cbn; try done; [unfold in_int32, cap_of in *; lia|].
    eexists; exists lh, (OpDelete s). split; [exact Hle|]. split; [done|]. split; [exact Hlh|]. done.
  - right. subst a. destruct (update_record_wal _ _ _ _ Hok E eq_refl (proj1 Hop)) as (rec & Hrec & Hle).
    destruct (Htake _ _ Hrec) as [Hlen Heq].
    assert (Hsl : 0 ≤ s < cap_of h).
    { unfold update_record in E. minv E. case_match eqn:Hc; [by minv E|]. zbool. unfold cap_of. cbn in Hc. lia. }
    destruct (enc_log_entry (mkRecordLogHeader (buffer_pool_id_ h) (type_id UPDATE) (frame_page_num (frame_ h))
      ROW_FORMAT 0 s rec) (OpUpdate s rec)) as [lh Hlh]; cbn; try done; [unfold in_int32, cap_of in *; lia|].
    eexists; exists lh, (OpUpdate s rec). split; [exact Hle|]. split; [done|]. split; [exact Hlh|]. split; [split; [lia|done]|].
    intros m. cbn. by rewrite Heq.
  - left. unfold get_record in E. minv E. case_match; [by minv E; injection E as <- <-|]. minv E.
    destruct a0; cbn [negb] in E; minv E; by injection E as <- <-.
Qed.

(** the program run on the replayed page is the operation *)
Lemma replay_switch_run lh id pn op payload b f r (h' : Handler unit) :
  entry_of id pn payload lh op → pool_frame id pn b = Some f →
  page_step uninit' op (mkHandler f READ_WRITE id (record_real_size (header f)) tt) = Some (r, h') →
  ∃ b', replay_switch uninit' lh b = Some (res_rc r, b') ∧ pool_frame id pn b' = Some (frame_ h') ∧
    (∀ id' pn', (id', pn') ≠ (id, pn) → pool_frame id' pn' b' = pool_frame id' pn' b) ∧
    pool_pages id b' = pool_pages id b.
Proof.
  intros [_ _ Hid Hpn Hop] Hf Hs. pose proof (pool_frame_num _ _ _ _ Hf) as Hfn.
  destruct (page_step_same _ _ _ _ _ Hs) as [[Hn Hb] _]. cbn in Hn, Hb. rewrite Hfn in Hn.
  assert (Hrun : ∀ p : M (Handler unit) RC,
    p (mkHandler f READ_WRITE id (record_real_size (header f)) tt) = Some (res_rc r, h') →
    ∃ b', replay_on lh p b = Some (res_rc r, b') ∧ pool_frame id pn b' = Some (frame_ h') ∧
    (∀ id' pn', (id', pn') ≠ (id, pn) → pool_frame id' pn' b' = pool_frame id' pn' b) ∧
    pool_pages id b' = pool_pages id b).
  { intros p Hp. destruct (with_handler_ok id pn READ_WRITE tt Datatypes.id p b f _ _ Hf Hp Hn Hb) as (b' & E & Hb').
    exists b'. split; [|exact Hb']. unfold replay_on. rewrite Hid, Hpn. by rewrite (bind_eq _ _ _ _ _ E). }
  unfold page_step in Hs. rewrite bind_get in Hs. unfold replay_switch. cbn [frame_] in Hs.
  destruct op as [src|s|s src|s]; try done.
  - destruct Hop as (-> & Hsf & Hd). apply Hrun. rewrite Hsf, Hd, Z.eqb_refl. minv Hs. injection Hs as <- <-.
    by rewrite (bind_eq _ _ _ _ _ E).
  - destruct Hop as (-> & Hsl). apply Hrun. rewrite Hpn, Hsl. minv Hs. injection Hs as <- <-. cbn [res_rc]. by rewrite <-Hfn.
  - destruct Hop as (-> & Hsf & Hsl & Hd). apply Hrun. rewrite Hpn, Hsl, Hsf, Hd, Z.eqb_refl. minv Hs.
    injection Hs as <- <-. cbn [res_rc]. by rewrite <-Hfn.
Qed.

(** the replay of an entry newer than its page *)
Lemma replay_newer id pn e lh op b f r m' :
  entry_of id pn (lr_data e) lh op → lr_module e = RECORD_MANAGER →
  pool_frame id pn b = Some f → page_ok f → frame_lsn f < lr_lsn e →
  op_ok (record_capacity (header f)) (record_real_size (header f)) op →
  abs_step (record_capacity (header f)) (Z.to_nat (record_real_size (header f))) op (contents f) = (r, m') →
  res_rc r = SUCCESS →
  ∃ b' f', replay uninit' e b = Some (SUCCESS, b') ∧ pool_frame id pn b' = Some f' ∧ page_ok f' ∧
    frame_lsn f' = lr_lsn e ∧ layout f' = layout f ∧ contents f' = m' ∧
    (∀ id' pn', (id', pn') ≠ (id, pn) → pool_frame id' pn' b' = pool_frame id' pn' b).
Proof.
  intros He Hm Hf Hok Hlsn Hop Ha Hrc. pose proof He as [Hdec Hsz Hid Hpn _].
  destruct (get_this_page_ok _ _ _ _ Hf) as (b1 & E1 & Hb1).
  assert (Hf1 : pool_frame id pn b1 = Some f) by by rewrite Hb1.
  set (h0 := mkHandler f READ_WRITE id (record_real_size (header f)) tt).
  assert (Hok0 : handler_ok h0) by by constructor.
  destruct (page_step_refines uninit' h0 op Hok0 Hop) as (r0 & h' & Es & Hok' & Hlay & Ha').
  change (contents (frame_ h0)) with (contents f) in Ha'. change (cap_of h0) with (record_capacity (header f)) in Ha'.
  change (size_of h0) with (record_real_size (header f)) in Ha'. rewrite Ha in Ha'. injection Ha' as <- ->.
  destruct (replay_switch_run lh id pn op _ b1 f r h' He Hf1 Es) as (b2 & E2 & Hf2 & Hoth2 & _).
  pose proof (pool_frame_num _ _ _ _ Hf2) as Hn2.
  set (f' := set_lsn (lr_lsn e) (frame_ h')).
  assert (Hst : pool_frame id pn (pool_store id f' b2) = Some f').
  { rewrite <-Hn2 at 1. apply (pool_store_eq b2 id f'). unfold f'. cbn [frame_page_num set_lsn]. rewrite Hn2, Hf2. eauto. }
  destruct (unpin_page_ok _ _ _ _ Hst) as (b3 & E3 & Hb3). exists b3, f'.
  split; [|split; [by rewrite Hb3|split; [apply page_ok_lsn, (ho_page _ Hok')|]]].
  - unfold replay. rewrite bool_decide_eq_true_2 by done. cbn [negb]. rewrite (proj2 (Z.ltb_ge _ _)) by done.
    rewrite (bind_liftO _ _ _ _ Hdec), bind_get. cbv zeta. rewrite Hid, Hpn, (get_buffer_pool_ok _ _ _ _ Hf).
    change (OB_FAIL SUCCESS) with false. cbv iota. rewrite (bind_eq _ _ _ _ _ E1).
    change (OB_FAIL SUCCESS) with false. cbv iota. rewrite bind_get, (bind_liftO _ _ _ _ Hf1).
    rewrite (proj2 (Z.leb_gt _ _)) by done. rewrite (bind_eq _ _ _ _ _ E2), Hrc.
    change (OB_FAIL SUCCESS) with false. cbv iota. rewrite bind_get, (bind_liftO _ _ _ _ Hf2), bind_modify.
    by rewrite (bind_eq _ _ _ _ _ E3).
  - do 2 (split; [done|]). split; [done|]. intros id' pn' Hne.
    rewrite Hb3, pool_store_ne, Hoth2, Hb1; [done|done|]. unfold f'. cbn [frame_page_num set_lsn]. congruence.
Qed.

(** the replay of an entry the page already contains *)
Lemma replay_older id pn e lh op b f :
  entry_of id pn (lr_data e) lh op → lr_module e = RECORD_MANAGER →
  pool_frame id pn b = Some f → lr_lsn e ≤ frame_lsn f →
  ∃ b', replay uninit' e b = Some (SUCCESS, b') ∧ (∀ id' pn', pool_frame id' pn' b' = pool_frame id' pn' b).
Proof.
  intros [Hdec Hsz Hid Hpn _] Hm Hf Hlsn.
  destruct (get_this_page_ok _ _ _ _ Hf) as (b1 & E1 & Hb1).
  assert (Hf1 : pool_frame id pn b1 = Some f) by by rewrite Hb1.
  destruct (unpin_page_ok _ _ _ _ Hf1) as (b2 & E2 & Hb2). exists b2. split; [|intros; by rewrite Hb2].
  unfold replay. rewrite bool_decide_eq_true_2 by done. cbn [negb]. rewrite (proj2 (Z.ltb_ge _ _)) by done.
  rewrite (bind_liftO _ _ _ _ Hdec), bind_get. cbv zeta. rewrite Hid, Hpn, (get_buffer_pool_ok _ _ _ _ Hf).
  change (OB_FAIL SUCCESS) with false. cbv iota. rewrite (bind_eq _ _ _ _ _ E1).
  change (OB_FAIL SUCCESS) with false. cbv iota. rewrite bind_get, (bind_liftO _ _ _ _ Hf1).
  rewrite (proj2 (Z.leb_le _ _)) by done. by rewrite (bind_eq _ _ _ _ _ E2).
Qed.

(** ** A run of operations, replayed *)

(** the page [g] holds what the live page [f] holds: everything but the dirty flag and the
    bytes of free slots *)
Record page_sim (f g : RecordFrame) : Prop := {
  ps_num : frame_page_num g = frame_page_num f;
  ps_lsn : frame_lsn g = frame_lsn f;
  ps_header : header g = header f;
  ps_contents : contents g = contents f;
}.

Lemma layout_header f g : layout g = layout f → record_num (header g) = record_num (header f) → header g = header f.
Proof. unfold layout. destruct (header f), (header g); simpl. intros [=] ->. by subst. Qed.

(** an entry that belongs to the page and whose effect a page with LSN [upto] has *)
Definition entry_upto (id : Z) (pn : PageNum) (upto : LSN) (e : LogRec) : Prop :=
  lr_module e = RECORD_MANAGER ∧ lr_lsn e ≤ upto ∧ ∃ lh op, entry_of id pn (lr_data e) lh op.

Lemma replay_all_older id pn es : ∀ b f,
  pool_frame id pn b = Some f → Forall (entry_upto id pn (frame_lsn f)) es →
  ∃ b', replay_all uninit' es b = Some (SUCCESS, b') ∧ (∀ id' pn', pool_frame id' pn' b' = pool_frame id' pn' b).
Proof.
  induction es as [|e es IH]; intros b f Hf Hes; [by exists b|].
  apply Forall_cons in Hes as [(Hm & Hl & lh & op & He) Hes].
  destruct (replay_older id pn e lh op b f He Hm Hf Hl) as (b1 & E1 & Hb1).
  destruct (IH b1 f) as (b2 & E2 & Hb2); [by rewrite Hb1|done|].
  exists b2. split; [|intros; by rewrite Hb2, Hb1]. cbn [replay_all]. by rewrite (bind_eq _ _ _ _ _ E1).
Qed.

Lemma replay_all_app es1 es2 : ∀ b b1,
  replay_all uninit' es1 b = Some (SUCCESS, b1) →
  replay_all uninit' (es1 ++ es2) b = replay_all uninit' es2 b1.
Proof.
  induction es1 as [|e es IH]; intros b b1 Hr; [by injection Hr as ->|].
  cbn [replay_all app] in *. apply bind_Some in Hr as (rc & b0 & E & Hr). rewrite (bind_eq _ _ _ _ _ E).
  destruct (OB_FAIL rc) eqn:Ef; [|by apply IH].
  injection Hr as -> ->. done.
Qed.

(** the live handler [h] and the log entries of a run that ends in [h'] *)
Record run_logged h h' (es : list LogRec) : Prop := {
  rl_entries : wal_entries (log_ h') = wal_entries (log_ h) ++ es;
  rl_ok : handler_ok h';
  rl_ids : ids_ok h';
  rl_lsn : frame_lsn (frame_ h') ≤ wal_lsn (log_ h');
  rl_mono : frame_lsn (frame_ h) ≤ frame_lsn (frame_ h');
  rl_same : same_page h h';
  rl_layout : layout (frame_ h') = layout (frame_ h);
  rl_upto : Forall (entry_upto (buffer_pool_id_ h) (frame_page_num (frame_ h)) (frame_lsn (frame_ h'))) es;
  rl_redo : ∀ b g,
    pool_frame (buffer_pool_id_ h) (frame_page_num (frame_ h)) b = Some g → page_ok g → page_sim (frame_ h) g →
    ∃ b' g', replay_all uninit' es b = Some (SUCCESS, b') ∧
      pool_frame (buffer_pool_id_ h) (frame_page_num (frame_ h)) b' = Some g' ∧ page_ok g' ∧ page_sim (frame_ h') g' ∧
      (∀ id pn, (id, pn) ≠ (buffer_pool_id_ h, frame_page_num (frame_ h)) → pool_frame id pn b' = pool_frame id pn b);
}.

Lemma step_redo op h r h' :
  handler_ok h → ids_ok h → frame_lsn (frame_ h) ≤ wal_lsn (log_ h) →
  op_ok (cap_of h) (size_of h) op → page_step uninit op h = Some (r, h') →
  ∃ es, run_logged h h' es.
Proof.
  intros Hok Hids Hlsn Hop Hs.
  destruct (page_step_wal op h r h' Hok Hids Hop Hs) as [->|(payload & lh & op' & Hle & Hrc & He & Hop' & Habs)].
  { exists []. split; try done; [by rewrite app_nil_r|]. intros b g Hg Hgok Hsim. by exists b, g. }
  destruct (page_step_refines uninit h op Hok Hop) as (r1 & h1 & E & Hok1 & Hlay & Ha).
  rewrite Hs in E. injection E as <- <-. destruct Hle as [Hent Hwl Hfl Hfn Hfb].
  pose proof (layout_cap _ _ Hlay) as [Hcap _].
  exists [mkLogRec (wal_lsn (log_ h) + 1) RECORD_MANAGER payload]. split; try done; try lia.
  { unfold ids_ok. by rewrite Hfb, Hfn, Hcap. }
  { apply Forall_singleton. split; [done|]. rewrite Hfl. split; [simpl; lia|eauto]. }
  intros b g Hg Hgok [Hsn Hsl Hsh Hsc].
  destruct (replay_newer _ _ (mkLogRec (wal_lsn (log_ h) + 1) RECORD_MANAGER payload) lh op' b g r (contents (frame_ h')) He)
    as (b' & g' & E' & Hg' & Hgok' & Hl' & Hlay' & Hc' & Hoth); try done.
  - rewrite Hsl. simpl. lia.
  - by rewrite Hsh.
  - rewrite Hsh, Hsc. by rewrite <-Ha, <-Habs.
  - exists b', g'. split; [cbn [replay_all]; by rewrite (bind_eq _ _ _ _ _ E')|]. split; [done|]. split; [done|].
    split; [|done]. split; [by rewrite (pool_frame_num _ _ _ _ Hg'), Hfn|by rewrite Hl'| |done].
    apply layout_header; [rewrite Hlay', Hlay; unfold layout; by rewrite Hsh|].
    rewrite !record_num_size by (done || apply Hok1). by rewrite Hc'.
Qed.

Lemma run_redo ops : ∀ h rs h',
  handler_ok h → ids_ok h → frame_lsn (frame_ h) ≤ wal_lsn (log_ h) →
  Forall (op_ok (cap_of h) (size_of h)) ops → page_run uninit ops h = Some (rs, h') →
  ∃ es, run_logged h h' es.
Proof.
  induction ops as [|op ops IH]; intros h rs h' Hok Hids Hlsn Hops Hr.
  { injection Hr as <- <-. exists []. split; try done; [by rewrite app_nil_r|].
    intros b g Hg Hgok Hsim. by exists b, g. }
  apply Forall_cons in Hops as [Hop Hops]. cbn [page_run] in Hr. minv Hr. injection Hr as <- <-.
  destruct (step_redo op h a s Hok Hids Hlsn Hop E) as (es1 & [He1 Hok1 Hids1 Hl1 Hm1 [Hn1 Hb1] Hlay1 Hu1 Hr1]).
  pose proof (layout_cap _ _ Hlay1) as [Hc1 Hs1].
  destruct (IH s a0 s0 Hok1 Hids1 Hl1) as (es2 & [He2 Hok2 Hids2 Hl2 Hm2 [Hn2 Hb2] Hlay2 Hu2 Hr2]); [|done|].
  { unfold cap_of, size_of. by rewrite Hc1, Hs1. }
  rewrite Hb1, Hn1 in *. exists (es1 ++ es2). split; try done; [by rewrite He2, He1, app_assoc|lia| | |].
  - by rewrite Hlay2.
  - apply Forall_app. split; [|done]. eapply Forall_impl; [exact Hu1|]. intros e (? & ? & ?). split; [done|]. split; [lia|done].
  - intros b g Hg Hgok Hsim. destruct (Hr1 b g Hg Hgok Hsim) as (b1 & g1 & E1 & Hg1 & Hgok1 & Hsim1 & Ho1).
    destruct (Hr2 b1 g1 Hg1 Hgok1 Hsim1) as (b2 & g2 & E2 & Hg2 & Hgok2 & Hsim2 & Ho2).
    exists b2, g2. rewrite (replay_all_app _ _ _ _ E1). do 4 (split; [done|]). intros. by rewrite Ho2, Ho1.
Qed.
End redo.

(** ** Properties *)

(** [C12] Redo. A page is changed by [ops1], which leads to the handler [h1], and then by [ops2],
    every change logged. Whatever state of the page reached the disk in between (any
    well-formed page [g] with the LSN, the header and the records of the one after [ops1], in
    any pool [b] with any other pages), replaying all the entries of both runs succeeds and
    brings the page to the state after [ops2]: the same LSN, header and records; no other page
    changes. Replaying them once more changes nothing. *)
Theorem redo_page {L B} `{W : WalLaws L} `{PL : RecordPoolLaws B} (uninit uninit' : Z) (h h1 : Handler L)
    (ops1 ops2 : list PageOp) (rs1 : list PageRes) (b : B) (g : RecordFrame) :
  handler_ok h → ids_ok h → frame_lsn (frame_ h) ≤ wal_lsn (log_ h) →
  Forall (op_ok (cap_of h) (size_of h)) (ops1 ++ ops2) →
  page_run uninit ops1 h = Some (rs1, h1) →
  pool_frame (buffer_pool_id_ h) (frame_page_num (frame_ h)) b = Some g → page_ok g → page_sim (frame_ h1) g →
  ∃ rs2 h2 es b' g' b'',
    page_run uninit ops2 h1 = Some (rs2, h2) ∧ wal_entries (log_ h2) = wal_entries (log_ h) ++ es ∧
    replay_all uninit' es b = Some (SUCCESS, b') ∧
    pool_frame (buffer_pool_id_ h) (frame_page_num (frame_ h)) b' = Some g' ∧ page_sim (frame_ h2) g' ∧
    (∀ id pn, (id, pn) ≠ (buffer_pool_id_ h, frame_page_num (frame_ h)) → pool_frame id pn b' = pool_frame id pn b) ∧
    replay_all uninit' es b' = Some (SUCCESS, b'') ∧
    (∀ id pn, pool_frame id pn b'' = pool_frame id pn b').
Proof.
  intros Hok Hids Hlsn [Hops1 Hops2]%Forall_app E1 Hg Hgok Hsim.
  destruct (run_redo uninit uninit' ops1 h rs1 h1 Hok Hids Hlsn Hops1 E1 (B := B)) as (es1 & [He1 Hok1 Hids1 Hl1 Hm1 [Hn1 Hb1] Hlay1 Hu1 Hr1]).
  pose proof (layout_cap _ _ Hlay1) as [Hc1 Hs1].
  assert (Hops2' : Forall (op_ok (cap_of h1) (size_of h1)) ops2) by (unfold cap_of, size_of; by rewrite Hc1, Hs1).
  destruct (page_run_refines uninit ops2 h1 Hok1 Hops2') as (rs2 & h2 & E2 & _ & _).
  destruct (run_redo uninit uninit' ops2 h1 rs2 h2 Hok1 Hids1 Hl1 Hops2' E2 (B := B)) as (es2 & [He2 Hok2 Hids2 Hl2 Hm2 _ _ Hu2 Hr2]).
  rewrite Hb1, Hn1 in *.
  destruct (replay_all_older uninit' _ _ es1 b g Hg) as (b1 & F1 & Hb1'); [by rewrite (ps_lsn _ _ Hsim)|].
  destruct (Hr2 b1 g) as (b2 & g2 & F2 & Hg2 & Hgok2 & Hsim2 & Ho2); [by rewrite Hb1'|done..|].
  destruct (replay_all_older uninit' _ _ (es1 ++ es2) b2 g2 Hg2) as (b3 & F3 & Hb3).
  { rewrite (ps_lsn _ _ Hsim2). apply Forall_app. split; [|done].
    eapply Forall_impl; [exact Hu1|]. intros e (? & ? & ?). split; [done|]. split; [lia|done]. }
  exists rs2, h2, (es1 ++ es2), b2, g2, b3. rewrite (replay_all_app _ _ _ _ _ F1). split; [done|].
  split; [by rewrite He2, He1, app_assoc|]. do 3 (split; [done|]). split; [|done].
  intros id pn Hne. by rewrite Ho2, Hb1'.
Qed.

Definition small_page : RecordFrame :=
  mkRecordFrame 7 0 false (mkPageHeader 0 0 1 8 16 32 32) [0; 0] (replicate (Z.to_nat BP_PAGE_DATA_SIZE) 0).
Definition small_handler : Handler (list LogRec) := mkHandler small_page READ_WRITE 1 1 [].

Lemma small_handler_ok : handler_ok small_handler.
Proof.
  constructor; try done; constructor; try (by vm_compute).
  split; [by vm_compute| |by vm_compute]. repeat constructor; by vm_compute.
Qed.

(** the page after two insertions, as it reached the disk *)
Definition small_ops : list PageOp := [OpInsert [5]; OpInsert [6]].
Definition small_run : list PageRes * Handler (list LogRec) := default ([], small_handler) (page_run 0 small_ops small_handler).
Lemma small_run_eq : page_run 0 small_ops small_handler = Some (small_run.1, small_run.2).
Proof. by vm_compute. Qed.
Lemma small_ops_ok : Forall (op_ok (cap_of small_handler) (size_of small_handler)) small_ops.
Proof. repeat constructor; by vm_compute. Qed.
Lemma small_run_ok : page_ok (frame_ small_run.2).
Proof.
  destruct (page_run_refines 0 _ _ small_handler_ok small_ops_ok) as (rs & h1 & E & Hok & _).
  rewrite small_run_eq in E. apply Some_inj, pair_eq in E as [_ ->]. apply Hok.
Qed.

Lemma redo_page_witness :
  let b : MemPool := {[ (1, 7) := frame_ small_run.2 ]} in
  ∃ rs2 h2 es b' g' b'',
    page_run 0 [OpUpdate 1 [7]; OpDelete 0] small_run.2 = Some (rs2, h2) ∧ wal_entries (log_ h2) = wal_entries (log_ small_handler) ++ es ∧
    replay_all 0 es b = Some (SUCCESS, b') ∧
    pool_frame 1 7 b' = Some g' ∧ page_sim (frame_ h2) g' ∧
    (∀ id pn, (id, pn) ≠ (1, 7) → pool_frame id pn b' = pool_frame id pn b) ∧
    replay_all 0 es b' = Some (SUCCESS, b'') ∧
    (∀ id pn, pool_frame id pn b'' = pool_frame id pn b').
Proof.
  apply (redo_page 0 0 small_handler small_run.2 small_ops [OpUpdate 1 [7]; OpDelete 0] small_run.1
    ({[ (1, 7) := frame_ small_run.2 ]} : MemPool) (frame_ small_run.2)).
  - exact small_handler_ok.
  - by vm_compute.
  - by vm_compute.
  - repeat constructor; by vm_compute.
  - exact small_run_eq.
  - by vm_compute.
  - exact small_run_ok.
  - by constructor.
Defined.

(** ** Page initialisation, logged and replayed *)

Section init.
Context {L B : Type} `{W : WalLaws L} `{PL : RecordPoolLaws B}.

(** what [init_empty_page] leaves and logs *)
Lemma init_empty_page_wal h sf rs tf rc h' :
  let fl := column_lens sf tf in
  log_ready (log_ h) → 1 ≤ rs → len fl ≤ 1000 → len (data (frame_ h)) = BP_PAGE_DATA_SIZE →
  init_empty_page sf rs tf h = Some (rc, h') →
  ∃ hd index, fix_record_capacity (fresh_header rs (len fl)) = Some hd ∧ len index = 4 * len fl ∧
    header (frame_ h') = hd ∧
    logged_entry h h' (enc_log (mkRecordLogHeader (buffer_pool_id_ h) (type_id INIT_PAGE)
      (frame_page_num (frame_ h)) sf (len fl) rs index)).
Proof.
  intros fl Hlog Hrs Hfl Hd. unfold init_empty_page. fold fl. intros Hi. minv Hi.
  set (h0 := mkHandler (frame_ h) READ_WRITE (buffer_pool_id_ h) rs (log_ h)) in *.
  destruct (init_page_layout_ok h0 rs (len fl)) as (hd & Elay & Hfix & _); [done|unfold len in *; lia|done|].
  rewrite E in Elay. injection Elay as -> ->. exists hd.
  set (index := enc_fields _) in *. exists index.
  assert (Hix : len index = 4 * len fl) by (unfold index; by rewrite len_enc_fields, len_column_index).
  unfold log_init_new_page in Hi. rewrite bind_get in Hi.
  pose proof Hi as Hi'. unfold log_append in Hi'. cbn in Hi'. destruct (append _ _ _) as [[[rc0 lsn] l']|]; [|done].
  apply log_append_wal in Hi as [He Hwl Hfl' Hfn Hfb]; [|done|].
  2:{ rewrite len_enc_log. pose proof log_max_page. cbn [lh_data]. rewrite Hix.
      assert (BP_PAGE_DATA_SIZE = 8176) by done. unfold RecordLogHeader_SIZE. lia. }
  split; [done|]. split; [done|]. split; [injection Hi' as _ <-; by case_match|].
  replace (Z.quot (len index) 4) with (len fl) in He by (rewrite Hix, Z.mul_comm, Z.quot_mul; lia).
  by constructor.
Qed.

Lemma init_redo_ok (h : Handler unit) rs cn ix :
  1 ≤ rs → 0 ≤ cn ≤ 1000 → len ix = 4 * cn → len (data (frame_ h)) = BP_PAGE_DATA_SIZE →
  ∃ h', init_empty_page_redo rs cn ix h = Some (SUCCESS, h') ∧ page_ok (frame_ h') ∧ contents (frame_ h') = ∅ ∧
    fix_record_capacity (fresh_header rs cn) = Some (header (frame_ h')) ∧ same_page h h'.
Proof.
  intros Hrs Hcn Hix Hd. unfold init_empty_page_redo. rewrite bind_modify.
  set (h0 := mkHandler (frame_ h) READ_WRITE _ _ _).
  destruct (init_page_layout_ok h0 rs cn) as (hd & E & Hfix & _ & _ & Hpos & Hidx & Hfresh); [done..|].
  rewrite (bind_eq _ _ _ _ _ E).
  destruct (mem_read_is_Some ix 0 (cn * 4)) as [index Hrd]; [lia..|]. rewrite (bind_liftO _ _ _ _ Hrd), bind_get.
  pose proof (mem_read_len _ _ _ _ Hrd).
  destruct (mem_write_is_Some (data (frame_ h)) (col_idx_offset hd) index) as [d' Hw]; [lia..|].
  rewrite (bind_liftO _ _ _ _ Hw), bind_modify. eexists. split; [done|].
  pose proof (mem_write_len _ _ _ _ Hw).
  destruct (Hfresh (frame_page_num (frame_ h)) (frame_lsn (frame_ h)) (frame_dirty (frame_ h)) d') as [Hpg Hem]; [lia|].
  split; [exact Hpg|]. split; [exact Hem|]. split; [exact Hfix|done].
Qed.
End init.

(** [C29] Initialisation of a page is redone from its log entry: whatever bytes the page has
    on disk, replaying the INIT_PAGE entry lays out the same header, an empty bitmap and
    no record, and stamps the page with the LSN of the entry. *)
Theorem redo_init_page {L B} `{W : WalLaws L} `{PL : RecordPoolLaws B} (uninit' : Z) (h : Handler L)
    (sf rs : Z) (tf : option (list Z)) (b : B) (g : RecordFrame) :
  log_ready (log_ h) → 1 ≤ rs < 2 ^ 31 → in_int32 sf → len (column_lens sf tf) ≤ 1000 →
  in_int32 (buffer_pool_id_ h) → in_int32 (frame_page_num (frame_ h)) →
  len (data (frame_ h)) = BP_PAGE_DATA_SIZE →
  pool_frame (buffer_pool_id_ h) (frame_page_num (frame_ h)) b = Some g →
  len (data g) = BP_PAGE_DATA_SIZE → frame_lsn g ≤ wal_lsn (log_ h) →
  ∃ rc h1 e b' g', init_empty_page sf rs tf h = Some (rc, h1) ∧
    wal_entries (log_ h1) = wal_entries (log_ h) ++ [e] ∧
    replay uninit' e b = Some (SUCCESS, b') ∧
    pool_frame (buffer_pool_id_ h) (frame_page_num (frame_ h)) b' = Some g' ∧
    page_ok g' ∧ page_sim (frame_ h1) g' ∧ contents g' = ∅ ∧
    (∀ id pn, (id, pn) ≠ (buffer_pool_id_ h, frame_page_num (frame_ h)) → pool_frame id pn b' = pool_frame id pn b).
Proof.
  intros Hlog Hrs Hsf Hfl Hid Hpn Hd Hf Hdg Hlsn.
  destruct (init_empty_page_ok h sf rs tf Hlog) as (rc & h1 & E & Hok1 & Hc1 & _); [lia|done..|].
  destruct (init_empty_page_wal h sf rs tf rc h1 Hlog) as (hd & index & Hfix & Hix & Hh & [He _ Hl1 Hn1 _]); [lia|done..|].
  set (cn := len (column_lens sf tf)) in *. assert (0 ≤ cn) by (unfold cn, len; lia).
  set (lh := mkRecordLogHeader _ _ _ _ _ _ _) in He. set (e := mkLogRec _ _ _) in He.
  assert (Hdec : dec_log (lr_data e) = Some lh).
  { unfold e. cbn [lr_data]. rewrite dec_log_enc_log; cbn; try done; try (unfold in_int32; lia).
    rewrite wrap32_id; [done|]. unfold in_int32. lia. }
  destruct (get_this_page_ok _ _ _ _ Hf) as (b1 & F1 & Hb1).
  pose proof Hf as Hf1. rewrite <-Hb1 in Hf1. pose proof (pool_frame_num _ _ _ _ Hf) as Hgn.
  destruct (init_redo_ok (mkHandler g READ_WRITE (buffer_pool_id_ h) (record_real_size (header g)) tt) rs cn index)
    as (h2 & F2 & Hpok & Hpem & Hpfix & Hsn & Hsb); [lia|lia|done|done|].
  cbn in Hsn, Hsb. rewrite Hgn in Hsn.
  destruct (with_handler_ok _ _ READ_WRITE tt Datatypes.id _ b1 g _ _ Hf1 F2 Hsn Hsb) as (b2 & F3 & Hf2 & Ho2 & _).
  set (g' := set_lsn (lr_lsn e) (frame_ h2)). set (id := buffer_pool_id_ h) in *. set (pn := frame_page_num (frame_ h)) in *.
  assert (Hst : pool_frame id pn (pool_store id g' b2) = Some g').
  { rewrite <-Hsn at 1. apply (pool_store_eq b2 id g'). unfold g'. cbn. rewrite Hsn, Hf2. eauto. }
  destruct (unpin_page_ok _ _ _ _ Hst) as (b3 & F4 & Hb3).
  exists rc, h1, e, b3, g'. split; [done|]. split; [done|]. split; [|split; [by rewrite Hb3|split; [by apply page_ok_lsn|split; [|split; [done|]]]]].
  - unfold replay. rewrite bool_decide_eq_true_2 by done. cbn [negb].
    rewrite (proj2 (Z.ltb_ge _ _)) by (unfold e; cbn [lr_data]; rewrite len_enc_log; unfold len; lia).
    rewrite (bind_liftO _ _ _ _ Hdec), bind_get. cbv zeta. cbn [lh_buffer_pool_id lh_page_num lh].
    rewrite (get_buffer_pool_ok _ _ _ _ Hf). change (OB_FAIL SUCCESS) with false. cbv iota.
    rewrite (bind_eq _ _ _ _ _ F1). change (OB_FAIL SUCCESS) with false. cbv iota.
    rewrite bind_get, (bind_liftO _ _ _ _ Hf1). rewrite (proj2 (Z.leb_gt _ _)) by (unfold e; cbn [lr_lsn]; lia).
    assert (F5 : replay_switch uninit' lh b1 = Some (SUCCESS, b2)).
    { unfold replay_switch, replay_init_page, replay_on. cbn. fold id pn. by rewrite (bind_eq _ _ _ _ _ F3). }
    rewrite (bind_eq _ _ _ _ _ F5). change (OB_FAIL SUCCESS) with false. cbv iota.
    rewrite bind_get, (bind_liftO _ _ _ _ Hf2), bind_modify. fold g'. by rewrite (bind_eq _ _ _ _ _ F4).
  - split; cbn; [by rewrite Hsn, Hn1|by rewrite Hl1|congruence|by rewrite Hc1].
  - intros id' pn' Hne. rewrite Hb3, pool_store_ne, Ho2, Hb1; [done|done|]. unfold g'. cbn. congruence.
Qed.

Lemma redo_init_page_witness :
  ∃ rc h1 e b' g', init_empty_page ROW_FORMAT 5 None small_handler = Some (rc, h1) ∧
    wal_entries (log_ h1) = wal_entries (log_ small_handler) ++ [e] ∧
    replay 0 e {[ (1, 7) := blank_frame 7 ]} = Some (SUCCESS, b') ∧
    pool_frame 1 7 b' = Some g' ∧ page_ok g' ∧ page_sim (frame_ h1) g' ∧ contents g' = ∅ ∧
    (∀ id pn, (id, pn) ≠ (1, 7) → pool_frame id pn b' = pool_frame id pn {[ (1, 7) := blank_frame 7 ]}).
Proof.
  apply (redo_init_page 0 small_handler ROW_FORMAT 5 None ({[ (1, 7) := blank_frame 7 ]} : MemPool) (blank_frame 7));
    try (by vm_compute).
Defined.
