(* ===== verification/RecordFile.v ===== *)
(** * RecordFile: the record file handler (storage/record/record_manager.cpp)

    [RecordFileHandler] keeps the records of a table in the pages of one buffer pool.
    Its own state is the set of pages that may have room, [free_pages_]; everything
    else is in the pages. Each operation opens a [RecordPageHandler] on one page, works
    on it and releases it. [BufferPoolIterator] of storage/buffer/disk_buffer_pool.cpp
    walks the allocated pages. [lock_] has no state of its own: an operation is one
    step. *)
From S2P Require Import Prelude Types Bitmap Encoding LogHandler RecordPageHandler RecordPool.

(** ** [BufferPoolIterator] *)

(** the bitmap is the one of the live header, its size the page count when the iterator was set up *)
Record BufferPoolIterator := mkPoolIter { it_size : Z; current_page_num_ : PageNum }.

Section pool_iterator.
Context {B : Type} `{RecordPool B}.

Definition bp_iter_init (id : Z) (start_page : PageNum) (b : B) : BufferPoolIterator :=
  mkPoolIter (pool_page_count id b) (if start_page <=? 0 then -1 else start_page - 1).
(** the next allocated page, from page 1 on *)
Definition bp_iter_peek (id : Z) (it : BufferPoolIterator) (b : B) : option PageNum :=
  head (filter (λ p, current_page_num_ it < p < it_size it) (pool_pages id b)).
Definition bp_iter_to (it : BufferPoolIterator) (p : PageNum) : BufferPoolIterator := mkPoolIter (it_size it) p.
End pool_iterator.

(** ** [RecordFileHandler] *)

(** the handler, and the buffer pools and the log it works on; [table_meta_] is the list of
    the field lengths *)
Record RFile (B L : Type) := mkRFile {
  rf_pool : B;
  rf_log : L;
  disk_buffer_pool_ : option Z;     (** the id of the pool *)
  free_pages_ : gset PageNum;
  storage_format_ : Z;
  table_meta_ : option (list Z);
}.
Arguments mkRFile {B L} _ _ _ _ _ _.
Arguments rf_pool {B L} _.
Arguments rf_log {B L} _.
Arguments disk_buffer_pool_ {B L} _.
Arguments free_pages_ {B L} _.
Arguments storage_format_ {B L} _.
Arguments table_meta_ {B L} _.

Section file.
Context {B L : Type} `{RecordPool B} `{LogHandler L}.
(** [*free_pages_.begin()] of the unordered set *)
Variable begin : gset PageNum → PageNum.
Variable uninit : Z.

Definition set_rf_pool (b : B) (s : RFile B L) : RFile B L :=
  mkRFile b (rf_log s) (disk_buffer_pool_ s) (free_pages_ s) (storage_format_ s) (table_meta_ s).
Definition set_rf_log (l : L) (s : RFile B L) : RFile B L :=
  mkRFile (rf_pool s) l (disk_buffer_pool_ s) (free_pages_ s) (storage_format_ s) (table_meta_ s).
Definition set_free (X : gset PageNum) (s : RFile B L) : RFile B L :=
  mkRFile (rf_pool s) (rf_log s) (disk_buffer_pool_ s) X (storage_format_ s) (table_meta_ s).
Definition free_insert (pn : PageNum) : M (RFile B L) unit := modify (λ s, set_free ({[pn]} ∪ free_pages_ s) s).

(** a call into the buffer pool *)
Definition on_pool {A} (op : M B A) : M (RFile B L) A := λ s,
  match op (rf_pool s) with Some (a, b) => Some (a, set_rf_pool b s) | None => None end.
(** [*disk_buffer_pool_]: undefined when the handler is closed *)
Definition the_pool : M (RFile B L) Z := let* s := get in liftO (disk_buffer_pool_ s).
(** [record_page_handler->init(...)] *)
Definition open_page (pn : PageNum) (mode : ReadWriteMode) : M (RFile B L) (RC * option (Handler L)) :=
  let* id := the_pool in
  let* s := get in
  on_pool (handler_init id pn mode (rf_log s)).
(** the end of the handler's scope: [~RecordPageHandler], or [cleanup] *)
Definition close_page (h : Handler L) : M (RFile B L) unit :=
  on_pool (handler_cleanup h) ;;; modify (set_rf_log (log_ h)).
(** one operation of the page handler, on the page that is open *)
Definition page_call {A} (op : M (Handler L) A) (h : Handler L) : M (RFile B L) A :=
  let* o := liftO (op h) in close_page o.2 ;;; ret o.1.

(** the page handler [RecordPageHandler::create] makes is the one of the storage format: the
    handler of the PAX format ends the process on an insertion and a read, and has no update *)
Definition row_only {A} (sf : Z) (op : M (Handler L) A) : M (Handler L) A := if sf =? ROW_FORMAT then op else abort.
Definition row_or {A} (sf : Z) (op : M (Handler L) A) (r : A) : M (Handler L) A := if sf =? ROW_FORMAT then op else ret r.

(** [RecordFileHandler::init_free_pages]: one round per allocated page *)
Fixpoint init_free_pages_loop (n : nat) (it : BufferPoolIterator) : M (RFile B L) RC :=
  let* id := the_pool in
  let* s := get in
  match bp_iter_peek id it (rf_pool s) with
  | None => ret SUCCESS
  | Some pn =>
      match n with
      | O => abort
      | S n =>
          let* r := open_page pn READ_ONLY in
          match r.2 with
          | None => ret r.1
          | Some h =>
              (if negb (is_full h) then free_insert pn else ret tt) ;;;
              close_page h ;;;
              init_free_pages_loop n (bp_iter_to it pn)
          end
      end
  end.
Definition init_free_pages : M (RFile B L) RC :=
  let* id := the_pool in
  let* s := get in
  init_free_pages_loop (Z.to_nat (pool_page_count id (rf_pool s))) (bp_iter_init id 1 (rf_pool s)).

(** [RecordFileHandler::init]: an error of [init_free_pages] is only logged *)
Definition file_init (id : Z) (table_meta : option (list Z)) : M (RFile B L) RC :=
  let* s := get in
  match disk_buffer_pool_ s with
  | Some _ => ret RECORD_OPENNED
  | None =>
      put (mkRFile (rf_pool s) (rf_log s) (Some id) (free_pages_ s) (storage_format_ s) table_meta) ;;;
      init_free_pages ;;;
      ret SUCCESS
  end.

(** [RecordFileHandler::close] *)
Definition file_close : M (RFile B L) unit :=
  modify (λ s, match disk_buffer_pool_ s with
               | Some _ => mkRFile (rf_pool s) (rf_log s) None ∅ (storage_format_ s) None
               | None => s
               end).

(** the first loop of [insert_record]: a page with room, open; pages that turn out to be full
    leave [free_pages_] *)
Fixpoint find_free_page (n : nat) : M (RFile B L) (RC * option (Handler L)) :=
  let* s := get in
  if decide (free_pages_ s = ∅) then ret (SUCCESS, None)
  else
    match n with
    | O => abort
    | S n =>
        let pn := begin (free_pages_ s) in
        let* r := open_page pn READ_WRITE in
        match r.2 with
        | None => ret r
        | Some h =>
            if negb (is_full h) then ret r
            else
              close_page h ;;;
              modify (λ s, set_free (free_pages_ s ∖ {[begin (free_pages_ s)]}) s) ;;;
              find_free_page n
        end
    end.

(** the second part of [insert_record]: a new page, laid out and open *)
Definition new_page (record_size : Z) : M (RFile B L) (RC * option (Handler L)) :=
  let* id := the_pool in
  let* r := on_pool (allocate_page id) in
  if negb (bool_decide (r.1 = SUCCESS)) then ret (r.1, None)
  else
    let pn := r.2 in
    let* r := open_page pn READ_WRITE in
    match r.2 with
    | None => on_pool (unpin_page id pn) ;;; ret r
    | Some h =>
        let* s := get in
        let* o := liftO (init_empty_page (storage_format_ s) record_size (table_meta_ s) h) in
        on_pool (unpin_page id pn) ;;;
        if OB_FAIL o.1 then close_page o.2 ;;; ret (o.1, None)
        else free_insert pn ;;; ret (o.1, Some o.2)
    end.

(** [RecordFileHandler::insert_record]; the [RID] is the output parameter *)
Definition file_insert_record (data : list Z) (record_size : Z) : M (RFile B L) (RC * option RID) :=
  let* s := get in
  let* r := find_free_page (size (free_pages_ s)) in
  let* r := (if OB_FAIL r.1 then ret r else match r.2 with Some _ => ret r | None => new_page record_size end) in
  match r.2 with
  | None => ret (r.1, None)
  | Some h =>
      let* s := get in
      page_call (row_only (storage_format_ s) (insert_record data)) h
  end.

(** [RecordFileHandler::recover_insert_record] *)
Definition file_recover_insert_record (data : list Z) (rid : RID) : M (RFile B L) RC :=
  let* id := the_pool in
  let* s := get in
  let* r := on_pool (handler_recover_init id (page_num rid) (rf_log s)) in
  match r.2 with
  | None => ret r.1
  | Some h => page_call (row_or (storage_format_ s) (recover_insert_record data rid) UNIMPLEMENTED) h
  end.

(** [RecordFileHandler::delete_record] *)
Definition file_delete_record (rid : RID) : M (RFile B L) RC :=
  let* r := open_page (page_num rid) READ_WRITE in
  match r.2 with
  | None => ret r.1
  | Some h =>
      let* rc := page_call (delete_record uninit rid) h in
      (if OB_SUCC rc then free_insert (page_num rid) else ret tt) ;;;
      ret rc
  end.

(** [Record::copy_data]: the copy must not be empty *)
Definition copy_data (data : list Z) : option (list Z) := if len data =? 0 then None else Some data.

(** the page handler's [get_record], and the copy of the record *)
Definition get_copy (rid : RID) : M (Handler L) (RC * option (list Z)) :=
  let* r := get_record rid in
  match r.2 with
  | None => ret (r.1, None)
  | Some data => let* data := liftO (copy_data data) in ret (r.1, Some data)
  end.

(** [RecordFileHandler::get_record] *)
Definition file_get_record (rid : RID) : M (RFile B L) (RC * option (list Z)) :=
  let* r := open_page (page_num rid) READ_WRITE in
  match r.2 with
  | None => ret (r.1, None)
  | Some h => let* s := get in page_call (row_only (storage_format_ s) (get_copy rid)) h
  end.

(** [RecordFileHandler::visit_record]: [updater] sees a copy of the record and answers whether
    the record it leaves is to be written back *)
Definition file_visit_record (rid : RID) (updater : list Z → bool * list Z) : M (RFile B L) RC :=
  let* r := open_page (page_num rid) READ_WRITE in
  match r.2 with
  | None => ret r.1
  | Some h =>
      let* s := get in
      page_call (row_only (storage_format_ s)
        (let* r := get_copy rid in
         match r.2 with
         | None => ret r.1
         | Some record =>
             let u := updater record in
             if u.1 then update_record rid u.2 else ret r.1
         end)) h
  end.
End file.
