(* ===== verification/RecordFileSpec.v ===== *)
(** * RecordFileSpec: the record file is a finite map from record identifiers to records

    The pages of a file are one map from [RID]s to records. [file_rel] relates the state of
    the handler to that map; among its parts are the invariants that keep insertion
    cheap: [free_pages_] holds only pages of the file and every page with room. Each
    operation of the handler is shown to be a step of [file_spec]. *)
From stdpp Require Import sorting.
From S2P Require Import Prelude Types Bitmap Encoding LogHandler RecordPageHandler RecordPageSpec RecordPool RecordFile.

(** ** The abstract file *)

(** [fs_lost]: pages allocated by an insertion that then failed to log their initialisation:
    they stay empty and are not offered to insertions until the file is opened again *)
Record FileSpec := mkFileSpec { fs_pages : gset PageNum; fs_lost : gset PageNum; fs_rows : gmap RID (list Z) }.

Inductive FileOp : Type :=
| FInsert (src : list Z) | FDelete (rid : RID) | FGet (rid : RID)
| FVisit (rid : RID) (updater : list Z → bool * list Z) | FRecover (src : list Z) (rid : RID) | FReopen.
Record FileRes := mkFileRes { fr_rc : RC; fr_rid : option RID; fr_rec : option (list Z) }.

(** no page has room *)
Definition all_full (cap : Z) (a : FileSpec) : Prop :=
  ∀ pn slot, pn ∈ fs_pages a → pn ∉ fs_lost a → 0 ≤ slot < cap → is_Some (fs_rows a !! mkRID pn slot).
Definition with_rows (a : FileSpec) (m : gmap RID (list Z)) : FileSpec := mkFileSpec (fs_pages a) (fs_lost a) m.

(** what an operation may answer and leave, on pages of [cap] records of [rs] bytes *)
Inductive file_spec (cap : Z) (rs : nat) : FileOp → FileSpec → FileRes → FileSpec → Prop :=
| SInsert src a rid :                       (** into the first free slot of a page of the file *)
    page_num rid ∈ fs_pages a → 0 ≤ slot_num rid < cap → fs_rows a !! rid = None →
    (∀ j, 0 ≤ j < slot_num rid → is_Some (fs_rows a !! mkRID (page_num rid) j)) →
    file_spec cap rs (FInsert src) a (mkFileRes SUCCESS (Some rid) None) (with_rows a (<[rid := take rs src]> (fs_rows a)))
| SInsertNew src a pn :                     (** into a new page, when every page is full *)
    all_full cap a → 1 ≤ pn → pn ∉ fs_pages a → fs_rows a !! mkRID pn 0 = None →
    file_spec cap rs (FInsert src) a (mkFileRes SUCCESS (Some (mkRID pn 0)) None)
      (mkFileSpec ({[pn]} ∪ fs_pages a) (fs_lost a) (<[mkRID pn 0 := take rs src]> (fs_rows a)))
| SInsertFail src a rc P :                  (** no page to be had, or its initialisation not logged *)
    all_full cap a → rc ≠ SUCCESS → P ## fs_pages a →
    file_spec cap rs (FInsert src) a (mkFileRes rc None None) (mkFileSpec (P ∪ fs_pages a) (P ∪ fs_lost a) (fs_rows a))
| SDelete rid a r :
    fs_rows a !! rid = Some r →
    file_spec cap rs (FDelete rid) a (mkFileRes SUCCESS None None) (with_rows a (delete rid (fs_rows a)))
| SGet rid a r :
    fs_rows a !! rid = Some r → length r = rs →
    file_spec cap rs (FGet rid) a (mkFileRes SUCCESS None (Some r)) a
| SVisit rid updater a r :
    fs_rows a !! rid = Some r →
    file_spec cap rs (FVisit rid updater) a (mkFileRes SUCCESS None None)
      (with_rows a (if (updater r).1 then <[rid := take rs (updater r).2]> (fs_rows a) else fs_rows a))
| SRecover src rid a :                      (** the slot the identifier names, free or taken *)
    page_num rid ∈ fs_pages a → 0 ≤ slot_num rid < cap →
    file_spec cap rs (FRecover src rid) a (mkFileRes SUCCESS None None) (with_rows a (<[rid := take rs src]> (fs_rows a)))
| SNone op rid a rc :                       (** a record that does not exist *)
    op = FDelete rid ∨ op = FGet rid ∨ (∃ updater, op = FVisit rid updater) →
    fs_rows a !! rid = None → rc ≠ SUCCESS →
    file_spec cap rs op a (mkFileRes rc None None) a
| SNoSlot src rid a rc :                    (** a slot that does not exist *)
    ¬ (page_num rid ∈ fs_pages a ∧ slot_num rid < cap) → rc ≠ SUCCESS →
    file_spec cap rs (FRecover src rid) a (mkFileRes rc None None) a
| SReopen a :
    file_spec cap rs FReopen a (mkFileRes SUCCESS None None) (mkFileSpec (fs_pages a) ∅ (fs_rows a)).

(** the calls a table makes: records of the table's size, identifiers of data pages; a slot
    past the bitmap is undefined in [delete_record] *)
Definition fop_ok (cap rs : Z) (op : FileOp) : Prop :=
  match op with
  | FInsert src => rs ≤ len src
  | FDelete rid => 1 ≤ page_num rid ∧ 0 ≤ slot_num rid < cap
  | FGet rid => 1 ≤ page_num rid ∧ 0 ≤ slot_num rid
  | FVisit rid updater => 1 ≤ page_num rid ∧ 0 ≤ slot_num rid ∧ ∀ r, len r = rs → rs ≤ len (updater r).2
  | FRecover src rid => 1 ≤ page_num rid ∧ 0 ≤ slot_num rid ∧ rs ≤ len src
  | FReopen => True
  end.

(** the record [rid] names in the pages of pool [id] *)
Definition row_at {B} `{RecordPool B} (id : Z) (b : B) (rid : RID) : option (list Z) :=
  if decide (1 ≤ page_num rid) then f ← pool_frame id (page_num rid) b; contents f !! slot_num rid else None.

(** ** The operations as steps *)

Section steps.
Context {B L : Type} `{RecordPool B} `{LogHandler L}.
Variable begin : gset PageNum → PageNum.
Variable uninit : Z.
Variable id rs : Z.

Definition file_step (op : FileOp) : M (RFile B L) FileRes :=
  match op with
  | FInsert src => let* r := file_insert_record begin src rs in ret (mkFileRes r.1 r.2 None)
  | FDelete rid => let* rc := file_delete_record uninit rid in ret (mkFileRes rc None None)
  | FGet rid => let* r := file_get_record rid in ret (mkFileRes r.1 None r.2)
  | FVisit rid updater => let* rc := file_visit_record rid updater in ret (mkFileRes rc None None)
  | FRecover src rid => let* rc := file_recover_insert_record src rid in ret (mkFileRes rc None None)
  | FReopen => let* s := get in file_close ;;; let* rc := file_init id (table_meta_ s) in ret (mkFileRes rc None None)
  end.
Fixpoint file_run (ops : list FileOp) : M (RFile B L) (list FileRes) :=
  match ops with
  | [] => ret []
  | op :: ops => let* r := file_step op in let* rs := file_run ops in ret (r :: rs)
  end.
End steps.

(** a sequence of abstract steps *)
Inductive file_specs (cap : Z) (rs : nat) : list FileOp → FileSpec → list FileRes → FileSpec → Prop :=
| SpecNil a : file_specs cap rs [] a [] a
| SpecCons op ops a r a1 res a2 :
    file_spec cap rs op a r a1 → file_specs cap rs ops a1 res a2 → file_specs cap rs (op :: ops) a (r :: res) a2.

(** ** The relation between a handler and the abstract file *)

Section rel.
Context {B L : Type} `{PL : RecordPoolLaws B} `{LT : LogTotal L}.
Variables (id : Z) (hd : PageHeader).
Implicit Types (s : RFile B L).

Record file_rel s (a : FileSpec) : Prop := {
  fl_open : disk_buffer_pool_ s = Some id;
  fl_format : storage_format_ s = ROW_FORMAT;
  fl_log : log_ready (rf_log s);
  fl_pages : ∀ pn, pn ∈ fs_pages a ↔ 1 ≤ pn ∧ is_Some (pool_frame id pn (rf_pool s));
  fl_rows : ∀ rid, fs_rows a !! rid = row_at id (rf_pool s) rid;
  fl_page : ∀ pn f, 1 ≤ pn → pool_frame id pn (rf_pool s) = Some f → page_ok f ∧ layout f = hd;
  fl_free : free_pages_ s ⊆ fs_pages a;
  fl_room : ∀ pn f, 1 ≤ pn → pool_frame id pn (rf_pool s) = Some f → pn ∉ free_pages_ s → pn ∉ fs_lost a →
    record_num (header f) = record_capacity hd;
}.

(** the handler's own fields *)
Definition same_handler s s' : Prop :=
  disk_buffer_pool_ s' = disk_buffer_pool_ s ∧ free_pages_ s' = free_pages_ s ∧
  storage_format_ s' = storage_format_ s ∧ table_meta_ s' = table_meta_ s.
(** [pn] now holds [f]; nothing else changes *)
Definition page_now (pn : PageNum) (f : RecordFrame) s s' : Prop :=
  pool_frame id pn (rf_pool s') = Some f ∧
  ∀ id' pn', (id', pn') ≠ (id, pn) → pool_frame id' pn' (rf_pool s') = pool_frame id' pn' (rf_pool s).

Lemma row_at_eq b f rid : 1 ≤ page_num rid → pool_frame id (page_num rid) b = Some f → row_at id b rid = contents f !! slot_num rid.
Proof. intros H1 Hf. unfold row_at. by rewrite decide_True, Hf. Qed.
Lemma row_at_none b rid : pool_frame id (page_num rid) b = None → row_at id b rid = None.
Proof. intros Hf. unfold row_at. rewrite Hf. by case_decide. Qed.
Lemma row_at_frames b b' rid : same_frames b b' → row_at id b' rid = row_at id b rid.
Proof. intros E. unfold row_at. by rewrite E. Qed.

Lemma rel_frames s s' a : file_rel s a → same_frames (rf_pool s) (rf_pool s') → same_handler s s' → log_ready (rf_log s') → file_rel s' a.
Proof.
  intros [] E (E1 & E2 & E3 & E4) Hl. split; rewrite ?E1, ?E2, ?E3; try done.
  - intros pn. by rewrite E.
  - intros rid. by rewrite (row_at_frames _ _ _ E).
  - intros pn f. rewrite E. apply fl_page0.
  - intros pn f. rewrite E. apply fl_room0.
Qed.

(** one page changes, or is new *)
Lemma rel_change s s' a pn f' rows lost :
  file_rel s a → 1 ≤ pn → page_now pn f' s s' →
  disk_buffer_pool_ s' = disk_buffer_pool_ s → storage_format_ s' = storage_format_ s → log_ready (rf_log s') →
  page_ok f' → layout f' = hd →
  (∀ slot, rows !! mkRID pn slot = contents f' !! slot) →
  (∀ rid, page_num rid ≠ pn → rows !! rid = fs_rows a !! rid) →
  free_pages_ s' ⊆ {[pn]} ∪ free_pages_ s → free_pages_ s ⊆ free_pages_ s' → fs_lost a ⊆ lost →
  (pn ∉ free_pages_ s' → pn ∉ lost → record_num (header f') = record_capacity hd) →
  file_rel s' (mkFileSpec ({[pn]} ∪ fs_pages a) lost rows).
Proof.
  intros [Ho Hf Hl Hp Hr Hpg Hfr Hrm] H1 [Hpn Hoth] E1 E2 Hl' Hok Hlay Hrow1 Hrow2 Hs1 Hs2 Hlost Hroom.
  assert (Hne : ∀ p, p ≠ pn → pool_frame id p (rf_pool s') = pool_frame id p (rf_pool s)) by (intros p ?; apply Hoth; congruence).
  split; rewrite ?E1, ?E2; try done; cbn [fs_pages fs_lost fs_rows].
  - intros p. rewrite elem_of_union, elem_of_singleton. destruct (decide (p = pn)) as [->|Hp']; [rewrite Hpn; split; [eauto|by left]|]. rewrite Hp, Hne by done. naive_solver.
  - intros [p slot]. destruct (decide (p = pn)) as [->|Hp']; [by rewrite Hrow1, (row_at_eq _ f')|]. rewrite Hrow2, Hr by done. unfold row_at. cbn. by rewrite Hne.
  - intros p f Hp1 Hf'. destruct (decide (p = pn)) as [->|Hp']; [by simplify_eq|]. rewrite Hne in Hf' by done. by apply (Hpg p).
  - clear - Hfr Hs1. set_solver.
  - intros p f Hp1 Hf' Hnf Hnl. destruct (decide (p = pn)) as [->|Hp']; [replace f with f' by congruence; auto|]. rewrite Hne in Hf' by done. apply (Hrm p f); clear - Hp1 Hf' Hnf Hnl Hs2 Hlost; set_solver.
Qed.

(** a page that is full leaves [free_pages_] *)
Lemma rel_drop s s' a pn f : file_rel s a → pool_frame id pn (rf_pool s) = Some f → record_num (header f) = record_capacity hd →
  file_rel s a → same_frames (rf_pool s) (rf_pool s') → disk_buffer_pool_ s' = disk_buffer_pool_ s → storage_format_ s' = storage_format_ s →
  log_ready (rf_log s') → free_pages_ s' = free_pages_ s ∖ {[pn]} → file_rel s' a.
Proof.
  intros [Ho Hf Hl Hp Hr Hpg Hfr Hrm] Hpn Hfull _ E E1 E2 Hl' Efr. split; rewrite ?E1, ?E2; try done.
  - intros p. by rewrite E.
  - intros rid. by rewrite (row_at_frames _ _ _ E).
  - intros p g. rewrite E. apply Hpg.
  - rewrite Efr. clear - Hfr. set_solver.
  - intros p g Hp1 Hg Hnf Hnl. rewrite E in Hg. destruct (decide (p = pn)) as [->|]; [by simplify_eq|]. apply (Hrm p g); [done..| |done]. rewrite Efr in Hnf. set_solver.
Qed.

(** ** The scope of a page handler *)

Lemma on_pool_eq {A} (op : M B A) s a b : op (rf_pool s) = Some (a, b) → on_pool op s = Some (a, set_rf_pool b s).
Proof. unfold on_pool. by intros ->. Qed.
Lemma the_pool_eq s : disk_buffer_pool_ s = Some id → the_pool s = Some (id, s).
Proof. intros E. unfold the_pool. by rewrite bind_get, E. Qed.

Lemma open_page_ok s pn mode f : disk_buffer_pool_ s = Some id → pool_frame id pn (rf_pool s) = Some f →
  ∃ b', open_page pn mode s = Some ((SUCCESS, Some (mkHandler f mode id (record_real_size (header f)) (rf_log s))), set_rf_pool b' s) ∧
    same_frames (rf_pool s) b'.
Proof.
  intros Ho Hf. destruct (handler_init_ok id pn mode (rf_log s) _ f Hf) as (b' & E & Hb). exists b'. split; [|done].
  unfold open_page. rewrite (bind_eq _ _ _ _ _ (the_pool_eq s Ho)), bind_get. by apply on_pool_eq.
Qed.
Lemma open_page_none s pn mode : disk_buffer_pool_ s = Some id → 1 ≤ pn → pool_frame id pn (rf_pool s) = None →
  ∃ rc b', open_page pn mode s = Some ((rc, None), set_rf_pool b' s) ∧ rc ≠ SUCCESS ∧ same_frames (rf_pool s) b'.
Proof.
  intros Ho H1 Hf. destruct (handler_init_none id pn mode (rf_log s) _ H1 Hf) as (rc & b' & E & Hrc & Hb). exists rc, b'. split; [|done].
  unfold open_page. rewrite (bind_eq _ _ _ _ _ (the_pool_eq s Ho)), bind_get. by apply on_pool_eq.
Qed.
Lemma close_page_ok s h pn : is_Some (pool_frame id pn (rf_pool s)) → frame_page_num (frame_ h) = pn → buffer_pool_id_ h = id →
  ∃ s', close_page h s = Some (tt, s') ∧ page_now pn (frame_ h) s s' ∧ same_handler s s' ∧ rf_log s' = log_ h.
Proof.
  intros Hf Hpn Hid. unfold close_page, handler_cleanup. rewrite Hid, Hpn.
  assert (Hst : pool_frame id pn (pool_store id (frame_ h) (rf_pool s)) = Some (frame_ h)) by (rewrite <-Hpn; apply pool_store_eq; by rewrite Hpn).
  destruct (unpin_page_ok _ _ _ _ Hst) as (b2 & E2 & Hb2). erewrite bind_eq; [|apply on_pool_eq; rewrite bind_modify, (bind_eq _ _ _ _ _ E2); done].
  eexists. split; [done|]. split; [|done]. split; cbn; [by rewrite Hb2|]. intros id' pn' Hne. rewrite Hb2, pool_store_ne by congruence. done.
Qed.
Lemma page_call_ok {A} (op : M (Handler L) A) h s pn a h' : is_Some (pool_frame id pn (rf_pool s)) →
  op h = Some (a, h') → frame_page_num (frame_ h') = pn → buffer_pool_id_ h' = id →
  ∃ s', page_call op h s = Some (a, s') ∧ page_now pn (frame_ h') s s' ∧ same_handler s s' ∧ rf_log s' = log_ h'.
Proof.
  intros Hf Hop Hpn Hid. destruct (close_page_ok s h' pn Hf Hpn Hid) as (s' & E & Hs'). exists s'. split; [|done].
  unfold page_call. rewrite (bind_liftO _ _ _ _ Hop). cbn [fst snd]. by rewrite (bind_eq _ _ _ _ _ E).
Qed.
End rel.

(** ** What the page operations leave alone *)

Section same.
Context {L : Type} `{LogHandler L}.
Variable uninit : Z.
Implicit Types (h : Handler L).

Lemma insert_record_same src h r h' : insert_record src h = Some (r, h') → same_page h h'.
Proof. intros E. apply (page_step_same uninit (OpInsert src) h (mkPageRes r.1 (slot_num <$> r.2) None)). unfold page_step. rewrite bind_get. by rewrite (bind_eq _ _ _ _ _ E). Qed.
Lemma delete_record_same rid h rc h' : page_num rid = frame_page_num (frame_ h) → delete_record uninit rid h = Some (rc, h') → same_page h h'.
Proof. intros Hp E. apply (page_step_same uninit (OpDelete (slot_num rid)) h (mkPageRes rc None None)). unfold page_step. rewrite bind_get, <-Hp. destruct rid. by rewrite (bind_eq _ _ _ _ _ E). Qed.
Lemma update_record_same rid src h rc h' : page_num rid = frame_page_num (frame_ h) → update_record rid src h = Some (rc, h') → same_page h h'.
Proof. intros Hp E. apply (page_step_same uninit (OpUpdate (slot_num rid) src) h (mkPageRes rc None None)). unfold page_step. rewrite bind_get, <-Hp. destruct rid. by rewrite (bind_eq _ _ _ _ _ E). Qed.
Lemma write_slot_layout i src h u h' : write_slot i src h = Some (u, h') → same_page h h' ∧ header (frame_ h') = header (frame_ h).
Proof. unfold write_slot. intros Hw. minv Hw. by injection Hw as <- <-. Qed.
Lemma recover_insert_same rid src h rc h' : recover_insert_record src rid h = Some (rc, h') → same_page h h' ∧ layout (frame_ h') = layout (frame_ h).
Proof.
  unfold recover_insert_record. intros E. minv E. destruct (_ <=? _); [by injection E as <- <-|]. minv E. injection E as <- <-.
  apply write_slot_layout in E2 as [[Hn Hb] Hh]. destruct (negb a); minv E1; injection E1 as _ <-; unfold same_page, layout; cbn in *; by rewrite Hn, Hb, Hh.
Qed.
Lemma init_empty_page_same sf rs tf h rc h' : init_empty_page sf rs tf h = Some (rc, h') → same_page h h'.
Proof.
  unfold init_empty_page. intros E. minv E. unfold init_page_layout in E0. minv E0. injection E0 as <- <-. unfold log_init_new_page in E. minv E. apply log_append_same in E as [E E']. by split.
Qed.
End same.

(** a page without room has a record in every slot *)
Lemma full_page_slot f slot : page_ok f → record_num (header f) = record_capacity (header f) → 0 ≤ slot < record_capacity (header f) → is_Some (contents f !! slot).
Proof.
  intros Hok Hfull Hs. destruct (contents f !! slot) eqn:E; [eauto|]. pose proof (first_free_None f Hok Hfull) as Hn. unfold first_free in Hn.
  assert (Hin : slot ∈ filter (λ i, contents f !! i = None) (seqZ 0 (record_capacity (header f)))) by (apply list_elem_of_filter; split; [done|apply elem_of_seqZ; lia]).
  destruct (filter _ _); [by apply elem_of_nil in Hin|done].
Qed.
Lemma contents_range f slot r : page_ok f → contents f !! slot = Some r → 0 ≤ slot < record_capacity (header f) ∧ len r = record_real_size (header f).
Proof.
  intros Hok. rewrite lookup_contents. intros Hr. split; [by apply record_at_Some_range in Hr|]. unfold record_at in Hr. case_decide; [|done]. destruct (bit _ _); [|done]. by apply mem_read_len in Hr.
Qed.

Lemma record_num_le f : page_ok f → record_num (header f) ≤ record_capacity (header f).
Proof. intros Hok. rewrite (po_count _ Hok). apply popcount_range, (po_bitmap _ Hok). Qed.

(** ** The operations keep the relation *)

Section ops.
Context {B L : Type} `{PL : RecordPoolLaws B} `{LT : LogTotal L}.
Variables (begin : gset PageNum → PageNum) (uninit id rs : Z) (hd : PageHeader).
Hypothesis begin_elem : ∀ X, X ≠ ∅ → begin X ∈ X.
Hypothesis rs_pos : 1 ≤ rs.
Hypothesis hd_fresh : fix_record_capacity (fresh_header rs 0) = Some hd.
Hypothesis cap_pos : 0 < record_capacity hd.
Implicit Types (s : RFile B L).
Abbreviation cap := (record_capacity hd).
Abbreviation rel := (file_rel id hd).
Abbreviation spec := (file_spec cap (Z.to_nat rs)).

Lemma hd_facts : record_num hd = 0 ∧ record_real_size hd = rs.
Proof. destruct (fresh_header_spec rs 0) as (hd' & E & H1 & H2 & _); [done|lia|]. rewrite hd_fresh in E. injection E as ->. done. Qed.
Lemma layout_facts f : layout f = hd → record_capacity (header f) = cap ∧ record_real_size (header f) = rs.
Proof. intros E. pose proof hd_facts as [_ Hrs]. rewrite <-E in *. done. Qed.

(** a page of the file, opened for writing *)
Lemma opened_ok s a pn f : rel s a → 1 ≤ pn → pool_frame id pn (rf_pool s) = Some f →
  handler_ok (mkHandler f READ_WRITE id (record_real_size (header f)) (rf_log s)) ∧ record_capacity (header f) = cap ∧
  record_real_size (header f) = rs ∧ frame_page_num f = pn ∧ pn ∈ fs_pages a.
Proof.
  intros Hrel H1 Hf. destruct (fl_page _ _ _ _ Hrel pn f H1 Hf) as [Hok Hlay]. destruct (layout_facts f Hlay) as [? ?].
  split; [by constructor; [|done|exact (fl_log _ _ _ _ Hrel)|]|]. split; [done|]. split; [done|]. split; [by apply (pool_frame_num _ _ _ _ Hf)|].
  apply (fl_pages _ _ _ _ Hrel). eauto.
Qed.
Lemma rows_page s a pn f slot : rel s a → 1 ≤ pn → pool_frame id pn (rf_pool s) = Some f → fs_rows a !! mkRID pn slot = contents f !! slot.
Proof. intros Hrel H1 Hf. rewrite (fl_rows _ _ _ _ Hrel). by apply (row_at_eq id _ f (mkRID pn slot)). Qed.

(** an operation on a page that does not exist *)
Lemma no_page s a pn mode : rel s a → 1 ≤ pn → pool_frame id pn (rf_pool s) = None →
  ∃ rc s', open_page pn mode s = Some ((rc, None), s') ∧ rc ≠ SUCCESS ∧ rel s' a.
Proof.
  intros Hrel H1 Hf. destruct (open_page_none id s pn mode (fl_open _ _ _ _ Hrel) H1 Hf) as (rc & b' & E & Hrc & Hb). exists rc, (set_rf_pool b' s). split; [done|]. split; [done|].
  apply (rel_frames id hd s); [done|done|by repeat split|exact (fl_log _ _ _ _ Hrel)].
Qed.
(** one call of the page handler on a page of the file, then its end: [h'] is what it leaves *)
Lemma page_scope {A} (op : M (Handler L) A) s a pn f v h' : rel s a → 1 ≤ pn → pool_frame id pn (rf_pool s) = Some f →
  op (mkHandler f READ_WRITE id (record_real_size (header f)) (rf_log s)) = Some (v, h') →
  same_page (mkHandler f READ_WRITE id (record_real_size (header f)) (rf_log s)) h' →
  ∃ s1 s', open_page pn READ_WRITE s = Some ((SUCCESS, Some (mkHandler f READ_WRITE id (record_real_size (header f)) (rf_log s))), s1) ∧
    storage_format_ s1 = ROW_FORMAT ∧
    page_call op (mkHandler f READ_WRITE id (record_real_size (header f)) (rf_log s)) s1 = Some (v, s') ∧
    page_now id pn (frame_ h') s s' ∧ same_handler s s' ∧ rf_log s' = log_ h'.
Proof.
  intros Hrel H1 Hf Hop [Hn Hid]. cbn in Hn, Hid. destruct (open_page_ok id s pn READ_WRITE f (fl_open _ _ _ _ Hrel) Hf) as (b & E & Hb).
  rewrite (pool_frame_num _ _ _ _ Hf) in Hn. destruct (page_call_ok id op (mkHandler f READ_WRITE id (record_real_size (header f)) (rf_log s)) (set_rf_pool b s) pn v h') as (s' & E' & [Hp Ho] & Hsh & Hlog); [cbn; rewrite Hb; eauto|done..|].
  exists (set_rf_pool b s), s'. split; [done|]. split; [exact (fl_format _ _ _ _ Hrel)|]. split; [done|]. split; [|done]. split; [done|].
  intros id' pn' Hne. rewrite Ho by done. apply Hb.
Qed.
(** the relation after a call that leaves [free_pages_] alone, or adds the page to it *)
Lemma rel_page s s' a pn f h' rows : rel s a → 1 ≤ pn → pool_frame id pn (rf_pool s) = Some f →
  page_now id pn (frame_ h') s s' → disk_buffer_pool_ s' = disk_buffer_pool_ s → storage_format_ s' = storage_format_ s → rf_log s' = log_ h' → log_ready (log_ h') →
  page_ok (frame_ h') → layout (frame_ h') = layout f →
  (∀ slot, rows !! mkRID pn slot = contents (frame_ h') !! slot) → (∀ rid, page_num rid ≠ pn → rows !! rid = fs_rows a !! rid) →
  (free_pages_ s' = {[pn]} ∪ free_pages_ s ∨ free_pages_ s' = free_pages_ s ∧ (size (contents f) ≤ size (contents (frame_ h')))%nat) →
  rel s' (with_rows a rows).
Proof.
  intros Hrel H1 Hf Hnow E1 E2 Elog Hlog Hok Hlay Hr1 Hr2 Hfree.
  destruct (opened_ok s a pn f Hrel H1 Hf) as (Hh & Hcap & _ & _ & Hin). destruct (fl_page _ _ _ _ Hrel pn f H1 Hf) as [Hokf Hlayf].
  unfold with_rows. replace (fs_pages a) with ({[pn]} ∪ fs_pages a) by (apply leibniz_equiv; clear - Hin; set_solver).
  apply (rel_change id hd s s' a pn (frame_ h')); try done.
  - by rewrite Elog.
  - by rewrite Hlay.
  - destruct Hfree as [->|[-> _]]; [done|]. clear. set_solver.
  - destruct Hfree as [->|[-> _]]; [|done]. clear. set_solver.
  - intros Hnf Hnl. destruct Hfree as [Hfree|[Hfree Hsz]]; rewrite Hfree in Hnf; [clear - Hnf; set_solver|].
    pose proof (fl_room _ _ _ _ Hrel pn f H1 Hf Hnf Hnl) as Hfull. rewrite (record_num_size _ Hokf) in Hfull.
    pose proof (record_num_size _ Hok) as Hsz'. pose proof (layout_cap _ _ Hlay) as [Hc _].
    pose proof (record_num_le _ Hok). rewrite Hc in *. destruct (layout_facts f Hlayf). lia.
Qed.

(** a page that is written back as it was *)
Lemma page_now_same s s' pn f : pool_frame id pn (rf_pool s) = Some f → page_now id pn f s s' → same_frames (rf_pool s) (rf_pool s').
Proof. intros Hf [Hn Ho] id' pn'. destruct (decide ((id', pn') = (id, pn))) as [[= -> ->]|]; [congruence|]. by apply Ho. Qed.

(** a call that leaves the page as it was *)
Lemma page_scope_same {A} (op : M (Handler L) A) s a pn f v : rel s a → 1 ≤ pn → pool_frame id pn (rf_pool s) = Some f →
  let h := mkHandler f READ_WRITE id (record_real_size (header f)) (rf_log s) in
  op h = Some (v, h) →
  ∃ s1 s', open_page pn READ_WRITE s = Some ((SUCCESS, Some h), s1) ∧ storage_format_ s1 = ROW_FORMAT ∧
    page_call op h s1 = Some (v, s') ∧ rel s' a.
Proof.
  intros Hrel H1 Hf h Hop. destruct (page_scope op s a pn f v h Hrel H1 Hf Hop) as (s1 & s2 & E1 & Hfm & E2 & Hnow & Hsh & Hlg); [done|].
  exists s1, s2. split; [done|]. split; [done|]. split; [done|]. apply (rel_frames id hd s); [done|by apply (page_now_same s s2 pn f)|done|].
  rewrite Hlg. exact (fl_log _ _ _ _ Hrel).
Qed.

(** *** Reading, deleting, visiting, recovering *)

Lemma get_copy_ok s a pn f slot : rel s a → 1 ≤ pn → pool_frame id pn (rf_pool s) = Some f → 0 ≤ slot →
  let h := mkHandler f READ_WRITE id (record_real_size (header f)) (rf_log s) in
  ∃ rc, get_copy (mkRID pn slot) h = Some ((rc, contents f !! slot), h) ∧ (rc = SUCCESS ↔ is_Some (contents f !! slot)).
Proof.
  intros Hrel H1 Hf Hsl h. destruct (opened_ok s a pn f Hrel H1 Hf) as ([Hok _ _ _] & Hcap & Hrs & _). cbn in Hok.
  unfold get_copy. rewrite (bind_eq _ _ _ _ _ (get_record_ok h (mkRID pn slot) Hok Hsl)). cbn [slot_num frame_ h].
  destruct (contents f !! slot) as [r|] eqn:Er.
  - destruct (contents_range _ _ _ Hok Er) as [Hr Hl]. rewrite decide_False by lia. cbn [fst snd]. unfold copy_data. rewrite Hl.
    destruct (_ =? 0) eqn:E; zbool; [lia|]. exists SUCCESS. split; [done|]. split; eauto.
  - case_decide; cbn [fst snd]; eexists; (split; [done|]); (split; [done|by intros []]).
Qed.

Lemma delete_step s a rid : rel s a → fop_ok cap rs (FDelete rid) →
  ∃ r s' a', file_step begin uninit id rs (FDelete rid) s = Some (r, s') ∧ rel s' a' ∧ spec (FDelete rid) a r a'.
Proof.
  intros Hrel [H1 Hs]. destruct rid as [pn slot]; cbn [page_num slot_num] in *. cbn [file_step]. unfold file_delete_record. cbn [page_num]. rewrite bind_assoc.
  destruct (pool_frame id pn (rf_pool s)) as [f|] eqn:Hf.
  2:{ destruct (no_page s a pn READ_WRITE Hrel H1 Hf) as (rc & s' & E & Hrc & Hrel'). rewrite (bind_eq _ _ _ _ _ E). do 3 eexists. split; [done|]. split; [exact Hrel'|].
      apply (SNone _ _ _ (mkRID pn slot)); [by left|rewrite (fl_rows _ _ _ _ Hrel); by apply row_at_none|done]. }
  destruct (opened_ok s a pn f Hrel H1 Hf) as (Hh & Hcap & Hrs & Hnum & Hin). pose proof (rows_page s a pn f slot Hrel H1 Hf) as Hrow.
  pose proof (delete_record_ok uninit _ (mkRID pn slot) Hh) as Hdel. cbn [frame_ slot_num] in Hdel. specialize (Hdel ltac:(by rewrite Hcap)).
  destruct (contents f !! slot) as [r|] eqn:Er.
  - destruct Hdel as (h' & E & [Hok' _ Hlog' _] & Hc' & Hhd & _).
    destruct (page_scope _ s a pn f SUCCESS h' Hrel H1 Hf E) as (s1 & s2 & E1 & _ & E2 & Hnow & (D1 & D2 & D3 & D4) & Hlg); [by eapply delete_record_same; [|exact E]; cbn|].
    rewrite (bind_eq _ _ _ _ _ E1). cbn [snd]. rewrite bind_assoc, (bind_eq _ _ _ _ _ E2). change (OB_SUCC SUCCESS) with true. cbv iota. unfold free_insert. rewrite bind_assoc, bind_modify, bind_ret.
    do 3 eexists. split; [done|]. split; [|by apply (SDelete _ _ _ _ r)].
    apply (rel_page s _ a pn f h'); try done; cbn [free_pages_ set_free].
    + unfold layout. rewrite Hhd. done.
    + intros sl. rewrite Hc'. destruct (decide (sl = slot)) as [->|Hne]; [by rewrite !lookup_delete_eq|]. rewrite !lookup_delete_ne by congruence. by apply (rows_page s).
    + intros rid' Hne. apply lookup_delete_ne. intros <-. done.
    + left. by rewrite D2.
  - destruct (page_scope_same _ s a pn f RECORD_NOT_EXIST Hrel H1 Hf Hdel) as (s1 & s2 & E1 & _ & E2 & Hrel').
    rewrite (bind_eq _ _ _ _ _ E1). cbn [snd]. rewrite bind_assoc, (bind_eq _ _ _ _ _ E2). change (OB_SUCC RECORD_NOT_EXIST) with false. cbv iota. rewrite bind_assoc, !bind_ret.
    do 3 eexists. split; [done|]. split; [exact Hrel'|]. apply (SNone _ _ _ (mkRID pn slot)); [by left|done|done].
Qed.

Lemma get_step s a rid : rel s a → fop_ok cap rs (FGet rid) →
  ∃ r s' a', file_step begin uninit id rs (FGet rid) s = Some (r, s') ∧ rel s' a' ∧ spec (FGet rid) a r a'.
Proof.
  intros Hrel [H1 Hs]. destruct rid as [pn slot]; cbn [page_num slot_num] in *. cbn [file_step]. unfold file_get_record. cbn [page_num]. rewrite bind_assoc.
  destruct (pool_frame id pn (rf_pool s)) as [f|] eqn:Hf.
  2:{ destruct (no_page s a pn READ_WRITE Hrel H1 Hf) as (rc & s' & E & Hrc & Hrel'). rewrite (bind_eq _ _ _ _ _ E). do 3 eexists. split; [done|]. split; [exact Hrel'|].
      apply (SNone _ _ _ (mkRID pn slot)); [by right; left|rewrite (fl_rows _ _ _ _ Hrel); by apply row_at_none|done]. }
  destruct (opened_ok s a pn f Hrel H1 Hf) as ([Hok _ _ _] & Hcap & Hrs & Hnum & Hin). cbn in Hok. pose proof (rows_page s a pn f slot Hrel H1 Hf) as Hrow.
  destruct (get_copy_ok s a pn f slot Hrel H1 Hf Hs) as (rc & E & Hrc).
  destruct (page_scope_same _ s a pn f _ Hrel H1 Hf E) as (s1 & s2 & E1 & Hfm & E2 & Hrel').
  rewrite (bind_eq _ _ _ _ _ E1). cbn [snd]. rewrite bind_assoc, bind_get, Hfm. change (row_only ROW_FORMAT) with (λ op : M (Handler L) (RC * option (list Z)), op). cbv beta.
  rewrite (bind_eq _ _ _ _ _ E2). do 3 eexists. split; [done|]. split; [exact Hrel'|]. cbn [fst snd].
  destruct (contents f !! slot) as [r|] eqn:Er.
  - rewrite (proj2 Hrc) by eauto. apply SGet; [done|]. destruct (contents_range _ _ _ Hok Er) as [_ Hl]. unfold len in Hl. lia.
  - apply (SNone _ _ _ (mkRID pn slot)); [by right; left|done|]. intros Hs'. by apply Hrc in Hs' as [].
Qed.

(** the map after the slot of an open page was written *)
Lemma rows_insert s a pn f slot rec (m : gmap Z (list Z)) : rel s a → 1 ≤ pn → pool_frame id pn (rf_pool s) = Some f → m = <[slot := rec]> (contents f) →
  (∀ sl, <[mkRID pn slot := rec]> (fs_rows a) !! mkRID pn sl = m !! sl) ∧
  (∀ rid, page_num rid ≠ pn → <[mkRID pn slot := rec]> (fs_rows a) !! rid = fs_rows a !! rid).
Proof.
  intros Hrel H1 Hf ->. split.
  - intros sl. destruct (decide (sl = slot)) as [->|Hne]; [by rewrite !lookup_insert_eq|]. rewrite !lookup_insert_ne by congruence. by apply (rows_page s).
  - intros rid Hne. apply lookup_insert_ne. intros <-. done.
Qed.
Lemma size_insert_le (m : gmap Z (list Z)) i r : (size m ≤ size (<[i := r]> m))%nat.
Proof. destruct (m !! i) eqn:E; [rewrite map_size_insert_Some by eauto; done|rewrite map_size_insert_None by done; lia]. Qed.

Lemma visit_step s a rid updater : rel s a → fop_ok cap rs (FVisit rid updater) →
  ∃ r s' a', file_step begin uninit id rs (FVisit rid updater) s = Some (r, s') ∧ rel s' a' ∧ spec (FVisit rid updater) a r a'.
Proof.
  intros Hrel (H1 & Hs & Hup). destruct rid as [pn slot]; cbn [page_num slot_num] in *. cbn [file_step]. unfold file_visit_record. cbn [page_num]. rewrite bind_assoc.
  destruct (pool_frame id pn (rf_pool s)) as [f|] eqn:Hf.
  2:{ destruct (no_page s a pn READ_WRITE Hrel H1 Hf) as (rc & s' & E & Hrc & Hrel'). rewrite (bind_eq _ _ _ _ _ E). do 3 eexists. split; [done|]. split; [exact Hrel'|].
      apply (SNone _ _ _ (mkRID pn slot)); [by do 2 right; eexists|rewrite (fl_rows _ _ _ _ Hrel); by apply row_at_none|done]. }
  destruct (opened_ok s a pn f Hrel H1 Hf) as (Hh & Hcap & Hrs & Hnum & Hin). pose proof (rows_page s a pn f slot Hrel H1 Hf) as Hrow. pose proof (ho_page _ Hh) as Hok. cbn in Hok.
  destruct (get_copy_ok s a pn f slot Hrel H1 Hf Hs) as (rc & E & Hrc).
  set (h := mkHandler f READ_WRITE id (record_real_size (header f)) (rf_log s)) in *.
  set (op := (let* r := get_copy (mkRID pn slot) in match r.2 with None => ret r.1 | Some record => let u := updater record in if u.1 then update_record (mkRID pn slot) u.2 else ret r.1 end)).
  assert (Hop : ∃ rc' h', op h = Some (rc', h') ∧ same_page h h' ∧
    match contents f !! slot with
    | None => h' = h ∧ rc' ≠ SUCCESS
    | Some r => rc' = SUCCESS ∧ if (updater r).1 then handler_ok h' ∧ layout (frame_ h') = layout f ∧ contents (frame_ h') = <[slot := take (Z.to_nat rs) (updater r).2]> (contents f) else h' = h
    end).
  { unfold op. rewrite (bind_eq _ _ _ _ _ E). cbn [snd fst]. destruct (contents f !! slot) as [r|] eqn:Er.
    - destruct (contents_range _ _ _ Hok Er) as [Hr Hl]. rewrite (proj2 Hrc) by eauto. cbv zeta. destruct (updater r).1 eqn:Eu; [|by exists SUCCESS, h].
      pose proof (update_record_ok h (mkRID pn slot) (updater r).2 Hh) as Hu. cbn [slot_num frame_ h] in Hu. specialize (Hu Hs ltac:(rewrite Hrs; apply Hup; lia)).
      rewrite decide_False in Hu by lia. rewrite Er in Hu. destruct Hu as (rec & h' & Eup & Hok' & Hrec & Hc & Hhd & _). rewrite Hrs in Hrec. rewrite (mem_read_take _ _ _ Hrec) in Hc.
      exists SUCCESS, h'. split; [exact Eup|]. split; [eapply update_record_same; [exact uninit| |exact Eup]; done|]. split; [done|]. split; [done|]. split; [unfold layout; by rewrite Hhd|done].
    - exists rc, h. split; [done|]. split; [done|]. split; [done|]. intros Hsu. by apply Hrc in Hsu as []. }
  destruct Hop as (rc' & h' & Eop & Hsame & Hcase).
  destruct (page_scope op s a pn f rc' h' Hrel H1 Hf Eop Hsame) as (s1 & s2 & E1 & Hfm & E2 & Hnow & Hsh & Hlg).
  rewrite (bind_eq _ _ _ _ _ E1). cbn [snd]. rewrite bind_assoc, bind_get, Hfm. change (row_only ROW_FORMAT) with (λ op : M (Handler L) RC, op). cbv beta. fold op h.
  rewrite (bind_eq _ _ _ _ _ E2).
  assert (Hkeep : h' = h → rel s2 a) by (intros ->; apply (rel_frames id hd s); [done|by apply (page_now_same s s2 pn f)|done|rewrite Hlg; exact (fl_log _ _ _ _ Hrel)]).
  destruct (contents f !! slot) as [r|] eqn:Er.
  2:{ destruct Hcase as [-> Hne]. do 3 eexists. split; [done|]. split; [by apply Hkeep|]. apply (SNone _ _ _ (mkRID pn slot)); [by do 2 right; eexists|done|done]. }
  destruct Hcase as [-> Hcase]. do 3 eexists. split; [done|]. split; [|by apply SVisit]. destruct (updater r).1; [|subst h'; destruct a; by apply Hkeep].
  destruct Hcase as (Hok' & Hlay & Hc). destruct (rows_insert s a pn f slot _ _ Hrel H1 Hf Hc) as [Hr1 Hr2]. destruct Hsh as (D1 & D2 & D3 & D4).
  apply (rel_page s s2 a pn f h'); try done; [by apply Hok'|by apply Hok'|]. right. split; [done|]. rewrite Hc. apply size_insert_le.
Qed.

Lemma recover_step s a src rid : rel s a → fop_ok cap rs (FRecover src rid) →
  ∃ r s' a', file_step begin uninit id rs (FRecover src rid) s = Some (r, s') ∧ rel s' a' ∧ spec (FRecover src rid) a r a'.
Proof.
  intros Hrel (H1 & Hs & Hsrc). destruct rid as [pn slot]; cbn [page_num slot_num] in *. cbn [file_step]. unfold file_recover_insert_record. cbn [page_num].
  pose proof (fl_open _ _ _ _ Hrel) as Hopen. rewrite bind_assoc, (bind_eq _ _ _ _ _ (the_pool_eq id s Hopen)), bind_assoc, bind_get, bind_assoc.
  destruct (pool_frame id pn (rf_pool s)) as [f|] eqn:Hf.
  2:{ destruct (handler_init_none id pn READ_WRITE (rf_log s) _ H1 Hf) as (rc & b' & E & Hrc & Hb).
      erewrite bind_eq; [|apply on_pool_eq; unfold handler_recover_init; by rewrite (bind_eq _ _ _ _ _ E)]. do 3 eexists. split; [done|].
      split; [by apply (rel_frames id hd s); [..|exact (fl_log _ _ _ _ Hrel)]|]. apply (SNoSlot _ _ _ (mkRID pn slot)); [|done]. intros [[_ [f Hf']]%(fl_pages _ _ _ _ Hrel) _]. cbn in Hf'. congruence. }
  destruct (opened_ok s a pn f Hrel H1 Hf) as (Hh & Hcap & Hrs & Hnum & Hin).
  destruct (handler_recover_init_ok id pn (rf_log s) _ f Hf) as (b' & E & Hb). rewrite (bind_eq _ _ _ _ _ (on_pool_eq _ s _ _ E)). cbn [snd].
  set (h := mkHandler f READ_WRITE id (record_real_size (header f)) (rf_log s)) in *.
  rewrite (fl_format _ _ _ _ Hrel). change (row_or ROW_FORMAT) with (λ (op : M (Handler L) RC) (r : RC), op). cbv beta.
  pose proof (recover_insert_record_ok h src (mkRID pn slot) (ho_page _ Hh) Hs) as Hrec. cbn [slot_num frame_ h] in Hrec. specialize (Hrec ltac:(lia)).
  assert (Hsc : ∀ v h', recover_insert_record src (mkRID pn slot) h = Some (v, h') →
    ∃ s', page_call (recover_insert_record src (mkRID pn slot)) h (set_rf_pool b' s) = Some (v, s') ∧ page_now id pn (frame_ h') s s' ∧ same_handler s s' ∧ rf_log s' = log_ h' ∧ layout (frame_ h') = layout f).
  { intros v h' Ev. destruct (recover_insert_same _ _ _ _ _ Ev) as [[Hn Hi] Hlay]. destruct (page_call_ok id (recover_insert_record src (mkRID pn slot)) h (set_rf_pool b' s) pn v h') as (s' & E' & [Hp Ho] & Hsh & Hlg); [cbn; rewrite Hb; eauto|done|by rewrite Hn|done|].
    exists s'. split; [done|]. split; [|done]. split; [done|]. intros id' pn' Hne. rewrite Ho by done. apply Hb. }
  case_decide as Hc; rewrite Hcap in Hc.
  - destruct (Hsc _ _ Hrec) as (s' & E' & Hnow & Hsh & Hlg & _). rewrite (bind_eq _ _ _ _ _ E'). do 3 eexists. split; [done|]. split; [|apply (SNoSlot _ _ _ (mkRID pn slot)); [cbn; intros [_ ?]; lia|done]].
    apply (rel_frames id hd s); [done|by apply (page_now_same s s' pn f)|done|]. rewrite Hlg. exact (fl_log _ _ _ _ Hrel).
  - destruct Hrec as (rec & h' & Erec & Hok' & Hrd & Hcont & _ & _ & Hlog'). destruct (Hsc _ _ Erec) as (s' & E' & Hnow & (D1 & D2 & D3 & D4) & Hlg & Hlay). rewrite (bind_eq _ _ _ _ _ E').
    rewrite Hrs in Hrd. rewrite (mem_read_take _ _ _ Hrd) in Hcont. destruct (rows_insert s a pn f slot _ _ Hrel H1 Hf Hcont) as [Hr1 Hr2].
    do 3 eexists. split; [done|]. split; [|apply SRecover; cbn; [done|lia]].
    apply (rel_page s s' a pn f h'); try done; [by rewrite Hlog'; exact (fl_log _ _ _ _ Hrel)|]. right. split; [done|]. rewrite Hcont. apply size_insert_le.
Qed.

(** *** Inserting *)

(** no free page left: every page is full *)
Lemma no_free_full s a : rel s a → free_pages_ s = ∅ → all_full cap a.
Proof.
  intros Hrel Hfree pn slot Hin Hlost Hs. apply (fl_pages _ _ _ _ Hrel) in Hin as [H1 [f Hf]]. destruct (fl_page _ _ _ _ Hrel pn f H1 Hf) as [Hok Hlay].
  destruct (layout_facts f Hlay) as [Hcap _]. rewrite (rows_page s a pn f slot Hrel H1 Hf). apply full_page_slot; [done| |by rewrite Hcap].
  rewrite Hcap. apply (fl_room _ _ _ _ Hrel pn f); [done..| |done]. rewrite Hfree. apply not_elem_of_empty.
Qed.

(** the search for a page with room ends: a page with room, open, or no free page *)
Lemma find_free_ok n : ∀ s a, rel s a → (size (free_pages_ s) ≤ n)%nat →
  ∃ r s1, find_free_page begin n s = Some (r, s1) ∧ rel s1 a ∧
    ((r = (SUCCESS, None) ∧ free_pages_ s1 = ∅) ∨
     ∃ pn f, 1 ≤ pn ∧ pool_frame id pn (rf_pool s1) = Some f ∧ pn ∈ free_pages_ s1 ∧ record_num (header f) ≠ record_capacity (header f) ∧
       r = (SUCCESS, Some (mkHandler f READ_WRITE id (record_real_size (header f)) (rf_log s1)))).
Proof.
  induction n as [|n IH]; intros s a Hrel Hsz; cbn [find_free_page]; rewrite bind_get.
  { assert (free_pages_ s = ∅) as Hfe by (apply leibniz_equiv, size_empty_iff; lia). rewrite decide_True by done. do 2 eexists. split; [done|]. split; [done|]. by left. }
  case_decide as Hfe; [do 2 eexists; split; [done|]; split; [done|]; by left|]. cbv zeta.
  set (pn := begin (free_pages_ s)). assert (Hin : pn ∈ free_pages_ s) by by apply begin_elem.
  destruct (proj1 (fl_pages _ _ _ _ Hrel pn) (fl_free _ _ _ _ Hrel pn Hin)) as [H1 [f Hf]].
  destruct (opened_ok s a pn f Hrel H1 Hf) as (Hh & Hcap & Hrs & Hnum & _).
  destruct (open_page_ok id s pn READ_WRITE f (fl_open _ _ _ _ Hrel) Hf) as (b' & E & Hb). rewrite (bind_eq _ _ _ _ _ E). cbn [snd].
  pose proof (record_num_le f (ho_page _ Hh)) as Hle.
  assert (Hrel1 : rel (set_rf_pool b' s) a) by (apply (rel_frames id hd s); [done|done|done|exact (fl_log _ _ _ _ Hrel)]).
  unfold is_full. cbn [frame_]. destruct (_ <=? _) eqn:Ef; cbn [negb]; zbool.
  2:{ do 2 eexists. split; [done|]. split; [done|]. right. exists pn, f. split; [done|]. split; [cbn; by rewrite Hb|]. split; [done|]. split; [lia|done]. }
  set (h := mkHandler f READ_WRITE id (record_real_size (header f)) (rf_log s)).
  destruct (close_page_ok id (set_rf_pool b' s) h pn) as (s2 & E2 & Hnow & (D1 & D2 & D3 & D4) & Hlg); [cbn; rewrite Hb; eauto|done|done|].
  rewrite (bind_eq _ _ _ _ _ E2), bind_modify.
  assert (Hsf : same_frames (rf_pool (set_rf_pool b' s)) (rf_pool s2)) by (apply (page_now_same _ s2 pn f); [cbn; by rewrite Hb|done]).
  assert (Hlg2 : log_ready (rf_log s2)) by (rewrite Hlg; exact (fl_log _ _ _ _ Hrel)).
  apply IH.
  - apply (rel_drop id hd (set_rf_pool b' s) _ a pn f); try done; [cbn; by rewrite Hb|lia|cbn; by rewrite D2].
  - cbn. rewrite D2. cbn. fold pn. rewrite size_difference by (apply singleton_subseteq_l; exact Hin). rewrite size_singleton. lia.
Qed.

(** only page [pn] differs *)
Definition others_same (pn : PageNum) s s' : Prop :=
  ∀ id' pn', (id', pn') ≠ (id, pn) → pool_frame id' pn' (rf_pool s') = pool_frame id' pn' (rf_pool s).

(** a new page: laid out, empty and open, or an error that leaves at most a lost page *)
Lemma new_page_ok s a : rel s a →
  ∃ r s1, new_page rs s = Some (r, s1) ∧
    ((∃ rc P, r = (rc, None) ∧ rc ≠ SUCCESS ∧ P ## fs_pages a ∧ rel s1 (mkFileSpec (P ∪ fs_pages a) (P ∪ fs_lost a) (fs_rows a))) ∨
     ∃ pn h, r = (SUCCESS, Some h) ∧ handler_ok h ∧ 1 ≤ pn ∧ (pn ∉ fs_pages a) ∧ frame_page_num (frame_ h) = pn ∧ buffer_pool_id_ h = id ∧
       contents (frame_ h) = ∅ ∧ layout (frame_ h) = hd ∧ is_Some (pool_frame id pn (rf_pool s1)) ∧ others_same pn s s1 ∧
       disk_buffer_pool_ s1 = Some id ∧ storage_format_ s1 = ROW_FORMAT ∧ free_pages_ s1 = {[pn]} ∪ free_pages_ s).
Proof.
  intros Hrel. pose proof (fl_open _ _ _ _ Hrel) as Hopen. pose proof (fl_log _ _ _ _ Hrel) as Hlog. unfold new_page.
  rewrite (bind_eq _ _ _ _ _ (the_pool_eq id s Hopen)).
  destruct (allocate_page_ok (rf_pool s) id) as (rc & pn & b1 & E & [(-> & H1 & Hnone & (f & Hf & Hdata) & Hoth)|[Hrc Hsame]]); rewrite (bind_eq _ _ _ _ _ (on_pool_eq _ s _ _ E)); cbn [fst snd].
  2:{ rewrite bool_decide_eq_false_2 by done. do 2 eexists. split; [done|]. left. exists rc, ∅. split; [done|]. split; [done|]. split; [set_solver|]. rewrite !(left_id_L ∅ (∪)).
      destruct a. by apply (rel_frames id hd s). }
  rewrite bool_decide_eq_true_2 by done. cbn [negb]. assert (Hnew : pn ∉ fs_pages a) by (intros [_ [g Hg]]%(fl_pages _ _ _ _ Hrel); congruence).
  destruct (open_page_ok id (set_rf_pool b1 s) pn READ_WRITE f Hopen Hf) as (b2 & E2 & Hb2). rewrite (bind_eq _ _ _ _ _ E2). cbn [snd rf_pool set_rf_pool] in *. rewrite bind_get.
  set (h0 := mkHandler f READ_WRITE id (record_real_size (header f)) (rf_log s)).
  destruct (init_empty_page_ok h0 ROW_FORMAT rs (table_meta_ s)) as (rc & h & E3 & Hok & Hempty & _ & Hn & _ & Hfix); [done|done|by destruct (table_meta_ s)|done|].
  replace (column_lens ROW_FORMAT (table_meta_ s)) with (@nil Z) in Hfix by (by destruct (table_meta_ s)). change (len (@nil Z)) with 0 in Hfix. rewrite hd_fresh in Hfix. injection Hfix as Hhd.
  assert (Hid : buffer_pool_id_ h = id) by (by apply (init_empty_page_same _ _ _ _ _ _ E3)).
  cbn [storage_format_ table_meta_ set_rf_pool]. rewrite (fl_format _ _ _ _ Hrel), (bind_liftO _ _ _ _ E3). cbn [fst snd].
  assert (Hf2 : pool_frame id pn b2 = Some f) by by rewrite Hb2.
  destruct (unpin_page_ok _ _ _ _ Hf2) as (b3 & E4 & Hb3). rewrite (bind_eq _ _ _ _ _ (on_pool_eq _ (set_rf_pool b2 (set_rf_pool b1 s)) _ _ E4)).
  assert (Hsf : same_frames b1 b3) by by apply (same_frames_trans b1 b2).
  assert (Hnum : frame_page_num (frame_ h) = pn) by (rewrite Hn; by apply (pool_frame_num _ _ _ _ Hf)).
  assert (Hlay : layout (frame_ h) = hd) by (unfold layout; rewrite <-Hhd; destruct hd_facts as [Hz _]; destruct hd; cbn in *; by subst).
  set (s1 := set_rf_pool b3 _). assert (Hs1 : is_Some (pool_frame id pn (rf_pool s1))) by (cbn; rewrite Hsf; eauto).
  assert (Ho1 : others_same pn s s1) by (intros id' pn' Hne; cbn; rewrite Hsf; by apply Hoth).
  destruct (OB_FAIL rc) eqn:Erc.
  - destruct (close_page_ok id s1 h pn Hs1 Hnum Hid) as (s2 & E5 & [Hp Ho] & (D1 & D2 & D3 & D4) & Hlg). rewrite (bind_eq _ _ _ _ _ E5).
    do 2 eexists. split; [done|]. left. exists rc, {[pn]}. split; [done|]. split; [by intros ->|]. split; [set_solver|].
    apply (rel_change id hd s s2 a pn (frame_ h)); try done.
    + split; [done|]. intros id' pn' Hne. rewrite Ho by done. by apply Ho1.
    + rewrite Hlg. apply Hok.
    + apply Hok.
    + intros slot. rewrite Hempty, lookup_empty, (fl_rows _ _ _ _ Hrel). by apply row_at_none.
    + rewrite D2. cbn. clear. set_solver.
    + by rewrite D2.
    + clear. set_solver.
    + intros _ Hnl. exfalso. clear - Hnl. set_solver.
  - unfold free_insert. rewrite bind_modify. do 2 eexists. split; [done|]. right. exists pn, h. assert (rc = SUCCESS) as -> by by destruct rc.
    repeat (split; [done|]). split; [exact (fl_format _ _ _ _ Hrel)|done].
Qed.

(** the insertion into the open page [h] of state [s1], whose other pages are those of [s] *)
Lemma insert_open s s1 a h pn src : rel s a → handler_ok h → 1 ≤ pn → frame_page_num (frame_ h) = pn → buffer_pool_id_ h = id → layout (frame_ h) = hd →
  is_Some (pool_frame id pn (rf_pool s1)) → others_same pn s s1 → disk_buffer_pool_ s1 = Some id → storage_format_ s1 = ROW_FORMAT →
  free_pages_ s1 = {[pn]} ∪ free_pages_ s → (∀ slot, fs_rows a !! mkRID pn slot = contents (frame_ h) !! slot) →
  record_num (header (frame_ h)) ≠ cap → rs ≤ len src →
  ∃ slot s', page_call (row_only (storage_format_ s1) (insert_record src)) h s1 = Some ((SUCCESS, Some (mkRID pn slot)), s') ∧
    rel s' (mkFileSpec ({[pn]} ∪ fs_pages a) (fs_lost a) (<[mkRID pn slot := take (Z.to_nat rs) src]> (fs_rows a))) ∧
    0 ≤ slot < cap ∧ fs_rows a !! mkRID pn slot = None ∧ ∀ j, 0 ≤ j < slot → is_Some (fs_rows a !! mkRID pn j).
Proof.
  intros Hrel Hok H1 Hnum Hid Hlay Hsome Hoth D1 D2 D3 Hrows Hroom Hsrc. destruct (layout_facts _ Hlay) as [Hcap Hrs].
  destruct (insert_record_ok h src Hok) as (slot & rec & h' & E & Hok' & Hslot & Hrd & Hno & Hbefore & Hc & Hhd & _); [lia|by rewrite Hcap|].
  rewrite Hrs in Hrd. rewrite (mem_read_take _ _ _ Hrd), Hnum in *. destruct (insert_record_same uninit _ _ _ _ E) as [Hn Hi].
  destruct (page_call_ok id _ h s1 pn _ _ Hsome E) as (s' & E' & [Hp Ho] & (F1 & F2 & F3 & F4) & Hlg); [by rewrite Hn|by rewrite Hi|].
  exists slot, s'. rewrite D2. split; [exact E'|]. split; [|split; [lia|split; [by rewrite Hrows|intros j Hj; rewrite Hrows; by apply Hbefore]]].
  apply (rel_change id hd s s' a pn (frame_ h')); try done; rewrite ?F1, ?F2, ?F3, ?D1, ?D2, ?D3.
  - split; [done|]. intros id' pn' Hne. rewrite Ho by done. by apply Hoth.
  - symmetry. apply (fl_open _ _ _ _ Hrel).
  - symmetry. apply (fl_format _ _ _ _ Hrel).
  - rewrite Hlg. apply Hok'.
  - apply Hok'.
  - unfold layout in *. rewrite Hhd. done.
  - intros sl. rewrite Hc. destruct (decide (sl = slot)) as [->|Hne]; [by rewrite !lookup_insert_eq|]. rewrite !lookup_insert_ne by congruence. apply Hrows.
  - intros rid Hne. apply lookup_insert_ne. intros <-. done.
  - clear. set_solver.
  - clear. set_solver.
  - intros Hn'. clear - Hn'. set_solver.
Qed.

Lemma insert_step s a src : rel s a → fop_ok cap rs (FInsert src) →
  ∃ r s' a', file_step begin uninit id rs (FInsert src) s = Some (r, s') ∧ rel s' a' ∧ spec (FInsert src) a r a'.
Proof.
  intros Hrel Hsrc. cbn [fop_ok] in Hsrc. cbn [file_step]. unfold file_insert_record. rewrite bind_assoc, bind_get, bind_assoc.
  destruct (find_free_ok (size (free_pages_ s)) s a Hrel) as (r & s1 & E & Hrel1 & [[-> Hfree]|(pn & f & H1 & Hf & Hin & Hroom & ->)]); [done| |]; rewrite (bind_eq _ _ _ _ _ E); cbn [fst snd]; change (OB_FAIL SUCCESS) with false; cbv iota; rewrite bind_assoc.
  - pose proof (no_free_full s1 a Hrel1 Hfree) as Hfull.
    destruct (new_page_ok s1 a Hrel1) as (r2 & s2 & E2 & [(rc & P & -> & Hrc & HP & Hrel2)|(pn & h & -> & Hok & H1 & Hnew & Hnum & Hid & Hempty & Hlay & Hsome & Hoth & D1 & D2 & D3)]); rewrite (bind_eq _ _ _ _ _ E2); cbn [snd].
    { do 3 eexists. split; [done|]. split; [exact Hrel2|]. by apply SInsertFail. }
    assert (Hrows : ∀ slot, fs_rows a !! mkRID pn slot = contents (frame_ h) !! slot).
    { intros slot. rewrite Hempty, lookup_empty, (fl_rows _ _ _ _ Hrel). apply row_at_none. cbn. apply eq_None_not_Some. intros Hs. apply Hnew, (fl_pages _ _ _ _ Hrel). done. }
    destruct (insert_open s1 s2 a h pn src) as (slot & s' & E3 & Hrel3 & Hslot & Hno & Hbefore); try done.
    { rewrite (record_num_size _ (ho_page _ Hok)), Hempty, map_size_empty. lia. }
    rewrite bind_assoc, bind_get, (bind_eq _ _ _ _ _ E3). do 3 eexists. split; [done|]. cbn [fst snd]. split; [exact Hrel3|].
    assert (slot = 0) as ->; [|by apply SInsertNew]. destruct (decide (slot = 0)); [done|]. destruct (Hbefore 0) as [r Hr]; [lia|]. by rewrite Hrows, Hempty, lookup_empty in Hr.
  - rewrite bind_ret. cbn [snd]. destruct (opened_ok s1 a pn f Hrel1 H1 Hf) as (Hh & Hcap & Hrs & Hnum & Hinp). destruct (fl_page _ _ _ _ Hrel1 pn f H1 Hf) as [_ Hlay].
    destruct (insert_open s1 s1 a _ pn src Hrel1 Hh) as (slot & s' & E3 & Hrel3 & Hslot & Hno & Hbefore); try done.
    { apply (fl_open _ _ _ _ Hrel1). } { apply (fl_format _ _ _ _ Hrel1). } { apply leibniz_equiv. clear - Hin. set_solver. }
    { intros slot. by apply (rows_page s1). } { cbn. by rewrite <-Hcap. }
    rewrite bind_assoc, bind_get, (bind_eq _ _ _ _ _ E3). do 3 eexists. split; [done|]. cbn [fst snd].
    replace ({[pn]} ∪ fs_pages a) with (fs_pages a) in Hrel3 by (apply leibniz_equiv; clear - Hinp; set_solver). split; [exact Hrel3|]. by apply SInsert.
Qed.

(** *** Opening *)

(** the next page of the iterator, on a sorted list of pages *)
Lemma peek_spec (it : BufferPoolIterator) b : (∀ p, p ∈ pool_pages id b → p < it_size it) →
  match bp_iter_peek id it b with
  | None => ∀ p, p ∈ pool_pages id b → p ≤ current_page_num_ it
  | Some q => q ∈ pool_pages id b ∧ current_page_num_ it < q ∧ ∀ p, p ∈ pool_pages id b → current_page_num_ it < p → q ≤ p
  end.
Proof.
  intros Hsz. unfold bp_iter_peek. pose proof (pool_pages_sorted b id) as Hs.
  assert (Hf : StronglySorted Z.lt (filter (λ p, current_page_num_ it < p < it_size it) (pool_pages id b))) by by apply filter_sorted.
  assert (Hin : ∀ p, p ∈ filter (λ p, current_page_num_ it < p < it_size it) (pool_pages id b) ↔ current_page_num_ it < p ∧ p ∈ pool_pages id b).
  { intros p. rewrite list_elem_of_filter. split; [tauto|]. intros [? Hp]. pose proof (Hsz p Hp). auto. }
  destruct (filter _ _) as [|q l]; cbn [head].
  - intros p Hp. destruct (decide (p ≤ current_page_num_ it)); [done|]. assert (Hp' : p ∈ []) by (apply Hin; split; [lia|done]). by apply elem_of_nil in Hp'.
  - apply StronglySorted_inv in Hf as [_ Hl]. destruct (proj1 (Hin q)) as [H1 H2]; [by left|]. split; [done|]. split; [done|].
    intros p Hp Hc. destruct (proj1 (elem_of_cons _ _ _) (proj2 (Hin p) (conj Hc Hp))) as [->|Hpl]; [done|]. rewrite Forall_forall in Hl. specialize (Hl _ Hpl). lia.
Qed.

(** what [init_free_pages] leaves: the pages with room that were not visited yet join [free_pages_] *)
Definition has_room s (p : PageNum) : Prop := ∃ f, pool_frame id p (rf_pool s) = Some f ∧ record_num (header f) < record_capacity (header f).
Lemma init_loop_ok n : ∀ s it, disk_buffer_pool_ s = Some id →
  (∀ p, p ∈ pool_pages id (rf_pool s) → p < it_size it) → it_size it - current_page_num_ it ≤ Z.of_nat n + 1 →
  ∃ s', init_free_pages_loop n it s = Some (SUCCESS, s') ∧ same_frames (rf_pool s) (rf_pool s') ∧ rf_log s' = rf_log s ∧
    disk_buffer_pool_ s' = Some id ∧ storage_format_ s' = storage_format_ s ∧
    ∀ p, p ∈ free_pages_ s' ↔ p ∈ free_pages_ s ∨ 1 ≤ p ∧ current_page_num_ it < p ∧ has_room s p.
Proof.
  induction n as [|n IH]; intros s it Hopen Hsz Hn; cbn [init_free_pages_loop]; rewrite (bind_eq _ _ _ _ _ (the_pool_eq id s Hopen)), bind_get;
    pose proof (peek_spec it _ Hsz) as Hpk; destruct (bp_iter_peek id it (rf_pool s)) as [pn|].
  1:{ destruct Hpk as (Hin & Hlt & _). specialize (Hsz _ Hin). lia. }
  1,3: exists s; split; [done|]; do 4 (split; [done|]); intros p; split; [by left|]; intros [?|(H1 & Hc & f & Hf & _)]; [done|]; exfalso;
    assert (Hin : p ∈ pool_pages id (rf_pool s)) by (apply pool_pages_spec; eauto); specialize (Hpk _ Hin); lia.
  destruct Hpk as (Hin & Hlt & Hmin). pose proof (proj1 (pool_pages_spec _ _ _) Hin) as [H1 [f Hf]].
  destruct (open_page_ok id s pn READ_ONLY f Hopen Hf) as (b & E & Hb). rewrite (bind_eq _ _ _ _ _ E). cbn [snd].
  set (h := mkHandler f READ_ONLY id (record_real_size (header f)) (rf_log s)).
  set (s1 := if negb (is_full h) then set_free ({[pn]} ∪ free_pages_ s) (set_rf_pool b s) else set_rf_pool b s).
  assert (E1 : (if negb (is_full h) then free_insert pn else ret tt) (set_rf_pool b s) = Some (tt, s1)) by (unfold s1; by destruct (is_full h)).
  rewrite (bind_eq _ _ _ _ _ E1).
  assert (Hp1 : rf_pool s1 = b) by (unfold s1; by destruct (is_full h)). assert (Hl1 : rf_log s1 = rf_log s) by (unfold s1; by destruct (is_full h)).
  assert (Hd1 : disk_buffer_pool_ s1 = Some id) by (unfold s1; by destruct (is_full h)). assert (Hf1 : storage_format_ s1 = storage_format_ s) by (unfold s1; by destruct (is_full h)).
  destruct (close_page_ok id s1 h pn) as (s2 & E2 & Hnow & (D1 & D2 & D3 & D4) & Hlg); [rewrite Hp1, Hb; eauto|by apply (pool_frame_num _ _ _ _ Hf)|done|].
  rewrite (bind_eq _ _ _ _ _ E2).
  assert (Hsf : same_frames (rf_pool s) (rf_pool s2)).
  { apply (same_frames_trans _ b); [done|]. rewrite <-Hp1. apply (page_now_same s1 s2 pn f); [by rewrite Hp1, Hb|done]. }
  destruct (IH s2 (bp_iter_to it pn)) as (s3 & E3 & Hsf3 & Hlg3 & Hd3 & Hf3 & Hfree3); [by rewrite D1| |cbn; lia|].
  { intros p. rewrite (same_pages id _ _ Hsf). apply Hsz. }
  exists s3. split; [done|]. split; [by apply (same_frames_trans _ (rf_pool s2))|]. split; [by rewrite Hlg3, Hlg|]. split; [done|]. split; [by rewrite Hf3, D3|].
  intros p. rewrite Hfree3, D2. unfold has_room. rewrite (Hsf id p). cbn [bp_iter_to current_page_num_].
  assert (Hfr : p ∈ free_pages_ s1 ↔ p ∈ free_pages_ s ∨ p = pn ∧ record_num (header f) < record_capacity (header f)).
  { unfold s1, is_full. cbn [frame_ h]. destruct (_ <=? _) eqn:Ef; zbool; cbn [negb free_pages_ set_free set_rf_pool]; [split; [by left|intros [?|[_ ?]]; [done|lia]]|].
    rewrite elem_of_union, elem_of_singleton. split; [intros [?|?]; [by right|by left]|intros [?|[? _]]; [by right|by left]]. }
  rewrite Hfr. split.
  - intros [[?|[-> ?]]|(? & ? & ?)]; [by left|right; split; [done|split; [done|eauto]]|right; split; [done|split; [lia|done]]].
  - intros [?|(Hp & Hc & g & Hg & Hr)]; [by left; left|]. assert (Hpin : p ∈ pool_pages id (rf_pool s)) by (apply pool_pages_spec; eauto). specialize (Hmin p Hpin Hc).
    destruct (decide (p = pn)) as [->|]; [left; right; simplify_eq; done|]. right. split; [done|]. split; [lia|]. eauto.
Qed.

Lemma reopen_step s a : rel s a →
  ∃ r s' a', file_step begin uninit id rs FReopen s = Some (r, s') ∧ rel s' a' ∧ spec FReopen a r a'.
Proof.
  intros Hrel. cbn [file_step]. rewrite bind_get. unfold file_close. rewrite bind_modify, (fl_open _ _ _ _ Hrel). unfold file_init. rewrite bind_assoc, bind_get. cbn [disk_buffer_pool_].
  set (s0 := mkRFile (rf_pool s) (rf_log s) (Some id) ∅ (storage_format_ s) (table_meta_ s)).
  rewrite bind_assoc. unfold put at 1. erewrite bind_eq; [|done]. cbn [rf_pool rf_log free_pages_ storage_format_]. fold s0. unfold init_free_pages. rewrite !bind_assoc, (bind_eq _ _ _ _ _ (the_pool_eq id s0 eq_refl)), bind_assoc, bind_get.
  destruct (init_loop_ok (Z.to_nat (pool_page_count id (rf_pool s0))) s0 (bp_iter_init id 1 (rf_pool s0))) as (s' & E & Hsf & Hlg & Hd & Hf & Hfree); [done|intros p; apply pool_pages_count|cbn; lia|].
  rewrite (bind_eq _ _ _ _ _ E). do 3 eexists. split; [done|]. split; [|apply SReopen]. destruct Hrel as [Ho Hfm Hl Hp Hr Hpg Hfr Hrm]. split; cbn [fs_pages fs_lost fs_rows]; try done.
  - by rewrite Hf.
  - by rewrite Hlg.
  - intros pn. rewrite (Hsf id pn). apply Hp.
  - intros rid. rewrite (row_at_frames _ _ _ _ Hsf). apply Hr.
  - intros pn f H1 Hg. rewrite (Hsf id pn) in Hg. by apply (Hpg pn).
  - intros p [[]%elem_of_empty|(H1 & _ & f & Hg & _)]%Hfree. apply Hp. cbn in Hg. eauto.
  - intros pn f H1 Hg Hnf _. rewrite (Hsf id pn) in Hg. destruct (Hpg pn f H1 Hg) as [Hok Hlay]. destruct (layout_facts f Hlay) as [<- _].
    pose proof (record_num_le f Hok). destruct (decide (record_num (header f) = record_capacity (header f))); [done|]. exfalso. apply Hnf, Hfree. right. split; [done|]. split; [cbn; lia|]. exists f. split; [done|lia].
Qed.

(** ** The run *)

Lemma file_step_ok op s a : rel s a → fop_ok cap rs op →
  ∃ r s' a', file_step begin uninit id rs op s = Some (r, s') ∧ rel s' a' ∧ spec op a r a'.
Proof.
  intros Hrel Hop. destruct op; [by apply insert_step|by apply delete_step|by apply get_step|by apply visit_step|by apply recover_step|by apply reopen_step].
Qed.
Lemma file_run_ok ops : ∀ s a, rel s a → Forall (fop_ok cap rs) ops →
  ∃ res s' a', file_run begin uninit id rs ops s = Some (res, s') ∧ rel s' a' ∧ file_specs cap (Z.to_nat rs) ops a res a'.
Proof.
  induction ops as [|op ops IH]; intros s a Hrel Hops; [do 3 eexists; split; [done|]; split; [done|constructor]|].
  apply Forall_cons in Hops as [Hop Hops]. destruct (file_step_ok op s a Hrel Hop) as (r & s1 & a1 & E & Hrel1 & Hspec).
  destruct (IH s1 a1 Hrel1 Hops) as (res & s2 & a2 & E2 & Hrel2 & Hspecs). exists (r :: res), s2, a2. cbn [file_run].
  rewrite (bind_eq _ _ _ _ _ E), (bind_eq _ _ _ _ _ E2). split; [done|]. split; [done|]. by econstructor.
Qed.
End ops.
