(* ===== verification/RecordScan.v ===== *)
(** * RecordScan: the scan over a record file (storage/record/record_manager.cpp)

    [RecordFileScanner] walks the allocated pages with a [BufferPoolIterator] and the
    records of the page it has open with a [RecordPageIterator]. The open page is not
    copied: every access goes through [pool_frame] and [pool_store], so a scan sees what
    the pages hold at that moment. The scanner keeps the page iterator when it is closed
    and opened again; the iterator then points to a handler that was deleted, and reading
    through it is undefined. *)
From S2P Require Import Prelude Types Bitmap Encoding LogHandler RecordPageHandler RecordPool RecordFile.

(** an open page of the page handler: its pool, number, mode and [RecordLogHandler::record_size_] *)
Record OpenPage := mkOpenPage { op_pool : Z; op_page : PageNum; op_mode : ReadWriteMode; op_size : Z }.
(** a [RecordPageHandler] object: [ob_id] is its address *)
Record PageObject := mkPageObject { ob_id : nat; ob_format : Z; ob_page : option OpenPage }.
(** [RecordPageIterator]: the handler it points to, the page whose bitmap it reads, the next slot *)
Record PageIterator := mkPageIterator { pi_handler : option nat; pi_page : PageNum; next_slot_num_ : SlotNum }.
Definition Row : Type := RID * list Z.

(** [RecordFileScanner], with the pool and the log it works on; [sc_fresh] is the next free address *)
Record RScan (B L : Type) := mkRScan {
  sc_pool : B;
  sc_log : L;
  sc_fresh : nat;
  sc_disk_buffer_pool_ : option Z;
  trx_ : option (Row → ReadWriteMode → RC);      (** [trx_->visit_record] on the table *)
  sc_rw_mode_ : ReadWriteMode;
  bp_iterator_ : BufferPoolIterator;
  condition_filter_ : option (Row → bool);
  record_page_handler_ : option PageObject;
  record_page_iterator_ : PageIterator;
  next_record_ : Row;
}.
Arguments mkRScan {B L} _ _ _ _ _ _ _ _ _ _ _.
Arguments sc_pool {B L} _.
Arguments sc_log {B L} _.
Arguments sc_fresh {B L} _.
Arguments sc_disk_buffer_pool_ {B L} _.
Arguments trx_ {B L} _.
Arguments sc_rw_mode_ {B L} _.
Arguments bp_iterator_ {B L} _.
Arguments condition_filter_ {B L} _.
Arguments record_page_handler_ {B L} _.
Arguments record_page_iterator_ {B L} _.
Arguments next_record_ {B L} _.

Section scanner.
Context {B L : Type} `{RecordPool B} `{LogHandler L}.
Implicit Types (s : RScan B L).

(** a scanner as its constructor leaves it *)
Definition fresh_scanner (b : B) (l : L) : RScan B L :=
  mkRScan b l 0 None None READ_WRITE (mkPoolIter 0 (-1)) None None (mkPageIterator None BP_INVALID_PAGE_NUM 0) (mkRID 0 0, []).

Definition set_sc_pool (b : B) s : RScan B L :=
  mkRScan b (sc_log s) (sc_fresh s) (sc_disk_buffer_pool_ s) (trx_ s) (sc_rw_mode_ s) (bp_iterator_ s) (condition_filter_ s) (record_page_handler_ s) (record_page_iterator_ s) (next_record_ s).
Definition set_sc_log (l : L) s : RScan B L :=
  mkRScan (sc_pool s) l (sc_fresh s) (sc_disk_buffer_pool_ s) (trx_ s) (sc_rw_mode_ s) (bp_iterator_ s) (condition_filter_ s) (record_page_handler_ s) (record_page_iterator_ s) (next_record_ s).
Definition set_bp_iterator (it : BufferPoolIterator) s : RScan B L :=
  mkRScan (sc_pool s) (sc_log s) (sc_fresh s) (sc_disk_buffer_pool_ s) (trx_ s) (sc_rw_mode_ s) it (condition_filter_ s) (record_page_handler_ s) (record_page_iterator_ s) (next_record_ s).
Definition set_handler (h : option PageObject) s : RScan B L :=
  mkRScan (sc_pool s) (sc_log s) (sc_fresh s) (sc_disk_buffer_pool_ s) (trx_ s) (sc_rw_mode_ s) (bp_iterator_ s) (condition_filter_ s) h (record_page_iterator_ s) (next_record_ s).
Definition set_page_iterator (it : PageIterator) s : RScan B L :=
  mkRScan (sc_pool s) (sc_log s) (sc_fresh s) (sc_disk_buffer_pool_ s) (trx_ s) (sc_rw_mode_ s) (bp_iterator_ s) (condition_filter_ s) (record_page_handler_ s) it (next_record_ s).
Definition set_next_record (r : Row) s : RScan B L :=
  mkRScan (sc_pool s) (sc_log s) (sc_fresh s) (sc_disk_buffer_pool_ s) (trx_ s) (sc_rw_mode_ s) (bp_iterator_ s) (condition_filter_ s) (record_page_handler_ s) (record_page_iterator_ s) r.

Definition sc_on_pool {A} (op : M B A) : M (RScan B L) A := λ s,
  match op (sc_pool s) with Some (a, b) => Some (a, set_sc_pool b s) | None => None end.
(** [*record_page_handler_]: undefined when it is null *)
Definition the_object : M (RScan B L) PageObject := let* s := get in liftO (record_page_handler_ s).
(** the handler object as it stands: the open page is the frame in the pool *)
Definition object_handler (ob : PageObject) s : option (Handler L) :=
  p ← ob_page ob; f ← pool_frame (op_pool p) (op_page p) (sc_pool s);
  Some (mkHandler f (op_mode p) (op_pool p) (op_size p) (sc_log s)).

(** [record_page_handler_->cleanup()] *)
Definition sc_cleanup : M (RScan B L) unit :=
  let* ob := the_object in
  match ob_page ob with
  | None => ret tt
  | Some p => sc_on_pool (unpin_page (op_pool p) (op_page p)) ;;; modify (set_handler (Some (mkPageObject (ob_id ob) (ob_format ob) None)))
  end.
(** [record_page_handler_->init] of page [page_num], on a handler that was cleaned up *)
Definition sc_init (page_num : PageNum) : M (RScan B L) RC :=
  let* s := get in
  let* id := liftO (sc_disk_buffer_pool_ s) in
  let* ob := the_object in
  let* r := sc_on_pool (handler_init id page_num (sc_rw_mode_ s) (sc_log s)) in
  (match r.2 with
   | Some h => modify (set_handler (Some (mkPageObject (ob_id ob) (ob_format ob) (Some (mkOpenPage id page_num (rw_mode_ h) (log_record_size_ h))))))
   | None => ret tt
   end) ;;;
  ret r.1.

(** [RecordFileScanner::close_scan] *)
Definition close_scan : M (RScan B L) RC :=
  modify (λ s, mkRScan (sc_pool s) (sc_log s) (sc_fresh s) None (trx_ s) (sc_rw_mode_ s) (bp_iterator_ s) None (record_page_handler_ s) (record_page_iterator_ s) (next_record_ s)) ;;;
  let* s := get in
  (match record_page_handler_ s with
   | Some _ => sc_cleanup ;;; modify (set_handler None)
   | None => ret tt
   end) ;;;
  ret SUCCESS.

(** [RecordFileScanner::open_scan]; [table_format] is the format of the table, none without a table *)
Definition open_scan (table_format : option Z) (id : Z) (trx : option (Row → ReadWriteMode → RC)) (mode : ReadWriteMode) (filter : option (Row → bool)) : M (RScan B L) RC :=
  close_scan ;;;
  modify (λ s, mkRScan (sc_pool s) (sc_log s) (S (sc_fresh s)) (Some id) trx mode (bp_iter_init id 1 (sc_pool s)) filter
    (Some (mkPageObject (sc_fresh s) (if bool_decide (table_format = None ∨ table_format = Some ROW_FORMAT) then ROW_FORMAT else PAX_FORMAT) None))
    (record_page_iterator_ s) (next_record_ s)) ;;;
  ret SUCCESS.

(** [record_page_iterator_.init(record_page_handler_)] *)
Definition sc_iter_init : M (RScan B L) unit :=
  let* ob := the_object in
  let* s := get in
  let* h := liftO (object_handler ob s) in
  let* cursor := liftO (iter_init 0 h) in
  modify (set_page_iterator (mkPageIterator (Some (ob_id ob)) (frame_page_num (frame_ h)) cursor)).
(** [record_page_iterator_.next(next_record_)]: undefined when its handler is not the scanner's any
    more; the handler of the PAX format ends the process *)
Definition sc_iter_next : M (RScan B L) RC :=
  let* ob := the_object in
  let* s := get in
  assertM (bool_decide (pi_handler (record_page_iterator_ s) = Some (ob_id ob))) ;;;
  assertM (ob_format ob =? ROW_FORMAT) ;;;
  let* h := liftO (object_handler ob s) in
  let* r := liftO (iter_next (next_slot_num_ (record_page_iterator_ s)) (next_record_ s) h) in
  modify (set_page_iterator (mkPageIterator (pi_handler (record_page_iterator_ s)) (pi_page (record_page_iterator_ s)) r.2)) ;;;
  modify (set_next_record r.1.2) ;;;
  ret r.1.1.

(** [next_record_.rid().slot_num = -1] *)
Definition no_record : M (RScan B L) unit := modify (λ s, set_next_record (mkRID (page_num (next_record_ s).1) (-1), (next_record_ s).2) s).

(** [RecordFileScanner::fetch_next_record_in_page], with at most [n] rounds *)
Fixpoint fetch_next_record_in_page (n : nat) : M (RScan B L) RC :=
  let* s := get in
  if iter_has_next (next_slot_num_ (record_page_iterator_ s)) then
    match n with
    | O => abort
    | S n =>
        let* rc := sc_iter_next in
        if negb (bool_decide (rc = SUCCESS)) then ret rc
        else
          let* s := get in
          if match condition_filter_ s with Some filter => negb (filter (next_record_ s)) | None => false end
          then fetch_next_record_in_page n
          else
            match trx_ s with
            | None => ret rc
            | Some visit_record =>
                let rc := visit_record (next_record_ s) (sc_rw_mode_ s) in
                if bool_decide (rc = RECORD_INVISIBLE) then fetch_next_record_in_page n else ret rc
            end
    end
  else no_record ;;; ret RECORD_EOF.

(** the rounds the page on which the scan stands can take *)
Definition page_rounds s : nat :=
  match record_page_handler_ s ≫= (λ ob, object_handler ob s) with
  | Some h => Z.to_nat (record_capacity (header (frame_ h)))
  | None => O
  end.

(** the second loop of [RecordFileScanner::fetch_next_record]: the pages not yet visited *)
Fixpoint fetch_pages (n : nat) : M (RScan B L) RC :=
  let* s := get in
  let* id := liftO (sc_disk_buffer_pool_ s) in
  match bp_iter_peek id (bp_iterator_ s) (sc_pool s) with
  | None => no_record ;;; sc_cleanup ;;; ret RECORD_EOF
  | Some page_num =>
      match n with
      | O => abort
      | S n =>
          modify (set_bp_iterator (bp_iter_to (bp_iterator_ s) page_num)) ;;;
          sc_cleanup ;;;
          let* rc := sc_init page_num in
          if OB_FAIL rc then ret rc
          else
            sc_iter_init ;;;
            let* s := get in
            let* rc := fetch_next_record_in_page (page_rounds s) in
            if bool_decide (rc = RECORD_EOF) then fetch_pages n else ret rc
      end
  end.

(** [RecordFileScanner::fetch_next_record] *)
Definition fetch_next_record : M (RScan B L) RC :=
  let* s := get in
  let* rc := (match pi_handler (record_page_iterator_ s) with
              | Some _ => fetch_next_record_in_page (page_rounds s)
              | None => ret RECORD_EOF
              end) in
  if negb (bool_decide (rc = RECORD_EOF)) then ret rc
  else fetch_pages (Z.to_nat (it_size (bp_iterator_ s))).

(** [RecordFileScanner::next]; the record is the output parameter *)
Definition scan_next : M (RScan B L) (RC * option Row) :=
  let* rc := fetch_next_record in
  if OB_FAIL rc then ret (rc, None)
  else let* s := get in ret (SUCCESS, Some (next_record_ s)).

(** [RecordFileScanner::update_current], with a record that is not the one in the page *)
Definition update_current (record : Row) : M (RScan B L) RC :=
  let* s := get in
  if negb (bool_decide (record.1 = (next_record_ s).1)) then ret INVALID_ARGUMENT
  else
    let* ob := the_object in
    let* h := liftO (object_handler ob s) in
    let* o := liftO (row_or (ob_format ob) (update_record record.1 record.2) UNIMPLEMENTED h) in
    modify (λ s, set_sc_log (log_ o.2) (set_sc_pool (pool_store (buffer_pool_id_ o.2) (frame_ o.2) (sc_pool s)) s)) ;;;
    ret o.1.

(** a client's loop: [next] until it fails; the records, and the code it stopped with *)
Fixpoint scan_loop (n : nat) : M (RScan B L) (list Row * RC) :=
  match n with
  | O => abort
  | S n =>
      let* r := scan_next in
      match r.2 with
      | None => ret ([], r.1)
      | Some row => let* o := scan_loop n in ret (row :: o.1, o.2)
      end
  end.
Definition scan_file (n : nat) (table_format : option Z) (id : Z) (trx : option (Row → ReadWriteMode → RC)) (mode : ReadWriteMode) (filter : option (Row → bool)) : M (RScan B L) (list Row * RC) :=
  open_scan table_format id trx mode filter ;;;
  let* o := scan_loop n in
  close_scan ;;;
  ret o.
End scanner.
