(* ===== verification/RecordScanSpec.v ===== *)
(** * RecordScanSpec: a scan meets every record of the file once, in order

    [file_rows] lists the records of a file by page and slot. [scan_spec] is what a scan
    answers on such a list, given its filter and its transaction; [scan_file_ok] shows that
    the scanner answers exactly that. *)
From stdpp Require Import sorting.
From S2P Require Import Prelude Types Bitmap Encoding LogHandler RecordPageHandler RecordPageSpec RecordPool RecordFile RecordFileSpec RecordScan.

(** ** The abstract scan *)

(** the records of a page from slot [start] on *)
Definition page_rows (pn : PageNum) (f : RecordFrame) (start : SlotNum) : list Row :=
  omap (λ i, r ← contents f !! i; Some (mkRID pn i, r)) (seqZ start (record_capacity (header f) - start)).
(** the records of the pages [pns] *)
Definition pages_rows {B} `{RecordPool B} (id : Z) (b : B) (pns : list PageNum) : list Row :=
  concat (map (λ pn, match pool_frame id pn b with Some f => page_rows pn f 0 | None => [] end) pns).
Definition file_rows {B} `{RecordPool B} (id : Z) (b : B) : list Row := pages_rows id b (pool_pages id b).

Section spec.
Variables (filter : option (Row → bool)) (trx : option (Row → ReadWriteMode → RC)) (mode : ReadWriteMode).

Definition passes (r : Row) : bool := match filter with Some f => f r | None => true end.
Definition visit (r : Row) : RC := match trx with Some v => v r mode | None => SUCCESS end.
(** the next record that passes the filter and is visible: the code, the record, the records not yet seen *)
Fixpoint fetch_spec (rows : list Row) : option (RC * Row * list Row) :=
  match rows with
  | [] => None
  | r :: rows =>
      if negb (passes r) then fetch_spec rows
      else if bool_decide (visit r = RECORD_INVISIBLE) then fetch_spec rows
      else Some (visit r, r, rows)
  end.
(** the whole scan: it stops at the first error of the transaction *)
Fixpoint scan_spec (rows : list Row) : list Row * RC :=
  match rows with
  | [] => ([], RECORD_EOF)
  | r :: rows =>
      if negb (passes r) then scan_spec rows
      else match visit r with
           | RECORD_INVISIBLE => scan_spec rows
           | SUCCESS => let o := scan_spec rows in (r :: o.1, o.2)
           | rc => ([], rc)
           end
  end.

Lemma fetch_spec_app l1 l2 : fetch_spec (l1 ++ l2) = match fetch_spec l1 with
  | None => fetch_spec l2 | Some (rc, r, rest) => Some (rc, r, rest ++ l2) end.
Proof. induction l1 as [|r l1 IH]; cbn; [done|]. destruct (negb _); [done|]. by case_bool_decide. Qed.
Lemma fetch_spec_length l rc r rest : fetch_spec l = Some (rc, r, rest) → (length rest < length l)%nat.
Proof. induction l as [|x l IH]; cbn; [done|]. destruct (negb _); [intros E%IH; lia|]. case_bool_decide; [intros E%IH; lia|]. intros [= _ _ ->]. lia. Qed.
Lemma scan_spec_fetch l : scan_spec l = match fetch_spec l with
  | None => ([], RECORD_EOF)
  | Some (rc, r, rest) => if bool_decide (rc = SUCCESS) then let o := scan_spec rest in (r :: o.1, o.2) else ([], rc)
  end.
Proof. induction l as [|x l IH]; cbn; [done|]. destruct (negb _); [done|]. destruct (visit x); done. Qed.
Lemma fetch_spec_subset l rc r rest : fetch_spec l = Some (rc, r, rest) → rest ⊆ l.
Proof.
  induction l as [|x l IH]; cbn; [done|]. destruct (negb _); [intros E%IH; set_solver|]. case_bool_decide; [intros E%IH; set_solver|].
  intros [= _ _ ->]. set_solver.
Qed.
Lemma fetch_spec_code l rc r rest : fetch_spec l = Some (rc, r, rest) → rc = visit r ∧ r ∈ l.
Proof. induction l as [|x l IH]; cbn; [done|]. destruct (negb _); [intros [? ?]%IH; split; [done|by right]|]. case_bool_decide; [intros [? ?]%IH; split; [done|by right]|]. intros [= <- <- _]. split; [done|by left]. Qed.
End spec.

(** the records from [start] on: none when the search for a set bit fails, else the one it finds *)
Lemma page_rows_from pn f start c : page_ok f → 0 ≤ start ≤ record_capacity (header f) →
  first_bit (bitmap f) true start (record_capacity (header f)) c →
  (c = -1 ∧ page_rows pn f start = []) ∨
  (start ≤ c < record_capacity (header f) ∧ ∃ r, contents f !! c = Some r ∧ page_rows pn f start = (mkRID pn c, r) :: page_rows pn f (c + 1)).
Proof.
  intros Hok Hs Hfb. set (cap := record_capacity (header f)) in *.
  assert (Hskip : ∀ upto, start ≤ upto ≤ cap → (∀ j, start ≤ j < upto → bit (bitmap f) j = false) → page_rows pn f start = page_rows pn f upto).
  { intros upto Hu Hall. unfold page_rows. fold cap. replace (cap - start) with ((upto - start) + (cap - upto)) by lia.
    rewrite seqZ_app, omap_app by lia. replace (start + (upto - start)) with upto by lia.
    assert (omap (λ i, r ← contents f !! i; Some (mkRID pn i, r)) (seqZ start (upto - start)) = []) as ->; [|done].
    apply elem_of_nil_inv. intros row (j & Hj%elem_of_seqZ & Hr)%list_elem_of_omap. destruct (contents f !! j) eqn:Ej; [|done].
    rewrite lookup_contents in Ej. assert (Hb : bit (bitmap f) j = true) by (apply record_at_is_Some; [done|fold cap; lia|eauto]). rewrite Hall in Hb by lia. done. }
  destruct Hfb as [[-> Hall]|(Hr & Hb & Hall)].
  - left. split; [done|]. rewrite (Hskip cap) by (try apply Hall; lia). unfold page_rows. fold cap. by rewrite Z.sub_diag.
  - right. split; [done|]. destruct (proj2 (record_at_is_Some f c Hok ltac:(fold cap; lia)) Hb) as [r Hrec]. rewrite <-lookup_contents in Hrec. exists r. split; [done|].
    rewrite (Hskip c) by (try apply Hall; lia). unfold page_rows. fold cap. rewrite seqZ_cons by lia. cbn [omap list_omap]. rewrite Hrec. cbn. do 4 f_equal; lia.
Qed.

(** every row of the file, once *)
Lemma elem_of_page_rows pn f start row : page_ok f → 0 ≤ start → row ∈ page_rows pn f start ↔ page_num row.1 = pn ∧ start ≤ slot_num row.1 ∧ contents f !! slot_num row.1 = Some row.2.
Proof.
  intros Hok Hs. unfold page_rows. rewrite list_elem_of_omap. split.
  - intros (j & Hj%elem_of_seqZ & Hr). destruct (contents f !! j) eqn:E; [|done]. injection Hr as <-. done || (split; [done|split; [cbn; lia|done]]).
  - destruct row as [[p i] r]; cbn. intros (-> & Hi & Hc). exists i. split; [|by rewrite Hc]. apply elem_of_seqZ. destruct (contents_range _ _ _ Hok Hc) as [? _]. lia.
Qed.
Lemma elem_of_pages_rows {B} `{RecordPool B} id (b : B) pns row : (∀ p f, p ∈ pns → pool_frame id p b = Some f → page_ok f) →
  row ∈ pages_rows id b pns ↔ ∃ f, page_num row.1 ∈ pns ∧ pool_frame id (page_num row.1) b = Some f ∧ 0 ≤ slot_num row.1 ∧ contents f !! slot_num row.1 = Some row.2.
Proof.
  intros Hok. unfold pages_rows. split.
  - intros Hin. apply list_elem_of_In, in_concat in Hin as (l & Hl & Hr). apply list_elem_of_In in Hl, Hr.
    apply list_elem_of_fmap in Hl as (p & -> & Hp). destruct (pool_frame id p b) as [f|] eqn:Ef; [|by apply elem_of_nil in Hr].
    apply elem_of_page_rows in Hr as (<- & ? & ?); [|by apply (Hok p)|done]. eauto.
  - intros (f & Hp & Ef & H0 & Hc). apply list_elem_of_In, in_concat. exists (page_rows (page_num row.1) f 0). split; apply list_elem_of_In.
    + apply list_elem_of_fmap. exists (page_num row.1). by rewrite Ef.
    + apply elem_of_page_rows; [by apply (Hok (page_num row.1))|done|done].
Qed.

(** ** The scanner *)

Lemma filter_all {A} (P : A → Prop) `{∀ x, Decision (P x)} (l : list A) : (∀ x, x ∈ l → P x) → base.filter P l = l.
Proof. induction l as [|x l IH]; intros Hl; [done|]. rewrite filter_cons, decide_True by (apply Hl; by left). f_equal. apply IH. intros y Hy. apply Hl. by right. Qed.

Section scan.
Context {B L : Type} `{PL : RecordPoolLaws B} `{LH : LogHandler L}.
Variables (id : Z) (b0 : B) (l0 : L) (filter : option (Row → bool)) (trx : option (Row → ReadWriteMode → RC)) (mode : ReadWriteMode).
Hypothesis pages_ok : ∀ pn f, 1 ≤ pn → pool_frame id pn b0 = Some f → page_ok f.
Hypothesis trx_codes : ∀ r, visit trx mode r ≠ RECORD_EOF.
Implicit Types (s : RScan B L).
Abbreviation fetch := (fetch_spec filter trx mode).

(** an open scan: its parameters, the handler of the row format, a page open or not *)
Record scan_open s (ob : PageObject) : Prop := {
  so_pool : sc_disk_buffer_pool_ s = Some id;
  so_log : sc_log s = l0;
  so_trx : trx_ s = trx;
  so_mode : sc_rw_mode_ s = mode;
  so_filter : condition_filter_ s = filter;
  so_object : record_page_handler_ s = Some ob;
  so_format : ob_format ob = ROW_FORMAT;
  so_page : ∀ p, ob_page ob = Some p → op_pool p = id ∧ is_Some (pool_frame id (op_page p) b0);
  so_frames : same_frames b0 (sc_pool s);
  so_size : ∀ p, p ∈ pool_pages id b0 → p < it_size (bp_iterator_ s);
  so_current : 0 ≤ current_page_num_ (bp_iterator_ s);
}.
(** the scan stands on page [pn] before slot [start] *)
Record on_page s (ob : PageObject) (pn : PageNum) (f : RecordFrame) (start : SlotNum) : Prop := {
  op_open : ∃ p, ob_page ob = Some p ∧ op_page p = pn;
  op_frame : pool_frame id pn b0 = Some f;
  op_num : 1 ≤ pn;
  op_iter : pi_handler (record_page_iterator_ s) = Some (ob_id ob);
  op_start : 0 ≤ start ≤ record_capacity (header f);
  op_cursor : first_bit (bitmap f) true start (record_capacity (header f)) (next_slot_num_ (record_page_iterator_ s));
}.
(** the rows of the current page not yet seen *)
Definition at_rows s (ob : PageObject) (l : list Row) : Prop :=
  (∃ pn f start, on_page s ob pn f start ∧ l = page_rows pn f start) ∨
  (l = [] ∧ (pi_handler (record_page_iterator_ s) = None ∨ next_slot_num_ (record_page_iterator_ s) = -1)).
Definition later s : list Row := pages_rows id b0 (base.filter (λ p, current_page_num_ (bp_iterator_ s) < p) (pool_pages id b0)).

(** a state that differs in the page iterator and the cached record only *)
Definition moved s s' : Prop := ∃ it r, s' = set_next_record r (set_page_iterator it s).
Lemma moved_refl s : moved s s.
Proof. exists (record_page_iterator_ s), (next_record_ s). by destruct s. Qed.
Lemma moved_trans s1 s2 s3 : moved s1 s2 → moved s2 s3 → moved s1 s3.
Proof. intros (it & r & ->) (it' & r' & ->). by exists it', r'. Qed.
Lemma no_record_moved s : moved s (set_next_record (mkRID (page_num (next_record_ s).1) (-1), (next_record_ s).2) s).
Proof. exists (record_page_iterator_ s), (mkRID (page_num (next_record_ s).1) (-1), (next_record_ s).2). by destruct s. Qed.
Lemma moved_open s s' ob : moved s s' → scan_open s ob → scan_open s' ob.
Proof. by intros (it & r & ->) []; constructor. Qed.

Lemma object_handler_ok s ob pn f start : scan_open s ob → on_page s ob pn f start →
  ∃ p, object_handler ob s = Some (mkHandler f (op_mode p) id (op_size p) (sc_log s)).
Proof.
  intros Hopen [(p & Hp & Hpn) Hf _ _ _ _]. exists p. unfold object_handler. rewrite Hp. cbn. destruct (so_page _ _ Hopen p Hp) as [-> _].
  by rewrite (so_frames _ _ Hopen), Hpn, Hf.
Qed.

(** one step of the page iterator on a set slot *)
Lemma sc_iter_next_ok s ob pn f start : scan_open s ob → on_page s ob pn f start → next_slot_num_ (record_page_iterator_ s) ≠ -1 →
  ∃ row rest s', page_rows pn f start = row :: rest ∧ sc_iter_next s = Some (SUCCESS, s') ∧ moved s s' ∧ next_record_ s' = row ∧
    ∃ start', start < start' ∧ on_page s' ob pn f start' ∧ rest = page_rows pn f start'.
Proof.
  intros Hopen Hon Hc. pose proof (object_handler_ok s ob pn f start Hopen Hon) as [p Hh]. destruct Hon as [Hp Hf H1 Hit Hst Hcur].
  pose proof (pages_ok pn f H1 Hf) as Hok. set (c := next_slot_num_ (record_page_iterator_ s)) in *. set (cap := record_capacity (header f)) in *.
  destruct (page_rows_from pn f start c Hok Hst Hcur) as [[? _]|(Hr & r & Hrec & Hrows)]; [done|].
  destruct (next_setted_bit_spec (bitmap f) cap (c + 1)) as (c' & Hc' & Hfb'); [apply Hok|lia|].
  exists (mkRID pn c, r), (page_rows pn f (c + 1)). eexists. split; [done|]. split.
  - unfold sc_iter_next, the_object. rewrite bind_assoc, bind_get, (bind_liftO _ _ _ _ (so_object _ _ Hopen)), bind_get.
    rewrite bind_assertM by (apply bool_decide_eq_true_2; done). rewrite bind_assertM by (rewrite (so_format _ _ Hopen); done).
    rewrite (bind_liftO _ _ _ _ Hh). unfold iter_next. rewrite get_record_ok by (cbn; lia || done). cbn [slot_num frame_]. fold c cap.
    rewrite decide_False, Hrec by lia. cbn [fst snd slot_num]. rewrite (proj2 (Z.leb_le 0 c)) by lia. rewrite Hc'. cbn [mbind option_bind].
    rewrite (pool_frame_num _ _ _ _ Hf). replace (c =? -1) with false by (symmetry; apply Z.eqb_neq; done). cbn [negb liftO]. unfold bind at 1. cbn. unfold modify, bind. cbn. reflexivity.
  - split; [by eexists _, _|]. split; [done|]. exists (c + 1). split; [lia|]. split; [|done]. constructor; cbn; try done. lia.
Qed.

Lemma fetch_in_page_ok n : ∀ s ob pn f start, scan_open s ob → on_page s ob pn f start → record_capacity (header f) - start ≤ Z.of_nat n →
  ∃ rc s', fetch_next_record_in_page n s = Some (rc, s') ∧ moved s s' ∧
    match fetch (page_rows pn f start) with
    | None => rc = RECORD_EOF ∧ next_slot_num_ (record_page_iterator_ s') = -1
    | Some (rc', r, rest) => rc = rc' ∧ next_record_ s' = r ∧ ∃ start', on_page s' ob pn f start' ∧ rest = page_rows pn f start'
    end.
Proof.
  induction n as [|n IH]; intros s ob pn f start Hopen Hon Hn; cbn [fetch_next_record_in_page]; rewrite bind_get; unfold iter_has_next.
  all: destruct (next_slot_num_ (record_page_iterator_ s) =? -1) eqn:Ec; zbool; cbn [negb].
  1,3: destruct Hon as [Hp Hf H1 Hit Hst Hcur]; destruct (page_rows_from pn f start _ (pages_ok pn f H1 Hf) Hst Hcur) as [[_ ->]|(? & _)]; [|lia];
    unfold no_record; rewrite bind_modify; do 2 eexists; split; [done|]; split; [apply no_record_moved|done].
  - destruct Hon as [Hp Hf H1 Hit Hst Hcur]. destruct (page_rows_from pn f start _ (pages_ok pn f H1 Hf) Hst Hcur) as [[? _]|(? & _)]; [done|lia].
  - destruct (sc_iter_next_ok s ob pn f start Hopen Hon Ec) as (row & rest & s1 & Hrows & E & Hmv & Hnr & start' & Hlt & Hon' & ->).
    rewrite (bind_eq _ _ _ _ _ E). cbn [negb bool_decide]. rewrite bool_decide_eq_true_2 by done. cbn [negb]. rewrite bind_get, Hrows. cbn [fetch_spec]. unfold passes, visit.
    pose proof (moved_open _ _ _ Hmv Hopen) as Hopen1. rewrite (so_filter _ _ Hopen1), (so_trx _ _ Hopen1), (so_mode _ _ Hopen1), Hnr.
    assert (Hrec : ∃ rc s', fetch_next_record_in_page n s1 = Some (rc, s') ∧ moved s s' ∧
      match fetch (page_rows pn f start') with None => rc = RECORD_EOF ∧ next_slot_num_ (record_page_iterator_ s') = -1
      | Some (rc', r, rest) => rc = rc' ∧ next_record_ s' = r ∧ ∃ start', on_page s' ob pn f start' ∧ rest = page_rows pn f start' end).
    { destruct (IH s1 ob pn f start' Hopen1 Hon') as (rc & s2 & E2 & Hmv2 & Hcase); [lia|]. exists rc, s2. split; [done|]. split; [by apply (moved_trans s s1)|done]. }
    assert (Hdone : ∃ start'', on_page s1 ob pn f start'' ∧ page_rows pn f start' = page_rows pn f start'') by eauto.
    replace (match filter with Some g => negb (g row) | None => false end) with (negb (match filter with Some g => g row | None => true end)) by (by destruct filter).
    destruct (negb _); [exact Hrec|]. destruct trx as [v|].
    + cbv zeta. case_bool_decide; [exact Hrec|]. by exists (v row mode), s1.
    + rewrite bool_decide_eq_false_2 by done. by exists SUCCESS, s1.
Qed.

Lemma page_rounds_ok s ob pn f start : scan_open s ob → on_page s ob pn f start → page_rounds s = Z.to_nat (record_capacity (header f)).
Proof.
  intros Hopen Hon. destruct (object_handler_ok s ob pn f start Hopen Hon) as [p Hh]. unfold page_rounds. rewrite (so_object _ _ Hopen). cbn [mbind option_bind]. by rewrite Hh.
Qed.

(** [cleanup] releases the open page, if there is one *)
Lemma sc_cleanup_eq s ob : record_page_handler_ s = Some ob →
  (∀ p, ob_page ob = Some p → op_pool p = id ∧ is_Some (pool_frame id (op_page p) (sc_pool s))) →
  ∃ b, sc_cleanup s = Some (tt, set_handler (Some (mkPageObject (ob_id ob) (ob_format ob) None)) (set_sc_pool b s)) ∧ same_frames (sc_pool s) b.
Proof.
  intros Ho Hpg. unfold sc_cleanup, the_object. rewrite bind_assoc, bind_get, (bind_liftO _ _ _ _ Ho).
  destruct (ob_page ob) as [p|] eqn:Ep.
  - destruct (Hpg p eq_refl) as [Hid [f Hframe]]. rewrite Hid. destruct (unpin_page_ok _ _ _ _ Hframe) as (b & E & Hb). exists b. split; [|done].
    assert (E' : sc_on_pool (unpin_page id (op_page p)) s = Some (SUCCESS, set_sc_pool b s)) by (unfold sc_on_pool; by rewrite E).
    by rewrite (bind_eq _ _ _ _ _ E').
  - exists (sc_pool s). split; [|done]. destruct ob as [i fm [p|]]; [done|]. unfold ret, set_handler, set_sc_pool. cbn. rewrite <-Ho. by destruct s.
Qed.
Lemma sc_cleanup_ok s ob : scan_open s ob →
  ∃ s', sc_cleanup s = Some (tt, s') ∧ scan_open s' (mkPageObject (ob_id ob) (ob_format ob) None) ∧
    bp_iterator_ s' = bp_iterator_ s ∧ record_page_iterator_ s' = record_page_iterator_ s ∧ next_record_ s' = next_record_ s.
Proof.
  intros [Hp Hlog Ht Hm Hf Ho Hfm Hpg Hfr Hsz Hcur]. destruct (sc_cleanup_eq s ob Ho) as (b & E & Hb); [intros p Ep; by rewrite (Hfr id), <-(proj1 (Hpg p Ep)); split; [|rewrite (proj1 (Hpg p Ep)); apply Hpg]|].
  eexists. split; [exact E|]. split; [|done]. constructor; try done. cbn. by apply (same_frames_trans b0 (sc_pool s)).
Qed.
Lemma sc_init_ok s ob pn f : scan_open s ob → pool_frame id pn b0 = Some f →
  ∃ p s', sc_init pn s = Some (SUCCESS, s') ∧ op_page p = pn ∧ scan_open s' (mkPageObject (ob_id ob) (ob_format ob) (Some p)) ∧
    bp_iterator_ s' = bp_iterator_ s ∧ record_page_iterator_ s' = record_page_iterator_ s.
Proof.
  intros Hopen Hframe. pose proof Hopen as [Hp Hlog Ht Hm Hf Ho Hfm Hpg Hfr Hsz Hcur]. unfold sc_init, the_object. rewrite bind_get, (bind_liftO _ _ _ _ Hp), bind_assoc, bind_get, (bind_liftO _ _ _ _ Ho).
  pose proof Hframe as Hframe'. rewrite <-Hfr in Hframe'. destruct (handler_init_ok id pn (sc_rw_mode_ s) (sc_log s) _ f Hframe') as (b & E & Hb).
  assert (E' : sc_on_pool (handler_init id pn (sc_rw_mode_ s) (sc_log s)) s = Some ((SUCCESS, Some (mkHandler f (sc_rw_mode_ s) id (record_real_size (header f)) (sc_log s))), set_sc_pool b s)) by (unfold sc_on_pool; by rewrite E).
  rewrite (bind_eq _ _ _ _ _ E'). cbn [snd fst]. rewrite bind_modify. exists (mkOpenPage id pn (sc_rw_mode_ s) (record_real_size (header f))). eexists. split; [done|]. split; [done|]. split; [|done].
  constructor; try done; cbn; [|by apply (same_frames_trans b0 (sc_pool s))]. intros p [= <-]. split; [done|]. cbn. rewrite Hframe. eauto.
Qed.
Lemma sc_iter_init_ok s ob p pn f : scan_open s ob → ob_page ob = Some p → op_page p = pn → 1 ≤ pn → pool_frame id pn b0 = Some f →
  ∃ s', sc_iter_init s = Some (tt, s') ∧ moved s s' ∧ on_page s' ob pn f 0.
Proof.
  intros Hopen Hp Hpn H1 Hf. unfold sc_iter_init, the_object. rewrite bind_assoc, bind_get, (bind_liftO _ _ _ _ (so_object _ _ Hopen)), bind_get.
  assert (Hh : object_handler ob s = Some (mkHandler f (op_mode p) id (op_size p) (sc_log s))).
  { unfold object_handler. rewrite Hp. cbn. destruct (so_page _ _ Hopen p Hp) as [-> _]. by rewrite (so_frames _ _ Hopen), Hpn, Hf. }
  rewrite (bind_liftO _ _ _ _ Hh). pose proof (pages_ok pn f H1 Hf) as Hok. pose proof (bm_size _ _ (po_bitmap _ Hok)) as Hcap.
  destruct (next_setted_bit_spec (bitmap f) (record_capacity (header f)) 0) as (c & Hc & Hfb); [apply Hok|lia|].
  unfold iter_init. cbn [frame_]. rewrite (bind_liftO _ _ _ _ Hc). eexists. split; [done|].
  split; [exists (mkPageIterator (Some (ob_id ob)) (frame_page_num f) c), (next_record_ s); done|]. constructor; cbn; try done; eauto.
Qed.

(** the pages after the current one *)
Lemma filter_first (l : list Z) p c : StronglySorted Z.lt l → p ∈ l → c < p → (∀ q, q ∈ l → c < q → p ≤ q) →
  base.filter (λ q, c < q) l = p :: base.filter (λ q, p < q) l.
Proof.
  intros Hs Hin Hc Hmin. induction Hs as [|x l Hs IH Hx]; [by apply elem_of_nil in Hin|]. rewrite Forall_forall in Hx.
  rewrite !filter_cons. apply elem_of_cons in Hin as [<-|Hin].
  - rewrite decide_True by done. rewrite (decide_False (P := p < p)) by lia. f_equal. apply filter_ext_in. intros q Hq. specialize (Hx q Hq). cbn in Hx. split; intros; lia.
  - pose proof (Hx p Hin). rewrite (decide_False (P := p < x)) by lia. rewrite decide_False; [apply IH; [done|]; intros q Hq; apply Hmin; by right|].
    intros ?. specialize (Hmin x ltac:(by left) ltac:(done)). lia.
Qed.
Lemma peek_later s ob : scan_open s ob →
  match bp_iter_peek id (bp_iterator_ s) (sc_pool s) with
  | None => later s = []
  | Some p => ∃ f, 1 ≤ p ∧ current_page_num_ (bp_iterator_ s) < p < it_size (bp_iterator_ s) ∧ pool_frame id p b0 = Some f ∧
      later s = page_rows p f 0 ++ later (set_bp_iterator (bp_iter_to (bp_iterator_ s) p) s)
  end.
Proof.
  intros Hopen. pose proof (same_pages id _ _ (so_frames _ _ Hopen)) as Epg.
  pose proof (peek_spec id (bp_iterator_ s) (sc_pool s)) as Hpk. rewrite Epg in Hpk. specialize (Hpk (so_size _ _ Hopen)).
  destruct (bp_iter_peek _ _ _) as [p|].
  - destruct Hpk as (Hin & Hlt & Hmin). pose proof (proj1 (pool_pages_spec _ _ _) Hin) as [H1 [f Hf]]. exists f. split; [done|]. split; [split; [done|by apply (so_size _ _ Hopen)]|]. split; [done|].
    unfold later, pages_rows. rewrite (filter_first _ p) by (done || apply pool_pages_sorted). cbn. by rewrite Hf.
  - unfold later, pages_rows. assert (base.filter (λ p, current_page_num_ (bp_iterator_ s) < p) (pool_pages id b0) = []) as ->; [|done].
    apply elem_of_nil_inv. intros q [Hq1 Hq2]%list_elem_of_filter. specialize (Hpk q Hq2). lia.
Qed.

(** a step of the scan over [rows] *)
Definition fetched (rows : list Row) (rc : RC) s' : Prop :=
  ∃ ob', scan_open s' ob' ∧
  match fetch rows with
  | None => rc = RECORD_EOF
  | Some (rc', r, rest) => rc = rc' ∧ next_record_ s' = r ∧ ∃ l, at_rows s' ob' l ∧ rest = l ++ later s'
  end.

Lemma later_moved s s' : moved s s' → later s' = later s.
Proof. by intros (it & r & ->). Qed.

(** the current page is searched first *)
Lemma fetch_page_ok s ob pn f start : scan_open s ob → on_page s ob pn f start →
  ∃ rc s', fetch_next_record_in_page (page_rounds s) s = Some (rc, s') ∧ scan_open s' ob ∧ bp_iterator_ s' = bp_iterator_ s ∧
    (rc = RECORD_EOF → fetch (page_rows pn f start) = None) ∧ (rc ≠ RECORD_EOF → fetched (page_rows pn f start ++ later s) rc s').
Proof.
  intros Hopen Hon. rewrite (page_rounds_ok s ob pn f start Hopen Hon).
  destruct (fetch_in_page_ok (Z.to_nat (record_capacity (header f))) s ob pn f start Hopen Hon) as (rc & s' & E & Hmv & Hcase); [pose proof (op_start _ _ _ _ _ Hon); lia|].
  exists rc, s'. split; [done|]. pose proof (moved_open _ _ _ Hmv Hopen) as Hopen'. split; [done|]. split; [by destruct Hmv as (? & ? & ->)|].
  destruct (fetch (page_rows pn f start)) as [[[rc' r] rest]|] eqn:Ef; [|destruct Hcase as [-> _]; done].
  destruct Hcase as (-> & Hr & start' & Hon' & ->). split; [intros ->; destruct (fetch_spec_code _ _ _ _ _ _ _ Ef) as [E' _]; by destruct (trx_codes r)|].
  intros _. exists ob. split; [done|]. rewrite fetch_spec_app, Ef. split; [done|]. split; [done|]. exists (page_rows pn f start'). split; [left; by exists pn, f, start'|]. by rewrite (later_moved s s').
Qed.

Lemma fetch_pages_ok n : ∀ s ob, scan_open s ob → it_size (bp_iterator_ s) - current_page_num_ (bp_iterator_ s) ≤ Z.of_nat n + 1 →
  ∃ rc s', fetch_pages n s = Some (rc, s') ∧ fetched (later s) rc s'.
Proof.
  induction n as [|n IH]; intros s ob Hopen Hn; cbn [fetch_pages]; rewrite bind_get, (bind_liftO _ _ _ _ (so_pool _ _ Hopen));
    pose proof (peek_later s ob Hopen) as Hpk; destruct (bp_iter_peek id (bp_iterator_ s) (sc_pool s)) as [pn|].
  1:{ destruct Hpk as (f & _ & Hlt & _). lia. }
  1,3: unfold no_record; rewrite bind_modify; pose proof (moved_open _ _ _ (no_record_moved s) Hopen) as Hopen1;
    destruct (sc_cleanup_ok _ _ Hopen1) as (s2 & E2 & Hopen2 & _); rewrite (bind_eq _ _ _ _ _ E2); do 2 eexists; (split; [done|]); eexists; (split; [exact Hopen2|]); by rewrite Hpk.
  destruct Hpk as (f & H1 & Hlt & Hf & Hlater). rewrite bind_modify. set (s1 := set_bp_iterator _ s) in *.
  assert (Hopen1 : scan_open s1 ob) by (destruct Hopen; constructor; try done; cbn; lia).
  destruct (sc_cleanup_ok s1 ob Hopen1) as (s2 & E2 & Hopen2 & Hbp2 & _). rewrite (bind_eq _ _ _ _ _ E2).
  destruct (sc_init_ok s2 _ pn f Hopen2 Hf) as (p & s3 & E3 & Hp & Hopen3 & Hbp3 & _). rewrite (bind_eq _ _ _ _ _ E3). change (OB_FAIL SUCCESS) with false. cbv iota.
  destruct (sc_iter_init_ok s3 _ p pn f Hopen3 eq_refl Hp H1 Hf) as (s4 & E4 & Hmv & Hon). rewrite (bind_eq _ _ _ _ _ E4), bind_get.
  pose proof (moved_open _ _ _ Hmv Hopen3) as Hopen4. assert (Hbp4 : bp_iterator_ s4 = bp_iter_to (bp_iterator_ s) pn) by (destruct Hmv as (? & ? & ->); cbn; by rewrite Hbp3, Hbp2).
  assert (Hl4 : later s4 = later s1) by (unfold later; by rewrite Hbp4).
  destruct (fetch_page_ok s4 _ pn f 0 Hopen4 Hon) as (rc & s5 & E5 & Hopen5 & Hbp5 & Heof & Hfound). rewrite (bind_eq _ _ _ _ _ E5), Hlater, <-Hl4.
  case_bool_decide as Hrc; [|exists rc, s5; split; [done|by apply Hfound]]. specialize (Heof Hrc).
  destruct (IH s5 _ Hopen5) as (rc' & s6 & E6 & Hfe); [rewrite Hbp5, Hbp4; cbn; lia|]. exists rc', s6. split; [done|].
  destruct Hfe as (ob' & Hopen6 & Hcase). exists ob'. split; [done|]. rewrite fetch_spec_app, Heof. unfold later in *. by rewrite Hbp5 in Hcase.
Qed.

Lemma fetch_next_ok s ob l : scan_open s ob → at_rows s ob l → ∃ rc s', fetch_next_record s = Some (rc, s') ∧ fetched (l ++ later s) rc s'.
Proof.
  intros Hopen Hat. unfold fetch_next_record. rewrite bind_get.
  assert (Hrest : ∀ s1, scan_open s1 ob → bp_iterator_ s1 = bp_iterator_ s → fetch l = None →
    ∃ rc s', fetch_pages (Z.to_nat (it_size (bp_iterator_ s))) s1 = Some (rc, s') ∧ fetched (l ++ later s) rc s').
  { intros s1 Hopen1 Hbp Hl. destruct (fetch_pages_ok (Z.to_nat (it_size (bp_iterator_ s))) s1 ob Hopen1) as (rc & s' & E & ob' & Hopen' & Hcase); [rewrite Hbp; pose proof (so_current _ _ Hopen); lia|].
    exists rc, s'. split; [done|]. exists ob'. split; [done|]. rewrite fetch_spec_app, Hl. unfold later in *. by rewrite Hbp in Hcase. }
  destruct Hat as [(pn & f & start & Hon & ->)|[-> Hend]].
  - rewrite (op_iter _ _ _ _ _ Hon). destruct (fetch_page_ok s ob pn f start Hopen Hon) as (rc & s1 & E & Hopen1 & Hbp & Heof & Hfound). rewrite (bind_eq _ _ _ _ _ E).
    case_bool_decide as Hrc; cbn [negb]; [|exists rc, s1; split; [done|by apply Hfound]]. by apply Hrest; [..|apply Heof].
  - destruct (pi_handler (record_page_iterator_ s)); [|rewrite bind_ret; by apply Hrest]. destruct Hend as [?|Hend]; [done|].
    assert (E : fetch_next_record_in_page (page_rounds s) s = Some (RECORD_EOF, set_next_record (mkRID (page_num (next_record_ s).1) (-1), (next_record_ s).2) s)).
    { destruct (page_rounds s); cbn [fetch_next_record_in_page]; rewrite bind_get; unfold iter_has_next; rewrite Hend; done. }
    rewrite (bind_eq _ _ _ _ _ E). apply Hrest; [by apply (moved_open s); [apply no_record_moved|]|done|done].
Qed.

(** the client's loop *)
Lemma record_scan_loop_ok n : ∀ s ob l, scan_open s ob → at_rows s ob l → (length (l ++ later s) < n)%nat →
  ∃ s' ob', scan_loop n s = Some (scan_spec filter trx mode (l ++ later s), s') ∧ scan_open s' ob'.
Proof.
  induction n as [|n IH]; intros s ob l Hopen Hat Hn; [lia|]. cbn [scan_loop]. unfold scan_next. rewrite bind_assoc, scan_spec_fetch.
  destruct (fetch_next_ok s ob l Hopen Hat) as (rc & s1 & E & ob1 & Hopen1 & Hcase). rewrite (bind_eq _ _ _ _ _ E).
  destruct (fetch (l ++ later s)) as [[[rc' r] rest]|] eqn:Ef.
  2:{ subst rc. change (OB_FAIL RECORD_EOF) with true. cbv iota. rewrite bind_ret. by exists s1, ob1. }
  destruct Hcase as (-> & Hr & l1 & Hat1 & ->). destruct (fetch_spec_code _ _ _ _ _ _ _ Ef) as [Hcode _].
  case_bool_decide as Hs.
  - rewrite Hs. change (OB_FAIL SUCCESS) with false. cbv iota. rewrite bind_assoc, bind_get, bind_ret. cbn [snd].
    destruct (IH s1 ob1 l1 Hopen1 Hat1) as (s2 & ob2 & E2 & Hopen2); [pose proof (fetch_spec_length _ _ _ _ _ _ _ Ef); lia|].
    rewrite (bind_eq _ _ _ _ _ E2), Hr. by exists s2, ob2.
  - replace (OB_FAIL rc') with true by (by destruct rc'). rewrite bind_ret. by exists s1, ob1.
Qed.

(** opening and closing *)
Lemma close_scan_closed s : record_page_handler_ s = None → close_scan s = Some (SUCCESS, mkRScan (sc_pool s) (sc_log s) (sc_fresh s) None (trx_ s) (sc_rw_mode_ s) (bp_iterator_ s) None None (record_page_iterator_ s) (next_record_ s)).
Proof. intros E. unfold close_scan. rewrite bind_modify, bind_get. cbn [record_page_handler_]. rewrite E. done. Qed.
Lemma close_scan_ok s ob : scan_open s ob → ∃ s', close_scan s = Some (SUCCESS, s') ∧ same_frames b0 (sc_pool s') ∧ record_page_handler_ s' = None ∧ sc_log s' = l0.
Proof.
  intros [Hp Hlog Ht Hm Hf Ho Hfm Hpg Hfr Hsz Hcur]. unfold close_scan. rewrite bind_modify, bind_get. set (s1 := mkRScan _ _ _ _ _ _ _ _ _ _ _).
  assert (Ho1 : record_page_handler_ s1 = Some ob) by done. rewrite Ho1, bind_assoc.
  destruct (sc_cleanup_eq s1 ob Ho1) as (b & E & Hb); [intros p Ep; destruct (Hpg p Ep) as [? ?]; split; [done|]; by rewrite (Hfr id)|].
  rewrite (bind_eq _ _ _ _ _ E), bind_modify. eexists. split; [done|]. split; [|done]. cbn. by apply (same_frames_trans b0 (sc_pool s)).
Qed.
Lemma open_fresh_ok fmt : fmt = None ∨ fmt = Some ROW_FORMAT →
  ∃ s ob, open_scan fmt id trx mode filter (fresh_scanner b0 l0) = Some (SUCCESS, s) ∧ scan_open s ob ∧ at_rows s ob [] ∧ later s = file_rows id b0.
Proof.
  intros Hfmt. unfold open_scan. rewrite (bind_eq _ _ _ _ _ (close_scan_closed (fresh_scanner b0 l0) eq_refl)), bind_modify. rewrite bool_decide_eq_true_2 by done.
  cbn. eexists _, (mkPageObject 0 ROW_FORMAT None). split; [done|]. split; [|split; [right; split; [done|by left]|]].
  - constructor; try done. intros p. apply pool_pages_count.
  - unfold later, file_rows. f_equal. apply filter_all. intros p [H1 _]%pool_pages_spec. cbn. lia.
Qed.
End scan.
