(* ===== verification/RecordFileTheorems.v ===== *)
(** * RecordFileTheorems: the properties of record files and their scans *)
From stdpp Require Import sorting.
From S2P Require Import Prelude Types Bitmap Encoding LogHandler RecordPageHandler RecordPageSpec RecordPool RecordFile RecordFileSpec RecordScan RecordScanSpec.

(** the order of a scan *)
Definition rid_before (r1 r2 : RID) : Prop := page_num r1 < page_num r2 ∨ page_num r1 = page_num r2 ∧ slot_num r1 < slot_num r2.

(** every data page of the pool is a page of the layout [hd] *)
Definition file_pages_ok {B} `{RecordPool B} (id : Z) (hd : PageHeader) (b : B) : Prop :=
  ∀ pn f, 1 ≤ pn → pool_frame id pn b = Some f → page_ok f ∧ layout f = hd.

(** the abstract file that a pool holds *)
Definition file_spec_of {B} `{RecordPool B} (id : Z) (b : B) : FileSpec :=
  mkFileSpec (list_to_set (pool_pages id b)) ∅ (list_to_map (file_rows id b)).

(** [init], then the operations *)
Definition file_session {B L} `{RecordPool B} `{LogHandler L} (begin : gset PageNum → PageNum) (uninit id rs : Z)
    (table_meta : option (list Z)) (ops : list FileOp) : M (RFile B L) (RC * list FileRes) :=
  let* rc := file_init id table_meta in
  let* res := file_run begin uninit id rs ops in
  ret (rc, res).

(** ** Lists in the order of a scan *)

Lemma sorted_app {A} (R : A → A → Prop) l1 l2 : StronglySorted R l1 → StronglySorted R l2 → (∀ x y, x ∈ l1 → y ∈ l2 → R x y) → StronglySorted R (l1 ++ l2).
Proof.
  induction 1 as [|x l1 Hs IH Hx]; intros H2 H12; [done|]. cbn. constructor.
  - apply IH; [done|]. intros y z Hy. apply H12. by right.
  - apply Forall_app. split; [done|]. apply Forall_forall. intros y Hy. apply H12; [by left|done].
Qed.
Lemma sorted_nodup (l : list RID) : StronglySorted rid_before l → NoDup l.
Proof.
  induction 1 as [|x l Hs IH Hx]; constructor; [|done]. intros Hin. rewrite Forall_forall in Hx. specialize (Hx x Hin). unfold rid_before in Hx. lia.
Qed.

Section rows.
Context {B : Type} `{PL : RecordPoolLaws B}.
Variables (id : Z) (hd : PageHeader).
Implicit Types (b : B).

Lemma page_rows_sorted pn f start : StronglySorted rid_before (page_rows pn f start).*1.
Proof.
  unfold page_rows. pose proof (seqZ_sorted start (record_capacity (header f) - start)) as Hs. induction Hs as [|i l Hs IH Hi]; [constructor|].
  cbn [omap list_omap]. destruct (contents f !! i) as [r|]; cbn; [|exact IH]. constructor; [exact IH|]. apply Forall_forall. intros x Hx.
  apply list_elem_of_fmap in Hx as ([y r'] & -> & (j & Hj & Hr)%list_elem_of_omap). destruct (contents f !! j); [|done]. injection Hr as <- _. rewrite Forall_forall in Hi. right. split; [done|]. cbn. by apply Hi.
Qed.
Lemma page_rows_page pn f start row : row ∈ page_rows pn f start → page_num row.1 = pn.
Proof. intros (j & _ & Hr)%list_elem_of_omap. destruct (contents f !! j); [|done]. by injection Hr as <-. Qed.
Lemma pages_rows_sorted b l : StronglySorted Z.lt l → StronglySorted rid_before (pages_rows id b l).*1.
Proof.
  induction 1 as [|p l Hs IH Hp]; [constructor|]. unfold pages_rows in *. cbn [map concat]. rewrite fmap_app. apply sorted_app; [|exact IH|].
  - destruct (pool_frame id p b); [apply page_rows_sorted|constructor].
  - intros x y Hx Hy. apply list_elem_of_fmap in Hx as (rx & -> & Hx), Hy as (ry & -> & Hy). destruct (pool_frame id p b) as [f|]; [|by apply elem_of_nil in Hx]. apply page_rows_page in Hx.
    apply list_elem_of_In, in_concat in Hy as (m & Hm & Hy). apply list_elem_of_In in Hm, Hy. apply list_elem_of_fmap in Hm as (q & -> & Hq). destruct (pool_frame id q b) as [g|]; [|by apply elem_of_nil in Hy]. apply page_rows_page in Hy.
    rewrite Forall_forall in Hp. specialize (Hp q Hq). left. cbn in Hp. lia.
Qed.
Lemma file_rows_sorted b : StronglySorted rid_before (file_rows id b).*1.
Proof. apply pages_rows_sorted, pool_pages_sorted. Qed.
Lemma file_rows_nodup b : NoDup (file_rows id b).*1.
Proof. apply sorted_nodup, file_rows_sorted. Qed.

Lemma elem_of_file_rows b row : file_pages_ok id hd b → row ∈ file_rows id b ↔ row_at id b row.1 = Some row.2.
Proof.
  intros Hok. unfold file_rows. rewrite elem_of_pages_rows.
  2:{ intros p f Hp Hf. apply pool_pages_spec in Hp as [H1 _]. by apply (Hok p). }
  unfold row_at. split.
  - intros (f & [H1 _]%pool_pages_spec & Hf & _ & Hc). by rewrite decide_True, Hf.
  - case_decide as H1; [|done]. destruct (pool_frame id (page_num row.1) b) as [f|] eqn:Hf; [|done]. cbn. intros Hc. exists f. split; [apply pool_pages_spec; rewrite Hf; eauto|]. split; [done|]. split; [|done].
    destruct (contents_range _ _ _ (proj1 (Hok _ _ H1 Hf)) Hc) as [? _]. lia.
Qed.
Lemma file_rows_lookup b rid : file_pages_ok id hd b → (list_to_map (file_rows id b) : gmap RID (list Z)) !! rid = row_at id b rid.
Proof.
  intros Hok. apply option_eq. intros r. rewrite <-(elem_of_list_to_map (M := gmap RID)) by apply file_rows_nodup. by rewrite (elem_of_file_rows b (rid, r)).
Qed.
End rows.

Section sessions.
Context {B L : Type} `{PL : RecordPoolLaws B} `{LT : LogTotal L}.
Variables (begin : gset PageNum → PageNum) (uninit id rs : Z) (hd : PageHeader).
Hypothesis begin_elem : ∀ X, X ≠ ∅ → begin X ∈ X.
Hypothesis rs_pos : 1 ≤ rs.
Hypothesis hd_fresh : fix_record_capacity (fresh_header rs 0) = Some hd.
Hypothesis cap_pos : 0 < record_capacity hd.
Implicit Types (s : RFile B L).

Lemma rel_pages_ok s a : file_rel id hd s a → file_pages_ok id hd (rf_pool s).
Proof. intros Hrel pn f. apply (fl_page _ _ _ _ Hrel). Qed.
Lemma rel_rows s a : file_rel id hd s a → fs_rows a = list_to_map (file_rows id (rf_pool s)).
Proof.
  intros Hrel. apply map_eq. intros rid. rewrite (fl_rows _ _ _ _ Hrel). symmetry. apply (file_rows_lookup id hd). by apply (rel_pages_ok s a).
Qed.

Lemma init_ok s table_meta : disk_buffer_pool_ s = None → free_pages_ s = ∅ → storage_format_ s = ROW_FORMAT → log_ready (rf_log s) →
  file_pages_ok id hd (rf_pool s) → ∃ s', file_init id table_meta s = Some (SUCCESS, s') ∧ file_rel id hd s' (file_spec_of id (rf_pool s)).
Proof.
  intros Hcl Hfree Hfm Hlog Hpg. set (s0 := mkRFile (rf_pool s) (rf_log s) (Some id) (free_pages_ s) (storage_format_ s) table_meta).
  destruct (init_loop_ok id (Z.to_nat (pool_page_count id (rf_pool s0))) s0 (bp_iter_init id 1 (rf_pool s0))) as (s1 & E & Hsf & Hlg & Hd & Hf & Hfr); [done|intros p; apply pool_pages_count|cbn; lia|].
  assert (Hinit : file_init id table_meta s = Some (SUCCESS, s1)).
  { unfold file_init. rewrite bind_get, Hcl. unfold put. erewrite bind_eq; [|done]. unfold init_free_pages. fold s0.
    rewrite bind_assoc, (bind_eq _ _ _ _ _ (the_pool_eq id s0 eq_refl)), bind_assoc, bind_get. by rewrite (bind_eq _ _ _ _ _ E). }
  exists s1. split; [done|]. split; cbn [fs_pages fs_lost fs_rows file_spec_of]; try done.
  - by rewrite Hf.
  - by rewrite Hlg.
  - intros pn. rewrite elem_of_list_to_set, pool_pages_spec. by rewrite (Hsf id pn).
  - intros rid. rewrite (row_at_frames _ _ _ _ Hsf). by apply (file_rows_lookup id hd).
  - intros pn f H1 Hg. rewrite (Hsf id pn) in Hg. by apply (Hpg pn).
  - intros p [Hp|(H1 & _ & f & Hg & _)]%Hfr; [cbn in Hp; rewrite Hfree in Hp; by apply elem_of_empty in Hp|]. apply elem_of_list_to_set, pool_pages_spec. cbn in Hg. eauto.
  - intros pn f H1 Hg Hnf _. rewrite (Hsf id pn) in Hg. destruct (Hpg pn f H1 Hg) as [Hok Hlay].
    pose proof (record_num_le f Hok) as Hle. assert (Hc : record_capacity (header f) = record_capacity hd) by (by rewrite <-Hlay).
    destruct (decide (record_num (header f) = record_capacity hd)); [done|]. exfalso. apply Hnf, Hfr. right. split; [done|]. split; [cbn; lia|]. exists f. split; [done|lia].
Qed.
Lemma session_ok s table_meta ops : disk_buffer_pool_ s = None → free_pages_ s = ∅ → storage_format_ s = ROW_FORMAT → log_ready (rf_log s) →
  file_pages_ok id hd (rf_pool s) → Forall (fop_ok (record_capacity hd) rs) ops →
  ∃ res s' a', file_session begin uninit id rs table_meta ops s = Some ((SUCCESS, res), s') ∧ file_rel id hd s' a' ∧
    file_specs (record_capacity hd) (Z.to_nat rs) ops (file_spec_of id (rf_pool s)) res a'.
Proof.
  intros Hcl Hfree Hfm Hlog Hpg Hops. destruct (init_ok s table_meta Hcl Hfree Hfm Hlog Hpg) as (s1 & Hinit & Hrel).
  destruct (file_run_ok begin uninit id rs hd begin_elem rs_pos hd_fresh cap_pos ops s1 _ Hrel Hops) as (res & s2 & a2 & E2 & Hrel2 & Hsp).
  exists res, s2, a2. unfold file_session. rewrite (bind_eq _ _ _ _ _ Hinit), (bind_eq _ _ _ _ _ E2). done.
Qed.
End sessions.

(** ** Properties *)

(** [C4] The record file handler implements a finite map from record identifiers to records.
    Opened on any file whose pages are well formed, every sequence of insertions, deletions,
    reads, visits, recovery insertions and reopenings runs to its end; each answer and each
    change is the one of the abstract file: an insertion takes the first free slot of a page
    of the file, and asks for a new page only when every page is full. What the pages hold
    at the end is the abstract map. *)
Theorem file_runs_refine {B L} `{PL : RecordPoolLaws B} `{LT : LogTotal L} (begin : gset PageNum → PageNum) (uninit id rs : Z) (hd : PageHeader)
    (s : RFile B L) (table_meta : option (list Z)) (ops : list FileOp) :
  (∀ X, X ≠ ∅ → begin X ∈ X) → 1 ≤ rs → fix_record_capacity (fresh_header rs 0) = Some hd → 0 < record_capacity hd →
  disk_buffer_pool_ s = None → free_pages_ s = ∅ → storage_format_ s = ROW_FORMAT → log_ready (rf_log s) →
  file_pages_ok id hd (rf_pool s) → Forall (fop_ok (record_capacity hd) rs) ops →
  ∃ res s' a', file_session begin uninit id rs table_meta ops s = Some ((SUCCESS, res), s') ∧
    file_specs (record_capacity hd) (Z.to_nat rs) ops (file_spec_of id (rf_pool s)) res a' ∧
    fs_rows a' = list_to_map (file_rows id (rf_pool s')) ∧ file_pages_ok id hd (rf_pool s').
Proof.
  intros Hb Hrs Hhd Hcap Hcl Hfree Hfm Hlog Hpg Hops.
  destruct (session_ok begin uninit id rs hd Hb Hrs Hhd Hcap s table_meta ops Hcl Hfree Hfm Hlog Hpg Hops) as (res & s' & a' & E & Hrel & Hsp).
  exists res, s', a'. split; [done|]. split; [done|]. split; [by apply (rel_rows id hd)|by apply (rel_pages_ok id hd s' a')].
Qed.

(** [*begin()] of a set: its first element in the enumeration order *)
Definition first_page (X : gset PageNum) : PageNum := default 0 (head (elements X)).
Lemma first_page_elem X : X ≠ ∅ → first_page X ∈ X.
Proof.
  intros Hne. unfold first_page. destruct (elements X) as [|x l] eqn:E; [by apply elements_empty_inv in E as ?%leibniz_equiv|]. cbn. apply elem_of_elements. rewrite E. by left.
Qed.
Definition closed_file : RFile MemPool (list LogRec) := mkRFile ∅ [] None ∅ ROW_FORMAT None.
Definition file_ops : list FileOp :=
  [FInsert (replicate 3000 1); FInsert (replicate 3000 2); FInsert (replicate 3000 3); FDelete (mkRID 1 0); FInsert (replicate 3000 4); FGet (mkRID 1 0);
   FVisit (mkRID 2 0) (λ r, (true, map Z.succ r)); FReopen; FGet (mkRID 2 0); FDelete (mkRID 7 0)].
Definition hd_3000 : PageHeader := mkPageHeader 0 0 3000 3000 2 32 32.

Lemma file_runs_refine_witness :
  ∃ res s' a', file_session first_page 0 1 3000 None file_ops closed_file = Some ((SUCCESS, res), s') ∧
    file_specs (record_capacity hd_3000) (Z.to_nat 3000) file_ops (file_spec_of 1 (rf_pool closed_file)) res a' ∧
    fs_rows a' = list_to_map (file_rows 1 (rf_pool s')) ∧ file_pages_ok 1 hd_3000 (rf_pool s').
Proof.
  apply (file_runs_refine first_page 0 1 3000 hd_3000 closed_file None file_ops); try done.
  - exact first_page_elem.
  - repeat constructor; try (by vm_compute). cbn [fop_ok]. intros r. unfold len. cbn. rewrite length_map. lia.
Defined.

(** [C21] A scan meets every record of the file exactly once, in the order of pages and slots.
    Whatever its filter and its transaction, the loop of [next] calls runs to its end and
    answers the records that pass the filter and are visible, up to the first error of the
    transaction; it changes no page and leaves no page open. *)
Theorem scan_enumerates {B L} `{PL : RecordPoolLaws B} `{LH : LogHandler L} (id : Z) (hd : PageHeader) (b : B) (l : L) (n : nat)
    (filter : option (Row → bool)) (trx : option (Row → ReadWriteMode → RC)) (mode : ReadWriteMode) :
  file_pages_ok id hd b → (∀ r, visit trx mode r ≠ RECORD_EOF) → (length (file_rows id b) < n)%nat →
  ∃ s', scan_file n None id trx mode filter (fresh_scanner b l) = Some (scan_spec filter trx mode (file_rows id b), s') ∧
    same_frames b (sc_pool s') ∧ record_page_handler_ s' = None ∧
    StronglySorted rid_before (file_rows id b).*1 ∧
    ∀ rid r, (rid, r) ∈ file_rows id b ↔ row_at id b rid = Some r.
Proof.
  intros Hok Htrx Hn. assert (Hok' : ∀ pn f, 1 ≤ pn → pool_frame id pn b = Some f → page_ok f) by (intros pn f H1 Hf; by apply (Hok pn)).
  unfold scan_file. destruct (open_fresh_ok id b l filter trx mode None) as (s1 & ob & E1 & Hopen & Hat & Hl); [by left|]. rewrite (bind_eq _ _ _ _ _ E1).
  destruct (record_scan_loop_ok id b l filter trx mode Hok' Htrx n s1 ob [] Hopen Hat) as (s2 & ob2 & E & Hopen2); [by rewrite Hl|].
  rewrite (bind_eq _ _ _ _ _ E). cbn [app]. rewrite Hl. destruct (close_scan_ok id b l filter trx mode s2 ob2 Hopen2) as (s3 & E3 & Hsf & Hnone & _).
  rewrite (bind_eq _ _ _ _ _ E3). exists s3. split; [done|]. split; [done|]. split; [done|]. split; [apply file_rows_sorted|].
  intros rid r. by apply (elem_of_file_rows id hd b (rid, r)).
Qed.

(** two pages, records in the slots 0 and 2 of the first *)
Definition scanned_pool : MemPool :=
  let hd n := mkPageHeader n 0 1 8 16 32 32 in let d x := replicate (Z.to_nat BP_PAGE_DATA_SIZE) x in
  <[(1, 2) := mkRecordFrame 2 0 false (hd 1) [1; 0] (d 9)]> {[ (1, 1) := mkRecordFrame 1 0 false (hd 2) [5; 0] (d 3) ]}.
Lemma scanned_pool_ok : file_pages_ok 1 (mkPageHeader 0 0 1 8 16 32 32) scanned_pool.
Proof.
  intros pn f H1 (Hf & Hn & _)%mem_frame_Some. unfold scanned_pool in Hf. apply lookup_insert_Some in Hf as [[[= <-] <-]|[_ [[= <-] <-]%lookup_singleton_Some]]; (split; [|done]); constructor; try (by vm_compute);
    (split; [by vm_compute|repeat constructor; by vm_compute|by vm_compute]).
Qed.
Lemma scan_enumerates_witness :
  ∃ s', scan_file 9 None 1 None READ_ONLY (Some (λ r, bool_decide (r.2 = [3]))) (fresh_scanner scanned_pool ([] : list LogRec)) =
      Some (scan_spec (Some (λ r, bool_decide (r.2 = [3]))) None READ_ONLY (file_rows 1 scanned_pool), s') ∧
    same_frames scanned_pool (sc_pool s') ∧ record_page_handler_ s' = None ∧
    StronglySorted rid_before (file_rows 1 scanned_pool).*1 ∧
    ∀ rid r, (rid, r) ∈ file_rows 1 scanned_pool ↔ row_at 1 scanned_pool rid = Some r.
Proof.
  apply (scan_enumerates 1 (mkPageHeader 0 0 1 8 16 32 32)); [exact scanned_pool_ok|done|vm_compute; lia].
Defined.
