(* ===== verification/Table.v ===== *)
(** * Table: a table with its indexes (storage/table/table.cpp)

    A table is a record file and a list of indexes. [Table::insert_record] puts the record
    into the file and then into every index; when an index refuses it, the entries made so
    far and the record are taken back. The class [TableIndex] is the virtual class [Index]
    as the table uses it; [TableIndexLaws] is what an index promises. Of the table's metadata the
    list of the indexes is kept; what its files hold (create, open, serialize) is not modelled. *)
From S2P Require Import Prelude Types Encoding LogHandler RecordPageHandler RecordPool RecordFile RecordScan.

(** ** The interface of an index *)

Class TableIndex (I K : Type) `{Countable K} := {
  index_insert : list Z → RID → M I RC;      (** [Index::insert_entry(record, rid)] *)
  index_delete : list Z → RID → M I RC;      (** [Index::delete_entry(record, rid)] *)
  index_key : I → list Z → K;                (** the key the index takes from a record *)
}.
(** [index_holds n X i]: the index is at rest, holds exactly the entries [X] and can take [n] more calls.
    An insertion may fail, for want of pages or of memory; then the entries are what they were *)
Class TableIndexLaws (I K : Type) `{TableIndex I K} := {
  index_row : I → list Z → Prop;             (** the records the index is made for *)
  index_holds : nat → gset (K * RID) → I → Prop;
  index_insert_ok n X i rec rid : index_holds (S n) X i → index_row i rec → rid_ok rid →
    ∃ rc i', index_insert rec rid i = Some (rc, i') ∧ index_key i' = index_key i ∧ index_row i' = index_row i ∧
      ((rc = SUCCESS ∧ ((index_key i rec, rid) ∉ X) ∧ index_holds n ({[(index_key i rec, rid)]} ∪ X) i') ∨ (rc ≠ SUCCESS ∧ index_holds n X i'));
  index_delete_ok n X i rec rid : index_holds (S n) X i → index_row i rec → rid_ok rid →
    ∃ rc i', index_delete rec rid i = Some (rc, i') ∧ index_key i' = index_key i ∧ index_row i' = index_row i ∧
      index_holds n (X ∖ {[(index_key i rec, rid)]}) i' ∧ (rc = SUCCESS ↔ (index_key i rec, rid) ∈ X);
  index_holds_weaken n X i : index_holds (S n) X i → index_holds n X i;
}.

(** ** The table *)

Record Table (B L I : Type) := mkTable { record_handler_ : RFile B L; indexes_ : list I }.
Arguments mkTable {B L I} _ _.
Arguments record_handler_ {B L I} _.
Arguments indexes_ {B L I} _.

Section table.
Context {B L I K : Type} `{RecordPool B} `{LogHandler L} `{TableIndex I K}.
Variable begin : gset PageNum → PageNum.
Variable uninit : Z.
(** [table_meta_.record_size()] *)
Variable record_size : Z.
Implicit Types (t : Table B L I).

Definition on_file {A} (op : M (RFile B L) A) : M (Table B L I) A := λ t,
  match op (record_handler_ t) with Some (a, s) => Some (a, mkTable s (indexes_ t)) | None => None end.
Definition on_indexes {A} (op : M (list I) A) : M (Table B L I) A := λ t,
  match op (indexes_ t) with Some (a, l) => Some (a, mkTable (record_handler_ t) l) | None => None end.

(** [Table::insert_entry_of_indexes] *)
Fixpoint insert_entry_of_indexes (record : list Z) (rid : RID) : M (list I) RC := λ l,
  match l with
  | [] => Some (SUCCESS, [])
  | i :: l =>
      match index_insert record rid i with
      | None => None
      | Some (rc, i') =>
          if bool_decide (rc = SUCCESS)
          then '(rc, l') ← insert_entry_of_indexes record rid l; Some (rc, i' :: l')
          else Some (rc, i' :: l)
      end
  end.
(** [Table::delete_entry_of_indexes] *)
Fixpoint delete_entry_of_indexes (record : list Z) (rid : RID) (error_on_not_exists : bool) : M (list I) RC := λ l,
  match l with
  | [] => Some (SUCCESS, [])
  | i :: l =>
      match index_delete record rid i with
      | None => None
      | Some (rc, i') =>
          if negb (bool_decide (rc = SUCCESS)) && (negb (bool_decide (rc = RECORD_INVALID_KEY)) || negb error_on_not_exists)
          then Some (rc, i' :: l)
          else match l with
               | [] => Some (rc, [i'])
               | _ => '(rc, l') ← delete_entry_of_indexes record rid error_on_not_exists l; Some (rc, i' :: l')
               end
      end
  end.

(** what both insertions do when an index refuses the record: the entries made are deleted, and the record *)
Definition insert_into_indexes (data : list Z) (rid : RID) : M (Table B L I) RC :=
  let* rc := on_indexes (insert_entry_of_indexes data rid) in
  (if negb (bool_decide (rc = SUCCESS)) then
     on_indexes (delete_entry_of_indexes data rid false) ;;;
     on_file (file_delete_record uninit rid) ;;;
     ret tt
   else ret tt) ;;;
  ret rc.

(** [Table::insert_record]; the record's [RID] is set when the file took the record *)
Definition table_insert_record (data : list Z) : M (Table B L I) (RC * option RID) :=
  let* r := on_file (file_insert_record begin data record_size) in
  if negb (bool_decide (r.1 = SUCCESS)) then ret r
  else
    let* rid := liftO r.2 in
    let* rc := insert_into_indexes data rid in
    ret (rc, Some rid).

(** [Table::recover_insert_record] *)
Definition table_recover_insert_record (data : list Z) (rid : RID) : M (Table B L I) RC :=
  let* rc := on_file (file_recover_insert_record data rid) in
  if negb (bool_decide (rc = SUCCESS)) then ret rc else insert_into_indexes data rid.

(** [Table::visit_record] and [Table::get_record] *)
Definition table_visit_record (rid : RID) (visitor : list Z → bool * list Z) : M (Table B L I) RC := on_file (file_visit_record rid visitor).
Definition table_get_record (rid : RID) : M (Table B L I) (RC * option (list Z)) := on_file (file_get_record rid).

(** the loop of [Table::delete_record]: every index must hold the entry *)
Fixpoint delete_from_indexes (record : list Z) (rid : RID) : M (list I) unit := λ l,
  match l with
  | [] => Some (tt, [])
  | i :: l =>
      '(rc, i') ← index_delete record rid i;
      if bool_decide (rc = SUCCESS) then '(_, l') ← delete_from_indexes record rid l; Some (tt, i' :: l') else None
  end.
(** [Table::delete_record(const Record &)] *)
Definition table_delete_the_record (rid : RID) (data : list Z) : M (Table B L I) RC :=
  on_indexes (delete_from_indexes data rid) ;;;
  on_file (file_delete_record uninit rid).
(** [Table::delete_record(const RID &)] *)
Definition table_delete_record (rid : RID) : M (Table B L I) RC :=
  let* r := table_get_record rid in
  if OB_FAIL r.1 then ret r.1
  else let* data := liftO r.2 in table_delete_the_record rid data.

(** the loop of [Table::create_index]: the records of a scan go into the new index; answers how the
    scan ended, or the error of the index ([inr]) *)
Fixpoint fill_index (n : nat) (sc : RScan B L) : M I ((RC + RC) * RScan B L) := λ i,
  match n with
  | O => None
  | S n =>
      match scan_next sc with
      | None => None
      | Some ((rc, None), sc') => Some ((inl rc, sc'), i)
      | Some ((_, Some row), sc') =>
          match index_insert row.2 row.1 i with
          | None => None
          | Some (rc, i') => if bool_decide (rc = SUCCESS) then fill_index n sc' i' else Some ((inr rc, sc'), i')
          end
      end
  end.
(** the part of [Table::create_index] that fills the index [new_index]: the scan of
    [Table::get_record_scanner] and the insertions; the scanner is closed in every case. [n] bounds
    the number of records *)
Definition table_fill_index (n : nat) (id : Z) (trx : option (Row → ReadWriteMode → RC)) (new_index : I) : M (Table B L I) ((RC + RC) * I) :=
  let* t := get in
  let* o := liftO (open_scan (Some (storage_format_ (record_handler_ t))) id trx READ_ONLY None (fresh_scanner (rf_pool (record_handler_ t)) (rf_log (record_handler_ t)))) in
  let* r := liftO (if OB_FAIL o.1 then Some ((inr o.1, o.2), new_index) else fill_index n o.2 new_index) in
  let* c := liftO (close_scan r.1.2) in
  modify (λ t, mkTable (set_rf_log (sc_log c.2) (set_rf_pool (sc_pool c.2) (record_handler_ t))) (indexes_ t)) ;;;
  ret (r.1.1, r.2).

(** the deletion [delete_operator] and [MvccTrx::rollback] ask for, and the other calls, as one type *)
Inductive TableOp :=
| TInsert (data : list Z) | TDelete (rid : RID) | TGet (rid : RID) | TVisit (rid : RID) (visitor : list Z → bool * list Z).
Definition table_step (op : TableOp) : M (Table B L I) (RC * option RID * option (list Z)) :=
  match op with
  | TInsert data => let* r := table_insert_record data in ret (r.1, r.2, None)
  | TDelete rid => let* rc := table_delete_record rid in ret (rc, None, None)
  | TGet rid => let* r := table_get_record rid in ret (r.1, None, r.2)
  | TVisit rid visitor => let* rc := table_visit_record rid visitor in ret (rc, None, None)
  end.
Fixpoint table_run (ops : list TableOp) : M (Table B L I) (list (RC * option RID * option (list Z))) :=
  match ops with
  | [] => ret []
  | op :: ops => let* r := table_step op in let* rs := table_run ops in ret (r :: rs)
  end.
End table.

(** ** Creating an index *)

(** [IndexMeta], by the names of the index and of its field *)
Record IndexMeta := mkIndexMeta { index_meta_name_ : list Ascii.ascii; index_meta_field_ : list Ascii.ascii }.
(** [IndexMeta::init] *)
Definition index_meta_init (name field : list Ascii.ascii) : RC * option IndexMeta :=
  if is_blank name then (INVALID_ARGUMENT, None) else (SUCCESS, Some (mkIndexMeta name field)).

(** what the file system answers while the metadata of a table is replaced: whether the temporary
    file is open, the bytes that [serialize] has written, and the answer of [rename] *)
Record MetaFiles := mkMetaFiles { tmp_is_open : bool; serialize_answer : Z; rename_answer : Z }.
Definition write_table_meta (f : MetaFiles) : RC :=
  if negb (tmp_is_open f) then IOERR_OPEN
  else if serialize_answer f <? 0 then IOERR_WRITE
  else if negb (rename_answer f =? 0) then IOERR_WRITE
  else SUCCESS.
(** [TableMeta::add_index] on the indexes of the metadata *)
Definition add_index (m : IndexMeta) (metas : list IndexMeta) : RC * list IndexMeta := (SUCCESS, metas ++ [m]).

(** a table with the indexes of [table_meta_] *)
Record MetaTable (B L I : Type) := mkMetaTable { the_table : Table B L I; table_meta_ : list IndexMeta }.
Arguments mkMetaTable {B L I} _ _.
Arguments the_table {B L I} _.
Arguments table_meta_ {B L I} _.

Section create_index.
Context {B L I K : Type} `{RecordPool B} `{LogHandler L} `{TableIndex I K}.

Definition on_table {A} (op : M (Table B L I) A) : M (MetaTable B L I) A := λ mt,
  match op (the_table mt) with Some (a, t) => Some (a, mkMetaTable t (table_meta_ mt)) | None => None end.

(** [Table::create_index] by the transaction [trx]. [None] is a null pointer as the name or as
    the field; [created] is what [BplusTreeIndex::create] answers and the empty index it has
    made. The index is a member of [indexes_] before the metadata is written, and stays one when
    that fails *)
Definition table_create_index (n : nat) (id : Z) (trx : option (Row → ReadWriteMode → RC)) (index_name field_meta : option (list Ascii.ascii))
    (created : RC * I) (files : MetaFiles) : M (MetaTable B L I) RC :=
  match index_name, field_meta with
  | Some name, Some field =>
      if is_blank name then ret INVALID_ARGUMENT
      else match index_meta_init name field with
      | (rc, None) => ret rc
      | (rc, Some new_index_meta) =>
          if OB_FAIL rc then ret rc
          else if OB_FAIL created.1 then ret created.1
          else
            let* r := on_table (table_fill_index n id trx created.2) in
            match r.1 with
            | inl RECORD_EOF =>
                on_table (modify (λ t, mkTable (record_handler_ t) (indexes_ t ++ [r.2]))) ;;;
                let* mt := get in
                let new_table_meta := add_index new_index_meta (table_meta_ mt) in
                if OB_FAIL new_table_meta.1 then ret new_table_meta.1
                else
                  let rc := write_table_meta files in
                  if OB_FAIL rc then ret rc
                  else modify (λ mt, mkMetaTable (the_table mt) new_table_meta.2) ;;; ret SUCCESS
            | inl rc | inr rc => ret rc
            end
      end
  | _, _ => ret INVALID_ARGUMENT
  end.
End create_index.
