(* ===== verification/TableSpec.v ===== *)
(** * TableSpec: the rows of a table and its indexes stay in step

    [table_rel] relates a table to the map of its rows: the file holds the rows, and every
    index holds exactly the pairs of a row's key and its [RID]. Every operation keeps it,
    also when an index refuses a row and the insertion is taken back. *)
From S2P Require Import Prelude Types Bitmap Encoding LogHandler RecordPageHandler RecordPageSpec RecordPool RecordFile RecordFileSpec RecordScan RecordScanSpec RecordFileTheorems Table.

(** the entries of an index whose key is [key] on the rows [m] *)
Definition entries {K} `{Countable K} (key : list Z → K) (m : gmap RID (list Z)) : gset (K * RID) :=
  list_to_set (map (λ p : RID * list Z, (key p.2, p.1)) (map_to_list m)).

Section entries.
Context {K : Type} `{Countable K}.
Implicit Types (key : list Z → K) (m : gmap RID (list Z)).

Lemma elem_of_entries key m k rid : (k, rid) ∈ entries key m ↔ ∃ r, m !! rid = Some r ∧ key r = k.
Proof.
  unfold entries. rewrite elem_of_list_to_set, list_elem_of_fmap. split.
  - intros ([rid' r] & [= -> ->] & Hr%elem_of_map_to_list). eauto.
  - intros (r & Hr & <-). exists (rid, r). split; [done|]. by apply elem_of_map_to_list.
Qed.
Lemma entries_insert key m rid r : m !! rid = None → entries key (<[rid := r]> m) = {[(key r, rid)]} ∪ entries key m.
Proof.
  intros Hn. apply leibniz_equiv. intros [k rid']. rewrite elem_of_union, elem_of_singleton, !elem_of_entries. split.
  - intros (r' & [[<- <-]|[? ?]]%lookup_insert_Some & Hk); [left; congruence|right; eauto].
  - intros [[= -> ->]|(r' & Hr & Hk)]; [exists r; by rewrite lookup_insert_eq|]. exists r'. rewrite lookup_insert_ne; [done|]. intros ->. congruence.
Qed.
Lemma entries_delete key m rid r : m !! rid = Some r → entries key (delete rid m) = entries key m ∖ {[(key r, rid)]}.
Proof.
  intros Hr. apply leibniz_equiv. intros [k rid']. rewrite elem_of_difference, elem_of_singleton, !elem_of_entries. split.
  - intros (r' & [? ?]%lookup_delete_Some & Hk). split; [eauto|]. intros [= _ ->]. done.
  - intros ((r' & Hr' & Hk) & Hne). exists r'. rewrite lookup_delete_Some. split; [|done]. split; [|done]. intros <-. apply Hne. congruence.
Qed.
Lemma entries_same key m rid r r' : m !! rid = Some r → key r' = key r → entries key (<[rid := r']> m) = entries key m.
Proof.
  intros Hr Hk. apply leibniz_equiv. intros [k rid']. rewrite !elem_of_entries. split.
  - intros (x & [[<- <-]|[? ?]]%lookup_insert_Some & Hx); [exists r; split; [done|congruence]|eauto].
  - intros (x & Hx & Hkx). destruct (decide (rid = rid')) as [<-|Hne]; [exists r'; rewrite lookup_insert_eq; split; [done|congruence]|]. exists x. by rewrite lookup_insert_ne.
Qed.
End entries.

(** ** What each answer of the file means *)

Section inversion.
Variables (cap : Z) (rs : nat).
Implicit Types (a : FileSpec) (r : FileRes).

Lemma spec_get rid a r a' : file_spec cap rs (FGet rid) a r a' → a' = a ∧
  match fs_rows a !! rid with Some x => r = mkFileRes SUCCESS None (Some x) | None => ∃ rc, rc ≠ SUCCESS ∧ r = mkFileRes rc None None end.
Proof.
  remember (FGet rid) as op eqn:Eop. intros Hs. destruct Hs as [| | | |rid0 a0 x Hx| | |op0 rid0 a0 rc Hop Hx Hrc| |]; simplify_eq; [by rewrite Hx|].
  destruct Hop as [?|[[= ->]|[? ?]]]; [done| |done]. rewrite Hx. eauto.
Qed.
Lemma spec_visit rid v a r a' : file_spec cap rs (FVisit rid v) a r a' →
  match fs_rows a !! rid with
  | Some x => r = mkFileRes SUCCESS None None ∧ a' = with_rows a (if (v x).1 then <[rid := take rs (v x).2]> (fs_rows a) else fs_rows a)
  | None => a' = a ∧ ∃ rc, rc ≠ SUCCESS ∧ r = mkFileRes rc None None
  end.
Proof.
  remember (FVisit rid v) as op eqn:Eop. intros Hs. destruct Hs as [| | | | |rid0 v0 a0 x Hx| |op0 rid0 a0 rc Hop Hx Hrc| |]; simplify_eq; [by rewrite Hx|].
  destruct Hop as [?|[?|[v' [= -> ->]]]]; [done|done|]. rewrite Hx. eauto.
Qed.
Lemma spec_delete rid a r a' : file_spec cap rs (FDelete rid) a r a' →
  match fs_rows a !! rid with
  | Some _ => r = mkFileRes SUCCESS None None ∧ a' = with_rows a (delete rid (fs_rows a))
  | None => a' = a ∧ ∃ rc, rc ≠ SUCCESS ∧ r = mkFileRes rc None None
  end.
Proof.
  remember (FDelete rid) as op eqn:Eop. intros Hs. destruct Hs as [| | |rid0 a0 x Hx| | | |op0 rid0 a0 rc Hop Hx Hrc| |]; simplify_eq; [by rewrite Hx|].
  destruct Hop as [[= ->]|[?|[? ?]]]; [|done|done]. rewrite Hx. eauto.
Qed.
Lemma spec_insert src a r a' : file_spec cap rs (FInsert src) a r a' →
  (∃ rid, r = mkFileRes SUCCESS (Some rid) None ∧ fs_rows a !! rid = None ∧ fs_rows a' = <[rid := take rs src]> (fs_rows a)) ∨
  (∃ rc, rc ≠ SUCCESS ∧ r = mkFileRes rc None None ∧ fs_rows a' = fs_rows a).
Proof.
  remember (FInsert src) as op eqn:Eop. intros Hs. destruct Hs as [src0 a0 rid| |src0 a0 rc| | | | |op0 rid0 a0 rc Hop Hx Hrc| |]; simplify_eq; [left; by eexists|left; by eexists|right; by eexists|].
  destruct Hop as [?|[?|[? ?]]]; done.
Qed.
End inversion.

(** ** The abstract table *)

(** what an operation may answer and leave on the rows [m] *)
Inductive table_spec : TableOp → gmap RID (list Z) → RC * option RID * option (list Z) → gmap RID (list Z) → Prop :=
| TSInsert data m rid : m !! rid = None → table_spec (TInsert data) m (SUCCESS, Some rid, None) (<[rid := data]> m)
| TSInsertFail data m rc o : rc ≠ SUCCESS → table_spec (TInsert data) m (rc, o, None) m
| TSDelete rid m r : m !! rid = Some r → table_spec (TDelete rid) m (SUCCESS, None, None) (delete rid m)
| TSGet rid m r : m !! rid = Some r → table_spec (TGet rid) m (SUCCESS, None, Some r) m
| TSVisit rid visitor m r : m !! rid = Some r →
    table_spec (TVisit rid visitor) m (SUCCESS, None, None) (if (visitor r).1 then <[rid := (visitor r).2]> m else m)
| TSNone op rid m rc : op = TDelete rid ∨ op = TGet rid ∨ (∃ visitor, op = TVisit rid visitor) → m !! rid = None → rc ≠ SUCCESS → table_spec op m (rc, None, None) m.
Inductive table_specs : list TableOp → gmap RID (list Z) → list (RC * option RID * option (list Z)) → gmap RID (list Z) → Prop :=
| TSNil m : table_specs [] m [] m
| TSCons op ops m r m1 res m2 : table_spec op m r m1 → table_specs ops m1 res m2 → table_specs (op :: ops) m (r :: res) m2.

(** the records of the schema, the identifiers of data pages, and visitors that leave the keys
    of the indexes alone (the transactions visit a record to change its hidden fields) *)
Definition top_ok {K} (row_good : list Z → Prop) (keys : list (list Z → K)) (cap : Z) (op : TableOp) : Prop :=
  match op with
  | TInsert data => row_good data
  | TDelete rid => 1 ≤ page_num rid ∧ 0 ≤ slot_num rid < cap
  | TGet rid => 1 ≤ page_num rid ∧ 0 ≤ slot_num rid
  | TVisit rid visitor => 1 ≤ page_num rid ∧ 0 ≤ slot_num rid ∧ (∀ r, len (visitor r).2 = len r) ∧
      ∀ r, row_good r → row_good (visitor r).2 ∧ Forall (λ key, key (visitor r).2 = key r) keys
  end.

Section spec.
Context {B L I K : Type} `{PL : RecordPoolLaws B} `{LT : LogTotal L} `{IL : TableIndexLaws I K}.
Variables (begin : gset PageNum → PageNum) (uninit id rs : Z) (hd : PageHeader).
Hypothesis begin_elem : ∀ X, X ≠ ∅ → begin X ∈ X.
Hypothesis rs_pos : 1 ≤ rs.
Hypothesis hd_fresh : fix_record_capacity (fresh_header rs 0) = Some hd.
Hypothesis cap_pos : 0 < record_capacity hd.
(** the records of the schema *)
Variable row_good : list Z → Prop.
Hypothesis row_good_len : ∀ r, row_good r → len r = rs.
Implicit Types (t : Table B L I) (i : I) (m : gmap RID (list Z)).

(** an index in step with the rows [m] *)
Definition in_step (n : nat) m i : Prop := index_holds n (entries (index_key i) m) i ∧ ∀ r, row_good r → index_row i r.
Record table_rel (n : nat) (keys : list (list Z → K)) t (a : FileSpec) : Prop := {
  tr_file : file_rel id hd (record_handler_ t) a;
  tr_indexes : Forall (in_step n (fs_rows a)) (indexes_ t);
  tr_keys : index_key <$> indexes_ t = keys;
  tr_good : map_Forall (λ _ r, row_good r) (fs_rows a);
}.

Lemma holds_weaken n k X i : index_holds (k + n) X i → index_holds n X i.
Proof. induction k as [|k IH]; [done|]. intros Hh. apply IH. by apply index_holds_weaken. Qed.
Lemma in_step_weaken n k m i : in_step (k + n) m i → in_step n m i.
Proof. intros [Hh Hr]. split; [|done]. by apply (holds_weaken n k). Qed.
Lemma steps_weaken n k m l : Forall (in_step (k + n) m) l → Forall (in_step n m) l.
Proof. intros Hl. eapply Forall_impl; [exact Hl|]. intros i. apply in_step_weaken. Qed.

(** the identifiers of the rows are slots of data pages, and fit their fields *)
Lemma rel_rid_ok (s : RFile B L) a rid r : file_rel id hd s a → fs_rows a !! rid = Some r → rid_ok rid ∧ 1 ≤ page_num rid ∧ 0 ≤ slot_num rid < record_capacity hd.
Proof.
  intros Hrel Hr. rewrite (fl_rows _ _ _ _ Hrel) in Hr. unfold row_at in Hr. case_decide as Hp1; [|done]. destruct (pool_frame id (page_num rid) (rf_pool s)) as [f|] eqn:Hf; [|done]. cbn in Hr.
  destruct (fl_page _ _ _ _ Hrel _ f Hp1 Hf) as [Hok Hlay]. destruct (contents_range _ _ _ Hok Hr) as [Hs _]. pose proof (pool_frame_bound _ _ _ _ Hf) as Hb. destruct (layout_facts rs hd rs_pos hd_fresh cap_pos f Hlay) as [Hcap Hrs]. rewrite <-Hcap. split; [|done]. split; [lia|].
  destruct (slot_bounds f (slot_num rid) Hok Hs) as [Hs2 Hs3]. rewrite (po_data _ Hok) in Hs3. assert (BP_PAGE_DATA_SIZE < 2 ^ 31) by done.
  pose proof (po_real _ Hok). destruct (slot_bounds f 0 Hok ltac:(lia)) as [Hs4 _]. unfold get_record_data in *. nia.
Qed.

(** *** The indexes *)

Lemma insert_all_ok n m rec rid : ∀ l, Forall (in_step (S n) m) l → m !! rid = None → row_good rec → rid_ok rid →
  ∃ rc l', insert_entry_of_indexes rec rid l = Some (rc, l') ∧ (index_key <$> l' = index_key <$> l) ∧
    ((rc = SUCCESS ∧ Forall (in_step n (<[rid := rec]> m)) l') ∨
     (rc ≠ SUCCESS ∧ ∃ l1 l2, l' = l1 ++ l2 ∧ l2 ≠ [] ∧ Forall (in_step n (<[rid := rec]> m)) l1 ∧ Forall (in_step n m) l2)).
Proof.
  induction l as [|i l IH]; intros Hl Hm Hrec Hrid; [exists SUCCESS, []; split; [done|]; split; [done|]; by left|].
  apply Forall_cons in Hl as [[Hi Hrow] Hl]. cbn [insert_entry_of_indexes].
  destruct (index_insert_ok n _ i rec rid Hi (Hrow rec Hrec) Hrid) as (rc & i' & E & Hk & Hr & Hcase). rewrite E.
  destruct Hcase as [(-> & _ & Hi')|[Hrc Hi']].
  - rewrite bool_decide_eq_true_2 by done. destruct (IH Hl Hm Hrec Hrid) as (rc2 & l' & E2 & Hks & Hcase). rewrite E2. cbn [mbind option_bind].
    exists rc2, (i' :: l'). split; [done|]. split; [cbn; by rewrite Hk, Hks|].
    assert (Hin : in_step n (<[rid := rec]> m) i') by (split; [by rewrite Hk, entries_insert|by rewrite Hr]).
    destruct Hcase as [[-> Hl']|(Hrc2 & l1 & l2 & -> & Hne & Hl1 & Hl2)]; [left; split; [done|by constructor]|]. right. split; [done|]. exists (i' :: l1), l2. split; [done|]. split; [done|]. split; [by constructor|done].
  - rewrite bool_decide_eq_false_2 by done. exists rc, (i' :: l). split; [done|]. split; [cbn; by rewrite Hk|]. right. split; [done|]. exists [], (i' :: l). split; [done|]. split; [done|]. split; [constructor|].
    constructor; [split; [by rewrite Hk|by rewrite Hr]|]. by apply (steps_weaken n 1).
Qed.

(** the entries made before the failure are taken back; the index that refused the row has none *)
Lemma take_back_ok n m rec rid l2 : m !! rid = None → row_good rec → rid_ok rid → l2 ≠ [] → Forall (in_step (S n) m) l2 → ∀ l1, Forall (in_step (S n) (<[rid := rec]> m)) l1 →
  ∃ rc l', delete_entry_of_indexes rec rid false (l1 ++ l2) = Some (rc, l') ∧ (index_key <$> l' = index_key <$> (l1 ++ l2)) ∧ Forall (in_step n m) l'.
Proof.
  intros Hm Hrec Hrid Hne Hl2. induction l1 as [|i l1 IH]; intros Hl1.
  - destruct l2 as [|i l2]; [done|]. apply Forall_cons in Hl2 as [[Hi Hrow] Hl2]. cbn [app delete_entry_of_indexes].
    destruct (index_delete_ok n _ i rec rid Hi (Hrow rec Hrec) Hrid) as (rc & i' & E & Hk & Hr & Hi' & Hrc). rewrite E.
    rewrite (bool_decide_eq_false_2 (rc = SUCCESS)) by (intros (r & Hr' & _)%Hrc%elem_of_entries; congruence). cbn [negb andb orb]. rewrite orb_true_r.
    exists rc, (i' :: l2). split; [done|]. split; [cbn; by rewrite Hk|]. constructor; [|by apply (steps_weaken n 1)]. split; [|by rewrite Hr]. rewrite Hk.
    replace (entries (index_key i) m) with (entries (index_key i) m ∖ {[(index_key i rec, rid)]}); [done|]. apply leibniz_equiv, difference_disjoint. intros [k r0] (r & Hr' & _)%elem_of_entries [= _ ->]%elem_of_singleton. congruence.
  - apply Forall_cons in Hl1 as [[Hi Hrow] Hl1]. cbn [app delete_entry_of_indexes].
    destruct (index_delete_ok n _ i rec rid Hi (Hrow rec Hrec) Hrid) as (rc & i' & E & Hk & Hr & Hi' & Hrc). rewrite E.
    assert (rc = SUCCESS) as -> by (apply Hrc, elem_of_entries; exists rec; by rewrite lookup_insert_eq). cbn [negb andb].
    destruct (IH Hl1) as (rc2 & l' & E2 & Hks & Hl'). rewrite bool_decide_eq_true_2 by done. cbn [negb andb].
    destruct (l1 ++ l2) as [|x l3] eqn:El; [by apply app_nil in El as [_ ->]|]. rewrite <-El in *. rewrite E2. cbn [mbind option_bind].
    exists rc2, (i' :: l'). split; [done|]. split; [cbn; by rewrite Hk, Hks|]. constructor; [|done]. split; [|by rewrite Hr]. rewrite Hk.
    replace (entries (index_key i) m) with (entries (index_key i) (<[rid := rec]> m) ∖ {[(index_key i rec, rid)]}); [done|].
    rewrite <-(entries_delete _ _ _ rec) by apply lookup_insert_eq. by rewrite delete_insert_id.
Qed.

(** a deletion finds the row in every index *)
Lemma delete_all_ok n m rec rid : ∀ l, Forall (in_step (S n) m) l → m !! rid = Some rec → row_good rec → rid_ok rid →
  ∃ l', delete_from_indexes rec rid l = Some (tt, l') ∧ (index_key <$> l' = index_key <$> l) ∧ Forall (in_step n (delete rid m)) l'.
Proof.
  induction l as [|i l IH]; intros Hl Hm Hrec Hrid; [by exists []|]. apply Forall_cons in Hl as [[Hi Hrow] Hl]. cbn [delete_from_indexes].
  destruct (index_delete_ok n _ i rec rid Hi (Hrow rec Hrec) Hrid) as (rc & i' & E & Hk & Hr & Hi' & Hrc). rewrite E. cbn [mbind option_bind].
  assert (rc = SUCCESS) as -> by (apply Hrc, elem_of_entries; eauto). rewrite bool_decide_eq_true_2 by done.
  destruct (IH Hl Hm Hrec Hrid) as (l' & E2 & Hks & Hl'). rewrite E2. exists (i' :: l'). split; [done|]. split; [cbn; by rewrite Hk, Hks|]. constructor; [|done].
  split; [by rewrite Hk, (entries_delete _ _ _ rec)|by rewrite Hr].
Qed.

(** *** The operations *)

Abbreviation step := (file_step_ok begin uninit id rs hd begin_elem rs_pos hd_fresh cap_pos).
Abbreviation cap := (record_capacity hd).

Lemma on_file_eq {A} (op : M (RFile B L) A) t x s : op (record_handler_ t) = Some (x, s) → on_file op t = Some (x, mkTable s (indexes_ t)).
Proof. unfold on_file. by intros ->. Qed.
Lemma on_indexes_eq {A} (op : M (list I) A) t x l : op (indexes_ t) = Some (x, l) → on_indexes op t = Some (x, mkTable (record_handler_ t) l).
Proof. unfold on_indexes. by intros ->. Qed.
(** a call of the file handler, out of the step that wraps it *)
Lemma file_call {A C} (op : M (RFile B L) A) (g : A → C) s r s' : bind op (λ x, ret (g x)) s = Some (r, s') → ∃ x, op s = Some (x, s') ∧ r = g x.
Proof. intros (x & s1 & E & [= <- <-])%bind_Some. eauto. Qed.

Lemma t_get_ok n keys t a rid : table_rel n keys t a → 1 ≤ page_num rid → 0 ≤ slot_num rid →
  ∃ rc t', table_get_record rid t = Some ((rc, fs_rows a !! rid), t') ∧ table_rel n keys t' a ∧ (rc = SUCCESS ↔ is_Some (fs_rows a !! rid)).
Proof.
  intros [Hf Hi Hk Hg] Hp Hs. destruct (step (FGet rid) _ a Hf (conj Hp Hs)) as (r & s' & a' & E & Hrel & [-> Hr]%spec_get).
  apply (file_call _ (λ x, mkFileRes x.1 None x.2)) in E as ([rc o] & E & ->). unfold table_get_record. rewrite (on_file_eq _ t _ _ E). exists rc, (mkTable s' (indexes_ t)).
  destruct (fs_rows a !! rid) as [x|]; [injection Hr as -> ->|destruct Hr as (rc' & Hrc & [= -> ->])]; (split; [done|]); (split; [by constructor|]); [by split; eauto|split; [done|by intros []]].
Qed.

(** what the steps answer, as the abstract table sees it *)
Definition t_ok (n : nat) keys (op : TableOp) t a : Prop :=
  ∃ r t' a', table_step begin uninit rs op t = Some (r, t') ∧ table_rel n keys t' a' ∧ table_spec op (fs_rows a) r (fs_rows a').

Lemma take_good r : row_good r → take (Z.to_nat rs) r = r.
Proof. intros Hr%row_good_len. apply take_ge. unfold len in Hr. lia. Qed.
Lemma in_step_rows n m m' l : (∀ i, i ∈ l → entries (index_key i) m' = entries (index_key i) m) → Forall (in_step n m) l → Forall (in_step n m') l.
Proof. rewrite !Forall_forall. intros E Hl i Hi. destruct (Hl i Hi) as [Hh Hr]. split; [by rewrite E|done]. Qed.

Lemma t_visit_ok n keys t a rid visitor : table_rel n keys t a → top_ok row_good keys cap (TVisit rid visitor) → t_ok n keys (TVisit rid visitor) t a.
Proof.
  intros [Hf Hi Hk Hg] (Hp & Hs & Hlen & Hv).
  destruct (step (FVisit rid visitor) _ a Hf) as (r & s' & a' & E & Hrel & Hr%spec_visit); [split; [done|]; split; [done|]; intros r ?; rewrite Hlen; lia|].
  apply (file_call _ (λ x, mkFileRes x None None)) in E as (rc & E & ->). unfold t_ok. cbn [table_step]. unfold table_visit_record. rewrite (bind_eq _ _ _ _ _ (on_file_eq _ t _ _ E)).
  exists (rc, None, None), (mkTable s' (indexes_ t)), a'. split; [done|]. destruct (fs_rows a !! rid) as [x|] eqn:Ex.
  2:{ destruct Hr as (-> & rc' & Hrc & [= ->]). split; [by constructor|]. apply (TSNone _ rid); [by do 2 right; eexists|done|done]. }
  destruct Hr as [[= ->] ->]. destruct (Hv x (Hg rid x Ex)) as [Hgood Hkeys]. split; [|destruct (visitor x) as [b y] eqn:Ev; cbn [fst snd] in *; replace (fs_rows (with_rows a (if b then _ else _))) with (if (visitor x).1 then <[rid := (visitor x).2]> (fs_rows a) else fs_rows a); [by apply TSVisit|rewrite Ev; cbn; destruct b; [by rewrite take_good|done]]].
  destruct (visitor x).1; [|by destruct a; constructor]. rewrite (take_good _ Hgood) in *. constructor; cbn [record_handler_ indexes_ fs_rows with_rows]; [done| |done|by apply map_Forall_insert_2].
  apply (in_step_rows n (fs_rows a)); [|done]. intros i Hin. apply (entries_same _ _ _ x); [done|]. rewrite <-Hk in Hkeys. rewrite Forall_fmap, Forall_forall in Hkeys. by apply Hkeys.
Qed.

Lemma t_delete_ok n keys t a rid : table_rel (S n) keys t a → top_ok row_good keys cap (TDelete rid) → t_ok n keys (TDelete rid) t a.
Proof.
  intros Hrel [Hp Hs]. destruct (t_get_ok _ keys t a rid Hrel Hp ltac:(lia)) as (rc & t1 & E1 & [Hf Hi Hk Hg] & Hrc).
  unfold t_ok. cbn [table_step]. unfold table_delete_record. rewrite bind_assoc, (bind_eq _ _ _ _ _ E1). cbn [fst snd].
  destruct (fs_rows a !! rid) as [x|] eqn:Ex.
  2:{ replace (OB_FAIL rc) with true by (destruct rc; try done; by destruct (proj1 Hrc eq_refl)). rewrite bind_ret. do 3 eexists. split; [done|]. split; [constructor; [done|by apply (steps_weaken n 1)|done|done]|].
      apply (TSNone _ rid); [by left|done|]. intros ->. by destruct (proj1 Hrc eq_refl). }
  rewrite (proj2 Hrc) by eauto. change (OB_FAIL SUCCESS) with false. cbv iota. rewrite bind_assoc. cbn [liftO]. rewrite (bind_liftO _ _ _ _ eq_refl). unfold table_delete_the_record. rewrite bind_assoc.
  destruct (rel_rid_ok _ _ _ _ Hf Ex) as (Hrid & _). destruct (delete_all_ok n _ x rid _ Hi Ex (Hg _ _ Ex) Hrid) as (l' & E2 & Hks & Hl').
  rewrite (bind_eq _ _ _ _ _ (on_indexes_eq _ t1 _ _ E2)).
  destruct (step (FDelete rid) _ a Hf (conj Hp Hs)) as (r & s' & a' & E & Hrel' & Hr%spec_delete). rewrite Ex in Hr. destruct Hr as [Hr ->].
  apply (file_call _ (λ x, mkFileRes x None None)) in E as (rc' & E & ->). injection Hr as ->. rewrite (bind_eq _ _ _ _ _ (on_file_eq _ (mkTable (record_handler_ t1) l') _ _ E)).
  exists (SUCCESS, None, None), (mkTable s' l'), (with_rows a (delete rid (fs_rows a))). split; [done|]. split; [|by apply (TSDelete _ _ x)]. constructor; cbn [record_handler_ indexes_ fs_rows with_rows]; [done|done|by rewrite Hks|by apply map_Forall_delete].
Qed.

(** the record in the file goes into the indexes, or is taken back *)
Lemma into_indexes_ok n keys s l a a1 data rid : Forall (in_step (2 + n) (fs_rows a)) l → index_key <$> l = keys → map_Forall (λ _ r, row_good r) (fs_rows a) →
  file_rel id hd s a1 → fs_rows a !! rid = None → fs_rows a1 = <[rid := data]> (fs_rows a) → row_good data →
  ∃ rc t' a', insert_into_indexes uninit data rid (mkTable s l) = Some (rc, t') ∧ table_rel n keys t' a' ∧
    ((rc = SUCCESS ∧ fs_rows a' = <[rid := data]> (fs_rows a)) ∨ (rc ≠ SUCCESS ∧ fs_rows a' = fs_rows a)).
Proof.
  intros Hi Hk Hg Hf Hnone Hrows Hdata. assert (Hin : fs_rows a1 !! rid = Some data) by (by rewrite Hrows, lookup_insert_eq).
  destruct (rel_rid_ok _ _ _ _ Hf Hin) as (Hrid & Hp & Hs). unfold insert_into_indexes.
  destruct (insert_all_ok (S n) (fs_rows a) data rid l Hi Hnone Hdata Hrid) as (rc & l1 & E1 & Hks & Hcase). rewrite (bind_eq _ _ _ _ _ (on_indexes_eq _ (mkTable s l) _ _ E1)).
  destruct Hcase as [[-> Hl1]|(Hrc & la & lb & -> & Hne & Hla & Hlb)].
  - rewrite bool_decide_eq_true_2 by done. cbn [negb]. rewrite bind_ret. exists SUCCESS, (mkTable s l1), a1. split; [done|]. split; [|by left].
    constructor; cbn [record_handler_ indexes_]; [done|rewrite Hrows; by apply (steps_weaken n 1)|by rewrite Hks|rewrite Hrows; by apply map_Forall_insert_2].
  - rewrite bool_decide_eq_false_2 by done. cbn [negb]. rewrite bind_assoc.
    destruct (take_back_ok n (fs_rows a) data rid lb Hnone Hdata Hrid Hne Hlb la Hla) as (rc2 & l2 & E2 & Hks2 & Hl2). rewrite (bind_eq _ _ _ _ _ (on_indexes_eq _ (mkTable s (la ++ lb)) _ _ E2)), bind_assoc.
    destruct (step (FDelete rid) s a1 Hf (conj Hp Hs)) as (r & s' & a' & E & Hrel' & Hr%spec_delete). rewrite Hin in Hr. destruct Hr as [Hr ->].
    apply (file_call _ (λ x, mkFileRes x None None)) in E as (rc' & E & ->). rewrite (bind_eq _ _ _ _ _ (on_file_eq _ (mkTable s l2) _ _ E)), bind_ret.
    exists rc, (mkTable s' l2), (with_rows a1 (delete rid (fs_rows a1))). split; [done|]. assert (Ed : delete rid (fs_rows a1) = fs_rows a) by (by rewrite Hrows, delete_insert_id).
    split; [|right; by split]. constructor; cbn [record_handler_ indexes_ fs_rows with_rows]; [done|by rewrite Ed|by rewrite Hks2, Hks|by rewrite Ed].
Qed.

Lemma t_insert_ok n keys t a data : table_rel (2 + n) keys t a → top_ok row_good keys cap (TInsert data) → t_ok n keys (TInsert data) t a.
Proof.
  intros [Hf Hi Hk Hg] Hdata. cbn [top_ok] in Hdata. destruct (step (FInsert data) _ a Hf) as (r & s' & a1 & E & Hrel & Hr%spec_insert); [cbn; rewrite (row_good_len _ Hdata); lia|].
  apply (file_call _ (λ x, mkFileRes x.1 x.2 None)) in E as ([rc o] & E & ->). unfold t_ok. cbn [table_step]. unfold table_insert_record. rewrite bind_assoc, (bind_eq _ _ _ _ _ (on_file_eq _ t _ _ E)). cbn [fst snd] in *.
  destruct Hr as [(rid & [= -> ->] & Hnone & Hrows)|(rc' & Hrc & [= -> ->] & Hrows)].
  - rewrite bool_decide_eq_true_2 by done. cbn [negb]. rewrite bind_assoc, (bind_liftO _ _ _ _ eq_refl), bind_assoc. rewrite (take_good _ Hdata) in Hrows.
    destruct (into_indexes_ok n keys s' (indexes_ t) a a1 data rid Hi Hk Hg Hrel Hnone Hrows Hdata) as (rc & t' & a' & E2 & Hrel' & Hcase). rewrite (bind_eq _ _ _ _ _ E2).
    exists (rc, Some rid, None), t', a'. split; [done|]. split; [done|]. destruct Hcase as [[-> ->]|[Hrc ->]]; [by apply TSInsert|by apply TSInsertFail].
  - rewrite bool_decide_eq_false_2 by done. cbn [negb]. rewrite bind_ret. exists (rc', None, None), (mkTable s' (indexes_ t)), a1. split; [done|]. split; [|rewrite Hrows; by apply TSInsertFail].
    constructor; cbn [record_handler_ indexes_]; rewrite ?Hrows; [done|by apply (steps_weaken n 2)|done|done].
Qed.

Lemma table_step_ok n keys t a op : table_rel (2 + n) keys t a → top_ok row_good keys cap op → t_ok n keys op t a.
Proof.
  intros Hrel Hop. assert (Hw : ∀ k, table_rel (k + n) keys t a → table_rel n keys t a) by (intros k [? ? ? ?]; constructor; [done|by apply (steps_weaken n k)|done|done]).
  destruct op as [data|rid|rid|rid visitor]; [by apply t_insert_ok| | |by apply t_visit_ok; [apply (Hw 2%nat)|]].
  - apply t_delete_ok; [|done]. destruct Hrel as [? ? ? ?]. constructor; [done|by apply (steps_weaken (S n) 1)|done|done].
  - apply (Hw 2%nat) in Hrel. destruct Hop as [Hp Hs]. destruct (t_get_ok n keys t a rid Hrel Hp Hs) as (rc & t' & E & Hrel' & Hrc). unfold t_ok. cbn [table_step]. rewrite (bind_eq _ _ _ _ _ E). cbn [fst snd].
    do 3 eexists. split; [done|]. split; [exact Hrel'|]. destruct (fs_rows a !! rid) as [x|] eqn:Ex; [rewrite (proj2 Hrc) by eauto; by apply TSGet|]. apply (TSNone _ rid); [by right; left|done|]. intros ->. by destruct (proj1 Hrc eq_refl).
Qed.
Lemma table_run_ok keys ops : ∀ n t a, table_rel (2 * length ops + n) keys t a → Forall (top_ok row_good keys cap) ops →
  ∃ res t' a', table_run begin uninit rs ops t = Some (res, t') ∧ table_rel n keys t' a' ∧ table_specs ops (fs_rows a) res (fs_rows a').
Proof.
  induction ops as [|op ops IH]; intros n t a Hrel Hops; [do 3 eexists; split; [done|]; split; [done|constructor]|].
  apply Forall_cons in Hops as [Hop Hops]. replace (2 * length (op :: ops) + n)%nat with (2 + (2 * length ops + n))%nat in Hrel by (cbn; lia).
  destruct (table_step_ok _ keys t a op Hrel Hop) as (r & t1 & a1 & E & Hrel1 & Hspec). destruct (IH n t1 a1 Hrel1 Hops) as (res & t2 & a2 & E2 & Hrel2 & Hspecs).
  exists (r :: res), t2, a2. cbn [table_run]. rewrite (bind_eq _ _ _ _ _ E), (bind_eq _ _ _ _ _ E2). split; [done|]. split; [done|]. by econstructor.
Qed.

(** the loop of [Table::delete_record] fails its assertion at an index without the entry *)
Lemma delete_missing n m record rid x X l : Forall (in_step (S n) m) l → m !! rid = Some record → row_good record → rid_ok rid →
  index_holds (S n) X x → index_row x record → (index_key x record, rid) ∉ X → delete_from_indexes record rid (l ++ [x]) = None.
Proof.
  intros Hl Hr Hg Hrid Hx Hrow Hni. induction l as [|i l IH]; cbn [app delete_from_indexes].
  - destruct (index_delete_ok n X x record rid Hx Hrow Hrid) as (rc & x' & -> & _ & _ & _ & Hrc). cbn.
    rewrite bool_decide_eq_false_2; [done|]. intros ->. by apply Hni, Hrc.
  - apply Forall_cons in Hl as [[Hi Hir] Hl]. destruct (index_delete_ok n _ i record rid Hi (Hir _ Hg) Hrid) as (rc & i' & -> & _). cbn.
    case_bool_decide; [|done]. by rewrite IH.
Qed.

(** *** A new index *)

Section new_index.
Variable trx : option (Row → ReadWriteMode → RC).
Hypothesis trx_codes : ∀ r, visit trx READ_ONLY r ≠ RECORD_EOF.
Abbreviation sopen := (λ (b0 : B) (log0 : L), scan_open id b0 log0 None trx READ_ONLY).
Abbreviation scanned := (scan_spec None trx READ_ONLY).
Abbreviation keyed key := (λ row : Row, (key row.2, row.1)).

(** without a filter, [next] answers the next row the transaction sees, or ends *)
Lemma scan_next_row (b : B) (l0 : L) sc ob (l : list Row) : file_pages_ok id hd b → sopen b l0 sc ob → at_rows id b sc ob l →
  ∃ ob' sc', sopen b l0 sc' ob' ∧
  let rows := l ++ later id b sc in
  ((scan_next sc = Some ((scanned rows).2, None, sc') ∧ (scanned rows).1 = [] ∧ (scanned rows).2 ≠ SUCCESS) ∨
   ∃ row rest l', scan_next sc = Some ((SUCCESS, Some row), sc') ∧ at_rows id b sc' ob' l' ∧ rest = l' ++ later id b sc' ∧
     scanned rows = (row :: (scanned rest).1, (scanned rest).2) ∧ row ∈ rows ∧ rest ⊆ rows ∧ (length rest < length rows)%nat).
Proof.
  intros Hok Hopen Hat. unfold scan_next.
  destruct (fetch_next_ok id b l0 None trx READ_ONLY (λ pn f Hp Hf, proj1 (Hok pn f Hp Hf)) trx_codes sc ob l Hopen Hat) as (rc & sc' & E & ob' & Hopen' & Hcase).
  exists ob', sc'. split; [done|]. cbv zeta. rewrite (bind_eq _ _ _ _ _ E). rewrite scan_spec_fetch.
  destruct (fetch_spec None trx READ_ONLY (l ++ later id b sc)) as [[[rc' row] rest]|] eqn:Ef.
  - destruct Hcase as (-> & Hr & l' & Hat' & ->). destruct (fetch_spec_code _ _ _ _ _ _ _ Ef) as [_ Hin]. case_bool_decide as Hrc.
    + subst rc'. right. change (OB_FAIL SUCCESS) with false. cbv iota. rewrite bind_get, Hr. exists row, (l' ++ later id b sc'), l'.
      do 4 (split; [done|]). split; [done|]. split; [|by eapply fetch_spec_length]. by eapply fetch_spec_subset.
    + left. cbn [fst snd]. split; [|done]. unfold OB_FAIL. rewrite bool_decide_eq_true_2 by done. done.
  - left. by subst rc.
Qed.

Lemma fill_ok n (b : B) (l0 : L) k : file_pages_ok id hd b → ∀ sc ob (l : list Row) i X, sopen b l0 sc ob → at_rows id b sc ob l →
  (length (l ++ later id b sc) < k)%nat → index_holds (length (l ++ later id b sc) + n) X i →
  (∀ row, row ∈ l ++ later id b sc → index_row i row.2 ∧ rid_ok row.1) →
  let o := scanned (l ++ later id b sc) in
  ∃ r sc' ob' i', fill_index k sc i = Some ((r, sc'), i') ∧ sopen b l0 sc' ob' ∧ index_key i' = index_key i ∧ index_row i' = index_row i ∧
    ((r = inl o.2 ∧ o.2 ≠ SUCCESS ∧ index_holds n (list_to_set (keyed (index_key i) <$> o.1) ∪ X) i') ∨ (∃ rc, r = inr rc ∧ rc ≠ SUCCESS)).
Proof.
  intros Hok. induction k as [|k IH]; intros sc ob l i X Hopen Hat Hk Hi Hrows; [lia|]. cbv zeta. cbn [fill_index].
  destruct (scan_next_row b l0 sc ob l Hok Hopen Hat) as (ob1 & sc1 & Hopen1 & [(E & Ho & Hrc)|(row & rest & l1 & E & Hat1 & -> & -> & Hin & Hsub & Hlen)]); rewrite E.
  - exists (inl (scanned (l ++ later id b sc)).2), sc1, ob1, i. do 4 (split; [done|]). left. split; [done|]. split; [done|]. rewrite Ho. cbn.
    rewrite (left_id_L ∅ (∪)). by apply (holds_weaken n (length (l ++ later id b sc))).
  - destruct (Hrows row Hin) as [Hrow Hrid]. replace (length (l ++ later id b sc) + n)%nat with (S (length (l ++ later id b sc) - 1 + n)) in Hi by lia.
    destruct (index_insert_ok _ X i row.2 row.1 Hi Hrow Hrid) as (rc & i1 & E1 & Hkey & Hr & [(-> & _ & Hi1)|[Hrc _]]); rewrite E1.
    2:{ rewrite bool_decide_eq_false_2 by done. exists (inr rc), sc1, ob1, i1. do 4 (split; [done|]). right. eauto. }
    replace (length (l ++ later id b sc) - 1 + n)%nat with ((length (l ++ later id b sc) - 1 - length (l1 ++ later id b sc1)) + (length (l1 ++ later id b sc1) + n))%nat in Hi1 by lia.
    apply holds_weaken in Hi1.
    rewrite bool_decide_eq_true_2 by done. destruct (IH sc1 ob1 l1 i1 _ Hopen1 Hat1 ltac:(lia) Hi1) as (r & sc2 & ob2 & i2 & E2 & Hopen2 & Hkey2 & Hr2 & Hcase).
    { intros x Hx. rewrite Hr. by apply Hrows, Hsub. }
    exists r, sc2, ob2, i2. split; [done|]. split; [done|]. split; [by rewrite Hkey2|]. split; [by rewrite Hr2|]. destruct Hcase as [(-> & Hne & Hi2)|?]; [left|by right].
    split; [done|]. split; [done|]. rewrite Hkey in Hi2. cbn.
    set (vs := (scanned (l1 ++ later id b sc1)).1) in *.
    replace ({[(index_key i row.2, row.1)]} ∪ list_to_set (keyed (index_key i) <$> vs) ∪ X)
      with (list_to_set (keyed (index_key i) <$> vs) ∪ ({[(index_key i row.2, row.1)]} ∪ X)); [done|]. apply leibniz_equiv. clear. set_solver.
Qed.

(** the rows the transaction sees *)
Definition sees (p : Row) : Prop := visit trx READ_ONLY p = SUCCESS.
Definition seen_rows m : gmap RID (list Z) := base.filter sees m.

Lemma scanned_rows (rows : list Row) row : (scanned rows).2 = RECORD_EOF → row ∈ (scanned rows).1 ↔ row ∈ rows ∧ sees row.
Proof.
  unfold sees. induction rows as [|x rows IH]; cbn [scan_spec passes negb].
  { intros _. split; [by intros ?%elem_of_nil|]. by intros [?%elem_of_nil _]. }
  pose proof (trx_codes x). destruct (visit trx READ_ONLY x) eqn:Ex; cbn [fst snd]; intros Hend; try done.
  - rewrite !elem_of_cons, (IH Hend). split; [intros [->|[? ?]]; auto|]. intros [[->|?] ?]; auto.
  - rewrite elem_of_cons, (IH Hend). split; [intros [? ?]; auto|]. intros [[->|?] ?]; [congruence|auto].
Qed.

(** a new index: it is filled with the rows the transaction sees, or there is an error *)
Lemma table_fill_ok n keys t a k new_index : table_rel n keys t a → (length (file_rows id (rf_pool (record_handler_ t))) < k)%nat →
  index_holds (length (file_rows id (rf_pool (record_handler_ t))) + n) ∅ new_index → (∀ r, row_good r → index_row new_index r) →
  ∃ r i' t', table_fill_index k id trx new_index t = Some ((r, i'), t') ∧ table_rel n keys t' a ∧ indexes_ t' = indexes_ t ∧
    index_key i' = index_key new_index ∧ index_row i' = index_row new_index ∧
    ((r = inl RECORD_EOF ∧ index_holds n (entries (index_key new_index) (seen_rows (fs_rows a))) i') ∨ (∃ rc, (r = inl rc ∨ r = inr rc) ∧ rc ≠ SUCCESS ∧ r ≠ inl RECORD_EOF)).
Proof.
  intros [Hf Hi Hk Hg] Hlen Hnew Hrow. pose proof (rel_pages_ok id hd _ _ Hf) as Hok. pose proof (rel_rows id hd _ _ Hf) as Hrows.
  set (b := rf_pool (record_handler_ t)) in *. set (log0 := rf_log (record_handler_ t)).
  destruct (open_fresh_ok id b log0 None trx READ_ONLY (Some ROW_FORMAT) (or_intror eq_refl)) as (sc & ob & E & Hopen & Hat & Hl).
  assert (Hin : ∀ row, row ∈ file_rows id b ↔ fs_rows a !! row.1 = Some row.2).
  { intros [rid r]. rewrite Hrows. apply elem_of_list_to_map, (file_rows_nodup id). }
  destruct (fill_ok n b log0 k Hok sc ob [] new_index ∅ Hopen Hat) as (r & sc' & ob' & i' & E2 & Hopen' & Hkey & Hir & Hcase); rewrite ?Hl; [done|done| |].
  { intros row Hr. pose proof (proj1 (Hin row) Hr) as Hr'. split; [apply Hrow, (Hg _ _ Hr')|by apply (rel_rid_ok _ a _ row.2 Hf)]. }
  destruct (close_scan_ok id b log0 None trx READ_ONLY sc' ob' Hopen') as (sc2 & E3 & Hsf & _ & Hlog2).
  unfold table_fill_index. rewrite bind_get, (fl_format _ _ _ _ Hf). fold b log0. rewrite (bind_liftO _ _ _ _ E). cbn [fst snd]. change (OB_FAIL SUCCESS) with false. cbv iota.
  rewrite (bind_liftO _ _ _ _ E2). cbn [fst snd]. rewrite (bind_liftO _ _ _ _ E3), bind_modify. cbn [snd].
  set (t1 := mkTable _ _). exists r, i', t1. split; [done|]. split.
  { constructor; [|done..]. apply (rel_frames id hd (record_handler_ t)); [done|done|done|cbn; rewrite Hlog2; exact (fl_log _ _ _ _ Hf)]. }
  do 3 (split; [done|]). rewrite Hl in Hcase. cbn [app] in Hcase. destruct Hcase as [(-> & Hne & Hi')|(rc & -> & Hrc)].
  - destruct (decide ((scanned (file_rows id b)).2 = RECORD_EOF)) as [He|He]; [|right; eexists; split; [by left|]; split; [done|congruence]].
    left. split; [by rewrite He|]. rewrite (right_id_L ∅ (∪)) in Hi'.
    replace (entries (index_key new_index) (seen_rows (fs_rows a))) with (list_to_set (C := gset (K * RID)) (keyed (index_key new_index) <$> (scanned (file_rows id b)).1)); [done|].
    apply leibniz_equiv. intros [key rid]. rewrite elem_of_entries, elem_of_list_to_set, list_elem_of_fmap. split.
    + intros ([rid' x] & [= -> ->] & [Hr Hv]%scanned_rows); [|done]. exists x. split; [|done]. apply map_lookup_filter_Some. split; [by apply (Hin (rid', x))|done].
    + intros (x & [Hr Hv]%map_lookup_filter_Some & <-). exists (rid, x). split; [done|]. apply scanned_rows; [done|]. split; [by apply Hin|done].
  - right. exists rc. split; [by right|]. by split.
Qed.
End new_index.
End spec.
