(* ===== verification/RowTable.v ===== *)
(** * RowTable: a table as the transactions see it (storage/table/table.h)

    [MvccTrx] works on rows through [Table::insert_record], [visit_record],
    [get_record] and [delete_record]. The class [RowTable] is that interface, for rows
    that carry the two hidden transaction fields; [RowTableLaws] is what a table
    promises. *)
From S2P Require Import Prelude Types.

(** a row with its [__trx_xid_begin] and [__trx_xid_end] fields *)
Record Row := mkRow { begin_xid : Z; end_xid : Z; row_data : list Z }.
#[export] Instance Row_eq_dec : EqDecision Row.
Proof. solve_decision. Defined.

Definition set_begin (z : Z) (r : Row) : Row := mkRow z (end_xid r) (row_data r).
Definition set_end (z : Z) (r : Row) : Row := mkRow (begin_xid r) z (row_data r).

(** a visitor gets a copy of the row: [None] is a failed assertion; the first component of the
    result is the row to write back when the visitor returned true, the second what it leaves
    in its captured variables *)
Definition visitor (A : Type) : Type := Row → option (option Row * A).

Class RowTable (T : Type) := {
  table_insert : Row → M T (RC * option RID);
  table_visit {A} : RID → visitor A → M T (RC * option A);
  table_get : RID → M T (RC * option Row);
  table_delete : RID → M T RC;
  rows : T → gmap RID Row;
}.

Class RowTableLaws (T : Type) `{RowTable T} := {
  table_insert_ok t r :
    ∃ rc ro t', table_insert r t = Some ((rc, ro), t') ∧
      ((∃ rid, rc = SUCCESS ∧ ro = Some rid ∧ rows t !! rid = None ∧ rows t' = <[rid := r]> (rows t)) ∨
       (rc ≠ SUCCESS ∧ rows t' = rows t));
  table_visit_ok {A} t rid r (v : visitor A) w a :
    rows t !! rid = Some r → v r = Some (w, a) →
    ∃ t', table_visit rid v t = Some ((SUCCESS, Some a), t') ∧
      rows t' = match w with Some r' => <[rid := r']> (rows t) | None => rows t end;
  table_visit_abort {A} t rid r (v : visitor A) : rows t !! rid = Some r → v r = None → table_visit rid v t = None;
  table_visit_none {A} t rid (v : visitor A) :
    rows t !! rid = None → ∃ rc t', table_visit rid v t = Some ((rc, None), t') ∧ rc ≠ SUCCESS ∧ rows t' = rows t;
  table_get_ok t rid :
    ∃ rc t', table_get rid t = Some ((rc, rows t !! rid), t') ∧ rows t' = rows t ∧
      (is_Some (rows t !! rid) → rc = SUCCESS) ∧ (rows t !! rid = None → rc ≠ SUCCESS);
  table_delete_ok t rid r :
    rows t !! rid = Some r → ∃ t', table_delete rid t = Some (SUCCESS, t') ∧ rows t' = delete rid (rows t);
}.

(** ** The table that keeps its rows in a map *)

Definition fresh_rid (m : gmap RID Row) : RID :=
  mkRID 1 (map_fold (λ k _ acc, Z.max acc (slot_num k + 1)) 0 m).

#[export] Instance MapTable : RowTable (gmap RID Row) := {|
  table_insert r t := Some ((SUCCESS, Some (fresh_rid t)), <[fresh_rid t := r]> t);
  table_visit A rid v t :=
    match t !! rid with
    | None => Some ((RECORD_NOT_EXIST, None), t)
    | Some r => '(w, a) ← v r; Some ((SUCCESS, Some a), match w with Some r' => <[rid := r']> t | None => t end)
    end;
  table_get rid t := Some ((match t !! rid with Some _ => SUCCESS | None => RECORD_NOT_EXIST end, t !! rid), t);
  table_delete rid t := match t !! rid with None => Some (RECORD_NOT_EXIST, t) | Some _ => Some (SUCCESS, delete rid t) end;
  rows := id;
|}.

Lemma fresh_rid_fresh m : m !! fresh_rid m = None.
Proof.
  assert (Hb : ∀ k r, m !! k = Some r → slot_num k < slot_num (fresh_rid m)).
  { unfold fresh_rid. simpl. apply (map_fold_weak_ind (λ acc m, ∀ k r, m !! k = Some r → slot_num k < acc)); [done|].
    intros i x m' acc Hi IH k r [[<- <-]|[Hne Hk]]%lookup_insert_Some; [lia|]. specialize (IH k r Hk). lia. }
  destruct (m !! fresh_rid m) eqn:E; [|done]. specialize (Hb _ _ E). lia.
Qed.

#[export] Instance MapTableLaws : RowTableLaws (gmap RID Row).
Proof.
  constructor; cbn [table_insert table_visit table_get table_delete rows MapTable].
  - intros t r. do 3 eexists. split; [done|]. left. exists (fresh_rid t). do 2 (split; [done|]). split; [|done]. apply fresh_rid_fresh.
  - intros A t rid r v w a Hr Hv. unfold id in *. rewrite Hr, Hv. cbn. eexists. split; [done|]. by destruct w.
  - intros A t rid r v Hr Hv. unfold id in *. by rewrite Hr, Hv.
  - intros A t rid v Hr. unfold id in *. rewrite Hr. eauto.
  - intros t rid. do 2 eexists. split; [done|]. unfold id. split; [done|]. destruct (t !! rid); split; try done; by intros [? ?].
  - intros t rid r Hr. unfold id in *. rewrite Hr. eauto.
Qed.
