(* ===== verification/MvccTrx.v ===== *)
(** * MvccTrx: multi-version transactions (storage/trx/mvcc_trx.cpp, mvcc_trx_log.cpp)

    A row is stamped with the id of the transaction that inserted it and the id of the
    one that deleted it; while the writer is not committed the stamp is its negated id.
    Transactions are objects in a heap, reached by pointers that [MvccTrxKit] and the log
    replayer keep. *)
From S2P Require Import Prelude Types Encoding LogHandler RowTable.

(** ** State *)

(** trx.h: [Operation]; only INSERT and DELETE are ever created *)
Inductive OpType : Set := OP_INSERT | OP_UPDATE | OP_DELETE | OP_UNDEFINED.
#[export] Instance OpType_eq_dec : EqDecision OpType.
Proof. solve_decision. Defined.
Record Operation := mkOperation { op_type : OpType; op_table : Z; op_rid : RID }.
#[export] Instance Operation_eq_dec : EqDecision Operation.
Proof. solve_decision. Defined.

Record Trx := mkTrx {
  trx_id_ : Z;
  started_ : bool;
  recovering_ : bool;
  operations_ : list Operation;
}.

(** a pointer to a transaction; 0 is the null pointer *)
Abbreviation TrxPtr := Z (only parsing).

(** [MvccTrxKit]: the id counter and the list of live transactions *)
Record Kit := mkKit { current_trx_id_ : Z; trxes_ : list TrxPtr }.

(** the tables of the database by id, the transactions, and the log they share *)
Record Sys (T L : Type) := mkSys {
  tables : gmap Z T;
  kit : Kit;
  heap : gmap Z Trx;
  log : L;
}.
Arguments mkSys {T L}. Arguments tables {T L}. Arguments kit {T L}. Arguments heap {T L}. Arguments log {T L}.

(** mvcc_trx_log.h: [MvccTrxLogOperation::Type] *)
Inductive LogOp : Set := INSERT_RECORD | DELETE_RECORD | COMMIT | ROLLBACK.
#[export] Instance LogOp_eq_dec : EqDecision LogOp.
Proof. solve_decision. Defined.
Definition log_op_index (op : LogOp) : Z :=
  match op with INSERT_RECORD => 0 | DELETE_RECORD => 1 | COMMIT => 2 | ROLLBACK => 3 end.
Definition log_op_of (z : Z) : option LogOp :=
  match z with 0 => Some INSERT_RECORD | 1 => Some DELETE_RECORD | 2 => Some COMMIT | 3 => Some ROLLBACK | _ => None end.

(** [MvccTrxLogHeader::SIZE] *)
Definition MvccTrxLogHeader_SIZE : Z := 8.

Definition max_trx_id : Z := 2 ^ 31 - 1.

Section mvcc.
Context {T L : Type} `{RowTable T} `{LogHandler L}.
(** the indeterminate [commit_trx_id] in the entry that [rollback] leaves uninitialised *)
Variable uninit : Z.

Definition set_kit (k : Kit) (s : Sys T L) : Sys T L := mkSys (tables s) k (heap s) (log s).
Definition set_trx (p : TrxPtr) (x : Trx) (s : Sys T L) : Sys T L :=
  mkSys (tables s) (kit s) (<[p := x]> (heap s)) (log s).
Definition set_table (tid : Z) (t : T) (s : Sys T L) : Sys T L :=
  mkSys (<[tid := t]> (tables s)) (kit s) (heap s) (log s).
Definition set_log (l : L) (s : Sys T L) : Sys T L := mkSys (tables s) (kit s) (heap s) l.

(** dereference a transaction pointer *)
Definition deref (p : TrxPtr) : M (Sys T L) Trx := let* s := get in liftO (heap s !! p).
(** call a method of the table with the given id *)
Definition on_table {A} (tid : Z) (c : M T A) : M (Sys T L) A :=
  let* s := get in
  let* t := liftO (tables s !! tid) in
  let* r := liftO (c t) in
  modify (set_table tid r.2) ;;;
  ret r.1.
Definition on_log {A} (c : M L A) : M (Sys T L) A :=
  let* s := get in
  let* r := liftO (c (log s)) in
  modify (set_log r.2) ;;;
  ret r.1.

(** ** MvccTrxLogHandler *)

Definition log_record (op : LogOp) (trx_id tid : Z) (rid : RID) : M (Sys T L) RC :=
  assertM (0 <? trx_id) ;;;
  let* r := on_log (append TRANSACTION (enc_fields [log_op_index op; trx_id; tid; page_num rid; slot_num rid])) in
  ret r.1.
Definition log_insert_record : Z → Z → RID → M (Sys T L) RC := log_record INSERT_RECORD.
Definition log_delete_record : Z → Z → RID → M (Sys T L) RC := log_record DELETE_RECORD.
Definition log_commit (trx_id commit_trx_id : Z) : M (Sys T L) RC :=
  assertM ((0 <? trx_id) && (trx_id <? commit_trx_id)) ;;;
  let* r := on_log (append TRANSACTION (enc_fields [log_op_index COMMIT; trx_id; commit_trx_id])) in
  if OB_FAIL r.1 then ret r.1 else on_log (wait_lsn r.2).
Definition log_rollback (trx_id : Z) : M (Sys T L) RC :=
  assertM (0 <? trx_id) ;;;
  let* r := on_log (append TRANSACTION (enc_fields [log_op_index ROLLBACK; trx_id; uninit])) in
  ret r.1.

(** ** MvccTrxKit *)

(** [++current_trx_id_] on an [atomic<int32_t>], which wraps around *)
Definition next_trx_id : M (Sys T L) Z :=
  let* s := get in
  let id := wrap32 (current_trx_id_ (kit s) + 1) in
  modify (set_kit (mkKit id (trxes_ (kit s)))) ;;;
  ret id.

(** [new MvccTrx(...)]: an address that is not in use *)
Definition alloc_ptr (h : gmap Z Trx) : TrxPtr := map_fold (λ p _ m, Z.max m (p + 1)) 1 h.
Definition new_trx (x : Trx) : M (Sys T L) TrxPtr :=
  let* s := get in
  let p := alloc_ptr (heap s) in
  modify (set_trx p x) ;;;
  ret p.

Definition create_trx : M (Sys T L) TrxPtr :=
  let* p := new_trx (mkTrx (-1) false false []) in
  modify (λ s, set_kit (mkKit (current_trx_id_ (kit s)) (trxes_ (kit s) ++ [p])) s) ;;;
  ret p.
(** the version used by the log replay *)
Definition create_trx_recover (trx_id : Z) : M (Sys T L) TrxPtr :=
  let* p := new_trx (mkTrx trx_id true true []) in
  modify (λ s, set_kit (mkKit (if current_trx_id_ (kit s) <? trx_id then trx_id else current_trx_id_ (kit s))
                              (trxes_ (kit s) ++ [p])) s) ;;;
  ret p.

Fixpoint erase_first (p : TrxPtr) (l : list TrxPtr) : list TrxPtr :=
  match l with
  | [] => []
  | q :: l => if q =? p then l else q :: erase_first p l
  end.
(** [destroy_trx]: [delete] of the null pointer does nothing *)
Definition destroy_trx (p : TrxPtr) : M (Sys T L) unit :=
  modify (λ s, set_kit (mkKit (current_trx_id_ (kit s)) (erase_first p (trxes_ (kit s)))) s) ;;;
  if p =? 0 then ret tt
  else
    deref p ;;;
    modify (λ s, mkSys (tables s) (kit s) (delete p (heap s)) (log s)).

Fixpoint find_trx_loop (trx_id : Z) (l : list TrxPtr) : M (Sys T L) TrxPtr :=
  match l with
  | [] => ret 0
  | p :: l => let* x := deref p in if trx_id_ x =? trx_id then ret p else find_trx_loop trx_id l
  end.
Definition find_trx (trx_id : Z) : M (Sys T L) TrxPtr := let* s := get in find_trx_loop trx_id (trxes_ (kit s)).
Definition all_trxes (s : Sys T L) : list TrxPtr := trxes_ (kit s).

(** ** MvccTrx *)

Definition with_ops (x : Trx) (ops : list Operation) : Trx := mkTrx (trx_id_ x) (started_ x) (recovering_ x) ops.
Definition push_operation (p : TrxPtr) (o : Operation) : M (Sys T L) unit :=
  let* x := deref p in modify (set_trx p (with_ops x (operations_ x ++ [o]))).

(** [visit_record(table, record, mode)]: may transaction [trx_id] use the row? *)
Definition visit_record (trx_id : Z) (r : Row) (mode : ReadWriteMode) : RC :=
  let b := begin_xid r in
  let e := end_xid r in
  if (0 <? b) && (0 <? e) then
    if (b <=? trx_id) && (trx_id <=? e) then SUCCESS else RECORD_INVISIBLE
  else if b <? 0 then
    if - b =? trx_id then SUCCESS else RECORD_INVISIBLE
  else if e <? 0 then
    match mode with
    | READ_ONLY => if negb (- e =? trx_id) then SUCCESS else RECORD_INVISIBLE
    | READ_WRITE => if negb (- e =? trx_id) then LOCKED_CONCURRENCY_CONFLICT else RECORD_INVISIBLE
    end
  else SUCCESS.

(** the row is the caller's record with its hidden fields still to be set *)
Definition insert_record (p : TrxPtr) (tid : Z) (data : list Z) : M (Sys T L) (RC * option RID) :=
  let* x := deref p in
  let r := mkRow (- trx_id_ x) max_trx_id data in
  let* res := on_table tid (table_insert r) in
  if negb (bool_decide (res.1 = SUCCESS)) then ret (res.1, None)
  else
    let* rid := liftO res.2 in
    let* rc := log_insert_record (trx_id_ x) tid rid in
    assertM (bool_decide (rc = SUCCESS)) ;;;
    push_operation p (mkOperation OP_INSERT tid rid) ;;;
    ret (rc, Some rid).

Definition delete_visitor (trx_id : Z) : visitor RC := λ r,
  let rc := visit_record trx_id r READ_WRITE in
  if OB_FAIL rc then Some (None, rc) else Some (Some (set_end (- trx_id) r), SUCCESS).

Definition delete_record (p : TrxPtr) (tid : Z) (rid : RID) : M (Sys T L) RC :=
  let* x := deref p in
  let* res := on_table tid (table_visit rid (delete_visitor (trx_id_ x))) in
  if OB_FAIL res.1 then ret res.1
  else
    let delete_result := match res.2 with Some rc => rc | None => SUCCESS end in
    if OB_FAIL delete_result then ret delete_result
    else
      let* rc := log_delete_record (trx_id_ x) tid rid in
      assertM (bool_decide (rc = SUCCESS)) ;;;
      push_operation p (mkOperation OP_DELETE tid rid) ;;;
      ret SUCCESS.

Definition start_if_need (p : TrxPtr) : M (Sys T L) RC :=
  let* x := deref p in
  if negb (started_ x) then
    assertM (bool_decide (operations_ x = [])) ;;;
    let* id := next_trx_id in
    modify (set_trx p (mkTrx id true (recovering_ x) (operations_ x))) ;;;
    ret SUCCESS
  else ret SUCCESS.

Definition commit_insert_visitor (x : Trx) (commit_xid : Z) : visitor unit := λ r,
  if (begin_xid r =? - trx_id_ x) && negb (recovering_ x) then Some (Some (set_begin commit_xid r), tt) else None.
Definition commit_delete_visitor (x : Trx) (commit_xid : Z) : visitor unit := λ r,
  if end_xid r =? - trx_id_ x then Some (Some (set_end commit_xid r), tt) else None.

(** one round of the loop of [commit_with_trx_id] *)
Definition commit_operation (x : Trx) (commit_xid : Z) (o : Operation) : M (Sys T L) unit :=
  match op_type o with
  | OP_INSERT =>
      let* res := on_table (op_table o) (table_visit (op_rid o) (commit_insert_visitor x commit_xid)) in
      assertM (bool_decide (res.1 = SUCCESS))
  | OP_DELETE =>
      let* res := on_table (op_table o) (table_visit (op_rid o) (commit_delete_visitor x commit_xid)) in
      assertM (bool_decide (res.1 = SUCCESS))
  | _ => assertM false
  end.

Definition commit_with_trx_id (p : TrxPtr) (commit_xid : Z) : M (Sys T L) RC :=
  let* x := deref p in
  modify (set_trx p (mkTrx (trx_id_ x) false (recovering_ x) (operations_ x))) ;;;
  forM (operations_ x) (commit_operation x commit_xid) ;;;
  let* rc := (if negb (recovering_ x) then log_commit (trx_id_ x) commit_xid else ret SUCCESS) in
  modify (set_trx p (mkTrx (trx_id_ x) false (recovering_ x) [])) ;;;
  ret rc.

Definition commit (p : TrxPtr) : M (Sys T L) RC :=
  let* commit_id := next_trx_id in
  commit_with_trx_id p commit_id.

Definition rollback_delete_visitor (x : Trx) : visitor unit := λ r,
  if recovering_ x && negb (end_xid r =? - trx_id_ x) then Some (None, tt)
  else if end_xid r =? - trx_id_ x then Some (Some (set_end max_trx_id r), tt) else None.

(** one round of the loop of [rollback]: [rc] is the variable of that name; [inl] leaves the
    function with an error *)
Definition rollback_operation (x : Trx) (rc : RC) (o : Operation) : M (Sys T L) (RC + RC) :=
  match op_type o with
  | OP_INSERT =>
      let physical_delete :=
        (let* rc' := on_table (op_table o) (table_delete (op_rid o)) in
         assertM (bool_decide (rc' = SUCCESS)) ;;;
         ret (inr rc')) in
      if recovering_ x then
        let* res := on_table (op_table o) (table_get (op_rid o)) in
        if OB_SUCC res.1 then
          let* r := liftO res.2 in
          if negb (begin_xid r =? - trx_id_ x) then ret (inr res.1) else physical_delete
        else if bool_decide (RECORD_NOT_EXIST = res.1) then ret (inr res.1)
        else ret (inl res.1)
      else physical_delete
  | OP_DELETE =>
      assertM (bool_decide (rc = SUCCESS)) ;;;
      let* res := on_table (op_table o) (table_visit (op_rid o) (rollback_delete_visitor x)) in
      assertM (bool_decide (res.1 = SUCCESS)) ;;;
      ret (inr res.1)
  | _ => abort
  end.

Fixpoint rollback_loop (x : Trx) (rc : RC) (ops : list Operation) : M (Sys T L) (RC + RC) :=
  match ops with
  | [] => ret (inr rc)
  | o :: ops =>
      let* r := rollback_operation x rc o in
      match r with inl rc => ret (inl rc) | inr rc => rollback_loop x rc ops end
  end.

Definition rollback (p : TrxPtr) : M (Sys T L) RC :=
  let* x := deref p in
  modify (set_trx p (mkTrx (trx_id_ x) false (recovering_ x) (operations_ x))) ;;;
  let* r := rollback_loop x SUCCESS (reverse (operations_ x)) in
  match r with
  | inl rc => ret rc
  | inr rc =>
      modify (set_trx p (mkTrx (trx_id_ x) false (recovering_ x) [])) ;;;
      if negb (recovering_ x) then log_rollback (trx_id_ x) else ret rc
  end.

(** ** Replay *)

(** the 32-bit fields of the entry *)
Definition entry_fields (payload : list Z) (n : nat) : option (list Z) :=
  mapM (λ k, field32 payload (4 * Z.of_nat k)) (seq 0 n).

(** [find_table]: [Some None] when the operation names no table *)
Definition find_table (payload : list Z) : M (Sys T L) (RC * option Z) :=
  let* op := liftO (field32 payload 0) in
  match log_op_of op with
  | Some INSERT_RECORD | Some DELETE_RECORD =>
      let* fs := liftO (entry_fields payload 5) in
      let* tid := liftO (fs !! 2%nat) in
      let* s := get in
      match tables s !! tid with
      | None => ret (SCHEMA_TABLE_NOT_EXIST, None)
      | Some _ => ret (SUCCESS, Some tid)
      end
  | _ => ret (SUCCESS, None)
  end.

Definition redo_push (p : TrxPtr) (ty : OpType) (table : option Z) (payload : list Z) : M (Sys T L) RC :=
  let* fs := liftO (entry_fields payload 5) in
  let* tid := liftO table in
  let* pn := liftO (fs !! 3%nat) in
  let* sn := liftO (fs !! 4%nat) in
  push_operation p (mkOperation ty tid (mkRID pn sn)) ;;;
  ret SUCCESS.

(** [MvccTrx::redo] *)
Definition redo (p : TrxPtr) (payload : list Z) : M (Sys T L) RC :=
  let* t := find_table payload in
  if OB_FAIL t.1 then ret t.1
  else
    let* op := liftO (field32 payload 0) in
    match log_op_of op with
    | Some INSERT_RECORD => redo_push p OP_INSERT t.2 payload
    | Some DELETE_RECORD => redo_push p OP_DELETE t.2 payload
    | Some COMMIT | Some ROLLBACK => ret SUCCESS
    | None => abort
    end.

(** [MvccTrxLogReplayer::replay]; the state is the member [trx_map_], the database is threaded *)
Definition replay (trx_map_ : gmap Z TrxPtr) (entry : LogRec) : M (Sys T L) (RC * gmap Z TrxPtr) :=
  assertM (bool_decide (lr_module entry = TRANSACTION)) ;;;
  if len (lr_data entry) <? MvccTrxLogHeader_SIZE then ret (LOG_ENTRY_INVALID, trx_map_)
  else
    let* operation_type := liftO (field32 (lr_data entry) 0) in
    let* trx_id := liftO (field32 (lr_data entry) 4) in
    let* trx := match trx_map_ !! trx_id with
                | None => create_trx_recover trx_id
                | Some p => ret p
                end in
    let* rc := redo trx (lr_data entry) in
    let op := log_op_of operation_type in
    if bool_decide (op = Some ROLLBACK) || bool_decide (op = Some COMMIT) then
      (* [trx_map_[trx_id]] inserts a null pointer when there is no entry *)
      let trx := default 0 (trx_map_ !! trx_id) in
      destroy_trx trx ;;;
      ret (rc, delete trx_id trx_map_)
    else ret (rc, trx_map_).

(** [MvccTrxLogReplayer::on_done], for the order in which the map is walked; it also clears
    the map *)
Definition on_done (trx_map_ : gmap Z TrxPtr) : M (Sys T L) RC :=
  forM (map_to_list trx_map_) (λ e,
    rollback e.2 ;;;
    modify (λ s, mkSys (tables s) (kit s) (delete e.2 (heap s)) (log s))) ;;;
  ret SUCCESS.
End mvcc.
