(* ===== verification/MvccSpec.v ===== *)
(** * MvccSpec: correctness of the multi-version transactions

    The invariant of the transaction system, its preservation by every call of every
    transaction in any order, and what commit and rollback do to the rows. MvccRecovery
    shows where the code departs from what one expects. *)
From S2P Require Import Prelude Types Encoding LogHandler RowTable MvccTrx.

Section system.
Context {T L : Type} `{RL : RowTableLaws T} `{W : WalLaws L}.
Variable uninit : Z.
Implicit Types (s : Sys T L) (x : Trx) (o : Operation).

(** ** Rows by table and record id *)

Definition key : Type := (Z * RID)%type.
Definition row_at (s : Sys T L) (k : key) : option Row := t ← tables s !! k.1; rows t !! k.2.
Definition op_key (o : Operation) : key := (op_table o, op_rid o).
Definition ins (k : key) : Operation := mkOperation OP_INSERT k.1 k.2.
Definition del (k : key) : Operation := mkOperation OP_DELETE k.1 k.2.

(** a call that changed rows only *)
Record only_rows (s s' : Sys T L) : Prop := {
  or_kit : kit s' = kit s; or_heap : heap s' = heap s; or_log : log s' = log s;
  or_dom : ∀ tid, is_Some (tables s' !! tid) ↔ is_Some (tables s !! tid);
}.

Lemma row_at_set_table s tid t k :
  row_at (set_table tid t s) k = if decide (k.1 = tid) then rows t !! k.2 else row_at s k.
Proof.
  unfold row_at, set_table; cbn. case_decide as E.
  - by rewrite E, lookup_insert_eq.
  - by rewrite lookup_insert_ne by congruence.
Qed.

Lemma only_rows_refl s : only_rows s s.
Proof. done. Qed.
Lemma only_rows_trans s1 s2 s3 : only_rows s1 s2 → only_rows s2 s3 → only_rows s1 s3.
Proof. intros [] []. split; try congruence. intros. by rewrite or_dom1. Qed.

Lemma only_rows_set_table s tid t : is_Some (tables s !! tid) → only_rows s (set_table tid t s).
Proof.
  intros Ht. split; try done. intros tid'. unfold set_table; cbn. destruct (decide (tid' = tid)) as [->|].
  - rewrite lookup_insert_eq. naive_solver.
  - by rewrite lookup_insert_ne.
Qed.

(** run one table call *)
Lemma on_table_eq {A} tid t (c : M T A) s a t' :
  tables s !! tid = Some t → c t = Some (a, t') → on_table tid c s = Some (a, set_table tid t' s).
Proof.
  intros Ht Hc. unfold on_table. rewrite bind_get, (bind_liftO _ _ _ _ Ht), (bind_liftO _ _ _ _ Hc), bind_modify. done.
Qed.

Lemma visit_row {A} s k r (v : visitor A) w a :
  row_at s k = Some r → v r = Some (w, a) →
  ∃ s', on_table k.1 (table_visit k.2 v) s = Some ((SUCCESS, Some a), s') ∧ only_rows s s' ∧
    ∀ k', row_at s' k' = if decide (k' = k) then Some (default r w) else row_at s k'.
Proof.
  intros Hr Hv. unfold row_at in Hr. destruct (tables s !! k.1) as [t|] eqn:Et; [|done]. cbn in Hr.
  destruct (table_visit_ok t k.2 r v w a Hr Hv) as (t' & E & Hrows).
  eexists. split; [by eapply on_table_eq|]. split; [apply only_rows_set_table; eauto|].
  intros [tid' rid']. rewrite row_at_set_table. destruct k as [tid rid]; cbn in *. unfold row_at; cbn.
  repeat case_decide; simplify_eq; try done.
  - rewrite Hrows. destruct w; cbn; [by rewrite lookup_insert_eq|done].
  - rewrite Et. cbn. rewrite Hrows. destruct w; [|done]. rewrite lookup_insert_ne; [done|congruence].
Qed.

Lemma visit_abort {A} s k r (v : visitor A) : row_at s k = Some r → v r = None → on_table k.1 (table_visit k.2 v) s = None.
Proof.
  intros Hr Hv. unfold row_at in Hr. destruct (tables s !! k.1) as [t|] eqn:Et; [|done]. cbn in Hr.
  unfold on_table. rewrite bind_get, (bind_liftO _ _ _ _ Et). unfold bind at 1. cbn. by rewrite (table_visit_abort t k.2 r v Hr Hv).
Qed.

Lemma delete_row s k r :
  row_at s k = Some r →
  ∃ s', on_table k.1 (table_delete k.2) s = Some (SUCCESS, s') ∧ only_rows s s' ∧
    ∀ k', row_at s' k' = if decide (k' = k) then None else row_at s k'.
Proof.
  intros Hr. unfold row_at in Hr. destruct (tables s !! k.1) as [t|] eqn:Et; [|done]. cbn in Hr.
  destruct (table_delete_ok t k.2 r Hr) as (t' & E & Hrows).
  eexists. split; [by eapply on_table_eq|]. split; [apply only_rows_set_table; eauto|].
  intros [tid' rid']. rewrite row_at_set_table. destruct k as [tid rid]; cbn in *. unfold row_at; cbn.
  repeat case_decide; simplify_eq; try done.
  - by rewrite Hrows, lookup_delete_eq.
  - rewrite Et. cbn. rewrite Hrows. rewrite lookup_delete_ne; [done|congruence].
Qed.

(** ** The loops of commit and rollback *)

(** what a list of operations of transaction [id] leaves in a row when it is committed *)
Definition commit_row (ops : list Operation) (c : Z) (k : key) (r : Row) : Row :=
  mkRow (if decide (ins k ∈ ops) then c else begin_xid r) (if decide (del k ∈ ops) then c else end_xid r) (row_data r).
(** and when it is rolled back *)
Definition rollback_row (ops : list Operation) (k : key) (r : Row) : option Row :=
  if decide (ins k ∈ ops) then None
  else Some (mkRow (begin_xid r) (if decide (del k ∈ ops) then max_trx_id else end_xid r) (row_data r)).

(** the operation is recorded in its row *)
Definition op_marked (s : Sys T L) (id : Z) (o : Operation) : Prop :=
  ∃ r, row_at s (op_key o) = Some r ∧
    match op_type o with
    | OP_INSERT => begin_xid r = - id
    | OP_DELETE => end_xid r = - id
    | _ => False
    end.

Lemma ins_eq k o : ins k = o ↔ op_type o = OP_INSERT ∧ k = op_key o.
Proof. destruct o, k; unfold ins, op_key; cbn. naive_solver. Qed.
Lemma del_eq k o : del k = o ↔ op_type o = OP_DELETE ∧ k = op_key o.
Proof. destruct o, k; unfold del, op_key; cbn. naive_solver. Qed.

Lemma commit_operation_ok x c o s :
  recovering_ x = false → op_marked s (trx_id_ x) o →
  ∃ s', commit_operation x c o s = Some (tt, s') ∧ only_rows s s' ∧
    ∀ k, row_at s' k = commit_row [o] c k <$> row_at s k.
Proof.
  intros Hrec (r & Hr & Hm). unfold commit_operation.
  destruct (op_type o) eqn:Eo; try done.
  - destruct (visit_row s (op_key o) r (commit_insert_visitor x c) (Some (set_begin c r)) tt Hr) as (s' & E & Ho & Hrow).
    { unfold commit_insert_visitor. by rewrite Hm, Z.eqb_refl, Hrec. }
    exists s'. rewrite (bind_eq _ _ _ _ _ E). do 2 (split; [done|]). intros k. rewrite Hrow. unfold commit_row.
    case_decide as Hk; [subst k; rewrite Hr; cbn|destruct (row_at s k) as [[]|]; [cbn|done]];
      repeat case_decide; rewrite ?list_elem_of_singleton, ?ins_eq, ?del_eq in *; try naive_solver congruence.
  - destruct (visit_row s (op_key o) r (commit_delete_visitor x c) (Some (set_end c r)) tt Hr) as (s' & E & Ho & Hrow).
    { unfold commit_delete_visitor. by rewrite Hm, Z.eqb_refl. }
    exists s'. rewrite (bind_eq _ _ _ _ _ E). do 2 (split; [done|]). intros k. rewrite Hrow. unfold commit_row.
    case_decide as Hk; [subst k; rewrite Hr; cbn|destruct (row_at s k) as [[]|]; [cbn|done]];
      repeat case_decide; rewrite ?list_elem_of_singleton, ?ins_eq, ?del_eq in *; try naive_solver congruence.
Qed.

Lemma commit_row_cons o ops c k r : commit_row (o :: ops) c k r = commit_row ops c k (commit_row [o] c k r).
Proof. unfold commit_row; cbn. f_equal; repeat case_decide; set_solver. Qed.

Lemma commit_loop x c ops : ∀ s,
  recovering_ x = false → NoDup ops → Forall (op_marked s (trx_id_ x)) ops →
  ∃ s', forM ops (commit_operation x c) s = Some (tt, s') ∧ only_rows s s' ∧
    ∀ k, row_at s' k = commit_row ops c k <$> row_at s k.
Proof.
  induction ops as [|o ops IH]; intros s Hrec Hnd Hm.
  { exists s. do 2 (split; [done|]). intros k. destruct (row_at s k) as [[]|]; done. }
  apply NoDup_cons in Hnd as [Hni Hnd]. apply Forall_cons in Hm as [Ho Hm].
  destruct (commit_operation_ok x c o s Hrec Ho) as (s1 & E1 & Ho1 & Hr1).
  destruct (IH s1) as (s2 & E2 & Ho2 & Hr2); [done|done| |].
  { rewrite Forall_forall in Hm |- *. intros o' Hin. destruct (Hm o' Hin) as (r & Hr & Ht).
    exists (commit_row [o] c (op_key o') r). split; [by rewrite Hr1, Hr|].
    destruct (op_type o') eqn:Et; try done; unfold commit_row; cbn.
    - rewrite decide_False; [done|]. rewrite list_elem_of_singleton, ins_eq. intros [??]. apply Hni.
      replace o with o'; [done|]. symmetry. transitivity (ins (op_key o')); [by symmetry; apply ins_eq|by apply ins_eq].
    - rewrite decide_False; [done|]. rewrite list_elem_of_singleton, del_eq. intros [??]. apply Hni.
      replace o with o'; [done|]. symmetry. transitivity (del (op_key o')); [by symmetry; apply del_eq|by apply del_eq]. }
  exists s2. cbn [forM]. rewrite (bind_eq _ _ _ _ _ E1). split; [done|]. split; [by eapply only_rows_trans|].
  intros k. rewrite Hr2, Hr1. destruct (row_at s k); [|done]. cbn. f_equal. symmetry. apply commit_row_cons.
Qed.

(** the order in which rollback may meet the operations: a deletion before the insertion of
    the same row *)
Fixpoint rollback_order (ops : list Operation) : Prop :=
  match ops with
  | [] => True
  | o :: ops => (op_type o = OP_INSERT → del (op_key o) ∉ ops) ∧ rollback_order ops
  end.

Lemma rollback_operation_ok x rc o s :
  recovering_ x = false → op_marked s (trx_id_ x) o → rc = SUCCESS →
  ∃ s', rollback_operation x rc o s = Some (inr SUCCESS, s') ∧ only_rows s s' ∧
    ∀ k, row_at s' k = (r ← row_at s k; rollback_row [o] k r).
Proof.
  intros Hrec (r & Hr & Hm) ->. unfold rollback_operation. rewrite Hrec. cbv zeta.
  destruct (op_type o) eqn:Eo; try done.
  - destruct (delete_row s (op_key o) r Hr) as (s' & E & Ho & Hrow).
    exists s'. rewrite (bind_eq _ _ _ _ _ E). do 2 (split; [done|]). intros k. rewrite Hrow. unfold rollback_row.
    case_decide as Hk; [subst k; rewrite Hr; cbn|destruct (row_at s k) as [[]|]; [cbn|done]];
      repeat case_decide; rewrite ?list_elem_of_singleton, ?ins_eq, ?del_eq in *; try naive_solver congruence.
  - rewrite bind_assertM by done.
    destruct (visit_row s (op_key o) r (rollback_delete_visitor x) (Some (set_end max_trx_id r)) tt Hr) as (s' & E & Ho & Hrow).
    { unfold rollback_delete_visitor. by rewrite Hm, Z.eqb_refl, Hrec. }
    exists s'. rewrite (bind_eq _ _ _ _ _ E). do 2 (split; [done|]). intros k. rewrite Hrow. unfold rollback_row.
    case_decide as Hk; [subst k; rewrite Hr; cbn|destruct (row_at s k) as [[]|]; [cbn|done]];
      repeat case_decide; rewrite ?list_elem_of_singleton, ?ins_eq, ?del_eq in *; try naive_solver congruence.
Qed.

Lemma rollback_row_cons o ops k r :
  rollback_row (o :: ops) k r = (r' ← rollback_row [o] k r; rollback_row ops k r').
Proof. unfold rollback_row; cbn. repeat case_decide; cbn; repeat case_decide; try done; set_solver. Qed.

Lemma rollback_loop_ok x ops : ∀ s,
  recovering_ x = false → NoDup ops → rollback_order ops → Forall (op_marked s (trx_id_ x)) ops →
  ∃ s', rollback_loop x SUCCESS ops s = Some (inr SUCCESS, s') ∧ only_rows s s' ∧
    ∀ k, row_at s' k = (r ← row_at s k; rollback_row ops k r).
Proof.
  induction ops as [|o ops IH]; intros s Hrec Hnd Hord Hm.
  { exists s. do 2 (split; [done|]). intros k. destruct (row_at s k) as [[]|]; done. }
  apply NoDup_cons in Hnd as [Hni Hnd]. apply Forall_cons in Hm as [Ho Hm]. destruct Hord as [Hord1 Hord].
  destruct (rollback_operation_ok x SUCCESS o s Hrec Ho eq_refl) as (s1 & E1 & Ho1 & Hr1).
  destruct (IH s1) as (s2 & E2 & Ho2 & Hr2); [done..| |].
  { rewrite Forall_forall in Hm |- *. intros o' Hin. destruct (Hm o' Hin) as (r & Hr & Ht).
    assert (Hne : o' ≠ o) by (intros ->; done).
    assert (Hins : ins (op_key o') ≠ o).
    { rewrite ins_eq. intros [Hto Hk]. destruct (op_type o') eqn:Et; try done.
      - apply Hne. transitivity (ins (op_key o')); [by symmetry; apply ins_eq|by apply ins_eq].
      - apply (Hord1 Hto). rewrite <-Hk. by replace (del (op_key o')) with o' by (symmetry; by apply del_eq). }
    assert (Hrow : row_at s1 (op_key o') = rollback_row [o] (op_key o') r) by by rewrite Hr1, Hr.
    unfold rollback_row in Hrow. rewrite decide_False in Hrow by (rewrite list_elem_of_singleton; done).
    eexists. split; [exact Hrow|]. destruct (op_type o') eqn:Et; cbn; try done.
    rewrite decide_False; [done|]. rewrite list_elem_of_singleton, del_eq. intros [??]. apply Hne.
    transitivity (del (op_key o')); [by symmetry; apply del_eq|by apply del_eq]. }
  exists s2. cbn [rollback_loop]. rewrite (bind_eq _ _ _ _ _ E1). split; [done|]. split; [by eapply only_rows_trans|].
  intros k. rewrite Hr2, Hr1. destruct (row_at s k); [|done]. cbn [mbind option_bind]. symmetry. apply rollback_row_cons.
Qed.

(** ** The invariant *)

Record sys_ok (s : Sys T L) : Prop := {
  so_log : log_ready (log s);
  so_clock : 0 ≤ current_trx_id_ (kit s);
  so_trx p x : heap s !! p = Some x →
    recovering_ x = false ∧ (started_ x = false → operations_ x = []) ∧
    (started_ x = true → 0 < trx_id_ x ≤ current_trx_id_ (kit s));
  so_uniq p q x y : heap s !! p = Some x → heap s !! q = Some y → started_ x = true → started_ y = true →
    trx_id_ x = trx_id_ y → p = q;
  so_ops p x : heap s !! p = Some x →
    NoDup (operations_ x) ∧ rollback_order (reverse (operations_ x)) ∧ Forall (op_marked s (trx_id_ x)) (operations_ x);
  so_begin k r : row_at s k = Some r → begin_xid r < 0 →
    ∃ p x, heap s !! p = Some x ∧ ins k ∈ operations_ x ∧ trx_id_ x = - begin_xid r;
  so_end k r : row_at s k = Some r → end_xid r < 0 →
    ∃ p x, heap s !! p = Some x ∧ del k ∈ operations_ x ∧ trx_id_ x = - end_xid r;
  so_pos k r : row_at s k = Some r → begin_xid r ≠ 0 ∧ end_xid r ≠ 0 ∧ begin_xid r ≤ current_trx_id_ (kit s);
  so_excl k r : row_at s k = Some r → begin_xid r < 0 → end_xid r < 0 → begin_xid r = end_xid r;
}.

(** a call of the transaction [p] that leaves the marks of the others alone *)
Lemma sys_ok_update s s' p x x' :
  sys_ok s → heap s !! p = Some x → heap s' = <[p := x']> (heap s) → log_ready (log s') →
  current_trx_id_ (kit s) ≤ current_trx_id_ (kit s') → recovering_ x' = false →
  (started_ x' = false → operations_ x' = []) →
  (started_ x' = true → 0 < trx_id_ x' ≤ current_trx_id_ (kit s')) →
  (started_ x' = true → (started_ x = true ∧ trx_id_ x' = trx_id_ x) ∨ trx_id_ x' = current_trx_id_ (kit s) + 1) →
  NoDup (operations_ x') → rollback_order (reverse (operations_ x')) → Forall (op_marked s' (trx_id_ x')) (operations_ x') →
  (∀ q y o, q ≠ p → heap s !! q = Some y → started_ y = true → o ∈ operations_ y →
     op_marked s (trx_id_ y) o → op_marked s' (trx_id_ y) o) →
  (∀ k r, row_at s' k = Some r →
     (begin_xid r < 0 → ∃ q y, heap s' !! q = Some y ∧ ins k ∈ operations_ y ∧ trx_id_ y = - begin_xid r) ∧
     (end_xid r < 0 → ∃ q y, heap s' !! q = Some y ∧ del k ∈ operations_ y ∧ trx_id_ y = - end_xid r) ∧
     begin_xid r ≠ 0 ∧ end_xid r ≠ 0 ∧ begin_xid r ≤ current_trx_id_ (kit s') ∧
     (begin_xid r < 0 → end_xid r < 0 → begin_xid r = end_xid r)) →
  sys_ok s'.
Proof.
  intros Hok Hx Hh Hl Hc Hrec Hns Hst Hid Hnd Hord Hmk Hoth Hrows.
  assert (Hne : ∀ q y, q ≠ p → heap s' !! q = Some y → heap s !! q = Some y)
    by (intros q y Hq; rewrite Hh, lookup_insert_ne by done; done).
  assert (Hp : ∀ y, heap s' !! p = Some y → y = x') by (intros y; rewrite Hh, lookup_insert_eq; naive_solver).
  assert (Hfresh : ∀ q y, q ≠ p → heap s !! q = Some y → started_ y = true → started_ x' = true → trx_id_ y ≠ trx_id_ x').
  { intros q y Hq Hy Hsy Hsx Heq. destruct (Hid Hsx) as [[Hsx0 Hids]|Hids].
    - apply Hq. apply (so_uniq _ Hok q p y x); congruence.
    - destruct (so_trx _ Hok q y Hy) as (_ & _ & Hb). specialize (Hb Hsy). lia. }
  split; [done|pose proof (so_clock _ Hok); lia| | | | | | |].
  - intros q y Hy. destruct (decide (q = p)) as [->|Hq]; [by rewrite (Hp _ Hy)|].
    destruct (so_trx _ Hok q y (Hne _ _ Hq Hy)) as (? & ? & Hb). split; [done|]. split; [done|]. intros Hs. specialize (Hb Hs). lia.
  - intros q1 q2 y1 y2 Hy1 Hy2 Hs1 Hs2 Heq. destruct (decide (q1 = p)) as [->|Hq1], (decide (q2 = p)) as [->|Hq2]; try done.
    + rewrite (Hp _ Hy1) in *. exfalso. eapply (Hfresh q2 y2); eauto.
    + rewrite (Hp _ Hy2) in *. exfalso. eapply (Hfresh q1 y1); eauto.
    + eapply (so_uniq _ Hok); eauto.
  - intros q y Hy. destruct (decide (q = p)) as [->|Hq]; [by rewrite (Hp _ Hy)|].
    destruct (so_ops _ Hok q y (Hne _ _ Hq Hy)) as (? & ? & Hm). split; [done|]. split; [done|].
    rewrite Forall_forall in Hm |- *. intros o Ho. apply (Hoth q); auto.
    destruct (started_ y) eqn:Es; [done|]. destruct (so_trx _ Hok q y (Hne _ _ Hq Hy)) as (_ & He & _).
    rewrite (He Es) in Ho. by apply elem_of_nil in Ho.
  - intros k r Hr. exact (proj1 (Hrows k r Hr)).
  - intros k r Hr. exact (proj1 (proj2 (Hrows k r Hr))).
  - intros k r Hr. destruct (Hrows k r Hr) as (_ & _ & ? & ? & ? & _). done.
  - intros k r Hr. destruct (Hrows k r Hr) as (_ & _ & _ & _ & _ & He). exact He.
Qed.

(** a transaction that owns a mark is the one that has the operation *)
Lemma own_ins s p x k r :
  sys_ok s → heap s !! p = Some x → started_ x = true → row_at s k = Some r →
  ins k ∈ operations_ x ↔ begin_xid r = - trx_id_ x.
Proof.
  intros Hok Hx Hs Hr. destruct (so_trx _ Hok _ _ Hx) as (_ & _ & Hb). specialize (Hb Hs). split.
  - intros Hin. destruct (so_ops _ Hok _ _ Hx) as (_ & _ & Hm). rewrite Forall_forall in Hm.
    destruct (Hm _ Hin) as (r' & Hr' & Hb'). destruct k. unfold op_key in Hr'; cbn in *. congruence.
  - intros Hbeg. destruct (so_begin _ Hok _ _ Hr) as (q & y & Hy & Hin & Hid); [lia|].
    assert (started_ y = true). { destruct (started_ y) eqn:E; [done|]. destruct (so_trx _ Hok _ _ Hy) as (_ & He & _).
      rewrite (He E) in Hin. by apply elem_of_nil in Hin. }
    assert (q = p) as -> by (eapply (so_uniq _ Hok); eauto; lia). congruence.
Qed.
Lemma own_del s p x k r :
  sys_ok s → heap s !! p = Some x → started_ x = true → row_at s k = Some r →
  del k ∈ operations_ x ↔ end_xid r = - trx_id_ x.
Proof.
  intros Hok Hx Hs Hr. destruct (so_trx _ Hok _ _ Hx) as (_ & _ & Hb). specialize (Hb Hs). split.
  - intros Hin. destruct (so_ops _ Hok _ _ Hx) as (_ & _ & Hm). rewrite Forall_forall in Hm.
    destruct (Hm _ Hin) as (r' & Hr' & Hb'). destruct k. unfold op_key in Hr'; cbn in *. congruence.
  - intros Hend. destruct (so_end _ Hok _ _ Hr) as (q & y & Hy & Hin & Hid); [lia|].
    assert (started_ y = true). { destruct (started_ y) eqn:E; [done|]. destruct (so_trx _ Hok _ _ Hy) as (_ & He & _).
      rewrite (He E) in Hin. by apply elem_of_nil in Hin. }
    assert (q = p) as -> by (eapply (so_uniq _ Hok); eauto; lia). congruence.
Qed.

(** an operation in the list has its row *)
Lemma op_has_row s p x o : sys_ok s → heap s !! p = Some x → o ∈ operations_ x → is_Some (row_at s (op_key o)).
Proof.
  intros Hok Hx Hin. destruct (so_ops _ Hok _ _ Hx) as (_ & _ & Hm). rewrite Forall_forall in Hm.
  destruct (Hm _ Hin) as (r & Hr & _). eauto.
Qed.

(** ** The calls *)

Lemma op_marked_ext s s' id o : (∀ k, row_at s' k = row_at s k) → op_marked s id o → op_marked s' id o.
Proof. intros Hr (r & ? & ?). exists r. by rewrite Hr. Qed.

Lemma sys_ok_ext s s' :
  sys_ok s → heap s' = heap s → kit s' = kit s → log_ready (log s') → (∀ k, row_at s' k = row_at s k) → sys_ok s'.
Proof.
  intros [] Hh Hk Hl Hr. split; rewrite ?Hh, ?Hk; try done.
  - intros p x Hx. destruct (so_ops0 p x Hx) as (? & ? & Hm). split; [done|]. split; [done|].
    eapply Forall_impl; [exact Hm|]. intros o. by apply op_marked_ext.
  - intros k r. rewrite Hr. apply so_begin0.
  - intros k r. rewrite Hr. apply so_end0.
  - intros k r. rewrite Hr. apply so_pos0.
  - intros k r. rewrite Hr. apply so_excl0.
Qed.

Lemma log_payload_max (zs : list Z) : len zs ≤ 16 → len (enc_fields zs) ≤ log_max.
Proof. intros. rewrite len_enc_fields. pose proof log_max_page. assert (0 ≤ BP_PAGE_DATA_SIZE) by done. lia. Qed.

Lemma on_log_eq {A} (c : M L A) s a l' : c (log s) = Some (a, l') → on_log c s = Some (a, set_log l' s).
Proof. intros Hc. unfold on_log. by rewrite bind_get, (bind_liftO _ _ _ _ Hc), bind_modify. Qed.

Lemma log_append_ok zs s : log_ready (log s) → len zs ≤ 16 →
  ∃ l', on_log (append TRANSACTION (enc_fields zs)) s = Some ((SUCCESS, wal_lsn (log s) + 1), set_log l' s) ∧ log_ready l' ∧
    wal_entries l' = wal_entries (log s) ++ [mkLogRec (wal_lsn (log s) + 1) TRANSACTION (enc_fields zs)].
Proof.
  intros Hr Hl. destruct (wal_append (log s) TRANSACTION (enc_fields zs) Hr (log_payload_max zs Hl)) as (l' & E & Hr' & _ & He).
  exists l'. split; [by apply on_log_eq|done].
Qed.

Lemma log_record_ok op id tid rid s : log_ready (log s) → 0 < id →
  ∃ l', log_record op id tid rid s = Some (SUCCESS, set_log l' s) ∧ log_ready l'.
Proof.
  intros Hr Hid. unfold log_record. rewrite bind_assertM by (by apply Z.ltb_lt).
  destruct (log_append_ok [log_op_index op; id; tid; page_num rid; slot_num rid] s Hr) as (l' & E & Hr' & _); [done|].
  exists l'. by rewrite (bind_eq _ _ _ _ _ E).
Qed.

Lemma trx_deref_eq p s x : heap s !! p = Some x → deref p s = Some (x, s).
Proof. intros Hx. unfold deref. rewrite bind_get. unfold liftO. by rewrite Hx. Qed.

Lemma push_operation_eq p o s x : heap s !! p = Some x →
  push_operation p o s = Some (tt, set_trx p (with_ops x (operations_ x ++ [o])) s).
Proof. intros Hx. unfold push_operation. by rewrite (bind_eq _ _ _ _ _ (trx_deref_eq _ _ _ Hx)). Qed.

(** the marks of the operations already in the list, and of the new one, after [push_operation] *)
Lemma marked_snoc s s' x o :
  Forall (op_marked s (trx_id_ x)) (operations_ x) →
  (∀ o', o' ∈ operations_ x → op_marked s (trx_id_ x) o' → op_marked s' (trx_id_ x) o') → op_marked s' (trx_id_ x) o →
  Forall (op_marked s' (trx_id_ x)) (operations_ x ++ [o]).
Proof.
  intros Hm Hk Ho. apply Forall_app. split; [|by apply Forall_singleton].
  rewrite Forall_forall in Hm |- *. intros o' Hin. apply Hk; auto.
Qed.

(** the owner of an operation still has it after a push *)
Lemma owner_push s s' p x l o z :
  heap s !! p = Some x → heap s' = <[p := with_ops x (operations_ x ++ l)]> (heap s) →
  (∃ q y, heap s !! q = Some y ∧ o ∈ operations_ y ∧ trx_id_ y = z) →
  ∃ q y, heap s' !! q = Some y ∧ o ∈ operations_ y ∧ trx_id_ y = z.
Proof.
  intros Hx -> (q & y & Hy & Hin & Hz). destruct (decide (q = p)) as [->|Hq].
  - exists p. rewrite lookup_insert_eq. eexists. split; [done|]. simplify_eq. split; [cbn; set_solver|done].
  - exists q, y. by rewrite lookup_insert_ne.
Qed.

Lemma mvcc_insert_ok s p x tid data :
  sys_ok s → heap s !! p = Some x → started_ x = true → is_Some (tables s !! tid) →
  ∃ rc ro s', insert_record p tid data s = Some ((rc, ro), s') ∧ sys_ok s' ∧ kit s' = kit s ∧
    ((rc = SUCCESS ∧ ∃ rid, ro = Some rid ∧ row_at s (tid, rid) = None ∧
       heap s' = <[p := with_ops x (operations_ x ++ [ins (tid, rid)])]> (heap s) ∧
       ∀ k, row_at s' k = if decide (k = (tid, rid)) then Some (mkRow (- trx_id_ x) max_trx_id data) else row_at s k) ∨
     (rc ≠ SUCCESS ∧ ro = None ∧ heap s' = heap s ∧ ∀ k, row_at s' k = row_at s k)).
Proof.
  intros Hok Hx Hst [t Ht]. destruct (so_trx _ Hok _ _ Hx) as (Hrec & _ & Hid). specialize (Hid Hst).
  unfold insert_record. rewrite (bind_eq _ _ _ _ _ (trx_deref_eq _ _ _ Hx)). cbv zeta.
  set (r := mkRow _ _ _). destruct (table_insert_ok t r) as (rc & ro & t' & E & Hres).
  rewrite (bind_eq _ _ _ _ _ (on_table_eq tid t _ s _ t' Ht E)). cbn [fst snd].
  set (s1 := set_table tid t' s).
  destruct Hres as [(rid & -> & -> & Hnone & Hrows)|[Hrc Hrows]].
  2:{ rewrite bool_decide_eq_false_2 by done. cbn [negb]. exists rc, None, s1. split; [done|].
      assert (Hr1 : ∀ k, row_at s1 k = row_at s k).
      { intros [tid' rid']. unfold s1. rewrite row_at_set_table. cbn. case_decide; [subst|done].
        unfold row_at; cbn. by rewrite Ht, Hrows. }
      split; [by apply (sys_ok_ext s); [done..|apply (so_log _ Hok)|]|]. split; [done|]. by right. }
  rewrite bool_decide_eq_true_2 by done. cbn [negb]. rewrite (bind_liftO _ _ _ _ (eq_refl (Some rid))).
  destruct (log_record_ok INSERT_RECORD (trx_id_ x) tid rid s1) as (l' & E2 & Hl'); [apply (so_log _ Hok)|lia|].
  unfold log_insert_record. rewrite (bind_eq _ _ _ _ _ E2), bind_assertM by done.
  rewrite (bind_eq _ _ _ _ _ (push_operation_eq p _ (set_log l' s1) x Hx)).
  do 3 eexists. split; [done|]. set (s' := set_trx _ _ _).
  assert (Hk : row_at s (tid, rid) = None) by (unfold row_at; cbn; by rewrite Ht).
  assert (Hrow : ∀ k, row_at s' k = if decide (k = (tid, rid)) then Some r else row_at s k).
  { intros [tid' rid']. change (row_at s' (tid', rid')) with (row_at s1 (tid', rid')). unfold s1. rewrite row_at_set_table. cbn.
    unfold row_at; cbn. repeat case_decide; simplify_eq; try done.
    - by rewrite Hrows, lookup_insert_eq.
    - rewrite Ht. cbn. rewrite Hrows. rewrite lookup_insert_ne; [done|congruence]. }
  split; [|split; [done|left; split; [done|by exists rid]]].
  assert (Hkeep : ∀ id o, op_marked s id o → op_marked s' id o).
  { intros id o (r' & Hr' & ?). exists r'. rewrite Hrow, decide_False; [done|]. intros Heq. rewrite Heq in Hr'. congruence. }
  destruct (so_ops _ Hok _ _ Hx) as (Hnd & Hord & Hm).
  assert (Hnew : ∀ o, o ∈ operations_ x → op_key o ≠ (tid, rid)).
  { intros o Hin Heq. destruct (op_has_row _ _ _ _ Hok Hx Hin). rewrite Heq in *. congruence. }
  apply (sys_ok_update s s' p x (with_ops x (operations_ x ++ [ins (tid, rid)]))); try done; try (cbn; lia).
  - cbn. congruence.
  - intros _. by left.
  - apply NoDup_app. split; [done|]. split; [|apply NoDup_singleton].
    intros o Hin ->%list_elem_of_singleton. by apply (Hnew _ Hin).
  - cbn [operations_ with_ops]. rewrite reverse_snoc. split; [|done]. intros _ Hin. rewrite elem_of_reverse in Hin. by apply (Hnew _ Hin).
  - apply (marked_snoc s s' x); [done|auto|]. exists r. by rewrite Hrow, decide_True by done.
  - auto.
  - intros k r' Hr'. rewrite Hrow in Hr'. case_decide as Hkk.
    + injection Hr' as <-. subst k. cbn. split; [|repeat split; unfold max_trx_id; lia].
      intros _. exists p, (with_ops x (operations_ x ++ [ins (tid, rid)])). rewrite lookup_insert_eq. split; [done|]. cbn. split; [set_solver|lia].
    + pose proof (so_pos _ Hok _ _ Hr') as (? & ? & ?). split; [|split; [|split; [done|split; [done|split; [done|apply (so_excl _ Hok _ _ Hr')]]]]].
      * intros Hb. eapply owner_push; [exact Hx|done|]. by apply (so_begin _ Hok).
      * intros Hb. eapply owner_push; [exact Hx|done|]. by apply (so_end _ Hok).
Qed.

(** what a successful READ_WRITE visit says about the marks of the row *)
Lemma visit_write_marks s x k r :
  sys_ok s → row_at s k = Some r → 0 < trx_id_ x → visit_record (trx_id_ x) r READ_WRITE = SUCCESS →
  (begin_xid r < 0 → begin_xid r = - trx_id_ x) ∧ (end_xid r < 0 → end_xid r = - trx_id_ x ∧ begin_xid r = - trx_id_ x).
Proof.
  intros Hok Hr Hid Hv. pose proof (so_excl _ Hok _ _ Hr) as Hex. pose proof (so_pos _ Hok _ _ Hr) as (Hb0 & He0 & _).
  unfold visit_record in Hv. repeat case_match; zbool; rewrite ?andb_true_iff, ?andb_false_iff, ?negb_true_iff, ?negb_false_iff in *;
    try done; zbool; lia.
Qed.

Lemma mvcc_delete_ok s p x tid rid :
  sys_ok s → heap s !! p = Some x → started_ x = true → is_Some (tables s !! tid) →
  ¬ (ins (tid, rid) ∈ operations_ x ∧ del (tid, rid) ∈ operations_ x) →
  ∃ rc s', delete_record p tid rid s = Some (rc, s') ∧ sys_ok s' ∧ kit s' = kit s ∧
    ((rc = SUCCESS ∧ ∃ r, row_at s (tid, rid) = Some r ∧ visit_record (trx_id_ x) r READ_WRITE = SUCCESS ∧
       heap s' = <[p := with_ops x (operations_ x ++ [del (tid, rid)])]> (heap s) ∧
       ∀ k, row_at s' k = if decide (k = (tid, rid)) then Some (set_end (- trx_id_ x) r) else row_at s k) ∨
     (rc ≠ SUCCESS ∧ (∀ r, row_at s (tid, rid) = Some r → rc = visit_record (trx_id_ x) r READ_WRITE) ∧ heap s' = heap s ∧ ∀ k, row_at s' k = row_at s k)).
Proof.
  intros Hok Hx Hst [t Ht] Hboth. destruct (so_trx _ Hok _ _ Hx) as (Hrec & _ & Hid). specialize (Hid Hst).
  unfold delete_record. rewrite (bind_eq _ _ _ _ _ (trx_deref_eq _ _ _ Hx)).
  destruct (row_at s (tid, rid)) as [r|] eqn:Er.
  2:{ assert (Hn : rows t !! rid = None) by (unfold row_at in Er; cbn in Er; by rewrite Ht in Er).
      destruct (table_visit_none t rid (delete_visitor (trx_id_ x)) Hn) as (rc & t' & E & Hrc & Hrows).
      rewrite (bind_eq _ _ _ _ _ (on_table_eq tid t _ s _ t' Ht E)). cbn [fst snd].
      unfold OB_FAIL. rewrite bool_decide_eq_true_2 by done. exists rc, (set_table tid t' s). split; [done|].
      assert (Hr1 : ∀ k, row_at (set_table tid t' s) k = row_at s k).
      { intros [tid' rid']. rewrite row_at_set_table. cbn. case_decide; [subst|done]. unfold row_at; cbn. by rewrite Ht, Hrows. }
      split; [by apply (sys_ok_ext s); [done..|apply (so_log _ Hok)|]|]. split; [done|]. right. split; [done|]. split; [by intros ? [=]|done]. }
  destruct (decide (visit_record (trx_id_ x) r READ_WRITE = SUCCESS)) as [Ev|Ev].
  2:{ destruct (visit_row s (tid, rid) r (delete_visitor (trx_id_ x)) None (visit_record (trx_id_ x) r READ_WRITE) Er)
        as (s1 & E1 & [Hk1 Hh1 Hl1 _] & Hr1).
      { unfold delete_visitor, OB_FAIL. by rewrite bool_decide_eq_true_2. }
      cbn [fst snd] in E1. rewrite (bind_eq _ _ _ _ _ E1). cbn [fst snd]. cbv zeta iota. change (OB_FAIL SUCCESS) with false. cbv iota.
      cbv zeta iota. unfold OB_FAIL. rewrite bool_decide_eq_true_2 by done. do 2 eexists. split; [done|].
      assert (Hr1' : ∀ k, row_at s1 k = row_at s k) by (intros k; rewrite Hr1; cbn; case_decide; by subst).
      split; [apply (sys_ok_ext s); [done..|rewrite Hl1; apply (so_log _ Hok)|done]|]. split; [done|]. right. split; [done|]. split; [by intros ? [= <-]|done]. }
  assert (Hnew : del (tid, rid) ∉ operations_ x).
  { intros Hd. pose proof (proj1 (own_del _ _ _ _ _ Hok Hx Hst Er) Hd) as Hend.
    destruct (visit_write_marks s x _ r Hok Er) as [_ Hve]; [lia|done|]. apply Hboth. split; [|done].
    apply (own_ins _ _ _ _ _ Hok Hx Hst Er), Hve. lia. }
  destruct (visit_row s (tid, rid) r (delete_visitor (trx_id_ x)) (Some (set_end (- trx_id_ x) r)) SUCCESS Er)
    as (s1 & E1 & [Hk1 Hh1 Hl1 _] & Hr1); [unfold delete_visitor; by rewrite Ev|].
  cbn [fst snd] in E1. rewrite (bind_eq _ _ _ _ _ E1). cbn [fst snd]. cbv zeta iota. change (OB_FAIL SUCCESS) with false. cbv iota.
  destruct (log_record_ok DELETE_RECORD (trx_id_ x) tid rid s1) as (l' & E2 & Hl'); [rewrite Hl1; apply (so_log _ Hok)|lia|].
  unfold log_delete_record. rewrite (bind_eq _ _ _ _ _ E2), bind_assertM by done.
  rewrite <-Hh1 in Hx. rewrite (bind_eq _ _ _ _ _ (push_operation_eq p _ (set_log l' s1) x Hx)). rewrite Hh1 in Hx.
  do 2 eexists. split; [done|]. set (s' := set_trx _ _ _).
  assert (Hh' : heap s' = <[p := with_ops x (operations_ x ++ [del (tid, rid)])]> (heap s)) by (unfold s'; cbn; by rewrite Hh1).
  assert (Hrow : ∀ k, row_at s' k = if decide (k = (tid, rid)) then Some (set_end (- trx_id_ x) r) else row_at s k) by exact Hr1.
  split; [|split; [done|left; split; [done|by exists r]]].
  destruct (visit_write_marks s x _ r Hok Er) as [Hvb Hve]; [lia|done|].
  destruct (so_ops _ Hok _ _ Hx) as (Hnd & Hord & Hm). pose proof (so_pos _ Hok _ _ Er) as (Hp1 & Hp2 & Hp3).
  assert (Hkeep : ∀ id o, (op_type o = OP_INSERT ∨ (id ≠ trx_id_ x ∧ 0 < id) ∨ o ≠ del (tid, rid)) → op_marked s id o → op_marked s' id o).
  { intros id o Hc (r' & Hr' & Hm'). unfold op_marked. rewrite Hrow. destruct (decide (op_key o = (tid, rid))) as [Hke|]; [|eauto].
    rewrite Hke, Er in Hr'. injection Hr' as <-. eexists. split; [done|]. destruct (op_type o) eqn:Et; try done. cbn.
    destruct Hc as [?|[[Hne Hpos]|Hne]]; [done| |].
    - destruct Hve; lia.
    - exfalso. apply Hne. symmetry. by apply del_eq. }
  apply (sys_ok_update s s' p x (with_ops x (operations_ x ++ [del (tid, rid)]))); try done; try (unfold s'; cbn; rewrite Hk1; cbn; lia).
  - cbn. congruence.
  - intros _. by left.
  - apply NoDup_app. split; [done|]. split; [|apply NoDup_singleton]. intros o Hin ->%list_elem_of_singleton. done.
  - cbn [operations_ with_ops]. rewrite reverse_snoc. by split.
  - apply (marked_snoc s s' x); [done| |].
    + intros o Ho. apply Hkeep. right. right. by intros ->.
    + exists (set_end (- trx_id_ x) r). by rewrite Hrow, decide_True by done.
  - intros q y o Hq Hy Hsy Ho. apply Hkeep. right. left. split.
    + intros Heq. apply Hq. eapply (so_uniq _ Hok); eauto.
    + destruct (so_trx _ Hok _ _ Hy) as (_ & _ & Hb). by apply Hb.
  - intros k r' Hr'. rewrite Hrow in Hr'. rewrite Hh'. change (kit s') with (kit s1). rewrite Hk1. case_decide as Hkk.
    + injection Hr' as <-. subst k. cbn. split; [|repeat split; try done; try lia].
      * intros Hb. rewrite <-Hh'. eapply owner_push; [exact Hx|exact Hh'|]. by apply (so_begin _ Hok).
      * intros _. exists p. rewrite lookup_insert_eq. eexists. split; [done|]. cbn. split; [set_solver|lia].
    + pose proof (so_pos _ Hok _ _ Hr') as (? & ? & ?). split; [|split; [|split; [done|split; [done|split; [done|apply (so_excl _ Hok _ _ Hr')]]]]].
      * intros Hb. rewrite <-Hh'. eapply owner_push; [exact Hx|exact Hh'|]. by apply (so_begin _ Hok).
      * intros Hb. rewrite <-Hh'. eapply owner_push; [exact Hx|exact Hh'|]. by apply (so_end _ Hok).
Qed.

(** [next_trx_id] before the counter overflows *)
Lemma next_trx_id_ok s : 0 ≤ current_trx_id_ (kit s) < max_trx_id →
  next_trx_id s = Some (current_trx_id_ (kit s) + 1, set_kit (mkKit (current_trx_id_ (kit s) + 1) (trxes_ (kit s))) s).
Proof.
  intros Hc. unfold next_trx_id. rewrite bind_get. cbv zeta.
  rewrite wrap32_id by (unfold in_int32, max_trx_id in *; lia). done.
Qed.

Lemma alloc_ptr_fresh (h : gmap Z Trx) : h !! alloc_ptr h = None ∧ 0 < alloc_ptr h.
Proof.
  assert (Hb : ∀ k r, h !! k = Some r → k < alloc_ptr h).
  { unfold alloc_ptr. apply (map_fold_weak_ind (λ acc m, ∀ k (r : Trx), m !! k = Some r → k < acc)); [done|].
    intros i y m acc Hi IH k r [[<- <-]|[Hne Hk]]%lookup_insert_Some; [lia|]. specialize (IH k r Hk). lia. }
  split; [destruct (h !! alloc_ptr h) eqn:E; [specialize (Hb _ _ E); lia|done]|].
  unfold alloc_ptr. apply (map_fold_weak_ind (λ acc _, 0 < acc)); lia.
Qed.

(** a row that nobody touched keeps an owner among the transactions that did not change *)
Lemma owner_other s s' p x x' o z :
  heap s !! p = Some x → heap s' = <[p := x']> (heap s) → (o ∈ operations_ x → trx_id_ x = z → False) →
  (∃ q y, heap s !! q = Some y ∧ o ∈ operations_ y ∧ trx_id_ y = z) →
  ∃ q y, heap s' !! q = Some y ∧ o ∈ operations_ y ∧ trx_id_ y = z.
Proof.
  intros Hx -> Hno (q & y & Hy & Hin & Hz). destruct (decide (q = p)) as [->|Hq].
  - exfalso. simplify_eq. by apply Hno.
  - exists q, y. by rewrite lookup_insert_ne.
Qed.

Lemma start_if_need_ok s p x :
  sys_ok s → heap s !! p = Some x → current_trx_id_ (kit s) < max_trx_id →
  ∃ s' x', start_if_need p s = Some (SUCCESS, s') ∧ sys_ok s' ∧ heap s' = <[p := x']> (heap s) ∧
    (∀ k, row_at s' k = row_at s k) ∧ started_ x' = true ∧
    (if started_ x then x' = x ∧ kit s' = kit s
     else operations_ x' = [] ∧ trx_id_ x' = current_trx_id_ (kit s) + 1 ∧ current_trx_id_ (kit s') = current_trx_id_ (kit s) + 1).
Proof.
  intros Hok Hx Hc. unfold start_if_need. rewrite (bind_eq _ _ _ _ _ (trx_deref_eq _ _ _ Hx)).
  destruct (so_trx _ Hok _ _ Hx) as (Hrec & Hns & _). destruct (started_ x) eqn:Es; cbn [negb].
  { exists s, x. split; [done|]. split; [done|]. split; [by rewrite insert_id|done]. }
  rewrite (Hns eq_refl), bind_assertM by done. pose proof (so_clock _ Hok).
  rewrite (bind_eq _ _ _ _ _ (next_trx_id_ok s ltac:(lia))), bind_modify.
  set (x' := mkTrx _ _ _ _). set (s' := set_trx _ _ _). exists s', x'. split; [done|]. split; [|done].
  apply (sys_ok_update s s' p x x'); try done; unfold s'; cbn; try lia; try apply (so_log _ Hok).
  - constructor.
  - intros k r Hr. change (row_at s k = Some r) in Hr. pose proof (so_pos _ Hok _ _ Hr) as (? & ? & ?).
    assert (Hno : ∀ o z, o ∈ operations_ x → trx_id_ x = z → False) by (intros o z; rewrite (Hns eq_refl); by intros ?%elem_of_nil).
    split; [|split; [|split; [done|split; [done|split; [lia|apply (so_excl _ Hok _ _ Hr)]]]]];
      intros Hb; eapply (owner_other s s' p x x'); try done; [by apply Hno|by apply (so_begin _ Hok)|by apply Hno|by apply (so_end _ Hok)].
Qed.

(** the rows that carry the marks of transaction [x] are those of its operations *)
Lemma commit_row_marks s p x c k r :
  sys_ok s → heap s !! p = Some x → started_ x = true → row_at s k = Some r →
  commit_row (operations_ x) c k r =
    mkRow (if decide (begin_xid r = - trx_id_ x) then c else begin_xid r)
          (if decide (end_xid r = - trx_id_ x) then c else end_xid r) (row_data r).
Proof.
  intros Hok Hx Hs Hr. unfold commit_row. pose proof (own_ins _ _ _ _ _ Hok Hx Hs Hr). pose proof (own_del _ _ _ _ _ Hok Hx Hs Hr).
  f_equal; repeat case_decide; tauto.
Qed.

Lemma log_commit_ok id c s : log_ready (log s) → 0 < id → id < c →
  ∃ rc l', log_commit id c s = Some (rc, set_log l' s) ∧ log_ready l'.
Proof.
  intros Hr Hid Hc. unfold log_commit. rewrite bind_assertM by (apply andb_true_iff; split; by apply Z.ltb_lt).
  destruct (log_append_ok [log_op_index COMMIT; id; c] s Hr) as (l1 & E & Hr1 & _); [done|].
  rewrite (bind_eq _ _ _ _ _ E). change (OB_FAIL _) with false. cbv iota. cbn [fst snd].
  destruct (wait_total l1 (wal_lsn (log s) + 1) Hr1) as (rc & l' & E' & Hr').
  exists rc, l'. split; [|done]. by rewrite (on_log_eq (wait_lsn _) (set_log l1 s) _ _ E').
Qed.

Lemma log_rollback_ok id s : log_ready (log s) → 0 < id →
  ∃ l', log_rollback uninit id s = Some (SUCCESS, set_log l' s) ∧ log_ready l'.
Proof.
  intros Hr Hid. unfold log_rollback. rewrite bind_assertM by (by apply Z.ltb_lt).
  destruct (log_append_ok [log_op_index ROLLBACK; id; uninit] s Hr) as (l1 & E & Hr1 & _); [done|].
  exists l1. by rewrite (bind_eq _ _ _ _ _ E).
Qed.

(** the marks of the other transactions survive a change of the rows of [x]'s operations *)
Lemma other_ids s p q x y :
  sys_ok s → heap s !! p = Some x → heap s !! q = Some y → started_ x = true → started_ y = true → q ≠ p →
  trx_id_ y ≠ trx_id_ x ∧ 0 < trx_id_ y ≤ current_trx_id_ (kit s).
Proof.
  intros Hok Hx Hy Hsx Hsy Hq. split; [intros Heq; apply Hq; eapply (so_uniq _ Hok); eauto|].
  destruct (so_trx _ Hok _ _ Hy) as (_ & _ & Hb). by apply Hb.
Qed.

(** a finished transaction: the marks of [x] are gone, the others are where they were *)
Lemma sys_ok_finish s s' p x c :
  sys_ok s → heap s !! p = Some x → started_ x = true →
  heap s' = <[p := mkTrx (trx_id_ x) false (recovering_ x) []]> (heap s) → log_ready (log s') →
  current_trx_id_ (kit s) ≤ current_trx_id_ (kit s') → 0 < c → c ≤ current_trx_id_ (kit s') ∨ c = max_trx_id →
  (∀ k r', row_at s' k = Some r' → ∃ r, row_at s k = Some r ∧
     (begin_xid r' = begin_xid r ∧ begin_xid r ≠ - trx_id_ x ∨ begin_xid r = - trx_id_ x ∧ begin_xid r' = c ∧ c ≤ current_trx_id_ (kit s')) ∧
     (end_xid r' = end_xid r ∧ end_xid r ≠ - trx_id_ x ∨ end_xid r = - trx_id_ x ∧ end_xid r' = c)) →
  (∀ k r, row_at s k = Some r → begin_xid r ≠ - trx_id_ x → ∃ r', row_at s' k = Some r' ∧
     begin_xid r' = begin_xid r ∧ (end_xid r ≠ - trx_id_ x → end_xid r' = end_xid r)) →
  sys_ok s'.
Proof.
  intros Hok Hx Hst Hh Hl Hcl Hc Hc' Hrows Hkeep. destruct (so_trx _ Hok _ _ Hx) as (Hrec & _ & Hid). specialize (Hid Hst).
  apply (sys_ok_update s s' p x _ Hok Hx Hh Hl Hcl); try done; [constructor|..].
  - intros q y o Hq Hy Hsy Hin (r & Hr & Ht).
    destruct (other_ids s p q x y Hok Hx Hy Hst Hsy Hq) as [Hne Hpos].
    assert (Hb : begin_xid r ≠ - trx_id_ x).
    { intros Hb. destruct (op_type o); try done; [lia|]. pose proof (so_excl _ Hok _ _ Hr). lia. }
    destruct (Hkeep _ _ Hr Hb) as (r' & Hr' & Hb' & He'). exists r'. split; [done|].
    destruct (op_type o); try done; [congruence|]. rewrite He'; lia.
  - intros k r' Hr'. destruct (Hrows _ _ Hr') as (r & Hr & Hbeg & Hend). pose proof (so_pos _ Hok _ _ Hr) as (? & ? & ?).
    pose proof (so_excl _ Hok _ _ Hr) as Hex.
    split; [|split; [|split; [lia|split; [unfold max_trx_id in *; lia|split; [lia|]]]]].
    + intros Hneg. eapply (owner_other s s' p x _ _ _ Hx Hh); [intros _ Hz; lia|].
      destruct (so_begin _ Hok _ _ Hr) as (q & y & ? & ? & ?); [lia|]. exists q, y. split; [done|]. split; [done|]. lia.
    + intros Hneg. eapply (owner_other s s' p x _ _ _ Hx Hh); [intros _ Hz; lia|].
      destruct (so_end _ Hok _ _ Hr) as (q & y & ? & ? & ?); [lia|]. exists q, y. split; [done|]. split; [done|]. lia.
    + intros Hb He. lia.
Qed.

(** what commit with id [c] and rollback make of a row, for transaction [id] *)
Definition committed (id c : Z) (r : Row) : Row :=
  mkRow (if decide (begin_xid r = - id) then c else begin_xid r)
        (if decide (end_xid r = - id) then c else end_xid r) (row_data r).
Definition rolled_back (id : Z) (r : Row) : option Row :=
  if decide (begin_xid r = - id) then None
  else Some (mkRow (begin_xid r) (if decide (end_xid r = - id) then max_trx_id else end_xid r) (row_data r)).

Lemma commit_ok s p x :
  sys_ok s → heap s !! p = Some x → started_ x = true → current_trx_id_ (kit s) < max_trx_id →
  let c := current_trx_id_ (kit s) + 1 in
  ∃ rc s', commit p s = Some (rc, s') ∧ sys_ok s' ∧ current_trx_id_ (kit s') = c ∧
    heap s' = <[p := mkTrx (trx_id_ x) false (recovering_ x) []]> (heap s) ∧
    ∀ k, row_at s' k = committed (trx_id_ x) c <$> row_at s k.
Proof.
  intros Hok Hx Hst Hmax c. destruct (so_trx _ Hok _ _ Hx) as (Hrec & _ & Hid). specialize (Hid Hst).
  pose proof (so_clock _ Hok). destruct (so_ops _ Hok _ _ Hx) as (Hnd & _ & Hm).
  unfold commit. rewrite (bind_eq _ _ _ _ _ (next_trx_id_ok s ltac:(lia))).
  set (s0 := set_kit _ s). unfold commit_with_trx_id. rewrite (bind_eq _ _ _ _ _ (trx_deref_eq p s0 x Hx)), bind_modify.
  set (s1 := set_trx _ _ _).
  destruct (commit_loop x c (operations_ x) s1 Hrec Hnd) as (s2 & E2 & [Hk2 Hh2 Hl2 _] & Hr2).
  { eapply Forall_impl; [exact Hm|]. intros o. by apply op_marked_ext. }
  rewrite (bind_eq _ _ _ _ _ E2), Hrec. cbn [negb].
  destruct (log_commit_ok (trx_id_ x) c s2) as (rc & l' & E3 & Hl'); [rewrite Hl2; apply (so_log _ Hok)|lia|unfold c; lia|].
  rewrite (bind_eq _ _ _ _ _ E3), bind_modify. eexists rc, _. split; [done|]. set (s' := set_trx _ _ _).
  assert (Hrow : ∀ k, row_at s' k = committed (trx_id_ x) c <$> row_at s k).
  { intros k. change (row_at s' k) with (row_at s2 k). rewrite Hr2. change (row_at s1 k) with (row_at s k).
    destruct (row_at s k) as [r|] eqn:Er; [|done]. cbn. f_equal. by apply (commit_row_marks s p). }
  assert (Hclock : current_trx_id_ (kit s') = c) by (unfold s'; cbn; by rewrite Hk2).
  assert (Hheap : heap s' = <[p := mkTrx (trx_id_ x) false (recovering_ x) []]> (heap s)).
  { unfold s'. cbn. rewrite Hh2. unfold s1. cbn. by rewrite Hrec, insert_insert_eq. }
  split; [|split; [exact Hclock|split; [by rewrite Hheap, Hrec|exact Hrow]]].
  apply (sys_ok_finish s s' p x c Hok Hx Hst Hheap); try done; [lia|unfold c; lia|left; lia|..].
  - intros k r'. rewrite Hrow. destruct (row_at s k) as [r|]; [|done]. intros [= <-]. exists r. split; [done|].
    rewrite Hclock. unfold committed; cbn. repeat case_decide; lia.
  - intros k r Hr Hb. rewrite Hrow, Hr. eexists. split; [done|]. unfold committed; cbn. repeat case_decide; try done.
Qed.

Lemma rollback_ok s p x :
  sys_ok s → heap s !! p = Some x → started_ x = true →
  ∃ s', rollback uninit p s = Some (SUCCESS, s') ∧ sys_ok s' ∧ kit s' = kit s ∧
    heap s' = <[p := mkTrx (trx_id_ x) false (recovering_ x) []]> (heap s) ∧
    ∀ k, row_at s' k = (r ← row_at s k; rolled_back (trx_id_ x) r).
Proof.
  intros Hok Hx Hst. destruct (so_trx _ Hok _ _ Hx) as (Hrec & _ & Hid). specialize (Hid Hst).
  destruct (so_ops _ Hok _ _ Hx) as (Hnd & Hord & Hm).
  unfold rollback. rewrite (bind_eq _ _ _ _ _ (trx_deref_eq p s x Hx)), bind_modify. set (s1 := set_trx _ _ _).
  destruct (rollback_loop_ok x (reverse (operations_ x)) s1 Hrec) as (s2 & E2 & [Hk2 Hh2 Hl2 _] & Hr2); [|done| |].
  { by rewrite reverse_Permutation. }
  { apply Forall_reverse. eapply Forall_impl; [exact Hm|]. intros o. by apply op_marked_ext. }
  rewrite (bind_eq _ _ _ _ _ E2), bind_modify. cbn [recovering_]. rewrite Hrec. cbn [negb].
  set (s3 := set_trx _ _ s2).
  destruct (log_rollback_ok (trx_id_ x) s3) as (l' & E3 & Hl'); [unfold s3; cbn; rewrite Hl2; apply (so_log _ Hok)|lia|].
  rewrite E3. eexists. split; [done|]. set (s' := set_log l' s3).
  assert (Hrow : ∀ k, row_at s' k = (r ← row_at s k; rolled_back (trx_id_ x) r)).
  { intros k. change (row_at s' k) with (row_at s2 k). rewrite Hr2. change (row_at s1 k) with (row_at s k).
    destruct (row_at s k) as [r|] eqn:Er; [|done]. cbn [mbind option_bind]. unfold rollback_row, rolled_back.
    pose proof (elem_of_reverse (ins k) (operations_ x)). pose proof (elem_of_reverse (del k) (operations_ x)).
    pose proof (own_ins _ _ _ _ _ Hok Hx Hst Er). pose proof (own_del _ _ _ _ _ Hok Hx Hst Er).
    repeat case_decide; try done; tauto. }
  assert (Hheap : heap s' = <[p := mkTrx (trx_id_ x) false (recovering_ x) []]> (heap s)).
  { unfold s', s3. cbn. rewrite Hh2. unfold s1. cbn. by rewrite Hrec, insert_insert_eq. }
  assert (Hkit : kit s' = kit s) by exact Hk2.
  split; [|split; [exact Hkit|split; [by rewrite Hheap, Hrec|exact Hrow]]].
  apply (sys_ok_finish s s' p x max_trx_id Hok Hx Hst Hheap); try done; [by rewrite Hkit|by right|..].
  - intros k r'. rewrite Hrow. destruct (row_at s k) as [r|]; [|done]. cbn [mbind option_bind]. unfold rolled_back.
    case_decide; [done|]. intros [= <-]. exists r. split; [done|]. cbn. case_decide; naive_solver.
  - intros k r Hr Hb. rewrite Hrow, Hr. cbn [mbind option_bind]. unfold rolled_back. rewrite decide_False by done.
    eexists. split; [done|]. cbn. split; [done|]. intros. by rewrite decide_False.
Qed.

Lemma create_trx_ok s :
  sys_ok s → ∃ p s', create_trx s = Some (p, s') ∧ sys_ok s' ∧ 0 < p ∧ heap s !! p = None ∧
    heap s' = <[p := mkTrx (-1) false false []]> (heap s) ∧ current_trx_id_ (kit s') = current_trx_id_ (kit s) ∧
    (∀ k, row_at s' k = row_at s k).
Proof.
  intros Hok. unfold create_trx, new_trx. rewrite bind_assoc, bind_get, bind_assoc, bind_modify, bind_ret, bind_modify.
  destruct (alloc_ptr_fresh (heap s)) as [Hf Hpos]. set (p := alloc_ptr (heap s)) in *.
  do 2 eexists. split; [done|]. set (s' := set_kit _ _).
  assert (Hh : heap s' = <[p := mkTrx (-1) false false []]> (heap s)) by done.
  split; [|done]. destruct Hok. split; try done.
  - intros q y. rewrite Hh. intros [[<- <-]|[Hne Hy]]%lookup_insert_Some; [done|by apply (so_trx0 q)].
  - intros q1 q2 y1 y2. rewrite Hh. intros [[<- <-]|[Hne1 Hy1]]%lookup_insert_Some [[<- <-]|[Hne2 Hy2]]%lookup_insert_Some; try done.
    by apply so_uniq0.
  - intros q y. rewrite Hh. intros [[<- <-]|[Hne Hy]]%lookup_insert_Some; [by repeat split; constructor|by apply (so_ops0 q)].
  - intros k r Hr Hb. destruct (so_begin0 k r Hr Hb) as (q & y & Hy & ?). exists q, y. rewrite Hh, lookup_insert_ne; [done|congruence].
  - intros k r Hr Hb. destruct (so_end0 k r Hr Hb) as (q & y & Hy & ?). exists q, y. rewrite Hh, lookup_insert_ne; [done|congruence].
Qed.

(** [destroy_trx] of a transaction that is not running *)
Lemma destroy_trx_ok s p x :
  sys_ok s → heap s !! p = Some x → started_ x = false → p ≠ 0 →
  ∃ s', destroy_trx p s = Some (tt, s') ∧ sys_ok s' ∧ heap s' = delete p (heap s) ∧
    current_trx_id_ (kit s') = current_trx_id_ (kit s) ∧ (∀ k, row_at s' k = row_at s k).
Proof.
  intros Hok Hx Hst Hp. unfold destroy_trx. rewrite bind_modify. destruct (p =? 0) eqn:E0; zbool; [done|].
  set (s1 := set_kit _ s). rewrite (bind_eq _ _ _ _ _ (trx_deref_eq p s1 x Hx)). eexists. split; [done|]. set (s' := mkSys _ _ _ _).
  assert (Hh : heap s' = delete p (heap s)) by done. split; [|done].
  destruct (so_trx _ Hok _ _ Hx) as (_ & Hops & _). specialize (Hops Hst).
  destruct Hok. split; try done.
  - intros q y. rewrite Hh. intros [Hne Hy]%lookup_delete_Some. by apply (so_trx0 q).
  - intros q1 q2 y1 y2. rewrite Hh. intros [Hne1 Hy1]%lookup_delete_Some [Hne2 Hy2]%lookup_delete_Some. by apply so_uniq0.
  - intros q y. rewrite Hh. intros [Hne Hy]%lookup_delete_Some. by apply (so_ops0 q).
  - intros k r Hr Hb. destruct (so_begin0 k r Hr Hb) as (q & y & Hy & Hin & ?). exists q, y. rewrite Hh, lookup_delete_ne; [done|].
    intros <-. simplify_eq. rewrite Hops in Hin. by apply elem_of_nil in Hin.
  - intros k r Hr Hb. destruct (so_end0 k r Hr Hb) as (q & y & Hy & Hin & ?). exists q, y. rewrite Hh, lookup_delete_ne; [done|].
    intros <-. simplify_eq. rewrite Hops in Hin. by apply elem_of_nil in Hin.
Qed.
End system.
