(* ===== verification/MvccTheorems.v ===== *)
(** * MvccTheorems: what the transactions guarantee, and where they do not

    Reachability over the calls of any number of interleaved transactions, the effect of
    commit and rollback, the stability of snapshots. *)
From stdpp Require Import relations.
From S2P Require Import Prelude Types Encoding LogHandler RowTable MvccTrx MvccSpec.

Section reach.
Context {T L : Type} `{RL : RowTableLaws T} `{W : WalLaws L}.
Variable uninit : Z.
Implicit Types (s : Sys T L) (x : Trx).

(** a database at rest: no transaction, every row committed *)
Record at_rest (s : Sys T L) : Prop := {
  ar_log : log_ready (log s);
  ar_clock : 0 ≤ current_trx_id_ (kit s);
  ar_heap : heap s = ∅;
  ar_rows k r : row_at s k = Some r → 0 < begin_xid r ≤ current_trx_id_ (kit s) ∧ 0 < end_xid r;
}.

(** one call by some session: the calls on rows, [commit] and [rollback] of a running transaction,
    [destroy_trx] of one that is not. The counter has not reached its maximum, and a session
    does not delete a row again that it has both inserted and deleted *)
Inductive step : Sys T L → Sys T L → Prop :=
| step_create s p s' : create_trx s = Some (p, s') → step s s'
| step_start s p rc s' :
    current_trx_id_ (kit s) < max_trx_id → start_if_need p s = Some (rc, s') → step s s'
| step_insert s p x tid data r s' :
    heap s !! p = Some x → started_ x = true → insert_record p tid data s = Some (r, s') → step s s'
| step_delete s p x tid rid rc s' :
    heap s !! p = Some x → started_ x = true → ¬ (ins (tid, rid) ∈ operations_ x ∧ del (tid, rid) ∈ operations_ x) →
    delete_record p tid rid s = Some (rc, s') → step s s'
| step_commit s p x rc s' :
    heap s !! p = Some x → started_ x = true → current_trx_id_ (kit s) < max_trx_id →
    commit p s = Some (rc, s') → step s s'
| step_rollback s p x rc s' :
    heap s !! p = Some x → started_ x = true → rollback uninit p s = Some (rc, s') → step s s'
| step_destroy s p x u s' :
    heap s !! p = Some x → started_ x = false → p ≠ 0 → destroy_trx p s = Some (u, s') → step s s'.

Definition reachable (s : Sys T L) : Prop := ∃ s0, at_rest s0 ∧ rtc step s0 s.

Lemma at_rest_ok s : at_rest s → sys_ok s.
Proof.
  intros [Hl Hc Hh Hr]. split; try done; rewrite ?Hh.
  - intros p x. by rewrite lookup_empty.
  - intros p q x y. by rewrite lookup_empty.
  - intros p x. by rewrite lookup_empty.
  - intros k r Hk. destruct (Hr k r Hk). lia.
  - intros k r Hk. destruct (Hr k r Hk). lia.
  - intros k r Hk. destruct (Hr k r Hk). lia.
  - intros k r Hk. destruct (Hr k r Hk). lia.
Qed.

(** a call on a table that returned was on an existing table *)
Lemma on_table_Some {A} tid (c : M T A) s r : on_table tid c s = Some r → is_Some (tables s !! tid).
Proof.
  unfold on_table. rewrite bind_get. destruct (tables s !! tid) as [t|]; [by eauto|done].
Qed.

Lemma deref_Some p s x s' : deref p s = Some (x, s') → heap s !! p = Some x ∧ s' = s.
Proof.
  unfold deref. rewrite bind_get. unfold liftO. destruct (heap s !! p); [|done]. by intros [= -> ->].
Qed.

Lemma step_ok s s' : sys_ok s → step s s' → sys_ok s'.
Proof.
  intros Hok Hs. destruct Hs as [s p s' E|s p rc s' Hm E|s p x tid data r s' Hx Hst E|s p x tid rid rc s' Hx Hst Hd E
    |s p x rc s' Hx Hst Hm E|s p x rc s' Hx Hst E|s p x u s' Hx Hst Hp E].
  - destruct (create_trx_ok s Hok) as (? & ? & E' & ? & _). congruence.
  - assert (∃ x, heap s !! p = Some x) as [x Hx].
    { unfold start_if_need in E. apply bind_Some in E as (x & s1 & E1 & _). apply deref_Some in E1 as [? _]. eauto. }
    destruct (start_if_need_ok s p x Hok Hx Hm) as (? & ? & E' & ? & _). congruence.
  - assert (is_Some (tables s !! tid)) as Ht.
    { unfold insert_record in E. rewrite (bind_eq _ _ _ _ _ (trx_deref_eq _ _ _ Hx)) in E.
      apply bind_Some in E as (? & ? & E1 & _). by apply on_table_Some in E1. }
    destruct (mvcc_insert_ok s p x tid data Hok Hx Hst Ht) as (? & ? & ? & E' & ? & _). congruence.
  - assert (is_Some (tables s !! tid)) as Ht.
    { unfold delete_record in E. rewrite (bind_eq _ _ _ _ _ (trx_deref_eq _ _ _ Hx)) in E.
      apply bind_Some in E as (? & ? & E1 & _). by apply on_table_Some in E1. }
    destruct (mvcc_delete_ok s p x tid rid Hok Hx Hst Ht Hd) as (? & ? & E' & ? & _). congruence.
  - destruct (commit_ok s p x Hok Hx Hst Hm) as (? & ? & E' & ? & _). congruence.
  - destruct (rollback_ok uninit s p x Hok Hx Hst) as (? & E' & ? & _). congruence.
  - destruct (destroy_trx_ok s p x Hok Hx Hst Hp) as (? & E' & ? & _). congruence.
Qed.

Lemma reachable_ok s : reachable s → sys_ok s.
Proof. intros (s0 & Hrest & Hs). apply at_rest_ok in Hrest. induction Hs; eauto using step_ok. Qed.

(** ** Visibility *)

(** transaction [t] sees the row at [k] when it reads *)
Definition sees (t : Z) (s : Sys T L) (k : key) : Prop :=
  ∃ r, row_at s k = Some r ∧ visit_record t r READ_ONLY = SUCCESS.

(** the row that [t] reads, in the plain terms of the protocol *)
Lemma visit_read t r :
  0 < t → begin_xid r ≠ 0 → end_xid r ≠ 0 →
  visit_record t r READ_ONLY = SUCCESS ↔
    if decide (begin_xid r < 0) then begin_xid r = - t
    else if decide (end_xid r < 0) then end_xid r ≠ - t
    else begin_xid r ≤ t ≤ end_xid r.
Proof.
  intros Ht Hb He. unfold visit_record.
  repeat case_decide; repeat case_match; zbool;
    rewrite ?andb_true_iff, ?andb_false_iff, ?negb_true_iff, ?negb_false_iff, ?Z.leb_le, ?Z.leb_gt, ?Z.ltb_lt, ?Z.ltb_ge in *;
    zbool; split; intros; try done; lia.
Qed.

(** [sees] after a change of the row at [k] *)
Lemma sees_row t s k r : row_at s k = Some r → sees t s k ↔ visit_record t r READ_ONLY = SUCCESS.
Proof. intros Hr. unfold sees. rewrite Hr. naive_solver. Qed.
Lemma sees_none t s k : row_at s k = None → ¬ sees t s k.
Proof. intros Hr (r & Hr' & _). congruence. Qed.

Lemma committed_sees s p x c t k r :
  sys_ok s → heap s !! p = Some x → started_ x = true → row_at s k = Some r → c = current_trx_id_ (kit s) + 1 →
  0 < t → t ≠ trx_id_ x → t ≤ current_trx_id_ (kit s) → (end_xid r = - trx_id_ x → begin_xid r ≤ t) →
  visit_record t (committed (trx_id_ x) c r) READ_ONLY = SUCCESS ↔ visit_record t r READ_ONLY = SUCCESS.
Proof.
  intros Hok Hx Hst Hr -> Ht Hne Hle Hse. destruct (so_trx _ Hok _ _ Hx) as (_ & _ & Hid). specialize (Hid Hst).
  pose proof (so_pos _ Hok _ _ Hr) as (Hb & He & Hbc). pose proof (so_excl _ Hok _ _ Hr) as Hex.
  rewrite !visit_read; unfold committed; cbn; try done; repeat case_decide; lia.
Qed.

Lemma rolled_back_sees s p x t k r :
  sys_ok s → heap s !! p = Some x → started_ x = true → row_at s k = Some r →
  0 < t → t ≠ trx_id_ x → t ≤ current_trx_id_ (kit s) → current_trx_id_ (kit s) ≤ max_trx_id →
  (end_xid r = - trx_id_ x → begin_xid r ≤ t) →
  match rolled_back (trx_id_ x) r with
  | Some r' => visit_record t r' READ_ONLY = SUCCESS
  | None => False
  end ↔ visit_record t r READ_ONLY = SUCCESS.
Proof.
  intros Hok Hx Hst Hr Ht Hne Hle Hmax Hse. destruct (so_trx _ Hok _ _ Hx) as (_ & _ & Hid). specialize (Hid Hst).
  pose proof (so_pos _ Hok _ _ Hr) as (Hb & He & Hbc). pose proof (so_excl _ Hok _ _ Hr) as Hex.
  unfold rolled_back. case_decide.
  - rewrite visit_read by done. repeat case_decide; lia.
  - rewrite !visit_read; cbn; unfold max_trx_id in *; try done; repeat case_decide; lia.
Qed.
End reach.

(** ** A small database, for the witnesses *)

Abbreviation Db := (Sys (gmap RID Row) (list LogRec)).
Definition rid0 : RID := mkRID 1 0.
Definition rid1 : RID := mkRID 1 1.
(** one table with one row, committed by transaction 1 *)
Definition db0 : Db := mkSys {[ 1 := {[ rid0 := mkRow 1 max_trx_id [7] ]} ]} (mkKit 1 []) ∅ [].

Lemma db0_at_rest : at_rest db0.
Proof.
  split; [done|by vm_compute|done|]. intros [tid rid] r Hr. unfold row_at, db0 in Hr. cbn [tables fst snd] in Hr.
  destruct (decide (tid = 1)) as [->|]; [rewrite lookup_singleton_eq in Hr|rewrite lookup_singleton_ne in Hr by done; done].
  change (({[ rid0 := mkRow 1 max_trx_id [7] ]} : gmap RID Row) !! rid = Some r) in Hr.
  apply lookup_singleton_Some in Hr as [_ <-]. split; [split|]; by vm_compute.
Qed.

(** two sessions have started; the first has deleted the old row and inserted a new one *)
Definition db1_run : M Db (Z * Z) :=
  let* a := create_trx in let* b := create_trx in
  start_if_need a ;;; start_if_need b ;;; delete_record a 1 rid0 ;;; insert_record a 1 [9] ;;; ret (a, b).
Definition db1 : Db := match db1_run db0 with Some (_, s) => s | None => db0 end.
Definition trx1 : Trx := mkTrx 2 true false [mkOperation OP_DELETE 1 rid0; mkOperation OP_INSERT 1 (mkRID 1 1)].

Lemma db1_reachable : reachable 0 db1.
Proof.
  exists db0. split; [exact db0_at_rest|].
  eapply rtc_l; [apply (step_create 0 db0 1); vm_compute; reflexivity|].
  eapply rtc_l; [apply (step_create 0 _ 2); vm_compute; reflexivity|].
  eapply rtc_l; [eapply (step_start 0 _ 1 SUCCESS); [by vm_compute|vm_compute; reflexivity]|].
  eapply rtc_l; [eapply (step_start 0 _ 2 SUCCESS); [by vm_compute|vm_compute; reflexivity]|].
  eapply rtc_l; [eapply (step_delete 0 _ 1 _ 1 rid0 SUCCESS); [vm_compute; reflexivity|done|by intros [_ ?%elem_of_nil]|vm_compute; reflexivity]|].
  eapply rtc_l; [eapply (step_insert 0 _ 1 _ 1 [9]); [vm_compute; reflexivity|done|vm_compute; reflexivity]|].
  vm_compute. apply rtc_refl.
Qed.

Lemma db1_trx1 : heap db1 !! 1 = Some trx1.
Proof. by vm_compute. Qed.
Lemma db1_table : is_Some (tables db1 !! 1).
Proof. vm_compute. eauto. Qed.

(** ** Properties *)

(** [C7] Whatever calls any number of sessions make, in whatever order (create, start, insert,
    delete, commit, rollback, destroy, from a database at rest), no assertion of the
    transaction code fails, as long as no session deletes a row again that it has itself both
    inserted and deleted, and the id counter is below 2^31-1 when a transaction starts or
    commits: in every state reached by such calls every insertion and every such deletion on an
    existing table, every commit below that bound and every rollback of a running transaction
    returns. *)
Theorem calls_are_safe {T L} `{RL : RowTableLaws T} `{W : WalLaws L} (uninit : Z) (s : Sys T L) (p : TrxPtr) (x : Trx) :
  reachable uninit s → heap s !! p = Some x → started_ x = true →
  (∀ tid data, is_Some (tables s !! tid) → is_Some (insert_record p tid data s)) ∧
  (∀ tid rid, is_Some (tables s !! tid) → ¬ (ins (tid, rid) ∈ operations_ x ∧ del (tid, rid) ∈ operations_ x) → is_Some (delete_record p tid rid s)) ∧
  (current_trx_id_ (kit s) < max_trx_id → is_Some (commit p s)) ∧
  is_Some (rollback uninit p s).
Proof.
  intros Hre Hx Hst. pose proof (reachable_ok _ _ Hre) as Hok. repeat split.
  - intros tid data Ht. destruct (mvcc_insert_ok s p x tid data Hok Hx Hst Ht) as (? & ? & ? & E & _). rewrite E. eauto.
  - intros tid rid Ht Hd. destruct (mvcc_delete_ok s p x tid rid Hok Hx Hst Ht Hd) as (? & ? & E & _). rewrite E. eauto.
  - intros Hm. destruct (commit_ok s p x Hok Hx Hst Hm) as (? & ? & E & _). rewrite E. eauto.
  - destruct (rollback_ok uninit s p x Hok Hx Hst) as (? & E & _). rewrite E. eauto.
Qed.

Lemma calls_are_safe_witness :
  (∀ tid data, is_Some (tables db1 !! tid) → is_Some (insert_record 1 tid data db1)) ∧
  (∀ tid rid, is_Some (tables db1 !! tid) → ¬ (ins (tid, rid) ∈ operations_ trx1 ∧ del (tid, rid) ∈ operations_ trx1) → is_Some (delete_record 1 tid rid db1)) ∧
  (current_trx_id_ (kit db1) < max_trx_id → is_Some (commit 1 db1)) ∧
  is_Some (rollback 0 1 db1).
Proof. apply (calls_are_safe 0 db1 1 trx1); [exact db1_reachable|exact db1_trx1|done]. Defined.

(** [C22] Commit gives a new id to exactly the rows the transaction marked: an inserted row gets
    it as its begin id, a deleted row as its end id, every other row of every table keeps
    both; the transaction is no longer running and has no operations. *)
Theorem commit_stamps {T L} `{RL : RowTableLaws T} `{W : WalLaws L} (uninit : Z) (s : Sys T L) (p : TrxPtr) (x : Trx) :
  reachable uninit s → heap s !! p = Some x → started_ x = true → current_trx_id_ (kit s) < max_trx_id →
  ∃ rc s', commit p s = Some (rc, s') ∧ reachable uninit s' ∧
    current_trx_id_ (kit s') = current_trx_id_ (kit s) + 1 ∧
    heap s' = <[p := mkTrx (trx_id_ x) false false []]> (heap s) ∧
    ∀ k, row_at s' k = committed (trx_id_ x) (current_trx_id_ (kit s) + 1) <$> row_at s k.
Proof.
  intros Hre Hx Hst Hm. pose proof (reachable_ok _ _ Hre) as Hok.
  destruct (commit_ok s p x Hok Hx Hst Hm) as (rc & s' & E & Hok' & Hc & Hh & Hr).
  destruct (so_trx _ Hok _ _ Hx) as (Hrec & _). rewrite Hrec in Hh.
  exists rc, s'. split; [done|]. split; [|done]. destruct Hre as (s0 & Hrest & Hsteps).
  exists s0. split; [done|]. eapply rtc_r; [exact Hsteps|]. by eapply step_commit.
Qed.

Lemma commit_stamps_witness :
  ∃ rc s', commit 1 db1 = Some (rc, s') ∧ reachable 0 s' ∧
    current_trx_id_ (kit s') = current_trx_id_ (kit db1) + 1 ∧
    heap s' = <[1 := mkTrx (trx_id_ trx1) false false []]> (heap db1) ∧
    ∀ k, row_at s' k = committed (trx_id_ trx1) (current_trx_id_ (kit db1) + 1) <$> row_at db1 k.
Proof. apply (commit_stamps 0 db1 1 trx1); [exact db1_reachable|exact db1_trx1|done|by vm_compute]. Defined.

(** [C23] Rollback undoes exactly the transaction: the rows it inserted are gone from their
    tables, the rows it deleted are live again (end id [max_trx_id]), every other row is
    as it was. *)
Theorem rollback_undoes {T L} `{RL : RowTableLaws T} `{W : WalLaws L} (uninit : Z) (s : Sys T L) (p : TrxPtr) (x : Trx) :
  reachable uninit s → heap s !! p = Some x → started_ x = true →
  ∃ s', rollback uninit p s = Some (SUCCESS, s') ∧ reachable uninit s' ∧
    heap s' = <[p := mkTrx (trx_id_ x) false false []]> (heap s) ∧
    ∀ k, row_at s' k = (r ← row_at s k; rolled_back (trx_id_ x) r).
Proof.
  intros Hre Hx Hst. pose proof (reachable_ok _ _ Hre) as Hok.
  destruct (rollback_ok uninit s p x Hok Hx Hst) as (s' & E & Hok' & Hc & Hh & Hr).
  destruct (so_trx _ Hok _ _ Hx) as (Hrec & _). rewrite Hrec in Hh.
  exists s'. split; [done|]. split; [|done]. destruct Hre as (s0 & Hrest & Hsteps).
  exists s0. split; [done|]. eapply rtc_r; [exact Hsteps|]. by eapply step_rollback.
Qed.

Lemma rollback_undoes_witness :
  ∃ s', rollback 0 1 db1 = Some (SUCCESS, s') ∧ reachable 0 s' ∧
    heap s' = <[1 := mkTrx (trx_id_ trx1) false false []]> (heap db1) ∧
    ∀ k, row_at s' k = (r ← row_at db1 k; rolled_back (trx_id_ trx1) r).
Proof. apply (rollback_undoes 0 db1 1 trx1); [exact db1_reachable|exact db1_trx1|done]. Defined.

(** [C16] Snapshots are stable under the end of another transaction. A transaction with id [t]
    that is already running sees a row before another one commits or rolls back if and only if
    it sees it afterwards, provided that the row, if it is being deleted by the transaction
    that ends, was inserted and committed no later than [t] ([begin_xid r ≤ t]); a transaction
    that starts after a commit sees the inserted rows and no longer the deleted ones. *)
Theorem snapshots_are_stable {T L} `{RL : RowTableLaws T} `{W : WalLaws L} (uninit : Z) (s : Sys T L)
    (p : TrxPtr) (x : Trx) :
  reachable uninit s → heap s !! p = Some x → started_ x = true → current_trx_id_ (kit s) < max_trx_id →
  ∃ rc s1 s2, commit p s = Some (rc, s1) ∧ rollback uninit p s = Some (SUCCESS, s2) ∧
    (∀ t k, 0 < t ≤ current_trx_id_ (kit s) → t ≠ trx_id_ x →
       (∀ r, row_at s k = Some r → end_xid r = - trx_id_ x → begin_xid r ≤ t) →
       (sees t s1 k ↔ sees t s k) ∧ (sees t s2 k ↔ sees t s k)) ∧
    (∀ t k r, current_trx_id_ (kit s1) < t ≤ max_trx_id → row_at s k = Some r →
       (begin_xid r = - trx_id_ x → end_xid r = max_trx_id → sees t s1 k) ∧
       (end_xid r = - trx_id_ x → ¬ sees t s1 k)).
Proof.
  intros Hre Hx Hst Hm. pose proof (reachable_ok _ _ Hre) as Hok.
  destruct (so_trx _ Hok _ _ Hx) as (_ & _ & Hid). specialize (Hid Hst).
  destruct (commit_ok s p x Hok Hx Hst Hm) as (rc & s1 & E1 & Hok1 & Hc1 & _ & Hr1).
  destruct (rollback_ok uninit s p x Hok Hx Hst) as (s2 & E2 & Hok2 & _ & _ & Hr2).
  exists rc, s1, s2. do 2 (split; [done|]). split.
  - intros t k [Ht Hle] Hne Hvis. destruct (row_at s k) as [r|] eqn:Er.
    + split.
      * rewrite (sees_row t s1 k (committed (trx_id_ x) (current_trx_id_ (kit s) + 1) r)) by by rewrite Hr1, Er.
        rewrite (sees_row t s k r) by done. exact (committed_sees s p x _ t k r Hok Hx Hst Er eq_refl Ht Hne Hle (Hvis r eq_refl)).
      * rewrite (sees_row t s k r) by done.
        pose proof (rolled_back_sees s p x t k r Hok Hx Hst Er Ht Hne Hle ltac:(lia) (Hvis r eq_refl)) as Hrb.
        specialize (Hr2 k). rewrite Er in Hr2. cbn [mbind option_bind] in Hr2.
        destruct (rolled_back (trx_id_ x) r) as [r'|]; [by rewrite (sees_row _ _ _ _ Hr2)|].
        pose proof (sees_none t s2 k Hr2). tauto.
    + assert (Hn1 : row_at s1 k = None) by by rewrite Hr1, Er. assert (Hn2 : row_at s2 k = None) by by rewrite Hr2, Er.
      pose proof (sees_none t s k Er). pose proof (sees_none t s1 k Hn1). pose proof (sees_none t s2 k Hn2). tauto.
  - intros t k r [Ht Htm] Er. pose proof (so_pos _ Hok _ _ Er) as (Hb & He & Hbc). pose proof (so_excl _ Hok _ _ Er) as Hex.
    assert (Hrow : row_at s1 k = Some (committed (trx_id_ x) (current_trx_id_ (kit s) + 1) r)) by by rewrite Hr1, Er.
    rewrite (sees_row _ _ _ _ Hrow). unfold max_trx_id in *.
    split; intros; rewrite visit_read; unfold committed; cbn; repeat case_decide; lia.
Qed.

Lemma snapshots_are_stable_witness :
  ∃ rc s1 s2, commit 1 db1 = Some (rc, s1) ∧ rollback 0 1 db1 = Some (SUCCESS, s2) ∧
    (∀ t k, 0 < t ≤ current_trx_id_ (kit db1) → t ≠ trx_id_ trx1 →
       (∀ r, row_at db1 k = Some r → end_xid r = - trx_id_ trx1 → begin_xid r ≤ t) →
       (sees t s1 k ↔ sees t db1 k) ∧ (sees t s2 k ↔ sees t db1 k)) ∧
    (∀ t k r, current_trx_id_ (kit s1) < t ≤ max_trx_id → row_at db1 k = Some r →
       (begin_xid r = - trx_id_ trx1 → end_xid r = max_trx_id → sees t s1 k) ∧
       (end_xid r = - trx_id_ trx1 → ¬ sees t s1 k)).
Proof. apply (snapshots_are_stable 0 db1 1 trx1); [exact db1_reachable|exact db1_trx1|done|by vm_compute]. Defined.
