(* ===== verification/MvccRecovery.v ===== *)
(** * MvccRecovery: replaying the transaction log, and where the transactions go wrong

    The transaction part of recovery as the code runs it, and the situations in which the
    protocol of the code does not keep what a multi-version protocol promises, for every
    state in which they can arise. *)
From S2P Require Import Prelude Types Encoding LogHandler RowTable MvccTrx MvccSpec MvccTheorems.

(** ** Recovery *)

Section recovery.
Context {T L : Type} `{RowTable T} `{LogHandler L}.
Variable uninit : Z.
Implicit Types (s : Sys T L).

(** the entries that [MvccTrxLogHandler] writes *)
Inductive TrxEntry : Type :=
| EntryRecord (insert : bool) (trx_id tid : Z) (rid : RID)
| EntryCommit (trx_id commit_trx_id : Z)
| EntryRollback (trx_id garbage : Z).
Definition entry_bytes (e : TrxEntry) : list Z :=
  match e with
  | EntryRecord i id tid rid =>
      enc_fields [log_op_index (if i then INSERT_RECORD else DELETE_RECORD); id; tid; page_num rid; slot_num rid]
  | EntryCommit id c => enc_fields [log_op_index COMMIT; id; c]
  | EntryRollback id g => enc_fields [log_op_index ROLLBACK; id; g]
  end.
Definition entry_id (e : TrxEntry) : Z :=
  match e with EntryRecord _ id _ _ => id | EntryCommit id _ => id | EntryRollback id _ => id end.
Definition entry_ok (s : Sys T L) (e : TrxEntry) : Prop :=
  0 < entry_id e < 2 ^ 31 ∧
  match e with
  | EntryRecord _ _ tid rid => in_int32 tid ∧ rid_ok rid ∧ is_Some (tables s !! tid)
  | _ => True
  end.

(** the whole recovery of the transaction module: replay every entry, then [on_done] *)
Fixpoint replay_entries (m : gmap Z TrxPtr) (es : list LogRec) : M (Sys T L) (RC * gmap Z TrxPtr) :=
  match es with
  | [] => ret (SUCCESS, m)
  | e :: es => let* r := replay m e in if OB_FAIL r.1 then ret r else replay_entries r.2 es
  end.
Definition recover (es : list LogRec) : M (Sys T L) RC :=
  let* r := replay_entries ∅ es in
  if OB_FAIL r.1 then ret r.1 else on_done uninit r.2.

Lemma field32_fields zs k z : zs !! k = Some z → in_int32 z → field32 (enc_fields zs) (4 * Z.of_nat k) = Some z.
Proof. intros Hk Hz. rewrite <-(app_nil_r (enc_fields zs)). by apply field32_enc_fields. Qed.

Lemma entry_fields_5 a b c d e :
  in_int32 a → in_int32 b → in_int32 c → in_int32 d → in_int32 e →
  entry_fields (enc_fields [a; b; c; d; e]) 5 = Some [a; b; c; d; e].
Proof.
  intros Ha Hb Hc Hd He. set (zs := [a; b; c; d; e]). unfold entry_fields. cbn [seq mapM].
  rewrite (field32_fields zs 0 a eq_refl Ha), (field32_fields zs 1 b eq_refl Hb), (field32_fields zs 2 c eq_refl Hc),
    (field32_fields zs 3 d eq_refl Hd), (field32_fields zs 4 e eq_refl He). done.
Qed.

(** one entry, met with an empty map: the map stays empty and the tables do not change *)
Lemma replay_entry_ok s e te :
  lr_module e = TRANSACTION → lr_data e = entry_bytes te → entry_ok s te →
  ∃ s', replay ∅ e s = Some ((SUCCESS, ∅), s') ∧ tables s' = tables s ∧ log s' = log s ∧
    current_trx_id_ (kit s') = Z.max (current_trx_id_ (kit s)) (entry_id te).
Proof.
  intros Hm Hd [Hid Hok]. unfold replay. rewrite bind_assertM by (by apply bool_decide_eq_true_2). rewrite Hd.
  assert (Hop : in_int32 (log_op_index INSERT_RECORD) ∧ in_int32 (log_op_index DELETE_RECORD) ∧
    in_int32 (log_op_index COMMIT) ∧ in_int32 (log_op_index ROLLBACK)) by by vm_compute.
  assert (Hi : in_int32 (entry_id te)) by (unfold in_int32; lia).
  assert (Hlen : (len (entry_bytes te) <? MvccTrxLogHeader_SIZE) = false).
  { apply Z.ltb_ge. destruct te; cbn [entry_bytes]; rewrite len_enc_fields; by vm_compute. }
  rewrite Hlen. clear Hlen.
  assert (H1 : field32 (entry_bytes te) 4 = Some (entry_id te)).
  { destruct te; cbn [entry_bytes entry_id] in *; by apply (field32_fields _ 1). }
  set (op := match te with EntryRecord true _ _ _ => INSERT_RECORD | EntryRecord false _ _ _ => DELETE_RECORD
             | EntryCommit _ _ => COMMIT | EntryRollback _ _ => ROLLBACK end).
  assert (H0' : field32 (entry_bytes te) 0 = Some (log_op_index op)).
  { destruct te as [[]| |]; cbn [entry_bytes op] in *; apply (field32_fields _ 0); tauto. }
  rewrite (bind_liftO _ _ _ _ H0'), (bind_liftO _ _ _ _ H1), lookup_empty.
  set (p := alloc_ptr (heap s)). set (s0 := set_trx p (mkTrx (entry_id te) true true []) s).
  set (s1 := set_kit (mkKit (if current_trx_id_ (kit s0) <? entry_id te then entry_id te else current_trx_id_ (kit s0))
    (trxes_ (kit s0) ++ [p])) s0).
  assert (E1 : create_trx_recover (entry_id te) s = Some (p, s1)) by done.
  rewrite (bind_eq _ _ _ _ _ E1). clear E1.
  assert (Hlog_op : log_op_of (log_op_index op) = Some op) by by destruct op.
  assert (Hclk : current_trx_id_ (kit s1) = Z.max (current_trx_id_ (kit s)) (entry_id te)).
  { unfold s1, s0. cbn [kit set_kit set_trx current_trx_id_]. destruct (current_trx_id_ (kit s) <? entry_id te) eqn:Ec; zbool; lia. }
  assert (Hx : ∃ x, heap s1 !! p = Some x) by (eexists; apply lookup_insert_eq). destruct Hx as [x Hx].
  unfold redo, find_table. rewrite !bind_assoc, (bind_liftO _ _ _ _ H0'), Hlog_op.
  destruct te as [i id tid rid|id c|id g].
  - destruct Hok as (Htid & Hrid & [t Ht]). unfold rid_ok, in_int32 in *.
    assert (Hf : entry_fields (entry_bytes (EntryRecord i id tid rid)) 5 =
      Some [log_op_index op; id; tid; page_num rid; slot_num rid]).
    { cbn [entry_bytes]. rewrite entry_fields_5; unfold in_int32 in *; destruct i; try lia; done. }
    assert (Hrun : ∀ ty, redo_push p ty (Some tid) (entry_bytes (EntryRecord i id tid rid)) s1 =
      Some (SUCCESS, set_trx p (with_ops x (operations_ x ++ [mkOperation ty tid (mkRID (page_num rid) (slot_num rid))])) s1)).
    { intros ty. unfold redo_push. rewrite (bind_liftO _ _ _ _ Hf). cbn [lookup list_lookup].
      rewrite !(bind_liftO _ _ _ _ (eq_refl (Some _))). unfold push_operation. rewrite bind_assoc.
      unfold deref. rewrite bind_assoc, bind_get, (bind_liftO _ _ _ _ Hx), bind_modify. done. }
    assert (Ht1 : tables s1 !! tid = Some t) by exact Ht.
    destruct i; cbn [op]; rewrite bind_assoc, (bind_liftO _ _ _ _ Hf); cbn [lookup list_lookup]; rewrite bind_assoc, (bind_liftO _ _ _ _ (eq_refl (Some tid))), bind_assoc, bind_get, Ht1, bind_ret;
      cbn [fst snd]; change (OB_FAIL SUCCESS) with false; cbv iota; rewrite !bind_assoc, (bind_liftO _ _ _ _ H0');
      cbn [log_op_of log_op_index op]; rewrite (bind_eq _ _ _ _ _ (Hrun _));
      (eexists; split; [done|]; split; [done|]; split; [done|exact Hclk]).
  - cbv beta iota delta [op]. rewrite bind_ret. cbn [fst snd]. change (OB_FAIL SUCCESS) with false. cbv iota.
    rewrite bind_assoc, (bind_liftO _ _ _ _ H0'). cbn. rewrite delete_empty. eexists. split; [done|]. split; [done|]. split; [done|exact Hclk].
  - cbv beta iota delta [op]. rewrite bind_ret. cbn [fst snd]. change (OB_FAIL SUCCESS) with false. cbv iota.
    rewrite bind_assoc, (bind_liftO _ _ _ _ H0'). cbn. rewrite delete_empty. eexists. split; [done|]. split; [done|]. split; [done|exact Hclk].
Qed.

(** the id counter after the replay: the ids of the entries count, the commit ids do not *)
Definition recovered_clock (c : Z) (tes : list TrxEntry) : Z := foldl (λ c te, Z.max c (entry_id te)) c tes.

Lemma replay_entries_ok tes : ∀ s es,
  Forall2 (λ e te, lr_module e = TRANSACTION ∧ lr_data e = entry_bytes te) es tes → Forall (entry_ok s) tes →
  ∃ s', replay_entries ∅ es s = Some ((SUCCESS, ∅), s') ∧ tables s' = tables s ∧ log s' = log s ∧
    current_trx_id_ (kit s') = recovered_clock (current_trx_id_ (kit s)) tes.
Proof.
  induction tes as [|te tes IH]; intros s es Hes Hok.
  { apply Forall2_nil_inv_r in Hes as ->. by exists s. }
  apply Forall2_cons_inv_r in Hes as (e & es' & [Hm Hd] & Hes & ->). apply Forall_cons in Hok as [Hte Hok].
  destruct (replay_entry_ok s e te Hm Hd Hte) as (s1 & E1 & Ht1 & Hl1 & Hc1).
  destruct (IH s1 es') as (s2 & E2 & Ht2 & Hl2 & Hc2); [done| |].
  { eapply Forall_impl; [exact Hok|]. intros te'. unfold entry_ok. by rewrite Ht1. }
  exists s2. cbn [replay_entries]. rewrite (bind_eq _ _ _ _ _ E1). cbn [fst snd]. change (OB_FAIL SUCCESS) with false. cbv iota.
  split; [exact E2|]. rewrite Ht2, Hl2, Hc2, Hc1. done.
Qed.
End recovery.

(** ** Properties *)

(** [C30] Recovery of the transaction module, as the code is: [MvccTrxLogReplayer::replay] never
    enters the transactions it creates into [trx_map_], so whatever well-formed log it
    reads it finds nothing to roll back at the end. Every row of every table keeps the
    marks of the transactions that were running at the crash, no entry is logged, and the
    id counter becomes the largest transaction id of the log, commit ids not counted. *)
Theorem recovery_rolls_nothing_back {T L} `{RowTable T} `{LogHandler L} (uninit : Z) (s : Sys T L)
    (tes : list TrxEntry) (es : list LogRec) :
  Forall2 (λ e te, lr_module e = TRANSACTION ∧ lr_data e = entry_bytes te) es tes → Forall (entry_ok s) tes →
  ∃ s', recover uninit es s = Some (SUCCESS, s') ∧ tables s' = tables s ∧ (∀ k, row_at s' k = row_at s k) ∧
    log s' = log s ∧ current_trx_id_ (kit s') = recovered_clock (current_trx_id_ (kit s)) tes.
Proof.
  intros Hes Hok. destruct (replay_entries_ok tes s es Hes Hok) as (s' & E & Ht & Hl & Hc).
  exists s'. unfold recover. rewrite (bind_eq _ _ _ _ _ E). split; [done|]. split; [done|].
  split; [|done]. intros k. unfold row_at. by rewrite Ht.
Qed.

(** the rows of a database whose transaction 2 inserted a row and deleted another when it crashed *)
Definition crashed : Db :=
  mkSys {[ 1 := {[ rid0 := mkRow 1 (-2) [7]; rid1 := mkRow (-2) max_trx_id [9] ]} ]} (mkKit 0 []) ∅ [].
Definition crash_log : list TrxEntry := [EntryRecord false 2 1 rid0; EntryRecord true 2 1 rid1].

Lemma recovery_rolls_nothing_back_witness :
  ∃ s', recover 0 (map (λ te, mkLogRec 1 TRANSACTION (entry_bytes te)) crash_log) crashed = Some (SUCCESS, s') ∧
    tables s' = tables crashed ∧ (∀ k, row_at s' k = row_at crashed k) ∧ log s' = log crashed ∧
    current_trx_id_ (kit s') = recovered_clock (current_trx_id_ (kit crashed)) crash_log.
Proof.
  apply (recovery_rolls_nothing_back 0 crashed crash_log).
  - repeat constructor.
  - repeat constructor; vm_compute; done || eauto.
Defined.

(** ** The anomalies *)

Lemma forM_app_eq {S A} (l1 l2 : list A) (f : A → M S unit) : ∀ (s s' : S), forM l1 f s = Some (tt, s') → forM (l1 ++ l2) f s = forM l2 f s'.
Proof.
  induction l1 as [|o l1 IH]; intros s s' E; cbn [app forM] in *; [by injection E as ->|].
  apply bind_Some in E as ([] & s1 & E1 & E). rewrite (bind_eq _ _ _ _ _ E1). by apply IH.
Qed.

Section anomalies.
Context {T L : Type} `{RL : RowTableLaws T} `{W : WalLaws L}.
Variable uninit : Z.
Implicit Types (s : Sys T L) (x : Trx).

(** the calls of a transaction that deletes a row which it has inserted and deleted *)
Lemma redelete_ok s p x k r :
  sys_ok s → heap s !! p = Some x → started_ x = true → row_at s k = Some r → begin_xid r = - trx_id_ x → end_xid r = - trx_id_ x →
  ∃ s', delete_record p k.1 k.2 s = Some (SUCCESS, s') ∧ kit s' = kit s ∧ log_ready (log s') ∧
    heap s' = <[p := with_ops x (operations_ x ++ [del k])]> (heap s) ∧ ∀ k', row_at s' k' = row_at s k'.
Proof.
  intros Hok Hx Hst Hr Hb He. destruct (so_trx _ Hok _ _ Hx) as (_ & _ & Hid). specialize (Hid Hst).
  unfold delete_record. rewrite (bind_eq _ _ _ _ _ (trx_deref_eq _ _ _ Hx)).
  destruct (visit_row s k r (delete_visitor (trx_id_ x)) (Some (set_end (- trx_id_ x) r)) SUCCESS Hr) as (s1 & E1 & [Hk1 Hh1 Hl1 _] & Hr1).
  { unfold delete_visitor, visit_record. rewrite Hb, He. replace (0 <? - trx_id_ x) with false by (symmetry; apply Z.ltb_ge; lia).
    replace (- trx_id_ x <? 0) with true by (symmetry; apply Z.ltb_lt; lia). cbn [andb]. by rewrite Z.opp_involutive, Z.eqb_refl. }
  rewrite (bind_eq _ _ _ _ _ E1). cbn [fst snd]. cbv zeta iota. change (OB_FAIL SUCCESS) with false. cbv iota.
  destruct (log_record_ok DELETE_RECORD (trx_id_ x) k.1 k.2 s1) as (l' & E2 & Hl'); [rewrite Hl1; apply (so_log _ Hok)|lia|].
  unfold log_delete_record. rewrite (bind_eq _ _ _ _ _ E2), bind_assertM by done.
  rewrite <-Hh1 in Hx. rewrite (bind_eq _ _ _ _ _ (push_operation_eq p _ (set_log l' s1) x Hx)). rewrite Hh1 in Hx.
  eexists. split; [done|]. split; [exact Hk1|]. split; [exact Hl'|]. split; [cbn; by rewrite Hh1|].
  intros k'. change (row_at s1 k' = row_at s k'). rewrite Hr1. case_decide as Hk; [|done]. subst k'. rewrite Hr. cbn. rewrite <-He. by destruct r.
Qed.

Lemma commit_twice_aborts s x c k :
  recovering_ x = false → NoDup (operations_ x) → Forall (op_marked s (trx_id_ x)) (operations_ x) → del k ∈ operations_ x → c ≠ - trx_id_ x →
  forM (operations_ x ++ [del k]) (commit_operation x c) s = None.
Proof.
  intros Hrec Hnd Hm Hin Hc. destruct (commit_loop x c (operations_ x) s Hrec Hnd Hm) as (s' & E & _ & Hr).
  rewrite Forall_forall in Hm. destruct (Hm _ Hin) as (r & Hrow & Hend). destruct k as [tid rid]. cbn in Hrow, Hend.
  specialize (Hr (tid, rid)). unfold op_key in Hrow. cbn in Hrow. rewrite Hrow in Hr. cbn in Hr. unfold commit_row in Hr. rewrite (decide_True (P := del (tid, rid) ∈ _)) in Hr by done.
  assert (Hlast : forM [del (tid, rid)] (commit_operation x c) s' = None).
  { cbn [forM]. unfold commit_operation, del. cbn [op_type op_table op_rid fst snd]. unfold bind at 1 2.
    pose proof (visit_abort s' (tid, rid) _ (commit_delete_visitor x c) Hr) as Ha. cbn [fst snd] in Ha. rewrite Ha; [done|].
    unfold commit_delete_visitor. cbn. by rewrite (proj2 (Z.eqb_neq _ _) Hc). }
  by rewrite (forM_app_eq _ _ _ _ _ E).
Qed.

Lemma rollback_operation_inr x o s r s' :
  recovering_ x = false → rollback_operation x SUCCESS o s = Some (r, s') → r = inr SUCCESS.
Proof.
  intros Hrec. unfold rollback_operation. rewrite Hrec. cbv zeta. destruct (op_type o); try done.
  - intros (rc & s1 & _ & E)%bind_Some. unfold assertM in E. case_bool_decide; [|done]. subst rc. by injection E as <- _.
  - rewrite bind_assertM by done. intros (res & s1 & _ & E)%bind_Some. unfold assertM in E. case_bool_decide as Hs; [|done]. injection E as <- _. by rewrite Hs.
Qed.
Lemma rollback_loop_app x l1 l2 : recovering_ x = false → ∀ s s',
  rollback_loop x SUCCESS l1 s = Some (inr SUCCESS, s') → rollback_loop x SUCCESS (l1 ++ l2) s = rollback_loop x SUCCESS l2 s'.
Proof.
  intros Hrec. induction l1 as [|o l1 IH]; intros s s' E; cbn [app rollback_loop] in *; [by injection E as ->|].
  apply bind_Some in E as (rc & s1 & E1 & E). pose proof (rollback_operation_inr _ _ _ _ _ Hrec E1) as ->. rewrite (bind_eq _ _ _ _ _ E1). by apply IH.
Qed.
Lemma rollback_order_ins l1 k l2 : rollback_order (l1 ++ del k :: l2) → ins k ∉ l1.
Proof.
  induction l1 as [|o l1 IH]; cbn [app rollback_order]; intros Hord; [by intros ?%elem_of_nil|]. destruct Hord as [Ho Hord].
  intros [Hk|Hin]%elem_of_cons; [|by apply IH]. symmetry in Hk. apply (Ho (proj1 (proj1 (ins_eq k o) (eq_sym Hk)))).
  rewrite <-(proj2 (proj1 (ins_eq k o) (eq_sym Hk))). set_solver.
Qed.

Lemma rollback_twice_aborts s x ops k :
  recovering_ x = false → 0 < trx_id_ x → trx_id_ x ≤ max_trx_id → NoDup (ops) → rollback_order (reverse (ops)) → Forall (op_marked s (trx_id_ x)) (ops) → del k ∈ ops →
  rollback_loop x SUCCESS (reverse (ops ++ [del k])) s = None.
Proof.
  intros Hrec Hpos Hmax Hnd Hord Hm Hin. rewrite reverse_snoc. rewrite Forall_forall in Hm.
  assert (Hmk : op_marked s (trx_id_ x) (del k)) by by apply Hm.
  destruct (rollback_operation_ok x SUCCESS (del k) s Hrec Hmk eq_refl) as (s1 & E1 & _ & Hr1). cbn [rollback_loop]. rewrite (bind_eq _ _ _ _ _ E1).
  assert (Hnd' : NoDup (reverse (ops))) by by rewrite reverse_Permutation.
  assert (Hin' : del k ∈ reverse (ops)) by by apply elem_of_reverse.
  apply list_elem_of_split in Hin' as (l1 & l2 & El). rewrite El in *.
  assert (Hni : ins k ∉ l1) by by eapply rollback_order_ins. apply NoDup_app in Hnd' as (Hnd1 & Hdk & _).
  assert (Hd1 : del k ∉ l1) by (intros Hd; apply (Hdk _ Hd); by left).
  assert (Hord1 : rollback_order l1) by (clear -Hord; induction l1 as [|o l1 IH]; [done|]; destruct Hord as [Ho Hord]; split; [intros Ht Hd; apply (Ho Ht); set_solver|by apply IH]).
  destruct (rollback_loop_ok x l1 s1 Hrec Hnd1 Hord1) as (s2 & E2 & _ & Hr2).
  { apply Forall_forall. intros o Ho. assert (Hox : o ∈ ops) by (apply elem_of_reverse; rewrite El; set_solver).
    destruct (Hm o Hox) as (r & Hr & Ht). assert (Hrow : row_at s1 (op_key o) = rollback_row [del k] (op_key o) r) by by rewrite Hr1, Hr.
    unfold rollback_row in Hrow. rewrite decide_False in Hrow by (intros ?%list_elem_of_singleton; done). eexists. split; [exact Hrow|].
    destruct (op_type o) eqn:Et; cbn; try done. rewrite decide_False; [done|]. intros Heq%list_elem_of_singleton. apply Hd1. rewrite <-Heq.
    by replace (del (op_key o)) with o by (symmetry; by apply del_eq). }
  rewrite (rollback_loop_app x l1 _ Hrec _ _ E2). destruct Hmk as (r & Hr & Hend). destruct k as [tid rid]. unfold op_key, del in Hr, Hend. cbn in Hr, Hend.
  specialize (Hr1 (tid, rid)). rewrite Hr in Hr1. cbn in Hr1. unfold rollback_row in Hr1. rewrite decide_False in Hr1 by (intros ?%list_elem_of_singleton; done).
  rewrite decide_True in Hr1 by (by apply list_elem_of_singleton). specialize (Hr2 (tid, rid)). rewrite Hr1 in Hr2. cbn in Hr2. unfold rollback_row in Hr2.
  rewrite !decide_False in Hr2 by done. cbn in Hr2. cbn [rollback_loop]. unfold rollback_operation, del. cbn [op_type op_table op_rid fst snd].
  unfold bind at 1. rewrite bind_assertM by done. unfold bind at 1.
  pose proof (visit_abort s2 (tid, rid) _ (rollback_delete_visitor x) Hr2) as Ha. cbn [fst snd] in Ha. rewrite Ha; [done|].
  unfold rollback_delete_visitor. rewrite Hrec. cbn. rewrite (proj2 (Z.eqb_neq _ _)); [done|]. unfold max_trx_id in *. lia.
Qed.

(** a deletion that [visit_record] refuses *)
Lemma refused_deletion s p x k r :
  heap s !! p = Some x → row_at s k = Some r → visit_record (trx_id_ x) r READ_WRITE ≠ SUCCESS →
  ∃ s', delete_record p k.1 k.2 s = Some (visit_record (trx_id_ x) r READ_WRITE, s') ∧ ∀ k', row_at s' k' = row_at s k'.
Proof.
  intros Hx Hr Hv. unfold delete_record. rewrite (bind_eq _ _ _ _ _ (trx_deref_eq _ _ _ Hx)).
  destruct (visit_row s k r (delete_visitor (trx_id_ x)) None (visit_record (trx_id_ x) r READ_WRITE) Hr) as (s1 & E1 & _ & Hr1).
  { unfold delete_visitor, OB_FAIL. by rewrite bool_decide_eq_true_2. }
  rewrite (bind_eq _ _ _ _ _ E1). cbn [fst snd]. cbv zeta iota. change (OB_FAIL SUCCESS) with false. cbv iota.
  unfold OB_FAIL. rewrite bool_decide_eq_true_2 by done. exists s1. split; [done|]. intros k'. rewrite Hr1. case_decide; by subst.
Qed.

(** sessions that start after the recovery; the pointer is that of the last one *)
Definition start_session : M (Sys T L) TrxPtr := let* p := create_trx in start_if_need p ;;; ret p.
Fixpoint start_sessions (n : nat) : M (Sys T L) TrxPtr :=
  match n with O => start_session | S n => start_session ;;; start_sessions n end.
Definition recovered_sessions (es : list LogRec) (n : nat) : M (Sys T L) (RC * TrxPtr) :=
  let* rc := recover uninit es in
  let* p := start_sessions n in
  ret (rc, p).

Lemma start_session_ok s : 0 ≤ current_trx_id_ (kit s) < max_trx_id →
  ∃ p s', start_session s = Some (p, s') ∧ heap s' !! p = Some (mkTrx (current_trx_id_ (kit s) + 1) true false []) ∧
    current_trx_id_ (kit s') = current_trx_id_ (kit s) + 1 ∧ tables s' = tables s.
Proof.
  intros Hc. unfold start_session, create_trx, new_trx. repeat first [rewrite bind_assoc|rewrite bind_get|rewrite bind_modify|rewrite bind_ret].
  set (p := alloc_ptr (heap s)). set (s1 := set_kit _ _). unfold start_if_need. rewrite bind_assoc.
  assert (Hx : heap s1 !! p = Some (mkTrx (-1) false false [])) by apply lookup_insert_eq.
  rewrite (bind_eq _ _ _ _ _ (trx_deref_eq _ _ _ Hx)). cbn [started_ negb operations_]. rewrite bind_assoc, bind_assertM, bind_assoc by done.
  rewrite (bind_eq _ _ _ _ _ (next_trx_id_ok s1 Hc)), bind_assoc, bind_modify, bind_ret. exists p. eexists. split; [done|].
  split; [apply lookup_insert_eq|done].
Qed.
Lemma start_sessions_ok n : ∀ s, 0 ≤ current_trx_id_ (kit s) → current_trx_id_ (kit s) + Z.of_nat n < max_trx_id →
  ∃ p s', start_sessions n s = Some (p, s') ∧ heap s' !! p = Some (mkTrx (current_trx_id_ (kit s) + Z.of_nat n + 1) true false []) ∧ tables s' = tables s.
Proof.
  induction n as [|n IH]; intros s Hlo Hc; cbn [start_sessions]; (destruct (start_session_ok s) as (p & s1 & E & Hx & Hc1 & Ht); [lia|]).
  - exists p, s1. split; [done|]. split; [|done]. rewrite Hx. do 2 f_equal. lia.
  - rewrite (bind_eq _ _ _ _ _ E). destruct (IH s1) as (q & s2 & E2 & Hx2 & Ht2); [lia..|]. exists q, s2. split; [done|].
    split; [|by rewrite Ht2]. rewrite Hx2. do 2 f_equal. lia.
Qed.
Lemma recovered_sessions_ok s tes es n :
  Forall2 (λ e te, lr_module e = TRANSACTION ∧ lr_data e = entry_bytes te) es tes → Forall (entry_ok s) tes →
  let c := recovered_clock (current_trx_id_ (kit s)) tes in 0 ≤ c → c + Z.of_nat n < max_trx_id →
  ∃ p s1, recovered_sessions es n s = Some ((SUCCESS, p), s1) ∧ heap s1 !! p = Some (mkTrx (c + Z.of_nat n + 1) true false []) ∧ (∀ k, row_at s1 k = row_at s k).
Proof.
  intros Hes Hok c Hc0 Hc. destruct (replay_entries_ok tes s es Hes Hok) as (s' & E & Ht & _ & Hclk). fold c in Hclk.
  assert (Er : recover uninit es s = Some (SUCCESS, s')) by (unfold recover; by rewrite (bind_eq _ _ _ _ _ E)).
  destruct (start_sessions_ok n s') as (p & s1 & E1 & Hx & Ht1); [lia..|]. exists p, s1. unfold recovered_sessions.
  rewrite (bind_eq _ _ _ _ _ Er), (bind_eq _ _ _ _ _ E1). split; [done|]. rewrite Hx, Hclk. split; [done|]. intros k. unfold row_at. by rewrite Ht1, Ht.
Qed.
Lemma recovered_clock_ge c tes : c ≤ recovered_clock c tes.
Proof. revert c. induction tes as [|te tes IH]; intros c; cbn; [lia|]. specialize (IH (Z.max c (entry_id te))). unfold recovered_clock in *. lia. Qed.
Lemma recovered_clock_le c tes te : te ∈ tes → entry_id te ≤ recovered_clock c tes.
Proof.
  revert c. induction tes as [|te' tes IH]; intros c; [by intros ?%elem_of_nil|]. intros [->|Hin]%elem_of_cons; cbn.
  - pose proof (recovered_clock_ge (Z.max c (entry_id te')) tes). unfold recovered_clock in *. lia.
  - by apply IH.
Qed.
End anomalies.

(** ** Recovery and its sessions *)

(** [C31] After that recovery the marks of the crashed transactions are never removed. Let any
    number of sessions start; a row that a transaction of the log was inserting when it crashed
    is invisible to the last of them and it gets RECORD_INVISIBLE when it deletes the row; a
    committed row that a transaction of the log was deleting gives LOCKED_CONCURRENCY_CONFLICT
    to everyone who tries to delete it. Neither attempt changes a row. *)
Theorem recovered_rows_stay_locked {T L} `{RL : RowTableLaws T} `{W : WalLaws L} (uninit : Z) (s : Sys T L)
    (tes : list TrxEntry) (es : list LogRec) (n : nat) (id : Z) (k : key) (r : Row) :
  Forall2 (λ e te, lr_module e = TRANSACTION ∧ lr_data e = entry_bytes te) es tes → Forall (entry_ok s) tes →
  let c := recovered_clock (current_trx_id_ (kit s)) tes in c + Z.of_nat n < max_trx_id →
  id ∈ map entry_id tes → row_at s k = Some r →
  ∃ p s1, recovered_sessions uninit es n s = Some ((SUCCESS, p), s1) ∧ heap s1 !! p = Some (mkTrx (c + Z.of_nat n + 1) true false []) ∧
    row_at s1 k = Some r ∧
    (begin_xid r = - id → ¬ sees (c + Z.of_nat n + 1) s1 k ∧
       ∃ s2, delete_record p k.1 k.2 s1 = Some (RECORD_INVISIBLE, s2) ∧ ∀ k', row_at s2 k' = row_at s k') ∧
    (0 < begin_xid r → end_xid r = - id →
       ∃ s2, delete_record p k.1 k.2 s1 = Some (LOCKED_CONCURRENCY_CONFLICT, s2) ∧ ∀ k', row_at s2 k' = row_at s k').
Proof.
  intros Hes Hok c Hc Hid Hr. apply list_elem_of_fmap in Hid as (te & -> & Hte).
  pose proof (proj1 (Forall_forall _ _) Hok te Hte) as [Hpos _]. pose proof (recovered_clock_le (current_trx_id_ (kit s)) tes te Hte) as Hle. fold c in Hle.
  destruct (recovered_sessions_ok uninit s tes es n Hes Hok) as (p & s1 & E & Hx & Hrows); [fold c; lia..|]. fold c in Hx. exists p, s1.
  assert (Hr1 : row_at s1 k = Some r) by by rewrite Hrows. set (t := c + Z.of_nat n + 1) in *. do 3 (split; [done|]).
  assert (Hdel : ∀ rc, rc ≠ SUCCESS → visit_record t r READ_WRITE = rc → ∃ s2, delete_record p k.1 k.2 s1 = Some (rc, s2) ∧ ∀ k', row_at s2 k' = row_at s k').
  { intros rc Hrc <-. destruct (refused_deletion s1 p _ k r Hx Hr1 Hrc) as (s2 & E2 & Hr2). exists s2. split; [done|]. intros k'. by rewrite Hr2, Hrows. }
  assert (Hinv : begin_xid r = - entry_id te → ∀ mode, visit_record t r mode = RECORD_INVISIBLE).
  { intros Hb mode. unfold visit_record. rewrite Hb. rewrite (proj2 (Z.ltb_ge _ _)), (proj2 (Z.ltb_lt (- entry_id te) 0)), (proj2 (Z.eqb_neq _ _)); [done|lia..]. }
  split.
  - intros Hb. split; [rewrite (sees_row _ _ _ _ Hr1); by rewrite Hinv|]. apply Hdel; [done|by apply Hinv].
  - intros Hb He. apply Hdel; [done|]. unfold visit_record. rewrite He.
    rewrite (proj2 (Z.ltb_lt 0 (begin_xid r))), (proj2 (Z.ltb_ge 0 _)), (proj2 (Z.ltb_ge (begin_xid r) 0)), (proj2 (Z.ltb_lt (- entry_id te) 0)) by lia.
    cbn [andb]. by rewrite (proj2 (Z.eqb_neq _ _)) by lia.
Qed.

Lemma recovered_rows_stay_locked_witness :
  let goal (k : key) (r : Row) := ∃ p s1,
    recovered_sessions 0 (map (λ te, mkLogRec 1 TRANSACTION (entry_bytes te)) crash_log) 3 crashed = Some ((SUCCESS, p), s1) ∧
    heap s1 !! p = Some (mkTrx 6 true false []) ∧ row_at s1 k = Some r ∧
    (begin_xid r = - 2 → ¬ sees 6 s1 k ∧
       ∃ s2, delete_record p k.1 k.2 s1 = Some (RECORD_INVISIBLE, s2) ∧ ∀ k', row_at s2 k' = row_at crashed k') ∧
    (0 < begin_xid r → end_xid r = - 2 →
       ∃ s2, delete_record p k.1 k.2 s1 = Some (LOCKED_CONCURRENCY_CONFLICT, s2) ∧ ∀ k', row_at s2 k' = row_at crashed k') in
  goal (1, rid0) (mkRow 1 (-2) [7]) ∧ goal (1, rid1) (mkRow (-2) max_trx_id [9]).
Proof.
  split; refine (recovered_rows_stay_locked 0 crashed crash_log (map (λ te, mkLogRec 1 TRANSACTION (entry_bytes te)) crash_log) 3 2 _ _ _ _ _ _ _).
  1,6: repeat constructor.
  1,5: repeat constructor; vm_compute; done || eauto.
  1,4: by vm_compute.
  1,3: by left.
  all: done.
Defined.

(** [C35] Commit ids are lost by recovery. A transaction that commits while others have started gets
    a commit id above every transaction id of the log, and only those count for the id counter
    after recovery. So a row whose commit is in the log is invisible to a session that starts
    after recovery, as long as fewer than [begin_xid r - c] have started, where [c] is the
    counter that recovery leaves. *)
Theorem recovered_clock_hides_committed_rows {T L} `{RL : RowTableLaws T} `{W : WalLaws L} (uninit : Z) (s : Sys T L)
    (tes : list TrxEntry) (es : list LogRec) (n : nat) (id : Z) (k : key) (r : Row) :
  Forall2 (λ e te, lr_module e = TRANSACTION ∧ lr_data e = entry_bytes te) es tes → Forall (entry_ok s) tes →
  let c := recovered_clock (current_trx_id_ (kit s)) tes in c + Z.of_nat n < max_trx_id →
  EntryCommit id (begin_xid r) ∈ tes → row_at s k = Some r → 0 < end_xid r → c + Z.of_nat n + 1 < begin_xid r →
  ∃ p s1, recovered_sessions uninit es n s = Some ((SUCCESS, p), s1) ∧ heap s1 !! p = Some (mkTrx (c + Z.of_nat n + 1) true false []) ∧
    row_at s1 k = Some r ∧ ¬ sees (c + Z.of_nat n + 1) s1 k.
Proof.
  intros Hes Hok c Hc Hin Hr He Hb. pose proof (proj1 (Forall_forall _ _) Hok _ Hin) as [Hpos _].
  pose proof (recovered_clock_le (current_trx_id_ (kit s)) tes _ Hin) as Hle. fold c in Hle.
  destruct (recovered_sessions_ok uninit s tes es n Hes Hok) as (p & s1 & E & Hx & Hrows); [fold c; lia..|]. fold c in Hx. exists p, s1.
  assert (Hr1 : row_at s1 k = Some r) by by rewrite Hrows. do 3 (split; [done|]). rewrite (sees_row _ _ _ _ Hr1), visit_read by lia.
  rewrite !decide_False by lia. lia.
Qed.

(** a transaction commits while another one is running; then the process ends *)
Definition late_commit : M Db RID :=
  let* a := create_trx in start_if_need a ;;; let* b := create_trx in start_if_need b ;;;
  let* r := insert_record a 1 [5] in let* rid := liftO r.2 in commit a ;;; ret rid.
Definition late_db : Db := match late_commit db0 with Some (_, s) => s | None => db0 end.
Definition late_crash : Db := mkSys (tables late_db) (mkKit 0 []) ∅ [].
Lemma recovered_clock_hides_committed_rows_witness :
  ∃ p s1, recovered_sessions 0 (log late_db) 0 late_crash = Some ((SUCCESS, p), s1) ∧ heap s1 !! p = Some (mkTrx 3 true false []) ∧
    row_at s1 (1, rid1) = Some (mkRow 4 max_trx_id [5]) ∧ ¬ sees 3 s1 (1, rid1).
Proof.
  apply (recovered_clock_hides_committed_rows 0 late_crash [EntryRecord true 2 1 rid1; EntryCommit 2 4] (log late_db) 0 2 (1, rid1) (mkRow 4 max_trx_id [5])).
  - vm_compute. repeat constructor.
  - repeat constructor; vm_compute; done || eauto.
  - by vm_compute.
  - right. by left.
  - by vm_compute.
  - done.
  - by vm_compute.
Defined.

(** ** Anomalies between sessions *)

(** [C32] A transaction that has deleted a row which it inserted itself still sees the row and may
    delete it again: the second deletion answers SUCCESS. After it both [commit] and [rollback]
    fail an assertion at the second of the two operations and end the process. *)
Theorem own_row_deleted_twice_aborts {T L} `{RL : RowTableLaws T} `{W : WalLaws L} (uninit : Z) (s : Sys T L) (p : TrxPtr) (x : Trx) (k : key) :
  reachable uninit s → heap s !! p = Some x → started_ x = true → current_trx_id_ (kit s) < max_trx_id →
  ins k ∈ operations_ x → del k ∈ operations_ x →
  sees (trx_id_ x) s k ∧
  ∃ s', delete_record p k.1 k.2 s = Some (SUCCESS, s') ∧ commit p s' = None ∧ rollback uninit p s' = None.
Proof.
  intros Hre Hx Hst Hmax Hi Hd. pose proof (reachable_ok _ _ Hre) as Hok. destruct (so_trx _ Hok _ _ Hx) as (Hrec & _ & Hid). specialize (Hid Hst).
  destruct (so_ops _ Hok _ _ Hx) as (Hnd & Hord & Hm). pose proof (proj1 (Forall_forall _ _) Hm _ Hd) as (r & Hr & _). destruct k as [tid rid]. unfold op_key in Hr. cbn in Hr.
  pose proof (proj1 (own_ins _ _ _ _ _ Hok Hx Hst Hr) Hi) as Hb. pose proof (proj1 (own_del _ _ _ _ _ Hok Hx Hst Hr) Hd) as He.
  split; [rewrite (sees_row _ _ _ _ Hr), visit_read by lia; by rewrite decide_True by lia|].
  destruct (redelete_ok s p x (tid, rid) r Hok Hx Hst Hr Hb He) as (s' & E & Hk & Hl & Hh & Hrows). exists s'. split; [done|].
  set (x' := with_ops x _) in Hh. assert (Hx' : heap s' !! p = Some x') by (rewrite Hh; apply lookup_insert_eq). pose proof (so_clock _ Hok).
  assert (Hm' : ∀ s2 : Sys T L, (∀ k, row_at s2 k = row_at s' k) → Forall (op_marked s2 (trx_id_ x)) (operations_ x)).
  { intros s2 Hs2. eapply Forall_impl; [exact Hm|]. intros o. apply op_marked_ext. intros k'. by rewrite Hs2, Hrows. }
  split.
  - unfold commit. rewrite (bind_eq _ _ _ _ _ (next_trx_id_ok s' ltac:(rewrite Hk; lia))). set (s0 := set_kit _ s'). unfold commit_with_trx_id.
    rewrite (bind_eq _ _ _ _ _ (trx_deref_eq p s0 x' Hx')), bind_modify. cbn [operations_ x' with_ops]. unfold bind at 1.
    set (s1 := set_trx _ _ s0). assert (Hloop : ∀ c l (s2 : Sys T L), forM l (commit_operation x' c) s2 = forM l (commit_operation x c) s2) by done.
    rewrite Hloop, (commit_twice_aborts s1 x _ (tid, rid) Hrec Hnd); [done|by apply Hm'|done|rewrite Hk; lia].
  - unfold rollback. rewrite (bind_eq _ _ _ _ _ (trx_deref_eq p s' x' Hx')), bind_modify. cbn [operations_ x' with_ops]. unfold bind at 1.
    set (s1 := set_trx _ _ s').
    rewrite (rollback_twice_aborts s1 x' (operations_ x) (tid, rid) Hrec); [done|cbn; lia|cbn; lia|done|done|by apply Hm'|done].
Qed.

(** a session that has inserted and deleted a row *)
Definition own_run : M Db TrxPtr :=
  let* a := create_trx in start_if_need a ;;; insert_record a 1 [5] ;;; delete_record a 1 rid1 ;;; ret a.
Definition own_db : Db := match own_run db0 with Some (_, s) => s | None => db0 end.
Definition own_trx : Trx := mkTrx 2 true false [ins (1, rid1); del (1, rid1)].
Lemma own_db_reachable : reachable 0 own_db.
Proof.
  exists db0. split; [exact db0_at_rest|].
  eapply rtc_l; [apply (step_create 0 db0 1); vm_compute; reflexivity|].
  eapply rtc_l; [eapply (step_start 0 _ 1 SUCCESS); [by vm_compute|vm_compute; reflexivity]|].
  eapply rtc_l; [eapply (step_insert 0 _ 1 _ 1 [5]); [vm_compute; reflexivity|done|vm_compute; reflexivity]|].
  eapply rtc_l; [eapply (step_delete 0 _ 1 _ 1 rid1 SUCCESS); [vm_compute; reflexivity|done| |vm_compute; reflexivity]|].
  { intros [_ Hd]. cbn in Hd. by apply list_elem_of_singleton in Hd. }
  vm_compute. apply rtc_refl.
Qed.
Lemma own_row_deleted_twice_aborts_witness :
  sees 2 own_db (1, rid1) ∧
  ∃ s', delete_record 1 1 rid1 own_db = Some (SUCCESS, s') ∧ commit 1 s' = None ∧ rollback 0 1 s' = None.
Proof.
  apply (own_row_deleted_twice_aborts 0 own_db 1 own_trx (1, rid1)).
  - exact own_db_reachable.
  - by vm_compute.
  - done.
  - by vm_compute.
  - by left.
  - right. by left.
Defined.


(** two sessions have started; the second has deleted the old row and committed *)
Definition deleted_run : M Db (TrxPtr * TrxPtr) :=
  let* a := create_trx in let* b := create_trx in start_if_need a ;;; start_if_need b ;;; delete_record b 1 rid0 ;;; commit b ;;; ret (a, b).
Definition deleted_db : Db := match deleted_run db0 with Some (_, s) => s | None => db0 end.
Lemma deleted_db_reachable : reachable 0 deleted_db.
Proof.
  exists db0. split; [exact db0_at_rest|].
  eapply rtc_l; [apply (step_create 0 db0 1); vm_compute; reflexivity|].
  eapply rtc_l; [apply (step_create 0 _ 2); vm_compute; reflexivity|].
  eapply rtc_l; [eapply (step_start 0 _ 1 SUCCESS); [by vm_compute|vm_compute; reflexivity]|].
  eapply rtc_l; [eapply (step_start 0 _ 2 SUCCESS); [by vm_compute|vm_compute; reflexivity]|].
  eapply rtc_l; [eapply (step_delete 0 _ 2 _ 1 rid0 SUCCESS); [vm_compute; reflexivity|done|by intros [_ ?%elem_of_nil]|vm_compute; reflexivity]|].
  eapply rtc_l; [eapply (step_commit 0 _ 2); [vm_compute; reflexivity|done|by vm_compute|vm_compute; reflexivity]|].
  vm_compute. apply rtc_refl.
Qed.

(** [C34] A snapshot does not hold while rows are being deleted: a transaction whose id is below the
    begin id of a committed row does not see the row, but it does see it as soon as another
    transaction has deleted it without having ended. The READ_ONLY case for a negative end id does
    not look at the begin id. *)
Theorem snapshot_misses_begin_id {T L} `{RL : RowTableLaws T} `{W : WalLaws L} (uninit : Z) (s s' : Sys T L) (p : TrxPtr) (x : Trx) (k : key) (r : Row) (t : Z) :
  reachable uninit s → heap s !! p = Some x → started_ x = true → row_at s k = Some r → 0 < t → t < begin_xid r → t ≠ trx_id_ x →
  delete_record p k.1 k.2 s = Some (SUCCESS, s') →
  ¬ sees t s k ∧ sees t s' k.
Proof.
  intros Hre Hx Hst Hr Ht Htb Hne E. pose proof (reachable_ok _ _ Hre) as Hok. destruct (so_trx _ Hok _ _ Hx) as (_ & _ & Hid). specialize (Hid Hst).
  assert (Htab : is_Some (tables s !! k.1)) by (unfold row_at in Hr; destruct (tables s !! k.1); [eauto|done]).
  destruct k as [tid rid]. cbn [fst snd] in *. pose proof (so_pos _ Hok _ _ Hr) as (_ & He & _).
  destruct (mvcc_delete_ok s p x tid rid Hok Hx Hst Htab) as (rc & s1 & E1 & Hok1 & _ & Hcase).
  { intros [Hi _]. apply (own_ins _ _ _ _ _ Hok Hx Hst Hr) in Hi. lia. }
  rewrite E1 in E. injection E as -> ->. destruct Hcase as [(_ & r' & Hr' & Hv & _ & Hrow)|[? _]]; [|done]. rewrite Hr in Hr'. injection Hr' as <-.
  assert (Hr1 : row_at s' (tid, rid) = Some (set_end (- trx_id_ x) r)) by by rewrite Hrow, decide_True by done.
  destruct (visit_write_marks s x _ r Hok Hr) as [_ Hve]; [lia|done|].
  rewrite (sees_row _ _ _ _ Hr), (sees_row _ _ _ _ Hr1), !visit_read by (cbn; lia). cbn.
  split; [rewrite !decide_False by lia; lia|]. rewrite decide_False, decide_True by lia. lia.
Qed.

(** a reader has started before a row was inserted and committed; a third session has started *)
Definition reader_run : M Db TrxPtr :=
  let* a := create_trx in start_if_need a ;;; let* b := create_trx in start_if_need b ;;; insert_record b 1 [5] ;;; commit b ;;;
  let* c := create_trx in start_if_need c ;;; ret c.
Definition reader_db : Db := match reader_run db0 with Some (_, s) => s | None => db0 end.
Definition reader_db' : Db := match delete_record 3 1 rid1 reader_db with Some (_, s) => s | None => db0 end.
Lemma reader_db_reachable : reachable 0 reader_db.
Proof.
  exists db0. split; [exact db0_at_rest|].
  eapply rtc_l; [apply (step_create 0 db0 1); vm_compute; reflexivity|].
  eapply rtc_l; [eapply (step_start 0 _ 1 SUCCESS); [by vm_compute|vm_compute; reflexivity]|].
  eapply rtc_l; [apply (step_create 0 _ 2); vm_compute; reflexivity|].
  eapply rtc_l; [eapply (step_start 0 _ 2 SUCCESS); [by vm_compute|vm_compute; reflexivity]|].
  eapply rtc_l; [eapply (step_insert 0 _ 2 _ 1 [5]); [vm_compute; reflexivity|done|vm_compute; reflexivity]|].
  eapply rtc_l; [eapply (step_commit 0 _ 2); [vm_compute; reflexivity|done|by vm_compute|vm_compute; reflexivity]|].
  eapply rtc_l; [apply (step_create 0 _ 3); vm_compute; reflexivity|].
  eapply rtc_l; [eapply (step_start 0 _ 3 SUCCESS); [by vm_compute|vm_compute; reflexivity]|].
  vm_compute. apply rtc_refl.
Qed.
Lemma snapshot_misses_begin_id_witness : ¬ sees 2 reader_db (1, rid1) ∧ sees 2 reader_db' (1, rid1).
Proof.
  apply (snapshot_misses_begin_id 0 reader_db reader_db' 3 (mkTrx 5 true false []) (1, rid1) (mkRow 4 max_trx_id [5]) 2).
  - exact reader_db_reachable.
  - by vm_compute.
  - done.
  - by vm_compute.
  - done.
  - done.
  - done.
  - by vm_compute.
Defined.
