(* ===== verification/LogFile.v ===== *)
(** * LogFile: the files of the commit log (storage/clog/log_file.cpp, log_entry.cpp)

    An entry on disk is a 16-byte header (LSN, payload size, module) and the payload.
    [LogFileWriter] appends entries up to the last LSN of its file, [LogFileReader]
    skips to an LSN and iterates, [LogFileManager] names the files by their first LSN. *)
From Stdlib Require Import Ascii.
From stdpp Require Import strings.
From S2P Require Import Prelude Types Encoding LogHandler.

(** ** Entries: log_entry.h, log_entry.cpp *)

(** [sizeof(LogHeader)] *)
Definition LogHeader_SIZE : Z := 16.
Definition max_size : Z := 4 * 1024 * 1024.
Definition max_payload_size : Z := max_size - LogHeader_SIZE.

Record LogHeader := mkLogHeader { lh_lsn : LSN; lh_size : Z; lh_module_id : Z }.

(** [LogEntry::init]; the entry is a [LogRec], whose header fields follow from it *)
Definition entry_init (lsn : LSN) (module : LogModule) (data : list Z) : RC * option LogRec :=
  if max_payload_size <? len data then (INVALID_ARGUMENT, None)
  else (SUCCESS, Some (mkLogRec lsn module data)).
Definition header (e : LogRec) : LogHeader := mkLogHeader (lr_lsn e) (len (lr_data e)) (LogModule_index (lr_module e)).
Definition payload_size (e : LogRec) : Z := lh_size (header e).
Definition total_size (e : LogRec) : Z := LogHeader_SIZE + lh_size (header e).

Definition enc_header (h : LogHeader) : list Z := enc64 (lh_lsn h) ++ enc32 (lh_size h) ++ enc32 (lh_module_id h).
Definition dec_header (bs : list Z) : LogHeader :=
  mkLogHeader (dec64 (take 8 bs)) (dec32 (take 4 (drop 8 bs))) (dec32 (take 4 (drop 12 bs))).
Definition enc_entry (e : LogRec) : list Z := enc_header (header e) ++ lr_data e.
Definition module_of (z : Z) : option LogModule :=
  match z with 0 => Some BUFFER_POOL | 1 => Some BPLUS_TREE | 2 => Some RECORD_MANAGER | 3 => Some TRANSACTION | _ => None end.

(** ** Files *)

(** a file descriptor open for reading: the bytes of the file and the offset; [None] is [fd_ = -1] *)
Record Reader := mkReader { fd_ : option (list Z * Z) }.

(** [readn]: 0 with the bytes, or -1 at the end of the file (what there was is consumed). A
    regular file that is open can be read; errors of the device are not modelled here *)
Definition readn (size : Z) : M (list Z * Z) (Z * list Z) := λ '(content, pos),
  if len content <? pos + size then Some ((-1, []), (content, Z.max pos (len content)))
  else Some ((0, take (Z.to_nat size) (drop (Z.to_nat pos) content)), (content, pos + size)).
(** [lseek(fd, off, SEEK_CUR)]: a negative result is an error *)
Definition seek_cur (off : Z) : M (list Z * Z) Z := λ '(content, pos),
  if pos + off <? 0 then Some (-1, (content, pos)) else Some (pos + off, (content, pos + off)).

(** [LogFileReader::skip_to] from the beginning of the file, [n] rounds at most *)
Fixpoint skip_to_loop (n : nat) (start_lsn : LSN) : M (list Z * Z) RC :=
  match n with
  | O => abort
  | S n =>
      let* r := readn LogHeader_SIZE in
      if negb (r.1 =? 0) then
        if r.1 =? -1 then ret SUCCESS else ret IOERR_READ
      else
        let h := dec_header r.2 in
        if start_lsn <=? lh_lsn h then
          let* pos := seek_cur (- LogHeader_SIZE) in
          if pos =? -1 then ret IOERR_SEEK else ret SUCCESS
        else if (lh_size h <? 0) || (max_payload_size <? lh_size h) then ret IOERR_READ
        else
          let* pos := seek_cur (lh_size h) in
          if pos =? -1 then ret IOERR_SEEK else skip_to_loop n start_lsn
  end.

Section iterate.
(** the consumer of the entries and the state it changes *)
Context {St : Type} (callback : LogRec → M St RC).

(** the loop of [LogFileReader::iterate], [n] rounds at most; an entry whose module id names no
    module cannot be represented as a [LogRec] and ends the run *)
Fixpoint iterate_loop (n : nat) : M ((list Z * Z) * St) RC := λ st,
  match n with
  | O => None
  | S n =>
      match readn LogHeader_SIZE st.1 with
      | None => None
      | Some ((r, bs), f) =>
          if negb (r =? 0) then
            if r =? -1 then Some (SUCCESS, (f, st.2)) else Some (IOERR_READ, (f, st.2))
          else
            let h := dec_header bs in
            if (lh_size h <? 0) || (max_payload_size <? lh_size h) then Some (IOERR_READ, (f, st.2))
            else
              match readn (lh_size h) f with
              | None => None
              | Some ((r, data), f) =>
                  if negb (r =? 0) then Some (IOERR_READ, (f, st.2))
                  else
                    match module_of (lh_module_id h) with
                    | None => None
                    | Some m =>
                        match callback (mkLogRec (lh_lsn h) m data) st.2 with
                        | None => None
                        | Some (rc, s) => if OB_FAIL rc then Some (rc, (f, s)) else iterate_loop n (f, s)
                        end
                    end
              end
      end
  end.

(** [LogFileReader::iterate]: the rounds are bounded by the length of the file *)
Definition iterate (start_lsn : LSN) (rd : Reader) : M St RC := λ s,
  match fd_ rd with
  | None => Some (FILE_NOT_OPENED, s)
  | Some (content, _) =>
      let n := S (length content) in
      match skip_to_loop n start_lsn (content, 0) with
      | None => None
      | Some (rc, f) =>
          if OB_FAIL rc then Some (rc, s)
          else
            match iterate_loop n (f, s) with
            | None => None
            | Some (rc, (_, s')) => Some (rc, s')
            end
      end
  end.
End iterate.

(** ** The file system and the writer *)

Abbreviation path := (list ascii).
(** the regular files of the log directory, and what the device does to the next calls of
    [writen]: [Some n] writes [n] bytes and fails, [None] succeeds; after the list, every
    call succeeds *)
Record FS := mkFS { files : gmap path (list Z); faults : list (option Z) }.

Definition writen (name : path) (bs : list Z) : M FS Z := λ fs,
  match files fs !! name with
  | None => None
  | Some content =>
      match faults fs with
      | Some n :: fl => Some (5, mkFS (<[name := content ++ take (Z.to_nat n) bs]> (files fs)) fl)
      | None :: fl => Some (0, mkFS (<[name := content ++ bs]> (files fs)) fl)
      | [] => Some (0, mkFS (<[name := content ++ bs]> (files fs)) [])
      end
  end.

(** [LogFileWriter]; [last_lsn_] and [end_lsn_] are [int] *)
Record Writer := mkWriter { filename_ : path; w_open : bool; last_lsn_ : Z; end_lsn_ : Z }.

Definition new_writer : Writer := mkWriter [] false 0 0.
Definition valid (w : Writer) : bool := w_open w.
Definition full (w : Writer) : bool := end_lsn_ w <=? last_lsn_ w.

(** [open(filename, int end_lsn)] with [O_CREAT]: the LSN passed is narrowed to [int] *)
Definition writer_open (name : path) (end_lsn : LSN) (w : Writer) : M FS (RC * Writer) :=
  if w_open w then ret (FILE_OPEN, w)
  else
    modify (λ fs, mkFS (match files fs !! name with Some _ => files fs | None => <[name := []]> (files fs) end) (faults fs)) ;;;
    ret (SUCCESS, mkWriter name true (last_lsn_ w) (wrap32 end_lsn)).
Definition writer_close (w : Writer) : RC * Writer :=
  if w_open w then (SUCCESS, mkWriter (filename_ w) false (last_lsn_ w) (end_lsn_ w)) else (FILE_NOT_OPENED, w).

Definition write (e : LogRec) (w : Writer) : M FS (RC * Writer) :=
  if end_lsn_ w <? lr_lsn e then ret (LOG_FILE_FULL, w)
  else if negb (w_open w) then ret (FILE_NOT_OPENED, w)
  else if lr_lsn e <=? last_lsn_ w then ret (INVALID_ARGUMENT, w)
  else
    let* r := writen (filename_ w) (enc_header (header e)) in
    if negb (r =? 0) then ret (IOERR_WRITE, w)
    else
      let* r := writen (filename_ w) (lr_data e) in
      if negb (r =? 0) then ret (IOERR_WRITE, w)
      else ret (SUCCESS, mkWriter (filename_ w) (w_open w) (wrap32 (lr_lsn e)) (end_lsn_ w)).

(** [LogFileReader::open] with [O_RDONLY] *)
Definition reader_open (name : path) (fs : FS) : RC * Reader :=
  match files fs !! name with
  | Some content => (SUCCESS, mkReader (Some (content, 0)))
  | None => (FILE_OPEN, mkReader None)
  end.

(** ** LogFileManager *)

Definition file_prefix_ : path := String.list_ascii_of_string "clog_"%string.
Definition file_suffix_ : path := String.list_ascii_of_string ".log"%string.

(** [std::to_string] of an LSN that is not negative, and [std::from_chars] into an [int64_t] *)
Definition digit_char (d : Z) : ascii := ascii_of_N (Z.to_N (48 + d)).
Definition char_digit (c : ascii) : option Z :=
  let n := Z.of_N (N_of_ascii c) in if decide (48 ≤ n ≤ 57) then Some (n - 48) else None.
Fixpoint to_string_loop (n : nat) (z : Z) (acc : path) : path :=
  match n with
  | O => acc
  | S n => if z <? 10 then digit_char z :: acc else to_string_loop n (z / 10) (digit_char (z mod 10) :: acc)
  end.
Definition to_string (z : Z) : path := to_string_loop 20 z [].
Fixpoint scan_digits (acc : Z) (cs : path) : Z :=
  match cs with
  | [] => acc
  | c :: cs => match char_digit c with Some d => scan_digits (acc * 10 + d) cs | None => acc end
  end.
Definition from_chars (cs : path) : option Z :=
  let neg := bool_decide (head cs = Some "-"%char) in
  let cs := if neg then tail cs else cs in
  c ← head cs;
  d ← char_digit c;
  let v := scan_digits 0 cs in
  let v := if neg then - v else v in
  if decide (- 2 ^ 63 ≤ v < 2 ^ 63) then Some v else None.

Definition starts_with (s p : path) : bool := bool_decide (take (length p) s = p).
Definition ends_with (s p : path) : bool := bool_decide (length p ≤ length s)%nat && bool_decide (drop (length s - length p) s = p).

Definition get_lsn_from_filename (name : path) : RC * LSN :=
  if negb (starts_with name file_prefix_) || negb (ends_with name file_suffix_) then (INVALID_ARGUMENT, 0)
  else
    match from_chars (take (length name - length file_suffix_ - length file_prefix_) (drop (length file_prefix_) name)) with
    | Some lsn => (SUCCESS, lsn)
    | None => (INVALID_ARGUMENT, 0)
    end.

(** [map<LSN, filesystem::path>] as the list of its entries in key order; [emplace] keeps an
    entry that is there *)
Fixpoint emplace (k : LSN) (v : path) (l : list (LSN * path)) : list (LSN * path) :=
  match l with
  | [] => [(k, v)]
  | (k', v') :: l' => if k <? k' then (k, v) :: l else if k =? k' then l else (k', v') :: emplace k v l'
  end.

Record Manager := mkManager { max_entry_number_per_file_ : Z; log_files_ : list (LSN * path) }.

(** [LogFileManager::init] on a directory that exists, whose files are listed in the order of [names] *)
Definition manager_add (name : path) (l : list (LSN * path)) : list (LSN * path) :=
  match get_lsn_from_filename name with
  | (rc, lsn) => if OB_FAIL rc then l else emplace lsn name l
  end.
Definition manager_init (max_entries : Z) (names : list path) : Manager :=
  mkManager max_entries (foldl (λ l name, manager_add name l) [] names).

Definition list_files (start_lsn : LSN) (m : Manager) : list path :=
  map snd (filter (λ f, start_lsn ≤ f.1 + max_entry_number_per_file_ m - 1) (log_files_ m)).

Definition next_file (m : Manager) (w : Writer) : M FS (RC * Manager * Writer) :=
  let w := (writer_close w).2 in
  let lsn := match last (log_files_ m) with Some f => f.1 + max_entry_number_per_file_ m | None => 0 end in
  let name := file_prefix_ ++ to_string lsn ++ file_suffix_ in
  let m := mkManager (max_entry_number_per_file_ m) (emplace lsn name (log_files_ m)) in
  let* r := writer_open name (lsn + max_entry_number_per_file_ m - 1) w in
  ret (r.1, m, r.2).

Definition last_file (m : Manager) (w : Writer) : M FS (RC * Manager * Writer) :=
  match last (log_files_ m) with
  | None => next_file m w
  | Some f =>
      let w := (writer_close w).2 in
      let* r := writer_open f.2 (f.1 + max_entry_number_per_file_ m - 1) w in
      ret (r.1, m, r.2)
  end.
