(* ===== verification/LogFileSpec.v ===== *)
(** * LogFileSpec: reading a log file back, whole or torn *)
From Stdlib Require Import Ascii.
From stdpp Require Import strings.
From S2P Require Import Prelude Types Encoding LogHandler LogFile.

(** ** Entries on disk *)

(** an entry that [LogEntry::init] accepts, with an LSN the log hands out *)
Definition entry_fits (e : LogRec) : Prop := 0 ≤ lr_lsn e < 2 ^ 63 ∧ len (lr_data e) ≤ max_payload_size.

Definition log_bytes (es : list LogRec) : list Z := concat (map enc_entry es).

Lemma len_enc_header h : len (enc_header h) = LogHeader_SIZE.
Proof. unfold enc_header. by rewrite !len_app, len_enc64, !len_enc32. Qed.

Lemma len_enc_entry e : len (enc_entry e) = total_size e.
Proof. unfold enc_entry. rewrite len_app, len_enc_header. done. Qed.

Lemma dec_enc_header e : entry_fits e → dec_header (enc_header (header e)) = header e.
Proof.
  intros [Hl Hd]. unfold dec_header, enc_header.
  assert (H8 : length (enc64 (lh_lsn (header e))) = 8%nat) by apply length_le_bytes.
  assert (H4 : ∀ z, length (enc32 z) = 4%nat) by (intros; apply length_le_bytes).
  rewrite take_app_length' by done. rewrite drop_app_length' by done.
  rewrite take_app_length' by done.
  replace (drop 12 _) with (enc32 (lh_module_id (header e))).
  2:{ change 12%nat with (8 + 4)%nat. by rewrite <-drop_drop, drop_app_length', drop_app_length'. }
  rewrite take_ge by (rewrite H4; lia).
  rewrite dec64_enc64, !dec32_enc32; [by destruct e as [? []]| | |cbn; lia].
  - unfold in_int32. destruct e as [? [] ?]; cbn; lia.
  - unfold in_int32, max_payload_size, max_size, LogHeader_SIZE in *. cbn. unfold len in *. lia.
Qed.

Lemma module_of_index m : module_of (LogModule_index m) = Some m.
Proof. by destruct m. Qed.

Lemma payload_size_ok e : entry_fits e → (lh_size (header e) <? 0) || (max_payload_size <? lh_size (header e)) = false.
Proof. intros [_ Hd]. apply orb_false_iff. split; apply Z.ltb_ge; cbn; unfold len in *; lia. Qed.

(** ** Reading at an offset *)

Lemma readn_app (pre bs post : list Z) :
  readn (len bs) (pre ++ bs ++ post, len pre) = Some ((0, bs), (pre ++ bs ++ post, len (pre ++ bs))).
Proof.
  unfold readn. rewrite (proj2 (Z.ltb_ge _ _)) by (rewrite !len_app; unfold len; lia).
  do 2 f_equal; [f_equal|by rewrite len_app]. unfold len. rewrite !Nat2Z.id, drop_app_length. by apply take_app_length'.
Qed.

Lemma readn_eof (content : list Z) pos size :
  len content < pos + size → readn size (content, pos) = Some ((-1, []), (content, Z.max pos (len content))).
Proof. intros Hl. unfold readn. by rewrite (proj2 (Z.ltb_lt _ _)). Qed.

(** the header of the entry at the offset, and then its payload *)
Lemma readn_header pre e post :
  readn LogHeader_SIZE (pre ++ enc_entry e ++ post, len pre) =
    Some ((0, enc_header (header e)), (pre ++ enc_entry e ++ post, len pre + LogHeader_SIZE)).
Proof.
  unfold enc_entry. rewrite <-app_assoc. pose proof (readn_app pre (enc_header (header e)) (lr_data e ++ post)) as E.
  rewrite len_enc_header, len_app, len_enc_header in E. exact E.
Qed.
Lemma readn_payload pre e post :
  readn (lh_size (header e)) (pre ++ enc_entry e ++ post, len pre + LogHeader_SIZE) =
    Some ((0, lr_data e), (pre ++ enc_entry e ++ post, len (pre ++ enc_entry e))).
Proof.
  unfold enc_entry. pose proof (readn_app (pre ++ enc_header (header e)) (lr_data e) post) as E.
  rewrite !len_app, len_enc_header, <-!app_assoc in E. rewrite !len_app, len_enc_header, <-!app_assoc.
  rewrite Z.add_assoc. exact E.
Qed.

(** ** A log file: whole entries, then what is left of a write that was cut *)

(** the entries from the first one whose LSN reaches [start] *)
Fixpoint entries_from (start : LSN) (es : list LogRec) : list LogRec :=
  match es with
  | [] => []
  | e :: es' => if start <=? lr_lsn e then es else entries_from start es'
  end.

(** what is left of the last entry: nothing that starts an entry, or a header without its whole payload *)
Inductive torn (start : LSN) : list Z → RC → Prop :=
| torn_header tail : len tail < LogHeader_SIZE → torn start tail SUCCESS
| torn_payload e tail k :
    entry_fits e → start ≤ lr_lsn e → LogHeader_SIZE ≤ k < total_size e → tail = take (Z.to_nat k) (enc_entry e) →
    torn start tail IOERR_READ.

(** feed the entries to the consumer until it fails, then end with [last] *)
Section deliver.
Context {St : Type} (callback : LogRec → M St RC).
Fixpoint deliver (es : list LogRec) (last : RC) : M St RC :=
  match es with
  | [] => ret last
  | e :: es => let* rc := callback e in if OB_FAIL rc then ret rc else deliver es last
  end.

Lemma torn_take e k : LogHeader_SIZE ≤ k < total_size e →
  ∃ part, take (Z.to_nat k) (enc_entry e) = enc_header (header e) ++ part ∧ len part < lh_size (header e).
Proof.
  intros Hk. pose proof (len_enc_header (header e)) as Hh. unfold enc_entry. rewrite take_app.
  assert (Hhn : length (enc_header (header e)) = 16%nat) by (unfold len, LogHeader_SIZE in Hh; lia).
  rewrite take_ge by (unfold LogHeader_SIZE in *; lia). eexists. split; [done|].
  unfold len. rewrite length_take. unfold total_size, LogHeader_SIZE in *. cbn in *. unfold len in *. lia.
Qed.

Lemma iterate_loop_spec tail rc es : ∀ pre s n start,
  torn start tail rc → Forall entry_fits es → (length es < n)%nat →
  ∃ f, iterate_loop callback n ((pre ++ log_bytes es ++ tail, len pre), s) =
    match deliver es rc s with Some (rc, s') => Some (rc, (f, s')) | None => None end.
Proof.
  induction es as [|e es IH]; intros pre s n start Ht Hes Hn.
  - destruct n as [|n]; [lia|]. cbn [log_bytes map concat app]. cbn [iterate_loop fst snd]. destruct Ht as [tail Hl|e tail k He Hse Hk ->].
    + rewrite readn_eof by (rewrite len_app; lia). cbn [fst snd]. eexists. done.
    + destruct (torn_take e k Hk) as (part & -> & Hp).
      pose proof (readn_app pre (enc_header (header e)) part) as E. rewrite len_enc_header in E. rewrite E. cbn [negb Z.eqb].
      cbv zeta. rewrite (dec_enc_header e He), (payload_size_ok e He).
      rewrite readn_eof by (rewrite !len_app; lia). cbn [negb Z.eqb]. eexists. done.
  - destruct n as [|n]; [lia|]. apply Forall_cons in Hes as [He Hes].
    change (log_bytes (e :: es)) with (enc_entry e ++ log_bytes es). rewrite <-app_assoc.
    cbn [iterate_loop fst snd]. rewrite readn_header. cbn [negb Z.eqb]. cbv zeta.
    rewrite (dec_enc_header e He), (payload_size_ok e He), readn_payload. cbn [negb Z.eqb].
    cbn [header lh_module_id lh_lsn]. rewrite module_of_index. cbn [deliver]. unfold bind.
    replace (mkLogRec (lr_lsn e) (lr_module e) (lr_data e)) with e by by destruct e.
    destruct (callback e s) as [[rc' s']|]; [|exists (pre, 0); done].
    destruct (OB_FAIL rc'); [by eexists|].
    rewrite app_assoc. apply (IH (pre ++ enc_entry e) s' n start Ht Hes). cbn in Hn. lia.
Qed.

Lemma skip_to_spec tail rc es : ∀ pre n start,
  torn start tail rc → Forall entry_fits es → (length es < n)%nat →
  ∃ pre', pre ++ log_bytes es ++ tail = pre' ++ log_bytes (entries_from start es) ++ tail ∧
    ∃ pos, skip_to_loop n start (pre ++ log_bytes es ++ tail, len pre) = Some (SUCCESS, (pre ++ log_bytes es ++ tail, pos)) ∧
      (pos = len pre' ∨ (entries_from start es = [] ∧ rc = SUCCESS ∧ len (pre ++ log_bytes es ++ tail) ≤ pos)).
Proof.
  induction es as [|e es IH]; intros pre n start Ht Hes Hn; destruct n as [|n]; [lia| |lia|].
  - exists pre. split; [done|]. cbn [log_bytes map concat app entries_from skip_to_loop].
    destruct Ht as [tail Hl|e tail k He Hse Hk ->].
    + rewrite (bind_eq _ _ _ _ _ (readn_eof (pre ++ tail) (len pre) LogHeader_SIZE ltac:(rewrite len_app; lia))).
      cbn [fst snd negb Z.eqb]. eexists. split; [done|]. right. split; [done|]. split; [done|lia].
    + destruct (torn_take e k Hk) as (part & -> & Hp).
      pose proof (readn_app pre (enc_header (header e)) part) as E. rewrite len_enc_header in E.
      rewrite (bind_eq _ _ _ _ _ E). cbn [fst snd negb Z.eqb]. cbv zeta. rewrite (dec_enc_header e He).
      cbn [lh_lsn header]. rewrite (proj2 (Z.leb_le _ _)) by done.
      unfold seek_cur, bind. rewrite len_app, len_enc_header.
      rewrite (proj2 (Z.ltb_ge _ _)) by (unfold len, LogHeader_SIZE; lia).
      replace (len pre + LogHeader_SIZE + - LogHeader_SIZE) with (len pre) by lia.
      destruct (_ =? -1) eqn:E1; zbool; [unfold len in *; lia|]. eexists. split; [done|]. by left.
  - apply Forall_cons in Hes as [He Hes]. change (log_bytes (e :: es)) with (enc_entry e ++ log_bytes es).
    rewrite <-app_assoc. cbn [entries_from skip_to_loop].
    rewrite (bind_eq _ _ _ _ _ (readn_header pre e (log_bytes es ++ tail))). cbn [fst snd negb Z.eqb]. cbv zeta.
    rewrite (dec_enc_header e He). cbn [lh_lsn header]. destruct (start <=? lr_lsn e) eqn:Es.
    + exists pre. split; [change (log_bytes (e :: es)) with (enc_entry e ++ log_bytes es); by rewrite <-app_assoc|].
      unfold seek_cur, bind. rewrite (proj2 (Z.ltb_ge _ _)) by (unfold len, LogHeader_SIZE; lia).
      replace (len pre + LogHeader_SIZE + - LogHeader_SIZE) with (len pre) by lia.
      destruct (_ =? -1) eqn:E1; zbool; [unfold len in *; lia|]. eexists. split; [done|]. by left.
    + change (mkLogHeader (lr_lsn e) (len (lr_data e)) (LogModule_index (lr_module e))) with (header e).
      rewrite (payload_size_ok e He).
      change (len (lr_data e)) with (lh_size (header e)).
      assert (Hseek : seek_cur (lh_size (header e)) (pre ++ enc_entry e ++ log_bytes es ++ tail, len pre + LogHeader_SIZE) =
        Some (len (pre ++ enc_entry e), (pre ++ enc_entry e ++ log_bytes es ++ tail, len (pre ++ enc_entry e)))).
      { unfold seek_cur. rewrite len_app, len_enc_entry. unfold total_size. rewrite Z.add_assoc.
        rewrite (proj2 (Z.ltb_ge _ _)); [done|]. cbn. unfold len, LogHeader_SIZE. lia. }
      rewrite (bind_eq _ _ _ _ _ Hseek). destruct (_ =? -1) eqn:E1; zbool; [unfold len in *; lia|].
      destruct (IH (pre ++ enc_entry e) n start Ht Hes) as (pre' & Hpre & pos & Hskip & Hpos); [cbn in Hn; lia|].
      rewrite <-!app_assoc in *. exists pre'. split; [done|]. exists pos. by split.
Qed.

(** iterating over a file delivers the entries from [start] on, and ends with the error of a torn payload *)
Lemma iterate_spec es tail rc start pos s :
  Forall entry_fits es → torn start tail rc →
  iterate callback start (mkReader (Some (log_bytes es ++ tail, pos))) s = deliver (entries_from start es) rc s.
Proof.
  intros Hes Ht. unfold iterate. cbn [fd_]. set (n := S (length (log_bytes es ++ tail))).
  assert (Hlen : (length es < n)%nat).
  { unfold n. rewrite length_app. clear -Hes. induction Hes as [|e es He Hes IH]; [cbn; lia|].
    change (log_bytes (e :: es)) with (enc_entry e ++ log_bytes es). rewrite length_app.
    pose proof (len_enc_entry e) as Hl. unfold total_size, LogHeader_SIZE in Hl. cbn [header lh_size] in Hl. unfold len in Hl. cbn [length]. lia. }
  destruct (skip_to_spec tail rc es [] n start Ht Hes Hlen) as (pre' & Hpre & p & Hskip & Hpos).
  cbn [app] in *. change (len []) with 0 in Hskip. rewrite Hskip. change (OB_FAIL SUCCESS) with false. cbv iota.
  assert (Hsub : Forall entry_fits (entries_from start es) ∧ (length (entries_from start es) ≤ length es)%nat).
  { clear -Hes. induction Hes as [|e es He Hes IH]; [done|]. cbn. destruct IH as [IH1 IH2].
    destruct (_ <=? _); [split; [by constructor|done]|split; [done|lia]]. }
  destruct Hpos as [->|(Hnil & -> & Hp)].
  - rewrite Hpre. destruct (iterate_loop_spec tail rc (entries_from start es) pre' s n start Ht) as [f E]; [apply Hsub|lia|].
    rewrite E. by destruct (deliver _ _ _) as [[]|].
  - rewrite Hnil. unfold n. cbn [iterate_loop deliver fst snd]. rewrite readn_eof by (unfold LogHeader_SIZE; lia).
    done.
Qed.
End deliver.

(** ** File names *)

Lemma char_digit_char d : 0 ≤ d < 10 → char_digit (digit_char d) = Some d.
Proof.
  intros Hd. unfold char_digit, digit_char. rewrite N_ascii_embedding by lia.
  rewrite Z2N.id by lia. rewrite decide_True by lia. f_equal. lia.
Qed.

Lemma scan_to_string n : ∀ z acc, (0 < n)%nat → 0 ≤ z < 10 ^ Z.of_nat n →
  scan_digits 0 (to_string_loop n z acc) = scan_digits z acc ∧
  ∃ c cs d, to_string_loop n z acc = c :: cs ∧ char_digit c = Some d.
Proof.
  induction n as [|n IH]; intros z acc Hn Hz; [lia|]. cbn [to_string_loop]. destruct (z <? 10) eqn:E; zbool.
  - split; [|by exists (digit_char z), acc, z; rewrite char_digit_char by lia]. cbn [scan_digits].
    rewrite char_digit_char by lia. done.
  - rewrite Nat2Z.inj_succ, Z.pow_succ_r in Hz by lia.
    assert (0 < n)%nat by (destruct n; [cbn in Hz; lia|lia]).
    destruct (IH (z / 10) (digit_char (z mod 10) :: acc)) as [IH1 IH2]; [done|split; [apply Z.div_pos; lia|apply Z.div_lt_upper_bound; lia]|].
    split; [|done]. rewrite IH1. cbn [scan_digits]. rewrite char_digit_char by (apply Z.mod_pos_bound; lia). f_equal.
    pose proof (Z.div_mod z 10). lia.
Qed.

Lemma to_string_loop_app n : ∀ z acc junk, (0 < n)%nat → to_string_loop n z (acc ++ junk) = to_string_loop n z acc ++ junk ∨ 10 ^ Z.of_nat n ≤ z.
Proof.
  induction n as [|n IH]; intros z acc junk Hn; [lia|]. cbn [to_string_loop]. destruct (z <? 10) eqn:E; zbool; [by left|].
  destruct (decide (10 ^ Z.of_nat (S n) ≤ z)) as [|Hz]; [by right|]. left. rewrite Nat2Z.inj_succ, Z.pow_succ_r in Hz by lia.
  assert (0 < n)%nat by (destruct n; [cbn in Hz; lia|lia]).
  destruct (IH (z / 10) (digit_char (z mod 10) :: acc) junk) as [IH1|IH1]; [done|by rewrite <-IH1|].
  pose proof (Z.div_lt_upper_bound z 10 (10 ^ Z.of_nat n)). lia.
Qed.

(** [junk] does not begin with a digit *)
Definition no_digit (junk : path) : Prop := ∀ c, head junk = Some c → char_digit c = None.

Lemma scan_digits_stop z junk : no_digit junk → scan_digits z junk = z.
Proof. intros Hj. destruct junk as [|c junk]; [done|]. cbn. by rewrite (Hj c eq_refl). Qed.

(** [from_chars] reads the number and stops at what follows it *)
Lemma from_chars_junk z junk : 0 ≤ z < 2 ^ 63 → no_digit junk →
  from_chars (to_string z ++ junk) = Some z ∧ from_chars ("-"%char :: to_string z ++ junk) = Some (- z).
Proof.
  intros Hz Hj. unfold to_string. destruct (to_string_loop_app 20 z [] junk) as [<-|Hbig]; [lia| |cbn in Hbig; lia]. cbn [app].
  destruct (scan_to_string 20 z junk) as (Hscan & c & cs & d & Hc & Hd); [lia|cbn; lia|]. rewrite (scan_digits_stop z junk Hj) in Hscan.
  rewrite Hc in *. split; unfold from_chars.
  - rewrite bool_decide_eq_false_2 by (intros [= ->]; done). cbn [head mbind option_bind]. rewrite Hd. cbn [mbind option_bind].
    rewrite Hscan. by rewrite decide_True by lia.
  - rewrite bool_decide_eq_true_2 by done. cbn [head tail mbind option_bind]. rewrite Hd. cbn [mbind option_bind].
    rewrite Hscan. by rewrite decide_True by lia.
Qed.
Lemma from_chars_to_string z : 0 ≤ z < 2 ^ 63 → from_chars (to_string z) = Some z.
Proof. intros Hz. rewrite <-(app_nil_r (to_string z)). by apply from_chars_junk. Qed.

Definition log_file_name (lsn : LSN) : path := file_prefix_ ++ to_string lsn ++ file_suffix_.

(** a name with the prefix and the suffix *)
Lemma get_lsn_middle mid :
  get_lsn_from_filename (file_prefix_ ++ mid ++ file_suffix_) = match from_chars mid with Some lsn => (SUCCESS, lsn) | None => (INVALID_ARGUMENT, 0) end.
Proof.
  unfold get_lsn_from_filename.
  assert (Hs : starts_with (file_prefix_ ++ mid ++ file_suffix_) file_prefix_ = true).
  { apply bool_decide_eq_true_2. by rewrite take_app_length. }
  assert (He : ends_with (file_prefix_ ++ mid ++ file_suffix_) file_suffix_ = true).
  { unfold ends_with. rewrite !length_app. apply andb_true_iff. split; apply bool_decide_eq_true_2; [lia|].
    rewrite app_assoc. apply drop_app_length'. rewrite length_app. lia. }
  rewrite Hs, He. cbn [negb orb]. rewrite drop_app_length, !length_app. by rewrite take_app_length' by lia.
Qed.
Lemma get_lsn_log_file_name lsn : 0 ≤ lsn < 2 ^ 63 → get_lsn_from_filename (log_file_name lsn) = (SUCCESS, lsn).
Proof. intros Hl. unfold log_file_name. by rewrite get_lsn_middle, from_chars_to_string. Qed.

(** ** Properties *)

(** [C25] Reading a log file back. From a file that holds whole entries and possibly the start
    of one more (a write cut by a crash), iterating from an LSN hands the consumer exactly
    the entries from the first one that reaches that LSN, in order, each with its LSN,
    module and payload, until the consumer fails; then it ends with SUCCESS when at most a
    partial header follows and with IOERR_READ when a header without its whole payload
    follows. *)
Theorem iterate_reads_back {St} (callback : LogRec → M St RC) (es : list LogRec) (tail : list Z) (rc : RC)
    (start : LSN) (name : path) (fs : FS) (s : St) :
  Forall entry_fits es → torn start tail rc → files fs !! name = Some (log_bytes es ++ tail) →
  ∃ rd, reader_open name fs = (SUCCESS, rd) ∧
    iterate callback start rd s = deliver callback (entries_from start es) rc s.
Proof.
  intros Hes Ht Hf. unfold reader_open. rewrite Hf. eexists. split; [done|]. by apply iterate_spec.
Qed.

Definition two_entries : list LogRec := [mkLogRec 1 TRANSACTION [1; 2]; mkLogRec 2 BUFFER_POOL [3]].
Definition cut_entry : LogRec := mkLogRec 3 RECORD_MANAGER [4; 5; 6].
Definition collect (e : LogRec) : M (list LogRec) RC := λ l, Some (SUCCESS, l ++ [e]).

Lemma iterate_reads_back_witness :
  ∃ rd, reader_open [] (mkFS {[ [] := log_bytes two_entries ++ take 18 (enc_entry cut_entry) ]} []) = (SUCCESS, rd) ∧
    iterate collect 2 rd [] = deliver collect (entries_from 2 two_entries) IOERR_READ [].
Proof.
  apply (iterate_reads_back collect two_entries (take 18 (enc_entry cut_entry)) IOERR_READ 2 []).
  - repeat constructor; by vm_compute.
  - apply (torn_payload 2 cut_entry _ 18); by vm_compute.
  - apply lookup_singleton_eq.
Defined.


