(* ===== verification/DiskLog.v ===== *)
(** * DiskLog: the commit log on disk (storage/clog/log_buffer.cpp, disk_log_handler.cpp)

    Clients append entries to a buffer in memory; a background thread writes them to the
    log files, in order, a new file every [max_entry_number_per_file_] LSNs. The thread and
    its local variables are part of the state; [thread_body] is one round of its loop.
    Where a client sleeps until the thread has made progress ([append] on a full buffer,
    [wait_lsn]) the model runs the rounds of the thread that the client waits for. *)
From stdpp Require Import strings.
From S2P Require Import Prelude Types Encoding LogHandler LogFile.

(** ** LogEntryBuffer *)

Record Buffer := mkBuffer {
  entries_ : list LogRec;
  bytes_ : Z;
  current_lsn_ : LSN;
  flushed_lsn_ : LSN;
  max_bytes_ : Z;
}.

Definition new_buffer : Buffer := mkBuffer [] 0 0 0 (4 * 1024 * 1024).
Definition buffer_init (lsn : LSN) (max_bytes : Z) (b : Buffer) : RC * Buffer :=
  (SUCCESS, mkBuffer (entries_ b) (bytes_ b) lsn lsn (if 0 <? max_bytes then max_bytes else max_bytes_ b)).
Definition entry_number (b : Buffer) : Z := len (entries_ b).

(** [LogEntryBuffer::append] after its wait. [total_size] is taken from the entry that was just
    moved into the queue, whose size is 0 by then *)
Definition buffer_append (module : LogModule) (data : list Z) : M Buffer (RC * LSN) := λ b,
  match entry_init 0 module data with
  | (rc, None) => Some ((rc, 0), b)
  | (_, Some e) =>
      let lsn := wrap_s 64 (current_lsn_ b + 1) in
      Some ((SUCCESS, lsn),
        mkBuffer (entries_ b ++ [mkLogRec lsn (lr_module e) (lr_data e)]) (bytes_ b + LogHeader_SIZE) lsn
          (flushed_lsn_ b) (max_bytes_ b))
  end.

(** the state of [flush]: the buffer, the files and the writer *)
Record FlushState := mkFlush { fl_buffer : Buffer; fl_fs : FS; fl_writer : Writer; fl_count : Z }.

Definition pop_front (rest : list LogRec) (size : Z) (b : Buffer) : Buffer :=
  mkBuffer rest (bytes_ b - size) (current_lsn_ b) (flushed_lsn_ b) (max_bytes_ b).
Definition push_front (e : LogRec) (b : Buffer) : Buffer :=
  mkBuffer (e :: entries_ b) (bytes_ b) (current_lsn_ b) (flushed_lsn_ b) (max_bytes_ b).
Definition set_flushed (lsn : LSN) (b : Buffer) : Buffer :=
  mkBuffer (entries_ b) (bytes_ b) (current_lsn_ b) lsn (max_bytes_ b).

(** the loop of [flush]; every round takes an entry off the queue or returns, so the length of
    the queue bounds the rounds *)
Fixpoint flush_loop (n : nat) : M FlushState RC := λ st,
  match entries_ (fl_buffer st) with
  | [] => Some (SUCCESS, st)
  | e :: rest =>
      match n with
      | O => None
      | S n =>
          (assertM ((0 <? lr_lsn e) && (0 <? payload_size e)) ;;;
           let b := pop_front rest (total_size e) (fl_buffer st) in
           let* r := liftO (write e (fl_writer st) (fl_fs st)) in
           let '((rc, w), fs) := r in
           if OB_FAIL rc then
             put (mkFlush (push_front e b) fs w (fl_count st)) ;;; ret rc
           else
             put (mkFlush (set_flushed (lr_lsn e) b) fs w (fl_count st + 1)) ;;; flush_loop n) st
      end
  end.
Definition flush : M FlushState RC := λ st,
  flush_loop (length (entries_ (fl_buffer st))) (mkFlush (fl_buffer st) (fl_fs st) (fl_writer st) 0).

(** ** DiskLogHandler *)

Record Disk := mkDisk {
  running_ : bool;
  thread_ : bool;
  file_manager_ : Manager;
  entry_buffer_ : Buffer;
  fs_ : FS;
  file_writer : Writer;    (** local to [thread_func] *)
  thread_rc : RC;          (** [rc] of [thread_func] *)
}.

Definition with_running (b : bool) (d : Disk) : Disk :=
  mkDisk b (thread_ d) (file_manager_ d) (entry_buffer_ d) (fs_ d) (file_writer d) (thread_rc d).
Definition with_thread (r t : bool) (d : Disk) : Disk :=
  mkDisk r t (file_manager_ d) (entry_buffer_ d) (fs_ d) new_writer SUCCESS.
Definition with_buffer (b : Buffer) (d : Disk) : Disk :=
  mkDisk (running_ d) (thread_ d) (file_manager_ d) b (fs_ d) (file_writer d) (thread_rc d).

(** [init(path)] on the files found in the directory *)
Definition disk_init (names : list path) (fs : FS) : Disk :=
  mkDisk false false (manager_init 1000 names) new_buffer fs new_writer SUCCESS.

Definition start : M Disk RC :=
  let* d := get in
  if thread_ d then ret INTERNAL else put (with_thread true true d) ;;; ret SUCCESS.
Definition stop : M Disk RC :=
  let* d := get in
  if negb (thread_ d) then ret INTERNAL else put (with_running false d) ;;; ret SUCCESS.

(** the file the thread writes to: opened, or replaced when it is full *)
Definition open_file : M Disk RC := λ d,
  match (if bool_decide (thread_rc d = LOG_FILE_FULL) then next_file else last_file) (file_manager_ d) (file_writer d) (fs_ d) with
  | None => None
  | Some ((rc, m, w), fs) =>
      Some (rc, mkDisk (running_ d) (thread_ d) m (entry_buffer_ d) fs w rc)
  end.

Definition flush_buffer : M Disk unit := λ d,
  match flush (mkFlush (entry_buffer_ d) (fs_ d) (file_writer d) 0) with
  | None => None
  | Some (rc, st) =>
      Some (tt, mkDisk (running_ d) (thread_ d) (file_manager_ d) (fl_buffer st) (fl_fs st) (fl_writer st) rc)
  end.

(** one round of the loop of [thread_func]; the sleeps have no effect *)
Definition thread_body : M Disk unit :=
  let* d := get in
  if negb (valid (file_writer d)) || bool_decide (thread_rc d = LOG_FILE_FULL) then
    let* rc := open_file in
    if OB_FAIL rc then ret tt else flush_buffer
  else flush_buffer.

(** [while (running_ || entry_number() > 0)], [n] rounds at most *)
Fixpoint thread_loop (n : nat) : M Disk unit := λ d,
  if running_ d || (0 <? entry_number (entry_buffer_ d)) then
    match n with O => None | S n => (thread_body ;;; thread_loop n) d end
  else Some (tt, d).

(** [await_termination]: joins the thread; its locals die, the file is closed *)
Definition await_termination (n : nat) : M Disk RC :=
  let* d := get in
  if negb (thread_ d) then ret INTERNAL
  else if running_ d then ret INTERNAL
  else
    thread_loop n ;;;
    modify (λ d, with_thread (running_ d) false d) ;;;
    ret SUCCESS.

(** rounds of the thread until [done] holds *)
Fixpoint run_thread (n : nat) (done : Disk → bool) : M Disk unit := λ d,
  if done d then Some (tt, d) else match n with O => None | S n => (thread_body ;;; run_thread n done) d end.
Definition rounds (d : Disk) : nat := 2 * length (entries_ (entry_buffer_ d)) + 2.

(** [_append]; the buffer waits while it holds [max_bytes_] or more *)
Definition has_room (d : Disk) : bool := bytes_ (entry_buffer_ d) <? max_bytes_ (entry_buffer_ d).
Definition disk_append (module : LogModule) (data : list Z) : M Disk (RC * LSN) :=
  let* d := get in
  assertM (running_ d) ;;;
  run_thread (rounds d) has_room ;;;
  let* d := get in
  let* r := liftO (buffer_append module data (entry_buffer_ d)) in
  put (with_buffer r.2 d) ;;;
  ret r.1.

Definition current_flushed_lsn (d : Disk) : LSN := flushed_lsn_ (entry_buffer_ d).
Definition current_lsn (d : Disk) : LSN := current_lsn_ (entry_buffer_ d).
Definition disk_wait_lsn (lsn : LSN) : M Disk RC :=
  let* d := get in
  run_thread (rounds d) (λ d, negb (running_ d) || (lsn <=? current_flushed_lsn d)) ;;;
  let* d := get in
  ret (if lsn <=? current_flushed_lsn d then SUCCESS else INTERNAL).

#[export] Instance DiskLogHandler : LogHandler Disk := {| append := disk_append; wait_lsn := disk_wait_lsn |}.

(** ** Reading the log *)

Section read.
Context {St : Type} (consumer : LogRec → M St RC).

(** [DiskLogHandler::iterate] over the files that may hold [start_lsn] or later *)
Fixpoint iterate_files (names : list path) (fs : FS) (start_lsn : LSN) : M St RC :=
  match names with
  | [] => ret SUCCESS
  | name :: names =>
      let '(rc, rd) := reader_open name fs in
      if OB_FAIL rc then ret rc
      else
        let* rc := iterate consumer start_lsn rd in
        if OB_FAIL rc then ret rc else iterate_files names fs start_lsn
  end.
Definition disk_iterate (d : Disk) (start_lsn : LSN) : M St RC :=
  iterate_files (list_files start_lsn (file_manager_ d)) (fs_ d) start_lsn.
End read.

(** [DiskLogHandler::replay]: the largest LSN met restarts the numbering *)
Definition replay_callback {St} (replayer : LogRec → M St RC) (e : LogRec) : M (LSN * St) RC := λ '(max_lsn, s),
  match replayer e s with
  | None => None
  | Some (rc, s') => Some (rc, (if max_lsn <? lr_lsn e then lr_lsn e else max_lsn, s'))
  end.
Definition disk_replay {St} (replayer : LogRec → M St RC) (start_lsn : LSN) (d : Disk) : M St (RC * Disk) := λ s,
  match disk_iterate (replay_callback replayer) d start_lsn (0, s) with
  | None => None
  | Some (rc, (max_lsn, s')) =>
      if OB_FAIL rc then Some ((rc, d), s')
      else let '(rc, b) := buffer_init max_lsn 0 (entry_buffer_ d) in Some ((rc, with_buffer b d), s')
  end.

(** ** Choosing the log, and replaying it (log_handler.cpp, integrated_log_replayer.cpp) *)

Inductive LogKind : Set := VACUOUS_LOG | DISK_LOG.

(** [strcasecmp] of the C locale, over the characters of the name *)
Definition to_lower (c : Ascii.ascii) : Ascii.ascii :=
  let n := Ascii.N_of_ascii c in if decide (65 ≤ n ≤ 90)%N then Ascii.ascii_of_N (n + 32) else c.
Definition same_word (s : list Ascii.ascii) (w : String.string) : bool :=
  bool_decide (map to_lower s = String.list_ascii_of_string w).

(** [LogHandler::create]; [None] is the null pointer *)
Definition create (name : option (list Ascii.ascii)) : RC * option LogKind :=
  let name := match name with Some n => if is_blank n then None else Some n | None => None end in
  match name with
  | None => (SUCCESS, Some VACUOUS_LOG)
  | Some n =>
      if same_word n "disk"%string then (SUCCESS, Some DISK_LOG)
      else if same_word n "vacuous"%string then (SUCCESS, Some VACUOUS_LOG)
      else (INVALID_ARGUMENT, None)
  end.

(** a [LogReplayer]: one entry, and the end of the log *)
Record Replayer (St : Type) := mkReplayer { rp_replay : LogRec → M St RC; rp_on_done : M St RC }.
Arguments rp_replay {St}.
Arguments rp_on_done {St}.

(** [IntegratedLogReplayer]: dispatch on the module of the entry *)
Definition integrated_replay {St} (buffer_pool record bplus_tree trx : Replayer St) (e : LogRec) : M St RC :=
  match lr_module e with
  | BUFFER_POOL => rp_replay buffer_pool e
  | RECORD_MANAGER => rp_replay record e
  | BPLUS_TREE => rp_replay bplus_tree e
  | TRANSACTION => rp_replay trx e
  end.
Definition integrated_on_done {St} (buffer_pool record bplus_tree trx : Replayer St) : M St RC :=
  let* rc := rp_on_done buffer_pool in
  if OB_FAIL rc then ret rc
  else
    let* rc := rp_on_done record in
    if OB_FAIL rc then ret rc
    else
      let* rc := rp_on_done bplus_tree in
      if OB_FAIL rc then ret rc
      else
        let* rc := rp_on_done trx in
        if OB_FAIL rc then ret rc else ret SUCCESS.
