(* ===== verification/DiskLogSpec.v ===== *)
(** * DiskLogSpec: the log on disk is one sequence of entries

    [disk_ok all d]: the handler [d] represents the log [all], of which the first
    [flushed_lsn_] entries are in the files, by LSN, and the rest in the buffer. *)
From Stdlib Require Import Ascii.
From stdpp Require Import strings.
From S2P Require Import Prelude Types Encoding LogHandler LogFile LogFileSpec DiskLog.

(** the entries of the file whose first LSN is [i * m] *)
Definition chunk (m i : Z) (es : list LogRec) : list LogRec := filter (λ e, lr_lsn e / m = i) es.

Definition per_file (d : Disk) : Z := max_entry_number_per_file_ (file_manager_ d).
Definition file_count (d : Disk) : Z := len (log_files_ (file_manager_ d)).
Definition flushed (d : Disk) : Z := flushed_lsn_ (entry_buffer_ d).
Definition file_list (m nf : Z) : list (LSN * path) := map (λ i, (i * m, log_file_name (i * m))) (seqZ 0 nf).

Record disk_ok (all : list LogRec) (d : Disk) : Prop := {
  do_num i e : all !! i = Some e → lr_lsn e = Z.of_nat i + 1;
  do_fit : Forall (λ e, 0 < len (lr_data e) ≤ max_payload_size) all;
  do_m : 1 ≤ per_file d;
  do_bound : len all + 2 * per_file d < 2 ^ 31;
  do_faults : faults (fs_ d) = [];
  do_flushed : 0 ≤ flushed d ≤ len all;
  do_buffer : entries_ (entry_buffer_ d) = drop (Z.to_nat (flushed d)) all;
  do_current : current_lsn_ (entry_buffer_ d) = len all;
  do_files : log_files_ (file_manager_ d) = file_list (per_file d) (file_count d);
  do_content i : 0 ≤ i < file_count d →
    files (fs_ d) !! log_file_name (i * per_file d) =
      Some (log_bytes (chunk (per_file d) i (take (Z.to_nat (flushed d)) all)));
  do_absent i : file_count d ≤ i → i * per_file d < 2 ^ 63 → files (fs_ d) !! log_file_name (i * per_file d) = None;
  do_cover : flushed d = 0 ∨ flushed d < file_count d * per_file d;
  do_tight : file_count d = 0 ∨ (file_count d - 1) * per_file d ≤ flushed d + 1;
  do_writer : w_open (file_writer d) = true →
    0 < file_count d ∧ filename_ (file_writer d) = log_file_name ((file_count d - 1) * per_file d) ∧
    end_lsn_ (file_writer d) = file_count d * per_file d - 1;
  do_last : last_lsn_ (file_writer d) ≤ flushed d;
  do_rc : thread_rc d = SUCCESS ∨ thread_rc d = LOG_FILE_FULL ∧ 0 < file_count d ∧ flushed d = file_count d * per_file d - 1;
  do_bytes : bytes_ (entry_buffer_ d) ≤ LogHeader_SIZE * len (entries_ (entry_buffer_ d));
  do_max : 0 < max_bytes_ (entry_buffer_ d);
}.

(** ** Small facts *)

Lemma chunk_snoc m i es e : chunk m i (es ++ [e]) = chunk m i es ++ (if decide (lr_lsn e / m = i) then [e] else []).
Proof. unfold chunk. by rewrite filter_app. Qed.

Lemma log_bytes_app es es' : log_bytes (es ++ es') = log_bytes es ++ log_bytes es'.
Proof. unfold log_bytes. by rewrite map_app, concat_app. Qed.

Lemma file_list_snoc m nf : 0 ≤ nf → file_list m (nf + 1) = file_list m nf ++ [(nf * m, log_file_name (nf * m))].
Proof.
  intros. unfold file_list. rewrite seqZ_app, map_app by lia. rewrite Z.add_0_l. done.
Qed.

Lemma len_file_list m nf : 0 ≤ nf → len (file_list m nf) = nf.
Proof. intros. unfold len, file_list. rewrite length_map, length_seqZ. lia. Qed.

Lemma last_file_list m nf : 0 < nf → last (file_list m nf) = Some ((nf - 1) * m, log_file_name ((nf - 1) * m)).
Proof. intros. replace nf with (nf - 1 + 1) at 1 by lia. rewrite file_list_snoc by lia. by rewrite last_snoc. Qed.

Lemma emplace_snoc k v l : Forall (λ f, f.1 < k) l → emplace k v l = l ++ [(k, v)].
Proof.
  induction 1 as [|[k' v'] l Hk Hl IH]; [done|]. cbn in *. rewrite (proj2 (Z.ltb_ge _ _)) by lia.
  rewrite (proj2 (Z.eqb_neq _ _)) by lia. by rewrite IH.
Qed.

Lemma file_list_below m nf k : 1 ≤ m → nf * m ≤ k → Forall (λ f, f.1 < k) (file_list m nf).
Proof.
  intros Hm Hk. unfold file_list. apply Forall_map, Forall_forall. intros i Hi%elem_of_seqZ. cbn. nia.
Qed.

Lemma file_name_inj m i j : 1 ≤ m → 0 ≤ i → 0 ≤ j → i * m < 2 ^ 63 → j * m < 2 ^ 63 →
  log_file_name (i * m) = log_file_name (j * m) → i = j.
Proof.
  intros Hm Hi Hj Hi' Hj' Heq. pose proof (get_lsn_log_file_name (i * m) ltac:(nia)) as E.
  rewrite Heq, get_lsn_log_file_name in E by nia. injection E as E. nia.
Qed.

Lemma drop_cons_lookup {A} (l : list A) n x rest : drop n l = x :: rest → l !! n = Some x ∧ rest = drop (S n) l.
Proof.
  intros Hd. assert (Hx : l !! n = Some x). { rewrite <-(Nat.add_0_r n), <-lookup_drop, Hd. done. }
  split; [done|]. rewrite (drop_S l x n Hx) in Hd. congruence.
Qed.

(** the number of files stays far below the LSN bound *)
Lemma file_count_bound all d : disk_ok all d → 0 ≤ file_count d ∧ file_count d * per_file d < 2 ^ 31.
Proof.
  intros Hok. pose proof (do_m _ _ Hok). pose proof (do_bound _ _ Hok). pose proof (do_flushed _ _ Hok).
  assert (0 ≤ file_count d) by (unfold file_count, len; lia). split; [done|].
  destruct (do_tight _ _ Hok) as [E|Ht]; [rewrite E; lia|nia].
Qed.

(** ** The flusher *)

(** put a flush state back into the handler *)
Definition to_disk (d : Disk) (st : FlushState) (rc : RC) : Disk :=
  mkDisk (running_ d) (thread_ d) (file_manager_ d) (fl_buffer st) (fl_fs st) (fl_writer st) rc.

(** the next entry fits the open file: it is written and leaves the buffer *)
Lemma write_next all d st e rest :
  disk_ok all (to_disk d st SUCCESS) → w_open (fl_writer st) = true →
  entries_ (fl_buffer st) = e :: rest → lr_lsn e ≤ end_lsn_ (fl_writer st) →
  ∃ w fs, write e (fl_writer st) (fl_fs st) = Some ((SUCCESS, w), fs) ∧ w_open w = true ∧
    disk_ok all (to_disk d (mkFlush (set_flushed (lr_lsn e) (pop_front rest (total_size e) (fl_buffer st))) fs w (fl_count st + 1)) SUCCESS) ∧
    0 < payload_size e ∧ lr_lsn e = flushed_lsn_ (fl_buffer st) + 1 ∧ end_lsn_ w = end_lsn_ (fl_writer st).
Proof.
  intros Hok Hop He Hle. pose proof (file_count_bound _ _ Hok) as [Hnf Hnfb].
  destruct Hok as [Hnum Hfit Hm Hbd Hfl Hflu Hbuf Hcur Hfiles Hcont Habs Hcov Hti Hwr Hla Hrc Hby Hmx].
  unfold flushed, file_count, per_file in *; cbn [to_disk entry_buffer_ fs_ file_writer file_manager_ thread_rc] in *.
  set (m := max_entry_number_per_file_ (file_manager_ d)) in *. set (nf := len (log_files_ (file_manager_ d))) in *.
  set (fl := flushed_lsn_ (fl_buffer st)) in *.
  rewrite He in Hbuf. symmetry in Hbuf. apply drop_cons_lookup in Hbuf as [Hx Hrest].
  pose proof (Hnum _ _ Hx) as Hlsn. destruct (Hwr Hop) as (Hnf0 & Hname & Hend).
  pose proof (lookup_lt_Some _ _ _ Hx) as Hlt. rewrite Forall_lookup in Hfit. pose proof (Hfit _ _ Hx) as Hsz.
  assert (Hcnt := Hcont (nf - 1) ltac:(lia)).
  unfold write. rewrite (proj2 (Z.ltb_ge _ _)) by lia. rewrite Hop. cbn [negb].
  rewrite (proj2 (Z.leb_gt _ _)) by lia.
  unfold bind, writen. rewrite Hname, Hcnt, Hfl. cbn [negb Z.eqb files faults].
  rewrite lookup_insert_eq. cbn [negb Z.eqb].
  rewrite insert_insert_eq. do 2 eexists. split; [done|]. split; [done|].
  rewrite Hlsn, Z2Nat.id in * by lia.
  assert (Hin : (fl + 1) / m = nf - 1).
  { symmetry. apply (Z.div_unique _ _ _ (fl + 1 - m * (nf - 1))); [left|lia]. destruct Hti as [|Hti]; [lia|]. lia. }
  assert (Htake : take (Z.to_nat (fl + 1)) all = take (Z.to_nat fl) all ++ [e]).
  { replace (Z.to_nat (fl + 1)) with (S (Z.to_nat fl)) by lia. by apply take_S_r. }
  split; [|split; [cbn; lia|done]].
  constructor; unfold flushed, file_count, per_file; cbn [to_disk entry_buffer_ fs_ file_writer file_manager_ thread_rc fl_buffer fl_fs fl_writer
    set_flushed pop_front entries_ flushed_lsn_ current_lsn_ bytes_ max_bytes_ files faults w_open filename_ end_lsn_ last_lsn_]; fold m; fold nf; try done.
  - by rewrite Forall_lookup.
  - unfold len in *. lia.
  - rewrite Hrest. f_equal. lia.
  - intros i Hi. rewrite Htake, chunk_snoc, Hlsn, Hin. destruct (decide (i = nf - 1)) as [->|Hne].
    + rewrite lookup_insert_eq, decide_True by done. rewrite log_bytes_app. cbn. by rewrite !app_nil_r, <-app_assoc.
    + rewrite lookup_insert_ne, decide_False, app_nil_r; [apply Hcont; lia|congruence|].
      intros Heq. apply Hne. apply (file_name_inj m) in Heq; nia.
  - intros i Hi Hib. rewrite lookup_insert_ne; [by apply Habs|]. intros Heq. apply (file_name_inj m) in Heq; nia.
  - right. lia.
  - right. lia.
  - rewrite wrap32_id by (unfold in_int32; lia). lia.
  - by left.
  - rewrite He in Hby. unfold total_size. cbn [header lh_size]. unfold len in *. cbn [length] in Hby. unfold LogHeader_SIZE in *. lia.
Qed.

(** flushing ends with an empty buffer, or at the end of the file *)
Lemma flush_loop_ok all d n : ∀ st,
  disk_ok all (to_disk d st SUCCESS) → w_open (fl_writer st) = true → n = length (entries_ (fl_buffer st)) →
  ∃ rc st', flush_loop n st = Some (rc, st') ∧ disk_ok all (to_disk d st' rc) ∧ w_open (fl_writer st') = true ∧
    flushed_lsn_ (fl_buffer st) ≤ flushed_lsn_ (fl_buffer st') ∧
    ((rc = SUCCESS ∧ entries_ (fl_buffer st') = []) ∨
     (rc = LOG_FILE_FULL ∧ (flushed_lsn_ (fl_buffer st) < end_lsn_ (fl_writer st) → flushed_lsn_ (fl_buffer st) < flushed_lsn_ (fl_buffer st')))).
Proof.
  induction n as [|n IH]; intros st Hok Hop Hn; cbn [flush_loop].
  { destruct (entries_ (fl_buffer st)) eqn:E; [|done]. exists SUCCESS, st. split; [done|]. split; [done|]. split; [done|]. split; [done|]. by left. }
  destruct (entries_ (fl_buffer st)) as [|e rest] eqn:Ee; [done|]. cbn in Hn. injection Hn as Hn.
  pose proof Hok as Hok'. pose proof (do_buffer _ _ Hok) as Hbuf. cbn in Hbuf. rewrite Ee in Hbuf. symmetry in Hbuf.
  apply drop_cons_lookup in Hbuf as [Hx Hrest]. pose proof (do_num _ _ Hok _ _ Hx) as Hlsn.
  pose proof (do_flushed _ _ Hok) as Hflr. unfold flushed in Hx, Hrest, Hlsn, Hflr. cbn in Hx, Hrest, Hlsn, Hflr.
  rewrite Z2Nat.id in Hlsn by lia.
  pose proof (do_fit _ _ Hok) as Hfit. rewrite Forall_lookup in Hfit. pose proof (Hfit _ _ Hx) as Hsz.
  rewrite bind_assertM by (apply andb_true_iff; split; apply Z.ltb_lt; [lia|cbn; lia]). cbv zeta.
  destruct (decide (lr_lsn e ≤ end_lsn_ (fl_writer st))) as [Hle|Hgt].
  - destruct (write_next all d st e rest Hok Hop Ee Hle) as (w & fs & Hw & Hwo & Hok1 & _ & Hl & Hend).
    rewrite (bind_liftO _ _ _ _ Hw). change (OB_FAIL SUCCESS) with false. cbv iota.
    unfold bind at 1, put.
    destruct (IH _ Hok1 Hwo ltac:(cbn; exact Hn)) as (rc & st' & E & Hok2 & Hwo2 & Hmono & Hres). cbn in Hmono, Hres.
    exists rc, st'. split; [exact E|]. split; [done|]. split; [done|]. split; [lia|].
    destruct Hres as [Hres|[-> Hres]]; [by left|]. right. split; [done|]. lia.
  - assert (Hw : write e (fl_writer st) (fl_fs st) = Some ((LOG_FILE_FULL, fl_writer st), fl_fs st)).
    { unfold write. by rewrite (proj2 (Z.ltb_lt _ _)) by lia. }
    rewrite (bind_liftO _ _ _ _ Hw). change (OB_FAIL LOG_FILE_FULL) with true. cbv iota. unfold bind, put, ret.
    eexists _, _. split; [done|]. cbn.
    destruct Hok as [? ? ? ? ? ? ? ? ? ? ? ? ? Hwr ? Hrc Hby ?].
    destruct (Hwr Hop) as (Hnf0 & Hname & Hend). unfold flushed, file_count, per_file in *; cbn in *.
    split; [|split; [done|split; [done|right; split; [done|lia]]]].
    assert (Hflend : flushed_lsn_ (fl_buffer st) ≤ end_lsn_ (fl_writer st)) by lia.
    constructor; unfold flushed, file_count, per_file; cbn; try done.
    + rewrite Hrest. erewrite <-drop_S; [|exact Hx]. done.
    + right. split; [done|]. split; [done|]. lia.
    + rewrite Ee in Hby. unfold total_size, LogHeader_SIZE in *. cbn [header lh_size]. unfold len in *. cbn [length] in *. lia.
Qed.

(** the handler after a file has been opened *)
Definition opened (d : Disk) (m : Manager) (w : Writer) (fs : FS) : Disk :=
  mkDisk (running_ d) (thread_ d) m (entry_buffer_ d) fs w SUCCESS.

Lemma close_writer (w : Writer) :
  w_open (writer_close w).2 = false ∧ last_lsn_ (writer_close w).2 = last_lsn_ w.
Proof. unfold writer_close. destruct (w_open w) eqn:E; cbn; auto. Qed.

Lemma next_file_ok all d :
  disk_ok all d → flushed d = file_count d * per_file d - 1 ∨ file_count d = 0 →
  ∃ m w fs, next_file (file_manager_ d) (file_writer d) (fs_ d) = Some ((SUCCESS, m, w), fs) ∧
    disk_ok all (opened d m w fs) ∧ w_open w = true ∧ max_entry_number_per_file_ m = per_file d ∧
    end_lsn_ w = (file_count d + 1) * per_file d - 1.
Proof.
  intros Hok Hfull. pose proof (file_count_bound _ _ Hok) as [Hnf Hnfb].
  destruct Hok as [Hnum Hfit Hm Hbd Hfl Hflu Hbuf Hcur Hfiles Hcont Habs Hcov Hti Hwr Hla Hrc Hby Hmx].
  destruct (close_writer (file_writer d)) as [Hcl Hcll]. unfold next_file.
  set (w0 := (writer_close (file_writer d)).2) in *. set (m := per_file d) in *. set (nf := file_count d) in *.
  change (max_entry_number_per_file_ (file_manager_ d)) with m.
  assert (Hlsn : match last (log_files_ (file_manager_ d)) with Some f => f.1 + m | None => 0 end = nf * m).
  { rewrite Hfiles. destruct (decide (nf = 0)) as [->|]; [done|]. rewrite last_file_list by lia. cbn. lia. }
  rewrite Hlsn. change (file_prefix_ ++ to_string (nf * m) ++ file_suffix_) with (log_file_name (nf * m)).
  assert (Hemp : emplace (nf * m) (log_file_name (nf * m)) (log_files_ (file_manager_ d)) = file_list m (nf + 1)).
  { rewrite Hfiles, file_list_snoc by done. apply emplace_snoc, file_list_below; lia. }
  rewrite Hemp. unfold writer_open. rewrite Hcl. unfold bind, modify, ret.
  assert (Hno : files (fs_ d) !! log_file_name (nf * m) = None) by (apply Habs; lia). rewrite Hno.
  do 3 eexists. split; [done|].
  assert (Hend : wrap32 (nf * m + m - 1) = (nf + 1) * m - 1) by (rewrite wrap32_id by (unfold in_int32; nia); lia).
  split; [|split; [done|split; [done|exact Hend]]].
  assert (Hfl0 : flushed d = nf * m - 1 ∨ nf = 0 ∧ flushed d = 0) by lia.
  constructor; unfold flushed, file_count, per_file; cbn [opened entry_buffer_ fs_ file_writer file_manager_ thread_rc files faults
    log_files_ max_entry_number_per_file_ w_open filename_ end_lsn_ last_lsn_ fst snd]; fold (flushed d);
    rewrite ?len_file_list by lia; try done.
  - intros i Hi. destruct (decide (i = nf)) as [->|Hne].
    + rewrite lookup_insert_eq. f_equal. symmetry.
      replace (chunk m nf (take (Z.to_nat (flushed d)) all)) with ([] : list LogRec); [done|]. symmetry.
      apply elem_of_nil_inv. intros e [Hdiv Hin]%list_elem_of_filter. apply list_elem_of_lookup in Hin as [j Hj].
      apply lookup_take_Some in Hj as [Hj Hlt]. rewrite (Hnum _ _ Hj) in Hdiv.
      assert ((Z.of_nat j + 1) / m < nf ∨ flushed d = 0); [|lia].
      destruct Hfl0 as [Hfl0|[? ?]]; [left|by right]. apply Z.div_lt_upper_bound; lia.
    + rewrite lookup_insert_ne; [apply Hcont; lia|]. intros Heq. apply (file_name_inj m) in Heq; nia.
  - intros i Hi Hib. rewrite lookup_insert_ne; [apply Habs; lia|]. intros Heq. apply (file_name_inj m) in Heq; nia.
  - destruct Hfl0 as [Hfl0|[? ?]]; [right|by left]. nia.
  - right. lia.
  - intros _. split; [lia|]. split; [by replace (nf + 1 - 1) with nf by lia|exact Hend].
  - by rewrite Hcll.
  - by left.
Qed.

Lemma last_file_ok all d :
  disk_ok all d → thread_rc d = SUCCESS →
  ∃ m w fs, last_file (file_manager_ d) (file_writer d) (fs_ d) = Some ((SUCCESS, m, w), fs) ∧
    disk_ok all (opened d m w fs) ∧ w_open w = true ∧ max_entry_number_per_file_ m = per_file d.
Proof.
  intros Hok Hrc0. pose proof (file_count_bound _ _ Hok) as [Hnf Hnfb].
  destruct (decide (file_count d = 0)) as [Hz|Hz].
  { destruct (next_file_ok all d Hok (or_intror Hz)) as (m & w & fs & E & ? & ? & ? & _).
    exists m, w, fs. split; [|done]. unfold last_file. rewrite (do_files _ _ Hok), Hz. exact E. }
  destruct Hok as [Hnum Hfit Hm Hbd Hfl Hflu Hbuf Hcur Hfiles Hcont Habs Hcov Hti Hwr Hla Hrc Hby Hmx].
  unfold last_file. rewrite Hfiles, last_file_list by lia. cbn [fst snd].
  destruct (close_writer (file_writer d)) as [Hcl Hcll].
  set (w0 := (writer_close (file_writer d)).2) in *. set (m := per_file d) in *. set (nf := file_count d) in *.
  unfold writer_open. rewrite Hcl. unfold bind, modify, ret. rewrite (Hcont (nf - 1)) by lia.
  do 3 eexists. split; [done|].
  assert (Hend : wrap32 ((nf - 1) * m + m - 1) = nf * m - 1) by (rewrite wrap32_id by (unfold in_int32; nia); lia).
  change (max_entry_number_per_file_ (file_manager_ d)) with m.
  split; [|done].
  constructor; unfold flushed, file_count, per_file; cbn [opened entry_buffer_ fs_ file_writer file_manager_ thread_rc files faults
    log_files_ max_entry_number_per_file_ w_open filename_ end_lsn_ last_lsn_ fst snd]; change (len (log_files_ (file_manager_ d))) with nf;
    change (max_entry_number_per_file_ (file_manager_ d)) with m; fold (flushed d); try done.
  - intros _. split; [lia|]. split; [done|exact Hend].
  - by rewrite Hcll.
  - by left.
Qed.

(** one round of the thread: the handler still represents the log, nothing is lost, and the round
    empties the buffer, or fills a file; a round that starts with a full file makes progress *)
Lemma thread_body_ok all d :
  disk_ok all d →
  ∃ d', thread_body d = Some (tt, d') ∧ disk_ok all d' ∧ running_ d' = running_ d ∧ thread_ d' = thread_ d ∧
    per_file d' = per_file d ∧ flushed d ≤ flushed d' ∧
    (entries_ (entry_buffer_ d') = [] ∨
     thread_rc d' = LOG_FILE_FULL ∧ (thread_rc d = LOG_FILE_FULL → flushed d < flushed d')).
Proof.
  intros Hok. unfold thread_body. rewrite bind_get.
  assert (Hflush : ∀ d0, disk_ok all d0 → w_open (file_writer d0) = true → thread_rc d0 = SUCCESS →
    ∃ d', flush_buffer d0 = Some (tt, d') ∧ disk_ok all d' ∧ running_ d' = running_ d0 ∧ thread_ d' = thread_ d0 ∧
      per_file d' = per_file d0 ∧ flushed d0 ≤ flushed d' ∧
      (entries_ (entry_buffer_ d') = [] ∨
       thread_rc d' = LOG_FILE_FULL ∧ (flushed d0 < end_lsn_ (file_writer d0) → flushed d0 < flushed d'))).
  { intros d0 Hok0 Hop0 Hrc0. unfold flush_buffer, flush.
    destruct (flush_loop_ok all d0 (length (entries_ (entry_buffer_ d0))) (mkFlush (entry_buffer_ d0) (fs_ d0) (file_writer d0) 0)) as (rc & st & E & Hok1 & _ & Hmono & Hres);
      [by destruct d0; cbn in *; subst|done|done|].
    cbn [fl_buffer fl_fs fl_writer] in *. rewrite E. eexists. split; [done|]. split; [exact Hok1|]. do 3 (split; [done|]). split; [exact Hmono|].
    destruct Hres as [[_ He]|[-> Hp]]; [by left|right; split; [done|exact Hp]]. }
  destruct (negb (valid (file_writer d)) || bool_decide (thread_rc d = LOG_FILE_FULL)) eqn:Ec.
  - assert (Hopen : ∃ m w fs, open_file d = Some (SUCCESS, opened d m w fs) ∧ disk_ok all (opened d m w fs) ∧ w_open w = true ∧
      max_entry_number_per_file_ m = per_file d ∧ (thread_rc d = LOG_FILE_FULL → flushed d < end_lsn_ w)).
    { unfold open_file. case_bool_decide as Hf.
      - destruct (do_rc _ _ Hok) as [Hr|(_ & Hnf & Hfl)]; [congruence|].
        destruct (next_file_ok all d Hok (or_introl Hfl)) as (m & w & fs & E & ? & ? & ? & Hend).
        rewrite E. exists m, w, fs. split; [done|]. do 3 (split; [done|]). intros _. rewrite Hend, Hfl. pose proof (do_m _ _ Hok). lia.
      - destruct (do_rc _ _ Hok) as [Hr|(Hr & _)]; [|done].
        destruct (last_file_ok all d Hok Hr) as (m & w & fs & E & ? & ? & ?).
        rewrite E. exists m, w, fs. done. }
    destruct Hopen as (m & w & fs & E & Hok1 & Hwo & Hpm & Hend). rewrite (bind_eq _ _ _ _ _ E).
    change (OB_FAIL SUCCESS) with false. cbv iota.
    destruct (Hflush _ Hok1 Hwo eq_refl) as (d' & E' & Hok' & Hr & Ht & Hp & Hmono & Hres).
    exists d'. split; [done|]. split; [done|]. split; [done|]. split; [done|]. split; [by rewrite Hp|]. split; [exact Hmono|].
    destruct Hres as [He|[Hf Hprog]]; [by left|right; split; [done|]]. intros Hfull. apply Hprog. exact (Hend Hfull).
  - apply orb_false_iff in Ec as [Hv Hf]. apply negb_false_iff in Hv. apply bool_decide_eq_false in Hf.
    destruct (do_rc _ _ Hok) as [Hr|(Hr & _)]; [|done].
    destruct (Hflush _ Hok Hv Hr) as (d' & E' & Hok' & Hr' & Ht & Hp & Hmono & Hres).
    exists d'. do 6 (split; [done|]). destruct Hres as [He|[Hfu Hprog]]; [by left|right]. split; [done|]. intros ?. congruence.
Qed.

(** ** Running the thread *)

Definition measure (d : Disk) : nat :=
  2 * length (entries_ (entry_buffer_ d)) + (if bool_decide (thread_rc d = LOG_FILE_FULL) then 0 else 1).

Lemma queue_length all d : disk_ok all d → Z.of_nat (length (entries_ (entry_buffer_ d))) = len all - flushed d.
Proof. intros Hok. rewrite (do_buffer _ _ Hok), length_drop. pose proof (do_flushed _ _ Hok). unfold len in *. lia. Qed.

Lemma thread_body_measure all d d' :
  disk_ok all d → disk_ok all d' → flushed d ≤ flushed d' → entries_ (entry_buffer_ d) ≠ [] →
  (thread_rc d' = LOG_FILE_FULL ∧ (thread_rc d = LOG_FILE_FULL → flushed d < flushed d')) → (measure d' < measure d)%nat.
Proof.
  intros Hok Hok' Hmono Hne [Hf Hp]. pose proof (queue_length _ _ Hok). pose proof (queue_length _ _ Hok').
  unfold measure. rewrite (bool_decide_eq_true_2 _ Hf). case_bool_decide as Hf0; [specialize (Hp Hf0)|]; lia.
Qed.

Record same_handler (d d' : Disk) : Prop := {
  sh_running : running_ d' = running_ d; sh_thread : thread_ d' = thread_ d; sh_m : per_file d' = per_file d;
  sh_flushed : flushed d ≤ flushed d';
}.

Lemma same_handler_refl d : same_handler d d.
Proof. by constructor. Qed.

Lemma run_thread_ok all (fin : Disk → bool) n : ∀ d,
  disk_ok all d → (∀ d', disk_ok all d' → running_ d' = running_ d → entries_ (entry_buffer_ d') = [] → fin d' = true) →
  (measure d < n)%nat →
  ∃ d', run_thread n fin d = Some (tt, d') ∧ disk_ok all d' ∧ same_handler d d' ∧ fin d' = true.
Proof.
  induction n as [|n IH]; intros d Hok Hdone Hm; [lia|]. cbn [run_thread].
  destruct (fin d) eqn:Ed; [exists d; split; [by destruct n|]; split; [done|]; split; [|done]; by apply same_handler_refl|].
  destruct (thread_body_ok all d Hok) as (d1 & E & Hok1 & Hr1 & Ht1 & Hp1 & Hmono & Hres).
  rewrite (bind_eq _ _ _ _ _ E). destruct Hres as [He|Hfull].
  - assert (Hd1 : fin d1 = true) by (apply Hdone; [done|done|done]).
    exists d1. split; [destruct n; cbn [run_thread]; by rewrite Hd1|]. split; [done|]. split; [|done]. by constructor.
  - destruct (IH d1 Hok1) as (d' & E' & Hok' & [Hr Ht Hp Hf] & Hd').
    + intros d' Hd' Hr'. apply Hdone; congruence.
    + assert (Hne : entries_ (entry_buffer_ d) ≠ []) by (intros He; rewrite (Hdone d Hok eq_refl He) in Ed; done).
      pose proof (thread_body_measure all d d1 Hok Hok1 Hmono Hne Hfull). lia.
    + exists d'. split; [done|]. split; [done|]. split; [|done]. constructor; [congruence..|lia].
Qed.

Lemma measure_rounds d : (measure d < rounds d)%nat.
Proof. unfold measure, rounds. case_bool_decide; lia. Qed.

(** stopping: the thread leaves its loop only when everything is on disk *)
Lemma thread_loop_ok all n : ∀ d,
  disk_ok all d → running_ d = false → (measure d < n)%nat →
  ∃ d', thread_loop n d = Some (tt, d') ∧ disk_ok all d' ∧ same_handler d d' ∧ entries_ (entry_buffer_ d') = [].
Proof.
  induction n as [|n IH]; intros d Hok Hr Hm; [lia|]. cbn [thread_loop]. rewrite Hr. cbn [orb].
  destruct (0 <? entry_number (entry_buffer_ d)) eqn:E; zbool.
  2:{ exists d. split; [done|]. split; [done|]. split; [apply same_handler_refl|]. unfold entry_number, len in E. by destruct (entries_ (entry_buffer_ d)). }
  assert (Hne : entries_ (entry_buffer_ d) ≠ []) by (intros He; unfold entry_number in E; rewrite He in E; done).
  destruct (thread_body_ok all d Hok) as (d1 & E1 & Hok1 & Hr1 & Ht1 & Hp1 & Hmono & Hres).
  rewrite (bind_eq _ _ _ _ _ E1). destruct Hres as [He|Hfull].
  - exists d1. split; [destruct n; cbn [thread_loop]; rewrite Hr1, Hr; unfold entry_number; by rewrite He|].
    split; [done|]. split; [by constructor|done].
  - destruct (IH d1 Hok1) as (d' & E' & Hok' & [Hr' Ht' Hp' Hf'] & Hd'); [congruence| |].
    + pose proof (thread_body_measure all d d1 Hok Hok1 Hmono Hne Hfull). lia.
    + exists d'. split; [done|]. split; [done|]. split; [|done]. constructor; [congruence..|lia].
Qed.

(** ** Appending and waiting *)

Lemma no_queue_room all d : disk_ok all d → entries_ (entry_buffer_ d) = [] → has_room d = true.
Proof.
  intros Hok He. pose proof (do_bytes _ _ Hok) as Hb. pose proof (do_max _ _ Hok). rewrite He in Hb. unfold len in Hb. cbn in Hb.
  unfold has_room. apply Z.ltb_lt. lia.
Qed.

Lemma disk_append_ok all d m data :
  disk_ok all d → running_ d = true → 0 < len data ≤ max_payload_size → len all + 1 + 2 * per_file d < 2 ^ 31 →
  ∃ d', disk_append m data d = Some ((SUCCESS, len all + 1), d') ∧
    disk_ok (all ++ [mkLogRec (len all + 1) m data]) d' ∧ running_ d' = true ∧ same_handler d d'.
Proof.
  intros Hok Hr Hd Hb. unfold disk_append. rewrite bind_get, bind_assertM by done.
  destruct (run_thread_ok all has_room (rounds d) d Hok) as (d1 & E & Hok1 & [Hr1 Ht1 Hp1 Hf1] & _).
  { intros d' Hd' _. by apply (no_queue_room all). } { apply measure_rounds. }
  rewrite (bind_eq _ _ _ _ _ E), bind_get. unfold buffer_append, entry_init.
  rewrite (proj2 (Z.ltb_ge _ _)) by lia. cbn [lr_module lr_data].
  rewrite (bind_liftO _ _ _ _ eq_refl). cbn [fst snd].
  pose proof Hok1 as [Hnum Hfit Hm Hbd Hfl Hflu Hbuf Hcur Hfiles Hcont Habs Hcov Hti Hwr Hla Hrc Hby Hmx].
  rewrite Hcur. assert (Hw : wrap_s 64 (len all + 1) = len all + 1).
  { unfold wrap_s. rewrite Z.mod_small; unfold len in *; lia. }
  rewrite Hw. eexists. split; [done|]. split; [|split; [cbn; congruence|by constructor]].
  set (e := mkLogRec (len all + 1) m data).
  assert (Hlen : len (all ++ [e]) = len all + 1) by (unfold len; rewrite length_app; cbn; lia).
  constructor; unfold flushed, file_count, per_file; cbn [with_buffer entry_buffer_ fs_ file_writer file_manager_ thread_rc
    entries_ flushed_lsn_ current_lsn_ bytes_ max_bytes_]; rewrite ?Hlen; try done.
  - intros i e' Hi. apply lookup_app_Some in Hi as [Hi|[Hge Hi]]; [by apply Hnum|].
    apply list_lookup_singleton_Some in Hi as [Hz <-]. cbn. unfold len. lia.
  - apply Forall_app. split; [done|]. by apply Forall_singleton.
  - unfold per_file in *. lia.
  - unfold flushed in *. lia.
  - rewrite Hbuf. unfold flushed in *. rewrite drop_app_le; [done|]. unfold len in *. lia.
  - intros i Hi. rewrite take_app_le by (unfold flushed, len in *; lia). by apply Hcont.
  - rewrite len_app. unfold len at 2. cbn. unfold LogHeader_SIZE in *. lia.
Qed.

Lemma disk_wait_ok all d lsn :
  disk_ok all d → lsn ≤ len all →
  ∃ rc d', disk_wait_lsn lsn d = Some (rc, d') ∧ disk_ok all d' ∧ same_handler d d' ∧
    (running_ d = true → rc = SUCCESS ∧ lsn ≤ flushed d').
Proof.
  intros Hok Hl. unfold disk_wait_lsn. rewrite bind_get.
  destruct (run_thread_ok all (λ d, negb (running_ d) || (lsn <=? current_flushed_lsn d)) (rounds d) d Hok)
    as (d1 & E & Hok1 & Hsh & Hd1).
  { intros d' Hok' _ He. pose proof (queue_length _ _ Hok') as Hq. rewrite He in Hq. cbn in Hq.
    apply orb_true_iff. right. apply Z.leb_le. unfold current_flushed_lsn, flushed in *. lia. }
  { apply measure_rounds. }
  rewrite (bind_eq _ _ _ _ _ E), bind_get. do 2 eexists. split; [done|]. split; [done|]. split; [done|].
  intros Hr. rewrite (sh_running _ _ Hsh), Hr in Hd1. cbn in Hd1. rewrite Hd1. split; [done|]. by apply Z.leb_le in Hd1.
Qed.
