(* ===== verification/DiskLogTheorems.v ===== *)
(** * DiskLogTheorems: appending, waiting, stopping and reading the log back after a crash *)
From stdpp Require Import strings sorting.
From S2P Require Import Prelude Types Encoding LogHandler LogFile LogFileSpec DiskLog DiskLogSpec.

(** ** The directory after a restart *)

Definition key_lt (f g : LSN * path) : Prop := f.1 < g.1.

Lemma emplace_fresh k v l : k ∉ map fst l → StronglySorted key_lt l →
  emplace k v l ≡ₚ (k, v) :: l ∧ StronglySorted key_lt (emplace k v l).
Proof.
  induction l as [|[k' v'] l IH]; intros Hk Hs; cbn [emplace]; [split; [done|by repeat constructor]|].
  cbn in Hk. apply not_elem_of_cons in Hk as [Hne Hk]. inversion Hs as [|? ? Hs' Hall]; subst.
  destruct (k <? k') eqn:E; zbool.
  - split; [done|]. constructor; [done|]. constructor; [done|]. eapply Forall_impl; [exact Hall|]. unfold key_lt. cbn. lia.
  - rewrite (proj2 (Z.eqb_neq _ _)) by done. destruct (IH Hk Hs') as [IHp IHs]. split.
    + rewrite IHp. constructor.
    + constructor; [done|]. rewrite IHp. constructor; [unfold key_lt; cbn; lia|done].
Qed.

Lemma manager_scan fl : ∀ names l0,
  NoDup (map fst (fl ++ l0)) → StronglySorted key_lt l0 → Forall (λ f, get_lsn_from_filename f.2 = (SUCCESS, f.1)) fl →
  ∀ junk, names ≡ₚ map snd fl ++ junk → Forall (λ name, OB_FAIL (get_lsn_from_filename name).1 = true) junk →
  foldl (λ l name, manager_add name l) l0 names ≡ₚ fl ++ l0 ∧ StronglySorted key_lt (foldl (λ l name, manager_add name l) l0 names).
Proof.
  intros names. revert fl. induction names as [|name names IH]; intros fl l0 Hnd Hs Hfl junk Hp Hj; cbn [foldl].
  { apply Permutation_nil_l in Hp. symmetry in Hp. apply app_eq_nil in Hp as [Hf ->]. by destruct fl. }
  assert (Hin : name ∈ map snd fl ++ junk) by (rewrite <-Hp; left). apply elem_of_app in Hin as [Hin|Hin].
  - apply list_elem_of_fmap in Hin as ([lsn name'] & -> & Hin). cbn [snd] in *.
    apply elem_of_Permutation in Hin as [fl' Hfl']. rewrite Hfl' in Hnd, Hfl, Hp |- *. cbn in Hnd.
    apply Forall_cons in Hfl as [Hlsn Hfl]. apply NoDup_cons in Hnd as [Hni Hnd]. cbn in Hlsn.
    unfold manager_add at 2 4. rewrite Hlsn. change (OB_FAIL SUCCESS) with false. cbv iota.
    assert (Hk : lsn ∉ map fst l0) by (rewrite map_app in Hni; set_solver).
    destruct (emplace_fresh lsn name' l0 Hk Hs) as [Hep Hes].
    destruct (IH fl' (emplace lsn name' l0)) with (junk := junk) as [IHp IHs]; [|done|done| |done|].
    + rewrite Hep. rewrite <-Permutation_middle. cbn. by constructor.
    + cbn in Hp. by apply (inj (cons name')) in Hp.
    + split; [|done]. rewrite IHp, Hep, <-Permutation_middle. done.
  - apply elem_of_Permutation in Hin as [junk' Hj']. rewrite Hj' in Hj, Hp. apply Forall_cons in Hj as [Hbad Hj].
    unfold manager_add at 2 4. destruct (get_lsn_from_filename name) as [rc lsn]. cbn in Hbad. rewrite Hbad.
    apply (IH fl l0 Hnd Hs Hfl junk'); [|done]. rewrite <-Permutation_middle in Hp. by apply (inj (cons name)) in Hp.
Qed.

Lemma file_list_sorted m n : 1 ≤ m → StronglySorted key_lt (file_list m (Z.of_nat n)).
Proof.
  intros Hm. induction n as [|n IH]; [constructor|].
  rewrite Nat2Z.inj_succ, <-Z.add_1_r, file_list_snoc by lia. apply StronglySorted_app_2; [|done|by repeat constructor].
  intros f g Hf ->%list_elem_of_singleton. pose proof (file_list_below m (Z.of_nat n) (Z.of_nat n * m) Hm ltac:(lia)) as Hb.
  rewrite Forall_forall in Hb. by apply Hb.
Qed.

(** scanning the directory, in whatever order it lists its files, finds the files of the log *)
Lemma manager_init_files m nf names junk :
  1 ≤ m → 0 ≤ nf → nf * m < 2 ^ 63 → names ≡ₚ map snd (file_list m nf) ++ junk →
  Forall (λ name, OB_FAIL (get_lsn_from_filename name).1 = true) junk →
  manager_init m names = mkManager m (file_list m nf).
Proof.
  intros Hm Hnf Hb Hp Hj. unfold manager_init. f_equal.
  pose proof (file_list_sorted m (Z.to_nat nf) Hm) as Hsorted. rewrite Z2Nat.id in Hsorted by lia.
  assert (Hnd : NoDup (map fst (file_list m nf))).
  { unfold file_list. rewrite map_map. cbn. apply NoDup_fmap_2_strong; [|apply NoDup_seqZ]. intros i j _ _. nia. }
  destruct (manager_scan (file_list m nf) names []) with (junk := junk) as [Hperm Hs]; [by rewrite app_nil_r|constructor| |done|done|].
  { unfold file_list. apply Forall_map, Forall_forall. intros i Hi%elem_of_seqZ. cbn. apply get_lsn_log_file_name. nia. }
  rewrite app_nil_r in Hperm. apply (StronglySorted_unique_strong key_lt); [|done|done|done].
  unfold key_lt. intros. lia.
Qed.

(** ** Reading all the files *)

Definition from (start : LSN) (es : list LogRec) : list LogRec := filter (λ e, start ≤ lr_lsn e) es.

(** entries numbered in order *)
Definition numbered (es : list LogRec) : Prop := StronglySorted (λ e e', lr_lsn e < lr_lsn e') es.

Lemma entries_from_numbered start es : numbered es → entries_from start es = from start es.
Proof.
  induction 1 as [|e es Hs IH Hall]; [done|]. unfold from. cbn [entries_from]. rewrite filter_cons.
  destruct (start <=? lr_lsn e) eqn:E; zbool; [|rewrite decide_False by lia; exact IH].
  rewrite decide_True by lia. f_equal. symmetry. apply list_filter_all. eapply Forall_impl; [exact Hall|]. cbn. lia.
Qed.

Lemma numbered_filter (P : LogRec → Prop) `{∀ e, Decision (P e)} es : numbered es → numbered (filter P es).
Proof.
  induction 1 as [|e es Hs IH Hall]; [constructor|]. rewrite filter_cons. destruct (decide (P e)); [|done].
  constructor; [done|]. apply Forall_forall. intros e' [_ Hin]%list_elem_of_filter. rewrite Forall_forall in Hall. by apply Hall.
Qed.

Lemma deliver_app {St} (callback : LogRec → M St RC) es es' rc s :
  deliver callback (es ++ es') rc s =
  (let* rc1 := deliver callback es SUCCESS in if OB_FAIL rc1 then ret rc1 else deliver callback es' rc) s.
Proof.
  revert s. induction es as [|e es IH]; intros s; [done|]. cbn [app deliver]. unfold bind in *.
  destruct (callback e s) as [[rc1 s1]|]; [|done]. destruct (OB_FAIL rc1) eqn:E; [cbn; by rewrite E|]. apply IH.
Qed.

Lemma iterate_files_app {St} (callback : LogRec → M St RC) ns ns' fs start s :
  iterate_files callback (ns ++ ns') fs start s =
  (let* rc := iterate_files callback ns fs start in if OB_FAIL rc then ret rc else iterate_files callback ns' fs start) s.
Proof.
  revert s. induction ns as [|n ns IH]; intros s; [done|]. cbn [app iterate_files]. unfold bind in *.
  destruct (reader_open n fs) as [rc rd]. destruct (OB_FAIL rc) eqn:E; [unfold ret; by rewrite E|].
  destruct (iterate callback start rd s) as [[rc1 s1]|]; [|done].
  destruct (OB_FAIL rc1) eqn:E1; [unfold ret; by rewrite E1|]. apply IH.
Qed.

(** splitting numbered entries at a bound *)
Lemma filter_below_split (es : list LogRec) a b : numbered es → a ≤ b →
  filter (λ e, lr_lsn e < b) es = filter (λ e, lr_lsn e < a) es ++ filter (λ e, a ≤ lr_lsn e < b) es.
Proof.
  intros Hs Hab. induction Hs as [|e es Hs IH Hall]; [done|]. rewrite !filter_cons.
  destruct (decide (lr_lsn e < a)).
  - rewrite decide_True by lia. rewrite decide_False by lia. cbn. by f_equal.
  - rewrite IH. rewrite (list_filter_none (λ e, lr_lsn e < a) es); [|eapply Forall_impl; [exact Hall|]; cbn; lia].
    cbn [app]. destruct (decide (lr_lsn e < b)); [rewrite decide_True by lia|rewrite decide_False by lia]; done.
Qed.

Lemma chunk_range m i es : 1 ≤ m → chunk m i es = filter (λ e, i * m ≤ lr_lsn e < (i + 1) * m) es.
Proof.
  intros Hm. unfold chunk. apply list_filter_iff. intros e. split.
  - intros <-. pose proof (Z.div_mod (lr_lsn e) m ltac:(lia)). pose proof (Z.mod_pos_bound (lr_lsn e) m ltac:(lia)). nia.
  - intros Hr. symmetry. apply (Z.div_unique _ _ _ (lr_lsn e - m * i)); [left|]; lia.
Qed.

Lemma deliver_done {St} (callback : LogRec → M St RC) es rc s :
  (let* rc1 := deliver callback es rc in if OB_FAIL rc1 then ret rc1 else ret SUCCESS) s = deliver callback es rc s.
Proof.
  unfold bind. destruct (deliver callback es rc s) as [[rc1 s1]|]; [|done].
  by destruct rc1.
Qed.

Section files.
Context {St : Type} (callback : LogRec → M St RC) (fs : FS) (m : Z) (es : list LogRec) (start : LSN).
Hypothesis Hm : 1 ≤ m.
Hypothesis Hes : numbered es.
Hypothesis Hfit : Forall entry_fits es.

Abbreviation listed l := (map snd (filter (λ f : LSN * path, start ≤ f.1 + m - 1) l)).

Lemma read_file i tail rc s :
  files fs !! log_file_name (i * m) = Some (log_bytes (chunk m i es) ++ tail) → torn start tail rc →
  rc = SUCCESS ∨ start < (i + 1) * m →
  iterate_files callback (listed [(i * m, log_file_name (i * m))]) fs start s = deliver callback (from start (chunk m i es)) rc s.
Proof.
  intros Hf Ht Hrc. assert (Hnum : numbered (chunk m i es)) by (by apply numbered_filter).
  assert (Hall : Forall entry_fits (chunk m i es)).
  { apply Forall_forall. intros e [_ Hin]%list_elem_of_filter.
    rewrite Forall_forall in Hfit. by apply Hfit. }
  rewrite filter_cons, filter_nil. destruct (decide _) as [Hs|Hs]; cbn [fst] in Hs.
  - cbn [map snd iterate_files]. unfold reader_open. rewrite Hf. change (OB_FAIL SUCCESS) with false. cbv iota.
    rewrite <-deliver_done. unfold bind. rewrite (iterate_spec callback _ _ _ _ 0 _ Hall Ht).
    by rewrite entries_from_numbered.
  - destruct Hrc as [->|?]; [|nia]. cbn. rewrite chunk_range by done. unfold from. rewrite list_filter_none; [done|].
    apply Forall_forall. intros e [? _]%list_elem_of_filter. lia.
Qed.

Lemma from_app l l' : from start (l ++ l') = from start l ++ from start l'.
Proof. unfold from. by rewrite filter_app. Qed.

Lemma read_snoc nf tail rc s :
  0 ≤ nf →
  (∀ s, iterate_files callback (listed (file_list m nf)) fs start s =
    deliver callback (from start (filter (λ e, lr_lsn e < nf * m) es)) SUCCESS s) →
  files fs !! log_file_name (nf * m) = Some (log_bytes (chunk m nf es) ++ tail) → torn start tail rc →
  rc = SUCCESS ∨ start < (nf + 1) * m →
  iterate_files callback (listed (file_list m (nf + 1))) fs start s =
    deliver callback (from start (filter (λ e, lr_lsn e < (nf + 1) * m) es)) rc s.
Proof.
  intros Hnf IH Hf Ht Hrc. rewrite file_list_snoc, filter_app, map_app by done.
  rewrite (filter_below_split es (nf * m)), <-chunk_range by (done || nia).
  rewrite from_app, iterate_files_app, deliver_app. unfold bind. rewrite IH.
  destruct (deliver callback _ SUCCESS s) as [[rc1 s1]|]; [|done]. destruct (OB_FAIL rc1); [done|]. by apply (read_file nf tail rc).
Qed.

Lemma read_files n s :
  (∀ i, 0 ≤ i < Z.of_nat n → files fs !! log_file_name (i * m) = Some (log_bytes (chunk m i es))) →
  Forall (λ e, 0 < lr_lsn e) es →
  iterate_files callback (listed (file_list m (Z.of_nat n))) fs start s =
    deliver callback (from start (filter (λ e, lr_lsn e < Z.of_nat n * m) es)) SUCCESS s.
Proof.
  intros Hf Hpos. revert s. induction n as [|n IH]; intros s.
  - rewrite (list_filter_none (λ e, lr_lsn e < Z.of_nat 0 * m)); [done|]. eapply Forall_impl; [exact Hpos|]. cbn. lia.
  - rewrite Nat2Z.inj_succ, <-Z.add_1_r. apply (read_snoc (Z.of_nat n) [] SUCCESS); [lia| | |by constructor|by left].
    + apply IH. intros i Hi. apply Hf. lia.
    + rewrite app_nil_r. apply Hf. lia.
Qed.
End files.

(** ** Crashes *)

Definition on_disk (all : list LogRec) (d : Disk) : list LogRec := take (Z.to_nat (flushed d)) all.

(** what a crash leaves of the files, and how the next recovery ends: the process dies between
    two writes, or while the next entry is written to the open file, of which the first [k]
    bytes are there *)
Inductive crashed (all : list LogRec) (d : Disk) : RC → FS → Prop :=
| crash_clean fs : files fs = files (fs_ d) → crashed all d SUCCESS fs
| crash_torn e k fs :
    all !! Z.to_nat (flushed d) = Some e → 0 < file_count d → lr_lsn e < file_count d * per_file d →
    0 ≤ k < total_size e →
    files fs = alter (λ c, c ++ take (Z.to_nat k) (enc_entry e)) (log_file_name ((file_count d - 1) * per_file d)) (files (fs_ d)) →
    crashed all d (if k <? LogHeader_SIZE then SUCCESS else IOERR_READ) fs.

(** what the directory lists after the crash: the log files in any order, and files that are not of the log *)
Definition listing (d : Disk) (names : list path) : Prop :=
  ∃ junk, names ≡ₚ map snd (log_files_ (file_manager_ d)) ++ junk ∧
    Forall (λ name, OB_FAIL (get_lsn_from_filename name).1 = true) junk.

Lemma numbered_from es : ∀ c, (∀ i e, es !! i = Some e → lr_lsn e = Z.of_nat i + c) → numbered es.
Proof.
  induction es as [|e es IH]; intros c Hn; constructor.
  - apply (IH (c + 1)). intros i e' Hi. specialize (Hn (S i) e' Hi). lia.
  - apply Forall_forall. intros e' [i Hi]%list_elem_of_lookup. specialize (Hn 0%nat e eq_refl) as H0. specialize (Hn (S i) e' Hi). lia.
Qed.

Section recover.
Context (all : list LogRec) (d : Disk) (Hok : disk_ok all d).

Lemma on_disk_lookup i e : on_disk all d !! i = Some e → all !! i = Some e ∧ lr_lsn e = Z.of_nat i + 1 ∧ lr_lsn e ≤ flushed d.
Proof using Hok.
  intros [Hi Hlt]%lookup_take_Some. pose proof (do_num _ _ Hok _ _ Hi) as Hn. pose proof (do_flushed _ _ Hok). split; [done|lia].
Qed.

Lemma on_disk_numbered : numbered (on_disk all d).
Proof using Hok. apply (numbered_from _ 1). intros i e Hi. by apply on_disk_lookup in Hi as (_ & ? & _). Qed.

Lemma entry_in_all_fits i e : all !! i = Some e → entry_fits e ∧ 0 < len (lr_data e).
Proof using Hok.
  intros Hi. pose proof (do_num _ _ Hok _ _ Hi) as Hn. pose proof (lookup_lt_Some _ _ _ Hi) as Hlt.
  pose proof (do_bound _ _ Hok) as Hb. pose proof (do_m _ _ Hok). pose proof (do_fit _ _ Hok) as Hf. rewrite Forall_lookup in Hf.
  specialize (Hf _ _ Hi). unfold entry_fits, len in *. lia.
Qed.

Lemma on_disk_fits : Forall entry_fits (on_disk all d) ∧ Forall (λ e, 0 < lr_lsn e) (on_disk all d).
Proof using Hok.
  split; apply Forall_lookup; intros i e Hi; apply on_disk_lookup in Hi as (Hi & Hn & _); [by apply (entry_in_all_fits i)|lia].
Qed.

Lemma on_disk_below : filter (λ e, lr_lsn e < file_count d * per_file d) (on_disk all d) = on_disk all d.
Proof using Hok.
  apply list_filter_all, Forall_lookup. intros i e Hi. pose proof (on_disk_lookup _ _ Hi) as (_ & ? & ?).
  destruct (do_cover _ _ Hok); lia.
Qed.

Lemma recovered_manager names : listing d names → manager_init (per_file d) names = mkManager (per_file d) (file_list (per_file d) (file_count d)).
Proof using Hok.
  intros (junk & Hp & Hj). pose proof (file_count_bound _ _ Hok). pose proof (do_m _ _ Hok).
  rewrite (do_files _ _ Hok) in Hp. by apply (manager_init_files _ _ _ junk); try lia.
Qed.

Lemma iterate_recovered {St} (callback : LogRec → M St RC) names rc fs start s :
  per_file d = 1000 → listing d names → crashed all d rc fs → start ≤ flushed d + 1 →
  disk_iterate callback (disk_init names fs) start s = deliver callback (from start (on_disk all d)) rc s.
Proof using Hok.
  intros Hm Hl Hc Hstart. pose proof (file_count_bound _ _ Hok) as [Hnf Hnfb].
  pose proof on_disk_numbered as Hnum. pose proof on_disk_fits as [Hfit Hpos].
  unfold disk_iterate, list_files. cbn [disk_init file_manager_ fs_]. rewrite <-Hm, recovered_manager by done.
  cbn [log_files_ max_entry_number_per_file_]. rewrite <-on_disk_below at 1.
  pose proof (do_m _ _ Hok) as Hm1. pose proof (do_content _ _ Hok) as Hcont.
  destruct Hc as [fs Hfs|e k fs He Hnf0 Hend Hk Hfs].
  - rewrite <-(Z2Nat.id (file_count d)) by lia. apply read_files; [done|done|done| |done].
    intros i Hi. rewrite Hfs. apply Hcont. lia.
  - pose proof (entry_in_all_fits _ _ He) as [Hef _]. pose proof (do_num _ _ Hok _ _ He) as Hlsn.
    pose proof (do_flushed _ _ Hok). rewrite Z2Nat.id in Hlsn by lia.
    replace (file_count d) with (file_count d - 1 + 1) by lia.
    apply (read_snoc callback fs (per_file d) (on_disk all d) start Hm1 Hnum Hfit _ (take (Z.to_nat k) (enc_entry e))); [lia| | | |].
    + intros s'. rewrite <-(Z2Nat.id (file_count d - 1)) by lia. apply read_files; [done|done|done| |done].
      intros i Hi. rewrite Hfs, lookup_alter_ne; [apply Hcont; lia|]. intros Heq. apply (file_name_inj (per_file d)) in Heq; nia.
    + rewrite Hfs, lookup_alter_eq, Hcont by lia. done.
    + destruct (k <? LogHeader_SIZE) eqn:E; zbool.
      * constructor. unfold len. rewrite length_take. lia.
      * apply (torn_payload start e _ k); [done|lia|lia|done].
    + right. lia.
Qed.
End recover.

(** ** The contract of the log

    What a client is promised: the sequence of the entries appended so far, of which a prefix
    is durable. Appending extends the sequence, waiting for an LSN returns when the entry is
    durable, and the flusher may make more entries durable at any time. *)

Record AbsLog := mkAbsLog { abs_entries : list LogRec; abs_durable : Z }.

Inductive log_op : Type :=
| OpAppend (m : LogModule) (data : list Z)
| OpWait (lsn : LSN)
| OpFlusher.    (** the flusher gets to run *)

Inductive log_result : Type :=
| RAppend (r : RC * LSN)
| RWait (rc : RC)
| RFlusher.

Definition run_op (op : log_op) : M Disk log_result :=
  match op with
  | OpAppend m data => let* r := disk_append m data in ret (RAppend r)
  | OpWait lsn => let* rc := disk_wait_lsn lsn in ret (RWait rc)
  | OpFlusher => thread_body ;;; ret RFlusher
  end.

Fixpoint run_ops (ops : list log_op) : M Disk (list log_result) :=
  match ops with
  | [] => ret []
  | op :: ops => let* r := run_op op in let* rs := run_ops ops in ret (r :: rs)
  end.

Inductive abs_step (a : AbsLog) : log_op → log_result → AbsLog → Prop :=
| abs_append m data k :
    abs_durable a ≤ k ≤ len (abs_entries a) + 1 →
    abs_step a (OpAppend m data) (RAppend (SUCCESS, len (abs_entries a) + 1))
      (mkAbsLog (abs_entries a ++ [mkLogRec (len (abs_entries a) + 1) m data]) k)
| abs_wait lsn k :
    abs_durable a ≤ k ≤ len (abs_entries a) → lsn ≤ k →
    abs_step a (OpWait lsn) (RWait SUCCESS) (mkAbsLog (abs_entries a) k)
| abs_flusher k :
    abs_durable a ≤ k ≤ len (abs_entries a) → abs_step a OpFlusher RFlusher (mkAbsLog (abs_entries a) k).

Inductive abs_run : AbsLog → list log_op → list log_result → AbsLog → Prop :=
| abs_run_nil a : abs_run a [] [] a
| abs_run_cons a op r a1 ops rs a2 : abs_step a op r a1 → abs_run a1 ops rs a2 → abs_run a (op :: ops) (r :: rs) a2.

(** calls that are legal when [n] entries have been appended: payloads the log takes, waits for LSNs it gave out *)
Fixpoint ops_ok (n : Z) (ops : list log_op) : Prop :=
  match ops with
  | [] => True
  | OpAppend m data :: ops => 0 < len data ≤ max_payload_size ∧ ops_ok (n + 1) ops
  | OpWait lsn :: ops => lsn ≤ n ∧ ops_ok n ops
  | OpFlusher :: ops => ops_ok n ops
  end.

Definition implements (d : Disk) (a : AbsLog) : Prop :=
  disk_ok (abs_entries a) d ∧ flushed d = abs_durable a ∧ running_ d = true.

Lemma run_op_refines op ops d a :
  implements d a → ops_ok (len (abs_entries a)) (op :: ops) → len (abs_entries a) + 1 + 2 * per_file d < 2 ^ 31 →
  ∃ r d' a', run_op op d = Some (r, d') ∧ abs_step a op r a' ∧ implements d' a' ∧ ops_ok (len (abs_entries a')) ops ∧
    per_file d' = per_file d ∧ len (abs_entries a') ≤ len (abs_entries a) + 1.
Proof.
  intros (Hok & Hfl & Hr) Hops Hb. destruct op as [m data|lsn|]; cbn in Hops; unfold run_op.
  - destruct Hops as [Hd Hops].
    destruct (disk_append_ok _ _ m data Hok Hr Hd Hb) as (d' & E & Hok' & Hr' & [_ _ Hp Hf]). rewrite (bind_eq _ _ _ _ _ E).
    assert (Hlen : len (abs_entries a ++ [mkLogRec (len (abs_entries a) + 1) m data]) = len (abs_entries a) + 1) by (rewrite len_app; done).
    pose proof (do_flushed _ _ Hok') as Hfl'. rewrite Hlen in Hfl'.
    do 2 eexists. exists (mkAbsLog (abs_entries a ++ [mkLogRec (len (abs_entries a) + 1) m data]) (flushed d')).
    split; [done|]. split; [constructor; lia|]. split; [done|]. cbn [abs_entries]. rewrite Hlen. do 2 (split; [done|]). lia.
  - destruct Hops as [Hl Hops].
    destruct (disk_wait_ok _ _ lsn Hok Hl) as (rc & d' & E & Hok' & [Hr' _ Hp Hf] & Hres). rewrite (bind_eq _ _ _ _ _ E).
    destruct (Hres Hr) as [-> Hle]. pose proof (do_flushed _ _ Hok').
    do 2 eexists. exists (mkAbsLog (abs_entries a) (flushed d')). split; [done|]. split; [constructor; lia|].
    split; [split; [done|split; [done|congruence]]|]. cbn [abs_entries]. split; [done|]. split; [done|lia].
  - destruct (thread_body_ok _ _ Hok) as (d' & E & Hok' & Hr' & _ & Hp & Hf & _). rewrite (bind_eq _ _ _ _ _ E).
    pose proof (do_flushed _ _ Hok').
    do 2 eexists. exists (mkAbsLog (abs_entries a) (flushed d')). split; [done|]. split; [constructor; lia|].
    split; [split; [done|split; [done|congruence]]|]. cbn [abs_entries]. split; [done|]. split; [done|lia].
Qed.

(** a log that has just been created and started *)
Definition fresh_log : Disk := with_thread true true (disk_init [] (mkFS ∅ [])).
Lemma fresh_log_ok : disk_ok [] fresh_log.
Proof.
  constructor; unfold flushed, file_count, per_file; cbn -[log_file_name]; try done; try lia.
  all: try by left. intros i Hi. unfold len in Hi. cbn in Hi. lia.
Qed.

(** ** Properties *)

(** [C6] The disk log implements the contract of the log. Whatever sequence of appends, waits
    and runs of the background thread: every call returns; an append answers SUCCESS with
    the next LSN and adds its entry at the end of the log; a wait for an LSN that was given
    out returns SUCCESS, and then the entry is durable; no entry is lost, reordered or made
    durable twice, and durable entries stay durable. *)
Theorem log_implements_contract (ops : list log_op) (d : Disk) (a : AbsLog) :
  implements d a → ops_ok (len (abs_entries a)) ops → len (abs_entries a) + len ops + 2 * per_file d < 2 ^ 31 →
  ∃ rs d' a', run_ops ops d = Some (rs, d') ∧ abs_run a ops rs a' ∧ implements d' a'.
Proof.
  revert d a. induction ops as [|op ops IH]; intros d a Hi Hops Hb.
  - exists [], d, a. split; [done|]. split; [constructor|done].
  - assert (Hl : len (op :: ops) = len ops + 1) by (unfold len; cbn [length]; lia).
    assert (0 ≤ len ops) by (unfold len; lia).
    destruct (run_op_refines op ops d a Hi Hops ltac:(lia)) as (r & d1 & a1 & E & Hs & Hi1 & Hops1 & Hp & Hlen).
    destruct (IH d1 a1 Hi1 Hops1 ltac:(lia)) as (rs & d2 & a2 & E2 & Hrun & Hi2).
    exists (r :: rs), d2, a2. cbn [run_ops]. rewrite (bind_eq _ _ _ _ _ E), (bind_eq _ _ _ _ _ E2).
    split; [done|]. split; [by econstructor|done].
Qed.

Lemma log_implements_contract_witness :
  ∃ rs d' a', run_ops [OpAppend TRANSACTION [1]; OpFlusher; OpAppend RECORD_MANAGER [2; 3]; OpWait 2] fresh_log = Some (rs, d') ∧
    abs_run (mkAbsLog [] 0) [OpAppend TRANSACTION [1]; OpFlusher; OpAppend RECORD_MANAGER [2; 3]; OpWait 2] rs a' ∧ implements d' a'.
Proof.
  apply (log_implements_contract _ fresh_log (mkAbsLog [] 0)).
  - split; [exact fresh_log_ok|done].
  - cbn. unfold max_payload_size, max_size, LogHeader_SIZE, len; cbn. lia.
  - by vm_compute.
Defined.

(** [C13] Crash recovery reads the log back. A new handler over what a crash left of the files,
    found by the directory scan in any order among files of other names, hands the replayer
    every durable entry whose LSN reaches the start, each once, in order, across the files,
    until the replayer fails. When the crash cut a write it ends with SUCCESS if at most the
    header of the entry was begun, and with IOERR_READ otherwise. *)
Theorem recovery_reads_the_log {St} (replayer : LogRec → M St RC) (all : list LogRec) (d : Disk) (names : list path)
    (rc : RC) (fs : FS) (start : LSN) (s : St) :
  disk_ok all d → per_file d = 1000 → listing d names → crashed all d rc fs → start ≤ flushed d + 1 →
  disk_iterate replayer (disk_init names fs) start s =
    deliver replayer (filter (λ e, start ≤ lr_lsn e) (take (Z.to_nat (flushed d)) all)) rc s.
Proof. intros. by apply iterate_recovered. Qed.

Definition one_entry : Disk :=
  match run_ops [OpAppend TRANSACTION [1; 2]; OpWait 1; OpAppend TRANSACTION [3]] fresh_log with Some (_, d) => d | None => fresh_log end.
Lemma one_entry_ok : disk_ok [mkLogRec 1 TRANSACTION [1; 2]; mkLogRec 2 TRANSACTION [3]] one_entry.
Proof.
  destruct (disk_append_ok [] fresh_log TRANSACTION [1; 2]) as (d1 & E1 & H1 & R1 & [_ _ P1 _]); [exact fresh_log_ok|by vm_compute..|].
  destruct (disk_wait_ok _ _ 1 H1) as (rc & d2 & E2 & H2 & [R2 _ P2 _] & _); [done|].
  destruct (disk_append_ok _ d2 TRANSACTION [3] H2) as (d3 & E3 & H3 & _); [congruence|by vm_compute|by rewrite P2, P1|].
  vm_compute in E1. injection E1 as <-. vm_compute in E2. injection E2 as <- <-. vm_compute in E3. injection E3 as <-. exact H3.
Qed.

Definition torn_files : FS :=
  mkFS (alter (λ c, c ++ take 16 (enc_entry (mkLogRec 2 TRANSACTION [3]))) (log_file_name 0) (files (fs_ one_entry))) [].

Lemma recovery_reads_the_log_witness :
  disk_iterate collect (disk_init [file_suffix_; log_file_name 0] torn_files) 1 [] =
    deliver collect (filter (λ e, 1 ≤ lr_lsn e) (take (Z.to_nat (flushed one_entry)) [mkLogRec 1 TRANSACTION [1; 2]; mkLogRec 2 TRANSACTION [3]])) IOERR_READ [].
Proof.
  apply (recovery_reads_the_log collect [mkLogRec 1 TRANSACTION [1; 2]; mkLogRec 2 TRANSACTION [3]] one_entry).
  - exact one_entry_ok.
  - by vm_compute.
  - exists [file_suffix_]. split; [|by repeat constructor].
    replace (map snd (log_files_ (file_manager_ one_entry))) with [log_file_name 0] by by vm_compute. apply Permutation_swap.
  - change IOERR_READ with (if 16 <? LogHeader_SIZE then SUCCESS else IOERR_READ).
    refine (crash_torn _ one_entry (mkLogRec 2 TRANSACTION [3]) 16 torn_files _ _ _ _ _); [by vm_compute..|].
    replace ((file_count one_entry - 1) * per_file one_entry) with 0 by by vm_compute. reflexivity.
  - by vm_compute.
Defined.

(** [C24] Stopping the log loses nothing. [stop] and then [await_termination] return SUCCESS
    after finitely many rounds of the thread; by then every entry that was appended is in the
    files, and iterating over them delivers the whole log. *)
Theorem stop_drains_the_log {St} (replayer : LogRec → M St RC) (all : list LogRec) (d : Disk) (names : list path) (start : LSN) (s : St) :
  disk_ok all d → thread_ d = true → per_file d = 1000 → start ≤ len all + 1 →
  ∃ d', (stop ;;; await_termination (rounds d)) d = Some (SUCCESS, d') ∧ disk_ok all d' ∧ flushed d' = len all ∧ thread_ d' = false ∧
    (listing d' names →
     disk_iterate replayer (disk_init names (fs_ d')) start s = deliver replayer (filter (λ e, start ≤ lr_lsn e) all) SUCCESS s).
Proof.
  intros Hok Ht Hm Hs. unfold stop, await_termination. rewrite bind_assoc, bind_get, Ht. cbn [negb].
  rewrite bind_assoc. unfold put at 1, bind at 1. rewrite bind_ret, bind_get. cbn [with_running thread_ running_]. rewrite Ht. cbn [negb].
  assert (Hok0 : disk_ok all (with_running false d)) by (by destruct Hok; constructor).
  destruct (thread_loop_ok all (rounds d) (with_running false d) Hok0 eq_refl) as (d1 & E & Hok1 & [Hr1 Ht1 Hp1 Hf1] & He).
  { apply (measure_rounds d). }
  rewrite (bind_eq _ _ _ _ _ E), bind_modify. unfold ret.
  pose proof (queue_length _ _ Hok1) as Hq. rewrite He in Hq. cbn in Hq.
  set (d' := with_thread (running_ d1) false d1).
  assert (Hok' : disk_ok all d').
  { pose proof (do_flushed _ _ Hok1) as [Hf0 _]. destruct Hok1. constructor; try done. by left. }
  assert (Hfl : flushed d' = len all) by (change (flushed d') with (flushed d1); lia).
  exists d'. split; [done|]. split; [done|]. split; [done|]. split; [done|]. intros Hl.
  rewrite (iterate_recovered all d' Hok' replayer names SUCCESS (fs_ d') start s).
  - unfold on_disk, from. rewrite take_ge; [done|]. rewrite Hfl. unfold len. lia.
  - unfold d'. change (per_file (with_thread _ _ d1)) with (per_file d1). by rewrite Hp1.
  - done.
  - by constructor.
  - lia.
Qed.

Lemma stop_drains_the_log_witness :
  ∃ d', (stop ;;; await_termination (rounds one_entry)) one_entry = Some (SUCCESS, d') ∧
    disk_ok [mkLogRec 1 TRANSACTION [1; 2]; mkLogRec 2 TRANSACTION [3]] d' ∧ flushed d' = 2 ∧ thread_ d' = false ∧
    (listing d' [log_file_name 0] →
     disk_iterate collect (disk_init [log_file_name 0] (fs_ d')) 2 [] =
       deliver collect (filter (λ e, 2 ≤ lr_lsn e) [mkLogRec 1 TRANSACTION [1; 2]; mkLogRec 2 TRANSACTION [3]]) SUCCESS []).
Proof. apply stop_drains_the_log; [exact one_entry_ok|by vm_compute..]. Defined.

(** replaying restarts the numbering *)
Definition max_lsn_of (mx : LSN) (es : list LogRec) : LSN := foldl (λ mx e, if mx <? lr_lsn e then lr_lsn e else mx) mx es.

Lemma deliver_replay {St} (replayer : LogRec → M St RC) es : ∀ mx s s',
  deliver replayer es SUCCESS s = Some (SUCCESS, s') →
  deliver (replay_callback replayer) es SUCCESS (mx, s) = Some (SUCCESS, (max_lsn_of mx es, s')).
Proof.
  induction es as [|e es IH]; intros mx s s' E; cbn [deliver] in *; [by injection E as <-|].
  unfold bind in *. cbn [replay_callback] in *. unfold replay_callback. destruct (replayer e s) as [[rc s1]|]; [|done].
  destruct (OB_FAIL rc) eqn:Ef; [|by apply IH].
  injection E as -> <-. done.
Qed.

Lemma max_lsn_le mx es b : Forall (λ e, lr_lsn e ≤ b) es → mx ≤ b → max_lsn_of mx es ≤ b.
Proof.
  intros Hes. revert mx. induction Hes as [|e es He Hes IH]; intros mx Hmx; [done|]. cbn. apply IH. destruct (_ <? _); lia.
Qed.

Lemma replayed_max all d start : disk_ok all d → start ≤ flushed d ∨ flushed d = 0 →
  max_lsn_of 0 (from start (on_disk all d)) = flushed d.
Proof.
  intros Hok Hs. pose proof (do_flushed _ _ Hok) as Hfl. destruct (decide (flushed d = 0)) as [Hz|Hz].
  { unfold on_disk. rewrite Hz. done. }
  destruct Hs as [Hs|]; [|done].
  assert (Hlt : (Z.to_nat (flushed d) - 1 < length all)%nat) by (unfold len in *; lia).
  apply lookup_lt_is_Some in Hlt as [e He]. pose proof (do_num _ _ Hok _ _ He) as Hlsn.
  assert (Hsnoc : on_disk all d = take (Z.to_nat (flushed d) - 1) all ++ [e]).
  { unfold on_disk. replace (Z.to_nat (flushed d)) with (S (Z.to_nat (flushed d) - 1)) at 1 by lia. by apply take_S_r. }
  assert (Hle : Forall (λ e, lr_lsn e ≤ flushed d) (from start (on_disk all d))).
  { apply Forall_forall. intros e' [_ [i Hi]%list_elem_of_lookup]%list_elem_of_filter. by apply (on_disk_lookup all d Hok) in Hi as (_ & _ & ?). }
  rewrite Hsnoc in *. unfold from in *. rewrite filter_app in *. rewrite filter_cons, filter_nil, decide_True in * by lia.
  apply Forall_app in Hle as [Hle _]. unfold max_lsn_of. rewrite foldl_app.
  pose proof (max_lsn_le 0 _ _ Hle ltac:(lia)) as Hmx. unfold max_lsn_of in Hmx. cbn [foldl].
  destruct (_ <? _) eqn:E; zbool; lia.
Qed.

(** [C26] Recovery, then normal work: replaying a log whose replayer accepts every entry returns
    SUCCESS and leaves a handler that again implements the contract, with the durable entries
    as its log, so that the next append gets the LSN after the last durable one and goes to
    the right place of the right file. *)
Theorem replay_restarts_the_log {St} (replayer : LogRec → M St RC) (all : list LogRec) (d : Disk) (names : list path) (fs : FS) (start_lsn : LSN) (s s' : St) :
  disk_ok all d → per_file d = 1000 → listing d names → files fs = files (fs_ d) → faults fs = [] →
  start_lsn ≤ flushed d →
  deliver replayer (filter (λ e, start_lsn ≤ lr_lsn e) (take (Z.to_nat (flushed d)) all)) SUCCESS s = Some (SUCCESS, s') →
  ∃ d1 d2, disk_replay replayer start_lsn (disk_init names fs) s = Some ((SUCCESS, d1), s') ∧ start d1 = Some (SUCCESS, d2) ∧
    implements d2 (mkAbsLog (take (Z.to_nat (flushed d)) all) (flushed d)).
Proof.
  intros Hok Hm Hl Hfs Hfa Hs Hd. pose proof (file_count_bound _ _ Hok) as [Hnf Hnfb]. pose proof (do_flushed _ _ Hok) as Hfl.
  assert (Hlen : len (take (Z.to_nat (flushed d)) all) = flushed d) by (unfold len in *; rewrite length_take; lia).
  change (deliver replayer (from start_lsn (on_disk all d)) SUCCESS s = Some (SUCCESS, s')) in Hd. unfold disk_replay.
  rewrite (iterate_recovered all d Hok (replay_callback replayer) names SUCCESS fs start_lsn (0, s) Hm Hl (crash_clean _ _ _ Hfs)) by lia.
  rewrite (deliver_replay replayer _ 0 s s' Hd). change (OB_FAIL SUCCESS) with false. cbv iota.
  rewrite (replayed_max all d start_lsn Hok (or_introl Hs)). cbn [buffer_init]. do 2 eexists. split; [done|]. split; [done|].
  unfold implements. cbn [abs_entries abs_durable]. split; [|done].
  pose proof (recovered_manager all d Hok names Hl) as Hman. rewrite Hm in Hman.
  destruct Hok as [Hnum Hfit Hm1 Hbd _ _ Hbuf Hcur Hfiles Hcont Habs Hcov Hti Hwr Hla Hrc Hby Hmx].
  set (d2 := with_thread true true _).
  assert (Hman2 : file_manager_ d2 = mkManager 1000 (file_list 1000 (file_count d))) by exact Hman.
  assert (Hf2 : flushed d2 = flushed d) by done.
  assert (Hp2 : per_file d2 = 1000) by (unfold per_file; by rewrite Hman2).
  assert (Hc2 : file_count d2 = file_count d) by (unfold file_count; rewrite Hman2; by apply len_file_list).
  assert (Hfs2 : files (fs_ d2) = files (fs_ d)) by exact Hfs.
  assert (Hb2 : entry_buffer_ d2 = mkBuffer [] 0 (flushed d) (flushed d) (4 * 1024 * 1024)) by done.
  assert (Hw2 : file_writer d2 = new_writer ∧ thread_rc d2 = SUCCESS ∧ faults (fs_ d2) = []) by done.
  destruct Hw2 as (Hw2 & Hrc2 & Hfa2). clearbody d2.
  constructor; rewrite ?Hp2, ?Hc2, ?Hf2, ?Hfs2, ?Hlen, ?Hb2, ?Hman2, ?Hw2, ?Hrc2, ?Hfa2, <-?Hm; try assumption; try reflexivity.
  - intros i e Hi. apply lookup_take_Some in Hi as [Hi _]. by apply Hnum.
  - by apply Forall_take.
  - unfold len in *. lia.
  - lia.
  - cbn [entries_]. symmetry. apply drop_ge. rewrite length_take. lia.
  - intros i Hi. rewrite take_take, Nat.min_id. by apply Hcont.
  - discriminate.
  - cbn. lia.
  - by left.
Qed.

Lemma replay_restarts_the_log_witness :
  ∃ d1 d2, disk_replay collect 1 (disk_init [log_file_name 0] (fs_ one_entry)) [] = Some ((SUCCESS, d1), [mkLogRec 1 TRANSACTION [1; 2]]) ∧
    start d1 = Some (SUCCESS, d2) ∧
    implements d2 (mkAbsLog (take (Z.to_nat (flushed one_entry)) [mkLogRec 1 TRANSACTION [1; 2]; mkLogRec 2 TRANSACTION [3]]) (flushed one_entry)).
Proof.
  apply (replay_restarts_the_log collect [mkLogRec 1 TRANSACTION [1; 2]; mkLogRec 2 TRANSACTION [3]] one_entry [log_file_name 0] (fs_ one_entry) 1 [] [mkLogRec 1 TRANSACTION [1; 2]]); [exact one_entry_ok|by vm_compute| |reflexivity|by vm_compute..].
  exists []. split; [|constructor].
  replace (map snd (log_files_ (file_manager_ one_entry))) with [log_file_name 0] by by vm_compute. done.
Defined.

(** ** Where the log falls short *)

(** the size of the entries in the queue, headers included *)
Definition queue_bytes (es : list LogRec) : Z := foldr (λ e acc, total_size e + acc) 0 es.
Lemma queue_bytes_app es1 es2 : queue_bytes (es1 ++ es2) = queue_bytes es1 + queue_bytes es2.
Proof. unfold queue_bytes. induction es1 as [|e es IH]; cbn; lia. Qed.

Lemma flush_loop_bytes n : ∀ st rc st',
  flush_loop n st = Some (rc, st') → entries_ (fl_buffer st') = [] →
  bytes_ (fl_buffer st') = bytes_ (fl_buffer st) - queue_bytes (entries_ (fl_buffer st)).
Proof.
  induction n as [|n IH]; intros st rc st' E Hnil; cbn [flush_loop] in E; destruct (entries_ (fl_buffer st)) as [|e rest] eqn:Ee; try done.
  - injection E as _ <-. cbn. lia.
  - injection E as _ <-. cbn. lia.
  - minv E. destruct a as [[rc' w] fs]. destruct (OB_FAIL rc') eqn:Ef.
    + unfold bind at 1, put, ret in E. injection E as _ <-. done.
    + unfold bind at 1, put in E. apply IH in E; [|done]. rewrite E. cbn. lia.
Qed.
Lemma thread_body_bytes d d' : thread_body d = Some (tt, d') → entries_ (entry_buffer_ d') = [] →
  bytes_ (entry_buffer_ d') = bytes_ (entry_buffer_ d) - queue_bytes (entries_ (entry_buffer_ d)).
Proof.
  assert (Hflush : ∀ d, flush_buffer d = Some (tt, d') → entries_ (entry_buffer_ d') = [] →
    bytes_ (entry_buffer_ d') = bytes_ (entry_buffer_ d) - queue_bytes (entries_ (entry_buffer_ d))).
  { clear. intros d. unfold flush_buffer, flush. cbn [fl_buffer fl_fs fl_writer]. destruct (flush_loop _ _) as [[rc st]|] eqn:E; [|done].
    intros [= <-] Hnil. by apply (flush_loop_bytes _ _ _ _ E). }
  unfold thread_body. rewrite bind_get. destruct (_ || _); [|apply Hflush]. intros (rc & d1 & E1 & E)%bind_Some Hnil.
  assert (Hbuf : entry_buffer_ d1 = entry_buffer_ d).
  { unfold open_file in E1. repeat case_match; simplify_eq; done. }
  rewrite <-Hbuf. destruct (OB_FAIL rc); [|by apply Hflush]. injection E as <-. rewrite Hnil. cbn. lia.
Qed.

(** the appends of some clients, one after the other *)
Definition appends (ds : list (LogModule * list Z)) : M Disk unit :=
  forM ds (λ x, let* r := disk_append x.1 x.2 in assertM (bool_decide (r.1 = SUCCESS))).
Definition payload_bytes (ds : list (LogModule * list Z)) : Z := foldr (λ x acc, len x.2 + acc) 0 ds.

Lemma appends_ok ds : ∀ d,
  running_ d = true → Forall (λ x, len x.2 ≤ max_payload_size) ds →
  LogHeader_SIZE * len ds ≤ max_bytes_ (entry_buffer_ d) - bytes_ (entry_buffer_ d) →
  ∃ d' es, appends ds d = Some (tt, d') ∧ fs_ d' = fs_ d ∧ entries_ (entry_buffer_ d') = entries_ (entry_buffer_ d) ++ es ∧
    map (λ e, (lr_module e, lr_data e)) es = ds ∧ queue_bytes es = LogHeader_SIZE * len ds + payload_bytes ds ∧
    bytes_ (entry_buffer_ d') = bytes_ (entry_buffer_ d) + LogHeader_SIZE * len ds.
Proof.
  induction ds as [|[m data] ds IH]; intros d Hrun Hfit Hroom.
  { exists d, []. rewrite app_nil_r. unfold len. cbn. repeat (split; [done|]). lia. }
  apply Forall_cons in Hfit as [Hf Hfit]. cbn [snd] in Hf. assert (Hl : len ((m, data) :: ds) = 1 + len ds) by (unfold len; cbn [length]; lia). rewrite Hl in *.
  assert (Hh : has_room d = true) by (unfold has_room, LogHeader_SIZE in *; apply Z.ltb_lt; unfold len in *; lia).
  unfold appends. cbn [forM fst snd]. rewrite bind_assoc. unfold disk_append at 1. rewrite !bind_assoc, bind_get, !bind_assoc, bind_assertM by done.
  assert (E1 : run_thread (rounds d) has_room d = Some (tt, d)) by (by destruct (rounds d); cbn [run_thread]; rewrite Hh).
  rewrite !bind_assoc, (bind_eq _ _ _ _ _ E1), !bind_assoc, bind_get, !bind_assoc.
  unfold buffer_append, entry_init. rewrite (proj2 (Z.ltb_ge _ _)) by lia. cbn [lr_module lr_data]. rewrite (bind_liftO _ _ _ _ eq_refl).
  rewrite !bind_assoc. unfold put at 1, bind at 1. cbn [fst snd]. rewrite bind_ret, bind_assertM by done.
  set (lsn := wrap_s 64 _). set (d1 := with_buffer _ d).
  destruct (IH d1) as (d' & es & E & Hfs & Hes & Hmap & Hq & Hb); [done|done|cbn; unfold LogHeader_SIZE in *; lia|].
  exists d', (mkLogRec lsn m data :: es). split; [exact E|]. split; [by rewrite Hfs|]. split; [rewrite Hes; cbn; by rewrite <-app_assoc|].
  split; [cbn; by rewrite Hmap|]. split; [unfold queue_bytes in *; cbn [foldr]; rewrite Hq; unfold total_size, payload_bytes; cbn; lia|].
  rewrite Hb. cbn. lia.
Qed.

(** [C37] The accounting of the buffer's memory. An append adds only the size of a header to
    [bytes_], because the size is taken from the entry after its payload was moved away; a
    flush subtracts the size of the whole entry. So the appends of [ds] do not wait for the
    thread (no file changes) as long as their headers alone fit into [max_bytes_], although the
    queue then holds the payloads too, which may be many times [max_bytes_]; and when a
    round of the thread has written the whole queue, [bytes_] is lower than before the appends,
    by all the payloads of [ds] and by what was queued before, so that even more appends pass. *)
Theorem buffer_accounting_drifts (ds : list (LogModule * list Z)) (d : Disk) :
  running_ d = true → Forall (λ x, len x.2 ≤ max_payload_size) ds →
  LogHeader_SIZE * len ds ≤ max_bytes_ (entry_buffer_ d) - bytes_ (entry_buffer_ d) →
  ∃ d1, appends ds d = Some (tt, d1) ∧ fs_ d1 = fs_ d ∧
    queue_bytes (entries_ (entry_buffer_ d1)) = queue_bytes (entries_ (entry_buffer_ d)) + LogHeader_SIZE * len ds + payload_bytes ds ∧
    bytes_ (entry_buffer_ d1) = bytes_ (entry_buffer_ d) + LogHeader_SIZE * len ds ∧
    ∀ d2, thread_body d1 = Some (tt, d2) → entries_ (entry_buffer_ d2) = [] →
      bytes_ (entry_buffer_ d2) = bytes_ (entry_buffer_ d) - queue_bytes (entries_ (entry_buffer_ d)) - payload_bytes ds.
Proof.
  intros Hrun Hfit Hroom. destruct (appends_ok ds d Hrun Hfit Hroom) as (d1 & es & E & Hfs & Hes & _ & Hq & Hb). exists d1.
  assert (Hqb : queue_bytes (entries_ (entry_buffer_ d1)) = queue_bytes (entries_ (entry_buffer_ d)) + LogHeader_SIZE * len ds + payload_bytes ds) by (rewrite Hes, queue_bytes_app; lia).
  do 4 (split; [done|]). intros d2 E2 Hnil. rewrite (thread_body_bytes d1 d2 E2 Hnil). lia.
Qed.

Definition two_payloads : list (LogModule * list Z) := [(TRANSACTION, [1; 2; 3]); (RECORD_MANAGER, [4; 5])].
Lemma buffer_accounting_drifts_witness :
  ∃ d1 d2, appends two_payloads fresh_log = Some (tt, d1) ∧ queue_bytes (entries_ (entry_buffer_ d1)) = 37 ∧ bytes_ (entry_buffer_ d1) = 32 ∧
    thread_body d1 = Some (tt, d2) ∧ bytes_ (entry_buffer_ d2) = -5.
Proof.
  destruct (buffer_accounting_drifts two_payloads fresh_log) as (d1 & E & _ & Hq & Hb & Hflush).
  - done.
  - repeat constructor; by vm_compute.
  - by vm_compute.
  - vm_compute in E. injection E as <-. destruct (thread_body _) as [[[] d2]|] eqn:E2 in Hflush; [|by vm_compute in E2].
    eexists _, d2. split; [reflexivity|]. split; [exact Hq|]. split; [exact Hb|]. split; [exact E2|].
    rewrite (Hflush d2 eq_refl); [done|]. vm_compute in E2. by injection E2 as <-.
Defined.

(** [C38] LSNs beyond 32 bits. The writer keeps the last LSN of its file in an [int]: when the end
    of a file is in [2^31, 2^32) the [int] is negative, and the writer opened on the file refuses
    every entry with LOG_FILE_FULL, whatever its LSN, so nothing is written to that file. (From
    2^32 on the [int] is not negative again and small LSNs are accepted.) *)
Theorem lsn_beyond_int_is_never_written (name : path) (end_lsn : LSN) (w w' : Writer) (fs fs' : FS) (e : LogRec) :
  w_open w = false → 2 ^ 31 ≤ end_lsn < 2 ^ 32 → writer_open name end_lsn w fs = Some ((SUCCESS, w'), fs') →
  0 ≤ lr_lsn e → write e w' fs' = Some ((LOG_FILE_FULL, w'), fs').
Proof.
  intros Ho Hl E He. unfold writer_open in E. rewrite Ho in E. unfold bind, modify, ret in E. injection E as <- <-.
  unfold write. cbn [end_lsn_]. assert (Hw : wrap32 end_lsn < 0).
  { unfold wrap32, wrap_s. change (2 ^ (32 - 1)) with (2 ^ 31). replace (end_lsn + 2 ^ 31) with (end_lsn - 2 ^ 31 + 1 * 2 ^ 32) by lia.
    rewrite Z.mod_add by lia. rewrite Z.mod_small; lia. }
  by rewrite (proj2 (Z.ltb_lt _ _)) by lia.
Qed.

Lemma lsn_beyond_int_is_never_written_witness :
  ∃ w' fs', writer_open (log_file_name (2 ^ 31)) (2 ^ 31 + 999) new_writer (mkFS ∅ []) = Some ((SUCCESS, w'), fs') ∧
    write (mkLogRec (2 ^ 31) TRANSACTION [1]) w' fs' = Some ((LOG_FILE_FULL, w'), fs').
Proof.
  do 2 eexists. split; [reflexivity|].
  apply (lsn_beyond_int_is_never_written (log_file_name (2 ^ 31)) (2 ^ 31 + 999) new_writer _ (mkFS ∅ [])); [done|lia|reflexivity|by vm_compute].
Defined.

(** a log of one entry, the second of which was cut in its header *)
Definition cut_header_files : FS :=
  mkFS {[ log_file_name 0 := enc_entry (mkLogRec 1 TRANSACTION [1; 2]) ++ take 8 (enc_entry (mkLogRec 2 TRANSACTION [3])) ]} [].
(** the next run of the program: recover, append an entry and wait for it *)
Definition recover_append_wait : option (list LogRec * list log_result * Disk) :=
  match disk_replay collect 1 (disk_init [log_file_name 0] cut_header_files) [] with
  | Some ((_, d), seen) =>
      match (start ;;; run_ops [OpAppend TRANSACTION [4; 5; 6]; OpWait 2]) d with
      | Some (rs, d) => Some (seen, rs, d)
      | None => None
      end
  | None => None
  end.

(** Entries that follow a torn tail are lost, on one log. A crash leaves the first half of a header at
    the end of the file; recovery reads the entry before it and succeeds, but the tail stays.
    The next entry is appended behind the tail: its append and the wait for it return SUCCESS,
    and the recovery after it hands the replayer, in its place, an entry of another module and
    payload that nobody appended, and succeeds. *)
Example torn_tail_loses_later_entries :
  ∃ d, recover_append_wait = Some ([mkLogRec 1 TRANSACTION [1; 2]], [RAppend (SUCCESS, 2); RWait SUCCESS], d) ∧
    disk_iterate collect (disk_init [log_file_name 0] (fs_ d)) 1 [] =
      Some (SUCCESS, [mkLogRec 1 TRANSACTION [1; 2]; mkLogRec 2 BUFFER_POOL [3; 0]]).
Proof.
  destruct recover_append_wait as [[[seen rs] d]|] eqn:E; [|by vm_compute in E].
  vm_compute in E. injection E as <- <- <-. eexists. split; [reflexivity|by vm_compute].
Qed.
