(* ===== verification/LruCache.v ===== *)
(** * LruCache: the cache with least-recently-used order (deps/common/lang/lru_cache.h)

    The cache is a hash set of heap nodes that are also on a doubly linked list, the most
    recently used one first. The model keeps the nodes in a heap, with their [prev_] and
    [next_] pointers, and every operation rewires them as the code does. [lru_repr] says which
    list of entries a heap of nodes represents. *)
From S2P Require Import Prelude.

Abbreviation addr := positive.

Section lru.
Context {K V : Type} `{Countable K}.

Record ListNode := mkNode { key_ : K; value_ : V; prev_ : option addr; next_ : option addr }.
(** [heap]: the nodes allocated with [new] and not deleted *)
Record Lru := mkLru {
  heap : gmap addr ListNode;
  searcher_ : gmap K addr;
  lru_front_ : option addr;
  lru_tail_ : option addr;
}.
Definition new_lru : Lru := mkLru ∅ ∅ None None.

Definition node_prev (p : option addr) (n : ListNode) : ListNode := mkNode (key_ n) (value_ n) p (next_ n).
Definition node_next (q : option addr) (n : ListNode) : ListNode := mkNode (key_ n) (value_ n) (prev_ n) q.
Definition node_value (v : V) (n : ListNode) : ListNode := mkNode (key_ n) v (prev_ n) (next_ n).

(** access through a pointer: undefined when it is null or dangling *)
Definition deref (a : option addr) : M Lru ListNode := λ s,
  match a with
  | None => None
  | Some a => match heap s !! a with Some n => Some (n, s) | None => None end
  end.
Definition update_node (a : option addr) (f : ListNode → ListNode) : M Lru unit := λ s,
  match a with
  | None => None
  | Some a =>
      match heap s !! a with
      | Some _ => Some (tt, mkLru (alter f a (heap s)) (searcher_ s) (lru_front_ s) (lru_tail_ s))
      | None => None
      end
  end.
Definition set_front (a : option addr) : M Lru unit := modify (λ s, mkLru (heap s) (searcher_ s) a (lru_tail_ s)).
Definition set_tail (a : option addr) : M Lru unit := modify (λ s, mkLru (heap s) (searcher_ s) (lru_front_ s) a).
Definition alloc_node (n : ListNode) : M Lru addr := λ s,
  let a := fresh (dom (heap s)) in
  Some (a, mkLru (<[a := n]> (heap s)) (searcher_ s) (lru_front_ s) (lru_tail_ s)).
Definition delete_node (a : addr) : M Lru unit := λ s,
  match heap s !! a with
  | Some _ => Some (tt, mkLru (delete a (heap s)) (searcher_ s) (lru_front_ s) (lru_tail_ s))
  | None => None
  end.
(** the hash set compares nodes by their keys *)
Definition searcher_insert (a : addr) : M Lru unit :=
  let* n := deref (Some a) in
  modify (λ s, mkLru (heap s) (<[key_ n := a]> (searcher_ s)) (lru_front_ s) (lru_tail_ s)).
Definition searcher_erase (a : addr) : M Lru unit :=
  let* n := deref (Some a) in
  modify (λ s, mkLru (heap s) (delete (key_ n) (searcher_ s)) (lru_front_ s) (lru_tail_ s)).

(** link [node] in front; shared by [lru_touch] and [lru_push] *)
Definition link_front (node : addr) : M Lru unit :=
  update_node (Some node) (node_prev None) ;;;
  let* s := get in
  update_node (Some node) (node_next (lru_front_ s)) ;;;
  (match lru_front_ s with Some f => update_node (Some f) (node_prev (Some node)) | None => ret tt end) ;;;
  set_front (Some node).

Definition lru_touch (node : addr) : M Lru unit :=
  let* n := deref (Some node) in
  match prev_ n with
  | None => ret tt
  | Some p =>
      update_node (Some p) (node_next (next_ n)) ;;;
      (match next_ n with
       | Some q => update_node (Some q) (node_prev (prev_ n))
       | None => set_tail (prev_ n)
       end) ;;;
      link_front node
  end.

Definition lru_push (node : addr) : M Lru unit :=
  let* s := get in
  (match lru_tail_ s with None => set_tail (Some node) | Some _ => ret tt end) ;;;
  link_front node ;;;
  searcher_insert node.

Definition lru_remove (node : addr) : M Lru unit :=
  let* n := deref (Some node) in
  (match prev_ n with Some p => update_node (Some p) (node_next (next_ n)) | None => ret tt end) ;;;
  (match next_ n with Some q => update_node (Some q) (node_prev (prev_ n)) | None => ret tt end) ;;;
  let* s := get in
  (if bool_decide (lru_front_ s = Some node) then set_front (next_ n) else ret tt) ;;;
  (if bool_decide (lru_tail_ s = Some node) then set_tail (prev_ n) else ret tt) ;;;
  searcher_erase node ;;;
  delete_node node.

Definition count (s : Lru) : Z := Z.of_nat (size (searcher_ s)).

(** [get]: the value, or [None] for [false] *)
Definition lru_get (key : K) : M Lru (option V) :=
  let* s := get in
  match searcher_ s !! key with
  | None => ret None
  | Some node =>
      lru_touch node ;;;
      let* n := deref (Some node) in
      ret (Some (value_ n))
  end.
Definition lru_put (key : K) (value : V) : M Lru unit :=
  let* s := get in
  match searcher_ s !! key with
  | Some ln => update_node (Some ln) (node_value value) ;;; lru_touch ln
  | None =>
      let* ln := alloc_node (mkNode key value None None) in
      lru_push ln
  end.
Definition lru_delete (key : K) : M Lru unit :=
  let* s := get in
  match searcher_ s !! key with
  | Some node => lru_remove node
  | None => ret tt
  end.
(** [pop] is a stub of the source: it answers a null pointer and leaves the cache alone *)
Definition pop : M Lru (option V) := ret None.
(** [destroy]: every node of the set is deleted *)
Definition destroy : M Lru unit :=
  let* s := get in
  forM (map_to_list (searcher_ s)) (λ e, delete_node e.2) ;;;
  modify (λ s, mkLru (heap s) ∅ None None).

(** [foreach] and [foreach_reverse]; the function answers whether to go on. The list has at
    most as many nodes as the heap *)
Section foreach.
Context {St : Type} (func : K → V → M St bool) (step : ListNode → option addr).
Fixpoint walk (fuel : nat) (h : gmap addr ListNode) (node : option addr) : M St unit :=
  match node with
  | None => ret tt
  | Some a =>
      match fuel, h !! a with
      | S fuel, Some n =>
          let* r := func (key_ n) (value_ n) in
          if r then walk fuel h (step n) else ret tt
      | _, _ => abort
      end
  end.
End foreach.
Definition foreach {St} (func : K → V → M St bool) (s : Lru) : M St unit := walk func next_ (size (heap s)) (heap s) (lru_front_ s).
Definition foreach_reverse {St} (func : K → V → M St bool) (s : Lru) : M St unit :=
  walk func prev_ (size (heap s)) (heap s) (lru_tail_ s).
End lru.

Arguments ListNode : clear implicits.
Arguments Lru K V {_ _}.
