(* ===== verification/LruSpec.v ===== *)
(** * LruSpec: the linked list of the cache refines a list of entries

    The abstract cache is the list of its entries, most recently used first. [lru_repr es s]:
    the heap of [s] holds exactly the nodes of the list [es], linked in that order. *)
From S2P Require Import Prelude LruCache.

(** ** The abstract cache *)
Section spec.
Context {K V : Type} `{EqDecision K}.
Implicit Types (l : list (K * V)).

Fixpoint find (k : K) l : option V :=
  match l with
  | [] => None
  | e :: l => if decide (e.1 = k) then Some e.2 else find k l
  end.
Definition without (k : K) l : list (K * V) := filter (λ e, e.1 ≠ k) l.

Definition spec_get (k : K) l : option V * list (K * V) :=
  match find k l with Some v => (Some v, (k, v) :: without k l) | None => (None, l) end.
Definition spec_put (k : K) (v : V) l : list (K * V) := (k, v) :: without k l.

(** run a function over the entries until it answers false *)
Fixpoint spec_foreach {St} (func : K → V → M St bool) l : M St unit :=
  match l with
  | [] => ret tt
  | e :: l => let* r := func e.1 e.2 in if r then spec_foreach func l else ret tt
  end.
End spec.

Section repr.
Context {K V : Type} `{Countable K}.
Abbreviation entry := (addr * (K * V))%type.
Implicit Types (es : list entry) (h : gmap addr (ListNode K V)) (p n : option addr) (k : K) (v : V) (l : list (K * V)).

Definition first_of es n : option addr := match es with [] => n | e :: _ => Some e.1 end.
Fixpoint last_of p es : option addr := match es with [] => p | e :: es => last_of (Some e.1) es end.

(** the nodes [es] are linked, between [p] and [n] *)
Fixpoint seg h p es n : Prop :=
  match es with
  | [] => True
  | e :: es => h !! e.1 = Some (mkNode e.2.1 e.2.2 p (first_of es n)) ∧ seg h (Some e.1) es n
  end.

Record lru_repr es (s : Lru K V) : Prop := {
  lr_seg : seg (heap s) None es None;
  lr_front : lru_front_ s = first_of es None;
  lr_tail : lru_tail_ s = last_of None es;
  lr_addrs : NoDup (map fst es);
  lr_dom : dom (heap s) = list_to_set (map fst es);
  lr_keys : NoDup (map (λ e, e.2.1) es);
  lr_search k a : searcher_ s !! k = Some a ↔ ∃ v, (a, (k, v)) ∈ es;
}.

(** ** Segments *)

Lemma seg_frame h h' es : ∀ p n, (∀ a, a ∈ map fst es → h' !! a = h !! a) → seg h p es n → seg h' p es n.
Proof.
  induction es as [|e es IH]; intros p n Hf Hs; [done|]. destruct Hs as [He Hs]. split.
  - rewrite Hf; [done|]. left.
  - apply IH; [|done]. intros a Ha. apply Hf. by right.
Qed.

Lemma first_of_app es es' n : first_of (es ++ es') n = first_of es (first_of es' n).
Proof. by destruct es. Qed.
Lemma last_of_app p es es' : last_of p (es ++ es') = last_of (last_of p es) es'.
Proof. revert p. induction es; intros p; cbn; auto. Qed.

Lemma seg_app h p es es' n : seg h p (es ++ es') n ↔ seg h p es (first_of es' n) ∧ seg h (last_of p es) es' n.
Proof.
  revert p. induction es as [|e es IH]; intros p; cbn [app seg last_of]; [tauto|].
  rewrite IH, first_of_app. tauto.
Qed.

Lemma seg_lookup h p es1 e es2 n : seg h p (es1 ++ e :: es2) n →
  h !! e.1 = Some (mkNode e.2.1 e.2.2 (last_of p es1) (first_of es2 n)).
Proof. intros [_ [He _]]%seg_app. exact He. Qed.

(** the successor of the last node, and the predecessor of the first one *)
Lemma seg_set_next h p es a kv n n' : a ∉ map fst es →
  seg h p (es ++ [(a, kv)]) n → seg (alter (node_next n') a h) p (es ++ [(a, kv)]) n'.
Proof.
  intros Ha [Hs [Hl _]]%seg_app. apply seg_app. split.
  - eapply seg_frame; [|exact Hs]. intros b Hb. apply lookup_alter_ne. congruence.
  - cbn in *. by rewrite lookup_alter_eq, Hl.
Qed.
Lemma seg_set_prev h p p' es a kv n : a ∉ map fst es →
  seg h p ((a, kv) :: es) n → seg (alter (node_prev p') a h) p' ((a, kv) :: es) n.
Proof.
  intros Ha [Hl Hs]. split.
  - cbn in *. by rewrite lookup_alter_eq, Hl.
  - eapply seg_frame; [|exact Hs]. intros b Hb. apply lookup_alter_ne. congruence.
Qed.

(** ** Taking a node out of the list *)

Definition relink (p q : option addr) h : gmap addr (ListNode K V) :=
  let h := match p with Some p => alter (node_next q) p h | None => h end in
  match q with Some q => alter (node_prev p) q h | None => h end.

Lemma dom_relink p q h : dom (relink p q h) = dom h.
Proof. unfold relink. destruct p, q; rewrite ?dom_alter_L; done. Qed.

Lemma last_of_cases es : (es = [] ∧ ∀ p, last_of p es = p) ∨ ∃ es' e, es = es' ++ [e] ∧ ∀ p, last_of p es = Some e.1.
Proof.
  destruct es as [|e es _] using rev_ind; [by left|right]. exists es, e. split; [done|]. intros p. by rewrite last_of_app.
Qed.

Lemma seg_unlink h es1 a kv es2 :
  NoDup (map fst (es1 ++ (a, kv) :: es2)) → seg h None (es1 ++ (a, kv) :: es2) None →
  seg (relink (last_of None es1) (first_of es2 None) h) None (es1 ++ es2) None ∧
  relink (last_of None es1) (first_of es2 None) h !! a = h !! a.
Proof.
  intros Hnd Hs. rewrite map_app in Hnd. apply NoDup_app in Hnd as (Hnd1 & Hdisj & Hnd2). cbn in Hnd2.
  apply NoDup_cons in Hnd2 as [Ha2 Hnd2].
  assert (Ha1 : a ∉ map fst es1) by (intros Hin; apply (Hdisj _ Hin); left).
  apply seg_app in Hs as [Hs1 [_ Hs2]]. cbn [fst first_of] in Hs1, Hs2.
  (* the first half ends where the second one begins *)
  set (h1 := match last_of None es1 with Some p => alter (node_next (first_of es2 None)) p h | None => h end).
  assert (H1 : seg h1 None es1 (first_of es2 None) ∧ seg h1 (Some a) es2 None ∧ h1 !! a = h !! a).
  { unfold h1. destruct (last_of_cases es1) as [[-> ->]|(es' & [p kvp] & -> & ->)]; [done|]. cbn [fst].
    rewrite map_app in Hnd1, Ha1, Hdisj. cbn in *. apply NoDup_app in Hnd1 as (_ & Hd & _).
    assert (Hp : p ∉ map fst es') by (intros Hin; apply (Hd _ Hin); left).
    assert (Hpa : p ≠ a) by set_solver.
    split; [by eapply seg_set_next|]. split; [|by rewrite lookup_alter_ne].
    eapply seg_frame; [|exact Hs2]. intros b Hb. apply lookup_alter_ne. intros <-. apply (Hdisj p); [set_solver|by right]. }
  destruct H1 as (H1 & H2 & Hl). unfold relink. fold h1. destruct es2 as [|[q kvq] es2]; cbn [first_of fst] in *.
  { rewrite app_nil_r. by split. }
  cbn in Ha2, Hnd2. apply NoDup_cons in Hnd2 as [Hq _]. split; [|rewrite lookup_alter_ne; [done|set_solver]].
  apply seg_app. cbn [first_of fst]. split; [|by eapply seg_set_prev].
  eapply seg_frame; [|exact H1]. intros b Hb. apply lookup_alter_ne. intros <-. apply (Hdisj q Hb). right. left.
Qed.

(** ** The operations on pointers *)

Lemma deref_eq {B} a nd (k : ListNode K V → M (Lru K V) B) s : heap s !! a = Some nd → bind (deref (Some a)) k s = k nd s.
Proof. unfold bind, deref. by intros ->. Qed.

Lemma update_node_eq {B} a (f : ListNode K V → ListNode K V) (k : unit → M (Lru K V) B) s : is_Some (heap s !! a) →
  bind (update_node (Some a) f) k s = k tt (mkLru (alter f a (heap s)) (searcher_ s) (lru_front_ s) (lru_tail_ s)).
Proof. unfold bind, update_node. by intros [? ->]. Qed.

Lemma seg_cover h es p n a : seg h p es n → a ∈ map fst es → is_Some (h !! a).
Proof.
  revert p. induction es as [|e es IH]; intros p Hs Ha; [by apply elem_of_nil in Ha|]. destruct Hs as [He Hs].
  apply elem_of_cons in Ha as [->|Ha]; [by eexists|by eapply IH].
Qed.

Lemma link_front_ok es a nd s :
  seg (heap s) None es None → heap s !! a = Some nd → a ∉ map fst es → lru_front_ s = first_of es None →
  NoDup (map fst es) →
  ∃ h', link_front a s = Some (tt, mkLru h' (searcher_ s) (Some a) (lru_tail_ s)) ∧
    seg h' None ((a, (key_ nd, value_ nd)) :: es) None ∧ dom h' = dom (heap s).
Proof.
  intros Hs Hn Ha Hf Hnd. unfold link_front. rewrite update_node_eq by by eexists. rewrite bind_get. cbn [lru_front_].
  rewrite update_node_eq by (cbn; rewrite lookup_alter_eq, Hn; by eexists). cbn [heap searcher_ lru_front_ lru_tail_].
  set (h1 := alter (node_next (lru_front_ s)) a (alter (node_prev None) a (heap s))).
  assert (H1 : h1 !! a = Some (mkNode (key_ nd) (value_ nd) None (first_of es None))).
  { unfold h1. rewrite !lookup_alter_eq, Hn, Hf. done. }
  assert (H2 : seg h1 None es None).
  { eapply seg_frame; [|exact Hs]. intros b Hb. unfold h1. rewrite !lookup_alter_ne by congruence. done. }
  assert (Hd : dom h1 = dom (heap s)) by (unfold h1; by rewrite !dom_alter_L).
  rewrite Hf. destruct es as [|[f kvf] es]; cbn [first_of fst].
  - rewrite bind_ret. eexists. split; [done|]. done.
  - cbn in Ha, Hnd. apply NoDup_cons in Hnd as [Hf' _].
    rewrite update_node_eq by (eapply (seg_cover _ ((f, kvf) :: es)); [exact H2|left]). cbn [heap searcher_ lru_front_ lru_tail_].
    exists (alter (node_prev (Some a)) f h1). split; [done|]. split; [|by rewrite dom_alter_L].
    split; [cbn; rewrite lookup_alter_ne by set_solver; exact H1|]. by eapply seg_set_prev.
Qed.

(** what an operation leaves of the heap, given the nodes it represents *)
Lemma repr_intro es s :
  seg (heap s) None es None → lru_front_ s = first_of es None → lru_tail_ s = last_of None es →
  NoDup (map fst es) → dom (heap s) = list_to_set (map fst es) → NoDup (map (λ e, e.2.1) es) →
  (∀ k a, searcher_ s !! k = Some a ↔ ∃ v, (a, (k, v)) ∈ es) → lru_repr es s.
Proof. by constructor. Qed.

Lemma lru_touch_ok es1 a k v es2 s :
  lru_repr (es1 ++ (a, (k, v)) :: es2) s →
  ∃ s', lru_touch a s = Some (tt, s') ∧ lru_repr ((a, (k, v)) :: es1 ++ es2) s' ∧ dom (heap s') = dom (heap s).
Proof.
  intros [Hs Hf Ht Hnd Hd Hk Hse]. pose proof (seg_lookup _ _ _ _ _ _ Hs) as Ha. cbn [fst snd] in Ha.
  unfold lru_touch. rewrite (deref_eq a _ _ _ Ha). cbn [prev_ next_].
  assert (Hperm : ∀ x, x ∈ (a, (k, v)) :: es1 ++ es2 ↔ x ∈ es1 ++ (a, (k, v)) :: es2) by (intros; set_solver).
  assert (Hp : es1 ++ (a, (k, v)) :: es2 ≡ₚ (a, (k, v)) :: es1 ++ es2) by by rewrite Permutation_middle.
  destruct (last_of_cases es1) as [[-> E]|(es' & [p kvp] & -> & E)]; rewrite E.
  { exists s. split; [done|]. split; [|done]. by constructor. }
  cbn [fst]. destruct (seg_unlink _ _ _ _ _ Hnd Hs) as [Hs' Ha']. rewrite E in Hs', Ha'. cbn [fst] in Hs', Ha'.
  rewrite update_node_eq.
  2:{ eapply seg_cover; [exact Hs|]. rewrite !map_app. set_solver. }
  set (h1 := alter (node_next (first_of es2 None)) p (heap s)) in *.
  assert (Hn : NoDup (map fst ((a, (k, v)) :: (es' ++ [(p, kvp)]) ++ es2))) by by rewrite <-Hp.
  cbn in Hn. apply NoDup_cons in Hn as [Hni Hn].
  assert (Hmid : ∃ s1, (match first_of es2 None with Some q => update_node (Some q) (node_prev (Some p)) | None => set_tail (Some p) end)
      (mkLru h1 (searcher_ s) (lru_front_ s) (lru_tail_ s)) = Some (tt, s1) ∧
      heap s1 = relink (Some p) (first_of es2 None) (heap s) ∧ searcher_ s1 = searcher_ s ∧ lru_front_ s1 = lru_front_ s ∧
      lru_tail_ s1 = last_of None ((a, (k, v)) :: (es' ++ [(p, kvp)]) ++ es2)).
  { destruct es2 as [|[q kvq] es2]; cbn [first_of fst] in *.
    - eexists. split; [done|]. do 3 (split; [done|]). cbn. rewrite !last_of_app. done.
    - assert (Hq : is_Some (h1 !! q)).
      { unfold h1. rewrite lookup_alter_is_Some. eapply seg_cover; [exact Hs|]. rewrite !map_app. set_solver. }
      eexists. unfold update_node. cbn [heap]. destruct Hq as [nq ->]. split; [done|]. do 3 (split; [done|]).
      cbn. rewrite Ht, !last_of_app. done. }
  destruct Hmid as (s1 & E1 & Hh1 & Hse1 & Hf1 & Ht1). rewrite (bind_eq _ _ _ _ _ E1).
  assert (Hfr : lru_front_ s1 = first_of ((es' ++ [(p, kvp)]) ++ es2) None).
  { rewrite Hf1, Hf. by destruct es'. }
  destruct (link_front_ok ((es' ++ [(p, kvp)]) ++ es2) a (mkNode k v (Some p) (first_of es2 None)) s1) as (h' & E' & Hs2 & Hd2);
    [by rewrite Hh1|by rewrite Hh1, Ha', Ha, E|done|done|done|].
  rewrite E'. eexists. split; [done|]. cbn [heap]. rewrite Hd2, Hh1, dom_relink. split; [|done].
  apply repr_intro; cbn [heap searcher_ lru_front_ lru_tail_].
  - exact Hs2.
  - done.
  - by rewrite Ht1.
  - by rewrite <-Hp.
  - rewrite Hd2, Hh1, dom_relink, Hd. rewrite Hp. done.
  - by rewrite <-Hp.
  - intros k' a'. rewrite Hse1, Hse. by setoid_rewrite Hperm.
Qed.

Lemma repr_key es s k : lru_repr es s → searcher_ s !! k = None → k ∉ map (λ e, e.2.1) es.
Proof.
  intros Hr Hn ([a [k' v]] & -> & Hin)%list_elem_of_fmap. cbn in Hn.
  assert (Hs : searcher_ s !! k' = Some a) by (apply (lr_search _ _ Hr); by eexists). congruence.
Qed.

Lemma lru_push_ok es k v s :
  lru_repr es s → searcher_ s !! k = None →
  ∃ a s', (let* ln := alloc_node (mkNode k v None None) in lru_push ln) s = Some (tt, s') ∧ lru_repr ((a, (k, v)) :: es) s'.
Proof.
  intros Hr Hk. pose proof (repr_key _ _ _ Hr Hk) as Hke. destruct Hr as [Hs Hf Ht Hnd Hd Hkk Hse].
  set (a := fresh (dom (heap s))). assert (Hfr : a ∉ dom (heap s)) by apply is_fresh.
  assert (Ha : a ∉ map fst es) by (rewrite Hd in Hfr; set_solver).
  unfold alloc_node, bind at 1. fold a. unfold lru_push. rewrite bind_get. cbn [lru_tail_].
  set (h0 := <[a := mkNode k v None None]> (heap s)).
  assert (Hs0 : seg h0 None es None).
  { eapply seg_frame; [|exact Hs]. intros b Hb. apply lookup_insert_ne. congruence. }
  assert (Hh0 : h0 !! a = Some (mkNode k v None None)) by apply lookup_insert_eq.
  assert (Htail : (match lru_tail_ s with None => set_tail (Some a) | Some _ => ret tt end) (mkLru h0 (searcher_ s) (lru_front_ s) (lru_tail_ s)) =
    Some (tt, mkLru h0 (searcher_ s) (lru_front_ s) (last_of None ((a, (k, v)) :: es)))).
  { rewrite Ht. cbn [last_of fst]. destruct (last_of_cases es) as [[-> E]|(es' & e & -> & E)]; by rewrite !E. }
  rewrite (bind_eq _ _ _ _ _ Htail).
  destruct (link_front_ok es a (mkNode k v None None) (mkLru h0 (searcher_ s) (lru_front_ s) (last_of None ((a, (k, v)) :: es))))
    as (h' & E' & Hs' & Hd'); [done..|].
  rewrite (bind_eq _ _ _ _ _ E'). cbn [searcher_ lru_tail_ key_ value_] in *. unfold searcher_insert.
  rewrite (deref_eq a (mkNode k v None (first_of es None))) by (destruct Hs' as [Hs' _]; exact Hs').
  unfold modify. exists a. eexists. split; [done|]. cbn [heap searcher_ lru_front_ lru_tail_ key_].
  apply repr_intro; cbn [heap searcher_ lru_front_ lru_tail_]; try done.
  - cbn. by apply NoDup_cons.
  - rewrite Hd'. cbn [heap]. unfold h0. rewrite dom_insert_L, Hd. done.
  - cbn. by apply NoDup_cons.
  - intros k' a'. destruct (decide (k' = k)) as [->|Hne].
    + rewrite lookup_insert_eq. split; [intros [= <-]; exists v; left|].
      intros [v' [[= -> ->]|Hin]%elem_of_cons]; [done|]. exfalso. apply Hke. apply list_elem_of_fmap. by exists (a', (k, v')).
    + rewrite lookup_insert_ne by done. rewrite Hse. split; intros [v' Hin]; exists v'; [by right|].
      apply elem_of_cons in Hin as [[= -> -> ->]|Hin]; done.
Qed.

Lemma lru_remove_ok es1 a k v es2 s :
  lru_repr (es1 ++ (a, (k, v)) :: es2) s →
  ∃ s', lru_remove a s = Some (tt, s') ∧ lru_repr (es1 ++ es2) s'.
Proof.
  intros [Hs Hf Ht Hnd Hd Hk Hse]. pose proof (seg_lookup _ _ _ _ _ _ Hs) as Ha. cbn [fst snd] in Ha.
  assert (Hp : es1 ++ (a, (k, v)) :: es2 ≡ₚ (a, (k, v)) :: es1 ++ es2) by by rewrite Permutation_middle.
  destruct (seg_unlink _ _ _ _ _ Hnd Hs) as [Hs' Ha'].
  assert (Hn : NoDup (map fst ((a, (k, v)) :: es1 ++ es2))) by by rewrite <-Hp.
  assert (Hnk : NoDup (map (λ e, e.2.1) ((a, (k, v)) :: es1 ++ es2))) by by rewrite <-Hp.
  cbn in Hn, Hnk. apply NoDup_cons in Hn as [Hni Hn]. apply NoDup_cons in Hnk as [Hnik Hnk].
  assert (Hcov : ∀ b, b ∈ map fst (es1 ++ (a, (k, v)) :: es2) → is_Some (heap s !! b)) by (intros; by eapply seg_cover).
  unfold lru_remove. rewrite (deref_eq a _ _ _ Ha). cbn [prev_ next_].
  assert (E1 : ∃ h1, (match last_of None es1 with Some p => update_node (Some p) (node_next (first_of es2 None)) | None => ret tt end) s =
      Some (tt, mkLru h1 (searcher_ s) (lru_front_ s) (lru_tail_ s)) ∧
      h1 = match last_of None es1 with Some p => alter (node_next (first_of es2 None)) p (heap s) | None => heap s end ∧ dom h1 = dom (heap s)).
  { destruct (last_of_cases es1) as [[-> E]|(es' & e & -> & E)]; rewrite E; [destruct s; by eexists|].
    destruct (Hcov e.1) as [ne He]; [rewrite !map_app; set_solver|]. unfold update_node. rewrite He. eexists. split; [done|].
    split; [done|]. by rewrite dom_alter_L. }
  destruct E1 as (h1 & E1 & Hh1 & Hd1). rewrite (bind_eq _ _ _ _ _ E1).
  assert (E2 : (match first_of es2 None with Some q => update_node (Some q) (node_prev (last_of None es1)) | None => ret tt end)
      (mkLru h1 (searcher_ s) (lru_front_ s) (lru_tail_ s)) =
      Some (tt, mkLru (relink (last_of None es1) (first_of es2 None) (heap s)) (searcher_ s) (lru_front_ s) (lru_tail_ s))).
  { unfold relink. rewrite <-Hh1. destruct es2 as [|e2 es2]; [done|]. cbn [first_of]. unfold update_node. cbn [heap].
    assert (He : is_Some (h1 !! e2.1)).
    { apply elem_of_dom. rewrite Hd1. apply elem_of_dom, Hcov. rewrite map_app. set_solver. }
    by destruct He as [? ->]. }
  rewrite (bind_eq _ _ _ _ _ E2), bind_get. cbn [lru_front_ lru_tail_].
  set (h2 := relink (last_of None es1) (first_of es2 None) (heap s)) in *.
  assert (E3 : (if bool_decide (lru_front_ s = Some a) then set_front (first_of es2 None) else ret tt) (mkLru h2 (searcher_ s) (lru_front_ s) (lru_tail_ s)) =
    Some (tt, mkLru h2 (searcher_ s) (first_of (es1 ++ es2) None) (lru_tail_ s))).
  { rewrite Hf. destruct es1 as [|e1 es1]; cbn [app first_of]; [by rewrite bool_decide_eq_true_2|].
    rewrite bool_decide_eq_false_2; [done|]. intros [= <-]. apply Hni. left. }
  rewrite (bind_eq _ _ _ _ _ E3).
  assert (E4 : (if bool_decide (lru_tail_ s = Some a) then set_tail (last_of None es1) else ret tt) (mkLru h2 (searcher_ s) (first_of (es1 ++ es2) None) (lru_tail_ s)) =
    Some (tt, mkLru h2 (searcher_ s) (first_of (es1 ++ es2) None) (last_of None (es1 ++ es2)))).
  { rewrite Ht, !last_of_app. cbn [last_of fst]. destruct (last_of_cases es2) as [[-> E]|(es' & e & -> & E)]; rewrite !E; [by rewrite bool_decide_eq_true_2|].
    rewrite bool_decide_eq_false_2; [done|]. intros [= <-]. apply Hni. rewrite !map_app. set_solver. }
  rewrite (bind_eq _ _ _ _ _ E4). unfold searcher_erase. rewrite bind_assoc.
  rewrite (deref_eq a (mkNode k v (last_of None es1) (first_of es2 None))) by (cbn; congruence). cbn [key_]. rewrite bind_modify.
  unfold delete_node. cbn [heap]. rewrite Ha', Ha. eexists. split; [done|].
  apply repr_intro; cbn [heap searcher_ lru_front_ lru_tail_]; try done.
  - eapply seg_frame; [|exact Hs']. intros b Hb. apply lookup_delete_ne. congruence.
  - rewrite dom_delete_L. unfold h2. rewrite dom_relink, Hd, Hp. cbn. set_solver.
  - intros k' a'. destruct (decide (k' = k)) as [->|Hne].
    + rewrite lookup_delete_eq. split; [done|]. intros [v' Hin]. exfalso. apply Hnik. apply list_elem_of_fmap. by exists (a', (k, v')).
    + rewrite lookup_delete_ne by done. rewrite Hse. split; intros [v' Hin]; exists v'; set_solver.
Qed.

(** ** The represented list *)

Definition represents (l : list (K * V)) (s : Lru K V) : Prop := ∃ es, lru_repr es s ∧ l = map snd es.

Lemma find_None k l : find k l = None ↔ k ∉ map fst l.
Proof.
  induction l as [|[k' v] l IH]; cbn; [set_solver|]. rewrite not_elem_of_cons. case_decide; cbn in *; naive_solver.
Qed.
Lemma find_elem k v l : NoDup (map fst l) → find k l = Some v ↔ (k, v) ∈ l.
Proof.
  induction l as [|[k' v'] l IH]; cbn; [set_solver|]. intros [Hni Hnd]%NoDup_cons. rewrite elem_of_cons. cbn. case_decide as Hk.
  - cbn in Hk. subst. split; [intros [= ->]; by left|]. intros [[= ->]|Hin]; [done|]. exfalso. apply Hni. apply list_elem_of_fmap. by exists (k, v).
  - cbn in Hk. rewrite IH by done. split; [by right|]. intros [[= -> ->]|Hin]; done.
Qed.

Lemma keys_snd es : map fst (map snd es) = map (λ e : entry, e.2.1) es.
Proof. by rewrite map_map. Qed.

Lemma without_snd es1 a k v es2 : NoDup (map (λ e : entry, e.2.1) (es1 ++ (a, (k, v)) :: es2)) →
  without k (map snd (es1 ++ (a, (k, v)) :: es2)) = map snd (es1 ++ es2).
Proof.
  intros Hnd. assert (Hn : NoDup (map (λ e : entry, e.2.1) ((a, (k, v)) :: es1 ++ es2))) by by rewrite Permutation_middle.
  cbn in Hn. apply NoDup_cons in Hn as [Hni _]. rewrite !map_app. cbn. unfold without. rewrite filter_app, filter_cons.
  cbn. rewrite decide_False by (by intros []). rewrite <-filter_app, <-map_app. apply list_filter_all, Forall_map, Forall_forall.
  intros e He Hk. cbn in Hk. apply Hni. apply list_elem_of_fmap. by exists e.
Qed.
Lemma without_absent k l : k ∉ map fst l → without k l = l.
Proof.
  intros Hk. apply list_filter_all, Forall_forall. intros e He Heq. apply Hk. apply list_elem_of_fmap. by exists e.
Qed.

(** looking a key up in the hash set is looking it up in the list *)
Lemma searcher_find es s k : lru_repr es s →
  match searcher_ s !! k with
  | Some a => ∃ es1 v es2, es = es1 ++ (a, (k, v)) :: es2 ∧ find k (map snd es) = Some v
  | None => find k (map snd es) = None
  end.
Proof.
  intros Hr. destruct (searcher_ s !! k) as [a|] eqn:E.
  - pose proof E as [v Hin]%(lr_search _ _ Hr). pose proof Hin as (es1 & es2 & ->)%list_elem_of_split.
    exists es1, v, es2. split; [done|]. apply find_elem.
    + rewrite keys_snd. apply (lr_keys _ _ Hr).
    + apply list_elem_of_fmap. by exists (a, (k, v)).
  - apply find_None. rewrite keys_snd. by eapply repr_key.
Qed.

Lemma lru_get_ok l s k : represents l s →
  ∃ s', lru_get k s = Some ((spec_get k l).1, s') ∧ represents (spec_get k l).2 s'.
Proof.
  intros (es & Hr & ->). pose proof (searcher_find es s k Hr) as Hf. unfold lru_get, spec_get. rewrite bind_get.
  destruct (searcher_ s !! k) as [a|] eqn:E.
  - destruct Hf as (es1 & v & es2 & -> & Hf). rewrite Hf. cbn [fst snd].
    destruct (lru_touch_ok _ _ _ _ _ _ Hr) as (s' & E' & Hr' & _). rewrite (bind_eq _ _ _ _ _ E').
    rewrite (deref_eq a (mkNode k v None (first_of (es1 ++ es2) None))) by apply (lr_seg _ _ Hr'). cbn [value_].
    exists s'. split; [done|]. eexists. split; [exact Hr'|]. cbn [map snd]. by rewrite without_snd by apply (lr_keys _ _ Hr).
  - rewrite Hf. exists s. split; [done|]. by exists es.
Qed.

Lemma seg_set_value h p es1 a k v v' es2 n : NoDup (map fst (es1 ++ (a, (k, v)) :: es2)) →
  seg h p (es1 ++ (a, (k, v)) :: es2) n → seg (alter (node_value v') a h) p (es1 ++ (a, (k, v')) :: es2) n.
Proof.
  rewrite map_app. intros (Hnd1 & Hdisj & [Ha2 _]%NoDup_cons)%NoDup_app [Hs1 [Ha Hs2]]%seg_app. cbn in *.
  apply seg_app. cbn [first_of fst]. split; [|split].
  - eapply seg_frame; [|exact Hs1]. intros b Hb. apply lookup_alter_ne. intros <-. apply (Hdisj a Hb). left.
  - cbn. by rewrite lookup_alter_eq, Ha.
  - eapply seg_frame; [|exact Hs2]. intros b Hb. apply lookup_alter_ne. set_solver.
Qed.

Lemma lru_put_ok l s k v : represents l s → ∃ s', lru_put k v s = Some (tt, s') ∧ represents (spec_put k v l) s'.
Proof.
  intros (es & Hr & ->). pose proof (searcher_find es s k Hr) as Hf. unfold lru_put, spec_put. rewrite bind_get.
  destruct (searcher_ s !! k) as [a|] eqn:E.
  - destruct Hf as (es1 & v0 & es2 & -> & Hf). destruct Hr as [Hs Hfr Ht Hnd Hd Hk Hse].
    rewrite update_node_eq by (eapply seg_cover; [exact Hs|rewrite map_app; set_solver]).
    set (s1 := mkLru (alter (node_value v) a (heap s)) _ _ _).
    assert (Hmap : ∀ x, map fst (es1 ++ (a, (k, x)) :: es2) = map fst (es1 ++ (a, (k, v0)) :: es2)) by (intros; by rewrite !map_app).
    assert (Hkeys : ∀ x, map (λ e : entry, e.2.1) (es1 ++ (a, (k, x)) :: es2) = map (λ e : entry, e.2.1) (es1 ++ (a, (k, v0)) :: es2)) by (intros; by rewrite !map_app).
    assert (Hr1 : lru_repr (es1 ++ (a, (k, v)) :: es2) s1).
    { apply repr_intro; cbn [s1 heap searcher_ lru_front_ lru_tail_].
      - by eapply seg_set_value.
      - rewrite Hfr. by destruct es1.
      - by rewrite Ht, !last_of_app.
      - by rewrite Hmap.
      - by rewrite dom_alter_L, Hmap.
      - by rewrite Hkeys.
      - intros k' a'. rewrite Hse. split; intros [x Hin].
        + apply elem_of_app in Hin as [Hin|Hin]; [exists x; set_solver|]. apply elem_of_cons in Hin as [[= -> -> ->]|Hin]; [exists v|exists x]; set_solver.
        + apply elem_of_app in Hin as [Hin|Hin]; [exists x; set_solver|]. apply elem_of_cons in Hin as [[= -> -> ->]|Hin]; [exists v0|exists x]; set_solver. }
    destruct (lru_touch_ok _ _ _ _ _ _ Hr1) as (s' & E' & Hr' & _). exists s'. split; [done|]. eexists. split; [exact Hr'|].
    cbn [map snd]. by rewrite without_snd.
  - destruct (lru_push_ok es k v s Hr E) as (a & s' & E' & Hr'). exists s'. split; [done|]. eexists. split; [exact Hr'|].
    cbn. f_equal. apply without_absent. by apply find_None.
Qed.

Lemma lru_delete_ok l s k : represents l s → ∃ s', lru_delete k s = Some (tt, s') ∧ represents (without k l) s'.
Proof.
  intros (es & Hr & ->). pose proof (searcher_find es s k Hr) as Hf. unfold lru_delete. rewrite bind_get.
  destruct (searcher_ s !! k) as [a|] eqn:E.
  - destruct Hf as (es1 & v & es2 & -> & Hf). destruct (lru_remove_ok _ _ _ _ _ _ Hr) as (s' & E' & Hr').
    exists s'. split; [done|]. eexists. split; [exact Hr'|]. by rewrite without_snd by apply (lr_keys _ _ Hr).
  - exists s. split; [done|]. exists es. split; [done|]. apply without_absent. by apply find_None.
Qed.

Lemma repr_size es s : lru_repr es s → size (heap s) = length es ∧ size (searcher_ s) = length es.
Proof.
  intros Hr. split.
  - rewrite <-size_dom, (lr_dom _ _ Hr), size_list_to_set by apply (lr_addrs _ _ Hr). by rewrite length_map.
  - rewrite <-size_dom. replace (dom (searcher_ s)) with (list_to_set (map (λ e, e.2.1) es) : gset K).
    { rewrite size_list_to_set by apply (lr_keys _ _ Hr). by rewrite length_map. }
    apply set_eq. intros k. rewrite elem_of_list_to_set, elem_of_dom, list_elem_of_fmap. split.
    + intros ([a [k' v]] & -> & Hin). exists a. apply (lr_search _ _ Hr). by exists v.
    + intros [a [v Hin]%(lr_search _ _ Hr)]. by exists (a, (k, v)).
Qed.

Lemma walk_next {St} (func : K → V → M St bool) h es : ∀ p st fuel,
  seg h p es None → (length es ≤ fuel)%nat →
  walk func next_ fuel h (first_of es None) st = spec_foreach func (map snd es) st.
Proof.
  induction es as [|e es IH]; intros p st fuel Hs Hf; cbn [first_of map snd spec_foreach]; [by destruct fuel|].
  destruct fuel as [|fuel]; [cbn in Hf; lia|]. destruct Hs as [He Hs]. cbn [walk]. rewrite He. cbn [key_ value_].
  unfold bind. destruct (func _ _ st) as [[r st']|]; [|done]. destruct r; [|done]. cbn [next_]. apply (IH (Some e.1)); [done|cbn in Hf; lia].
Qed.

Lemma walk_prev {St} (func : K → V → M St bool) h es : ∀ st fuel n,
  seg h None es n → (length es ≤ fuel)%nat →
  walk func prev_ fuel h (last_of None es) st = spec_foreach func (reverse (map snd es)) st.
Proof.
  induction es as [|e es IH] using rev_ind; intros st fuel n Hs Hf; [by destruct fuel|].
  rewrite map_app, reverse_app, last_of_app. cbn [last_of map reverse rev_append app].
  rewrite length_app in Hf. cbn in Hf. destruct fuel as [|fuel]; [lia|].
  apply seg_app in Hs as [Hs [He _]]. cbn [walk]. rewrite He. cbn [key_ value_ spec_foreach].
  cbn [app spec_foreach]. unfold bind. destruct (func _ _ st) as [[r st']|]; [|done]. destruct r; [|done].
  cbn [prev_]. by eapply IH; [|lia].
Qed.

Lemma foreach_ok {St} (func : K → V → M St bool) l s st : represents l s →
  foreach func s st = spec_foreach func l st ∧ foreach_reverse func s st = spec_foreach func (reverse l) st ∧ count s = len l.
Proof.
  intros (es & Hr & ->). pose proof (repr_size _ _ Hr) as [Hs1 Hs2]. unfold foreach, foreach_reverse, count.
  rewrite (lr_front _ _ Hr), (lr_tail _ _ Hr), Hs1, Hs2. split; [|split].
  - eapply walk_next; [apply (lr_seg _ _ Hr)|done].
  - eapply walk_prev; [apply (lr_seg _ _ Hr)|done].
  - unfold len. by rewrite length_map.
Qed.

Lemma new_lru_ok : represents [] new_lru.
Proof.
  exists []. split; [|done]. apply repr_intro; cbn; try done; [constructor|constructor|]. intros k a. rewrite lookup_empty.
  split; [done|]. intros [v Hin]. by apply elem_of_nil in Hin.
Qed.

(** ** Destruction *)

Lemma delete_nodes_ok (ds : list (K * addr)) : ∀ s,
  (∀ e, e ∈ ds → is_Some (heap s !! e.2)) → NoDup (map snd ds) →
  forM ds (λ e : K * addr, delete_node e.2) s =
    Some (tt, mkLru (foldr (λ e h, delete e.2 h) (heap s) ds) (searcher_ s) (lru_front_ s) (lru_tail_ s)).
Proof.
  induction ds as [|e ds IH]; intros s Hin Hnd; [by destruct s|]. cbn [forM foldr map] in *.
  apply NoDup_cons in Hnd as [Hn Hnd]. destruct (Hin e (list_elem_of_here _ _)) as [n Hnode].
  assert (E : delete_node e.2 s = Some (tt, mkLru (delete e.2 (heap s)) (searcher_ s) (lru_front_ s) (lru_tail_ s))).
  { unfold delete_node. by rewrite Hnode. }
  rewrite (bind_eq _ _ _ _ _ E), IH; [|intros e' He'|done]; cbn [heap searcher_ lru_front_ lru_tail_].
  - do 3 f_equal. clear. induction ds as [|e' ds IH]; [done|]. cbn [foldr]. by rewrite IH, delete_delete.
  - rewrite lookup_delete_ne; [apply Hin; by right|]. intros Heq. apply Hn. rewrite Heq. apply list_elem_of_fmap. by exists e'.
Qed.

Lemma destroy_ok l s : represents l s → ∃ s', destroy s = Some (tt, s') ∧ represents [] s'.
Proof.
  intros (es & Hr & ->). unfold destroy. rewrite bind_get.
  assert (Hin : ∀ e, e ∈ map_to_list (searcher_ s) ↔ ∃ v, (e.2, (e.1, v)) ∈ es).
  { intros [k a]. rewrite elem_of_map_to_list. apply (lr_search _ _ Hr). }
  assert (Hnd : NoDup (map snd (map_to_list (searcher_ s)))).
  { apply NoDup_fmap_2_strong; [|apply NoDup_map_to_list]. intros [k a] [k' a'] [v Hv]%Hin [v' Hv']%Hin Heq.
    cbn in *. subst a'. pose proof (lr_addrs _ _ Hr) as Ha.
    apply list_elem_of_lookup in Hv as [i Hi], Hv' as [j Hj].
    assert (i = j) as ->; [|congruence]. eapply NoDup_lookup; [exact Ha| |]; by rewrite list_lookup_fmap, ?Hi, ?Hj. }
  rewrite (bind_eq _ _ _ _ _ (delete_nodes_ok _ s ltac:(intros e [v Hv]%Hin; apply elem_of_dom; rewrite (lr_dom _ _ Hr);
    apply elem_of_list_to_set, list_elem_of_fmap; by exists (e.2, (e.1, v))) Hnd)).
  eexists. split; [done|]. cbn [heap]. replace (foldr _ _ _) with (∅ : gmap addr (ListNode K V)); [apply new_lru_ok|].
  apply map_eq. intros a. rewrite lookup_empty. symmetry.
  destruct (decide (a ∈ map snd (map_to_list (searcher_ s)))) as [Ha|Ha].
  - revert Ha. clear. induction (map_to_list (searcher_ s)) as [|e es IH]; [by intros ?%elem_of_nil|]. cbn [map foldr].
    destruct (decide (a = e.2)) as [->|]; [by rewrite lookup_delete_eq|]. rewrite lookup_delete_ne by done.
    intros [?|?]%elem_of_cons; [done|auto].
  - transitivity (heap s !! a).
    + revert Ha. clear. induction (map_to_list (searcher_ s)) as [|e es IH]; [done|]. cbn [map foldr].
      intros [? ?]%not_elem_of_cons. rewrite lookup_delete_ne by done. auto.
    + apply not_elem_of_dom. rewrite (lr_dom _ _ Hr). intros ([a' [k v]] & -> & He)%elem_of_list_to_set%list_elem_of_fmap.
      apply Ha, list_elem_of_fmap. exists (k, a'). split; [done|]. apply Hin. by exists v.
Qed.

(** ** The operations as calls *)

(** The public operations of the class. The function given to a walk notes the entry it meets
    and answers [go]: the walk goes on as long as [go] says so. *)
Inductive lru_op :=
| OpGet (k : K)
| OpPut (k : K) (v : V)
| OpRemove (k : K)
| OpPop
| OpCount
| OpForeach (go : K → V → bool)
| OpForeachReverse (go : K → V → bool)
| OpDestroy.
Inductive lru_result := RValue (v : option V) | RDone | RCount (n : Z) | REntries (l : list (K * V)).

(** collect the entries *)
Definition note (go : K → V → bool) (k : K) (v : V) : M (list (K * V)) bool := λ acc, Some (go k v, acc ++ [(k, v)]).
(** the entries up to the first one at which [go] says to stop, that one included *)
Fixpoint upto (go : K → V → bool) (l : list (K * V)) : list (K * V) :=
  match l with
  | [] => []
  | e :: l => e :: (if go e.1 e.2 then upto go l else [])
  end.
Definition lru_call (op : lru_op) : M (Lru K V) lru_result :=
  match op with
  | OpGet k => let* r := lru_get k in ret (RValue r)
  | OpPut k v => lru_put k v ;;; ret RDone
  | OpRemove k => lru_delete k ;;; ret RDone
  | OpPop => let* r := pop in ret (RValue r)
  | OpCount => let* s := get in ret (RCount (count s))
  | OpForeach go => let* s := get in let* r := liftO (foreach (note go) s []) in ret (REntries r.2)
  | OpForeachReverse go => let* s := get in let* r := liftO (foreach_reverse (note go) s []) in ret (REntries r.2)
  | OpDestroy => destroy ;;; ret RDone
  end.
Definition spec_call (op : lru_op) (l : list (K * V)) : lru_result * list (K * V) :=
  match op with
  | OpGet k => (RValue (spec_get k l).1, (spec_get k l).2)
  | OpPut k v => (RDone, spec_put k v l)
  | OpRemove k => (RDone, without k l)
  | OpPop => (RValue None, l)
  | OpCount => (RCount (len l), l)
  | OpForeach go => (REntries (upto go l), l)
  | OpForeachReverse go => (REntries (upto go (reverse l)), l)
  | OpDestroy => (RDone, [])
  end.
Fixpoint lru_calls (ops : list lru_op) : M (Lru K V) (list lru_result) :=
  match ops with
  | [] => ret []
  | op :: ops => let* r := lru_call op in let* rs := lru_calls ops in ret (r :: rs)
  end.
Fixpoint spec_calls (ops : list lru_op) (l : list (K * V)) : list lru_result * list (K * V) :=
  match ops with
  | [] => ([], l)
  | op :: ops => let '(r, l1) := spec_call op l in let '(rs, l2) := spec_calls ops l1 in (r :: rs, l2)
  end.

Lemma note_upto go l acc : spec_foreach (note go) l acc = Some (tt, acc ++ upto go l).
Proof.
  revert acc. induction l as [|[k v] l IH]; intros acc; cbn [spec_foreach upto]; [by rewrite app_nil_r|].
  unfold note at 1, bind. cbn. destruct (go k v); [by rewrite IH, <-app_assoc|done].
Qed.

Lemma lru_call_ok op l s : represents l s →
  ∃ s', lru_call op s = Some ((spec_call op l).1, s') ∧ represents (spec_call op l).2 s'.
Proof.
  intros Hr. destruct op as [k|k v|k| | |go|go|]; cbn [lru_call spec_call fst snd].
  - destruct (lru_get_ok l s k Hr) as (s' & E & Hr'). rewrite (bind_eq _ _ _ _ _ E). by exists s'.
  - destruct (lru_put_ok l s k v Hr) as (s' & E & Hr'). rewrite (bind_eq _ _ _ _ _ E). by exists s'.
  - destruct (lru_delete_ok l s k Hr) as (s' & E & Hr'). rewrite (bind_eq _ _ _ _ _ E). by exists s'.
  - by exists s.
  - exists s. rewrite bind_get. pose proof (foreach_ok (note (λ _ _, true)) l s [] Hr) as (_ & _ & E). by rewrite E.
  - exists s. rewrite bind_get. pose proof (foreach_ok (note go) l s [] Hr) as (E & _ & _). by rewrite E, note_upto.
  - exists s. rewrite bind_get. pose proof (foreach_ok (note go) l s [] Hr) as (_ & E & _). by rewrite E, note_upto.
  - destruct (destroy_ok l s Hr) as (s' & E & Hr'). rewrite (bind_eq _ _ _ _ _ E). by exists s'.
Qed.
End repr.

Arguments lru_op : clear implicits.

(** ** Properties *)

(** [C27] The linked list and the hash set implement a cache in order of use. Whatever public
    operations are called on a new cache, in any order - get, put, remove, pop, count, the walks
    in both directions with a function that may stop them, and destroy: no call follows a null
    or dangling pointer or deletes a node twice, each answers what the list of entries, most
    recently used first, answers, and destroy leaves an empty cache that can be used again. No
    node is leaked: the heap holds one node for each entry. *)
Theorem lru_refines_list {K V : Type} `{Countable K} (ops : list (lru_op K V)) :
  ∃ s, lru_calls ops new_lru = Some ((spec_calls ops []).1, s) ∧ represents (spec_calls ops []).2 s ∧
    size (heap s) = length (spec_calls ops []).2.
Proof.
  assert (Hgen : ∀ l s0, represents l s0 → ∃ s, lru_calls ops s0 = Some ((spec_calls ops l).1, s) ∧ represents (spec_calls ops l).2 s).
  { induction ops as [|op ops IH]; intros l s0 Hr; [by exists s0|]. cbn [lru_calls spec_calls].
    destruct (lru_call_ok op l s0 Hr) as (s1 & E1 & Hr1). rewrite (bind_eq _ _ _ _ _ E1).
    destruct (spec_call op l) as [r l1]. cbn [fst snd] in *.
    destruct (IH l1 s1 Hr1) as (s2 & E2 & Hr2). rewrite (bind_eq _ _ _ _ _ E2).
    destruct (spec_calls ops l1) as [rs l2]. by exists s2. }
  destruct (Hgen [] new_lru new_lru_ok) as (s & E & Hr). exists s. split; [done|]. split; [done|].
  destruct Hr as (es & Hr & ->). rewrite length_map. by apply repr_size.
Qed.
