(* ===== verification/Crc.v ===== *)
(** * Crc: the checksum of a page (deps/common/math/crc.cpp)

    [crc32] takes one table look-up for each byte. It is shown equal to the bitwise
    shift register it stands for, and to detect every change that is confined to one byte. *)
From S2P Require Import Prelude.

Definition crc_table : list Z := [
   0x00000000; 0x77073096; 0xEE0E612C; 0x990951BA; 0x076DC419; 0x706AF48F; 0xE963A535; 0x9E6495A3;
   0x0EDB8832; 0x79DCB8A4; 0xE0D5E91E; 0x97D2D988; 0x09B64C2B; 0x7EB17CBD; 0xE7B82D07; 0x90BF1D91;
   0x1DB71064; 0x6AB020F2; 0xF3B97148; 0x84BE41DE; 0x1ADAD47D; 0x6DDDE4EB; 0xF4D4B551; 0x83D385C7;
   0x136C9856; 0x646BA8C0; 0xFD62F97A; 0x8A65C9EC; 0x14015C4F; 0x63066CD9; 0xFA0F3D63; 0x8D080DF5;
   0x3B6E20C8; 0x4C69105E; 0xD56041E4; 0xA2677172; 0x3C03E4D1; 0x4B04D447; 0xD20D85FD; 0xA50AB56B;
   0x35B5A8FA; 0x42B2986C; 0xDBBBC9D6; 0xACBCF940; 0x32D86CE3; 0x45DF5C75; 0xDCD60DCF; 0xABD13D59;
   0x26D930AC; 0x51DE003A; 0xC8D75180; 0xBFD06116; 0x21B4F4B5; 0x56B3C423; 0xCFBA9599; 0xB8BDA50F;
   0x2802B89E; 0x5F058808; 0xC60CD9B2; 0xB10BE924; 0x2F6F7C87; 0x58684C11; 0xC1611DAB; 0xB6662D3D;
   0x76DC4190; 0x01DB7106; 0x98D220BC; 0xEFD5102A; 0x71B18589; 0x06B6B51F; 0x9FBFE4A5; 0xE8B8D433;
   0x7807C9A2; 0x0F00F934; 0x9609A88E; 0xE10E9818; 0x7F6A0DBB; 0x086D3D2D; 0x91646C97; 0xE6635C01;
   0x6B6B51F4; 0x1C6C6162; 0x856530D8; 0xF262004E; 0x6C0695ED; 0x1B01A57B; 0x8208F4C1; 0xF50FC457;
   0x65B0D9C6; 0x12B7E950; 0x8BBEB8EA; 0xFCB9887C; 0x62DD1DDF; 0x15DA2D49; 0x8CD37CF3; 0xFBD44C65;
   0x4DB26158; 0x3AB551CE; 0xA3BC0074; 0xD4BB30E2; 0x4ADFA541; 0x3DD895D7; 0xA4D1C46D; 0xD3D6F4FB;
   0x4369E96A; 0x346ED9FC; 0xAD678846; 0xDA60B8D0; 0x44042D73; 0x33031DE5; 0xAA0A4C5F; 0xDD0D7CC9;
   0x5005713C; 0x270241AA; 0xBE0B1010; 0xC90C2086; 0x5768B525; 0x206F85B3; 0xB966D409; 0xCE61E49F;
   0x5EDEF90E; 0x29D9C998; 0xB0D09822; 0xC7D7A8B4; 0x59B33D17; 0x2EB40D81; 0xB7BD5C3B; 0xC0BA6CAD;
   0xEDB88320; 0x9ABFB3B6; 0x03B6E20C; 0x74B1D29A; 0xEAD54739; 0x9DD277AF; 0x04DB2615; 0x73DC1683;
   0xE3630B12; 0x94643B84; 0x0D6D6A3E; 0x7A6A5AA8; 0xE40ECF0B; 0x9309FF9D; 0x0A00AE27; 0x7D079EB1;
   0xF00F9344; 0x8708A3D2; 0x1E01F268; 0x6906C2FE; 0xF762575D; 0x806567CB; 0x196C3671; 0x6E6B06E7;
   0xFED41B76; 0x89D32BE0; 0x10DA7A5A; 0x67DD4ACC; 0xF9B9DF6F; 0x8EBEEFF9; 0x17B7BE43; 0x60B08ED5;
   0xD6D6A3E8; 0xA1D1937E; 0x38D8C2C4; 0x4FDFF252; 0xD1BB67F1; 0xA6BC5767; 0x3FB506DD; 0x48B2364B;
   0xD80D2BDA; 0xAF0A1B4C; 0x36034AF6; 0x41047A60; 0xDF60EFC3; 0xA867DF55; 0x316E8EEF; 0x4669BE79;
   0xCB61B38C; 0xBC66831A; 0x256FD2A0; 0x5268E236; 0xCC0C7795; 0xBB0B4703; 0x220216B9; 0x5505262F;
   0xC5BA3BBE; 0xB2BD0B28; 0x2BB45A92; 0x5CB36A04; 0xC2D7FFA7; 0xB5D0CF31; 0x2CD99E8B; 0x5BDEAE1D;
   0x9B64C2B0; 0xEC63F226; 0x756AA39C; 0x026D930A; 0x9C0906A9; 0xEB0E363F; 0x72076785; 0x05005713;
   0x95BF4A82; 0xE2B87A14; 0x7BB12BAE; 0x0CB61B38; 0x92D28E9B; 0xE5D5BE0D; 0x7CDCEFB7; 0x0BDBDF21;
   0x86D3D2D4; 0xF1D4E242; 0x68DDB3F8; 0x1FDA836E; 0x81BE16CD; 0xF6B9265B; 0x6FB077E1; 0x18B74777;
   0x88085AE6; 0xFF0F6A70; 0x66063BCA; 0x11010B5C; 0x8F659EFF; 0xF862AE69; 0x616BFFD3; 0x166CCF45;
   0xA00AE278; 0xD70DD2EE; 0x4E048354; 0x3903B3C2; 0xA7672661; 0xD06016F7; 0x4969474D; 0x3E6E77DB;
   0xAED16A4A; 0xD9D65ADC; 0x40DF0B66; 0x37D83BF0; 0xA9BCAE53; 0xDEBB9EC5; 0x47B2CF7F; 0x30B5FFE9;
   0xBDBDF21C; 0xCABAC28A; 0x53B39330; 0x24B4A3A6; 0xBAD03605; 0xCDD70693; 0x54DE5729; 0x23D967BF;
   0xB3667A2E; 0xC4614AB8; 0x5D681B02; 0x2A6F2B94; 0xB40BBE37; 0xC30C8EA1; 0x5A05DF1B; 0x2D02EF8D].

(** one round of the loop; the sign extension of [buffer\[i\]] is masked away by [& 0xff], so the
    byte is its value as an unsigned char *)
Definition crc_step (crc byte : Z) : option Z :=
  t ← crc_table !! Z.to_nat (Z.land (Z.lxor crc byte) 0xff); Some (Z.lxor t (Z.shiftr crc 8)).
Fixpoint crc_loop (crc : Z) (buffer : list Z) : option Z :=
  match buffer with
  | [] => Some crc
  | b :: buffer => crc ← crc_step crc b; crc_loop crc buffer
  end.
Definition crc32 (buffer : list Z) : option Z := crc_loop 0xffffffff buffer.

(** ** The shift register *)

Definition crc_polynomial : Z := 0xEDB88320.
Definition shift1 (x : Z) : Z := Z.lxor (Z.shiftr x 1) (if Z.odd x then crc_polynomial else 0).
Definition shift8 (x : Z) : Z := Nat.iter 8 shift1 x.
(** feed the bytes, the lowest bit first *)
Definition crc_bits (buffer : list Z) : Z := foldl (λ crc b, shift8 (Z.lxor crc b)) 0xffffffff buffer.

Definition is_byte (b : Z) : Prop := 0 ≤ b < 256.

Lemma shift1_lxor x y : shift1 (Z.lxor x y) = Z.lxor (shift1 x) (shift1 y).
Proof.
  unfold shift1. apply Z.bits_inj'. intros n Hn. rewrite <-!Z.bit0_odd, !Z.lxor_spec, !Z.shiftr_spec, !Z.lxor_spec by done.
  destruct (Z.testbit x 0), (Z.testbit y 0); cbn [xorb]; rewrite ?Z.bits_0; destruct (Z.testbit x (n + 1)), (Z.testbit y (n + 1)), (Z.testbit crc_polynomial n); done.
Qed.
Lemma shift8_lxor x y : shift8 (Z.lxor x y) = Z.lxor (shift8 x) (shift8 y).
Proof. unfold shift8. cbn [Nat.iter nat_rect]. by rewrite !shift1_lxor. Qed.

Lemma shift1_even x j k : 0 ≤ k → j = k + 1 → shift1 (Z.shiftl x j) = Z.shiftl x k.
Proof.
  intros Hk ->. unfold shift1. rewrite <-Z.bit0_odd, Z.shiftl_spec_low by lia. rewrite Z.lxor_0_r, Z.shiftr_shiftl_l by lia. f_equal. lia.
Qed.
Lemma shift8_high x : shift8 (Z.shiftl x 8) = x.
Proof.
  unfold shift8. cbn [Nat.iter nat_rect].
  rewrite (shift1_even x 8 7), (shift1_even x 7 6), (shift1_even x 6 5), (shift1_even x 5 4), (shift1_even x 4 3), (shift1_even x 3 2),
    (shift1_even x 2 1), (shift1_even x 1 0) by lia.
  apply Z.shiftl_0_r.
Qed.

Lemma low_high x : x = Z.lxor (Z.land x 0xff) (Z.shiftl (Z.shiftr x 8) 8).
Proof.
  change 0xff with (Z.ones 8). apply Z.bits_inj'. intros n Hn.
  rewrite Z.lxor_spec, Z.land_spec. destruct (decide (n < 8)).
  - rewrite Z.ones_spec_low, Z.shiftl_spec_low by lia. by rewrite andb_true_r, xorb_false_r.
  - rewrite Z.ones_spec_high, Z.shiftl_spec, Z.shiftr_spec by lia. rewrite andb_false_r, xorb_false_l. f_equal. lia.
Qed.

Lemma land_byte x : is_byte (Z.land x 0xff).
Proof. change 0xff with (Z.ones 8). rewrite Z.land_ones by lia. unfold is_byte. pose proof (Z.mod_pos_bound x (2 ^ 8)). lia. Qed.

Lemma crc_table_entry i : is_byte i → crc_table !! Z.to_nat i = Some (shift8 i).
Proof.
  intros Hi. assert (Hall : crc_table = map shift8 (seqZ 0 256)) by by vm_compute.
  rewrite Hall. unfold is_byte in Hi. rewrite list_lookup_fmap, lookup_seqZ_lt by lia.
  cbn [fmap option_fmap option_map]. do 2 f_equal. lia.
Qed.

Lemma crc_step_bits crc b : is_byte b → crc_step crc b = Some (shift8 (Z.lxor crc b)).
Proof.
  intros Hb. unfold crc_step. rewrite crc_table_entry by apply land_byte. cbn [mbind option_bind]. f_equal.
  rewrite (low_high (Z.lxor crc b)) at 2. rewrite shift8_lxor, shift8_high. f_equal.
  rewrite Z.shiftr_lxor. replace (Z.shiftr b 8) with 0; [by rewrite Z.lxor_0_r|].
  rewrite Z.shiftr_div_pow2 by lia. symmetry. apply Z.div_small. exact Hb.
Qed.

Lemma crc_loop_bits buffer : ∀ crc, Forall is_byte buffer →
  crc_loop crc buffer = Some (foldl (λ crc b, shift8 (Z.lxor crc b)) crc buffer).
Proof.
  induction buffer as [|b buffer IH]; intros crc Hb; [done|]. apply Forall_cons in Hb as [Hb Hbs].
  cbn [crc_loop]. rewrite crc_step_bits by done. by apply IH.
Qed.

(** ** Changes are detected *)

(** the top byte of an entry identifies it, so a step can be undone *)
Lemma shift8_inj i j : is_byte i → is_byte j → Z.shiftr (shift8 i) 24 = Z.shiftr (shift8 j) 24 → i = j.
Proof.
  intros Hi Hj Heq.
  assert (Hnd : NoDup (map (λ i, Z.shiftr (shift8 i) 24) (seqZ 0 256))) by (apply (bool_decide_unpack _); by vm_compute).
  assert (H : ∀ k, is_byte k → map (λ i, Z.shiftr (shift8 i) 24) (seqZ 0 256) !! Z.to_nat k = Some (Z.shiftr (shift8 k) 24)).
  { intros k Hk. unfold is_byte in Hk. rewrite list_lookup_fmap, lookup_seqZ_lt by lia. cbn [fmap option_fmap option_map].
    do 3 f_equal. unfold is_byte in Hk. lia. }
  pose proof (H i Hi) as Hli. rewrite Heq in Hli. pose proof (NoDup_lookup _ _ _ _ Hnd Hli (H j Hj)) as Hl. unfold is_byte in Hi, Hj. lia.
Qed.

Definition is_word (x : Z) : Prop := 0 ≤ x < 2 ^ 32.
#[export] Instance is_word_dec x : Decision (is_word x).
Proof. unfold is_word. apply _. Defined.

Lemma word_high x : is_word x → Z.shiftr (Z.shiftr x 8) 24 = 0.
Proof. intros Hx. rewrite Z.shiftr_shiftr by lia. rewrite Z.shiftr_div_pow2 by lia. apply Z.div_small. exact Hx. Qed.

Lemma lxor_byte crc b : is_byte b → Z.lxor crc b = Z.lxor (Z.land (Z.lxor crc b) 0xff) (Z.shiftl (Z.shiftr crc 8) 8).
Proof.
  intros Hb. rewrite (low_high (Z.lxor crc b)) at 1. f_equal. f_equal. rewrite Z.shiftr_lxor.
  replace (Z.shiftr b 8) with 0; [by rewrite Z.lxor_0_r|]. rewrite Z.shiftr_div_pow2 by lia. symmetry. apply Z.div_small. exact Hb.
Qed.

Lemma step_value crc b : is_byte b → shift8 (Z.lxor crc b) = Z.lxor (shift8 (Z.land (Z.lxor crc b) 0xff)) (Z.shiftr crc 8).
Proof. intros Hb. rewrite (lxor_byte crc b Hb) at 1. by rewrite shift8_lxor, shift8_high. Qed.

Lemma step_inj x y b c : is_word x → is_word y → is_byte b → is_byte c →
  shift8 (Z.lxor x b) = shift8 (Z.lxor y c) → Z.lxor x b = Z.lxor y c.
Proof.
  intros Hx Hy Hb Hc. rewrite (step_value x b Hb), (step_value y c Hc). intros Heq.
  assert (Hl : Z.land (Z.lxor x b) 0xff = Z.land (Z.lxor y c) 0xff).
  { apply shift8_inj; [apply land_byte..|]. apply (f_equal (λ z, Z.shiftr z 24)) in Heq.
    rewrite !Z.shiftr_lxor, !word_high, !Z.lxor_0_r in Heq by done. done. }
  rewrite (lxor_byte x b Hb), (lxor_byte y c Hc), Hl. rewrite Hl in Heq. assert (Z.shiftr x 8 = Z.shiftr y 8) as ->; [|done].
  apply (f_equal (Z.lxor (shift8 (Z.land (Z.lxor y c) 0xff)))) in Heq. by rewrite <-!Z.lxor_assoc, !Z.lxor_nilpotent, !Z.lxor_0_l in Heq.
Qed.

Lemma word_lxor x y : is_word x → is_word y → is_word (Z.lxor x y).
Proof.
  intros Hx Hy. assert (Hm : Z.lxor x y = Z.land (Z.lxor x y) (Z.ones 32)).
  { apply Z.bits_inj'. intros n Hn. rewrite Z.land_spec. destruct (decide (n < 32)); [by rewrite Z.ones_spec_low, andb_true_r by lia|].
    rewrite Z.ones_spec_high, andb_false_r by lia. rewrite Z.lxor_spec.
    assert (Hz : ∀ z, is_word z → Z.testbit z n = false).
    { intros z Hz. rewrite Z.testbit_false by lia. rewrite Z.div_small; [done|]. split; [apply Hz|].
      eapply Z.lt_le_trans; [apply Hz|]. apply Z.pow_le_mono_r; lia. }
    by rewrite !Hz. }
  rewrite Hm, Z.land_ones by lia. unfold is_word. apply Z.mod_pos_bound. lia.
Qed.
Lemma byte_word b : is_byte b → is_word b.
Proof. unfold is_byte, is_word. lia. Qed.
Lemma step_word x b : is_word x → is_byte b → is_word (shift8 (Z.lxor x b)).
Proof.
  intros Hx Hb. rewrite step_value by done. apply word_lxor.
  - assert (Hall : Forall (λ i, is_word (shift8 i)) (seqZ 0 256)) by (apply (bool_decide_unpack _); by vm_compute).
    rewrite Forall_forall in Hall. apply Hall. apply elem_of_seqZ. pose proof (land_byte (Z.lxor x b)). unfold is_byte in *. lia.
  - unfold is_word in *. rewrite Z.shiftr_div_pow2 by lia. split; [apply Z.div_pos; lia|]. apply Z.div_lt_upper_bound; lia.
Qed.

Lemma fold_inj bs : ∀ x y, Forall is_byte bs → is_word x → is_word y →
  foldl (λ crc b, shift8 (Z.lxor crc b)) x bs = foldl (λ crc b, shift8 (Z.lxor crc b)) y bs → x = y.
Proof.
  induction bs as [|b bs IH]; intros x y Hbs Hx Hy Heq; [done|]. apply Forall_cons in Hbs as [Hb Hbs]. cbn in Heq.
  apply IH in Heq; [|done|by apply step_word..]. apply step_inj in Heq; [|done..].
  apply (f_equal (λ z, Z.lxor z b)) in Heq. by rewrite !Z.lxor_assoc, !Z.lxor_nilpotent, !Z.lxor_0_r in Heq.
Qed.
Lemma fold_word bs : ∀ x, Forall is_byte bs → is_word x → is_word (foldl (λ crc b, shift8 (Z.lxor crc b)) x bs).
Proof.
  induction bs as [|b bs IH]; intros x Hbs Hx; [done|]. apply Forall_cons in Hbs as [Hb Hbs]. cbn. apply IH; [done|]. by apply step_word.
Qed.

Lemma crc32_bits bs : Forall is_byte bs → crc32 bs = Some (crc_bits bs).
Proof. apply crc_loop_bits. Qed.

Lemma word_ones : is_word 0xffffffff.
Proof. unfold is_word. lia. Qed.

Lemma crc_bits_word bs : Forall is_byte bs → is_word (crc_bits bs).
Proof. intros Hbs. apply fold_word; [done|apply word_ones]. Qed.

Lemma crc_bits_change pre post b c : Forall is_byte pre → Forall is_byte post → is_byte b → is_byte c →
  crc_bits (pre ++ b :: post) = crc_bits (pre ++ c :: post) → b = c.
Proof.
  unfold crc_bits. rewrite !foldl_app. cbn [foldl]. intros Hpre Hpost Hb Hc Heq.
  pose proof (fold_word pre _ Hpre word_ones) as Hw. revert Hw Heq. generalize (foldl (λ crc b, shift8 (Z.lxor crc b)) 0xffffffff pre).
  intros x Hx Heq. apply fold_inj in Heq; [|done|by apply step_word..].
  apply step_inj in Heq; [|done..]. apply (f_equal (Z.lxor x)) in Heq.
  by rewrite <-!Z.lxor_assoc, !Z.lxor_nilpotent, !Z.lxor_0_l in Heq.
Qed.

(** ** Properties *)

(** [C39] The checksum of a page. The table-driven loop never leaves the table and computes, for
    every sequence of bytes, the 32-bit value of the bitwise CRC with the polynomial
    0xEDB88320; and it changes whenever exactly one byte of the page changes, so such a
    change is always noticed. *)
Theorem crc32_detects (pre post : list Z) (b c : Z) :
  Forall is_byte (pre ++ b :: post) → is_byte c → b ≠ c →
  crc32 (pre ++ b :: post) = Some (crc_bits (pre ++ b :: post)) ∧ 0 ≤ crc_bits (pre ++ b :: post) < 2 ^ 32 ∧
  crc32 (pre ++ b :: post) ≠ crc32 (pre ++ c :: post).
Proof.
  intros Hall Hc Hne. pose proof Hall as [Hpre [Hb Hpost]%Forall_cons]%Forall_app.
  assert (Hall' : Forall is_byte (pre ++ c :: post)) by (apply Forall_app; split; [done|by constructor]).
  rewrite (crc32_bits _ Hall), (crc32_bits _ Hall'). split; [reflexivity|]. split; [exact (crc_bits_word _ Hall)|].
  intros Heq. apply Hne. injection Heq as Heq. exact (crc_bits_change _ _ _ _ Hpre Hpost Hb Hc Heq).
Qed.

Lemma crc32_detects_witness :
  crc32 ([1; 2] ++ 3 :: [4]) = Some (crc_bits ([1; 2] ++ 3 :: [4])) ∧ 0 ≤ crc_bits ([1; 2] ++ 3 :: [4]) < 2 ^ 32 ∧
  crc32 ([1; 2] ++ 3 :: [4]) ≠ crc32 ([1; 2] ++ 7 :: [4]).
Proof. apply crc32_detects; [repeat constructor; unfold is_byte; lia|unfold is_byte; lia|lia]. Defined.
