(* ===== verification/FrameManager.v ===== *)
(** * FrameManager: page frames in memory (storage/buffer/frame.cpp, deps/common/mm/mem_pool.h, BPFrameManager)

    A frame is a piece of memory, named by its address, that holds a page while a pin count
    says how many users it has. Frames come from a pool of fixed size and are found by their
    frame id through the cache of LruCache.v. Access times are only written and latches are
    a matter of scheduling; neither is modelled. *)
From S2P Require Import Prelude Types LruCache.

(** storage/buffer/page.h *)
Record Page := mkPage { p_lsn : LSN; p_check_sum : Z; p_data : list Z }.
(** a page of zeroes *)
Definition zero_page : Page := mkPage 0 0 (replicate (Z.to_nat BP_PAGE_DATA_SIZE) 0).

Abbreviation faddr := nat.
(** buffer pool id and page number *)
Abbreviation FrameId := (Z * PageNum)%type.

Record Frame := mkFrame { dirty_ : bool; pin_count_ : Z; frame_id_ : FrameId; page_ : Page }.
Definition new_frame : Frame := mkFrame false 0 (-1, -1) zero_page.

Definition fr_set_dirty (b : bool) (f : Frame) : Frame := mkFrame b (pin_count_ f) (frame_id_ f) (page_ f).
Definition fr_set_pin (n : Z) (f : Frame) : Frame := mkFrame (dirty_ f) n (frame_id_ f) (page_ f).
Definition fr_set_buffer_pool_id (id : Z) (f : Frame) : Frame := mkFrame (dirty_ f) (pin_count_ f) (id, (frame_id_ f).2) (page_ f).
Definition fr_set_page_num (pn : PageNum) (f : Frame) : Frame := mkFrame (dirty_ f) (pin_count_ f) ((frame_id_ f).1, pn) (page_ f).
Definition fr_set_page (p : Page) (f : Frame) : Frame := mkFrame (dirty_ f) (pin_count_ f) (frame_id_ f) p.
Definition fr_set_lsn (lsn : LSN) (f : Frame) : Frame := fr_set_page (mkPage lsn (p_check_sum (page_ f)) (p_data (page_ f))) f.
Definition fr_set_check_sum (c : Z) (f : Frame) : Frame := fr_set_page (mkPage (p_lsn (page_ f)) c (p_data (page_ f))) f.
Definition fr_set_data (d : list Z) (f : Frame) : Frame := fr_set_page (mkPage (p_lsn (page_ f)) (p_check_sum (page_ f)) d) f.
Definition fr_clear_page (f : Frame) : Frame := fr_set_page zero_page f.
Definition can_purge (f : Frame) : bool := pin_count_ f =? 0.

(** ** MemPoolSimple *)

Record MemPoolSimple := mkPool {
  pools : list faddr;           (** the first item of each block of memory *)
  used : gset faddr;
  frees : list faddr;
  pool_size : Z;
  dynamic : bool;
  item_num_per_pool : Z;
}.
Definition DEFAULT_ITEM_NUM_PER_POOL : Z := 128.
Definition new_pool : MemPoolSimple := mkPool [] ∅ [] 0 false 0.

(** [extend]: a new block behind the ones there are; [new] does not fail *)
Definition extend : M MemPoolSimple Z := λ p,
  if negb (dynamic p) then Some (-1, p)
  else
    let first := Z.to_nat (pool_size p) in
    Some (0, mkPool (pools p ++ [first]) (used p) (frees p ++ seq first (Z.to_nat (item_num_per_pool p)))
              (pool_size p + item_num_per_pool p) (dynamic p) (item_num_per_pool p)).
Definition pool_cleanup (p : MemPoolSimple) : MemPoolSimple :=
  match pools p with [] => p | _ => mkPool [] ∅ [] 0 (dynamic p) (item_num_per_pool p) end.
Fixpoint extend_n (n : nat) : M MemPoolSimple Z :=
  match n with
  | O => ret 0
  | S n => let* r := extend in if r <? 0 then modify pool_cleanup ;;; ret (-1) else extend_n n
  end.
Definition pool_init (dyn : bool) (pool_num items : Z) : M MemPoolSimple Z := λ p,
  match pools p with
  | _ :: _ => Some (0, p)
  | [] =>
      if (pool_num <=? 0) || (items <=? 0) then Some (-1, p)
      else
        (let* r := extend_n (Z.to_nat pool_num) in
         if r <? 0 then ret r
         else modify (λ p, mkPool (pools p) (used p) (frees p) (pool_size p) dyn (item_num_per_pool p)) ;;; ret 0)
        (mkPool (pools p) (used p) (frees p) (pool_size p) true items)
  end.
(** [alloc]; [None] is the null pointer *)
Definition pool_alloc : M MemPoolSimple (option faddr) :=
  let* p := get in
  let take : M MemPoolSimple (option faddr) := λ p,
    match frees p with
    | a :: fs => Some (Some a, mkPool (pools p) ({[a]} ∪ used p) fs (pool_size p) (dynamic p) (item_num_per_pool p))
    | [] => None
    end in
  match frees p with
  | [] => if negb (dynamic p) then ret None else let* r := extend in if r <? 0 then ret None else take
  | _ => take
  end.
(** [free]: an item that is not in use is reported and left alone *)
Definition pool_free (a : faddr) (p : MemPoolSimple) : MemPoolSimple :=
  if decide (a ∈ used p)
  then mkPool (pools p) (used p ∖ {[a]}) (frees p ++ [a]) (pool_size p) (dynamic p) (item_num_per_pool p)
  else p.

(** ** BPFrameManager *)

Record FrameMgr := mkFrameMgr {
  memory : gmap faddr Frame;
  frames_ : Lru FrameId faddr;
  allocator_ : MemPoolSimple;
}.

Definition on_frames {A} (c : M (Lru FrameId faddr) A) : M FrameMgr A := λ m,
  match c (frames_ m) with Some (a, l) => Some (a, mkFrameMgr (memory m) l (allocator_ m)) | None => None end.
Definition on_allocator {A} (c : M MemPoolSimple A) : M FrameMgr A := λ m,
  match c (allocator_ m) with Some (a, p) => Some (a, mkFrameMgr (memory m) (frames_ m) p) | None => None end.
Definition frame_at (a : faddr) : M FrameMgr Frame := λ m,
  match memory m !! a with Some f => Some (f, m) | None => None end.
Definition frame_upd (a : faddr) (g : Frame → Frame) : M FrameMgr unit := λ m,
  match memory m !! a with
  | Some f => Some (tt, mkFrameMgr (<[a := g f]> (memory m)) (frames_ m) (allocator_ m))
  | None => None
  end.

(** [init]: every item of the pool is a fresh frame *)
Definition frame_mgr_init (pool_num : Z) : RC * FrameMgr :=
  match pool_init false pool_num DEFAULT_ITEM_NUM_PER_POOL new_pool with
  | Some (0, p) => (SUCCESS, mkFrameMgr (list_to_map (map (λ a, (a, new_frame)) (frees p))) new_lru p)
  | _ => (NOMEM, mkFrameMgr ∅ new_lru new_pool)
  end.
Definition frame_mgr_cleanup : M FrameMgr RC :=
  let* m := get in
  if 0 <? count (frames_ m) then ret INTERNAL else on_frames destroy ;;; ret SUCCESS.
Definition frame_num (m : FrameMgr) : Z := count (frames_ m).
Definition total_frame_num (m : FrameMgr) : Z := pool_size (allocator_ m).

Definition pin (a : faddr) : M FrameMgr unit := frame_upd a (λ f, fr_set_pin (pin_count_ f + 1) f).
(** [Frame::unpin] asserts that the frame is pinned *)
Definition unpin (a : faddr) : M FrameMgr unit :=
  let* f := frame_at a in
  assertM (0 <? pin_count_ f) ;;;
  frame_upd a (λ f, fr_set_pin (pin_count_ f - 1) f).

Definition get_internal (id : FrameId) : M FrameMgr (option faddr) :=
  let* r := on_frames (lru_get id) in
  match r with
  | Some a => pin a ;;; ret (Some a)
  | None => ret None
  end.
Definition frame_get (buffer_pool_id : Z) (pn : PageNum) : M FrameMgr (option faddr) := get_internal (buffer_pool_id, pn).

Definition frame_alloc (buffer_pool_id : Z) (pn : PageNum) : M FrameMgr (option faddr) :=
  let* r := get_internal (buffer_pool_id, pn) in
  match r with
  | Some a => ret (Some a)
  | None =>
      let* r := on_allocator pool_alloc in
      match r with
      | None => ret None
      | Some a =>
          let* f := frame_at a in
          assertM (pin_count_ f =? 0) ;;;
          frame_upd a (fr_set_buffer_pool_id buffer_pool_id) ;;;
          frame_upd a (fr_set_page_num pn) ;;;
          pin a ;;;
          on_frames (lru_put (buffer_pool_id, pn) a) ;;;
          ret (Some a)
      end
  end.

Definition free_internal (id : FrameId) (a : faddr) : M FrameMgr RC :=
  let* r := on_frames (lru_get id) in
  let* f := frame_at a in
  assertM (bool_decide (r = Some a) && (pin_count_ f =? 1)) ;;;
  frame_upd a (fr_set_page_num (-1)) ;;;
  unpin a ;;;
  on_frames (lru_delete id) ;;;
  on_allocator (modify (pool_free a)) ;;;
  ret SUCCESS.
Definition frame_free (buffer_pool_id : Z) (pn : PageNum) (a : faddr) : M FrameMgr RC := free_internal (buffer_pool_id, pn) a.

(** [find_list]: pins and lists the frames of a buffer pool *)
Definition list_fetcher (buffer_pool_id : Z) (id : FrameId) (a : faddr) : M (FrameMgr * list faddr) bool := λ '(m, acc),
  if id.1 =? buffer_pool_id then
    match pin a m with Some (_, m) => Some (true, (m, acc ++ [a])) | None => None end
  else Some (true, (m, acc)).
Definition find_list (buffer_pool_id : Z) : M FrameMgr (list faddr) := λ m,
  match foreach (list_fetcher buffer_pool_id) (frames_ m) (m, []) with
  | Some (_, (m, acc)) => Some (acc, m)
  | None => None
  end.

(** the first half of [purge_frames]: pin up to [count] frames nobody uses, the oldest first *)
Definition purge_finder (count : Z) (id : FrameId) (a : faddr) : M (FrameMgr * list faddr) bool := λ '(m, acc),
  match memory m !! a with
  | None => None
  | Some f =>
      if can_purge f then
        match pin a m with
        | None => None
        | Some (_, m) => let acc := acc ++ [a] in Some (negb (count <=? len acc), (m, acc))
        end
      else Some (true, (m, acc))
  end.
Definition find_purgeable (count : Z) : M FrameMgr (list faddr) := λ m,
  let count := if count <=? 0 then 1 else count in
  match foreach_reverse (purge_finder count) (frames_ m) (m, []) with
  | Some (_, (m, acc)) => Some (acc, m)
  | None => None
  end.

(** the second half, over the state [W] that the purger works on *)
Section purge.
Context {W : Type} (on_mgr : ∀ A, M FrameMgr A → M W A) (purger : faddr → M W RC).
Fixpoint purge_loop (found : list faddr) (freed_count : Z) : M W Z :=
  match found with
  | [] => ret freed_count
  | a :: found =>
      let* rc := purger a in
      if bool_decide (SUCCESS = rc) then
        let* f := on_mgr _ (frame_at a) in
        on_mgr _ (free_internal (frame_id_ f) a) ;;;
        purge_loop found (freed_count + 1)
      else
        on_mgr _ (unpin a) ;;;
        purge_loop found freed_count
  end.
Definition purge_frames (count : Z) : M W Z :=
  let* found := on_mgr _ (find_purgeable count) in
  purge_loop found 0.
End purge.
