(* ===== verification/FrameSpec.v ===== *)
(** * FrameSpec: the frame manager is a map from frame ids to pinned pieces of memory

    [mgr_ok l m]: the cache of [m] holds the entries [l], every entry has a frame of its own,
    the frames in use are those of the cache and the others are free. *)
From S2P Require Import Prelude Types LruCache LruSpec FrameManager.

Abbreviation cache := (list (FrameId * faddr)).

Record mgr_ok (l : cache) (m : FrameMgr) : Prop := {
  mo_lru : represents l (frames_ m);
  mo_frame e : (e ∈ l) → ∃ f, memory m !! e.2 = Some f ∧ frame_id_ f = e.1;
  mo_pins a f : memory m !! a = Some f → 0 ≤ pin_count_ f;
  mo_addrs : NoDup (map snd l);
  mo_used : used (allocator_ m) = list_to_set (map snd l);
  mo_frees : NoDup (frees (allocator_ m));
  mo_free a : a ∈ frees (allocator_ m) → (a ∉ map snd l) ∧ ∃ f, memory m !! a = Some f ∧ pin_count_ f = 0;
  mo_fixed : dynamic (allocator_ m) = false;
}.

Lemma mgr_keys l m : mgr_ok l m → NoDup (map fst l).
Proof. intros Hok. destruct (mo_lru _ _ Hok) as (es & Hr & ->). rewrite keys_snd. apply (lr_keys _ _ Hr). Qed.

(** the frame of an id, if it is cached *)
Definition cached (l : cache) (i : FrameId) : option faddr := find i l.

Lemma cached_elem l m i a : mgr_ok l m → cached l i = Some a ↔ (i, a) ∈ l.
Proof. intros Hok. apply find_elem. by eapply mgr_keys. Qed.

Lemma cached_frame l m i a : mgr_ok l m → cached l i = Some a →
  ∃ f, memory m !! a = Some f ∧ frame_id_ f = i ∧ 0 ≤ pin_count_ f.
Proof.
  intros Hok Hc. apply (cached_elem _ _ _ _ Hok) in Hc. destruct (mo_frame _ _ Hok (i, a) Hc) as (f & Hf & Hi).
  exists f. split; [done|]. split; [done|]. by eapply mo_pins.
Qed.

Lemma cached_inj l m i j a : mgr_ok l m → cached l i = Some a → cached l j = Some a → i = j.
Proof.
  intros Hok Hi Hj. destruct (cached_frame _ _ _ _ Hok Hi) as (f & Hf & <- & _).
  destruct (cached_frame _ _ _ _ Hok Hj) as (f' & Hf' & <- & _). congruence.
Qed.

Lemma cached_perm l l' m i : mgr_ok l m → l ≡ₚ l' → cached l i = cached l' i.
Proof.
  intros Hok Hp. pose proof (mgr_keys _ _ Hok) as Hnd. assert (Hnd' : NoDup (map fst l')) by by rewrite <-Hp.
  apply option_eq. intros a. unfold cached. rewrite !find_elem by done. by rewrite Hp.
Qed.

(** moving an entry to the front changes nothing that is looked up *)
Lemma touched_perm (l : cache) i a : NoDup (map fst l) → find i l = Some a → (i, a) :: without i l ≡ₚ l.
Proof.
  intros Hnd Hf. apply find_elem in Hf; [|done]. apply list_elem_of_split in Hf as (l1 & l2 & ->).
  assert (Hw : without i (l1 ++ (i, a) :: l2) = l1 ++ l2); [|rewrite Hw; by rewrite Permutation_middle].
  unfold without. rewrite filter_app, filter_cons. cbn [fst]. rewrite decide_False by (by intros []).
  rewrite <-filter_app. apply list_filter_all.
  rewrite map_app in Hnd. cbn in Hnd. apply NoDup_app in Hnd as (_ & Hd & [Hn _]%NoDup_cons).
  apply Forall_forall. intros [j b] Hin Hj. cbn in Hj. subst j. apply elem_of_app in Hin as [Hin|Hin].
  - apply (Hd i); [apply list_elem_of_fmap; by exists (i, b)|left].
  - apply Hn. apply list_elem_of_fmap. by exists (i, b).
Qed.

Lemma find_perm (l l' : cache) i : NoDup (map fst l) → l ≡ₚ l' → find i l = find i l'.
Proof.
  intros Hnd Hp. assert (Hnd' : NoDup (map fst l')) by by rewrite <-Hp.
  apply option_eq. intros a. rewrite !find_elem by done. by rewrite Hp.
Qed.

(** an operation that only pins frames and reorders the cache *)
Lemma mgr_ok_same l l' m s mem :
  mgr_ok l m → represents l' s → l' ≡ₚ l →
  (∀ a, match memory m !! a, mem !! a with
        | Some f, Some f' => frame_id_ f' = frame_id_ f ∧ 0 ≤ pin_count_ f' ∧ (a ∉ map snd l → pin_count_ f' = pin_count_ f)
        | None, None => True
        | _, _ => False
        end) →
  mgr_ok l' (mkFrameMgr mem s (allocator_ m)).
Proof.
  intros [Hr Hf Hpi Ha Hu Hnd Hfr Hd] Hr' Hp Hm. constructor; cbn [frames_ memory allocator_]; try done.
  - intros e He. rewrite Hp in He. destruct (Hf e He) as (f & Hf1 & Hf2). specialize (Hm e.2). rewrite Hf1 in Hm.
    destruct (mem !! e.2) as [f'|] eqn:E; [|done]. destruct Hm as (Hm & _). exists f'. split; [done|congruence].
  - intros a f Hf'. specialize (Hm a). rewrite Hf' in Hm. destruct (memory m !! a); [|done]. apply Hm.
  - by rewrite Hp.
  - rewrite Hu. by rewrite Hp.
  - intros a Hin. destruct (Hfr a Hin) as (Hn & f & Hf1 & Hf2). rewrite Hp. split; [done|]. specialize (Hm a). rewrite Hf1 in Hm.
    destruct (mem !! a) as [f'|] eqn:E; [|done]. destruct Hm as (_ & _ & Hm). exists f'. split; [done|]. rewrite Hm; done.
Qed.

(** ** The operations *)

(** what [pin] does to the memory *)
Definition repin (a : faddr) (n : Z) (mem : gmap faddr Frame) : gmap faddr Frame := alter (λ f, fr_set_pin (pin_count_ f + n) f) a mem.

Lemma pin_ok a m f : memory m !! a = Some f → pin a m = Some (tt, mkFrameMgr (repin a 1 (memory m)) (frames_ m) (allocator_ m)).
Proof.
  intros Hf. unfold pin, frame_upd. rewrite Hf. do 3 f_equal. unfold repin. apply map_eq. intros b. destruct (decide (b = a)) as [->|].
  - by rewrite lookup_insert_eq, lookup_alter_eq, Hf.
  - by rewrite lookup_insert_ne, lookup_alter_ne.
Qed.
Lemma unpin_ok a m f : memory m !! a = Some f → 0 < pin_count_ f →
  unpin a m = Some (tt, mkFrameMgr (repin a (-1) (memory m)) (frames_ m) (allocator_ m)).
Proof.
  intros Hf Hp. unfold unpin, frame_at. unfold bind at 1. rewrite Hf. rewrite bind_assertM by by apply Z.ltb_lt.
  unfold frame_upd. rewrite Hf. do 3 f_equal. unfold repin. apply map_eq. intros b. destruct (decide (b = a)) as [->|].
  - rewrite lookup_insert_eq, lookup_alter_eq, Hf. cbn. do 2 f_equal.
  - by rewrite lookup_insert_ne, lookup_alter_ne.
Qed.

Lemma repin_lookup a n mem b f : mem !! b = Some f →
  repin a n mem !! b = Some (if decide (b = a) then fr_set_pin (pin_count_ f + n) f else f).
Proof.
  intros Hb. unfold repin. case_decide; [subst; by rewrite lookup_alter_eq, Hb|by rewrite lookup_alter_ne].
Qed.

Lemma mgr_ok_repin l l' m s a n f :
  mgr_ok l m → represents l' s → l' ≡ₚ l → memory m !! a = Some f → a ∈ map snd l → 0 ≤ pin_count_ f + n →
  mgr_ok l' (mkFrameMgr (repin a n (memory m)) s (allocator_ m)).
Proof.
  intros Hok Hr Hp Hf Ha Hn. eapply mgr_ok_same; [done|done|done|]. intros b.
  destruct (memory m !! b) as [g|] eqn:E.
  - rewrite (repin_lookup a n _ _ _ E). case_decide as Hb; [subst|split; [done|]; split; [by eapply mo_pins|done]].
    assert (g = f) as -> by congruence. split; [done|]. split; [exact Hn|]. done.
  - unfold repin. destruct (decide (b = a)) as [->|]; [congruence|]. by rewrite lookup_alter_ne, E.
Qed.

(** ** get, alloc, free *)

(** looking up pins the frame *)
Lemma get_internal_ok l m i : mgr_ok l m →
  ∃ l' m', get_internal i m = Some (cached l i, m') ∧ mgr_ok l' m' ∧ l' ≡ₚ l ∧ allocator_ m' = allocator_ m ∧
    memory m' = match cached l i with Some a => repin a 1 (memory m) | None => memory m end.
Proof.
  intros Hok. destruct (lru_get_ok l (frames_ m) i (mo_lru _ _ Hok)) as (s & E & Hr).
  unfold get_internal. assert (E1 : on_frames (lru_get i) m = Some (cached l i, mkFrameMgr (memory m) s (allocator_ m))).
  { unfold on_frames. rewrite E. unfold spec_get, cached. by destruct (find i l). }
  rewrite (bind_eq _ _ _ _ _ E1). unfold spec_get in Hr. unfold cached in *. destruct (find i l) as [a|] eqn:Ef; cbn [fst snd] in *.
  - destruct (cached_frame l m i a Hok Ef) as (f & Hf & Hi & Hpin).
    rewrite (bind_eq _ _ _ _ _ (pin_ok a (mkFrameMgr (memory m) s (allocator_ m)) f Hf)).
    pose proof (touched_perm l i a (mgr_keys _ _ Hok) Ef) as Hp.
    exists ((i, a) :: without i l). eexists. split; [done|]. split; [|done].
    apply (mgr_ok_repin l _ m s a 1 f); [done|done|done|done| |lia].
    apply list_elem_of_fmap. exists (i, a). split; [done|]. by apply (cached_elem _ _ _ _ Hok).
  - exists l. eexists. split; [done|]. split; [|done]. by destruct Hok; constructor.
Qed.

Lemma pool_alloc_ok m : dynamic (allocator_ m) = false →
  on_allocator pool_alloc m = Some (match frees (allocator_ m) with
    | [] => (None, m)
    | a :: fs => (Some a, mkFrameMgr (memory m) (frames_ m) (mkPool (pools (allocator_ m)) ({[a]} ∪ used (allocator_ m)) fs
                            (pool_size (allocator_ m)) (dynamic (allocator_ m)) (item_num_per_pool (allocator_ m))))
    end).
Proof.
  intros Hd. unfold on_allocator, pool_alloc. rewrite bind_get. destruct (frees (allocator_ m)) eqn:E.
  - rewrite Hd. cbn. by destruct m.
  - by rewrite E.
Qed.

(** a frame that was free gets the id *)
Lemma frame_alloc_ok l m i : mgr_ok l m →
  match cached l i, frees (allocator_ m) with
  | Some a, _ => ∃ l' m', frame_alloc i.1 i.2 m = Some (Some a, m') ∧ mgr_ok l' m' ∧ l' ≡ₚ l ∧ allocator_ m' = allocator_ m ∧ memory m' = repin a 1 (memory m)
  | None, [] => ∃ l' m', frame_alloc i.1 i.2 m = Some (None, m') ∧ mgr_ok l' m' ∧ l' ≡ₚ l ∧ allocator_ m' = allocator_ m ∧ memory m' = memory m
  | None, a :: fs => ∃ f l' m', frame_alloc i.1 i.2 m = Some (Some a, m') ∧ memory m !! a = Some f ∧
      mgr_ok l' m' ∧ l' ≡ₚ (i, a) :: l ∧ frees (allocator_ m') = fs ∧ memory m' = <[a := mkFrame (dirty_ f) 1 i (page_ f)]> (memory m)
  end.
Proof.
  intros Hok. destruct i as [b pn]. cbn [fst snd]. unfold frame_alloc.
  destruct (get_internal_ok l m (b, pn) Hok) as (l1 & m1 & E & Hok1 & Hp1 & Hal & Hmem).
  rewrite (bind_eq _ _ _ _ _ E). destruct (cached l (b, pn)) as [a|] eqn:Ec.
  { exists l1, m1. done. }
  assert (Hc1 : cached l1 (b, pn) = None).
  { unfold cached. rewrite <-Ec. symmetry. apply find_perm; [by eapply mgr_keys|done]. }
  pose proof (pool_alloc_ok m1 (mo_fixed _ _ Hok1)) as Ea. rewrite Hal in Ea.
  destruct (frees (allocator_ m)) as [|a fs] eqn:Efr; rewrite (bind_eq _ _ _ _ _ Ea); [by exists l1, m1|].
  assert (Hin : a ∈ frees (allocator_ m1)) by (rewrite Hal, Efr; left).
  destruct (mo_free _ _ Hok1 a Hin) as (Hna & f & Hf & Hpin).
  unfold frame_at, bind at 1. cbn [memory]. rewrite Hf. rewrite bind_assertM by by apply Z.eqb_eq.
  unfold frame_upd. unfold bind at 1. cbn [memory frames_ allocator_]. rewrite Hf.
  unfold bind at 1. cbn [memory frames_ allocator_]. rewrite lookup_insert_eq, insert_insert_eq.
  match goal with |- context [bind (pin a) _ ?st] => set (m2 := st) end.
  assert (Hp2 : memory m2 !! a = Some (fr_set_page_num pn (fr_set_buffer_pool_id b f))) by (cbn; apply lookup_insert_eq).
  rewrite (bind_eq _ _ _ _ _ (pin_ok a m2 _ Hp2)).
  destruct (lru_put_ok l1 (frames_ m1) (b, pn) a (mo_lru _ _ Hok1)) as (s & Es & Hrs).
  unfold on_frames, bind. cbn [frames_ m2]. rewrite Es. cbn [memory allocator_].
  exists f, ((b, pn, a) :: l1). eexists. split; [done|]. split; [by rewrite <-Hmem|].
  assert (Hmm : repin a 1 (<[a:=fr_set_page_num pn (fr_set_buffer_pool_id b f)]> (memory m1)) = <[a:=mkFrame (dirty_ f) 1 (b, pn) (page_ f)]> (memory m1)).
  { unfold repin. apply map_eq. intros c. destruct (decide (c = a)) as [->|].
    - rewrite lookup_alter_eq, !lookup_insert_eq. cbn. rewrite Hpin. done.
    - by rewrite lookup_alter_ne, !lookup_insert_ne. }
  rewrite <-Hmem. split; [|split; [by rewrite Hp1|split; [done|exact Hmm]]].
  assert (Hkl : (b, pn) ∉ map fst l1) by by apply find_None.
  unfold spec_put in Hrs. rewrite without_absent in Hrs by done.
  cbn [m2 memory]. rewrite Hmm. destruct Hok1 as [Hr1 Hf1 Hpi1 Ha1 Hu1 Hnd1 Hfr1 Hd1].
  constructor; cbn [frames_ memory allocator_ used frees dynamic]; try done.
  - intros e [->|He]%elem_of_cons.
    + eexists. cbn. rewrite lookup_insert_eq. done.
    + destruct (Hf1 e He) as (g & Hg & Hi). exists g. rewrite lookup_insert_ne; [done|]. intros Heq. apply Hna. rewrite Heq.
      apply list_elem_of_fmap. by exists e.
  - intros c g. destruct (decide (c = a)) as [->|]; [rewrite lookup_insert_eq; intros [= <-]; cbn; lia|].
    rewrite lookup_insert_ne by done. apply Hpi1.
  - cbn. by apply NoDup_cons.
  - cbn. by rewrite <-Hal, Hu1.
  - rewrite Hal, Efr in Hnd1. by apply NoDup_cons in Hnd1 as [_ ?].
  - intros c Hc. rewrite Hal, Efr in Hnd1, Hfr1. apply NoDup_cons in Hnd1 as [Hnc _].
    destruct (Hfr1 c) as (Hnl & g & Hg & Hg0); [by right|]. split.
    + cbn. apply not_elem_of_cons. split; [|done]. by intros ->.
    + exists g. rewrite lookup_insert_ne; [done|]. by intros ->.
  - cbn. by rewrite <-Hal.
Qed.

(** freeing a frame that only the caller has pinned *)
Lemma free_internal_ok l m i a f : mgr_ok l m → cached l i = Some a → memory m !! a = Some f → pin_count_ f = 1 →
  ∃ l' m', free_internal i a m = Some (SUCCESS, m') ∧ mgr_ok l' m' ∧ l ≡ₚ (i, a) :: l' ∧
    memory m' = <[a := mkFrame (dirty_ f) 0 (i.1, -1) (page_ f)]> (memory m) ∧
    frees (allocator_ m') = frees (allocator_ m) ++ [a].
Proof.
  intros Hok Hc Hf Hpin. destruct (lru_get_ok l (frames_ m) i (mo_lru _ _ Hok)) as (s & E & Hr).
  pose proof (cached_frame _ _ _ _ Hok Hc) as (f' & Hf' & Hi & _). assert (f' = f) as -> by congruence. clear Hf'.
  unfold free_internal, on_frames. unfold bind at 1. rewrite E. unfold spec_get in *. unfold cached in Hc. rewrite Hc in *. cbn [fst snd] in *.
  unfold frame_at, bind at 1. cbn [memory]. rewrite Hf. rewrite bind_assertM by (rewrite bool_decide_eq_true_2 by done; by rewrite Hpin).
  unfold frame_upd. unfold bind at 1. cbn [memory frames_ allocator_]. rewrite Hf.
  match goal with |- context [bind (unpin a) _ ?st] => set (m2 := st) end.
  assert (Hp2 : memory m2 !! a = Some (fr_set_page_num (-1) f)) by (cbn; apply lookup_insert_eq).
  rewrite (bind_eq _ _ _ _ _ (unpin_ok a m2 _ Hp2 ltac:(cbn; lia))).
  destruct (lru_delete_ok _ s i Hr) as (s' & E' & Hr'). unfold bind at 1. cbn [frames_ m2]. rewrite E'.
  unfold bind, on_allocator, modify. cbn [memory frames_ allocator_ m2].
  pose proof (touched_perm l i a (mgr_keys _ _ Hok) Hc) as Hp.
  assert (Hw : without i ((i, a) :: without i l) = without i l).
  { unfold without. rewrite filter_cons. cbn [fst]. rewrite decide_False by (by intros []). by rewrite list_filter_filter_l. }
  rewrite Hw in Hr'.
  assert (Hmm : repin a (-1) (<[a:=fr_set_page_num (-1) f]> (memory m)) = <[a:=mkFrame (dirty_ f) 0 (i.1, -1) (page_ f)]> (memory m)).
  { unfold repin. apply map_eq. intros c. destruct (decide (c = a)) as [->|].
    - rewrite lookup_alter_eq, !lookup_insert_eq. cbn. rewrite Hpin. unfold fr_set_pin, fr_set_page_num. cbn. by rewrite Hi.
    - by rewrite lookup_alter_ne, !lookup_insert_ne. }
  destruct Hok as [_ Hf1 Hpi1 Ha1 Hu1 Hnd1 Hfr1 Hd1].
  assert (Hna : NoDup (a :: map snd (without i l))). { change (NoDup (map snd ((i, a) :: without i l))). by rewrite Hp. }
  apply NoDup_cons in Hna as [Hna Hnd'].
  assert (Hused : used (allocator_ m) = {[a]} ∪ list_to_set (map snd (without i l))).
  { rewrite Hu1. transitivity (list_to_set (map snd ((i, a) :: without i l)) : gset nat); [by rewrite Hp|done]. }
  exists (without i l). eexists. split; [done|]. cbn [memory allocator_ frees]. unfold pool_free. rewrite decide_True by (rewrite Hused; set_solver).
  split; [|split; [by rewrite Hp|by split]]. rewrite Hmm.
  assert (Hsub : ∀ e, e ∈ without i l → e ∈ l) by (intros e He; rewrite <-Hp; by right).
  constructor; cbn [frames_ memory allocator_ used frees dynamic]; try done.
  - intros e He. destruct (Hf1 e (Hsub e He)) as (g & Hg & Hgi). exists g. rewrite lookup_insert_ne; [done|]. intros Heq. apply Hna. rewrite Heq.
    apply list_elem_of_fmap. by exists e.
  - intros c g. destruct (decide (c = a)) as [->|]; [rewrite lookup_insert_eq; intros [= <-]; cbn; lia|].
    rewrite lookup_insert_ne by done. apply Hpi1.
  - rewrite Hused. set_solver.
  - apply NoDup_app. split; [done|]. split; [|by apply NoDup_singleton]. intros c Hcf ->%list_elem_of_singleton.
    destruct (Hfr1 a Hcf) as [Hn _]. apply Hn. apply list_elem_of_fmap. exists (i, a). split; [done|]. rewrite <-Hp. left.
  - intros c Hcf. apply elem_of_app in Hcf as [Hcf| ->%list_elem_of_singleton].
    + destruct (Hfr1 c Hcf) as (Hn & g & Hg & Hg0). split.
      * intros (e & -> & He)%list_elem_of_fmap. apply Hn, list_elem_of_fmap. exists e. auto.
      * exists g. rewrite lookup_insert_ne; [done|]. intros <-. apply Hn, list_elem_of_fmap. exists (i, a). split; [done|]. rewrite <-Hp. left.
    + split; [done|]. eexists. rewrite lookup_insert_eq. done.
Qed.

(** ** Unpinning, and looking for a victim *)

Lemma unpin_cached l m i a f : mgr_ok l m → cached l i = Some a → memory m !! a = Some f → 0 < pin_count_ f →
  ∃ m', unpin a m = Some (tt, m') ∧ mgr_ok l m' ∧ memory m' = repin a (-1) (memory m) ∧ allocator_ m' = allocator_ m.
Proof.
  intros Hok Hc Hf Hp. rewrite (unpin_ok a m f Hf Hp). eexists. split; [done|]. split; [|done].
  apply (mgr_ok_repin l l m _ a (-1) f); [done|apply (mo_lru _ _ Hok)|done|done| |lia].
  apply list_elem_of_fmap. exists (i, a). split; [done|]. by apply (cached_elem _ _ _ _ Hok).
Qed.

(** frames nobody has pinned *)
Definition purgeable (m : FrameMgr) (a : faddr) : Prop := ∃ f, memory m !! a = Some f ∧ pin_count_ f = 0.

Lemma purge_finder_ok l m es : mgr_ok l m → (∀ e, e ∈ es → e ∈ l) →
  (∃ i a m', spec_foreach (purge_finder 1) es (m, []) = Some (tt, (m', [a])) ∧ (i, a) ∈ es ∧ purgeable m a ∧
     m' = mkFrameMgr (repin a 1 (memory m)) (frames_ m) (allocator_ m)) ∨
  (spec_foreach (purge_finder 1) es (m, []) = Some (tt, (m, [])) ∧ ∀ i a, (i, a) ∈ es → ¬ purgeable m a).
Proof.
  intros Hok. induction es as [|[i a] es IH]; intros Hsub.
  { right. split; [done|]. intros i a Hin. by apply elem_of_nil in Hin. }
  destruct (mo_frame _ _ Hok (i, a)) as (f & Hf & Hi); [apply Hsub; left|]. cbn [fst snd] in *.
  cbn [spec_foreach fst snd]. unfold bind, purge_finder at 1 3. rewrite Hf. unfold can_purge. destruct (pin_count_ f =? 0) eqn:E; zbool.
  - left. exists i, a. rewrite (pin_ok a m f Hf). eexists. split; [done|]. split; [left|]. split; [by exists f|done].
  - destruct IH as [(j & b & m' & E' & Hin & Hp & Hm)|[E' Hno]]; [intros e He; apply Hsub; by right| |].
    + left. exists j, b, m'. split; [done|]. split; [by right|done].
    + right. split; [done|]. intros j b [[= -> ->]|Hin]%elem_of_cons; [|by apply (Hno j)]. intros (g & Hg & Hg0). congruence.
Qed.

Lemma find_purgeable_ok l m : mgr_ok l m →
  (∃ i a f m', find_purgeable 1 m = Some ([a], m') ∧ cached l i = Some a ∧ memory m !! a = Some f ∧ pin_count_ f = 0 ∧
     mgr_ok l m' ∧ memory m' = repin a 1 (memory m) ∧ allocator_ m' = allocator_ m) ∨
  (find_purgeable 1 m = Some ([], m) ∧ ∀ i a, cached l i = Some a → ¬ purgeable m a).
Proof.
  intros Hok. unfold find_purgeable. cbn [Z.leb Z.compare].
  destruct (foreach_ok (purge_finder 1) l (frames_ m) (m, []) (mo_lru _ _ Hok)) as (_ & E & _). rewrite E. clear E.
  destruct (purge_finder_ok l m (reverse l) Hok) as [(i & a & m' & E & Hin & (f & Hf & Hp) & Hm)|[E Hno]].
  - intros e. by rewrite elem_of_reverse.
  - left. rewrite elem_of_reverse in Hin. exists i, a, f, m'. rewrite E. split; [done|].
    split; [by apply (cached_elem _ _ _ _ Hok)|]. split; [done|]. split; [done|]. split; [|by rewrite Hm]. rewrite Hm.
    apply (mgr_ok_repin l l m _ a 1 f); [done|apply (mo_lru _ _ Hok)|done|done| |lia]. apply list_elem_of_fmap. by exists (i, a).
  - right. rewrite E. split; [done|]. intros i a Hc. apply (Hno i). rewrite elem_of_reverse. by apply (cached_elem _ _ _ _ Hok).
Qed.

(** listing the frames of a pool pins each of them *)
Definition pin_all (found : list faddr) (mem : gmap faddr Frame) : gmap faddr Frame := foldl (λ mem a, repin a 1 mem) mem found.
Definition of_pool (b : Z) (l : cache) : list faddr := map snd (filter (λ e, e.1.1 = b) l).

Lemma list_fetcher_ok b es : ∀ mem s al acc,
  (∀ e, e ∈ es → is_Some (mem !! e.2)) →
  spec_foreach (list_fetcher b) es (mkFrameMgr mem s al, acc) =
    Some (tt, (mkFrameMgr (pin_all (of_pool b es) mem) s al, acc ++ of_pool b es)).
Proof.
  induction es as [|[i a] es IH]; intros mem s al acc Hm; [cbn; by rewrite app_nil_r|].
  cbn [spec_foreach fst snd]. unfold bind, list_fetcher at 1. unfold of_pool. rewrite filter_cons. cbn [fst snd].
  destruct (i.1 =? b) eqn:E; zbool.
  - rewrite decide_True by done. destruct (Hm (i, a)) as [f Hf]; [left|]. rewrite (pin_ok a (mkFrameMgr mem s al) f Hf). cbn [memory frames_ allocator_].
    rewrite IH; [cbn; by rewrite <-app_assoc|]. intros e He. unfold repin. apply lookup_alter_is_Some. apply Hm. by right.
  - rewrite decide_False by done. rewrite IH; [done|]. intros e He. apply Hm. by right.
Qed.

Lemma mgr_ok_pin_all l m found : mgr_ok l m → (∀ a, a ∈ found → a ∈ map snd l) →
  mgr_ok l (mkFrameMgr (pin_all found (memory m)) (frames_ m) (allocator_ m)).
Proof.
  revert m. induction found as [|a found IH]; intros m Hok Hin; [by destruct m|]. cbn [pin_all foldl].
  assert (Ha : a ∈ map snd l) by (apply Hin; left). pose proof Ha as ([i a'] & -> & He)%list_elem_of_fmap. cbn [snd] in *.
  destruct (mo_frame _ _ Hok _ He) as (f & Hf & _). cbn [snd] in Hf.
  apply (IH (mkFrameMgr (repin a' 1 (memory m)) (frames_ m) (allocator_ m))).
  - apply (mgr_ok_repin l l m _ a' 1 f); [done|apply (mo_lru _ _ Hok)|done|done|done|]. pose proof (mo_pins _ _ Hok _ _ Hf). lia.
  - intros c Hc. apply Hin. by right.
Qed.

Lemma find_list_ok l m b : mgr_ok l m →
  ∃ m', find_list b m = Some (of_pool b l, m') ∧ mgr_ok l m' ∧ memory m' = pin_all (of_pool b l) (memory m) ∧ allocator_ m' = allocator_ m.
Proof.
  intros Hok. unfold find_list. destruct (foreach_ok (list_fetcher b) l (frames_ m) (m, []) (mo_lru _ _ Hok)) as (E & _ & _). rewrite E.
  destruct m as [mem s al]. rewrite list_fetcher_ok.
  2:{ intros e He. destruct (mo_frame _ _ Hok e He) as (f & Hf & _). by exists f. }
  eexists. split; [done|]. split; [|done]. apply (mgr_ok_pin_all l (mkFrameMgr mem s al) _ Hok).
  intros a (e & -> & [_ He]%list_elem_of_filter)%list_elem_of_fmap. apply list_elem_of_fmap. by exists e.
Qed.

Lemma pin_all_lookup found : ∀ mem a f, NoDup found → mem !! a = Some f →
  pin_all found mem !! a = Some (if decide (a ∈ found) then fr_set_pin (pin_count_ f + 1) f else f).
Proof.
  induction found as [|b found IH]; intros mem a f Hnd Hf; [by rewrite decide_False by apply not_elem_of_nil|].
  apply NoDup_cons in Hnd as [Hb Hnd]. cbn [pin_all foldl]. destruct (decide (a = b)) as [->|Hne].
  - fold (pin_all found (repin b 1 mem)). rewrite (IH _ b (fr_set_pin (pin_count_ f + 1) f)); [|done|].
    + rewrite decide_False by done. by rewrite decide_True by left.
    + rewrite (repin_lookup b 1 _ _ _ Hf). by rewrite decide_True.
  - fold (pin_all found (repin b 1 mem)). rewrite (IH _ a f); [|done|].
    + destruct (decide (a ∈ found)); [by rewrite decide_True by by right|]. rewrite decide_False; [done|]. by intros [?|?]%elem_of_cons.
    + rewrite (repin_lookup b 1 _ _ _ Hf). by rewrite decide_False.
Qed.

(** ** The pin counts of the pages in memory *)

Definition pins (l : cache) (mem : gmap faddr Frame) (i : FrameId) : option Z :=
  a ← cached l i; f ← mem !! a; Some (pin_count_ f).

Lemma pins_Some l m i n : mgr_ok l m → pins l (memory m) i = Some n ↔ ∃ a f, cached l i = Some a ∧ memory m !! a = Some f ∧ pin_count_ f = n.
Proof.
  intros Hok. unfold pins. destruct (cached l i) as [a|] eqn:E; cbn; [|naive_solver].
  destruct (cached_frame l m i a Hok E) as (f & Hf & _). rewrite Hf. cbn. naive_solver.
Qed.
Lemma pins_None l m i : mgr_ok l m → pins l (memory m) i = None ↔ cached l i = None.
Proof.
  intros Hok. unfold pins. destruct (cached l i) as [a|] eqn:E; cbn; [|done].
  destruct (cached_frame l m i a Hok E) as (f & Hf & _). by rewrite Hf.
Qed.

(** the manager right after [init] *)
Lemma extend_n_ok items n : 0 < items → ∀ p k,
  dynamic p = true → item_num_per_pool p = items → pool_size p = k * items → 0 ≤ k →
  frees p = seq 0 (Z.to_nat (k * items)) → used p = ∅ →
  ∃ p', extend_n n p = Some (0, p') ∧ dynamic p' = true ∧ item_num_per_pool p' = items ∧ used p' = ∅ ∧
    frees p' = seq 0 (Z.to_nat ((k + Z.of_nat n) * items)).
Proof.
  intros Hi. induction n as [|n IH]; intros p k Hd Hit Hsz Hk Hf Hu; cbn [extend_n].
  - exists p. rewrite Z.add_0_r. done.
  - unfold extend at 1, bind at 1. rewrite Hd. cbn [negb Z.ltb Z.compare].
    destruct (IH (mkPool (pools p ++ [Z.to_nat (pool_size p)]) (used p) (frees p ++ seq (Z.to_nat (pool_size p)) (Z.to_nat (item_num_per_pool p)))
      (pool_size p + item_num_per_pool p) true (item_num_per_pool p)) (k + 1)) as (p' & E & Hp'); cbn; try done; try lia.
    + rewrite Hf, Hit, Hsz. rewrite Z.mul_add_distr_r, Z.mul_1_l, Z2Nat.inj_add by nia. rewrite seq_app. done.
    + exists p'. split; [exact E|]. by replace (k + Z.of_nat (S n)) with (k + 1 + Z.of_nat n) by lia.
Qed.

Lemma frame_mgr_init_ok pool_num : 0 < pool_num →
  ∃ m, frame_mgr_init pool_num = (SUCCESS, m) ∧ mgr_ok [] m ∧ length (frees (allocator_ m)) = Z.to_nat (pool_num * DEFAULT_ITEM_NUM_PER_POOL).
Proof.
  intros Hn. unfold frame_mgr_init, pool_init. cbn [pools new_pool]. rewrite (proj2 (Z.leb_gt _ _)) by lia. cbn [orb Z.leb Z.compare DEFAULT_ITEM_NUM_PER_POOL used frees pool_size].
  destruct (extend_n_ok 128 (Z.to_nat pool_num) ltac:(lia) (mkPool [] ∅ [] 0 true 128) 0) as (p & E & Hd & Hit & Hu & Hf); try done.
  rewrite (bind_eq _ _ _ _ _ E). cbn [Z.ltb Z.compare]. rewrite bind_modify. unfold ret. eexists. split; [done|].
  rewrite Z2Nat.id in Hf by lia. rewrite Z.add_0_l in Hf.
  split; [|cbn [allocator_ frees]; by rewrite Hf, length_seq].
  constructor; cbn [memory frames_ allocator_ frees used dynamic]; [apply new_lru_ok| | |constructor|by rewrite Hu|rewrite Hf; apply NoDup_seq| |done].
  - intros e He. by apply elem_of_nil in He.
  - intros a f Ha. apply elem_of_list_to_map_2 in Ha. apply list_elem_of_fmap in Ha as (b & [= -> ->] & _). done.
  - intros a Ha. split; [apply not_elem_of_nil|]. exists new_frame. split; [|done]. apply elem_of_list_to_map_1.
    + rewrite map_map. cbn. rewrite map_id, Hf. apply NoDup_seq.
    + apply list_elem_of_fmap. by exists a.
Qed.
