(* ===== verification/FrameTheorems.v ===== *)
(** * FrameTheorems: the frame manager implements a table of pin counts *)
From S2P Require Import Prelude Types LruCache LruSpec FrameManager FrameSpec.

(** ** The abstract frame manager

    Its state is a pin count for each page in memory; [N] frames are there. *)

Inductive fm_call :=
| CGet (i : FrameId)        (** [get] *)
| CAlloc (i : FrameId)      (** [alloc] *)
| CFree (i : FrameId)       (** [free] of the frame the client was given for [i] *)
| CUnpin (i : FrameId)      (** [unpin] of that frame *)
| CList (b : Z)             (** [find_list] *)
| CPurge.                   (** [purge_frames(1)] with a purger that succeeds *)
Inductive fm_result := RFound (b : bool) | RFreed (n : Z) | RListed (n : nat).

Abbreviation Table := (gmap FrameId Z).
Definition in_pool (b : Z) (e : FrameId * Z) : Prop := e.1.1 = b.
#[export] Instance in_pool_dec b e : Decision (in_pool b e).
Proof. unfold in_pool. apply _. Defined.

(** what a client may do: free a frame it alone has pinned, unpin a frame that is pinned *)
Definition legal (s : Table) (c : fm_call) : Prop :=
  match c with
  | CFree i => s !! i = Some 1
  | CUnpin i => ∃ n, s !! i = Some n ∧ 0 < n
  | _ => True
  end.

Inductive table_step (N : nat) (s : Table) : fm_call → fm_result → Table → Prop :=
| ts_get_hit i n : s !! i = Some n → table_step N s (CGet i) (RFound true) (<[i := n + 1]> s)
| ts_get_miss i : s !! i = None → table_step N s (CGet i) (RFound false) s
| ts_alloc_hit i n : s !! i = Some n → table_step N s (CAlloc i) (RFound true) (<[i := n + 1]> s)
| ts_alloc_new i : s !! i = None → (size s < N)%nat → table_step N s (CAlloc i) (RFound true) (<[i := 1]> s)
| ts_alloc_full i : s !! i = None → size s = N → table_step N s (CAlloc i) (RFound false) s
| ts_free i : s !! i = Some 1 → table_step N s (CFree i) (RFreed 1) (delete i s)
| ts_unpin i n : s !! i = Some n → 0 < n → table_step N s (CUnpin i) (RFreed 0) (<[i := n - 1]> s)
| ts_list b s' : (∀ i, s' !! i = if decide (i.1 = b) then (λ n, n + 1) <$> s !! i else s !! i) →
    table_step N s (CList b) (RListed (size (filter (in_pool b) s))) s'
| ts_purge i : s !! i = Some 0 → table_step N s CPurge (RFreed 1) (delete i s)
| ts_purge_none : (∀ i, s !! i ≠ Some 0) → table_step N s CPurge (RFreed 0) s.

(** ** The calls *)

(** the manager, and the frames that the client was given, by id *)
Record Client := mkClient { cl_mgr : FrameMgr; cl_env : gmap FrameId faddr }.
Definition on_client {A} (c : M FrameMgr A) : M Client A := λ st,
  match c (cl_mgr st) with Some (a, m) => Some (a, mkClient m (cl_env st)) | None => None end.
Definition given (i : FrameId) (r : option faddr) : M Client fm_result :=
  match r with
  | Some a => modify (λ st, mkClient (cl_mgr st) (<[i := a]> (cl_env st))) ;;; ret (RFound true)
  | None => ret (RFound false)
  end.
Definition run_call (c : fm_call) : M Client fm_result :=
  match c with
  | CGet i => let* r := on_client (frame_get i.1 i.2) in given i r
  | CAlloc i => let* r := on_client (frame_alloc i.1 i.2) in given i r
  | CFree i =>
      let* st := get in
      let* a := liftO (cl_env st !! i) in
      on_client (frame_free i.1 i.2 a) ;;;
      ret (RFreed 1)
  | CUnpin i =>
      let* st := get in
      let* a := liftO (cl_env st !! i) in
      on_client (unpin a) ;;;
      ret (RFreed 0)
  | CList b => let* r := on_client (find_list b) in ret (RListed (length r))
  | CPurge =>
      let* n := purge_frames (λ A c, on_client c) (λ a, ret SUCCESS) 1 in
      ret (RFreed n)
  end.

(** ** The relation between the two *)

Record fm_rel (N : nat) (s : Table) (l : cache) (st : Client) : Prop := {
  fr_ok : mgr_ok l (cl_mgr st);
  fr_pins i : s !! i = pins l (memory (cl_mgr st)) i;
  fr_env i a : cached l i = Some a → cl_env st !! i = Some a;
  fr_size : (length l + length (frees (allocator_ (cl_mgr st))) = N)%nat;
}.

(** the table has an entry for each entry of the cache *)
Lemma rel_size N s l st : fm_rel N s l st → size s = length l.
Proof.
  intros [Hok Hp _ _]. rewrite <-size_dom. assert (dom s = list_to_set (map fst l)) as ->.
  - apply set_eq. intros i. rewrite elem_of_dom, Hp, elem_of_list_to_set. split.
    + intros [n (a & f & Hc & _)%(pins_Some _ _ _ _ Hok)]. apply (cached_elem _ _ _ _ Hok) in Hc. apply list_elem_of_fmap. by exists (i, a).
    + intros ([j a] & -> & Hin)%list_elem_of_fmap. cbn. apply (cached_elem _ _ _ _ Hok) in Hin.
      destruct (cached_frame _ _ _ _ Hok Hin) as (f & Hf & _). exists (pin_count_ f). apply (pins_Some _ _ _ _ Hok). eauto.
  - rewrite size_list_to_set by by eapply mgr_keys. by rewrite length_map.
Qed.

(** changing the pin count of one frame *)
Lemma pins_repin l l' m mem i a n k : mgr_ok l m → l' ≡ₚ l → cached l i = Some a → pins l (memory m) i = Some n →
  mem = repin a k (memory m) → ∀ j, pins l' mem j = if decide (j = i) then Some (n + k) else pins l (memory m) j.
Proof.
  intros Hok Hp Hc Hn -> j. unfold pins at 1. rewrite <-(cached_perm l l' m j Hok) by done.
  apply (pins_Some _ _ _ _ Hok) in Hn as (a' & f & Hc' & Hf & <-). assert (a' = a) as -> by congruence.
  case_decide as Hj.
  - subst j. rewrite Hc. cbn. rewrite (repin_lookup a k _ _ _ Hf). by rewrite decide_True.
  - unfold pins. destruct (cached l j) as [c|] eqn:E; [|done]. cbn. destruct (cached_frame _ _ _ _ Hok E) as (g & Hg & _).
    rewrite (repin_lookup a k _ _ _ Hg), Hg. rewrite decide_False; [done|]. intros ->. apply Hj. by eapply cached_inj.
Qed.

(** an operation that pins or unpins one frame *)
Lemma rel_repin N s l l' m m' env i a n k :
  fm_rel N s l (mkClient m env) → mgr_ok l' m' → l' ≡ₚ l → cached l i = Some a → s !! i = Some n →
  memory m' = repin a k (memory m) → length (frees (allocator_ m')) = length (frees (allocator_ m)) →
  fm_rel N (<[i := n + k]> s) l' (mkClient m' (<[i := a]> env)).
Proof.
  intros [Hok Hp He Hs] Hok' Hl Hc Hn Hm Hf. cbn in *. constructor; cbn; try done.
  - intros j. rewrite Hp in Hn. rewrite (pins_repin l l' m (memory m') i a n k Hok Hl Hc Hn Hm j).
    case_decide; [subst; by rewrite lookup_insert_eq|by rewrite lookup_insert_ne].
  - intros j c Hj. rewrite <-(cached_perm l l' m j Hok) in Hj by done. destruct (decide (j = i)) as [->|].
    + rewrite lookup_insert_eq. congruence.
    + rewrite lookup_insert_ne by done. by apply He.
  - rewrite Hf. by rewrite Hl.
Qed.

Lemma on_client_eq {A B} (c : M FrameMgr A) (k : A → M Client B) st a m : c (cl_mgr st) = Some (a, m) →
  bind (on_client c) k st = k a (mkClient m (cl_env st)).
Proof. intros E. unfold bind, on_client. by rewrite E. Qed.

(** freeing takes the entry out of the table *)
Lemma rel_free N s l m env i a f :
  fm_rel N s l (mkClient m env) → cached l i = Some a → memory m !! a = Some f → pin_count_ f = 1 →
  ∃ l' m', free_internal i a m = Some (SUCCESS, m') ∧ fm_rel N (delete i s) l' (mkClient m' env).
Proof.
  intros [Hok Hp He Hs] Hc Hf Hpin. cbn in *.
  destruct (free_internal_ok l m i a f Hok Hc Hf Hpin) as (l' & m' & E & Hok' & Hl & Hm & Hfr).
  exists l', m'. split; [done|]. pose proof (mgr_keys _ _ Hok) as Hnd. rewrite Hl in Hnd. cbn in Hnd. apply NoDup_cons in Hnd as [Hni Hnd].
  assert (Hni' : cached l' i = None) by by apply find_None.
  assert (Hother : ∀ j, j ≠ i → cached l' j = cached l j).
  { intros j Hj. rewrite (cached_perm l _ m j Hok Hl). unfold cached. cbn. by rewrite decide_False by (cbn; congruence). }
  constructor; cbn; try done.
  - intros j. destruct (decide (j = i)) as [->|Hj]; [rewrite lookup_delete_eq; unfold pins; by rewrite Hni'|].
    rewrite lookup_delete_ne, Hp by done. unfold pins. rewrite Hother by done. destruct (cached l j) as [c|] eqn:Ej; [|done]. cbn.
    rewrite Hm, lookup_insert_ne; [done|]. intros <-. apply Hj. by apply (cached_inj l m j i a).
  - intros j c Hj. destruct (decide (j = i)) as [->|Hne]; [congruence|]. rewrite Hother in Hj by done. by apply He.
  - rewrite Hfr, length_app. rewrite Hl in Hs. cbn in *. lia.
Qed.

Lemma NoDup_of_pool l m b : mgr_ok l m → NoDup (of_pool b l).
Proof.
  intros Hok. unfold of_pool. pose proof (mo_addrs _ _ Hok) as Hnd. clear Hok. induction l as [|e l IH]; [constructor|].
  cbn in Hnd. apply NoDup_cons in Hnd as [Hn Hnd]. rewrite filter_cons. case_decide; [|by apply IH]. cbn. apply NoDup_cons. split; [|by apply IH].
  intros (e' & He & [_ Hin]%list_elem_of_filter)%list_elem_of_fmap. apply Hn. apply list_elem_of_fmap. by exists e'.
Qed.

Lemma elem_of_pool l m b i a : mgr_ok l m → cached l i = Some a → a ∈ of_pool b l ↔ i.1 = b.
Proof.
  intros Hok Hc. pose proof Hc as Hin. apply (cached_elem _ _ _ _ Hok) in Hin. unfold of_pool. rewrite list_elem_of_fmap. split.
  - intros ([j c] & -> & [Hj Hin']%list_elem_of_filter). cbn in *. apply (cached_elem _ _ _ _ Hok) in Hin'. by rewrite (cached_inj l m i j c Hok Hc Hin').
  - intros Hb. exists (i, a). split; [done|]. by apply list_elem_of_filter.
Qed.

Lemma size_pool N s l st b : fm_rel N s l st → size (filter (in_pool b) s) = length (of_pool b l).
Proof.
  intros [Hok Hp _ _]. rewrite <-size_dom.
  assert (dom (filter (in_pool b) s) = list_to_set (map fst (filter (λ e, e.1.1 = b) l))) as ->.
  - apply set_eq. intros i. rewrite elem_of_dom, elem_of_list_to_set. split.
    + intros [n [Hn Hb]%map_lookup_filter_Some]. rewrite Hp in Hn. apply (pins_Some _ _ _ _ Hok) in Hn as (a & f & Hc & _).
      apply (cached_elem _ _ _ _ Hok) in Hc. apply list_elem_of_fmap. exists (i, a). split; [done|]. by apply list_elem_of_filter.
    + intros ([j a] & -> & [Hb Hin]%list_elem_of_filter)%list_elem_of_fmap. cbn in *. apply (cached_elem _ _ _ _ Hok) in Hin.
      destruct (cached_frame _ _ _ _ Hok Hin) as (f & Hf & _). exists (pin_count_ f). apply map_lookup_filter_Some. split; [|done].
      rewrite Hp. apply (pins_Some _ _ _ _ Hok). eauto.
  - rewrite size_list_to_set; [unfold of_pool; by rewrite !length_map|].
    pose proof (mgr_keys _ _ Hok) as Hnd. clear -Hnd. induction l as [|e l IH]; [constructor|].
    cbn in Hnd. apply NoDup_cons in Hnd as [Hn Hnd]. rewrite filter_cons. case_decide; [|by apply IH]. cbn. apply NoDup_cons. split; [|by apply IH].
    intros (e' & He & [_ Hin]%list_elem_of_filter)%list_elem_of_fmap. apply Hn. apply list_elem_of_fmap. by exists e'.
Qed.

Lemma call_refines N s l st c : fm_rel N s l st → legal s c →
  ∃ r s' l' st', run_call c st = Some (r, st') ∧ table_step N s c r s' ∧ fm_rel N s' l' st'.
Proof.
  intros Hrel Hleg. pose proof Hrel as [Hok Hp He Hs]. destruct st as [m env]. cbn [cl_mgr cl_env] in *. destruct c as [i|i|i|i|b|]; cbn [run_call].
  - destruct (get_internal_ok l m i Hok) as (l' & m' & E & Hok' & Hl & Ha & Hm).
    assert (E' : frame_get i.1 i.2 m = Some (cached l i, m')) by (destruct i; exact E).
    rewrite (on_client_eq _ _ (mkClient m env) _ _ E'). cbn [cl_env]. destruct (cached l i) as [a|] eqn:Ec.
    + destruct (cached_frame _ _ _ _ Hok Ec) as (f & Hf & _ & _).
      assert (Hn : s !! i = Some (pin_count_ f)) by (rewrite Hp; apply (pins_Some _ _ _ _ Hok); eauto).
      exists (RFound true), (<[i := pin_count_ f + 1]> s), l'. eexists. split; [done|]. split; [by constructor|]. cbn.
      eapply (rel_repin N s l l' m m' env i a); try done. by rewrite Ha.
    + exists (RFound false), s, l'. eexists. split; [done|]. split; [constructor; rewrite Hp; by apply (pins_None l m i Hok)|].
      constructor; cbn; [done| | |by rewrite Hl, Ha].
      * intros j. rewrite Hp, Hm. unfold pins. by rewrite (cached_perm l l' m j Hok).
      * intros j c Hj. rewrite <-(cached_perm l l' m j Hok) in Hj by done. by apply He.
  - pose proof (frame_alloc_ok l m i Hok) as Ha. destruct (cached l i) as [a|] eqn:Ec; [|destruct (frees (allocator_ m)) as [|a fs] eqn:Efr].
    + destruct Ha as (l' & m' & E & Hok' & Hl & Hal & Hm). rewrite (on_client_eq _ _ (mkClient m env) _ _ E). cbn [cl_env].
      destruct (cached_frame _ _ _ _ Hok Ec) as (f & Hf & _ & _).
      assert (Hn : s !! i = Some (pin_count_ f)) by (rewrite Hp; apply (pins_Some _ _ _ _ Hok); eauto).
      exists (RFound true), (<[i := pin_count_ f + 1]> s), l'. eexists. split; [done|]. split; [by constructor|]. cbn.
      eapply (rel_repin N s l l' m m' env i a); try done. by rewrite Hal.
    + destruct Ha as (l' & m' & E & Hok' & Hl & Hal & Hm). rewrite (on_client_eq _ _ (mkClient m env) _ _ E). cbn [cl_env].
      assert (Hni : s !! i = None) by (rewrite Hp; by apply (pins_None l m i Hok)).
      exists (RFound false), s, l'. eexists. split; [done|]. split; [apply ts_alloc_full; [done|]|].
      { rewrite (rel_size _ _ _ _ Hrel). cbn in Hs. lia. }
      constructor; cbn; [done| | |by rewrite Hl, Hal, Efr].
      * intros j. rewrite Hp, Hm. unfold pins. by rewrite (cached_perm l l' m j Hok).
      * intros j c Hj. rewrite <-(cached_perm l l' m j Hok) in Hj by done. by apply He.
    + destruct Ha as (f & l' & m' & E & Hf & Hok' & Hl & Hal & Hm). rewrite (on_client_eq _ _ (mkClient m env) _ _ E). cbn [cl_env].
      assert (Hni : s !! i = None) by (rewrite Hp; by apply (pins_None l m i Hok)).
      exists (RFound true), (<[i := 1]> s), l'. eexists. split; [done|]. split; [apply ts_alloc_new; [done|]|].
      { rewrite (rel_size _ _ _ _ Hrel). cbn in Hs. lia. }
      assert (Hcl : ∀ j, cached l' j = if decide (j = i) then Some a else cached l j).
      { intros j. rewrite (cached_perm l' _ m' j Hok' Hl). unfold cached. cbn. case_decide as Hj; cbn in Hj; [by rewrite decide_True|]. by rewrite decide_False by congruence. }
      constructor; cbn; [done| | |rewrite Hl, Hal; cbn in *; lia].
      * intros j. unfold pins. rewrite Hcl. case_decide as Hj.
        -- subst j. rewrite lookup_insert_eq. cbn. rewrite Hm, lookup_insert_eq. done.
        -- rewrite lookup_insert_ne, Hp by done. unfold pins. destruct (cached l j) as [c|] eqn:Ej; [|done]. cbn.
           rewrite Hm, lookup_insert_ne; [done|]. intros <-.
           assert (Hfr : a ∈ frees (allocator_ m)) by (rewrite Efr; left). destruct (mo_free _ _ Hok a Hfr) as [Hn _]. apply Hn.
           apply (cached_elem _ _ _ _ Hok) in Ej. apply list_elem_of_fmap. by exists (j, a).
      * intros j c Hj. rewrite Hcl in Hj. case_decide as Hji; [subst; rewrite lookup_insert_eq; congruence|]. rewrite lookup_insert_ne by done. by apply He.
  - cbn in Hleg. pose proof Hleg as Hn. rewrite Hp in Hn. apply (pins_Some _ _ _ _ Hok) in Hn as (a & f & Hc & Hf & Hpin).
    rewrite bind_get. cbn [cl_env]. rewrite (bind_liftO _ _ _ _ (He i a Hc)).
    destruct (rel_free N s l m env i a f Hrel Hc Hf Hpin) as (l' & m' & E & Hrel').
    assert (E' : frame_free i.1 i.2 a m = Some (SUCCESS, m')) by (destruct i; exact E).
    rewrite (on_client_eq _ _ (mkClient m env) _ _ E'). do 4 eexists. split; [done|]. split; [by constructor|exact Hrel'].
  - cbn in Hleg. destruct Hleg as (n & Hn & Hpos). pose proof Hn as Hn'. rewrite Hp in Hn'. apply (pins_Some _ _ _ _ Hok) in Hn' as (a & f & Hc & Hf & Hpin).
    rewrite bind_get. cbn [cl_env]. rewrite (bind_liftO _ _ _ _ (He i a Hc)).
    destruct (unpin_cached l m i a f Hok Hc Hf ltac:(lia)) as (m' & E & Hok' & Hm & Hal).
    rewrite (on_client_eq _ _ (mkClient m env) _ _ E). do 4 eexists. split; [done|]. split; [by econstructor|].
    pose proof (rel_repin N s l l m m' env i a n (-1) Hrel Hok' ltac:(done) Hc Hn Hm ltac:(by rewrite Hal)) as Hr.
    cbn [cl_env]. by rewrite (insert_id env i a) in Hr by by apply He.
  - destruct (find_list_ok l m b Hok) as (m' & E & Hok' & Hm & Hal). rewrite (on_client_eq _ _ (mkClient m env) _ _ E). cbn [cl_env].
    set (s' := map_imap (λ i n, Some (if decide (i.1 = b) then n + 1 else n)) s).
    assert (Hs' : ∀ i, s' !! i = if decide (i.1 = b) then (λ n, n + 1) <$> s !! i else s !! i).
    { intros i. unfold s'. rewrite map_lookup_imap. destruct (s !! i); cbn; case_decide; done. }
    do 2 eexists. exists l. eexists. split; [done|]. rewrite <-(size_pool _ _ _ _ b Hrel). split; [by apply ts_list|].
    constructor; cbn; [done| |done|by rewrite Hal].
    intros i. rewrite Hs'. unfold pins. rewrite Hp. unfold pins. destruct (cached l i) as [a|] eqn:Ec; cbn; [|by case_decide].
    destruct (cached_frame _ _ _ _ Hok Ec) as (f & Hf & _). rewrite Hf. cbn.
    rewrite Hm, (pin_all_lookup _ _ _ _ (NoDup_of_pool l m b Hok) Hf). cbn. pose proof (elem_of_pool l m b i a Hok Ec) as Hiff.
    case_decide as Hb; [rewrite decide_True by by apply Hiff|rewrite decide_False by (by rewrite Hiff)]; done.
  - unfold purge_frames. rewrite bind_assoc. destruct (find_purgeable_ok l m Hok) as [(i & a & f & m' & E & Hc & Hf & Hpin & Hok' & Hm & Hal)|[E Hno]].
    + rewrite (on_client_eq _ _ (mkClient m env) _ _ E). cbn [cl_env purge_loop].
      rewrite bind_assoc, bind_ret. cbn [bool_decide decide_rel RC_eq_dec]. rewrite bool_decide_eq_true_2 by done.
      assert (Hn : s !! i = Some 0) by (rewrite Hp; apply (pins_Some _ _ _ _ Hok); eauto).
      pose proof (rel_repin N s l l m m' env i a 0 1 Hrel Hok' ltac:(done) Hc Hn Hm ltac:(by rewrite Hal)) as Hr1.
      rewrite (insert_id env i a) in Hr1 by by apply He. change (0 + 1) with 1 in Hr1.
      assert (Hf1 : memory m' !! a = Some (fr_set_pin 1 f)).
      { rewrite Hm, (repin_lookup a 1 _ _ _ Hf), decide_True by done. by rewrite Hpin. }
      destruct (rel_free N _ l m' env i a _ Hr1 Hc Hf1 eq_refl) as (l' & m2 & E2 & Hr2).
      destruct (cached_frame l m' i a Hok' Hc) as (f1 & Hf1' & Hid & _). assert (f1 = fr_set_pin 1 f) as -> by congruence.
      assert (Efr : frame_at a m' = Some (fr_set_pin 1 f, m')) by (unfold frame_at; by rewrite Hf1).
      rewrite bind_assoc, (on_client_eq _ _ (mkClient m' env) _ _ Efr). rewrite Hid. cbn [cl_env].
      rewrite bind_assoc, (on_client_eq _ _ (mkClient m' env) _ _ E2). cbn [cl_env purge_loop]. rewrite bind_ret.
      do 4 eexists. split; [done|]. split; [by apply ts_purge|]. by rewrite delete_insert_eq in Hr2.
    + rewrite (on_client_eq _ _ (mkClient m env) _ _ E). cbn [cl_env purge_loop]. rewrite bind_ret.
      do 4 eexists. split; [done|]. split; [|exact Hrel]. apply ts_purge_none. intros i Hn. rewrite Hp in Hn.
      apply (pins_Some _ _ _ _ Hok) in Hn as (a & f & Hc & Hf & Hpin). apply (Hno i a Hc). by exists f.
Qed.

(** ** Runs *)

Fixpoint run_calls (cs : list fm_call) : M Client (list fm_result) :=
  match cs with
  | [] => ret []
  | c :: cs => let* r := run_call c in let* rs := run_calls cs in ret (r :: rs)
  end.
Inductive table_run (N : nat) : Table → list fm_call → list fm_result → Table → Prop :=
| tr_nil s : table_run N s [] [] s
| tr_cons s c r s1 cs rs s2 : table_step N s c r s1 → table_run N s1 cs rs s2 → table_run N s (c :: cs) (r :: rs) s2.
(** every call of the sequence is legal in every state the table can be in by then *)
Inductive legal_run (N : nat) : Table → list fm_call → Prop :=
| lr_nil s : legal_run N s []
| lr_cons s c cs : legal s c → (∀ r s1, table_step N s c r s1 → legal_run N s1 cs) → legal_run N s (c :: cs).

(** ** Properties *)

(** [C11] The frame manager. From [init], for every sequence of calls in which clients only free
    frames that they alone have pinned and unpin frames that are pinned: every call returns,
    no assertion fails, and the answers are those of a table of pin counts over a pool of
    128 frames per block: a page in memory is found and pinned, an absent one gets a frame
    while one is left and null otherwise, no two pages share a frame, and purging drops a
    page exactly when some page is not pinned. *)
Theorem frame_manager_implements_table (pool_num : Z) (cs : list fm_call) :
  0 < pool_num → legal_run (Z.to_nat (pool_num * DEFAULT_ITEM_NUM_PER_POOL)) ∅ cs →
  ∃ m rs st s, frame_mgr_init pool_num = (SUCCESS, m) ∧ run_calls cs (mkClient m ∅) = Some (rs, st) ∧
    table_run (Z.to_nat (pool_num * DEFAULT_ITEM_NUM_PER_POOL)) ∅ cs rs s ∧
    (∀ i n, s !! i = Some n → ∃ a f, cl_env st !! i = Some a ∧ memory (cl_mgr st) !! a = Some f ∧ frame_id_ f = i ∧ pin_count_ f = n).
Proof.
  intros Hn Hleg. destruct (frame_mgr_init_ok pool_num Hn) as (m & E & Hm & Hfr). exists m.
  assert (Hrel : fm_rel (Z.to_nat (pool_num * DEFAULT_ITEM_NUM_PER_POOL)) ∅ [] (mkClient m ∅)) by by constructor.
  assert (Hgen : ∀ s l st, fm_rel (Z.to_nat (pool_num * DEFAULT_ITEM_NUM_PER_POOL)) s l st → legal_run (Z.to_nat (pool_num * DEFAULT_ITEM_NUM_PER_POOL)) s cs →
    ∃ rs st' s' l', run_calls cs st = Some (rs, st') ∧ table_run (Z.to_nat (pool_num * DEFAULT_ITEM_NUM_PER_POOL)) s cs rs s' ∧
      fm_rel (Z.to_nat (pool_num * DEFAULT_ITEM_NUM_PER_POOL)) s' l' st').
  { clear. induction cs as [|c cs IH]; intros s l st Hrel Hleg; [exists [], st, s, l; split; [done|split; [constructor|done]]|].
    inversion Hleg as [|? ? ? Hc Hnext]; subst. destruct (call_refines _ s l st c Hrel Hc) as (r & s1 & l1 & st1 & E1 & Hstep & Hrel1).
    destruct (IH s1 l1 st1 Hrel1 (Hnext _ _ Hstep)) as (rs & st2 & s2 & l2 & E2 & Hrun & Hrel2).
    exists (r :: rs), st2, s2, l2. cbn [run_calls]. rewrite (bind_eq _ _ _ _ _ E1), (bind_eq _ _ _ _ _ E2).
    split; [done|]. split; [by econstructor|done]. }
  destruct (Hgen ∅ [] (mkClient m ∅) Hrel Hleg) as (rs & st & s & l & Erun & Hrun & [Hok Hp He _]).
  exists rs, st, s. split; [done|]. split; [done|]. split; [done|]. intros i n Hi. rewrite Hp in Hi.
  apply (pins_Some _ _ _ _ Hok) in Hi as (a & f & Hc & Hf & Hpin). exists a, f. split; [by apply He|]. split; [done|].
  split; [|done]. destruct (cached_frame _ _ _ _ Hok Hc) as (g & Hg & Hid & _). congruence.
Qed.

Lemma frame_manager_implements_table_witness :
  ∃ m rs st s, frame_mgr_init 1 = (SUCCESS, m) ∧ run_calls [CAlloc (1, 0); CGet (1, 0); CUnpin (1, 0); CFree (1, 0); CGet (1, 0)] (mkClient m ∅) = Some (rs, st) ∧
    table_run 128 ∅ [CAlloc (1, 0); CGet (1, 0); CUnpin (1, 0); CFree (1, 0); CGet (1, 0)] rs s ∧
    (∀ i n, s !! i = Some n → ∃ a f, cl_env st !! i = Some a ∧ memory (cl_mgr st) !! a = Some f ∧ frame_id_ f = i ∧ pin_count_ f = n).
Proof.
  apply (frame_manager_implements_table 1); [lia|].
  repeat (constructor; [first [done|eexists; split; [by rewrite ?lookup_insert_eq|lia]|by rewrite ?lookup_insert_eq]|]; intros ? ? Hs; inversion Hs; subst; clear Hs; simplify_map_eq; try done).
  constructor.
Defined.
