(* ===== verification/BufferPool.v ===== *)
(** * BufferPool: the files of pages and their double write buffer

    storage/buffer/disk_buffer_pool.cpp, double_write_buffer.cpp and buffer_pool_log.cpp. The
    pools, the frame manager they share, the double write buffer, the log and the device are
    one state, [World], because they call each other: a pool evicts a frame of another pool,
    and the double write buffer writes pages through the pools. *)
From Stdlib Require Import String.
From stdpp Require Import strings sorting.
From S2P Require Import Prelude Types Bitmap Encoding LogHandler LruCache FrameManager Crc.

(** ** The device

    A data file is a sequence of pages. [d_faults] says what happens to the next writes:
    [Some torn] leaves the torn page in place and fails, [None] succeeds; after the list, every
    write succeeds. Reading beyond the end of a file is an error. *)

(** the slot of a page in the file of the double write buffer: [DoubleWritePage] *)
Record DWPage := mkDWPage { dp_bp : Z; dp_page_num : PageNum; page_index : Z; dp_valid : bool; dp_page : Page }.
Definition zero_slot : DWPage := mkDWPage 0 0 0 false zero_page.

Record Dev := mkDev {
  data_files : gmap string (list Page);
  dw_page_cnt : option Z;         (** [DoubleWriteBufferHeader] in the file, [None] when the file is empty *)
  dw_slots : list DWPage;
  d_faults : list (option Page);
}.

(** write element [n] of a file, behind a hole of zeroes when the file is shorter *)
Definition put_at {A} (zero : A) (n : Z) (x : A) (l : list A) : list A :=
  if n <? len l then <[Z.to_nat n := x]> l else l ++ replicate (Z.to_nat (n - len l)) zero ++ [x].

(** ** The objects *)

Record DiskBufferPool := mkBP {
  file_open : bool;               (** [file_desc_ >= 0] *)
  id : Z;                         (** [buffer_pool_id_] *)
  hdr_frame_ : option faddr;      (** [file_header_] is the data of this frame *)
  file_name_ : string;
}.

(** a page the double write buffer holds: [None] for an object that was deleted while the map
    still points to it *)
Record DiskDoubleWriteBuffer := mkDW {
  dw_open : bool;
  max_pages_ : Z;
  dw_header : Z;                  (** [header_.page_cnt] *)
  dblwr_pages_ : gmap FrameId (option DWPage);
}.
Inductive DoubleWriteBuffer := DiskDW (d : DiskDoubleWriteBuffer) | VacuousDW.

Abbreviation bpref := positive.    (** a pointer to a [DiskBufferPool] *)

Record World (L : Type) := mkWorld {
  w_mgr : FrameMgr;
  w_dw : DoubleWriteBuffer;
  w_dev : Dev;
  w_objs : gmap bpref DiskBufferPool;
  buffer_pools_ : gmap string bpref;
  id_to_buffer_pools_ : gmap Z bpref;
  next_buffer_pool_id_ : Z;
  w_log : L;
}.
Arguments mkWorld {L}. Arguments w_mgr {L}. Arguments w_dw {L}. Arguments w_dev {L}. Arguments w_objs {L}.
Arguments buffer_pools_ {L}. Arguments id_to_buffer_pools_ {L}. Arguments next_buffer_pool_id_ {L}. Arguments w_log {L}.

(** ** The file header: the data of page 0, read and written through [file_header_] *)

Record BPFileHeader := mkBPFileHeader { fh_buffer_pool_id : Z; page_count : Z; allocated_pages : Z; fh_bitmap : list Z }.
Definition BPFileHeader_SIZE : Z := 12.
(** [(BP_PAGE_DATA_SIZE - sizeof(page_count) - sizeof(allocated_pages)) * 8] *)
Definition MAX_PAGE_NUM : Z := (BP_PAGE_DATA_SIZE - 4 - 4) * 8.

Definition dec_file_header (data : list Z) : option BPFileHeader :=
  i ← field32 data 0; c ← field32 data 4; a ← field32 data 8;
  Some (mkBPFileHeader i c a (drop (Z.to_nat BPFileHeader_SIZE) data)).
Definition enc_file_header (h : BPFileHeader) : list Z :=
  enc_fields [fh_buffer_pool_id h; page_count h; allocated_pages h] ++ fh_bitmap h.
Definition fh_counts (c a : Z) (h : BPFileHeader) : BPFileHeader := mkBPFileHeader (fh_buffer_pool_id h) c a (fh_bitmap h).
Definition fh_set_bitmap (bm : list Z) (h : BPFileHeader) : BPFileHeader := mkBPFileHeader (fh_buffer_pool_id h) (page_count h) (allocated_pages h) bm.

Section pool.
Context {L : Type} `{LogHandler L}.
Abbreviation W := (World L).

(** the order in which [unordered_map] is walked *)
Context (walk_order : gmap FrameId (option DWPage) → list (FrameId * option DWPage)).

Definition with_mgr (m : FrameMgr) (w : W) : W :=
  mkWorld m (w_dw w) (w_dev w) (w_objs w) (buffer_pools_ w) (id_to_buffer_pools_ w) (next_buffer_pool_id_ w) (w_log w).
Definition with_dw (d : DoubleWriteBuffer) (w : W) : W :=
  mkWorld (w_mgr w) d (w_dev w) (w_objs w) (buffer_pools_ w) (id_to_buffer_pools_ w) (next_buffer_pool_id_ w) (w_log w).
Definition with_dev (d : Dev) (w : W) : W :=
  mkWorld (w_mgr w) (w_dw w) d (w_objs w) (buffer_pools_ w) (id_to_buffer_pools_ w) (next_buffer_pool_id_ w) (w_log w).
Definition with_objs (o : gmap bpref DiskBufferPool) (w : W) : W :=
  mkWorld (w_mgr w) (w_dw w) (w_dev w) o (buffer_pools_ w) (id_to_buffer_pools_ w) (next_buffer_pool_id_ w) (w_log w).
Definition with_names (n : gmap string bpref) (i : gmap Z bpref) (w : W) : W :=
  mkWorld (w_mgr w) (w_dw w) (w_dev w) (w_objs w) n i (next_buffer_pool_id_ w) (w_log w).
Definition with_next_id (n : Z) (w : W) : W :=
  mkWorld (w_mgr w) (w_dw w) (w_dev w) (w_objs w) (buffer_pools_ w) (id_to_buffer_pools_ w) n (w_log w).
Definition with_log (l : L) (w : W) : W :=
  mkWorld (w_mgr w) (w_dw w) (w_dev w) (w_objs w) (buffer_pools_ w) (id_to_buffer_pools_ w) (next_buffer_pool_id_ w) l.

Definition on_mgr (A : Type) (c : M FrameMgr A) : M W A := λ w,
  match c (w_mgr w) with Some (a, m) => Some (a, with_mgr m w) | None => None end.
Definition on_log {A} (c : M L A) : M W A := λ w,
  match c (w_log w) with Some (a, l) => Some (a, with_log l w) | None => None end.
Definition bp_of (b : bpref) : M W DiskBufferPool := λ w, match w_objs w !! b with Some p => Some (p, w) | None => None end.
Definition set_bp (b : bpref) (p : DiskBufferPool) : M W unit := modify (λ w, with_objs (<[b := p]> (w_objs w)) w).
Definition frame (a : faddr) : M W Frame := on_mgr _ (frame_at a).
(** [file_header_] *)
Definition get_header (a : faddr) : M W BPFileHeader :=
  let* f := on_mgr _ (frame_at a) in
  liftO (dec_file_header (p_data (page_ f))).
Definition set_file_header (a : faddr) (h : BPFileHeader) : M W unit := on_mgr _ (frame_upd a (fr_set_data (enc_file_header h))).
Definition upd_frame (a : faddr) (g : Frame → Frame) : M W unit := on_mgr _ (frame_upd a g).

(** ** Device calls *)

(** one call of [writen]: whether it succeeds, and what is written *)
Definition next_fault : M W (option Page) := λ w,
  match d_faults (w_dev w) with
  | f :: fs => Some (f, with_dev (mkDev (data_files (w_dev w)) (dw_page_cnt (w_dev w)) (dw_slots (w_dev w)) fs) w)
  | [] => Some (None, w)
  end.
Definition write_data (name : string) (n : Z) (p : Page) : M W unit := modify (λ w,
  let d := w_dev w in
  with_dev (mkDev (<[name := put_at zero_page n p (default [] (data_files d !! name))]> (data_files d))
              (dw_page_cnt d) (dw_slots d) (d_faults d)) w).
Definition write_slot (n : Z) (s : DWPage) : M W unit := modify (λ w,
  let d := w_dev w in with_dev (mkDev (data_files d) (dw_page_cnt d) (put_at zero_slot n s (dw_slots d)) (d_faults d)) w).
Definition write_dw_header (n : Z) : M W unit := modify (λ w,
  let d := w_dev w in with_dev (mkDev (data_files d) (Some n) (dw_slots d) (d_faults d)) w).

(** [DiskBufferPool::write_page] *)
Definition write_page (b : bpref) (pn : PageNum) (p : Page) : M W RC :=
  let* bp := bp_of b in
  if negb (file_open bp) || (pn <? 0) then ret IOERR_SEEK
  else
    let* f := next_fault in
    match f with
    | Some torn => write_data (file_name_ bp) pn torn ;;; ret IOERR_WRITE
    | None => write_data (file_name_ bp) pn p ;;; ret SUCCESS
    end.

(** [BufferPoolManager::get_buffer_pool] *)
Definition get_buffer_pool (i : Z) : M W (RC * option bpref) :=
  let* w := get in
  match id_to_buffer_pools_ w !! i with
  | Some b => ret (SUCCESS, Some b)
  | None => ret (INTERNAL, None)
  end.

(** ** The double write buffer *)

Definition set_dw (d : DiskDoubleWriteBuffer) : M W unit := modify (with_dw (DiskDW d)).
Definition dw_set_pages (m : gmap FrameId (option DWPage)) (d : DiskDoubleWriteBuffer) : DiskDoubleWriteBuffer :=
  mkDW (dw_open d) (max_pages_ d) (dw_header d) m.
Definition dw_set_header (n : Z) (d : DiskDoubleWriteBuffer) : DiskDoubleWriteBuffer :=
  mkDW (dw_open d) (max_pages_ d) n (dblwr_pages_ d).
Definition set_valid (v : bool) (p : DWPage) : DWPage := mkDWPage (dp_bp p) (dp_page_num p) (page_index p) v (dp_page p).

Definition write_page_internal (d : DiskDoubleWriteBuffer) (p : DWPage) : M W RC :=
  if negb (dw_open d) || (page_index p <? 0) then ret IOERR_SEEK
  else
    let* f := next_fault in
    match f with
    | Some torn => write_slot (page_index p) (mkDWPage (dp_bp p) (dp_page_num p) (page_index p) (dp_valid p) torn) ;;; ret IOERR_WRITE
    | None => write_slot (page_index p) p ;;; ret SUCCESS
    end.

(** [DiskDoubleWriteBuffer::write_page]: through the pool to the data file *)
Definition dw_write_page (p : DWPage) : M W RC :=
  if negb (dp_valid p) then ret SUCCESS
  else
    let* r := get_buffer_pool (dp_bp p) in
    match r with
    | (SUCCESS, Some b) => write_page b (dp_page_num p) (dp_page p)
    | _ => abort
    end.

(** the loop of [flush_page]; what was written is deleted, but stays in the map until the end *)
Fixpoint flush_loop (pages : list (FrameId * option DWPage)) (d : DiskDoubleWriteBuffer) : M W (RC * DiskDoubleWriteBuffer) :=
  match pages with
  | [] => ret (SUCCESS, d)
  | (_, None) :: _ => abort
  | (key, Some p) :: pages =>
      let* rc := dw_write_page p in
      if negb (bool_decide (rc = SUCCESS)) then ret (rc, d)
      else
        write_page_internal d (set_valid false p) ;;;
        flush_loop pages (dw_set_pages (<[key := None]> (dblwr_pages_ d)) d)
  end.
Definition flush_page_dw (d : DiskDoubleWriteBuffer) : M W (RC * DiskDoubleWriteBuffer) :=
  let* r := flush_loop (walk_order (dblwr_pages_ d)) d in
  if OB_FAIL r.1 then set_dw r.2 ;;; ret r
  else
    let d := dw_set_header 0 (dw_set_pages ∅ r.2) in
    set_dw d ;;; ret (SUCCESS, d).

Definition dw_add_page (d : DiskDoubleWriteBuffer) (bp : DiskBufferPool) (pn : PageNum) (p : Page) : M W RC :=
  let key := (id bp, pn) in
  match dblwr_pages_ d !! key with
  | Some None => abort
  | Some (Some q) =>
      let q := mkDWPage (dp_bp q) (dp_page_num q) (page_index q) (dp_valid q) p in
      set_dw (dw_set_pages (<[key := Some q]> (dblwr_pages_ d)) d) ;;;
      write_page_internal d q
  | None =>
      let page_cnt := Z.of_nat (size (dblwr_pages_ d)) in
      let q := mkDWPage (id bp) pn page_cnt true p in
      let d := dw_set_pages (<[key := Some q]> (dblwr_pages_ d)) d in
      set_dw d ;;;
      let* rc := write_page_internal d q in
      if OB_FAIL rc then ret rc
      else
        let grow := dw_header d <? page_cnt + 1 in
        let d := if grow then dw_set_header (page_cnt + 1) d else d in
        set_dw d ;;;
        let* f := (if grow then next_fault else ret None) in
        match f with
        | Some _ => ret IOERR_WRITE
        | None =>
            (if grow then write_dw_header (page_cnt + 1) else ret tt) ;;;
            if max_pages_ d <=? Z.of_nat (size (dblwr_pages_ d)) then
              let* r := flush_page_dw d in
              ret r.1
            else ret SUCCESS
        end
  end.

Definition dw_read_page (d : DiskDoubleWriteBuffer) (bp : DiskBufferPool) (pn : PageNum) : M W (RC * option Page) :=
  match dblwr_pages_ d !! (id bp, pn) with
  | Some (Some q) => ret (SUCCESS, Some (dp_page q))
  | Some None => abort
  | None => ret (BUFFERPOOL_INVALID_PAGE_NUM, None)
  end.

(** [clear_pages]: a failed write ends the loop, the pages are dropped all the same *)
Fixpoint clear_loop (pages : list DWPage) (d : DiskDoubleWriteBuffer) (b : bpref) : M W unit :=
  match pages with
  | [] => ret tt
  | p :: pages =>
      let* rc := write_page b (dp_page_num p) (dp_page p) in
      if OB_FAIL rc then ret tt
      else write_page_internal d (set_valid false p) ;;; clear_loop pages d b
  end.
Definition by_page_num (p q : DWPage) : Prop := dp_page_num p ≤ dp_page_num q.
#[local] Instance by_page_num_dec p q : Decision (by_page_num p q).
Proof. unfold by_page_num. apply _. Defined.
Definition belongs (bp : DiskBufferPool) (e : FrameId * option DWPage) : Prop :=
  match e.2 with Some p => dp_bp p = id bp | None => False end.
#[local] Instance belongs_dec bp e : Decision (belongs bp e).
Proof. unfold belongs. destruct e.2; apply _. Defined.
(** a deleted object in the map is dereferenced here as well *)
Definition dangling (d : DiskDoubleWriteBuffer) : bool := existsb (λ e, bool_decide (e.2 = @None DWPage)) (walk_order (dblwr_pages_ d)).
Definition dw_clear_pages (d : DiskDoubleWriteBuffer) (b : bpref) (bp : DiskBufferPool) : M W RC :=
  if dangling d then abort
  else
    let spec := omap snd (filter (belongs bp) (walk_order (dblwr_pages_ d))) in
    let d := dw_set_pages (filter (λ e, ¬ belongs bp e) (dblwr_pages_ d)) d in
    set_dw d ;;;
    clear_loop (merge_sort by_page_num spec) d b ;;;
    ret SUCCESS.

(** [load_pages]: the slots that the header counts, those whose checksum is right *)
Fixpoint load_loop (slots : list DWPage) (n : nat) (m : gmap FrameId (option DWPage)) : option (RC * gmap FrameId (option DWPage)) :=
  match n with
  | O => Some (SUCCESS, m)
  | S n =>
      match slots with
      | [] => Some (IOERR_READ, m)
      | s :: slots =>
          check_sum ← crc32 (p_data (dp_page s));
          let key := (dp_bp s, dp_page_num s) in
          load_loop slots n
            (if check_sum =? p_check_sum (dp_page s)
             then match m !! key with Some _ => m | None => <[key := Some s]> m end
             else m)
      end
  end.
Definition load_pages (d : DiskDoubleWriteBuffer) : M W RC :=
  if negb (dw_open d) then ret BUFFERPOOL_OPEN
  else if negb (bool_decide (dblwr_pages_ d = ∅)) then ret BUFFERPOOL_OPEN
  else
    let* w := get in
    let cnt := default (dw_header d) (dw_page_cnt (w_dev w)) in
    let* r := liftO (load_loop (dw_slots (w_dev w)) (Z.to_nat cnt) ∅) in
    set_dw (dw_set_header cnt (dw_set_pages r.2 d)) ;;;
    ret r.1.
(** [open_file]: a new object, whose file may not be there yet *)
Definition dw_open_file (max_pages : Z) : M W RC := load_pages (mkDW true max_pages 0 ∅).
Definition dw_recover : M W RC :=
  let* w := get in
  match w_dw w with
  | DiskDW d => let* r := flush_page_dw d in ret r.1
  | VacuousDW => ret SUCCESS
  end.

(** the virtual calls of [DoubleWriteBuffer] *)
Definition add_page (b : bpref) (bp : DiskBufferPool) (pn : PageNum) (p : Page) : M W RC :=
  let* w := get in
  match w_dw w with DiskDW d => dw_add_page d bp pn p | VacuousDW => write_page b pn p end.
Definition read_page (bp : DiskBufferPool) (pn : PageNum) : M W (RC * option Page) :=
  let* w := get in
  match w_dw w with DiskDW d => dw_read_page d bp pn | VacuousDW => ret (BUFFERPOOL_INVALID_PAGE_NUM, None) end.
Definition clear_pages (b : bpref) (bp : DiskBufferPool) : M W RC :=
  let* w := get in
  match w_dw w with DiskDW d => dw_clear_pages d b bp | VacuousDW => ret SUCCESS end.

(** ** The log of the buffer pool (buffer_pool_log.cpp) *)

Inductive BufferPoolOperation : Set := ALLOCATE | DEALLOCATE.
Definition type_id (op : BufferPoolOperation) : Z := match op with ALLOCATE => 0 | DEALLOCATE => 1 end.
(** [sizeof(BufferPoolLogEntry)]: buffer pool id, operation type, page number *)
Definition BufferPoolLogEntry_SIZE : Z := 12.
Definition append_log (bp : DiskBufferPool) (op : BufferPoolOperation) (pn : PageNum) : M W (RC * LSN) :=
  on_log (append BUFFER_POOL (enc_fields [id bp; type_id op; pn])).
Definition log_flush_page (p : Page) : M W RC := on_log (wait_lsn (p_lsn p)).

(** ** DiskBufferPool *)

(** errors of the log are ignored; on an error of the double write buffer the frame stays dirty *)
Definition flush_page_internal (b : bpref) (a : faddr) : M W RC :=
  let* bp := bp_of b in
  let* f := frame a in
  log_flush_page (page_ f) ;;;
  let* c := liftO (crc32 (p_data (page_ f))) in
  upd_frame a (fr_set_check_sum c) ;;;
  let* f := frame a in
  let* rc := add_page b bp (frame_id_ f).2 (page_ f) in
  if OB_FAIL rc then ret rc
  else upd_frame a (fr_set_dirty false) ;;; ret SUCCESS.
Definition flush_page (b : bpref) (a : faddr) : M W RC := flush_page_internal b a.

(** [BufferPoolManager::flush_page] *)
Definition manager_flush_page (a : faddr) : M W RC :=
  let* f := frame a in
  let* w := get in
  match id_to_buffer_pools_ w !! (frame_id_ f).1 with
  | None => ret INTERNAL
  | Some b => flush_page b a
  end.

(** [allocate_frame]: the loop ends when a frame is found. A round without one frees no frame
    only if no frame is unpinned or the flush fails; the rounds are bounded by the failures
    the device has left *)
Definition purger (b : bpref) (a : faddr) : M W RC :=
  let* f := frame a in
  if negb (dirty_ f) then ret SUCCESS
  else
    let* bp := bp_of b in
    if (frame_id_ f).1 =? id bp then flush_page_internal b a else manager_flush_page a.
Fixpoint allocate_frame_loop (n : nat) (b : bpref) (pn : PageNum) : M W faddr :=
  match n with
  | O => abort
  | S n =>
      let* bp := bp_of b in
      let* r := on_mgr _ (frame_alloc (id bp) pn) in
      match r with
      | Some a => ret a
      | None => purge_frames on_mgr (purger b) 1 ;;; allocate_frame_loop n b pn
      end
  end.
Definition allocate_frame (b : bpref) (pn : PageNum) : M W (RC * faddr) :=
  let* w := get in
  let* a := allocate_frame_loop (length (d_faults (w_dev w)) + 2) b pn in
  ret (SUCCESS, a).

(** [load_page]: the copy in the double write buffer is newer than the file *)
Definition load_page (b : bpref) (pn : PageNum) (a : faddr) : M W RC :=
  let* bp := bp_of b in
  let* r := read_page bp pn in
  match r with
  | (SUCCESS, Some p) => upd_frame a (fr_set_page p) ;;; ret SUCCESS
  | _ =>
      if negb (file_open bp) || (pn <? 0) then ret IOERR_SEEK
      else
        let* w := get in
        match rd (default [] (data_files (w_dev w) !! file_name_ bp)) pn with
        | None => ret IOERR_READ
        | Some p => upd_frame a (fr_set_page p) ;;; upd_frame a (fr_set_page_num pn) ;;; ret SUCCESS
        end
  end.

(** [purge_frame]: a frame with more than one pin is left as it is *)
Definition purge_frame (b : bpref) (pn : PageNum) (a : faddr) : M W RC :=
  let* bp := bp_of b in
  let* f := frame a in
  if negb (pin_count_ f =? 1) then ret LOCKED_UNLOCK
  else
    let* rc := (if dirty_ f then flush_page_internal b a else ret SUCCESS) in
    if negb (bool_decide (rc = SUCCESS)) then ret rc
    else on_mgr _ (frame_free (id bp) pn a) ;;; ret SUCCESS.

Definition get_this_page (b : bpref) (pn : PageNum) : M W (RC * option faddr) :=
  let* bp := bp_of b in
  let* r := on_mgr _ (frame_get (id bp) pn) in
  match r with
  | Some a => ret (SUCCESS, Some a)
  | None =>
      let* r := allocate_frame b pn in
      let a := r.2 in
      upd_frame a (fr_set_buffer_pool_id (id bp)) ;;;
      let* rc := load_page b pn a in
      if negb (bool_decide (rc = SUCCESS)) then purge_frame b pn a ;;; ret (rc, None)
      else ret (SUCCESS, Some a)
  end.
Definition unpin_page (a : faddr) : M W RC := on_mgr _ (unpin a) ;;; ret SUCCESS.
Definition purge_page (b : bpref) (pn : PageNum) : M W RC :=
  let* bp := bp_of b in
  let* r := on_mgr _ (frame_get (id bp) pn) in
  match r with
  | Some a => purge_frame b pn a
  | None => ret SUCCESS
  end.
Definition purge_all_pages (b : bpref) : M W RC :=
  let* bp := bp_of b in
  let* found := on_mgr _ (find_list (id bp)) in
  forM found (λ a, let* f := frame a in purge_frame b (frame_id_ f).2 a ;;; ret tt) ;;;
  ret SUCCESS.
Definition check_all_pages_unpinned (b : bpref) : M W RC :=
  let* bp := bp_of b in
  let* found := on_mgr _ (find_list (id bp)) in
  forM found (λ a, on_mgr _ (unpin a)) ;;;
  ret SUCCESS.
(** [flush_all_pages]: the first failure ends the loop *)
Fixpoint flush_all_loop (b : bpref) (found : list faddr) : M W RC :=
  match found with
  | [] => ret SUCCESS
  | a :: found =>
      let* rc := flush_page b a in
      on_mgr _ (unpin a) ;;;
      if negb (bool_decide (rc = SUCCESS)) then ret rc else flush_all_loop b found
  end.
Definition flush_all_pages (b : bpref) : M W RC :=
  let* bp := bp_of b in
  let* found := on_mgr _ (find_list (id bp)) in
  flush_all_loop b found.

(** ** Allocating and disposing pages *)

Definition hdr_of (b : bpref) : M W faddr := let* bp := bp_of b in liftO (hdr_frame_ bp).

(** [bitmap\[i / 8\] & (1 << (i % 8))], and the updates of that bit *)
Definition page_bit (h : BPFileHeader) (pn : PageNum) : option bool := get_bit (fh_bitmap h) pn.
Definition set_page_bit (pn : PageNum) (h : BPFileHeader) : option BPFileHeader :=
  bm ← set_bit (fh_bitmap h) pn; Some (fh_set_bitmap bm h).
Definition clear_page_bit (pn : PageNum) (h : BPFileHeader) : option BPFileHeader :=
  bm ← clear_bit (fh_bitmap h) pn; Some (fh_set_bitmap bm h).

(** the loop that looks for a free page: [Some (Some i)] the first one, [Some None] none *)
Fixpoint free_page_loop (n : nat) (i : PageNum) (h : BPFileHeader) : option (option PageNum) :=
  match n with
  | O => Some None
  | S n => bit ← page_bit h i; if negb bit then Some (Some i) else free_page_loop n (i + 1) h
  end.
Definition find_free_page (h : BPFileHeader) : option (option PageNum) :=
  if allocated_pages h <? page_count h then free_page_loop (Z.to_nat (page_count h)) 0 h else Some None.

Definition allocate_page (b : bpref) : M W (RC * option faddr) :=
  let* hdr := hdr_of b in
  let* bp := bp_of b in
  let* h := get_header hdr in
  let* free := liftO (find_free_page h) in
  match free with
  | Some i =>
      let* h := liftO (set_page_bit i (fh_counts (page_count h) (wrap32 (allocated_pages h + 1)) h)) in
      set_file_header hdr h ;;;
      upd_frame hdr (fr_set_dirty true) ;;;
      let* r := append_log bp ALLOCATE i in
      upd_frame hdr (fr_set_lsn r.2) ;;;
      get_this_page b i
  | None =>
      if MAX_PAGE_NUM <=? page_count h then ret (BUFFERPOOL_NOBUF, None)
      else
        let* r := append_log bp ALLOCATE (page_count h) in
        upd_frame hdr (fr_set_lsn r.2) ;;;
        let pn := page_count h in
        let* r := allocate_frame b pn in
        let a := r.2 in
        let* h := get_header hdr in
        let* h := liftO (set_page_bit pn (fh_counts (wrap32 (page_count h + 1)) (wrap32 (allocated_pages h + 1)) h)) in
        set_file_header hdr h ;;;
        upd_frame hdr (fr_set_dirty true) ;;;
        upd_frame a (fr_set_buffer_pool_id (id bp)) ;;;
        upd_frame a fr_clear_page ;;;
        let* h := get_header hdr in
        upd_frame a (fr_set_page_num (page_count h - 1)) ;;;
        flush_page_internal b a ;;;
        ret (SUCCESS, Some a)
  end.

Definition dispose_page (b : bpref) (pn : PageNum) : M W RC :=
  if pn =? 0 then ret INTERNAL
  else
    let* bp := bp_of b in
    let* r := on_mgr _ (frame_get (id bp) pn) in
    (match r with Some a => on_mgr _ (frame_free (id bp) pn a) ;;; ret tt | None => ret tt end) ;;;
    let* r := append_log bp DEALLOCATE pn in
    let* hdr := hdr_of b in
    upd_frame hdr (fr_set_lsn r.2) ;;;
    upd_frame hdr (fr_set_dirty true) ;;;
    let* h := get_header hdr in
    let* h := liftO (clear_page_bit pn (fh_counts (page_count h) (wrap32 (allocated_pages h - 1)) h)) in
    set_file_header hdr h ;;;
    ret SUCCESS.

Definition check_page_num (b : bpref) (pn : PageNum) : M W RC :=
  let* hdr := hdr_of b in
  let* h := get_header hdr in
  if page_count h <=? pn then ret BUFFERPOOL_INVALID_PAGE_NUM
  else
    let* bit := liftO (page_bit h pn) in
    if negb bit then ret BUFFERPOOL_INVALID_PAGE_NUM else ret SUCCESS.

(** ** Recovery of the header *)

Definition recover_page (b : bpref) (pn : PageNum) : M W RC :=
  let* hdr := hdr_of b in
  let* h := get_header hdr in
  let* bit := liftO (page_bit h pn) in
  if negb bit then
    let* h := liftO (set_page_bit pn h) in
    set_file_header hdr (fh_counts (wrap32 (page_count h + 1)) (wrap32 (allocated_pages h + 1)) h) ;;;
    upd_frame hdr (fr_set_dirty true) ;;;
    ret SUCCESS
  else ret SUCCESS.

Definition redo_allocate_page (b : bpref) (lsn : LSN) (pn : PageNum) : M W RC :=
  let* hdr := hdr_of b in
  let* f := frame hdr in
  if lsn <=? p_lsn (page_ f) then ret SUCCESS
  else
    let* h := get_header hdr in
    if pn <? page_count h then
      let* bit := liftO (page_bit h pn) in
      if bit then ret SUCCESS
      else
        let* h := liftO (set_page_bit pn h) in
        set_file_header hdr (fh_counts (page_count h) (wrap32 (allocated_pages h + 1)) h) ;;;
        upd_frame hdr (fr_set_dirty true) ;;;
        ret SUCCESS
    else if page_count h <? pn then ret INTERNAL
    else if MAX_PAGE_NUM <=? page_count h then ret INTERNAL
    else
      set_file_header hdr (fh_counts (wrap32 (page_count h + 1)) (wrap32 (allocated_pages h + 1)) h) ;;;
      upd_frame hdr (fr_set_lsn lsn) ;;;
      upd_frame hdr (fr_set_dirty true) ;;;
      let* h := get_header hdr in
      let* h := liftO (set_page_bit pn h) in
      set_file_header hdr h ;;;
      ret SUCCESS.

Definition redo_deallocate_page (b : bpref) (lsn : LSN) (pn : PageNum) : M W RC :=
  let* hdr := hdr_of b in
  let* f := frame hdr in
  if lsn <=? p_lsn (page_ f) then ret SUCCESS
  else
    let* h := get_header hdr in
    if page_count h <=? pn then ret INTERNAL
    else
      let* bit := liftO (page_bit h pn) in
      if negb bit then ret INTERNAL
      else
        let* h := liftO (clear_page_bit pn h) in
        set_file_header hdr (fh_counts (page_count h) (wrap32 (allocated_pages h - 1)) h) ;;;
        upd_frame hdr (fr_set_lsn lsn) ;;;
        upd_frame hdr (fr_set_dirty true) ;;;
        ret SUCCESS.

(** [BufferPoolLogReplayer::replay] *)
Definition bp_replay (e : LogRec) : M W RC :=
  if negb (len (lr_data e) =? BufferPoolLogEntry_SIZE) then ret INVALID_ARGUMENT
  else
    let* i := liftO (field32 (lr_data e) 0) in
    let* op := liftO (field32 (lr_data e) 4) in
    let* pn := liftO (field32 (lr_data e) 8) in
    let* r := get_buffer_pool i in
    match r with
    | (SUCCESS, Some b) =>
        if op =? type_id ALLOCATE then redo_allocate_page b (lr_lsn e) pn
        else if op =? type_id DEALLOCATE then redo_deallocate_page b (lr_lsn e) pn
        else ret INTERNAL
    | (rc, _) => ret rc
    end.

(** ** Opening and closing *)

(** [DiskBufferPool::open_file] on a new object *)
Definition bp_open_file (b : bpref) (name : string) : M W RC :=
  let* w := get in
  match data_files (w_dev w) !! name with
  | None => ret IOERR_ACCESS
  | Some pages =>
      let* bp := bp_of b in
      match head pages with
      | None => set_bp b (mkBP false (id bp) (hdr_frame_ bp) name) ;;; ret IOERR_READ
      | Some p =>
          let* h := liftO (dec_file_header (p_data p)) in
          let i := fh_buffer_pool_id h in
          set_bp b (mkBP true i (hdr_frame_ bp) name) ;;;
          let* r := allocate_frame b BP_HEADER_PAGE in
          let a := r.2 in
          set_bp b (mkBP true i (Some a) name) ;;;
          upd_frame a (fr_set_buffer_pool_id i) ;;;
          let* rc := load_page b BP_HEADER_PAGE a in
          if negb (bool_decide (rc = SUCCESS)) then
            purge_frame b BP_HEADER_PAGE a ;;;
            set_bp b (mkBP false i (Some a) name) ;;;
            ret rc
          else ret SUCCESS
      end
  end.

(** [DiskBufferPool::close_file] up to the call of the manager *)
Definition close_core (b : bpref) : M W RC :=
  let* hdr := hdr_of b in
  on_mgr _ (unpin hdr) ;;;
  purge_all_pages b ;;;
  let* bp := bp_of b in
  let* rc := clear_pages b bp in
  if OB_FAIL rc then ret rc
  else set_bp b (mkBP false (id bp) (hdr_frame_ bp) (file_name_ bp)) ;;; ret SUCCESS.

(** [BufferPoolManager::close_file]: the names are gone before the destructor closes the pool,
    so the destructor's own call of [close_file] of the manager finds nothing *)
Definition manager_close_file (name : string) : M W RC :=
  let* w := get in
  match buffer_pools_ w !! name with
  | None => ret INTERNAL
  | Some b =>
      let* bp := bp_of b in
      modify (λ w, with_names (delete name (buffer_pools_ w)) (delete (id bp) (id_to_buffer_pools_ w)) w) ;;;
      (if file_open bp then close_core b ;;; ret tt else ret tt) ;;;
      modify (λ w, with_objs (delete b (w_objs w)) w) ;;;
      ret SUCCESS
  end.
Definition bp_close_file (b : bpref) : M W RC :=
  let* bp := bp_of b in
  if negb (file_open bp) then ret SUCCESS
  else
    let* rc := close_core b in
    if OB_FAIL rc then ret rc else manager_close_file (file_name_ bp) ;;; ret SUCCESS.

(** [BufferPoolManager::create_file] *)
Definition create_file (name : string) : M W RC :=
  let* w := get in
  match data_files (w_dev w) !! name with
  | Some _ => ret SCHEMA_DB_EXIST
  | None =>
      let i := next_buffer_pool_id_ w in
      let empty := enc_file_header (mkBPFileHeader i 1 1 (1 :: replicate (Z.to_nat (BP_PAGE_DATA_SIZE - BPFileHeader_SIZE - 1)) 0)) in
      modify (λ w, with_dev (mkDev (<[name := []]> (data_files (w_dev w))) (dw_page_cnt (w_dev w)) (dw_slots (w_dev w)) (d_faults (w_dev w)))
                     (with_next_id (wrap32 (i + 1)) w)) ;;;
      let* f := next_fault in
      match f with
      | Some torn => write_data name 0 torn ;;; ret IOERR_WRITE
      | None => write_data name 0 (mkPage 0 0 empty) ;;; ret SUCCESS
      end
  end.

(** [BufferPoolManager::open_file] *)
Definition open_file (name : string) : M W (RC * option bpref) :=
  let* w := get in
  match buffer_pools_ w !! name with
  | Some _ => ret (BUFFERPOOL_OPEN, None)
  | None =>
      let b := fresh (dom (w_objs w)) in
      set_bp b (mkBP false (-1) None ""%string) ;;;
      let* rc := bp_open_file b name in
      if negb (bool_decide (rc = SUCCESS)) then
        modify (λ w, with_objs (delete b (w_objs w)) w) ;;; ret (rc, None)
      else
        let* bp := bp_of b in
        modify (λ w, if next_buffer_pool_id_ w <=? id bp then with_next_id (wrap32 (id bp + 1)) w else w) ;;;
        modify (λ w, with_names (<[name := b]> (buffer_pools_ w))
                       (match id_to_buffer_pools_ w !! id bp with Some _ => id_to_buffer_pools_ w | None => <[id bp := b]> (id_to_buffer_pools_ w) end) w) ;;;
        ret (SUCCESS, Some b)
  end.

(** ** BufferPoolIterator *)

Record BufferPoolIterator := mkBPIterator { it_hdr : faddr; it_size : Z; current_page_num_ : PageNum }.
Definition iterator_init (b : bpref) (start_page : PageNum) : M W BufferPoolIterator :=
  let* hdr := hdr_of b in
  let* h := get_header hdr in
  ret (mkBPIterator hdr (page_count h) (if start_page <=? 0 then -1 else start_page - 1)).
(** the iterator reads the bitmap of the header in place *)
Definition next_page (it : BufferPoolIterator) : M W PageNum :=
  let* h := get_header (it_hdr it) in
  liftO (next_setted_bit (fh_bitmap h) (it_size it) (current_page_num_ it + 1)).
Definition iterator_has_next (it : BufferPoolIterator) : M W bool := let* n := next_page it in ret (negb (n =? -1)).
Definition iterator_next (it : BufferPoolIterator) : M W (PageNum * BufferPoolIterator) :=
  let* n := next_page it in
  ret (n, if negb (n =? -1) then mkBPIterator (it_hdr it) (it_size it) n else it).
Definition iterator_reset (it : BufferPoolIterator) : BufferPoolIterator := mkBPIterator (it_hdr it) (it_size it) 0.
End pool.
