(* ===== verification/BufferPoolSpec.v ===== *)
(** * BufferPoolSpec: what a page holds, and that no operation of the pools changes it

    A page can be in three places: a frame, the double write buffer, its file. [content] is
    what a client would read. [world_ok] is the invariant of the pools on a device without
    faults; the lemmas follow a page through flushing, eviction and loading. *)
From Stdlib Require Import String.
From stdpp Require Import strings sorting.
From S2P Require Import Prelude Types Bitmap Encoding LogHandler LruCache LruSpec FrameManager FrameSpec Crc BufferPool.

(** ** Files of pages *)

Lemma rd_put_eq {A} (z x : A) n l : 0 ≤ n → rd (put_at z n x l) n = Some x.
Proof.
  intros Hn. unfold rd, put_at. rewrite decide_True by done. destruct (n <? len l) eqn:E; zbool.
  - apply list_lookup_insert_eq. unfold len in *. lia.
  - rewrite lookup_app_r by (unfold len in *; lia). rewrite lookup_app_r by (rewrite length_replicate; unfold len in *; lia).
    rewrite length_replicate. replace (Z.to_nat n - length l - Z.to_nat (n - len l))%nat with 0%nat; [done|]. unfold len in *. lia.
Qed.

(** what was there stays *)
Lemma rd_put_ne {A} (z x : A) n m l y : 0 ≤ n → m ≠ n → rd l m = Some y → rd (put_at z n x l) m = Some y.
Proof.
  intros Hn Hne Hr. pose proof (rd_Some_range _ _ _ Hr) as Hm. unfold rd, put_at in *. rewrite decide_True in * by lia.
  destruct (n <? len l) eqn:E; zbool.
  - rewrite list_lookup_insert_ne by lia. done.
  - rewrite lookup_app_l; [done|]. by apply lookup_lt_Some in Hr.
Qed.

Lemma crc32_total bs : is_Some (crc32 bs).
Proof.
  unfold crc32. generalize 0xffffffff. induction bs as [|b bs IH]; intros c; [by eexists|]. cbn [crc_loop].
  unfold crc_step. rewrite crc_table_entry by apply land_byte. cbn. apply IH.
Qed.

Section spec.
Context {L : Type} `{LT : LogTotal L}.
Context (walk_order : gmap FrameId (option DWPage) → list (FrameId * option DWPage)).
Hypothesis walk_perm : ∀ m, walk_order m ≡ₚ map_to_list m.
Abbreviation W := (World L).
Implicit Types (w : W) (key : FrameId) (l : cache).

(** ** Where a page is *)

Definition file_page w key : option Page :=
  b ← id_to_buffer_pools_ w !! key.1; bp ← w_objs w !! b;
  rd (default [] (data_files (w_dev w) !! file_name_ bp)) key.2.
Definition dw_page w key : option Page :=
  match w_dw w with
  | DiskDW d => match dblwr_pages_ d !! key with Some (Some q) => Some (dp_page q) | _ => None end
  | VacuousDW => None
  end.
Definition backing w key : option Page := match dw_page w key with Some p => Some p | None => file_page w key end.
Definition cache_page l w key : option Page := a ← cached l key; f ← memory (w_mgr w) !! a; Some (page_ f).
(** the checksum of a page is only brought up to date when it is flushed *)
Definition view (p : Page) : LSN * list Z := (p_lsn p, p_data p).
Definition content l w key : option (LSN * list Z) :=
  match cache_page l w key with Some p => Some (view p) | None => view <$> backing w key end.

(** ** The invariant *)

Definition dw_entry_ok w key (e : option DWPage) : Prop :=
  ∃ q, e = Some q ∧ (dp_bp q, dp_page_num q) = key ∧ dp_valid q = true ∧ 0 ≤ page_index q ∧ 0 ≤ key.2 ∧ is_Some (id_to_buffer_pools_ w !! key.1).
Record dw_ok w (d : DiskDoubleWriteBuffer) : Prop := {
  do_open : dw_open d = true;
  do_entries key e : dblwr_pages_ d !! key = Some e → dw_entry_ok w key e;
}.

Record pools_ok w : Prop := {
  po_pools i b : id_to_buffer_pools_ w !! i = Some b → ∃ bp, w_objs w !! b = Some bp ∧ id bp = i ∧ file_open bp = true;
  po_names i j b c bp cp : id_to_buffer_pools_ w !! i = Some b → id_to_buffer_pools_ w !! j = Some c →
    w_objs w !! b = Some bp → w_objs w !! c = Some cp → file_name_ bp = file_name_ cp → i = j;
}.

(** [exc]: pages whose frame is being filled or changed by the caller *)
Record world_ok (exc : list FrameId) l w : Prop := {
  wo_mgr : mgr_ok l (w_mgr w);
  wo_pools : pools_ok w;
  wo_dw : ∃ d, w_dw w = DiskDW d ∧ dw_ok w d;
  wo_cached key a : cached l key = Some a → 0 ≤ key.2 ∧ is_Some (id_to_buffer_pools_ w !! key.1);
  wo_clean key a f : cached l key = Some a → memory (w_mgr w) !! a = Some f → dirty_ f = false → key ∉ exc →
    ∃ p, backing w key = Some p ∧ view p = view (page_ f);
  wo_log : log_ready (w_log w);
  wo_faults : d_faults (w_dev w) = [];
}.

(** what changes below the frames *)
Record same_pools w w' : Prop := {
  sp_objs : w_objs w' = w_objs w;
  sp_names : buffer_pools_ w' = buffer_pools_ w;
  sp_ids : id_to_buffer_pools_ w' = id_to_buffer_pools_ w;
  sp_log : waited (w_log w) (w_log w');
}.
(** pages keep what they hold, but for [key] *)
Definition keeps (f g : FrameId → option Page) (exc : option FrameId) : Prop := ∀ key p, Some key ≠ exc → f key = Some p → g key = Some p.

Lemma same_pools_refl w : same_pools w w.
Proof. done. Qed.
Lemma same_pools_trans w1 w2 w3 : same_pools w1 w2 → same_pools w2 w3 → same_pools w1 w3.
Proof. intros [] []. constructor; [congruence..|]. by eapply waited_trans. Qed.
Lemma pools_ok_same w w' : same_pools w w' → pools_ok w → pools_ok w'.
Proof. intros [Ho _ Hi _] [H1 H2]. constructor; rewrite Ho, Hi; done. Qed.
Lemma dw_ok_same w w' d : same_pools w w' → dw_ok w d → dw_ok w' d.
Proof. intros [_ _ Hi _] [H1 H2]. constructor; [done|]. intros key e He. unfold dw_entry_ok. rewrite Hi. by apply H2. Qed.

(** ** Writing to the files *)

Lemma write_page_ok w i b pn p : pools_ok w → id_to_buffer_pools_ w !! i = Some b → 0 ≤ pn → d_faults (w_dev w) = [] →
  ∃ w', write_page b pn p w = Some (SUCCESS, w') ∧ same_pools w w' ∧ w_mgr w' = w_mgr w ∧ w_dw w' = w_dw w ∧ w_log w' = w_log w ∧
    d_faults (w_dev w') = [] ∧ file_page w' (i, pn) = Some p ∧ keeps (file_page w) (file_page w') (Some (i, pn)).
Proof.
  intros Hp Hi Hpn Hf. destruct (po_pools _ Hp i b Hi) as (bp & Hb & Hid & Ho). unfold write_page.
  assert (E : bp_of b w = Some (bp, w)) by (unfold bp_of; by rewrite Hb). rewrite (bind_eq _ _ _ _ _ E). rewrite Ho. cbn [negb orb].
  rewrite (proj2 (Z.ltb_ge _ _)) by lia. unfold next_fault at 1, bind at 1. rewrite Hf. unfold write_data. rewrite bind_modify. unfold ret.
  eexists. split; [done|]. split; [done|]. do 3 (split; [done|]). split; [exact Hf|]. unfold file_page. cbn [fst snd with_dev id_to_buffer_pools_ w_objs w_dev data_files]. split.
  - rewrite Hi. cbn [mbind option_bind]. rewrite Hb. cbn [mbind option_bind]. rewrite lookup_insert_eq. cbn. by apply rd_put_eq.
  - intros [j pm] v Hne Hv. cbn [fst snd] in *. destruct (id_to_buffer_pools_ w !! j) as [c|] eqn:Ej; [|done]. cbn [mbind option_bind] in *.
    destruct (w_objs w !! c) as [cp|] eqn:Ec; [|done]. cbn [mbind option_bind] in *. destruct (decide (file_name_ cp = file_name_ bp)) as [Hn|Hn].
    + assert (j = i) as -> by by eapply (po_names _ Hp). assert (cp = bp) as -> by congruence. rewrite lookup_insert_eq. cbn.
      apply rd_put_ne; [done|congruence|done].
    + by rewrite lookup_insert_ne by congruence.
Qed.

Lemma slot_write_ok w d q : dw_open d = true → 0 ≤ page_index q → d_faults (w_dev w) = [] →
  ∃ w', write_page_internal d q w = Some (SUCCESS, w') ∧ same_pools w w' ∧ w_mgr w' = w_mgr w ∧ w_dw w' = w_dw w ∧ w_log w' = w_log w ∧
    d_faults (w_dev w') = [] ∧ data_files (w_dev w') = data_files (w_dev w).
Proof.
  intros Ho Hi Hf. unfold write_page_internal. rewrite Ho. cbn [negb orb]. rewrite (proj2 (Z.ltb_ge _ _)) by lia.
  unfold next_fault, bind at 1. rewrite Hf. unfold write_slot. rewrite bind_modify. eexists. split; [done|]. by repeat split.
Qed.

Lemma file_page_same w w' key : same_pools w w' → data_files (w_dev w') = data_files (w_dev w) → file_page w' key = file_page w key.
Proof. intros [Ho _ Hi _] Hd. unfold file_page. by rewrite Ho, Hi, Hd. Qed.

(** ** Emptying the double write buffer *)

Lemma dw_flush_loop_ok pages : ∀ w d, pools_ok w → dw_open d = true → d_faults (w_dev w) = [] →
  NoDup (map fst pages) → (∀ key e, (key, e) ∈ pages → dw_entry_ok w key e) →
  ∃ d' w', flush_loop pages d w = Some ((SUCCESS, d'), w') ∧ same_pools w w' ∧ w_mgr w' = w_mgr w ∧ w_dw w' = w_dw w ∧ w_log w' = w_log w ∧
    d_faults (w_dev w') = [] ∧ dw_open d' = true ∧ max_pages_ d' = max_pages_ d ∧
    (∀ key q, (key, Some q) ∈ pages → file_page w' key = Some (dp_page q)) ∧
    (∀ key p, key ∉ map fst pages → file_page w key = Some p → file_page w' key = Some p).
Proof.
  induction pages as [|[key e] pages IH]; intros w d Hp Ho Hf Hnd He.
  { exists d, w. split; [done|]. repeat (split; [done|]). split; [|done]. intros key q Hin. by apply elem_of_nil in Hin. }
  cbn in Hnd. apply NoDup_cons in Hnd as [Hni Hnd]. destruct (He key e) as (q & -> & <- & Hv & Hix & Hpn & [b Hb]); [left|]. cbn [fst snd] in *.
  cbn [flush_loop]. unfold dw_write_page. rewrite Hv. cbn [negb].
  destruct (write_page_ok w (dp_bp q) b (dp_page_num q) (dp_page q) Hp Hb Hpn Hf) as (w1 & E1 & Hs1 & Hm1 & Hd1 & Hl1 & Hf1 & Hw1 & Hk1).
  assert (Eg : get_buffer_pool (dp_bp q) w = Some ((SUCCESS, Some b), w)) by (unfold get_buffer_pool; rewrite bind_get, Hb; done).
  rewrite bind_assoc, (bind_eq _ _ _ _ _ Eg). cbv iota beta. rewrite (bind_eq _ _ _ _ _ E1). rewrite bool_decide_eq_true_2 by done. cbn [negb].
  destruct (slot_write_ok w1 d (set_valid false q) Ho Hix Hf1) as (w2 & E2 & Hs2 & Hm2 & Hd2 & Hl2 & Hf2 & Hdf2). rewrite (bind_eq _ _ _ _ _ E2).
  assert (Hs : same_pools w w2) by by eapply same_pools_trans.
  destruct (IH w2 (dw_set_pages (<[(dp_bp q, dp_page_num q) := None]> (dblwr_pages_ d)) d)) as (d' & w3 & E3 & Hs3 & Hm3 & Hd3 & Hl3 & Hf3 & Ho3 & Hx3 & Hin3 & Hk3).
  { by eapply pools_ok_same. } { done. } { done. } { done. }
  { intros k e' Hin. unfold dw_entry_ok. rewrite (sp_ids _ _ Hs). apply He. by right. }
  exists d', w3. split; [done|]. split; [by eapply same_pools_trans|]. do 2 (split; [congruence|]). split; [congruence|].
  do 2 (split; [done|]). split; [done|]. split.
  - intros k q' [[= -> ->]|Hin]%elem_of_cons; [|by apply Hin3]. apply Hk3; [done|]. rewrite (file_page_same w1 w2) by done. done.
  - intros k p Hk Hfp. cbn in Hk. apply not_elem_of_cons in Hk as [Hk1' Hk2']. apply Hk3; [done|]. rewrite (file_page_same w1 w2) by done.
    apply Hk1; [congruence|done].
Qed.

Lemma flush_dw_ok w d : pools_ok w → dw_ok w d → d_faults (w_dev w) = [] →
  ∃ d' w', flush_page_dw walk_order d w = Some ((SUCCESS, d'), w') ∧ same_pools w w' ∧ w_mgr w' = w_mgr w ∧ w_dw w' = DiskDW d' ∧ w_log w' = w_log w ∧
    d_faults (w_dev w') = [] ∧ dw_open d' = true ∧ max_pages_ d' = max_pages_ d ∧ dblwr_pages_ d' = ∅ ∧
    (∀ key, match dblwr_pages_ d !! key with
      | Some (Some q) => file_page w' key = Some (dp_page q)
      | _ => ∀ p, file_page w key = Some p → file_page w' key = Some p
      end).
Proof.
  intros Hp [Ho He] Hf. unfold flush_page_dw.
  assert (Hnd : NoDup (map fst (walk_order (dblwr_pages_ d)))) by (rewrite walk_perm; apply NoDup_fst_map_to_list).
  destruct (dw_flush_loop_ok (walk_order (dblwr_pages_ d)) w d Hp Ho Hf Hnd) as (d1 & w1 & E & Hs & Hm & Hd & Hl & Hf1 & Ho1 & Hx1 & Hin & Hk).
  { intros key e Hin. rewrite walk_perm in Hin. apply elem_of_map_to_list in Hin. by apply He. }
  rewrite (bind_eq _ _ _ _ _ E). change (OB_FAIL (SUCCESS, d1).1) with false. cbv iota. unfold set_dw. rewrite bind_modify. unfold ret.
  do 2 eexists. split; [done|]. cbn. split; [by destruct Hs|]. do 7 (split; [done|]). intros key. destruct (dblwr_pages_ d !! key) as [e|] eqn:Ek.
  - destruct (He key e Ek) as (q & -> & _). apply Hin. rewrite walk_perm. by apply elem_of_map_to_list.
  - intros p Hfp. apply Hk; [|done]. intros ([k e'] & -> & Hin')%list_elem_of_fmap. rewrite walk_perm in Hin'. apply elem_of_map_to_list in Hin'. cbn in *. congruence.
Qed.

(** ** Adding a page to the double write buffer *)

Lemma dw_page_flushed w d key : w_dw w = DiskDW d → dblwr_pages_ d = ∅ → dw_page w key = None.
Proof. intros Hd He. unfold dw_page. by rewrite Hd, He, lookup_empty. Qed.

Lemma dw_ok_insert w d key q h : dw_ok w d → dw_entry_ok w key (Some q) →
  dw_ok w (dw_set_header h (dw_set_pages (<[key := Some q]> (dblwr_pages_ d)) d)).
Proof.
  intros [Ho He] Hq. constructor; [done|]. cbn. intros k e [[<- <-]|[Hne Hk]]%lookup_insert_Some; [done|by apply He].
Qed.

(** the double write buffer [d], with the page added, is written out if it is full *)
Lemma add_finish w d : pools_ok w → dw_ok w d → d_faults (w_dev w) = [] → w_dw w = DiskDW d →
  ∃ w', (if max_pages_ d <=? Z.of_nat (size (dblwr_pages_ d)) then let* r := flush_page_dw walk_order d in ret r.1 else ret SUCCESS) w = Some (SUCCESS, w') ∧
    same_pools w w' ∧ w_mgr w' = w_mgr w ∧ w_log w' = w_log w ∧ d_faults (w_dev w') = [] ∧ (∃ d', w_dw w' = DiskDW d' ∧ dw_ok w' d') ∧
    keeps (backing w) (backing w') None.
Proof.
  intros Hp Hok Hf Hd. destruct (max_pages_ d <=? Z.of_nat (size (dblwr_pages_ d))).
  - destruct (flush_dw_ok w d Hp Hok Hf) as (d' & w' & E & Hs & Hm & Hd' & Hl & Hf' & Ho' & Hx' & Hem & Hk).
    rewrite (bind_eq _ _ _ _ _ E). exists w'. split; [done|]. do 4 (split; [done|]). split.
    + exists d'. split; [done|]. constructor; [done|]. rewrite Hem. intros key e. by rewrite lookup_empty.
    + intros key p _ Hb. unfold backing in *. rewrite (dw_page_flushed w' d' key Hd' Hem). unfold dw_page in Hb. rewrite Hd in Hb.
      specialize (Hk key). destruct (dblwr_pages_ d !! key) as [[q|]|]; [congruence|by apply Hk..].
  - exists w. split; [done|]. do 4 (split; [done|]). split; [by exists d|]. by intros key p _ Hb.
Qed.

Lemma add_page_ok w b i pn p d bp : pools_ok w → w_dw w = DiskDW d → dw_ok w d → d_faults (w_dev w) = [] →
  id_to_buffer_pools_ w !! i = Some b → w_objs w !! b = Some bp → 0 ≤ pn →
  ∃ w', add_page walk_order b bp pn p w = Some (SUCCESS, w') ∧ same_pools w w' ∧ w_mgr w' = w_mgr w ∧ w_log w' = w_log w ∧
    d_faults (w_dev w') = [] ∧ (∃ d', w_dw w' = DiskDW d' ∧ dw_ok w' d') ∧
    backing w' (i, pn) = Some p ∧ keeps (backing w) (backing w') (Some (i, pn)).
Proof.
  intros Hp Hd Hok Hf Hi Hb Hpn. destruct (po_pools _ Hp i b Hi) as (bp' & Hb' & Hid & Hop). assert (bp' = bp) as -> by congruence. clear Hb'.
  unfold add_page. rewrite bind_get, Hd. unfold dw_add_page. rewrite Hid.
  destruct (dblwr_pages_ d !! (i, pn)) as [e|] eqn:Ek.
  - destruct (do_entries _ _ Hok _ _ Ek) as (q & -> & Hkey & Hv & Hix & _ & _). injection Hkey as Hq1 Hq2.
    set (q' := mkDWPage (dp_bp q) (dp_page_num q) (page_index q) (dp_valid q) p).
    set (d1 := dw_set_pages (<[(i, pn) := Some q']> (dblwr_pages_ d)) d). unfold set_dw. rewrite bind_modify.
    destruct (slot_write_ok (with_dw (DiskDW d1) w) d q' (do_open _ _ Hok) Hix Hf) as (w' & E & Hs & Hm & Hdw & Hl & Hf' & Hdf).
    exists w'. split; [exact E|]. assert (Hs' : same_pools w w') by (destruct Hs; by constructor). do 4 (split; [done|]).
    assert (Hok1 : dw_ok w d1).
    { apply (dw_ok_insert w d (i, pn) q' (dw_header d1) Hok). exists q'. split; [done|]. cbn. rewrite Hq1, Hq2, Hi. eauto. }
    split; [exists d1; split; [done|by eapply dw_ok_same]|]. unfold backing, dw_page. rewrite Hdw. cbn [with_dw w_dw d1 dw_set_pages dblwr_pages_]. split.
    + by rewrite lookup_insert_eq.
    + intros key v Hne Hv'. rewrite Hd in Hv'. rewrite lookup_insert_ne by congruence. rewrite (file_page_same w w') by done. done.
  - set (q := mkDWPage i pn (Z.of_nat (size (dblwr_pages_ d))) true p).
    set (d1 := dw_set_pages (<[(i, pn) := Some q]> (dblwr_pages_ d)) d). unfold set_dw. rewrite bind_modify.
    destruct (slot_write_ok (with_dw (DiskDW d1) w) d1 q (do_open _ _ Hok) ltac:(cbn; lia) Hf) as (w1 & E1 & Hs1 & Hm1 & Hdw1 & Hl1 & Hf1 & Hdf1).
    rewrite (bind_eq _ _ _ _ _ E1). change (OB_FAIL SUCCESS) with false. cbv iota zeta.
    set (grow := dw_header d1 <? _). set (d2 := if grow then dw_set_header (Z.of_nat (size (dblwr_pages_ d)) + 1) d1 else d1).
    assert (Hok2 : dw_ok w d2).
    { assert (Hq : dw_entry_ok w (i, pn) (Some q)) by (exists q; split; [done|]; cbn; rewrite Hi; split; [done|]; split; [done|]; split; [lia|]; eauto).
      unfold d2. destruct grow; apply (dw_ok_insert w d (i, pn) q _ Hok Hq). }
    rewrite bind_modify.
    set (w2 := with_dw (DiskDW d2) w1).
    assert (Hgo : ∃ w3, (let* f := (if grow then next_fault else ret None) in
        match f with
        | Some _ => ret IOERR_WRITE
        | None => (if grow then write_dw_header (Z.of_nat (size (dblwr_pages_ d)) + 1) else ret tt) ;;;
            if max_pages_ d2 <=? Z.of_nat (size (dblwr_pages_ d2)) then let* r := flush_page_dw walk_order d2 in ret r.1 else ret SUCCESS
        end) w2 =
        (if max_pages_ d2 <=? Z.of_nat (size (dblwr_pages_ d2)) then let* r := flush_page_dw walk_order d2 in ret r.1 else ret SUCCESS) w3 ∧
        same_pools w w3 ∧ w_mgr w3 = w_mgr w ∧ w_log w3 = w_log w ∧ d_faults (w_dev w3) = [] ∧ w_dw w3 = DiskDW d2 ∧ data_files (w_dev w3) = data_files (w_dev w)).
    { destruct Hs1 as [Ho1 Hn1 Hi1]. destruct grow.
      - unfold next_fault, bind at 1. cbn [w2 with_dw w_dev]. rewrite Hf1. unfold write_dw_header. rewrite bind_modify. eexists. split; [done|]. by repeat split.
      - rewrite bind_ret. unfold ret at 1, bind at 1. eexists. split; [done|]. by repeat split. }
    destruct Hgo as (w3 & E3 & Hs3 & Hm3 & Hl3 & Hf3 & Hd3 & Hdf3). rewrite E3.
    destruct (add_finish w3 d2) as (w' & E' & Hs' & Hm' & Hl' & Hf' & Hd' & Hk'); [by eapply pools_ok_same|by eapply dw_ok_same|done|done|].
    exists w'. split; [done|]. split; [by eapply same_pools_trans|]. do 2 (split; [congruence|]). split; [done|]. split; [done|].
    assert (Hd2 : dblwr_pages_ d2 = <[(i, pn) := Some q]> (dblwr_pages_ d)) by (unfold d2; by destruct grow). split.
    + apply Hk'; [done|]. unfold backing, dw_page. rewrite Hd3, Hd2, lookup_insert_eq. done.
    + intros key v Hne Hv. apply Hk'; [done|]. unfold backing, dw_page in *. rewrite Hd in Hv. rewrite Hd3, Hd2, lookup_insert_ne by congruence.
      rewrite (file_page_same w w3) by done. done.
Qed.

(** ** Flushing a frame *)

Lemma content_keep l w w' exc : w_mgr w' = w_mgr w → keeps (backing w) (backing w') exc →
  ∀ key v, Some key ≠ exc → content l w key = Some v → content l w' key = Some v.
Proof.
  intros Hm Hk key v Hne. unfold content, cache_page. rewrite Hm. destruct (a ← cached l key; _) as [p|]; [done|].
  destruct (backing w key) as [p|] eqn:E; [|done]. cbn. intros [= <-]. by rewrite (Hk key p Hne E).
Qed.

Lemma frame_ok w a f : memory (w_mgr w) !! a = Some f → frame a w = Some (f, w).
Proof. intros Hf. unfold frame, on_mgr, frame_at. rewrite Hf. by destruct w. Qed.
Lemma upd_frame_ok w a g f : memory (w_mgr w) !! a = Some f →
  upd_frame a g w = Some (tt, with_mgr (mkFrameMgr (<[a := g f]> (memory (w_mgr w))) (frames_ (w_mgr w)) (allocator_ (w_mgr w))) w).
Proof. intros Hf. unfold upd_frame, on_mgr, frame_upd. by rewrite Hf. Qed.

(** changing a frame without changing its id or pins *)
Lemma mgr_ok_insert l m a f f' : mgr_ok l m → memory m !! a = Some f → frame_id_ f' = frame_id_ f → pin_count_ f' = pin_count_ f →
  mgr_ok l (mkFrameMgr (<[a := f']> (memory m)) (frames_ m) (allocator_ m)).
Proof.
  intros Hok Hf Hi Hp. eapply mgr_ok_same; [done|apply (mo_lru _ _ Hok)|done|]. intros c. destruct (decide (c = a)) as [->|].
  - rewrite Hf, lookup_insert_eq. split; [done|]. split; [|done]. rewrite Hp. by eapply mo_pins.
  - rewrite lookup_insert_ne by done. destruct (memory m !! c) as [g|] eqn:E; [|done]. split; [done|]. split; [by eapply mo_pins|done].
Qed.

(** a cached frame after it has been written out *)
Definition flushed_frame (c : Z) (f : Frame) : Frame := fr_set_dirty false (fr_set_check_sum c f).

Lemma flush_page_internal_ok exc l w b key a f : world_ok exc l w → cached l key = Some a → memory (w_mgr w) !! a = Some f →
  id_to_buffer_pools_ w !! key.1 = Some b →
  ∃ c w', flush_page_internal walk_order b a w = Some (SUCCESS, w') ∧ world_ok exc l w' ∧ same_pools w w' ∧
    w_mgr w' = mkFrameMgr (<[a := flushed_frame c f]> (memory (w_mgr w))) (frames_ (w_mgr w)) (allocator_ (w_mgr w)) ∧
    (∃ p, backing w' key = Some p ∧ view p = view (page_ f)) ∧ keeps (backing w) (backing w') (Some key).
Proof.
  intros Hok Hc Hf Hb. destruct Hok as [Hm Hp (d & Hd & Hdw) Hca Hcl Hlg Hfa].
  destruct (cached_frame _ _ _ _ Hm Hc) as (f' & Hf' & Hid & Hpin). assert (f' = f) as -> by congruence. clear Hf'.
  destruct (po_pools _ Hp _ _ Hb) as (bp & Hbp & Hbid & Hop). destruct (Hca _ _ Hc) as [Hpn _].
  unfold flush_page_internal. assert (E0 : bp_of b w = Some (bp, w)) by (unfold bp_of; by rewrite Hbp). rewrite (bind_eq _ _ _ _ _ E0).
  rewrite (bind_eq _ _ _ _ _ (frame_ok w a f Hf)).
  destruct (wait_total (w_log w) (p_lsn (page_ f)) Hlg) as (rc & lg & Ew & Hlg').
  assert (E1 : log_flush_page (page_ f) w = Some (rc, with_log lg w)) by (unfold log_flush_page, on_log; by rewrite Ew).
  rewrite (bind_eq _ _ _ _ _ E1). destruct (crc32_total (p_data (page_ f))) as [c Hcrc]. rewrite (bind_liftO _ _ _ _ Hcrc).
  set (w1 := with_log lg w). rewrite (bind_eq _ _ _ _ _ (upd_frame_ok w1 a _ f Hf)). cbn [w_mgr with_log w1].
  set (f1 := fr_set_check_sum c f). set (m1 := mkFrameMgr _ _ _). set (w2 := with_mgr m1 w1).
  assert (Hf1 : memory (w_mgr w2) !! a = Some f1) by apply lookup_insert_eq.
  rewrite (bind_eq _ _ _ _ _ (frame_ok w2 a f1 Hf1)).
  assert (Hp2 : pools_ok w2) by (destruct Hp; by constructor). assert (Hdw2 : dw_ok w2 d) by (destruct Hdw; by constructor).
  change (frame_id_ f1) with (frame_id_ f). rewrite Hid.
  destruct (add_page_ok w2 b key.1 key.2 (page_ f1) d bp Hp2 Hd Hdw2 Hfa Hb Hbp Hpn) as (w3 & E3 & Hs3 & Hm3 & Hl3 & Hf3 & Hd3 & Hb3 & Hk3).
  rewrite (bind_eq _ _ _ _ _ E3). change (OB_FAIL SUCCESS) with false. cbv iota.
  assert (Hf3' : memory (w_mgr w3) !! a = Some f1) by by rewrite Hm3.
  rewrite (bind_eq _ _ _ _ _ (upd_frame_ok w3 a _ f1 Hf3')). unfold ret.
  set (m4 := mkFrameMgr _ _ _). exists c, (with_mgr m4 w3). split; [done|].
  assert (Hm4 : m4 = mkFrameMgr (<[a := flushed_frame c f]> (memory (w_mgr w))) (frames_ (w_mgr w)) (allocator_ (w_mgr w))).
  { unfold m4. rewrite Hm3. cbn. by rewrite insert_insert_eq. }
  assert (Hs : same_pools w (with_mgr m4 w3)).
  { destruct Hs3 as [? ? ? Hl]. constructor; [done..|]. exact (waited_trans _ _ _ (waited_once _ _ _ _ Ew) Hl). }
  replace (key.1, key.2) with key in * by by destruct key.
  assert (Hback : backing (with_mgr m4 w3) key = Some (page_ f1)) by exact Hb3.
  assert (Hkeep : keeps (backing w) (backing (with_mgr m4 w3)) (Some key)) by exact Hk3.
  split; [|split; [done|]; split; [exact Hm4|]; split; [by eexists|done]].
  constructor; cbn [with_mgr w_mgr w_dw w_log w_dev].
  - rewrite Hm4. by apply (mgr_ok_insert l (w_mgr w) a f).
  - by eapply pools_ok_same.
  - destruct Hd3 as (d' & Hd' & Hok'). exists d'. split; [done|]. destruct Hok'. by constructor.
  - intros k c' Hk. change (id_to_buffer_pools_ (with_mgr m4 w3)) with (id_to_buffer_pools_ w3). rewrite (sp_ids _ _ Hs3). by apply (Hca k c').
  - intros k c' g Hk Hg Hdirty Hex. destruct (decide (k = key)) as [->|Hne].
    + assert (c' = a) as -> by congruence. rewrite Hm4 in Hg. cbn in Hg. rewrite lookup_insert_eq in Hg. injection Hg as <-.
      exists (page_ f1). done.
    + rewrite Hm4 in Hg. cbn in Hg. rewrite lookup_insert_ne in Hg by (intros <-; apply Hne; by apply (cached_inj l (w_mgr w) k key a)).
      destruct (Hcl k c' g Hk Hg Hdirty Hex) as (p & Hpb & Hv). exists p. split; [|done]. apply Hkeep; [congruence|done].
  - rewrite Hl3. exact Hlg'.
  - exact Hf3.
Qed.

(** ** Evicting a frame *)

Lemma on_mgr_eq {A B} (c : M FrameMgr A) (k : A → M W B) w a m : c (w_mgr w) = Some (a, m) → bind (on_mgr A c) k w = k a (with_mgr m w).
Proof. intros E. unfold bind, on_mgr. by rewrite E. Qed.

(** a change of the frame manager that keeps pages and dirty marks keeps the invariant *)
Lemma world_ok_mgr exc exc' l l' w m :
  world_ok exc l w → mgr_ok l' m →
  (∀ key a, cached l' key = Some a → 0 ≤ key.2 ∧ is_Some (id_to_buffer_pools_ w !! key.1)) →
  (∀ key a f, cached l' key = Some a → memory m !! a = Some f → dirty_ f = false → key ∉ exc' →
     ∃ f0, cached l key = Some a ∧ memory (w_mgr w) !! a = Some f0 ∧ dirty_ f0 = false ∧ page_ f0 = page_ f ∧ key ∉ exc) →
  world_ok exc' l' (with_mgr m w).
Proof.
  intros [Hm Hp Hd Hca Hcl Hlg Hfa] Hm' Hca' Hcl'. constructor; cbn [with_mgr w_mgr w_dw w_log w_dev]; try done.
  - destruct Hp. by constructor.
  - destruct Hd as (d & Hd & []). exists d. split; [done|]. by constructor.
  - intros key a f Hc Hf Hdi Hne. destruct (Hcl' key a f Hc Hf Hdi Hne) as (f0 & Hc0 & Hf0 & Hd0 & Hpg & Hx).
    destruct (Hcl key a f0 Hc0 Hf0 Hd0 Hx) as (p & Hb & Hv). exists p. split; [done|]. by rewrite <-Hpg.
Qed.

Lemma purger_ok exc l w b bp key a f : world_ok exc l w → w_objs w !! b = Some bp → id_to_buffer_pools_ w !! id bp = Some b →
  cached l key = Some a → memory (w_mgr w) !! a = Some f →
  ∃ f' w', purger walk_order b a w = Some (SUCCESS, w') ∧ world_ok exc l w' ∧ same_pools w w' ∧
    w_mgr w' = mkFrameMgr (<[a := f']> (memory (w_mgr w))) (frames_ (w_mgr w)) (allocator_ (w_mgr w)) ∧
    dirty_ f' = false ∧ pin_count_ f' = pin_count_ f ∧ frame_id_ f' = frame_id_ f ∧ view (page_ f') = view (page_ f) ∧
    (key ∉ exc → ∃ p, backing w' key = Some p ∧ view p = view (page_ f)) ∧ keeps (backing w) (backing w') (Some key).
Proof.
  intros Hok Hbp Hid Hc Hf. destruct (cached_frame _ _ _ _ (wo_mgr _ _ _ Hok) Hc) as (f0 & Hf0 & Hkey & _). assert (f0 = f) as -> by congruence. clear Hf0.
  unfold purger. rewrite (bind_eq _ _ _ _ _ (frame_ok w a f Hf)). destruct (dirty_ f) eqn:Edirty; cbn [negb].
  - destruct (wo_cached _ _ _ Hok _ _ Hc) as [_ [b' Hb']].
    destruct (flush_page_internal_ok exc l w b' key a f Hok Hc Hf Hb') as (c & w' & E & Hok' & Hs & Hm & Hb & Hk).
    exists (flushed_frame c f), w'. assert (Ebp : bp_of b w = Some (bp, w)) by (unfold bp_of; by rewrite Hbp). rewrite (bind_eq _ _ _ _ _ Ebp).
    rewrite Hkey. split; [|do 7 (split; [done|]); by split]. destruct (key.1 =? id bp) eqn:Eid; zbool.
    + rewrite Eid in Hb'. assert (b' = b) as -> by congruence. exact E.
    + unfold manager_flush_page. rewrite (bind_eq _ _ _ _ _ (frame_ok w a f Hf)), bind_get, Hkey, Hb'. exact E.
  - exists f, w. split; [done|]. split; [done|]. split; [done|]. split.
    { rewrite insert_id by done. by destruct (w_mgr w). }
    do 4 (split; [done|]). split; [|by intros k p _ ?]. intros Hx. by apply (wo_clean _ _ _ Hok key a f).
Qed.

(** a page that is below the frames stays there *)
Definition backed w w' : Prop := ∀ k, is_Some (backing w k) → is_Some (backing w' k).

Lemma backed_trans w1 w2 w3 : backed w1 w2 → backed w2 w3 → backed w1 w3.
Proof. unfold backed. auto. Qed.
Lemma backed_keeps w w' key : keeps (backing w) (backing w') (Some key) → is_Some (backing w' key) → backed w w'.
Proof. intros Hk Hb k [p Hp]. destruct (decide (k = key)) as [->|Hne]; [done|]. exists p. apply Hk; [congruence|done]. Qed.

(** some frame can be had: a free one, or one that nobody has pinned *)
Definition available l w : Prop := frees (allocator_ (w_mgr w)) ≠ [] ∨ ∃ key a, cached l key = Some a ∧ purgeable (w_mgr w) a.

(** somebody has them pinned *)
Definition exc_pinned (exc : list FrameId) l w : Prop :=
  ∀ key a f, key ∈ exc → cached l key = Some a → memory (w_mgr w) !! a = Some f → 0 < pin_count_ f.

Lemma exc_pinned_same exc l w l' w' : (∀ k, cached l' k = cached l k) → memory (w_mgr w') = memory (w_mgr w) → exc_pinned exc l w → exc_pinned exc l' w'.
Proof. intros Hc Hm Hex k a f Hk Ha Hf. apply (Hex k a f Hk); [by rewrite <-Hc|by rewrite <-Hm]. Qed.

Lemma purge_one_ok exc l w b bp : world_ok exc l w → exc_pinned exc l w → w_objs w !! b = Some bp → id_to_buffer_pools_ w !! id bp = Some b →
  (∃ key a, cached l key = Some a ∧ purgeable (w_mgr w) a) →
  ∃ key a l' w', purge_frames on_mgr (purger walk_order b) 1 w = Some (1, w') ∧ world_ok exc l' w' ∧ same_pools w w' ∧
    l ≡ₚ (key, a) :: l' ∧ purgeable (w_mgr w) a ∧ frees (allocator_ (w_mgr w')) = frees (allocator_ (w_mgr w)) ++ [a] ∧
    (∀ c, c ≠ a → memory (w_mgr w') !! c = memory (w_mgr w) !! c) ∧
    (∀ k v, content l w k = Some v → content l' w' k = Some v) ∧ backed w w'.
Proof.
  intros Hok Hex Hbp Hid Hav. unfold purge_frames.
  destruct (find_purgeable_ok l (w_mgr w) (wo_mgr _ _ _ Hok)) as [(key & a & f & m1 & E & Hc & Hf & Hpin & Hok1 & Hm1 & Hal1)|[E Hno]].
  2:{ destruct Hav as (key & a & Hc & Hp). exfalso. exact (Hno key a Hc Hp). }
  rewrite (on_mgr_eq _ _ _ _ _ E). cbn [purge_loop].
  set (w1 := with_mgr m1 w). set (f1 := fr_set_pin 1 f).
  assert (Hf1 : memory m1 !! a = Some f1) by (rewrite Hm1, (repin_lookup a 1 _ _ _ Hf), decide_True by done; by rewrite Hpin).
  assert (Hoth1 : ∀ c, c ≠ a → memory m1 !! c = memory (w_mgr w) !! c) by (intros c Hne; rewrite Hm1; unfold repin; by rewrite lookup_alter_ne).
  assert (Hw1 : world_ok exc l w1).
  { apply (world_ok_mgr exc exc l l w m1 Hok Hok1); [apply (wo_cached _ _ _ Hok)|]. intros k c g Hk Hg Hd Hne. destruct (decide (c = a)) as [->|].
    - assert (g = f1) as -> by congruence. exists f. done.
    - rewrite Hoth1 in Hg by done. by exists g. }
  assert (Hnx : key ∉ exc) by (intros Hx; pose proof (Hex key a f Hx Hc Hf); lia).
  destruct (purger_ok exc l w1 b bp key a f1 Hw1 Hbp Hid Hc Hf1) as (f2 & w2 & E2 & Hw2 & Hs2 & Hm2 & Hd2 & Hp2 & Hi2 & Hv2 & Hb2 & Hk2).
  rewrite (bind_eq _ _ _ _ _ E2). rewrite bool_decide_eq_true_2 by done.
  assert (Hf2 : memory (w_mgr w2) !! a = Some f2) by (rewrite Hm2; apply lookup_insert_eq).
  assert (Efr : frame_at a (w_mgr w2) = Some (f2, w_mgr w2)) by (unfold frame_at; by rewrite Hf2).
  rewrite (on_mgr_eq _ _ _ _ _ Efr). replace (with_mgr (w_mgr w2) w2) with w2 by by destruct w2.
  destruct (cached_frame _ _ _ _ (wo_mgr _ _ _ Hw2) Hc) as (f2' & Hf2' & Hkey & _). assert (f2' = f2) as -> by congruence. rewrite Hkey.
  destruct (free_internal_ok l (w_mgr w2) key a f2 (wo_mgr _ _ _ Hw2) Hc Hf2 ltac:(rewrite Hp2; done)) as (l' & m3 & E3 & Hok3 & Hl & Hm3 & Hfr3).
  rewrite (on_mgr_eq _ _ _ _ _ E3). cbn [purge_loop]. unfold ret.
  assert (Hcl : ∀ k, k ≠ key → cached l' k = cached l k).
  { intros k Hne. rewrite (cached_perm l _ (w_mgr w2) k (wo_mgr _ _ _ Hw2) Hl). unfold cached. cbn. by rewrite decide_False by (cbn; congruence). }
  assert (Hcn : cached l' key = None).
  { apply find_None. pose proof (mgr_keys _ _ (wo_mgr _ _ _ Hw2)) as Hnd. rewrite Hl in Hnd. cbn in Hnd. by apply NoDup_cons in Hnd as [? _]. }
  assert (Hsub : ∀ k c, cached l' k = Some c → k ≠ key ∧ cached l k = Some c ∧ c ≠ a).
  { intros k c Hk. assert (Hne : k ≠ key) by congruence. rewrite Hcl in Hk by done. split; [done|]. split; [done|]. intros ->. apply Hne.
    by apply (cached_inj l (w_mgr w2) k key a (wo_mgr _ _ _ Hw2)). }
  exists key, a, l', (with_mgr m3 w2). split; [done|]. split; [|split; [by destruct Hs2; constructor|]; split; [done|]; split; [by exists f|]].
  { apply (world_ok_mgr exc exc l l' w2 m3 Hw2 Hok3).
    - intros k c Hk. destruct (Hsub k c Hk) as (_ & Hk' & _). by apply (wo_cached _ _ _ Hw2 k c).
    - intros k c g Hk Hg Hd Hne. destruct (Hsub k c Hk) as (Hnk & Hk' & Hna). rewrite Hm3, lookup_insert_ne in Hg by done. by exists g. }
  cbn [with_mgr w_mgr]. split; [by rewrite Hfr3, Hm2; cbn; rewrite Hal1|]. split.
  { intros c Hne. rewrite Hm3, lookup_insert_ne, Hm2 by done. cbn. rewrite lookup_insert_ne by done. by apply Hoth1. }
  split; [|apply (backed_keeps w w2 key); [exact Hk2|]; destruct Hb2 as (p & Hbk & _); [done|by exists p]].
  intros k v Hv. destruct (decide (k = key)) as [->|Hne].
  - destruct Hb2 as (p & Hbk & Hpv); [done|]. unfold content, cache_page in *. rewrite Hcn. cbn. rewrite Hc in Hv. cbn in Hv. rewrite Hf in Hv. cbn in Hv.
    change (backing (with_mgr m3 w2)) with (backing w2). rewrite Hbk. cbn. rewrite Hpv. done.
  - unfold content, cache_page in *. rewrite Hcl by done. cbn [with_mgr w_mgr]. destruct (cached l k) as [c|] eqn:Ek; cbn in *.
    + assert (Hna : c ≠ a) by (intros ->; apply Hne; by apply (cached_inj l (w_mgr w2) k key a (wo_mgr _ _ _ Hw2))).
      rewrite Hm3, lookup_insert_ne, Hm2 by done. cbn. rewrite lookup_insert_ne, Hoth1 by done.
      destruct (cached_frame _ _ _ _ (wo_mgr _ _ _ Hok) Ek) as (g & Hg & _). rewrite Hg in *. done.
    + change (backing (with_mgr m3 w2)) with (backing w2). change (backing w1) with (backing w) in Hk2.
      destruct (backing w k) as [p|] eqn:Eb; [|done]. rewrite (Hk2 k p) by (done || congruence). done.
Qed.

(** ** Getting a page *)

(** a frame stays where it is as long as somebody has it pinned *)
Definition pinned_stay l w l' w' : Prop := ∀ key a f, cached l key = Some a → memory (w_mgr w) !! a = Some f → 0 < pin_count_ f →
  cached l' key = Some a ∧ ∃ f', memory (w_mgr w') !! a = Some f' ∧ pin_count_ f' = pin_count_ f ∧ view (page_ f') = view (page_ f) ∧ (dirty_ f = true → dirty_ f' = true).

Lemma pinned_stay_refl l w : pinned_stay l w l w.
Proof. intros key a f Hc Hf Hp. split; [done|]. by exists f. Qed.
Lemma pinned_stay_trans l1 w1 l2 w2 l3 w3 : pinned_stay l1 w1 l2 w2 → pinned_stay l2 w2 l3 w3 → pinned_stay l1 w1 l3 w3.
Proof.
  intros H1 H2 key a f Hc Hf Hp. destruct (H1 _ _ _ Hc Hf Hp) as (Hc2 & f2 & Hf2 & Hp2 & Hv2 & Hd2).
  destruct (H2 _ _ _ Hc2 Hf2 ltac:(lia)) as (Hc3 & f3 & Hf3 & Hp3 & Hv3 & Hd3). split; [done|]. exists f3. split; [done|]. split; [congruence|]. split; [congruence|auto].
Qed.

(** nobody else gets a page in or a pin *)
Definition no_new_pins key l w l' w' : Prop := ∀ k n, k ≠ key → pins l' (memory (w_mgr w')) k = Some n → pins l (memory (w_mgr w)) k = Some n.

Lemma no_new_pins_of key l w l' w' : mgr_ok l' (w_mgr w') →
  (∀ k c, k ≠ key → cached l' k = Some c → cached l k = Some c ∧ memory (w_mgr w) !! c = memory (w_mgr w') !! c) → no_new_pins key l w l' w'.
Proof.
  intros Hok Hsub k n Hne (c & f & Hc & Hf & Hn)%(pins_Some _ _ _ _ Hok). destruct (Hsub k c Hne Hc) as [Hc0 Hm].
  unfold pins. rewrite Hc0. cbn. rewrite Hm, Hf. cbn. by rewrite Hn.
Qed.

(** the frame manager gives [key] a free frame *)
Lemma alloc_fresh_ok exc l w key a fs : world_ok exc l w → cached l key = None → frees (allocator_ (w_mgr w)) = a :: fs →
  0 ≤ key.2 → is_Some (id_to_buffer_pools_ w !! key.1) →
  ∃ f l' m', frame_alloc key.1 key.2 (w_mgr w) = Some (Some a, m') ∧ world_ok (key :: exc) l' (with_mgr m' w) ∧ l' ≡ₚ (key, a) :: l ∧
    frees (allocator_ m') = fs ∧ memory m' = <[a := mkFrame (dirty_ f) 1 key (page_ f)]> (memory (w_mgr w)) ∧
    cached l' key = Some a ∧ (∀ k, k ≠ key → cached l' k = cached l k) ∧
    pinned_stay l w l' (with_mgr m' w) ∧ (∀ k v, k ≠ key → content l w k = Some v → content l' (with_mgr m' w) k = Some v).
Proof.
  intros Hok Hc Hfr Hpn Hid. pose proof (frame_alloc_ok l (w_mgr w) key (wo_mgr _ _ _ Hok)) as Ha. rewrite Hc, Hfr in Ha.
  destruct Ha as (f & l' & m' & E & Hf & Hok' & Hl & Hfs & Hm). exists f, l', m'. split; [done|].
  assert (Hcl : ∀ k, cached l' k = if decide (k = key) then Some a else cached l k).
  { intros k. rewrite (cached_perm l' _ m' k Hok' Hl). unfold cached. cbn. case_decide as Hk; cbn in Hk; [by rewrite decide_True|]. by rewrite decide_False by congruence. }
  assert (Hna : ∀ k c, cached l k = Some c → c ≠ a).
  { intros k c Hk ->. assert (Hin : a ∈ frees (allocator_ (w_mgr w))) by (rewrite Hfr; left). destruct (mo_free _ _ (wo_mgr _ _ _ Hok) a Hin) as [Hn _].
    apply Hn. apply (cached_elem _ _ _ _ (wo_mgr _ _ _ Hok)) in Hk. apply list_elem_of_fmap. by exists (k, a). }
  split.
  { apply (world_ok_mgr exc (key :: exc) l l' w m' Hok Hok').
    - intros k c Hk. rewrite Hcl in Hk. case_decide; [by subst|]. by apply (wo_cached _ _ _ Hok k c).
    - intros k c g Hk Hg Hd Hne. apply not_elem_of_cons in Hne as [Hne Hnx]. rewrite Hcl, decide_False in Hk by done.
      rewrite Hm, lookup_insert_ne in Hg by (intros <-; by eapply Hna). by exists g. }
  do 3 (split; [done|]). split; [by rewrite Hcl, decide_True|]. split; [intros k Hne; by rewrite Hcl, decide_False|]. split.
  - intros k c g Hk Hg Hp. rewrite Hcl. rewrite decide_False by congruence. split; [done|]. cbn [with_mgr w_mgr]. rewrite Hm, lookup_insert_ne by (intros <-; by eapply Hna).
    by exists g.
  - intros k v Hne Hv. unfold content, cache_page in *. rewrite Hcl, decide_False by done. cbn [with_mgr w_mgr]. destruct (cached l k) as [c|] eqn:Ek; cbn in *; [|exact Hv].
    rewrite Hm, lookup_insert_ne by (intros <-; by eapply Hna). exact Hv.
Qed.

Lemma allocate_frame_ok exc l w b bp pn : world_ok exc l w → exc_pinned exc l w → w_objs w !! b = Some bp → id_to_buffer_pools_ w !! id bp = Some b →
  0 ≤ pn → cached l (id bp, pn) = None → available l w →
  ∃ a f l' w', allocate_frame walk_order b pn w = Some ((SUCCESS, a), w') ∧ world_ok ((id bp, pn) :: exc) l' w' ∧ same_pools w w' ∧
    cached l' (id bp, pn) = Some a ∧ memory (w_mgr w') !! a = Some f ∧ pin_count_ f = 1 ∧ frame_id_ f = (id bp, pn) ∧
    (∀ v, content l w (id bp, pn) = Some v → view <$> backing w' (id bp, pn) = Some v) ∧ pinned_stay l w l' w' ∧
    (length l' + length (frees (allocator_ (w_mgr w'))) = length l + length (frees (allocator_ (w_mgr w))))%nat ∧
    (∀ k u, k ≠ (id bp, pn) → content l w k = Some u → content l' w' k = Some u) ∧ no_new_pins (id bp, pn) l w l' w' ∧ backed w w'.
Proof.
  intros Hok Hex Hbp Hid Hpn Hc Hav. unfold allocate_frame. rewrite bind_get, (wo_faults _ _ _ Hok). cbn [length Nat.add allocate_frame_loop].
  assert (Ebp : ∀ w0, w_objs w0 !! b = Some bp → bp_of b w0 = Some (bp, w0)) by (intros w0 Hw0; unfold bp_of; by rewrite Hw0).
  set (key := (id bp, pn)) in *.
  assert (Hbv : ∀ l0 w0 v, cached l0 key = None → content l0 w0 key = Some v → view <$> backing w0 key = Some v).
  { intros l0 w0 v Hc0 Hv0. unfold content, cache_page in Hv0. by rewrite Hc0 in Hv0. }
  rewrite bind_assoc, (bind_eq _ _ _ _ _ (Ebp w Hbp)), bind_assoc. destruct (frees (allocator_ (w_mgr w))) as [|a fs] eqn:Efr.
  - pose proof (frame_alloc_ok l (w_mgr w) key (wo_mgr _ _ _ Hok)) as Ha. rewrite Hc, Efr in Ha. destruct Ha as (l1 & m1 & E & Hok1 & Hl1 & Hal1 & Hm1).
    cbn [fst snd key] in E. rewrite (on_mgr_eq _ _ _ _ _ E). set (w1 := with_mgr m1 w).
    assert (Hcl1 : ∀ k, cached l1 k = cached l k) by (intros k; symmetry; apply (cached_perm l l1 (w_mgr w)); [apply (wo_mgr _ _ _ Hok)|done]).
    assert (Hw1 : world_ok exc l1 w1).
    { apply (world_ok_mgr exc exc l l1 w m1 Hok Hok1).
      - intros k c Hk. rewrite Hcl1 in Hk. by apply (wo_cached _ _ _ Hok k c).
      - intros k c g Hk Hg Hd Hne. rewrite Hcl1 in Hk. rewrite Hm1 in Hg. by exists g. }
    destruct Hav as [?|(k0 & a0 & Hc0 & Hp0)]; [done|].
    destruct (purge_one_ok exc l1 w1 b bp Hw1 (exc_pinned_same exc l w l1 w1 Hcl1 Hm1 Hex) Hbp Hid) as (key2 & a & l2 & w2 & E2 & Hw2 & Hs2 & Hl2 & Hpa & Hfr2 & Hoth2 & Hct2 & Hbk2).
    { exists k0, a0. split; [by rewrite Hcl1|]. destruct Hp0 as (g & Hg & Hg0). exists g. split; [cbn; by rewrite Hm1|done]. }
    rewrite bind_assoc, (bind_eq _ _ _ _ _ E2). cbn [allocate_frame_loop].
    assert (Hfr2' : frees (allocator_ (w_mgr w2)) = [a]). { rewrite Hfr2. cbn [w1 with_mgr w_mgr]. by rewrite Hal1, Efr. }
    assert (Hcl2 : ∀ k c, cached l2 k = Some c → cached l k = Some c ∧ c ≠ a).
    { intros k c Hk. pose proof Hk as Hin. apply (cached_elem _ _ _ _ (wo_mgr _ _ _ Hw2)) in Hin.
      pose proof (mo_addrs _ _ (wo_mgr _ _ _ Hw1)) as Hnd. rewrite Hl2 in Hnd. cbn in Hnd. apply NoDup_cons in Hnd as [Hna _].
      split; [|intros ->; apply Hna; apply list_elem_of_fmap; by exists (k, a)]. rewrite <-Hcl1. apply (cached_elem _ _ _ _ (wo_mgr _ _ _ Hw1)). rewrite Hl2. by right. }
    assert (Hc2 : cached l2 key = None) by (destruct (cached l2 key) as [c|] eqn:Ek; [|done]; destruct (Hcl2 _ _ Ek); congruence).
    destruct Hs2 as [Ho2 Hn2 Hi2 Hlg2]. cbn [w1 with_mgr w_objs buffer_pools_ id_to_buffer_pools_] in *.
    destruct (alloc_fresh_ok exc l2 w2 key a [] Hw2 Hc2 Hfr2' Hpn) as (f & l3 & m3 & E3 & Hw3 & Hl3 & Hfs3 & Hm3 & Hc3 & Hcn3 & Hst3 & Hct3); [rewrite Hi2; cbn; by rewrite Hid|].
    rewrite bind_assoc, (bind_eq _ _ _ _ _ (Ebp w2 ltac:(by rewrite Ho2))), bind_assoc. cbn [fst snd key] in E3. rewrite (on_mgr_eq _ _ _ _ _ E3), bind_ret. unfold ret.
    exists a. eexists. exists l3, (with_mgr m3 w2). split; [done|]. split; [done|]. split; [by constructor|]. split; [done|]. cbn [with_mgr w_mgr].
    split; [rewrite Hm3; apply lookup_insert_eq|]. do 2 (split; [done|]). split.
    { intros v Hv. apply (Hbv l2 w2 v Hc2). apply Hct2. unfold content, cache_page. rewrite Hcl1. cbn [w1 with_mgr w_mgr]. rewrite Hm1. exact Hv. }
    split; [|split; [|split; [|split]]].
    + eapply pinned_stay_trans; [|exact Hst3]. intros k c g Hk Hg Hp.
      assert (Hca : c ≠ a). { intros ->. destruct Hpa as (g' & Hg' & Hg0). cbn in Hg'. rewrite Hm1 in Hg'. assert (g' = g) as -> by congruence. lia. }
      assert (Hk2 : cached l2 k = Some c).
      { apply (cached_elem _ _ _ _ (wo_mgr _ _ _ Hw2)). rewrite <-Hcl1 in Hk. apply (cached_elem _ _ _ _ (wo_mgr _ _ _ Hw1)) in Hk. rewrite Hl2 in Hk.
        apply elem_of_cons in Hk as [[= -> ->]|Hk]; done. }
      split; [done|]. exists g. rewrite Hoth2 by done. cbn [w1 with_mgr w_mgr]. rewrite Hm1. done.
    + rewrite Hl3, Hfs3. cbn [length]. rewrite <-Hl1, Hl2. cbn. lia.
    + intros k u Hne Hu. apply Hct3; [done|]. apply Hct2. unfold content, cache_page in *. rewrite Hcl1. cbn [w1 with_mgr w_mgr]. rewrite Hm1. exact Hu.
    + apply no_new_pins_of; [apply (wo_mgr _ _ _ Hw3)|]. intros k c Hne Hk. rewrite Hcn3 in Hk by done. destruct (Hcl2 k c Hk) as [Hk' Hca]. split; [done|].
      cbn [with_mgr w_mgr]. rewrite Hm3, lookup_insert_ne, Hoth2 by done. cbn [w1 with_mgr w_mgr]. by rewrite Hm1.
    + exact Hbk2.
  - destruct (alloc_fresh_ok exc l w key a fs Hok Hc Efr Hpn) as (f & l3 & m3 & E3 & Hw3 & Hl3 & Hfs3 & Hm3 & Hc3 & Hcn3 & Hst3 & Hct3); [cbn; by rewrite Hid|].
    cbn [fst snd key] in E3. rewrite (on_mgr_eq _ _ _ _ _ E3), bind_ret. unfold ret.
    exists a. eexists. exists l3, (with_mgr m3 w). split; [done|]. split; [done|]. split; [done|]. split; [done|]. cbn [with_mgr w_mgr].
    split; [rewrite Hm3; apply lookup_insert_eq|]. do 2 (split; [done|]). split; [intros v; by apply (Hbv l w v Hc)|]. split; [done|].
    split; [rewrite Hl3, Hfs3; cbn; lia|]. split; [done|]. split; [|by intros ? ?]. apply no_new_pins_of; [apply (wo_mgr _ _ _ Hw3)|]. intros k c Hne Hk.
    assert (Hca : c ≠ a) by (intros ->; apply Hne; by apply (cached_inj l3 m3 k key a (wo_mgr _ _ _ Hw3))).
    rewrite Hcn3 in Hk by done. split; [done|]. cbn [with_mgr w_mgr]. by rewrite Hm3, lookup_insert_ne by done.
Qed.

(** the frame of [key] is filled from the newest copy below *)
Lemma world_ok_fill exc l w key a f f' p : world_ok (key :: exc) l w → cached l key = Some a → memory (w_mgr w) !! a = Some f →
  frame_id_ f' = frame_id_ f → pin_count_ f' = pin_count_ f → page_ f' = p → backing w key = Some p →
  world_ok exc l (with_mgr (mkFrameMgr (<[a := f']> (memory (w_mgr w))) (frames_ (w_mgr w)) (allocator_ (w_mgr w))) w).
Proof.
  intros Hok Hc Hf Hi Hp Hpg Hb. pose proof (mgr_ok_insert l (w_mgr w) a f f' (wo_mgr _ _ _ Hok) Hf Hi Hp) as Hm.
  destruct Hok as [Hm0 Hpo Hd Hca Hcl Hlg Hfa]. constructor; cbn [with_mgr w_mgr w_dw w_log w_dev]; try done.
  - destruct Hpo. by constructor.
  - destruct Hd as (d & Hd & []). exists d. split; [done|]. by constructor.
  - intros k c g Hk Hg Hdi Hnx. cbn in Hg. destruct (decide (k = key)) as [->|Hne].
    + assert (c = a) as -> by congruence. rewrite lookup_insert_eq in Hg. injection Hg as <-. exists p. split; [done|]. by rewrite Hpg.
    + rewrite lookup_insert_ne in Hg by (intros <-; apply Hne; by apply (cached_inj l (w_mgr w) k key a)).
      destruct (Hcl k c g Hk Hg Hdi) as (q & Hq & Hv); [by apply not_elem_of_cons|]. by exists q.
Qed.

Lemma load_page_ok exc l w b bp pn a f p : world_ok exc l w → w_objs w !! b = Some bp → id_to_buffer_pools_ w !! id bp = Some b → 0 ≤ pn →
  cached l (id bp, pn) = Some a → memory (w_mgr w) !! a = Some f → frame_id_ f = (id bp, pn) → backing w (id bp, pn) = Some p →
  ∃ f', load_page b pn a w = Some (SUCCESS, with_mgr (mkFrameMgr (<[a := f']> (memory (w_mgr w))) (frames_ (w_mgr w)) (allocator_ (w_mgr w))) w) ∧
    page_ f' = p ∧ frame_id_ f' = frame_id_ f ∧ pin_count_ f' = pin_count_ f.
Proof.
  intros Hok Hbp Hid Hpn Hc Hf Hkey Hb. destruct (po_pools _ (wo_pools _ _ _ Hok) _ _ Hid) as (bp' & Hbp' & _ & Ho). assert (bp' = bp) as -> by congruence.
  destruct (wo_dw _ _ _ Hok) as (d & Hd & Hdw). unfold load_page.
  assert (Ebp : bp_of b w = Some (bp, w)) by (unfold bp_of; by rewrite Hbp). rewrite (bind_eq _ _ _ _ _ Ebp).
  unfold backing, dw_page in Hb. rewrite Hd in Hb. unfold read_page. rewrite bind_assoc, bind_get, Hd. unfold dw_read_page.
  destruct (dblwr_pages_ d !! (id bp, pn)) as [e|] eqn:Ek.
  - destruct (do_entries _ _ Hdw _ _ Ek) as (q & -> & _). injection Hb as ->. rewrite bind_ret. cbv iota beta.
    rewrite (bind_eq _ _ _ _ _ (upd_frame_ok w a _ f Hf)). by exists (fr_set_page p f).
  - rewrite bind_ret. cbv iota beta. rewrite Ho. cbn [negb orb]. rewrite (proj2 (Z.ltb_ge _ _)) by lia. rewrite bind_get.
    unfold file_page in Hb. cbn [fst snd] in Hb. rewrite Hid in Hb. cbn [mbind option_bind] in Hb. rewrite Hbp in Hb. cbn [mbind option_bind] in Hb. rewrite Hb.
    rewrite (bind_eq _ _ _ _ _ (upd_frame_ok w a _ f Hf)). set (m1 := mkFrameMgr _ _ _).
    assert (Hf1 : memory (w_mgr (with_mgr m1 w)) !! a = Some (fr_set_page p f)) by apply lookup_insert_eq.
    rewrite (bind_eq _ _ _ _ _ (upd_frame_ok (with_mgr m1 w) a _ _ Hf1)). cbn [with_mgr w_mgr m1 memory frames_ allocator_]. rewrite insert_insert_eq.
    exists (fr_set_page_num pn (fr_set_page p f)). split; [done|]. split; [done|]. split; [|done]. cbn. by rewrite Hkey.
Qed.

Lemma content_other l w key a f' k : mgr_ok l (w_mgr w) → cached l key = Some a → k ≠ key →
  content l (with_mgr (mkFrameMgr (<[a := f']> (memory (w_mgr w))) (frames_ (w_mgr w)) (allocator_ (w_mgr w))) w) k = content l w k.
Proof.
  intros Hok Hc Hne. unfold content, cache_page. cbn [with_mgr w_mgr memory]. destruct (cached l k) as [c|] eqn:Ek; [|done]. cbn.
  rewrite lookup_insert_ne; [done|]. intros <-. apply Hne. by apply (cached_inj l (w_mgr w) k key a).
Qed.

(** [get_this_page] answers a pinned frame that holds the page, and changes no page *)
Lemma get_this_page_ok exc l w b bp pn v : world_ok exc l w → exc_pinned exc l w → w_objs w !! b = Some bp → id_to_buffer_pools_ w !! id bp = Some b → 0 ≤ pn →
  content l w (id bp, pn) = Some v → is_Some (cached l (id bp, pn)) ∨ available l w →
  ∃ a f l' w', get_this_page walk_order b pn w = Some ((SUCCESS, Some a), w') ∧ world_ok exc l' w' ∧ same_pools w w' ∧
    cached l' (id bp, pn) = Some a ∧ memory (w_mgr w') !! a = Some f ∧ view (page_ f) = v ∧ 0 < pin_count_ f ∧
    (∀ c g, cached l (id bp, pn) = Some c → memory (w_mgr w) !! c = Some g → c = a ∧ pin_count_ f = pin_count_ g + 1) ∧
    (cached l (id bp, pn) = None → pin_count_ f = 1) ∧
    (∀ key c g, key ≠ (id bp, pn) → cached l key = Some c → memory (w_mgr w) !! c = Some g → 0 < pin_count_ g →
       cached l' key = Some c ∧ ∃ g', memory (w_mgr w') !! c = Some g' ∧ pin_count_ g' = pin_count_ g) ∧
    (length l' + length (frees (allocator_ (w_mgr w'))) = length l + length (frees (allocator_ (w_mgr w))))%nat ∧
    (∀ k u, content l w k = Some u → content l' w' k = Some u) ∧ no_new_pins (id bp, pn) l w l' w' ∧ backed w w'.
Proof.
  intros Hok Hex Hbp Hid Hpn Hv Hav. unfold get_this_page.
  assert (Ebp : bp_of b w = Some (bp, w)) by (unfold bp_of; by rewrite Hbp). rewrite (bind_eq _ _ _ _ _ Ebp).
  set (key := (id bp, pn)) in *. pose proof (wo_mgr _ _ _ Hok) as Hmok.
  destruct (get_internal_ok l (w_mgr w) key Hmok) as (l1 & m1 & E & Hok1 & Hl1 & Hal1 & Hm1).
  assert (E' : frame_get (id bp) pn (w_mgr w) = Some (cached l key, m1)) by exact E. rewrite (on_mgr_eq _ _ _ _ _ E').
  assert (Hcl1 : ∀ k, cached l1 k = cached l k) by (intros k; symmetry; by apply (cached_perm l l1 (w_mgr w))).
  set (w1 := with_mgr m1 w). destruct (cached l key) as [a|] eqn:Ec.
  - destruct (cached_frame _ _ _ _ Hmok Ec) as (f & Hf & Hkey & Hpin). unfold ret. set (f1 := fr_set_pin (pin_count_ f + 1) f).
    assert (Hmem : ∀ c g, memory (w_mgr w) !! c = Some g → memory m1 !! c = Some (if decide (c = a) then fr_set_pin (pin_count_ g + 1) g else g)).
    { intros c g Hg. rewrite Hm1. by apply repin_lookup. }
    assert (Hf1 : memory m1 !! a = Some f1) by (rewrite (Hmem a f Hf), decide_True; done).
    assert (Hback : ∀ c g, memory m1 !! c = Some g → ∃ g0, memory (w_mgr w) !! c = Some g0 ∧ dirty_ g0 = dirty_ g ∧ page_ g0 = page_ g).
    { intros c g Hg. destruct (memory (w_mgr w) !! c) as [g0|] eqn:Eg.
      - rewrite (Hmem c g0 Eg) in Hg. injection Hg as <-. exists g0. by case_decide.
      - rewrite Hm1 in Hg. unfold repin in Hg. destruct (decide (c = a)) as [->|]; [congruence|]. rewrite lookup_alter_ne in Hg by done. congruence. }
    exists a, f1, l1, w1. split; [done|]. split.
    { apply (world_ok_mgr exc exc l l1 w m1 Hok Hok1).
      - intros k c Hk. rewrite Hcl1 in Hk. by apply (wo_cached _ _ _ Hok k c).
      - intros k c g Hk Hg Hd Hne. rewrite Hcl1 in Hk. destruct (Hback c g Hg) as (g0 & Hg0 & Hd0 & Hp0). exists g0. split; [done|]. split; [done|]. split; [congruence|done]. }
    split; [done|]. split; [by rewrite Hcl1|]. split; [done|]. split.
    { unfold content, cache_page in Hv. rewrite Ec in Hv. cbn in Hv. rewrite Hf in Hv. cbn in Hv. injection Hv as <-. done. }
    split; [cbn; lia|]. split; [intros c g [= <-] Hg; split; [done|]; assert (g = f) as -> by congruence; done|]. split; [done|]. split.
    { intros k c g Hne Hk Hg Hp. rewrite Hcl1. split; [done|]. cbn [w1 with_mgr w_mgr]. rewrite (Hmem c g Hg). eexists. split; [done|].
      rewrite decide_False; [done|]. intros ->. apply Hne. by apply (cached_inj l (w_mgr w) k key a). }
    cbn [w1 with_mgr w_mgr]. split; [by rewrite Hl1, Hal1|]. split.
    2:{ split; [|by intros ? ?]. apply no_new_pins_of; [done|]. intros k c Hne Hk. rewrite Hcl1 in Hk. split; [done|]. destruct (cached_frame _ _ _ _ Hmok Hk) as (g & Hg & _). cbn.
      rewrite Hg, (Hmem c g Hg), decide_False; [done|]. intros ->. apply Hne. by apply (cached_inj l (w_mgr w) k key a). }
    intros k u Hu. unfold content, cache_page in *. rewrite Hcl1. cbn [w1 with_mgr w_mgr].
    destruct (cached l k) as [c|] eqn:Ek; [|exact Hu]. cbn in *. destruct (cached_frame _ _ _ _ Hmok Ek) as (g & Hg & _). rewrite Hg in Hu.
    rewrite (Hmem c g Hg). cbn in *. rewrite <-Hu. by case_decide.
  - assert (Hw1 : world_ok exc l1 w1).
    { apply (world_ok_mgr exc exc l l1 w m1 Hok Hok1).
      - intros k c Hk. rewrite Hcl1 in Hk. by apply (wo_cached _ _ _ Hok k c).
      - intros k c g Hk Hg Hd Hne. rewrite Hcl1 in Hk. rewrite Hm1 in Hg. by exists g. }
    assert (Hc1 : ∀ k, content l1 w1 k = content l w k).
    { intros k. unfold content, cache_page. rewrite Hcl1. cbn [w1 with_mgr w_mgr]. by rewrite Hm1. }
    assert (Hav1 : available l1 w1).
    { destruct Hav as [[? ?]|Hav]; [congruence|]. destruct Hav as [Hfr|(k & a & Hk & g & Hg & Hg0)]; [left; cbn; by rewrite Hal1|].
      right. exists k, a. split; [by rewrite Hcl1|]. exists g. cbn. by rewrite Hm1. }
    destruct (allocate_frame_ok exc l1 w1 b bp pn Hw1 (exc_pinned_same exc l w l1 w1 Hcl1 Hm1 Hex) Hbp Hid Hpn ltac:(by rewrite Hcl1) Hav1)
      as (a & f & l2 & w2 & E2 & Hw2 & Hs2 & Hca2 & Hf2 & Hp2 & Hi2 & Hb2 & Hst2 & Hlen2 & Hct2 & Hnn2 & Hbk2).
    rewrite (bind_eq _ _ _ _ _ E2). cbn [snd]. rewrite (bind_eq _ _ _ _ _ (upd_frame_ok w2 a _ f Hf2)).
    assert (Hsame : fr_set_buffer_pool_id (id bp) f = f) by (destruct f; cbn in Hi2; subst; done). rewrite Hsame, insert_id by done.
    replace (with_mgr _ w2) with w2 by (destruct w2 as [[]]; done).
    change (id bp, pn) with key in Hb2. specialize (Hb2 v ltac:(by rewrite Hc1)). destruct (backing w2 key) as [p|] eqn:Ebk; [|done]. cbn in Hb2. injection Hb2 as Hpv.
    destruct (load_page_ok ((id bp, pn) :: exc) l2 w2 b bp pn a f p Hw2 ltac:(by rewrite (sp_objs _ _ Hs2)) ltac:(by rewrite (sp_ids _ _ Hs2)) Hpn Hca2 Hf2 Hi2 Ebk) as (f' & E3 & Hpg & Hi3 & Hp3).
    rewrite (bind_eq _ _ _ _ _ E3). rewrite bool_decide_eq_true_2 by done. cbn [negb]. unfold ret.
    set (w3 := with_mgr _ w2). exists a, f', l2, w3. split; [done|]. split; [by apply (world_ok_fill exc l2 w2 key a f f' p)|].
    split; [destruct Hs2; by constructor|]. split; [done|]. split; [apply lookup_insert_eq|]. split; [by rewrite Hpg|]. split; [lia|]. split; [done|]. split; [intros _; lia|]. split.
    { intros k c g Hne Hk Hg Hp. destruct (Hst2 k c g) as (Hk2 & g' & Hg' & Hp' & _); [by rewrite Hcl1|cbn; by rewrite Hm1|done|].
      split; [done|]. exists g'. cbn. rewrite lookup_insert_ne; [done|]. intros <-. apply Hne. by apply (cached_inj l2 (w_mgr w2) k key a (wo_mgr _ _ _ Hw2)). }
    cbn [w3 with_mgr w_mgr allocator_]. split; [rewrite Hlen2; cbn [w1 with_mgr w_mgr]; by rewrite Hl1, Hal1|]. split.
    2:{ split; [|exact Hbk2]. intros k n Hne Hn. assert (Hn2 : pins l2 (memory (w_mgr w2)) k = Some n).
      { unfold pins in Hn |- *. destruct (cached l2 k) as [c|] eqn:Ek; [|done]. cbn in Hn |- *. rewrite lookup_insert_ne in Hn; [done|].
        intros <-. apply Hne. by apply (cached_inj l2 (w_mgr w2) k key a (wo_mgr _ _ _ Hw2)). }
      apply (Hnn2 k n Hne) in Hn2. unfold pins in *. rewrite Hcl1 in Hn2. cbn [w1 with_mgr w_mgr] in Hn2. by rewrite Hm1 in Hn2. }
    intros k u Hu. rewrite <-Hc1 in Hu. destruct (decide (k = key)) as [->|Hne].
    + rewrite Hc1, Hv in Hu. injection Hu as <-. unfold content, cache_page. change (id bp, pn) with key in Hca2. rewrite Hca2. cbn. rewrite lookup_insert_eq. cbn. by rewrite Hpg, Hpv.
    + unfold w3. rewrite (content_other l2 w2 key a f' k (wo_mgr _ _ _ Hw2) Hca2 Hne). by apply Hct2.
Qed.
End spec.
