(* ===== verification/BufferPoolHeld.v ===== *)
(** * BufferPoolHeld: which pages are held

    [T] counts how often clients hold a page; [held_ok] relates it to the frames. Here are what
    getting and releasing a page do to it, and the change of one frame. *)
From Stdlib Require Import String.
From stdpp Require Import strings sorting.
From S2P Require Import Prelude Types Bitmap Encoding LogHandler LruCache LruSpec FrameManager FrameSpec Crc BufferPool BufferPoolSpec.

Definition take_pin (i : FrameId) (T : gmap FrameId Z) : gmap FrameId Z := <[i := default 0 (T !! i) + 1]> T.
Definition drop_pin (i : FrameId) (n : Z) (T : gmap FrameId Z) : gmap FrameId Z := if n =? 1 then delete i T else <[i := n - 1]> T.

Section held.
Context {L : Type} `{LT : LogTotal L}.
Context (walk_order : gmap FrameId (option DWPage) → list (FrameId * option DWPage)).
Hypothesis walk_perm : ∀ m, walk_order m ≡ₚ map_to_list m.
Abbreviation W := (World L).
Implicit Types (w : W) (l : cache).

(** the pins of [T], and a frame for each page that is held *)
Record held_ok (N : nat) (T : gmap FrameId Z) (env : gmap FrameId faddr) l w : Prop := {
  ho_pos i n : T !! i = Some n → 0 < n;
  ho_pins i n : 0 < n → T !! i = Some n ↔ pins l (memory (w_mgr w)) i = Some n;
  ho_env i n a : T !! i = Some n → cached l i = Some a → env !! i = Some a;
  ho_size : (length l + length (frees (allocator_ (w_mgr w))) = N)%nat;
}.

(** *** Frames are available as long as not every one is pinned *)

Lemma held_available N T env l w : mgr_ok l (w_mgr w) → held_ok N T env l w → (size T < N)%nat → available l w.
Proof.
  intros Hok [_ Hp _ Hs] Hlt. destruct (frees (allocator_ (w_mgr w))) as [|a fs] eqn:Efr; [|left; by rewrite Efr]. right. cbn in Hs.
  destruct (decide (Exists (λ e, T !! e.1 = None) l)) as [(e & Hin & He)%Exists_exists|Hno].
  - destruct e as [key a]. apply (cached_elem _ _ _ _ Hok) in Hin. exists key, a. split; [done|]. destruct (cached_frame _ _ _ _ Hok Hin) as (f & Hf & _ & Hpin).
    exists f. split; [done|]. destruct (decide (0 < pin_count_ f)) as [Hpos|]; [|lia]. exfalso. cbn in He.
    assert (Hps : pins l (memory (w_mgr w)) key = Some (pin_count_ f)) by (apply (pins_Some _ _ _ _ Hok); eauto).
    apply Hp in Hps; [congruence|done].
  - exfalso. assert (Hsub : list_to_set (map fst l) ⊆ dom T).
    { intros i ([j a] & -> & Hin)%elem_of_list_to_set%list_elem_of_fmap. apply elem_of_dom. destruct (T !! j) eqn:E; [done|].
      exfalso. apply Hno. apply Exists_exists. by exists (j, a). }
    apply subseteq_size in Hsub. rewrite size_list_to_set in Hsub by by eapply mgr_keys. rewrite length_map, size_dom in Hsub. lia.
Qed.

(** a page that is held is in memory *)
Lemma held_cached N T env l w i n : mgr_ok l (w_mgr w) → held_ok N T env l w → T !! i = Some n →
  ∃ a f, env !! i = Some a ∧ cached l i = Some a ∧ memory (w_mgr w) !! a = Some f ∧ frame_id_ f = i ∧ pin_count_ f = n ∧ 0 < n.
Proof.
  intros Hok [Hpos Hp He _] Hn. pose proof (Hpos i n Hn) as H0. pose proof (proj1 (Hp i n H0) Hn) as (a & f & Hc & Hf & Hpin)%(pins_Some _ _ _ _ Hok).
  exists a, f. split; [by eapply He|]. split; [done|]. split; [done|]. destruct (cached_frame _ _ _ _ Hok Hc) as (g & Hg & Hid & _).
  split; [congruence|]. done.
Qed.

(** *** Changing one frame *)

Lemma pins_insert l (mem : gmap faddr Frame) a f f' i : mem !! a = Some f → pin_count_ f' = pin_count_ f → pins l (<[a := f']> mem) i = pins l mem i.
Proof.
  intros Hf Hp. unfold pins. destruct (cached l i) as [c|]; [|done]. cbn. destruct (decide (c = a)) as [->|Hne].
  - rewrite lookup_insert_eq, Hf. cbn. by rewrite Hp.
  - by rewrite lookup_insert_ne.
Qed.

(** the state with another frame at [a] *)
Definition put_frame (a : faddr) (f : Frame) w : W := with_mgr (mkFrameMgr (<[a := f]> (memory (w_mgr w))) (frames_ (w_mgr w)) (allocator_ (w_mgr w))) w.

Lemma content_at l w i a f : cached l i = Some a → memory (w_mgr w) !! a = Some f → content l w i = Some (view (page_ f)).
Proof. intros Hc Hf. unfold content, cache_page. rewrite Hc. cbn. by rewrite Hf. Qed.

Lemma put_frame_ok exc l w i a f f' : world_ok exc l w → cached l i = Some a → memory (w_mgr w) !! a = Some f →
  frame_id_ f' = frame_id_ f → pin_count_ f' = pin_count_ f → dirty_ f' = true ∨ i ∈ exc → world_ok exc l (put_frame a f' w).
Proof.
  intros Hok Hc Hf Hi Hp Hd. apply (world_ok_mgr exc exc l l w _ Hok).
  - by apply (mgr_ok_insert l (w_mgr w) a f f' (wo_mgr _ _ _ Hok)).
  - apply (wo_cached _ _ _ Hok).
  - intros k c g Hk Hg Hdi Hx. cbn in Hg. destruct (decide (c = a)) as [->|Hne].
    + rewrite lookup_insert_eq in Hg. assert (k = i) as -> by by apply (cached_inj l (w_mgr w) k i a (wo_mgr _ _ _ Hok)). destruct Hd; [congruence|done].
    + rewrite lookup_insert_ne in Hg by done. by exists g.
Qed.

Lemma held_insert N T env l w w' a f f' : held_ok N T env l w → memory (w_mgr w) !! a = Some f → pin_count_ f' = pin_count_ f →
  w_mgr w' = mkFrameMgr (<[a := f']> (memory (w_mgr w))) (frames_ (w_mgr w)) (allocator_ (w_mgr w)) → held_ok N T env l w'.
Proof.
  intros [H1 H2 H3 H4] Hf Hp Hm. rewrite <-(Z.add_0_r (pin_count_ f)) in Hp. constructor; [done| |done|by rewrite Hm].
  intros i n Hn. rewrite Hm. cbn. rewrite (pins_insert l _ a f f') by (done || lia). by apply H2.
Qed.
Lemma upd_frame_eq {B} (k : unit → M W B) w a g f : memory (w_mgr w) !! a = Some f → bind (upd_frame a g) k w = k tt (put_frame a (g f) w).
Proof. intros Hf. by rewrite (bind_eq _ _ _ _ _ (upd_frame_ok w a g f Hf)). Qed.

(** *** Getting a page *)

Lemma held_take N T env l w l' w' key a f : mgr_ok l (w_mgr w) → mgr_ok l' (w_mgr w') → held_ok N T env l w →
  cached l' key = Some a → memory (w_mgr w') !! a = Some f → pin_count_ f = default 0 (T !! key) + 1 →
  (∀ k c g, k ≠ key → cached l k = Some c → memory (w_mgr w) !! c = Some g → 0 < pin_count_ g →
     cached l' k = Some c ∧ ∃ g', memory (w_mgr w') !! c = Some g' ∧ pin_count_ g' = pin_count_ g) →
  no_new_pins key l w l' w' →
  (length l' + length (frees (allocator_ (w_mgr w'))) = length l + length (frees (allocator_ (w_mgr w))))%nat →
  held_ok N (take_pin key T) (<[key := a]> env) l' w'.
Proof.
  intros Hm Hm' Hh Hc Hf Hcnt Hst Hnn Hlen. pose proof Hh as [Hpo Hps He Hsz].
  assert (Hpk : pins l' (memory (w_mgr w')) key = Some (pin_count_ f)) by (apply (pins_Some _ _ _ _ Hm'); eauto).
  unfold take_pin. constructor; [| | |congruence].
  - intros i n [[<- <-]|[_ Hi]]%lookup_insert_Some; [|by apply (Hpo i)]. destruct (T !! key) as [m|] eqn:E; cbn; [apply Hpo in E|]; lia.
  - intros i n Hn. destruct (decide (i = key)) as [->|Hne].
    { rewrite lookup_insert_eq, Hpk, Hcnt. done. }
    rewrite lookup_insert_ne by done. split.
    + intros Hi. destruct (held_cached N T env l w i n Hm Hh Hi) as (c & g & _ & Hci & Hg & _ & Hgn & _).
      destruct (Hst i c g Hne Hci Hg ltac:(lia)) as (Hc' & g' & Hg' & Hgp). apply (pins_Some _ _ _ _ Hm'). exists c, g'. split; [done|]. split; [done|congruence].
    + intros Hi. apply Hps; [done|]. by apply Hnn.
  - intros i n c Hi Hc'. destruct (decide (i = key)) as [->|Hne]; [rewrite lookup_insert_eq; congruence|].
    rewrite lookup_insert_ne in Hi by done. rewrite lookup_insert_ne by done.
    destruct (held_cached N T env l w i n Hm Hh Hi) as (c0 & g & Hec & Hci & Hg & _ & Hgn & Hn0).
    destruct (Hst i c0 g Hne Hci Hg ltac:(lia)) as (Hc'' & _). congruence.
Qed.

Lemma get_page_held exc N T env l w b bp pn v : world_ok exc l w → exc_pinned exc l w → held_ok N T env l w →
  w_objs w !! b = Some bp → id_to_buffer_pools_ w !! id bp = Some b → 0 ≤ pn → content l w (id bp, pn) = Some v →
  is_Some (T !! (id bp, pn)) ∨ (size T < N)%nat →
  ∃ a f l' w', get_this_page walk_order b pn w = Some ((SUCCESS, Some a), w') ∧ world_ok exc l' w' ∧ same_pools w w' ∧
    cached l' (id bp, pn) = Some a ∧ memory (w_mgr w') !! a = Some f ∧ view (page_ f) = v ∧
    held_ok N (take_pin (id bp, pn) T) (<[(id bp, pn) := a]> env) l' w' ∧ (∀ k u, content l w k = Some u → content l' w' k = Some u) ∧ no_new_pins (id bp, pn) l w l' w' ∧ backed w w'.
Proof.
  intros Hok Hex Hh Hbp Hid Hpn Hv Hav. pose proof (wo_mgr _ _ _ Hok) as Hm.
  destruct (get_this_page_ok walk_order walk_perm exc l w b bp pn v Hok Hex Hbp Hid Hpn Hv) as
    (a & f & l' & w' & E & Hok' & Hsp & Hc & Hf & Hvf & Hpos & Hhit & Hmiss & Hst & Hlen & Hcts & Hnn & Hbk).
  { destruct Hav as [[n Hn]|Hlt]; [left|right; by eapply held_available]. destruct (held_cached N T env l w _ n Hm Hh Hn) as (a & _ & _ & Hc & _). by exists a. }
  generalize dependent (id bp, pn). intros key Hv Hav Hc Hhit Hmiss Hst Hnn.
  exists a, f, l', w'. split; [done|]. split; [done|]. split; [done|]. do 3 (split; [done|]). split; [|split; [done|split; done]].
  apply (held_take N T env l w l' w' key a f Hm (wo_mgr _ _ _ Hok') Hh Hc Hf); try done.
  pose proof Hh as [Hpo Hps He Hsz]. destruct (cached l key) as [c|] eqn:Ec.
  - destruct (cached_frame _ _ _ _ Hm Ec) as (g & Hg & _ & Hg0). destruct (Hhit c g eq_refl Hg) as [-> ->]. f_equal.
    destruct (T !! key) as [n|] eqn:En.
    + destruct (held_cached N T env l w key n Hm Hh En) as (? & ? & _ & Hc' & Hf' & _ & <- & _). cbn. congruence.
    + cbn. destruct (decide (0 < pin_count_ g)) as [Hg1|]; [|lia]. exfalso.
      rewrite (proj2 (Hps key _ Hg1)) in En; [done|]. apply (pins_Some _ _ _ _ Hm). eauto.
  - rewrite (Hmiss eq_refl). destruct (T !! key) as [n|] eqn:En; [|done].
    destruct (held_cached N T env l w key n Hm Hh En) as (? & ? & _ & ? & _). congruence.
Qed.

(** *** Releasing a page *)

Lemma unpin_held exc N T env l w i n : world_ok exc l w → held_ok N T env l w → T !! i = Some n →
  ∃ a w', env !! i = Some a ∧ unpin_page a w = Some (SUCCESS, w') ∧ world_ok exc l w' ∧ same_pools w w' ∧
    held_ok N (drop_pin i n T) env l w' ∧ (∀ k, content l w' k = content l w k) ∧ w_log w' = w_log w ∧ backing w' = backing w ∧
    (∀ k, pins l (memory (w_mgr w')) k = if decide (k = i) then Some (n - 1) else pins l (memory (w_mgr w)) k).
Proof.
  intros Hok Hh En. pose proof (wo_mgr _ _ _ Hok) as Hm. destruct (held_cached N T env l w i n Hm Hh En) as (a & f & Hea & Hc & Hf & _ & Hn & Hn0).
  destruct (unpin_cached l (w_mgr w) i a f Hm Hc Hf ltac:(lia)) as (m & E & Hm1 & Hmem & Hal).
  exists a, (with_mgr m w). split; [done|]. split; [unfold unpin_page; by rewrite (on_mgr_eq _ _ _ _ _ E)|].
  assert (Hrep : ∀ c g, memory (w_mgr w) !! c = Some g → memory m !! c = Some (if decide (c = a) then fr_set_pin (pin_count_ g - 1) g else g)).
  { intros c g Hg. rewrite Hmem. by apply repin_lookup. }
  assert (Hpi : ∀ k, pins l (memory m) k = if decide (k = i) then Some (n - 1) else pins l (memory (w_mgr w)) k).
  { intros k. unfold pins. destruct (cached l k) as [c|] eqn:Ek; cbn.
    - destruct (cached_frame _ _ _ _ Hm Ek) as (g & Hg & _). rewrite (Hrep c g Hg), Hg. cbn. destruct (decide (k = i)) as [->|Hne].
      + assert (c = a) as -> by congruence. rewrite decide_True by done. cbn. f_equal. congruence.
      + rewrite decide_False; [done|]. intros ->. apply Hne. by apply (cached_inj l (w_mgr w) k i a).
    - rewrite decide_False; [done|congruence]. }
  pose proof Hh as [Hpo Hps He Hsz]. split; [|split; [done|split; [|split; [|split; [done|split; [done|exact Hpi]]]]]].
  - apply (world_ok_mgr exc exc l l w m Hok Hm1); [apply (wo_cached _ _ _ Hok)|]. intros k c g Hk Hg Hd Hx.
    destruct (cached_frame _ _ _ _ Hm Hk) as (g0 & Hg0 & _). rewrite (Hrep c g0 Hg0) in Hg. injection Hg as <-. exists g0. by case_decide.
  - assert (Hlook : ∀ k, drop_pin i n (T) !! k = if decide (k = i) then (if n =? 1 then None else Some (n - 1)) else T !! k).
    { intros k. unfold drop_pin. destruct (n =? 1); case_decide as Hk; subst; rewrite ?lookup_delete_eq, ?lookup_insert_eq, ?lookup_delete_ne, ?lookup_insert_ne by done; done. }
    constructor.
    + intros k u. rewrite Hlook. case_decide; [|apply Hpo]. destruct (n =? 1) eqn:E1; zbool; [done|]. intros [= <-]. lia.
    + intros k u Hu. rewrite Hlook. cbn [with_mgr w_mgr]. rewrite Hpi. case_decide as Hk; [|by apply Hps].
      destruct (n =? 1) eqn:E1; zbool; [|done]. split; [done|]. intros [= <-]. lia.
    + intros k u c. rewrite Hlook. case_decide as Hk; [|apply He]. subst k. intros _. by apply (He i n).
    + cbn. by rewrite Hal.
  - intros k. unfold content, cache_page. cbn [with_mgr w_mgr].
    destruct (cached l k) as [c|] eqn:Ek; [|done]. cbn. destruct (cached_frame _ _ _ _ Hm Ek) as (g & Hg & _). rewrite (Hrep c g Hg), Hg. cbn. by case_decide.
Qed.

(** *** More about frames *)

Lemma put_put a f g w : put_frame a g (put_frame a f w) = put_frame a g w.
Proof. unfold put_frame, with_mgr. cbn. by rewrite insert_insert_eq. Qed.

(** a page that has been filled and written *)
Lemma world_ok_drop exc l w key a f : world_ok (key :: exc) l w → cached l key = Some a → memory (w_mgr w) !! a = Some f →
  (∃ p, backing w key = Some p ∧ view p = view (page_ f)) → world_ok exc l w.
Proof.
  intros [Hm Hp Hd Hca Hcl Hlg Hfa] Hc Hf Hb. constructor; try done. intros k c g Hk Hg Hdi Hx. destruct (decide (k = key)) as [->|Hne].
  - assert (c = a) as -> by congruence. assert (g = f) as -> by congruence. exact Hb.
  - apply (Hcl k c g Hk Hg Hdi). by apply not_elem_of_cons.
Qed.

Lemma held_env N T env env' l w : held_ok N T env l w → (∀ i n, T !! i = Some n → env' !! i = env !! i) → held_ok N T env' l w.
Proof. intros [H1 H2 H3 H4] He. constructor; [done..| |done]. intros i n a Hi Hc. rewrite (He i n Hi). by eapply H3. Qed.

Lemma held_exc N T env exc l w : mgr_ok l (w_mgr w) → held_ok N T env l w → (∀ i, i ∈ exc → is_Some (T !! i)) → exc_pinned exc l w.
Proof.
  intros Hm Hh Hx i a f Hi Hc Hf. destruct (Hx i Hi) as [n Hn]. destruct (held_cached N T env l w i n Hm Hh Hn) as (c & g & _ & Hc' & Hg & _ & Hp & H0).
  assert (c = a) as -> by congruence. assert (g = f) as -> by congruence. lia.
Qed.

(** dropping a page that nobody holds, as [dispose_page] does *)
Definition forget (key : FrameId) : M W unit :=
  let* r := on_mgr _ (frame_get key.1 key.2) in
  match r with Some a => on_mgr _ (frame_free key.1 key.2 a) ;;; ret tt | None => ret tt end.

Lemma forget_ok exc N T env l w key : world_ok exc l w → held_ok N T env l w → T !! key = None →
  ∃ l' m, forget key w = Some (tt, with_mgr m w) ∧ world_ok exc l' (with_mgr m w) ∧ held_ok N T env l' (with_mgr m w) ∧
    (∀ k, k ≠ key → content l' (with_mgr m w) k = content l w k) ∧ (∀ k n, pins l' (memory m) k = Some n → pins l (memory (w_mgr w)) k = Some n).
Proof.
  intros Hok Hh HT. pose proof (wo_mgr _ _ _ Hok) as Hm. pose proof Hh as [Hpo Hps He Hsz].
  destruct (get_internal_ok l (w_mgr w) key Hm) as (l1 & m1 & E & Hok1 & Hl1 & Hal1 & Hm1).
  assert (Hcl1 : ∀ k, cached l1 k = cached l k) by (intros k; symmetry; by apply (cached_perm l l1 (w_mgr w))).
  unfold forget. assert (E' : frame_get key.1 key.2 (w_mgr w) = Some (cached l key, m1)) by (destruct key; exact E). rewrite (on_mgr_eq _ _ _ _ _ E').
  destruct (cached l key) as [a|] eqn:Ec.
  - destruct (cached_frame _ _ _ _ Hm Ec) as (f & Hf & Hid & Hp0). assert (Hpin : pin_count_ f = 0).
    { destruct (decide (0 < pin_count_ f)) as [Hpos|]; [|lia]. rewrite (proj2 (Hps key _ Hpos)) in HT; [done|]. apply (pins_Some _ _ _ _ Hm). eauto. }
    set (f1 := fr_set_pin 1 f).
    assert (Hf1 : memory m1 !! a = Some f1) by (rewrite Hm1, (repin_lookup a 1 _ _ _ Hf), decide_True by done; by rewrite Hpin).
    destruct (free_internal_ok l1 m1 key a f1 Hok1 ltac:(by rewrite Hcl1) Hf1 eq_refl) as (l' & m' & E2 & Hok' & Hl' & Hm' & Hfr).
    assert (E2' : frame_free key.1 key.2 a m1 = Some (SUCCESS, m')) by (destruct key; exact E2). cbv beta iota. rewrite (on_mgr_eq _ _ (with_mgr m1 w) _ _ E2').
    change (with_mgr m' (with_mgr m1 w)) with (with_mgr m' w). exists l', m'. split; [done|].
    assert (Hcn : cached l' key = None).
    { apply find_None. pose proof (mgr_keys _ _ Hok1) as Hnd. rewrite Hl' in Hnd. cbn in Hnd. by apply NoDup_cons in Hnd as [? _]. }
    assert (Hcl : ∀ k, k ≠ key → cached l' k = cached l k).
    { intros k Hne. rewrite <-Hcl1, (cached_perm l1 _ m1 k Hok1 Hl'). unfold cached. cbn. by rewrite decide_False by (cbn; congruence). }
    assert (Hoth : ∀ k c, k ≠ key → cached l k = Some c → memory m' !! c = memory (w_mgr w) !! c).
    { intros k c Hne Hk. assert (Hca : c ≠ a) by (intros ->; apply Hne; by apply (cached_inj l (w_mgr w) k key a)).
      rewrite Hm', lookup_insert_ne, Hm1 by done. unfold repin. by rewrite lookup_alter_ne. }
    assert (Hpn : ∀ k, k ≠ key → pins l' (memory m') k = pins l (memory (w_mgr w)) k).
    { intros k Hne. unfold pins. rewrite Hcl by done. destruct (cached l k) as [c|] eqn:Ek; [|done]. cbn. by rewrite (Hoth k c Hne Ek). }
    split; [|split; [|split]].
    + apply (world_ok_mgr exc exc l l' w m' Hok Hok').
      * intros k c Hk. destruct (decide (k = key)) as [->|Hne]; [congruence|]. rewrite Hcl in Hk by done. by apply (wo_cached _ _ _ Hok k c).
      * intros k c g Hk Hg Hd Hx. destruct (decide (k = key)) as [->|Hne]; [congruence|]. rewrite Hcl in Hk by done. rewrite (Hoth k c Hne Hk) in Hg. by exists g.
    + constructor; [done| | |].
      * intros i n Hn. destruct (decide (i = key)) as [->|Hne]; [|cbn; rewrite Hpn by done; by apply Hps].
        rewrite HT. split; [done|]. unfold pins. by rewrite Hcn.
      * intros i n c Hi Hc. destruct (decide (i = key)) as [->|Hne]; [congruence|]. rewrite Hcl in Hc by done. by eapply He.
      * cbn. rewrite Hfr, Hal1, length_app. rewrite Hl' in Hl1. apply Permutation_length in Hl1. cbn in *. lia.
    + intros k Hne. unfold content, cache_page. rewrite Hcl by done. cbn [with_mgr w_mgr]. destruct (cached l k) as [c|] eqn:Ek; [|done]. cbn. by rewrite (Hoth k c Hne Ek).
    + intros k n Hn. destruct (decide (k = key)) as [->|Hne]; [unfold pins in Hn; by rewrite Hcn in Hn|]. by rewrite <-Hpn.
  - exists l1, m1. split; [done|]. split; [|split; [|split]].
    + apply (world_ok_mgr exc exc l l1 w m1 Hok Hok1).
      * intros k c Hk. rewrite Hcl1 in Hk. by apply (wo_cached _ _ _ Hok k c).
      * intros k c g Hk Hg Hd Hx. rewrite Hcl1 in Hk. rewrite Hm1 in Hg. by exists g.
    + constructor; [done| | |cbn; by rewrite Hl1, Hal1].
      * intros i n Hn. cbn. rewrite Hm1. unfold pins. rewrite Hcl1. by apply Hps.
      * intros i n c Hi Hc. rewrite Hcl1 in Hc. by eapply He.
    + intros k Hne. unfold content, cache_page. rewrite Hcl1. cbn [with_mgr w_mgr]. by rewrite Hm1.
    + intros k n. rewrite Hm1. unfold pins. by rewrite Hcl1.
Qed.
End held.
