(* ===== verification/BufferPoolTheorems.v ===== *)
(** * BufferPoolTheorems: the pages of a pool keep what clients put in them *)
From Stdlib Require Import String.
From stdpp Require Import strings sorting.
From S2P Require Import Prelude Types Bitmap Encoding LogHandler LruCache LruSpec FrameManager FrameSpec Crc BufferPool BufferPoolSpec BufferPoolHeld.

(** ** What clients do *)

Inductive page_call :=
| PGet (b : bpref) (pn : PageNum)                   (** [get_this_page], and reading the frame *)
| PPut (i : FrameId) (lsn : LSN) (data : list Z)    (** writing the data and the LSN of a frame held, [mark_dirty] *)
| PUnpin (i : FrameId)                              (** [unpin_page] of a frame held *)
| PFlush (i : FrameId).                             (** [flush_page] of a frame held *)
Inductive page_result := RPage (v : LSN * list Z) | RDone (rc : RC).

Section calls.
Context {L : Type} `{LT : LogTotal L}.
Context (walk_order : gmap FrameId (option DWPage) → list (FrameId * option DWPage)).
Abbreviation W := (World L).

(** the pools, and the frames that clients were given, by page *)
Definition Session : Type := W * gmap FrameId faddr.
Definition on_world {A} (c : M W A) : M Session A := λ '(w, env),
  match c w with Some (a, w) => Some (a, (w, env)) | None => None end.
Definition held (i : FrameId) : M Session faddr := λ '(w, env),
  match env !! i with Some a => Some (a, (w, env)) | None => None end.
Definition hold (i : FrameId) (a : faddr) : M Session unit := modify (λ '(w, env), (w, <[i := a]> env)).
Definition run_page_call (c : page_call) : M Session page_result :=
  match c with
  | PGet b pn =>
      let* bp := on_world (bp_of b) in
      let* r := on_world (get_this_page walk_order b pn) in
      let* a := liftO r.2 in
      hold (id bp, pn) a ;;;
      let* f := on_world (frame a) in
      ret (RPage (p_lsn (page_ f), p_data (page_ f)))
  | PPut i lsn data =>
      let* a := held i in
      on_world (upd_frame a (fr_set_lsn lsn)) ;;;
      on_world (upd_frame a (fr_set_data data)) ;;;
      on_world (upd_frame a (fr_set_dirty true)) ;;;
      ret (RDone SUCCESS)
  | PUnpin i => let* a := held i in let* rc := on_world (unpin_page a) in ret (RDone rc)
  | PFlush i =>
      let* a := held i in
      let* r := on_world (get_buffer_pool i.1) in
      let* b := liftO r.2 in
      let* rc := on_world (flush_page walk_order b a) in
      ret (RDone rc)
  end.
Fixpoint run_page_calls (cs : list page_call) : M Session (list page_result) :=
  match cs with
  | [] => ret []
  | c :: cs => let* r := run_page_call c in let* rs := run_page_calls cs in ret (r :: rs)
  end.
End calls.

(** ** The specification: a map from pages to what they hold

    [sp_held] counts the pins. A call that a client must not make has no result: a page that
    does not exist or a frame that is not held, and a page when every frame is pinned. *)
Record PageMap := mkPageMap { sp_pages : gmap FrameId (LSN * list Z); sp_held : gmap FrameId Z }.
Section page_map.
Context (N : nat) (objs : gmap bpref DiskBufferPool).

Definition page_map_call (s : PageMap) (c : page_call) : option (page_result * PageMap) :=
  match c with
  | PGet b pn =>
      bp ← objs !! b;
      v ← sp_pages s !! (id bp, pn);
      if bool_decide (is_Some (sp_held s !! (id bp, pn)) ∨ (size (sp_held s) < N)%nat)
      then Some (RPage v, mkPageMap (sp_pages s) (take_pin (id bp, pn) (sp_held s)))
      else None
  | PPut i lsn data => n ← sp_held s !! i; Some (RDone SUCCESS, mkPageMap (<[i := (lsn, data)]> (sp_pages s)) (sp_held s))
  | PUnpin i => n ← sp_held s !! i; Some (RDone SUCCESS, mkPageMap (sp_pages s) (drop_pin i n (sp_held s)))
  | PFlush i => n ← sp_held s !! i; Some (RDone SUCCESS, s)
  end.
Fixpoint page_map_run (s : PageMap) (cs : list page_call) : option (list page_result * PageMap) :=
  match cs with
  | [] => Some ([], s)
  | c :: cs => '(r, s) ← page_map_call s c; '(rs, s) ← page_map_run s cs; Some (r :: rs, s)
  end.
End page_map.

Section refinement.
Context {L : Type} `{LT : LogTotal L}.
Context (walk_order : gmap FrameId (option DWPage) → list (FrameId * option DWPage)).
Hypothesis walk_perm : ∀ m, walk_order m ≡ₚ map_to_list m.
Abbreviation W := (World L).
Implicit Types (w : W) (l : cache).

Record page_rel (N : nat) (objs : gmap bpref DiskBufferPool) (s : PageMap) l (st : Session) : Prop := {
  pr_ok : world_ok [] l st.1;
  pr_objs : w_objs st.1 = objs;
  pr_ids b bp : objs !! b = Some bp → id_to_buffer_pools_ st.1 !! id bp = Some b;
  pr_held : held_ok N (sp_held s) st.2 l st.1;
  pr_pages i v : sp_pages s !! i = Some v → 0 ≤ i.2 ∧ content l st.1 i = Some v;
}.

Lemma on_world_eq {A B} (c : M W A) (k : A → M Session B) w env a w' : c w = Some (a, w') → bind (on_world c) k (w, env) = k a (w', env).
Proof. intros E. unfold bind, on_world. by rewrite E. Qed.
Lemma held_eq {B} (k : faddr → M Session B) (w : W) env i a : env !! i = Some a → bind (held i) k (w, env) = k a (w, env).
Proof. intros E. unfold bind, held. by rewrite E. Qed.

(** *** Each call *)

Lemma get_refines N objs s l w env b pn r s' : page_rel N objs s l (w, env) → page_map_call N objs s (PGet b pn) = Some (r, s') →
  ∃ l' st', run_page_call walk_order (PGet b pn) (w, env) = Some (r, st') ∧ page_rel N objs s' l' st'.
Proof.
  intros [Hok Ho Hids Hh Hpg] E. cbn [fst snd] in *. cbn in E. destruct (objs !! b) as [bp|] eqn:Eb; [|done]. cbn in E.
  destruct (sp_pages s !! (id bp, pn)) as [v|] eqn:Ev; [|done]. cbn in E.
  case_bool_decide as Hav; [|done]. injection E as <- <-. destruct (Hpg _ _ Ev) as [Hpn Hct]. rewrite <-Ho in Eb.
  destruct (get_page_held walk_order walk_perm [] N _ env l w b bp pn v Hok ltac:(intros ???; by intros ?%elem_of_nil) Hh Eb ltac:(apply Hids; by rewrite <-Ho) Hpn Hct Hav) as
    (a & f & l' & w' & E & Hok' & [Hso _ Hsi _] & Hc & Hf & Hv & Hh' & Hcts & _).
  cbn [run_page_call]. assert (Ebp : bp_of b w = Some (bp, w)) by (unfold bp_of; by rewrite Eb).
  rewrite (on_world_eq _ _ _ _ _ _ Ebp), (on_world_eq _ _ _ _ _ _ E). cbn [snd]. rewrite (bind_liftO _ _ _ _ eq_refl). unfold hold. rewrite bind_modify.
  rewrite (on_world_eq _ _ _ _ _ _ (frame_ok w' a f Hf)). unfold ret. exists l', (w', <[(id bp, pn) := a]> env). split.
  { f_equal. f_equal. f_equal. rewrite <-Hv. done. }
  constructor; cbn [fst snd sp_held sp_pages]; [done|congruence|intros c bq Hbq; rewrite Hsi; by apply Hids|done|].
  intros i u Hu. destruct (Hpg i u Hu). split; [done|]. by apply Hcts.
Qed.

Lemma put_refines N objs s l w env i lsn data r s' : page_rel N objs s l (w, env) → page_map_call N objs s (PPut i lsn data) = Some (r, s') →
  ∃ l' st', run_page_call walk_order (PPut i lsn data) (w, env) = Some (r, st') ∧ page_rel N objs s' l' st'.
Proof.
  intros [Hok Ho Hids Hh Hpg] E. cbn [fst snd] in *. cbn in E. destruct (sp_held s !! i) as [n|] eqn:En; [|done]. injection E as <- <-.
  pose proof (wo_mgr _ _ _ Hok) as Hm. destruct (held_cached N _ env l w i n Hm Hh En) as (a & f & Hea & Hc & Hf & _ & _ & _).
  cbn [run_page_call]. rewrite (held_eq _ _ _ _ _ Hea). rewrite (on_world_eq _ _ _ _ _ _ (upd_frame_ok w a _ f Hf)). set (f1 := fr_set_lsn lsn f). set (w1 := with_mgr _ w).
  assert (Hf1 : memory (w_mgr w1) !! a = Some f1) by apply lookup_insert_eq. rewrite (on_world_eq _ _ _ _ _ _ (upd_frame_ok w1 a _ f1 Hf1)).
  set (f2 := fr_set_data data f1). set (w2 := with_mgr _ w1). assert (Hf2 : memory (w_mgr w2) !! a = Some f2) by apply lookup_insert_eq.
  rewrite (on_world_eq _ _ _ _ _ _ (upd_frame_ok w2 a _ f2 Hf2)). unfold ret. set (f3 := fr_set_dirty true f2).
  replace (with_mgr _ w2) with (put_frame a f3 w).
  2:{ unfold put_frame, w2, w1, with_mgr. cbn. by rewrite !insert_insert_eq. }
  exists l, (put_frame a f3 w, env). split; [done|]. constructor; cbn [fst snd sp_held sp_pages]; [|done|done| |].
  - by apply (put_frame_ok [] l w i a f f3 Hok Hc Hf); [..|left].
  - by apply (held_insert N _ env l w _ a f f3 Hh Hf).
  - intros k u [[<- <-]|[Hne Hk]]%lookup_insert_Some.
    + split; [by apply (wo_cached _ _ _ Hok _ _ Hc)|]. by rewrite (content_at l (put_frame a f3 w) i a f3) by (done || apply lookup_insert_eq).
    + destruct (Hpg k u Hk). split; [done|]. unfold put_frame. by rewrite (content_other l w i a f3 k Hm Hc).
Qed.

Lemma flush_refines N objs s l w env i r s' : page_rel N objs s l (w, env) → page_map_call N objs s (PFlush i) = Some (r, s') →
  ∃ l' st', run_page_call walk_order (PFlush i) (w, env) = Some (r, st') ∧ page_rel N objs s' l' st'.
Proof.
  intros [Hok Ho Hids Hh Hpg] E. cbn [fst snd] in *. cbn in E. destruct (sp_held s !! i) as [n|] eqn:En; [|done]. injection E as <- <-.
  pose proof (wo_mgr _ _ _ Hok) as Hm. destruct (held_cached N _ env l w i n Hm Hh En) as (a & f & Hea & Hc & Hf & _ & _ & _).
  destruct (wo_cached _ _ _ Hok _ _ Hc) as [_ [b Hb]].
  destruct (flush_page_internal_ok walk_order walk_perm [] l w b i a f Hok Hc Hf Hb) as (c & w' & E & Hok' & [Hso _ Hsi _] & Hm' & _ & Hk).
  cbn [run_page_call]. rewrite (held_eq _ _ _ _ _ Hea). assert (Eg : get_buffer_pool i.1 w = Some ((SUCCESS, Some b), w)) by (unfold get_buffer_pool; rewrite bind_get, Hb; done).
  rewrite (on_world_eq _ _ _ _ _ _ Eg). cbn [snd]. rewrite (bind_liftO _ _ _ _ eq_refl). rewrite (on_world_eq _ _ _ _ _ _ E). unfold ret.
  exists l, (w', env). split; [done|]. constructor; cbn [fst snd]; [done|congruence|intros ? ? ?; rewrite Hsi; by apply Hids| |].
  - by apply (held_insert N _ env l w w' a f (flushed_frame c f) Hh Hf).
  - intros k u Hu. destruct (Hpg k u Hu) as [Hk2 Hcu]. split; [done|]. destruct (decide (k = i)) as [->|Hne].
    + rewrite (content_at l w i a f Hc Hf) in Hcu. rewrite (content_at l w' i a (flushed_frame c f) Hc) by (rewrite Hm'; apply lookup_insert_eq). done.
    + rewrite <-(content_other l w i a (flushed_frame c f) k Hm Hc Hne) in Hcu. revert Hcu. apply content_keep with (exc := Some i); [by rewrite Hm'|done|congruence].
Qed.

Lemma unpin_refines N objs s l w env i r s' : page_rel N objs s l (w, env) → page_map_call N objs s (PUnpin i) = Some (r, s') →
  ∃ l' st', run_page_call walk_order (PUnpin i) (w, env) = Some (r, st') ∧ page_rel N objs s' l' st'.
Proof.
  intros [Hok Ho Hids Hh Hpg] E. cbn [fst snd] in *. cbn in E. destruct (sp_held s !! i) as [n|] eqn:En; [|done]. injection E as <- <-.
  destruct (unpin_held [] N _ env l w i n Hok Hh En) as (a & w' & Hea & E & Hok' & [Hso _ Hsi _] & Hh' & Hcts & _).
  cbn [run_page_call]. rewrite (held_eq _ _ _ _ _ Hea), (on_world_eq _ _ _ _ _ _ E). unfold ret. exists l, (w', env). split; [done|].
  constructor; cbn [fst snd sp_held sp_pages]; [done|congruence|intros ? ? ?; rewrite Hsi; by apply Hids|done|].
  intros k u Hu. destruct (Hpg k u Hu). split; [done|]. by rewrite Hcts.
Qed.

Lemma page_calls_refine N objs cs : ∀ s l st rs s', page_rel N objs s l st → page_map_run N objs s cs = Some (rs, s') →
  ∃ l' st', run_page_calls walk_order cs st = Some (rs, st') ∧ page_rel N objs s' l' st'.
Proof.
  induction cs as [|c cs IH]; intros s l st rs s' Hrel E; cbn in E |- *.
  { injection E as <- <-. by exists l, st. }
  destruct (page_map_call N objs s c) as [[r s1]|] eqn:E1; [|done]. cbn in E. destruct (page_map_run N objs s1 cs) as [[rs1 s2]|] eqn:E2; [|done]. cbn in E. injection E as <- <-.
  assert (∃ l1 st1, run_page_call walk_order c st = Some (r, st1) ∧ page_rel N objs s1 l1 st1) as (l1 & st1 & Ec & Hrel1).
  { destruct st as [w env]. destruct c; [by eapply get_refines|by eapply put_refines|by eapply unpin_refines|by eapply flush_refines]. }
  destruct (IH _ _ _ _ _ Hrel1 E2) as (l2 & st2 & Er & Hrel2). exists l2, st2. rewrite (bind_eq _ _ _ _ _ Ec), (bind_eq _ _ _ _ _ Er). done.
Qed.

(** *** Pools on a new frame manager *)

(** open pools over a frame manager right after [init] and an empty double write buffer *)
Record fresh_pools (pool_num : Z) w : Prop := {
  fp_num : 0 < pool_num;
  fp_mgr : frame_mgr_init pool_num = (SUCCESS, w_mgr w);
  fp_dw : ∃ max, w_dw w = DiskDW (mkDW true max 0 ∅);
  fp_pools : pools_ok w;
  fp_ids b bp : w_objs w !! b = Some bp → id_to_buffer_pools_ w !! id bp = Some b;
  fp_log : log_ready (w_log w);
  fp_faults : d_faults (w_dev w) = [];
}.
(** the pages of the files *)
Definition pages_in_files w (P : gmap FrameId (LSN * list Z)) : Prop := ∀ i v, P !! i = Some v → 0 ≤ i.2 ∧ view <$> file_page w i = Some v.

Lemma fresh_rel pool_num w P : fresh_pools pool_num w → pages_in_files w P →
  page_rel (Z.to_nat (pool_num * DEFAULT_ITEM_NUM_PER_POOL)) (w_objs w) (mkPageMap P ∅) [] (w, ∅).
Proof.
  intros [Hn Hm (max & Hd) Hp Hi Hl Hf] HP. destruct (frame_mgr_init_ok pool_num Hn) as (m & E & Hok & Hfr).
  assert (m = w_mgr w) as -> by congruence. constructor; cbn [fst snd sp_pages sp_held]; [|done|done| |].
  - constructor; try done. exists (mkDW true max 0 ∅). split; [done|]. constructor; [done|]. intros key e. cbn. by rewrite lookup_empty.
  - by constructor.
  - intros i v Hv. destruct (HP i v Hv) as [Hi2 Hfv]. split; [done|]. unfold content, cache_page. cbn. unfold backing, dw_page. rewrite Hd. cbn.
    rewrite lookup_empty. destruct (file_page w i); done.
Qed.
End refinement.

(** ** Properties *)

(** [C3] Pages keep what clients put in them. Start with open pools over files of pages, a frame
    manager of [pool_num] blocks and an empty double write buffer, on a device without faults.
    For every sequence of calls that takes pages, writes to pages that are held, flushes and
    releases them, in which a page is only asked for while not every frame is pinned: every
    call returns and succeeds, and each page read is what was last put in it, wherever it is
    by then: the calls answer as if the pools were a map from pages to their LSN and data. The
    frames that are evicted, the pages that wait in the double write buffer, and the order in
    which that buffer is written out make no difference. *)
Theorem pages_keep_contents {L : Type} `{LT : LogTotal L} (walk_order : gmap FrameId (option DWPage) → list (FrameId * option DWPage))
    (pool_num : Z) (w : World L) (P : gmap FrameId (LSN * list Z)) (cs : list page_call) (rs : list page_result) (s' : PageMap) :
  (∀ m, walk_order m ≡ₚ map_to_list m) → fresh_pools pool_num w → pages_in_files w P →
  page_map_run (Z.to_nat (pool_num * DEFAULT_ITEM_NUM_PER_POOL)) (w_objs w) (mkPageMap P ∅) cs = Some (rs, s') →
  ∃ l st, run_page_calls walk_order cs (w, ∅) = Some (rs, st) ∧ world_ok [] l st.1 ∧
    ∀ i v, sp_pages s' !! i = Some v → content l st.1 i = Some v.
Proof.
  intros Hwo Hfr HP E. pose proof (fresh_rel pool_num w P Hfr HP) as Hrel.
  destruct (page_calls_refine walk_order Hwo _ _ cs _ _ _ _ _ Hrel E) as (l & st & Er & [Hok _ _ _ Hpg]).
  exists l, st. split; [done|]. split; [done|]. intros i v Hv. by destruct (Hpg i v Hv).
Qed.

(** a pool of two pages *)
Definition two_pages : World unit :=
  mkWorld (frame_mgr_init 1).2 (DiskDW (mkDW true 1 0 ∅))
    (mkDev {[ "t"%string := [mkPage 0 0 [1]; mkPage 5 0 [2; 3]] ]} None [] []) {[ 1%positive := mkBP true 1 None "t" ]}
    {[ "t"%string := 1%positive ]} {[ 1 := 1%positive ]} 2 tt.
Lemma two_pages_fresh : fresh_pools 1 two_pages.
Proof.
  constructor; [done|by vm_compute|by exists 1| |intros b bp Hb; cbn [two_pages w_objs] in Hb; by apply lookup_singleton_Some in Hb as [<- <-]|done|done].
  constructor; cbn [two_pages w_objs id_to_buffer_pools_].
  - intros i b [<- <-]%lookup_singleton_Some. by exists (mkBP true 1 None "t").
  - intros i j b c bp cp [<- <-]%lookup_singleton_Some [<- <-]%lookup_singleton_Some. done.
Qed.

Lemma pages_keep_contents_witness :
  ∃ l st, run_page_calls map_to_list [PGet 1 1; PPut (1, 1) 9 [4]; PFlush (1, 1); PUnpin (1, 1); PGet 1 1] (two_pages, ∅) =
      Some ([RPage (5, [2; 3]); RDone SUCCESS; RDone SUCCESS; RDone SUCCESS; RPage (9, [4])], st) ∧ world_ok [] l st.1 ∧
    ∀ i v, sp_pages (mkPageMap {[ (1, 1) := (9, [4]) ]} {[ (1, 1) := 1 ]}) !! i = Some v → content l st.1 i = Some v.
Proof.
  apply (pages_keep_contents map_to_list 1 two_pages {[ (1, 1) := (5, [2; 3]) ]} _ _ (mkPageMap {[ (1, 1) := (9, [4]) ]} {[ (1, 1) := 1 ]})).
  - done.
  - apply two_pages_fresh.
  - intros i v [<- <-]%lookup_singleton_Some. done.
  - reflexivity.
Defined.
