(* ===== verification/BufferPoolHeader.v ===== *)
(** * BufferPoolHeader: which pages of a pool are allocated

    The header of a pool (page 0) represents a number of pages and the set of those that are
    allocated. Here are the updates of the header as operations of that set, the operations
    of the pool as updates of the header frame, and replaying the log over an older header. *)
From Stdlib Require Import String.
From stdpp Require Import strings sorting.
From S2P Require Import Prelude Types Bitmap Encoding LogHandler LruCache LruSpec FrameManager FrameSpec Crc BufferPool BufferPoolSpec BufferPoolHeld.

(** ** The header as a set of pages *)

Record PageSet := mkPageSet { ps_count : Z; ps_pages : gset Z }.
Definition header_bits (h : BPFileHeader) : Z := 8 * len (fh_bitmap h).

Record header_is (h : BPFileHeader) (s : PageSet) : Prop := {
  hi_bytes : bitmap_ok (fh_bitmap h) (header_bits h);
  hi_small : header_bits h < 2 ^ 30;
  hi_count : page_count h = ps_count s;
  hi_range : 0 ≤ ps_count s ≤ header_bits h;
  hi_alloc : allocated_pages h = Z.of_nat (size (ps_pages s));
  hi_bit j : 0 ≤ j → bit (fh_bitmap h) j = true ↔ j ∈ ps_pages s;
  hi_pages j : j ∈ ps_pages s → 0 ≤ j < ps_count s;
  hi_id : in_int32 (fh_buffer_pool_id h);
}.

(** the first page below [ps_count] that is not allocated *)
Definition free_page (s : PageSet) : option PageNum := head (filter (λ j, j ∉ ps_pages s) (seqZ 0 (ps_count s))).
(** taking a page, and giving it back *)
Definition take_page (i : PageNum) (s : PageSet) : PageSet := mkPageSet (Z.max (ps_count s) (i + 1)) ({[i]} ∪ ps_pages s).
Definition drop_page (i : PageNum) (s : PageSet) : PageSet := mkPageSet (ps_count s) (ps_pages s ∖ {[i]}).

Lemma free_page_Some s i : free_page s = Some i → 0 ≤ i < ps_count s ∧ i ∉ ps_pages s.
Proof. intros (Hf & Hi%elem_of_seqZ)%head_Some_elem_of%list_elem_of_filter. split; [lia|done]. Qed.
Lemma free_page_None s i : free_page s = None → 0 ≤ i < ps_count s → i ∈ ps_pages s.
Proof.
  intros Hn Hi. destruct (decide (i ∈ ps_pages s)) as [|Hni]; [done|]. exfalso. apply head_None in Hn.
  assert (Hin : i ∈ filter (λ j, j ∉ ps_pages s) (seqZ 0 (ps_count s))) by (apply list_elem_of_filter; split; [done|apply elem_of_seqZ; lia]).
  rewrite Hn in Hin. by apply elem_of_nil in Hin.
Qed.

Lemma size_interval n : 0 ≤ n → size (list_to_set (seqZ 0 n) : gset Z) = Z.to_nat n.
Proof. intros Hn. rewrite size_list_to_set by apply NoDup_seqZ. by rewrite length_seqZ. Qed.
Lemma pages_interval h s : header_is h s → ps_pages s ⊆ list_to_set (seqZ 0 (ps_count s)).
Proof. intros Hh j Hj. apply elem_of_list_to_set, elem_of_seqZ. pose proof (hi_pages _ _ Hh j Hj). lia. Qed.
Lemma pages_size h s : header_is h s → Z.of_nat (size (ps_pages s)) ≤ ps_count s.
Proof.
  intros Hh. pose proof (subseteq_size _ _ (pages_interval h s Hh)) as Hs. destruct (hi_range _ _ Hh). rewrite size_interval in Hs by lia. lia.
Qed.

(** ** Single bits of the header *)

Lemma page_bit_ok h s i : header_is h s → 0 ≤ i < header_bits h → page_bit h i = Some (bool_decide (i ∈ ps_pages s)).
Proof.
  intros Hh Hi. unfold page_bit. rewrite (get_bit_bit _ _ _ (hi_bytes _ _ Hh) Hi). f_equal. apply eq_bool_prop_intro.
  rewrite bool_decide_spec, <-(hi_bit _ _ Hh i) by lia. by destruct (bit (fh_bitmap h) i).
Qed.

(** the header when page [i] has been taken: the bit, the counts *)
Lemma header_take h s i c : header_is h s → 0 ≤ i ≤ ps_count s → i < header_bits h → i ∉ ps_pages s → c = Z.max (page_count h) (i + 1) →
  ∃ h', set_page_bit i (fh_counts c (wrap32 (allocated_pages h + 1)) h) = Some h' ∧
    header_is h' (take_page i s) ∧ header_bits h' = header_bits h ∧ fh_buffer_pool_id h' = fh_buffer_pool_id h.
Proof.
  intros Hh Hi Hb Hni ->. destruct (set_bit_spec (fh_bitmap h) (header_bits h) i (hi_bytes _ _ Hh) ltac:(lia)) as (bm & E & Hok & Hl & Hbit).
  unfold set_page_bit. cbn [fh_bitmap fh_counts]. rewrite E. cbn. eexists. split; [done|]. assert (Hb' : header_bits (mkBPFileHeader (fh_buffer_pool_id h) (Z.max (page_count h) (i + 1)) (wrap32 (allocated_pages h + 1)) bm) = header_bits h) by (unfold header_bits; cbn; by rewrite Hl).
  unfold fh_set_bitmap, fh_counts. cbn [fh_buffer_pool_id page_count allocated_pages]. rewrite Hb'. split; [|done]. destruct Hh as [Hbm Hsm Hc Hr Ha Hbi Hpg Hid].
  constructor; rewrite ?Hb'; cbn [fh_bitmap page_count allocated_pages fh_buffer_pool_id ps_count ps_pages take_page]; [done|done|by rewrite Hc|lia| | | |done].
  - rewrite size_union by set_solver. rewrite size_singleton, Ha. assert (Hsz : Z.of_nat (size (ps_pages s)) ≤ ps_count s) by (by apply (pages_size h); constructor).
    rewrite wrap32_id; [lia|]. unfold in_int32. lia.
  - intros j Hj. rewrite Hbit by done. case_bool_decide as Hij; [set_solver|]. rewrite Hbi by done. set_solver.
  - intros j [->%elem_of_singleton|Hj]%elem_of_union; [lia|]. apply Hpg in Hj. lia.
Qed.

Lemma header_drop h s i : header_is h s → i ∈ ps_pages s →
  ∃ h', clear_page_bit i (fh_counts (page_count h) (wrap32 (allocated_pages h - 1)) h) = Some h' ∧
    header_is h' (drop_page i s) ∧ header_bits h' = header_bits h ∧ fh_buffer_pool_id h' = fh_buffer_pool_id h.
Proof.
  intros Hh Hin. pose proof (hi_pages _ _ Hh i Hin) as Hi. pose proof (hi_range _ _ Hh) as Hr.
  destruct (clear_bit_spec (fh_bitmap h) (header_bits h) i (hi_bytes _ _ Hh) ltac:(lia)) as (bm & E & Hok & Hl & Hbit).
  unfold clear_page_bit. cbn [fh_bitmap fh_counts]. rewrite E. cbn. eexists. split; [done|]. pose proof (pages_size h s Hh) as Hsz.
  assert (Hb' : header_bits (fh_set_bitmap bm (fh_counts (page_count h) (wrap32 (allocated_pages h - 1)) h)) = header_bits h) by (unfold header_bits; cbn; by rewrite Hl).
  rewrite Hb'. split; [|done]. destruct Hh as [Hbm Hsm Hc _ Ha Hbi Hpg Hid].
  constructor; rewrite ?Hb'; cbn [fh_bitmap page_count allocated_pages fh_buffer_pool_id ps_count ps_pages drop_page fh_set_bitmap fh_counts]; [done|done|done|lia| | | |done].
  - rewrite size_difference by set_solver. rewrite size_singleton, Ha. assert (size (ps_pages s) ≠ 0%nat) by (intros Hz%size_empty_inv; set_solver).
    rewrite wrap32_id; [lia|]. unfold in_int32. lia.
  - intros j Hj. rewrite Hbit by done. case_bool_decide as Hij; [set_solver|]. rewrite Hbi by done. set_solver.
  - intros j [Hj _]%elem_of_difference. by apply Hpg.
Qed.

(** ** Looking for a free page *)

Lemma free_page_loop_ok h s n i : header_is h s → 0 ≤ i → i + Z.of_nat n ≤ header_bits h →
  free_page_loop n i h = Some (head (filter (λ j, j ∉ ps_pages s) (seqZ i (Z.of_nat n)))).
Proof.
  intros Hh. revert i. induction n as [|n IH]; intros i Hi Hn; [done|]. cbn [free_page_loop].
  rewrite (page_bit_ok h s i Hh) by lia. cbn [mbind option_bind]. rewrite seqZ_cons by lia. rewrite filter_cons.
  case_bool_decide as Hin; cbn [negb]; [rewrite decide_False by (intros ?; done)|by rewrite decide_True].
  rewrite IH by lia. by replace (Z.pred (Z.of_nat (S n))) with (Z.of_nat n) by lia.
Qed.

Lemma find_free_page_ok h s : header_is h s → find_free_page h = Some (free_page s).
Proof.
  intros Hh. unfold find_free_page, free_page. destruct (hi_range _ _ Hh) as [H0 H1]. rewrite (hi_count _ _ Hh). destruct (allocated_pages h <? ps_count s) eqn:E; zbool.
  - rewrite (free_page_loop_ok h s) by (done || lia). by rewrite Z2Nat.id by lia.
  - rewrite list_filter_none; [done|]. apply Forall_forall. intros j Hj%elem_of_seqZ Hni. apply Hni.
    rewrite (hi_alloc _ _ Hh) in E. pose proof (pages_interval h s Hh) as Hsub.
    assert (Heq : ps_pages s ≡ list_to_set (seqZ 0 (ps_count s))) by (apply set_subseteq_size_equiv; [done|]; rewrite size_interval by lia; lia).
    apply Heq. apply elem_of_list_to_set, elem_of_seqZ. lia.
Qed.

(** ** The header in its page *)

Lemma dec_enc_fields h : in_int32 (fh_buffer_pool_id h) → in_int32 (page_count h) → in_int32 (allocated_pages h) → dec_file_header (enc_file_header h) = Some h.
Proof.
  intros Hi Hc Ha. unfold dec_file_header, enc_file_header. set (zs := [_; _; _]).
  rewrite (field32_enc_fields zs _ 0 (fh_buffer_pool_id h)) by done. cbn [mbind option_bind].
  rewrite (field32_enc_fields zs _ 1 (page_count h)) by done. cbn [mbind option_bind].
  rewrite (field32_enc_fields zs _ 2 (allocated_pages h)) by done. cbn [mbind option_bind].
  rewrite drop_app_length' by (pose proof (len_enc_fields zs) as Hl; unfold len in Hl; cbn [zs length] in Hl; unfold BPFileHeader_SIZE; lia).
  by destruct h.
Qed.
Lemma header_ints h s : header_is h s → in_int32 (fh_buffer_pool_id h) ∧ 0 ≤ page_count h < 2 ^ 30 ∧ 0 ≤ allocated_pages h < 2 ^ 30.
Proof.
  intros Hh. pose proof (pages_size h s Hh). pose proof (hi_small _ _ Hh). pose proof (hi_range _ _ Hh). rewrite (hi_count _ _ Hh), (hi_alloc _ _ Hh).
  split; [apply (hi_id _ _ Hh)|lia].
Qed.
Lemma dec_enc_bp_header h s : header_is h s → dec_file_header (enc_file_header h) = Some h.
Proof. intros (Hi & Hc & Ha)%header_ints. apply dec_enc_fields; unfold in_int32 in *; lia. Qed.

(** the bit does not depend on the counts *)
Lemma set_page_bit_counts i c n h h' : set_page_bit i (fh_counts c n h) = Some h' → ∃ hb, set_page_bit i h = Some hb ∧ fh_counts c n hb = h'.
Proof. unfold set_page_bit. cbn [fh_counts fh_bitmap]. destruct (set_bit (fh_bitmap h) i) as [bm|]; [|done]. intros [= <-]. by eexists. Qed.
Lemma clear_page_bit_counts i c n h h' : clear_page_bit i (fh_counts c n h) = Some h' → ∃ hb, clear_page_bit i h = Some hb ∧ fh_counts c n hb = h'.
Proof. unfold clear_page_bit. cbn [fh_counts fh_bitmap]. destruct (clear_bit (fh_bitmap h) i) as [bm|]; [|done]. intros [= <-]. by eexists. Qed.

(** ** The operations of the pool *)

Section alloc.
Context {L : Type} `{WL : WalLaws L}.
Context (walk_order : gmap FrameId (option DWPage) → list (FrameId * option DWPage)).
Hypothesis walk_perm : ∀ m, walk_order m ≡ₚ map_to_list m.
Abbreviation W := (World L).
Implicit Types (w : W) (l : cache) (s : PageSet) (h : BPFileHeader).

(** only the header of pool [b] is held, in frame [a]; its pages can all be read *)
Record alloc_rel (N : nat) (b : bpref) (bp : DiskBufferPool) (a : faddr) l w (lsn : LSN) h s : Prop := {
  al_ok : world_ok [(id bp, 0)] l w;
  al_bp : w_objs w !! b = Some bp;
  al_id : id_to_buffer_pools_ w !! id bp = Some b;
  al_frame : hdr_frame_ bp = Some a;
  al_held : held_ok N {[ (id bp, 0) := 1 ]} {[ (id bp, 0) := a ]} l w;
  al_content : content l w (id bp, 0) = Some (lsn, enc_file_header h);
  al_header : header_is h s;
  al_zero : 0 ∈ ps_pages s;
  al_mem j n : pins l (memory (w_mgr w)) (id bp, j) = Some n → j < ps_count s;
  al_backed j : 0 ≤ j < ps_count s → is_Some (backing w (id bp, j));
}.

Lemma hdr_frame N b bp a l w lsn h s : alloc_rel N b bp a l w lsn h s →
  ∃ f, cached l (id bp, 0) = Some a ∧ memory (w_mgr w) !! a = Some f ∧ frame_id_ f = (id bp, 0) ∧ pin_count_ f = 1 ∧ view (page_ f) = (lsn, enc_file_header h).
Proof.
  intros Hr. destruct (held_cached N _ _ l w (id bp, 0) 1 (wo_mgr _ _ _ (al_ok _ _ _ _ _ _ _ _ _ Hr)) (al_held _ _ _ _ _ _ _ _ _ Hr)) as (c & f & Hea & Hc & Hf & Hid & Hp & _).
  { apply lookup_singleton_eq. }
  rewrite lookup_singleton_eq in Hea. injection Hea as <-. exists f. do 4 (split; [done|]).
  pose proof (al_content _ _ _ _ _ _ _ _ _ Hr) as Hct. rewrite (content_at l w _ a f Hc Hf) in Hct. congruence.
Qed.

Lemma get_header_dec w a f h : memory (w_mgr w) !! a = Some f → dec_file_header (p_data (page_ f)) = Some h → get_header a w = Some (h, w).
Proof.
  intros Hf Hd. unfold get_header, on_mgr at 1, frame_at, bind at 1. rewrite Hf. cbn. replace (with_mgr (w_mgr w) w) with w by by destruct w.
  unfold liftO. by rewrite Hd.
Qed.
Lemma get_header_ok w a f h s : memory (w_mgr w) !! a = Some f → p_data (page_ f) = enc_file_header h → header_is h s → get_header a w = Some (h, w).
Proof. intros Hf Hd Hh. apply (get_header_dec w a f); [done|]. rewrite Hd. by apply (dec_enc_bp_header h s). Qed.

(** the header frame is changed, and the log *)
Lemma alloc_changed N b bp a l w lsn h s f f' lg lsn' h' s' : alloc_rel N b bp a l w lsn h s → memory (w_mgr w) !! a = Some f →
  frame_id_ f' = frame_id_ f → pin_count_ f' = pin_count_ f → view (page_ f') = (lsn', enc_file_header h') →
  log_ready lg → header_is h' s' → ps_count s' = ps_count s → 0 ∈ ps_pages s' →
  alloc_rel N b bp a l (with_log lg (put_frame a f' w)) lsn' h' s'.
Proof.
  intros Hr Hf Hi Hp Hv Hlg Hh' Hc' Hz'. destruct (hdr_frame _ _ _ _ _ _ _ _ _ Hr) as (f0 & Hc & Hf0 & _). assert (f0 = f) as -> by congruence.
  destruct Hr as [Hok Hbp Hid Hfr Hh Hct Hhd Hz Hm Hb].
  assert (Hok' : world_ok [(id bp, 0)] l (put_frame a f' w)) by (apply (put_frame_ok _ l w (id bp, 0) a f f' Hok Hc Hf Hi Hp); right; left).
  constructor; try done.
  - destruct Hok' as [? [] (d & ? & []) ? ? _ ?]. constructor; try done. exists d. split; [done|]. by constructor.
  - by apply (held_insert N _ _ l w _ a f f' Hh Hf Hp).
  - rewrite (content_at l (with_log lg (put_frame a f' w)) (id bp, 0) a f'); [by rewrite Hv|done|apply lookup_insert_eq].
  - intros j n. cbn. rewrite (pins_insert l _ a f f') by done. rewrite Hc'. apply Hm.
  - intros j Hj. rewrite Hc' in Hj. by apply Hb.
Qed.

Lemma append_log_ok w bp op i : log_ready (w_log w) →
  ∃ lg, append_log bp op i w = Some ((SUCCESS, wal_lsn (w_log w) + 1), with_log lg w) ∧ log_ready lg ∧ wal_lsn lg = wal_lsn (w_log w) + 1 ∧
    wal_entries lg = wal_entries (w_log w) ++ [mkLogRec (wal_lsn (w_log w) + 1) BUFFER_POOL (enc_fields [id bp; type_id op; i])].
Proof.
  intros Hr. destruct (wal_append (w_log w) BUFFER_POOL (enc_fields [id bp; type_id op; i]) Hr) as (lg & E & Hr' & Hl & He).
  { pose proof log_max_page as Hm. rewrite len_enc_fields. unfold len. cbn. change (64 + BP_PAGE_DATA_SIZE) with 8240 in Hm. lia. }
  exists lg. split; [|done]. unfold append_log, on_log. by rewrite E.
Qed.

(** the page taken from a pool in state [s], and when there is one *)
Definition page_taken s : PageNum := default (ps_count s) (free_page s).
Definition can_take h s : Prop := free_page s = None → ps_count s < header_bits h.

Definition taken_entry (lsn : LSN) (bp : DiskBufferPool) (op : BufferPoolOperation) (i : PageNum) : LogRec :=
  mkLogRec lsn BUFFER_POOL (enc_fields [id bp; type_id op; i]).

(** what an operation leaves: [l'], [w'] represent [s'], and one entry was logged *)
Definition op_done N b bp a w l' w' h h' s' (e : LogRec) : Prop :=
  alloc_rel N b bp a l' w' (wal_lsn (w_log w')) h' s' ∧ header_bits h' = header_bits h ∧ fh_buffer_pool_id h' = fh_buffer_pool_id h ∧
  wal_lsn (w_log w') = wal_lsn (w_log w) + 1 ∧ wal_entries (w_log w') = wal_entries (w_log w) ++ [e].

Lemma set_file_header_eq {B} (k : unit → M W B) w a f h : memory (w_mgr w) !! a = Some f →
  bind (set_file_header a h) k w = k tt (put_frame a (fr_set_data (enc_file_header h) f) w).
Proof. apply upd_frame_eq. Qed.
Lemma put_frame_at w a f : memory (w_mgr (put_frame a f w)) !! a = Some f.
Proof. apply lookup_insert_eq. Qed.
Lemma put_frame_log w a f lg : put_frame a f (with_log lg w) = with_log lg (put_frame a f w).
Proof. done. Qed.
Lemma hdr_of_ok w b bp a : w_objs w !! b = Some bp → hdr_frame_ bp = Some a → hdr_of b w = Some (a, w).
Proof. intros Hb Ha. unfold hdr_of, bp_of, bind. rewrite Hb. unfold liftO. by rewrite Ha. Qed.
Lemma bp_of_ok w b bp : w_objs w !! b = Some bp → bp_of b w = Some (bp, w).
Proof. intros Hb. unfold bp_of. by rewrite Hb. Qed.

(** a page is handed out, looked at and released again *)
Lemma taken_released N b bp a l w lsn h s i c f : i ≠ 0 → i < ps_count s →
  world_ok [(id bp, 0)] l w → w_objs w !! b = Some bp → id_to_buffer_pools_ w !! id bp = Some b → hdr_frame_ bp = Some a →
  held_ok N (take_pin (id bp, i) {[ (id bp, 0) := 1 ]}) (<[(id bp, i) := c]> {[ (id bp, 0) := a ]}) l w →
  memory (w_mgr w) !! c = Some f → frame_id_ f = (id bp, i) →
  content l w (id bp, 0) = Some (lsn, enc_file_header h) → header_is h s → 0 ∈ ps_pages s →
  (∀ j n, j ≠ i → pins l (memory (w_mgr w)) (id bp, j) = Some n → j < ps_count s) → (∀ j, 0 ≤ j < ps_count s → is_Some (backing w (id bp, j))) →
  ∃ w2, (let* f := frame c in unpin_page c ;;; ret (SUCCESS, (frame_id_ f).2)) w = Some ((SUCCESS, i), w2) ∧
    alloc_rel N b bp a l w2 lsn h s ∧ w_log w2 = w_log w.
Proof.
  intros Hi0 Hi Hok Hbp Hid Hfr Hh Hf Hfi Hct Hhd Hz Hm Hb.
  assert (Hne : (id bp, 0) ≠ (id bp, i)) by congruence. set (T := {[ (id bp, 0) := 1 ]}) in *.
  destruct (unpin_held [(id bp, 0)] N _ _ l w (id bp, i) 1 Hok Hh) as (c' & w2 & Hec & E & Hok2 & [Hso2 _ Hsi2 _] & Hh2 & Hct2 & Hlg2 & Hbk2 & Hpi2).
  { unfold take_pin, T. rewrite lookup_insert_eq, lookup_singleton_ne by done. done. }
  rewrite lookup_insert_eq in Hec. injection Hec as <-.
  rewrite (bind_eq _ _ _ _ _ (frame_ok w c f Hf)), (bind_eq _ _ _ _ _ E), Hfi. exists w2. split; [done|].
  split; [|done]. constructor; [done|by rewrite Hso2|by rewrite Hsi2|done| |by rewrite Hct2|done|done| |].
  - assert (Hd : drop_pin (id bp, i) 1 (take_pin (id bp, i) T) = T).
    { unfold drop_pin, take_pin. cbn. rewrite delete_insert_eq. apply delete_id. unfold T. by rewrite lookup_singleton_ne. }
    rewrite Hd in Hh2. apply (held_env _ _ _ _ _ _ Hh2). intros k n [<- <-]%lookup_singleton_Some. by rewrite lookup_insert_ne by done.
  - intros j n Hj. destruct (decide (j = i)) as [->|Hji]; [done|]. rewrite Hpi2, decide_False in Hj by congruence. by apply (Hm j n).
  - intros j Hj. rewrite Hbk2. by apply Hb.
Qed.

(** [allocate_page], and the client releases the page; the number of the page is the answer *)
Definition take_and_release (b : bpref) : M W (RC * PageNum) :=
  let* r := allocate_page walk_order b in
  match r.2 with
  | Some c => let* f := frame c in unpin_page c ;;; ret (r.1, (frame_id_ f).2)
  | None => ret (r.1, -1)
  end.

Lemma exc_hdr N b bp a l w lsn h s : alloc_rel N b bp a l w lsn h s → exc_pinned [(id bp, 0)] l w.
Proof.
  intros Hr. apply (held_exc N _ _ _ l w (wo_mgr _ _ _ (al_ok _ _ _ _ _ _ _ _ _ Hr)) (al_held _ _ _ _ _ _ _ _ _ Hr)).
  intros k ->%list_elem_of_singleton. rewrite lookup_singleton_eq. by exists 1.
Qed.

(** a page that was given back is handed out again *)
Lemma reuse_ok N b bp a l w lsn h s i : alloc_rel N b bp a l w lsn h s → (1 < N)%nat → free_page s = Some i →
  ∃ l' w' h', take_and_release b w = Some ((SUCCESS, i), w') ∧ op_done N b bp a w l' w' h h' (take_page i s) (taken_entry (wal_lsn (w_log w) + 1) bp ALLOCATE i).
Proof.
  intros Hr HN Hfree. destruct (free_page_Some _ _ Hfree) as [Hi Hni]. destruct (hdr_frame _ _ _ _ _ _ _ _ _ Hr) as (f & Hc & Hf & Hfi & Hfp & Hfv).
  pose proof (al_header _ _ _ _ _ _ _ _ _ Hr) as Hh. pose proof (al_bp _ _ _ _ _ _ _ _ _ Hr) as Hbp. pose proof (hi_range _ _ Hh) as Hrg. pose proof (hi_count _ _ Hh) as Hcn.
  assert (Hi0 : i ≠ 0) by (intros ->; exact (Hni (al_zero _ _ _ _ _ _ _ _ _ Hr))).
  destruct (header_take h s i (page_count h) Hh ltac:(lia) ltac:(lia) Hni ltac:(lia)) as (h' & Eh & Hh' & Hb' & Hid').
  unfold take_and_release, allocate_page. rewrite !bind_assoc.
  rewrite (bind_eq _ _ _ _ _ (hdr_of_ok w b bp a Hbp (al_frame _ _ _ _ _ _ _ _ _ Hr))), bind_assoc, (bind_eq _ _ _ _ _ (bp_of_ok w b bp Hbp)).
  injection Hfv as Hfl Hfd. rewrite bind_assoc, (bind_eq _ _ _ _ _ (get_header_ok w a f h s Hf Hfd Hh)).
  rewrite bind_assoc, (bind_liftO _ _ _ _ (find_free_page_ok h s Hh)), Hfree, bind_assoc, (bind_liftO _ _ _ _ Eh).
  rewrite bind_assoc, (set_file_header_eq _ w a f h' Hf), bind_assoc, (upd_frame_eq _ _ a _ _ (put_frame_at _ _ _)), put_put.
  set (f2 := fr_set_dirty true _).
  destruct (append_log_ok (put_frame a f2 w) bp ALLOCATE i (wo_log _ _ _ (al_ok _ _ _ _ _ _ _ _ _ Hr))) as (lg & El & Hlg & Hls & Hle).
  rewrite bind_assoc, (bind_eq _ _ _ _ _ El). cbn [snd].
  rewrite bind_assoc, (upd_frame_eq _ (with_log lg (put_frame a f2 w)) a _ _ (put_frame_at _ _ _)), put_frame_log, put_put. set (f3 := fr_set_lsn _ _).
  set (w1 := with_log lg (put_frame a f3 w)).
  assert (Hr1 : alloc_rel N b bp a l w1 (wal_lsn lg) h' (take_page i s)).
  { apply (alloc_changed N b bp a l w lsn h s f f3 lg); try done; [by rewrite Hls|cbn; lia|]. cbn. apply elem_of_union_r, (al_zero _ _ _ _ _ _ _ _ _ Hr). }
  destruct (al_backed _ _ _ _ _ _ _ _ _ Hr1 i) as [p Hp]; [cbn; lia|].
  assert (∃ v, content l w1 (id bp, i) = Some v) as [v Hv].
  { unfold content. destruct (cache_page l w1 (id bp, i)); [by eexists|]. rewrite Hp. by eexists. }
  destruct (get_page_held walk_order walk_perm [(id bp, 0)] N _ _ l w1 b bp i v (al_ok _ _ _ _ _ _ _ _ _ Hr1) (exc_hdr _ _ _ _ _ _ _ _ _ Hr1)
    (al_held _ _ _ _ _ _ _ _ _ Hr1) Hbp (al_id _ _ _ _ _ _ _ _ _ Hr1) ltac:(lia) Hv) as (c & g & l2 & w2 & E2 & Hok2 & Hsp2 & Hc2 & Hg2 & _ & Hh2 & Hct2 & Hnn2 & Hbk2).
  { right. by rewrite map_size_singleton. }
  rewrite (bind_eq _ _ _ _ _ E2). cbn [fst snd].
  destruct (cached_frame _ _ _ _ (wo_mgr _ _ _ Hok2) Hc2) as (g' & Hg' & Hgi & _). assert (g' = g) as -> by congruence.
  destruct Hsp2 as [Hso2 _ Hsi2 Hsl2].
  destruct (taken_released N b bp a l2 w2 (wal_lsn lg) h' (take_page i s) i c g Hi0 ltac:(cbn; lia) Hok2) as (w3 & E3 & Hr3 & Hlg3).
  { by rewrite Hso2. } { rewrite Hsi2. apply (al_id _ _ _ _ _ _ _ _ _ Hr1). } { apply (al_frame _ _ _ _ _ _ _ _ _ Hr1). } { done. } { done. } { done. }
  { apply Hct2, (al_content _ _ _ _ _ _ _ _ _ Hr1). } { done. } { apply (al_zero _ _ _ _ _ _ _ _ _ Hr1). }
  { intros j n Hj Hn. apply (al_mem _ _ _ _ _ _ _ _ _ Hr1 j n). apply Hnn2; [congruence|done]. }
  { intros j Hj. apply Hbk2. by apply (al_backed _ _ _ _ _ _ _ _ _ Hr1). }
  exists l2, w3, h'. split; [exact E3|].
  destruct (waited_same _ _ Hsl2 Hlg) as (_ & Hw2 & He2). cbn [w1 with_log w_log] in Hw2, He2.
  unfold op_done. rewrite Hlg3, Hw2, He2. split; [done|]. split; [done|]. split; [done|]. split; [exact Hls|exact Hle].
Qed.

(** the new page is cleared and written: it extends the file *)
Lemma extend_ok l w b bp key c g : world_ok (key :: [(id bp, 0)]) l w → cached l key = Some c → memory (w_mgr w) !! c = Some g →
  id_to_buffer_pools_ w !! key.1 = Some b →
  ∃ x w', flush_page_internal walk_order b c (put_frame c (fr_clear_page g) w) = Some (SUCCESS, w') ∧ world_ok [(id bp, 0)] l w' ∧ same_pools w w' ∧
    w_mgr w' = mkFrameMgr (<[c := flushed_frame x (fr_clear_page g)]> (memory (w_mgr w))) (frames_ (w_mgr w)) (allocator_ (w_mgr w)) ∧
    is_Some (backing w' key) ∧ keeps (backing w) (backing w') (Some key).
Proof.
  intros Hok Hc Hg Hb. assert (Hok1 : world_ok (key :: [(id bp, 0)]) l (put_frame c (fr_clear_page g) w)).
  { apply (put_frame_ok _ l w key c g (fr_clear_page g) Hok Hc Hg eq_refl eq_refl). right. left. }
  destruct (flush_page_internal_ok walk_order walk_perm _ l _ b key c (fr_clear_page g) Hok1 Hc (put_frame_at w c _) Hb) as (x & w' & E & Hok' & Hs & Hm & (p & Hp & Hv) & Hk).
  exists x, w'. split; [done|]. cbn [put_frame with_mgr w_mgr memory frames_ allocator_] in Hm. rewrite insert_insert_eq in Hm.
  split; [|split; [by destruct Hs; constructor|]; split; [done|]; split; [by exists p|exact Hk]].
  apply (world_ok_drop _ l w' key c (flushed_frame x (fr_clear_page g)) Hok' Hc); [rewrite Hm; apply lookup_insert_eq|]. by exists p.
Qed.

(** a page is added at the end of the file *)
Lemma append_ok N b bp a l w lsn h s : alloc_rel N b bp a l w lsn h s → (1 < N)%nat → free_page s = None → ps_count s < header_bits h → header_bits h ≤ MAX_PAGE_NUM →
  ∃ l' w' h', take_and_release b w = Some ((SUCCESS, ps_count s), w') ∧
    op_done N b bp a w l' w' h h' (take_page (ps_count s) s) (taken_entry (wal_lsn (w_log w) + 1) bp ALLOCATE (ps_count s)).
Proof.
  intros Hr HN Hfree Hlt Hmax. destruct (hdr_frame _ _ _ _ _ _ _ _ _ Hr) as (f & Hc & Hf & Hfi & Hfp & Hfv).
  pose proof (al_header _ _ _ _ _ _ _ _ _ Hr) as Hh. pose proof (al_bp _ _ _ _ _ _ _ _ _ Hr) as Hbp. pose proof (hi_range _ _ Hh) as Hrg. pose proof (hi_count _ _ Hh) as Hcn.
  pose proof (hi_pages _ _ Hh 0 (al_zero _ _ _ _ _ _ _ _ _ Hr)) as Hn0. set (n := ps_count s) in *.
  assert (Hni : n ∉ ps_pages s) by (intros Hin%(hi_pages _ _ Hh); unfold n in *; lia).
  destruct (header_take h s n (wrap32 (page_count h + 1)) Hh ltac:(lia) ltac:(lia) Hni) as (h' & Eh & Hh' & Hb' & Hid').
  { rewrite wrap32_id; [lia|]. pose proof (hi_small _ _ Hh). unfold in_int32. lia. }
  unfold take_and_release, allocate_page. rewrite !bind_assoc.
  rewrite (bind_eq _ _ _ _ _ (hdr_of_ok w b bp a Hbp (al_frame _ _ _ _ _ _ _ _ _ Hr))), bind_assoc, (bind_eq _ _ _ _ _ (bp_of_ok w b bp Hbp)).
  injection Hfv as Hfl Hfd. rewrite bind_assoc, (bind_eq _ _ _ _ _ (get_header_ok w a f h s Hf Hfd Hh)).
  rewrite bind_assoc, (bind_liftO _ _ _ _ (find_free_page_ok h s Hh)), Hfree, Hcn. rewrite (proj2 (Z.leb_gt _ _)) by (unfold n in *; lia).
  destruct (append_log_ok w bp ALLOCATE n (wo_log _ _ _ (al_ok _ _ _ _ _ _ _ _ _ Hr))) as (lg & El & Hlg & Hls & Hle).
  rewrite bind_assoc, (bind_eq _ _ _ _ _ El). cbn [snd].
  rewrite bind_assoc, (upd_frame_eq _ (with_log lg w) a _ f Hf), put_frame_log. set (f1 := fr_set_lsn _ f). set (w1 := with_log lg (put_frame a f1 w)).
  assert (Hr1 : alloc_rel N b bp a l w1 (wal_lsn lg) h s).
  { apply (alloc_changed N b bp a l w lsn h s f f1 lg); try done; [|apply (al_zero _ _ _ _ _ _ _ _ _ Hr)]. rewrite Hls. unfold view, f1. cbn. by rewrite Hfd. }
  assert (Hcn1 : cached l (id bp, n) = None).
  { destruct (cached l (id bp, n)) as [c|] eqn:Ec; [|done]. exfalso. pose proof (wo_mgr _ _ _ (al_ok _ _ _ _ _ _ _ _ _ Hr1)) as Hm1.
    destruct (cached_frame _ _ _ _ Hm1 Ec) as (g & Hg & _). pose proof (al_mem _ _ _ _ _ _ _ _ _ Hr1 n (pin_count_ g)) as Hlt'.
    assert (n < ps_count s); [|unfold n in *; lia]. apply Hlt'. apply (pins_Some _ _ _ _ Hm1). eauto. }
  assert (Hav : available l w1).
  { apply (held_available N _ _ l w1 (wo_mgr _ _ _ (al_ok _ _ _ _ _ _ _ _ _ Hr1)) (al_held _ _ _ _ _ _ _ _ _ Hr1)). by rewrite map_size_singleton. }
  destruct (allocate_frame_ok walk_order walk_perm [(id bp, 0)] l w1 b bp n (al_ok _ _ _ _ _ _ _ _ _ Hr1) (exc_hdr _ _ _ _ _ _ _ _ _ Hr1) Hbp
    (al_id _ _ _ _ _ _ _ _ _ Hr1) ltac:(lia) Hcn1 Hav) as (c & g & l2 & w2 & E2 & Hok2 & Hs2 & Hc2 & Hg2 & Hp2 & Hgi2 & _ & Hst2 & Hlen2 & Hct2 & Hnn2 & Hbk2).
  rewrite bind_assoc, (bind_eq _ _ _ _ _ E2). cbn [snd].
  assert (Hne : (id bp, 0) ≠ (id bp, n)) by (intros [= ?]; lia).
  destruct (Hst2 (id bp, 0) a f1 Hc (put_frame_at w a f1) ltac:(cbn; lia)) as (Hca2 & f2 & Hf2 & Hfp2 & Hfv2 & _).
  assert (Hac : a ≠ c) by (intros ->; apply Hne; by apply (cached_inj l2 (w_mgr w2) _ _ c (wo_mgr _ _ _ Hok2))).
  injection Hfv2 as Hfl2 Hfd2. rewrite bind_assoc, (bind_eq _ _ _ _ _ (get_header_ok w2 a f2 h s Hf2 (eq_trans Hfd2 Hfd) Hh)).
  rewrite Hcn in Eh. rewrite Hcn, bind_assoc, (bind_liftO _ _ _ _ Eh), bind_assoc, (set_file_header_eq _ w2 a f2 h' Hf2).
  rewrite bind_assoc, (upd_frame_eq _ _ a _ _ (put_frame_at _ _ _)), put_put. set (f3 := fr_set_dirty true _). set (w3 := put_frame a f3 w2).
  assert (Hok3 : world_ok ((id bp, n) :: [(id bp, 0)]) l2 w3).
  { apply (put_frame_ok _ l2 w2 (id bp, 0) a f2 f3 Hok2 Hca2 Hf2 eq_refl eq_refl). by left. }
  assert (Hg3 : memory (w_mgr w3) !! c = Some g) by (cbn; by rewrite lookup_insert_ne).
  assert (Hsame : fr_set_buffer_pool_id (id bp) g = g) by (destruct g; cbn in Hgi2; subst; done).
  rewrite bind_assoc, (upd_frame_eq _ w3 c _ g Hg3), Hsame.
  rewrite bind_assoc, (upd_frame_eq _ _ c _ _ (put_frame_at w3 c g)), put_put.
  assert (Ha4 : memory (w_mgr (put_frame c (fr_clear_page g) w3)) !! a = Some f3) by (cbn; by rewrite lookup_insert_ne, lookup_insert_eq).
  rewrite bind_assoc, (bind_eq _ _ _ _ _ (get_header_ok _ a f3 h' (take_page n s) Ha4 eq_refl Hh')).
  rewrite bind_assoc, (upd_frame_eq _ _ c _ _ (put_frame_at w3 c _)), put_put.
  assert (Hpc : page_count h' - 1 = n) by (rewrite (hi_count _ _ Hh'); cbn; unfold n; lia).
  assert (Hsame2 : fr_set_page_num (page_count h' - 1) (fr_clear_page g) = fr_clear_page g) by (rewrite Hpc; destruct g; cbn in Hgi2; subst; done). rewrite Hsame2.
  destruct (extend_ok l2 w3 b bp (id bp, n) c g Hok3 Hc2 Hg3) as (x & w4 & E4 & Hok4 & Hs4 & Hm4 & Hb4 & Hk4).
  { cbn. rewrite (sp_ids _ _ Hs2). apply (al_id _ _ _ _ _ _ _ _ _ Hr1). }
  rewrite bind_assoc, (bind_eq _ _ _ _ _ E4), bind_ret. cbn [fst snd].
  assert (Hh2 : held_ok N (take_pin (id bp, n) {[ (id bp, 0) := 1 ]}) (<[(id bp, n) := c]> {[ (id bp, 0) := a ]}) l2 w2).
  { refine (held_take N _ _ l w1 l2 w2 (id bp, n) c g (wo_mgr _ _ _ (al_ok _ _ _ _ _ _ _ _ _ Hr1)) (wo_mgr _ _ _ Hok2) (al_held _ _ _ _ _ _ _ _ _ Hr1) Hc2 Hg2 _ _ Hnn2 Hlen2).
    - rewrite Hp2, lookup_singleton_ne by done. reflexivity.
    - intros k d u Hk Hd Hu Hu0. destruct (Hst2 k d u Hd Hu Hu0) as (? & u' & ? & ? & _). eauto. }
  assert (Hh4 : held_ok N (take_pin (id bp, n) {[ (id bp, 0) := 1 ]}) (<[(id bp, n) := c]> {[ (id bp, 0) := a ]}) l2 w4).
  { apply (held_insert N _ _ l2 w3 w4 c g (flushed_frame x (fr_clear_page g))); [|done|done|done]. by apply (held_insert N _ _ l2 w2 w3 a f2 f3 Hh2 Hf2). }
  assert (Hpin4 : ∀ k, pins l2 (memory (w_mgr w4)) k = pins l2 (memory (w_mgr w2)) k).
  { intros k. rewrite Hm4. cbn [memory]. rewrite (pins_insert l2 _ c g) by done. apply (pins_insert l2 _ a f2 f3 k Hf2 eq_refl). }
  assert (Hbk4 : backed w2 w4) by (by apply (backed_keeps w2 w4 (id bp, n))).
  destruct (taken_released N b bp a l2 w4 (wal_lsn lg) h' (take_page n s) n c (flushed_frame x (fr_clear_page g)) ltac:(lia) ltac:(cbn; lia) Hok4) as (w5 & E5 & Hr5 & Hlg5).
  { rewrite (sp_objs _ _ Hs4). cbn. by rewrite (sp_objs _ _ Hs2). } { rewrite (sp_ids _ _ Hs4). cbn. rewrite (sp_ids _ _ Hs2). apply (al_id _ _ _ _ _ _ _ _ _ Hr1). }
  { apply (al_frame _ _ _ _ _ _ _ _ _ Hr1). } { done. } { rewrite Hm4. apply lookup_insert_eq. } { done. }
  { assert (Ha5 : memory (w_mgr w4) !! a = Some f3) by (rewrite Hm4; cbn [memory]; rewrite lookup_insert_ne by done; apply put_frame_at).
    rewrite (content_at l2 w4 _ a f3 Hca2 Ha5). change (view (page_ f3)) with (p_lsn (page_ f2), enc_file_header h'). by rewrite Hfl2, Hls. }
  { done. } { cbn. apply elem_of_union_r, (al_zero _ _ _ _ _ _ _ _ _ Hr). }
  { intros j m Hj Hm. rewrite Hpin4 in Hm. cbn. pose proof (al_mem _ _ _ _ _ _ _ _ _ Hr1 j m) as Hlt'. enough (j < ps_count s) by lia. apply Hlt'. apply (Hnn2 (id bp, j) m); [congruence|done]. }
  { intros j Hj. cbn in Hj. destruct (decide (j = n)) as [->|Hjn]; [done|]. apply Hbk4, Hbk2, (al_backed _ _ _ _ _ _ _ _ _ Hr1). unfold n in *. lia. }
  exists l2, w5, h'. split; [exact E5|].
  assert (Hwl : waited lg (w_log w4)) by (apply (waited_trans _ (w_log w2)); [exact (sp_log _ _ Hs2)|exact (sp_log _ _ Hs4)]).
  destruct (waited_same _ _ Hwl Hlg) as (_ & Hw4 & He4). unfold op_done. rewrite Hlg5, Hw4, He4. done.
Qed.

(** ** Giving a page back *)

Lemma dispose_ok N b bp a l w lsn h s i : alloc_rel N b bp a l w lsn h s → i ≠ 0 → i ∈ ps_pages s →
  ∃ l' w' h', dispose_page b i w = Some (SUCCESS, w') ∧ op_done N b bp a w l' w' h h' (drop_page i s) (taken_entry (wal_lsn (w_log w) + 1) bp DEALLOCATE i).
Proof.
  intros Hr Hi0 Hin. pose proof Hr as [Hok Hbp Hid Hfr Hh Hct Hhd Hz Hm Hb].
  destruct (header_drop h s i Hhd Hin) as (h' & Eh & Hh' & Hb' & Hid'). assert (Hne : (id bp, 0) ≠ (id bp, i)) by congruence.
  unfold dispose_page. rewrite (proj2 (Z.eqb_neq _ _)) by done. rewrite (bind_eq _ _ _ _ _ (bp_of_ok w b bp Hbp)).
  destruct (forget_ok [(id bp, 0)] N _ _ l w (id bp, i) Hok Hh) as (l1 & m & E1 & Hok1 & Hh1 & Hct1 & Hpn1); [by apply lookup_singleton_ne|].
  match goal with |- context [bind (on_mgr _ (frame_get (id bp) i)) (λ r, bind _ ?k) w] => assert (E2 : bind (on_mgr _ (frame_get (id bp) i)) (λ r, bind (match r with Some a => on_mgr _ (frame_free (id bp) i a) ;;; ret tt | None => ret tt end) k) w = bind (forget (id bp, i)) k w) end.
  { unfold forget. rewrite bind_assoc. reflexivity. }
  rewrite E2. clear E2. rewrite (bind_eq _ _ _ _ _ E1). set (w1 := with_mgr m w) in *.
  assert (Hr1 : alloc_rel N b bp a l1 w1 lsn h s).
  { constructor; try done; [by rewrite Hct1|]. intros j n Hj. apply (Hm j n). by apply Hpn1. }
  destruct (hdr_frame _ _ _ _ _ _ _ _ _ Hr1) as (f & Hc & Hf & Hfi & Hfp & Hfv). injection Hfv as Hfl Hfd.
  destruct (append_log_ok w1 bp DEALLOCATE i (wo_log _ _ _ Hok1)) as (lg & El & Hlg & Hls & Hle).
  rewrite (bind_eq _ _ _ _ _ El). rewrite (bind_eq _ _ _ _ _ (hdr_of_ok (with_log lg w1) b bp a Hbp Hfr)). cbn [snd].
  rewrite (upd_frame_eq _ (with_log lg w1) a _ f Hf), put_frame_log. rewrite (upd_frame_eq _ (with_log lg (put_frame a _ w1)) a _ _ (put_frame_at _ _ _)), put_frame_log, put_put.
  set (f2 := fr_set_dirty true _). assert (Hf2 : memory (w_mgr (with_log lg (put_frame a f2 w1))) !! a = Some f2) by apply put_frame_at.
  rewrite (bind_eq _ _ _ _ _ (get_header_ok _ a f2 h s Hf2 Hfd Hhd)), (bind_liftO _ _ _ _ Eh).
  rewrite (set_file_header_eq _ _ a f2 h' Hf2), put_frame_log, put_put. unfold ret. set (f3 := fr_set_data _ f2).
  exists l1, (with_log lg (put_frame a f3 w1)), h'. split; [done|]. unfold op_done. cbn [with_log w_log]. split; [|done].
  apply (alloc_changed N b bp a l1 w1 lsn h s f f3 lg); try done.
  - by rewrite Hls.
  - cbn. set_solver.
Qed.

(** ** Runs *)

Definition run_alloc_call (b : bpref) (c : option PageNum) : M W (RC * PageNum) :=
  match c with
  | None => take_and_release b
  | Some p => let* rc := dispose_page b p in ret (rc, p)
  end.
Fixpoint run_alloc_calls (b : bpref) (cs : list (option PageNum)) : M W (list (RC * PageNum)) :=
  match cs with
  | [] => ret []
  | c :: cs => let* r := run_alloc_call b c in let* rs := run_alloc_calls b cs in ret (r :: rs)
  end.
End alloc.

(** the calls on a set of pages with room for [cap]: [None] takes a page, [Some p] gives page
    [p] back. There is no answer to giving back a page that is not allocated, nor to
    taking one when [cap] pages are. *)
Definition page_set_call (cap : Z) (s : PageSet) (c : option PageNum) : option ((RC * PageNum) * PageSet) :=
  match c with
  | None =>
      let i := page_taken s in
      if bool_decide (i < cap) then Some ((SUCCESS, i), take_page i s) else None
  | Some p =>
      if p =? 0 then Some ((INTERNAL, p), s)
      else if bool_decide (p ∈ ps_pages s) then Some ((SUCCESS, p), drop_page p s) else None
  end.
Fixpoint page_set_run (cap : Z) (s : PageSet) (cs : list (option PageNum)) : option (list (RC * PageNum) * PageSet) :=
  match cs with
  | [] => Some ([], s)
  | c :: cs => '(r, s) ← page_set_call cap s c; '(rs, s) ← page_set_run cap s cs; Some (r :: rs, s)
  end.

(** the entry of the log for a call that changed the set *)
Definition call_entry (bp : DiskBufferPool) (s : PageSet) (lsn : LSN) (c : option PageNum) : list LogRec :=
  match c with
  | None => [taken_entry lsn bp ALLOCATE (page_taken s)]
  | Some p => if p =? 0 then [] else [taken_entry lsn bp DEALLOCATE p]
  end.
Fixpoint run_entries (cap : Z) (bp : DiskBufferPool) (s : PageSet) (lsn : LSN) (cs : list (option PageNum)) : list LogRec :=
  match cs with
  | [] => []
  | c :: cs =>
      let es := call_entry bp s (lsn + 1) c in
      es ++ match page_set_call cap s c with Some (_, s) => run_entries cap bp s (lsn + len es) cs | None => [] end
  end.

Section runs.
Context {L : Type} `{WL : WalLaws L}.
Context (walk_order : gmap FrameId (option DWPage) → list (FrameId * option DWPage)).
Hypothesis walk_perm : ∀ m, walk_order m ≡ₚ map_to_list m.
Abbreviation W := (World L).
Implicit Types (w : W) (l : cache) (s : PageSet) (h : BPFileHeader).

(** the header has the LSN of the last entry, once there is one *)
Definition lsn_ok (lsn : LSN) w (es : list LogRec) : Prop := lsn ≤ wal_lsn (w_log w) ∧ (es ≠ [] → lsn = wal_lsn (w_log w)).

Lemma alloc_call_ok N b bp a l w lsn h s c r s' : alloc_rel N b bp a l w lsn h s → (1 < N)%nat → header_bits h ≤ MAX_PAGE_NUM →
  page_set_call (header_bits h) s c = Some (r, s') →
  ∃ l' w' h' lsn', run_alloc_call walk_order b c w = Some (r, w') ∧ alloc_rel N b bp a l' w' lsn' h' s' ∧ header_bits h' = header_bits h ∧
    let es := call_entry bp s (wal_lsn (w_log w) + 1) c in
    wal_lsn (w_log w') = wal_lsn (w_log w) + len es ∧ wal_entries (w_log w') = wal_entries (w_log w) ++ es ∧ lsn' = match es with [] => lsn | _ => wal_lsn (w_log w') end.
Proof.
  intros Hr HN Hmax E. destruct c as [p|]; cbn [page_set_call run_alloc_call call_entry] in *.
  - destruct (p =? 0) eqn:Ep; zbool.
    + injection E as <- <-. subst p. exists l, w, h, lsn. split; [done|]. split; [done|]. split; [done|]. cbn. rewrite Z.add_0_r, app_nil_r. done.
    + case_bool_decide as Hin; [|done]. injection E as <- <-.
      destruct (dispose_ok walk_order walk_perm N b bp a l w lsn h s p Hr Ep Hin) as (l' & w' & h' & Ed & Hr' & Hb & _ & Hl & He).
      exists l', w', h', (wal_lsn (w_log w')). rewrite (bind_eq _ _ _ _ _ Ed). done.
  - case_bool_decide as Hi; [|done]. injection E as <- <-.
    assert (∃ l' w' h', take_and_release walk_order b w = Some ((SUCCESS, page_taken s), w') ∧
      op_done N b bp a w l' w' h h' (take_page (page_taken s) s) (taken_entry (wal_lsn (w_log w) + 1) bp ALLOCATE (page_taken s))) as (l' & w' & h' & Et & Hr' & Hb & _ & Hl & He).
    { unfold page_taken in *. destruct (free_page s) as [i|] eqn:Ef; cbn in *; [by apply (reuse_ok walk_order walk_perm N b bp a l w lsn)|].
      by apply (append_ok walk_order walk_perm N b bp a l w lsn). }
    exists l', w', h', (wal_lsn (w_log w')). done.
Qed.

Lemma alloc_calls_ok N b bp a cs : ∀ l w lsn h s rs s', alloc_rel N b bp a l w lsn h s → (1 < N)%nat → header_bits h ≤ MAX_PAGE_NUM →
  page_set_run (header_bits h) s cs = Some (rs, s') → lsn ≤ wal_lsn (w_log w) →
  ∃ l' w' h' lsn', run_alloc_calls walk_order b cs w = Some (rs, w') ∧ alloc_rel N b bp a l' w' lsn' h' s' ∧ header_bits h' = header_bits h ∧
    let es := run_entries (header_bits h) bp s (wal_lsn (w_log w)) cs in
    wal_lsn (w_log w') = wal_lsn (w_log w) + len es ∧ wal_entries (w_log w') = wal_entries (w_log w) ++ es ∧
    lsn ≤ lsn' ≤ wal_lsn (w_log w') ∧ (es ≠ [] → lsn' = wal_lsn (w_log w')).
Proof.
  induction cs as [|c cs IH]; intros l w lsn h s rs s' Hr HN Hmax E Hlsn; cbn [page_set_run run_alloc_calls run_entries] in *.
  { injection E as <- <-. exists l, w, h, lsn. split; [done|]. split; [done|]. split; [done|]. cbn. rewrite Z.add_0_r, app_nil_r. done. }
  destruct (page_set_call (header_bits h) s c) as [[r s1]|] eqn:Ec; [|done]. cbn in E.
  destruct (page_set_run (header_bits h) s1 cs) as [[rs1 s2]|] eqn:Es; [|done]. cbn in E. injection E as <- <-.
  destruct (alloc_call_ok N b bp a l w lsn h s c r s1 Hr HN Hmax Ec) as (l1 & w1 & h1 & lsn1 & E1 & Hr1 & Hb1 & Hl1 & He1 & Hn1).
  set (es1 := call_entry bp s (wal_lsn (w_log w) + 1) c) in *.
  assert (Hle1 : lsn ≤ lsn1 ≤ wal_lsn (w_log w1)) by (unfold len in Hl1; destruct es1; subst lsn1; cbn in Hl1; lia).
  rewrite <-Hb1 in Hmax, Es. destruct (IH l1 w1 lsn1 h1 s1 rs1 s2 Hr1 HN Hmax Es ltac:(lia)) as (l2 & w2 & h2 & lsn2 & E2 & Hr2 & Hb2 & Hl2 & He2 & Hle2 & Hn2).
  exists l2, w2, h2, lsn2. rewrite (bind_eq _ _ _ _ _ E1), (bind_eq _ _ _ _ _ E2). split; [done|]. split; [done|]. split; [congruence|]. cbn zeta.
  rewrite Hb1, Hl1 in Hl2, He2, Hn2. split; [rewrite len_app; lia|]. split; [by rewrite He2, He1, app_assoc|]. split; [lia|].
  intros Hne. destruct (run_entries (header_bits h) bp s1 (wal_lsn (w_log w) + len es1) cs) as [|e2 es2]; [|apply Hn2; done].
  rewrite app_nil_r in Hne. destruct es1; [done|]. unfold len in *. cbn in *. lia.
Qed.
End runs.
