(* ===== verification/BufferPoolRecovery.v ===== *)
(** * BufferPoolRecovery: opening a pool, allocating its pages, replaying its log

    The properties of BufferPoolHeader.v from the state in which a file is opened, and the
    replay of the log over the header as it was at any earlier moment. *)
From Stdlib Require Import String.
From stdpp Require Import strings sorting.
From S2P Require Import Prelude Types Bitmap Encoding LogHandler LruCache LruSpec FrameManager FrameSpec Crc BufferPool BufferPoolSpec BufferPoolHeld BufferPoolHeader.

Section recovery.
Context {L : Type} `{WL : WalLaws L}.
Context (walk_order : gmap FrameId (option DWPage) → list (FrameId * option DWPage)).
Hypothesis walk_perm : ∀ m, walk_order m ≡ₚ map_to_list m.
Abbreviation W := (World L).
Implicit Types (w : W) (l : cache) (s : PageSet) (h : BPFileHeader).

(** ** Opening a file *)

(** a new manager of buffer pools over a file whose header represents [s] *)
Record closed_pool (pool_num : Z) w (name : string) (p : Page) h s : Prop := {
  cp_num : 0 < pool_num;
  cp_mgr : frame_mgr_init pool_num = (SUCCESS, w_mgr w);
  cp_dw : ∃ max, w_dw w = DiskDW (mkDW true max 0 ∅);
  cp_none : w_objs w = ∅ ∧ buffer_pools_ w = ∅ ∧ id_to_buffer_pools_ w = ∅;
  cp_file : ∃ pages, data_files (w_dev w) !! name = Some (p :: pages) ∧ ps_count s ≤ len (p :: pages);
  cp_page : p_data p = enc_file_header h;
  cp_header : header_is h s;
  cp_zero : 0 ∈ ps_pages s;
  cp_log : log_ready (w_log w);
  cp_faults : d_faults (w_dev w) = [];
}.

(** the state in which the header is the only page in memory *)
Lemma opened_rel N w b i a name l m1 f1 p pages h s : header_is h s → 0 ∈ ps_pages s → p_data p = enc_file_header h →
  mgr_ok l m1 → l ≡ₚ [((i, 0), a)] → memory m1 !! a = Some f1 → frame_id_ f1 = (i, 0) → pin_count_ f1 = 1 → S (length (frees (allocator_ m1))) = N →
  w_mgr w = mkFrameMgr (<[a := fr_set_page p f1]> (memory m1)) (frames_ m1) (allocator_ m1) →
  (∃ max, w_dw w = DiskDW (mkDW true max 0 ∅)) → w_objs w !! b = Some (mkBP true i (Some a) name) → id_to_buffer_pools_ w = {[ i := b ]} →
  data_files (w_dev w) !! name = Some (p :: pages) → ps_count s ≤ len (p :: pages) → d_faults (w_dev w) = [] → log_ready (w_log w) →
  alloc_rel N b (mkBP true i (Some a) name) a l w (p_lsn p) h s.
Proof.
  intros Hh Hz Hpd Hok Hl Hf1 Hi1 Hp1 HN Hm (max & Hd) Hb Hids Hfile Hlen Hfa Hlg. set (bp := mkBP true i (Some a) name) in *.
  set (f2 := fr_set_page p f1) in *. assert (Hmok : mgr_ok l (w_mgr w)) by (rewrite Hm; by apply (mgr_ok_insert l m1 a f1 f2)).
  assert (Hc : ∀ k, cached l k = if decide (k = (i, 0)) then Some a else None).
  { intros k. rewrite (cached_perm l _ m1 k Hok Hl). unfold cached. cbn. case_decide as Hk; cbn in Hk; [by rewrite decide_True|by rewrite decide_False by congruence]. }
  assert (Hf2 : memory (w_mgr w) !! a = Some f2) by (rewrite Hm; apply lookup_insert_eq).
  assert (Hpin : ∀ k, pins l (memory (w_mgr w)) k = if decide (k = (i, 0)) then Some 1 else None).
  { intros k. unfold pins. rewrite Hc. case_decide; [|done]. cbn. rewrite Hf2. cbn. by rewrite Hp1. }
  constructor; [|done|cbn; rewrite Hids; apply lookup_singleton_eq|done| | |done|done| |].
  - constructor; [done| | | | |done|done].
    + constructor; rewrite Hids.
      * intros j c [<- <-]%lookup_singleton_Some. by exists bp.
      * intros j k c d cp dp [<- <-]%lookup_singleton_Some [<- <-]%lookup_singleton_Some. done.
    + exists (mkDW true max 0 ∅). split; [done|]. constructor; [done|]. intros key e. cbn. by rewrite lookup_empty.
    + intros k c. rewrite Hc. case_decide; [|done]. subst k. intros _. cbn. rewrite Hids, lookup_singleton_eq. done.
    + intros k c g. rewrite Hc. case_decide; [|done]. subst k. intros _ _ _ Hx. exfalso. apply Hx. left.
  - constructor.
    + intros k n [<- <-]%lookup_singleton_Some. lia.
    + intros k n Hn. rewrite Hpin. cbn [id bp]. case_decide as Hk; [subst k; by rewrite lookup_singleton_eq|by rewrite lookup_singleton_ne by congruence].
    + intros k n c [<- <-]%lookup_singleton_Some. cbn [id bp]. rewrite Hc, decide_True by done. intros [= <-]. apply lookup_singleton_eq.
    + rewrite Hl, Hm. cbn [length allocator_]. lia.
  - cbn [id bp]. rewrite (content_at l w (i, 0) a f2); [|by rewrite Hc, decide_True|done]. unfold view. cbn [page_ f2 fr_set_page]. by rewrite Hpd.
  - intros j n. cbn [id bp]. rewrite Hpin. case_decide as Hj; [|done]. injection Hj as ->. intros _. apply (hi_pages _ _ Hh 0 Hz).
  - intros j Hj. unfold backing, dw_page. rewrite Hd. cbn [dblwr_pages_]. rewrite lookup_empty. unfold file_page. cbn [fst snd id bp].
    rewrite Hids, lookup_singleton_eq. cbn [mbind option_bind]. rewrite Hb. cbn [mbind option_bind file_name_ bp]. rewrite Hfile. apply rd_is_Some. cbn. unfold len in *. cbn in *. lia.
Qed.

Lemma open_file_ok pool_num w name p h s : closed_pool pool_num w name p h s →
  ∃ b a l w', open_file walk_order name w = Some ((SUCCESS, Some b), w') ∧ w_log w' = w_log w ∧
    alloc_rel (Z.to_nat (pool_num * DEFAULT_ITEM_NUM_PER_POOL)) b (mkBP true (fh_buffer_pool_id h) (Some a) name) a l w' (p_lsn p) h s.
Proof.
  intros [Hn Hm (max & Hd) (Hno & Hnn & Hni) (pages & Hfile & Hlen) Hpd Hh Hz Hl Hfa].
  destruct (frame_mgr_init_ok pool_num Hn) as (m & E & Hok & Hfr). assert (m = w_mgr w) as -> by congruence.
  set (N := Z.to_nat (pool_num * DEFAULT_ITEM_NUM_PER_POOL)) in *. set (i := fh_buffer_pool_id h).
  destruct (frees (allocator_ (w_mgr w))) as [|a fs] eqn:Efs; [exfalso; unfold N, DEFAULT_ITEM_NUM_PER_POOL in Hfr; cbn in Hfr; lia|].
  pose proof (frame_alloc_ok [] (w_mgr w) (i, 0) Hok) as Ha. rewrite Efs in Ha. cbn [cached find] in Ha. destruct Ha as (f & l & m1 & Ea & Hf & Hok1 & Hl1 & Hf1 & Hm1).
  set (b := fresh (dom (w_objs w))). unfold open_file. rewrite bind_get, Hnn, lookup_empty. unfold set_bp at 1. rewrite bind_modify. fold b.
  set (bp0 := mkBP false (-1) None ""%string). set (w1 := with_objs (<[b := bp0]> (w_objs w)) w).
  assert (Hb0 : w_objs w1 !! b = Some bp0) by apply lookup_insert_eq.
  unfold bp_open_file. rewrite bind_assoc, bind_get. cbn [w_dev with_objs w1]. rewrite Hfile.
  rewrite bind_assoc, (bind_eq _ _ _ _ _ (bp_of_ok w1 b bp0 Hb0)). cbn [head].
  pose proof (dec_enc_bp_header h s Hh) as Edec. rewrite <-Hpd in Edec. rewrite bind_assoc, (bind_liftO _ _ _ _ Edec).
  unfold set_bp at 1. rewrite bind_assoc, bind_modify. set (bp1 := mkBP true i None name). set (w2 := with_objs _ w1).
  assert (Hb2 : w_objs w2 !! b = Some bp1) by apply lookup_insert_eq.
  assert (Eal : allocate_frame walk_order b BP_HEADER_PAGE w2 = Some ((SUCCESS, a), with_mgr m1 w2)).
  { unfold allocate_frame. rewrite bind_get. cbn [w_dev with_objs w2 w1]. rewrite Hfa. cbn [length Nat.add allocate_frame_loop].
    rewrite bind_assoc, (bind_eq _ _ _ _ _ (bp_of_ok w2 b bp1 Hb2)), bind_assoc. cbn [id bp1]. by rewrite (on_mgr_eq _ _ w2 _ _ Ea). }
  rewrite bind_assoc, (bind_eq _ _ _ _ _ Eal). cbn [snd]. unfold set_bp at 1. rewrite bind_assoc, bind_modify.
  set (bp := mkBP true i (Some a) name). set (w3 := with_objs _ (with_mgr m1 w2)).
  assert (Hb3 : w_objs w3 !! b = Some bp) by apply lookup_insert_eq.
  set (f1 := mkFrame (dirty_ f) 1 (i, 0) (page_ f)).
  assert (Hf3 : memory (w_mgr w3) !! a = Some f1) by (cbn; rewrite Hm1; apply lookup_insert_eq).
  rewrite bind_assoc, (upd_frame_eq _ w3 a _ f1 Hf3). change (fr_set_buffer_pool_id i f1) with f1.
  set (w4 := put_frame a f1 w3). set (f2 := fr_set_page p f1).
  assert (Eld : load_page b BP_HEADER_PAGE a w4 = Some (SUCCESS, put_frame a f2 w3)).
  { unfold load_page. rewrite (bind_eq _ _ _ _ _ (bp_of_ok w4 b bp Hb3)). unfold read_page. rewrite bind_assoc, bind_get.
    assert (Hd4 : w_dw w4 = DiskDW (mkDW true max 0 ∅)) by exact Hd. assert (Hfile4 : data_files (w_dev w4) !! name = Some (p :: pages)) by exact Hfile. rewrite Hd4.
    unfold dw_read_page. cbn [dblwr_pages_]. rewrite lookup_empty, bind_ret. cbn [file_open bp negb orb]. change (BP_HEADER_PAGE <? 0) with false. cbv iota.
    rewrite bind_get. change (file_name_ bp) with name. rewrite Hfile4. cbn [default from_option].
    change (rd (Datatypes.id (p :: pages)) BP_HEADER_PAGE) with (Some p). cbv iota.
    rewrite (upd_frame_eq _ w4 a _ f1 (put_frame_at w3 a f1)). rewrite (upd_frame_eq _ _ a _ _ (put_frame_at w4 a _)). unfold w4. by rewrite !put_put. }
  rewrite bind_assoc, (bind_eq _ _ _ _ _ Eld). rewrite bool_decide_eq_true_2 by done. cbn [negb]. rewrite bind_ret. cbn [negb].
  rewrite bool_decide_eq_true_2 by done. cbn [negb]. rewrite (bind_eq _ _ _ _ _ (bp_of_ok (put_frame a f2 w3) b bp Hb3)).
  rewrite !bind_modify. unfold ret. cbn [id bp].
  set (we := put_frame a f2 w3).
  assert (∃ n, (if next_buffer_pool_id_ we <=? i then with_next_id (wrap32 (i + 1)) we else we) = with_next_id n we) as [n ->].
  { destruct (next_buffer_pool_id_ we <=? i); [by eexists|]. by exists (next_buffer_pool_id_ we). }
  cbn [id_to_buffer_pools_ with_next_id we put_frame with_mgr w3 w2 w1 with_objs]. rewrite Hni, lookup_empty.
  eexists b, a, l, _. split; [done|]. split; [done|].
  apply opened_rel with (m1 := m1) (f1 := f1) (pages := pages); try done.
  - rewrite Hf1. exact Hfr.
  - by exists max.
Qed.

(** ** Replaying the log over a header *)

(** the pool is open, its header frame holds [h] and represents [s] *)
Definition hdr_at (cap : Z) (b : bpref) (bp : DiskBufferPool) (a : faddr) w (lsn : LSN) s : Prop :=
  w_objs w !! b = Some bp ∧ id_to_buffer_pools_ w !! id bp = Some b ∧ hdr_frame_ bp = Some a ∧
  ∃ f h, memory (w_mgr w) !! a = Some f ∧ view (page_ f) = (lsn, enc_file_header h) ∧ header_is h s ∧ header_bits h = cap.

Lemma hdr_changed cap b bp a w lsn s f f' lsn' h' s' : hdr_at cap b bp a w lsn s → memory (w_mgr w) !! a = Some f →
  view (page_ f') = (lsn', enc_file_header h') → header_is h' s' → header_bits h' = cap → hdr_at cap b bp a (put_frame a f' w) lsn' s'.
Proof.
  intros (Hb & Hi & Ha & _) Hf Hv Hh Hm. split; [done|]. split; [done|]. split; [done|]. exists f', h'. split; [apply put_frame_at|done].
Qed.

(** the entry is for a call in state [s] *)
Definition applies (cap : Z) (s : PageSet) (op : BufferPoolOperation) (i : PageNum) : Prop :=
  match op with ALLOCATE => (0 ≤ i ≤ ps_count s ∧ (i ∉ ps_pages s) ∧ i < cap) | DEALLOCATE => (i ∈ ps_pages s) end.
Definition apply_op (op : BufferPoolOperation) (i : PageNum) (s : PageSet) : PageSet :=
  match op with ALLOCATE => take_page i s | DEALLOCATE => drop_page i s end.

Lemma redo_allocate_ok cap b bp a w lsn s e i f h : hdr_at cap b bp a w lsn s → memory (w_mgr w) !! a = Some f → view (page_ f) = (lsn, enc_file_header h) →
  header_is h s → header_bits h = cap → cap ≤ MAX_PAGE_NUM → lsn < e → applies cap s ALLOCATE i →
  ∃ w' lsn', redo_allocate_page b e i w = Some (SUCCESS, w') ∧ hdr_at cap b bp a w' lsn' (take_page i s) ∧ lsn' ≤ e.
Proof.
  intros Hat Hf Hv Hh Hm Hmax He (Hi & Hni & Hib). rewrite <-Hm in Hib. pose proof Hat as (Hb & Hid & Ha & _). injection Hv as Hl Hd. pose proof (hi_count _ _ Hh) as Hc.
  destruct (header_ints h s Hh) as (Hint & Hcr & Har).
  unfold redo_allocate_page. rewrite (bind_eq _ _ _ _ _ (hdr_of_ok w b bp a Hb Ha)), (bind_eq _ _ _ _ _ (frame_ok w a f Hf)), Hl.
  rewrite (proj2 (Z.leb_gt _ _)) by lia. rewrite (bind_eq _ _ _ _ _ (get_header_ok w a f h s Hf Hd Hh)). destruct (i <? page_count h) eqn:Ei; zbool.
  - rewrite (bind_liftO _ _ _ _ (page_bit_ok h s i Hh ltac:(lia))). rewrite bool_decide_eq_false_2 by done.
    destruct (header_take h s i (page_count h) Hh ltac:(lia) Hib Hni ltac:(lia)) as (h' & Eh & Hh' & Hb' & _).
    destruct (set_page_bit_counts _ _ _ _ _ Eh) as (hb & Ehb & Hhb). rewrite (bind_liftO _ _ _ _ Ehb).
    assert (Hcc : page_count hb = page_count h ∧ allocated_pages hb = allocated_pages h) by (unfold set_page_bit in Ehb; destruct (set_bit (fh_bitmap h) i); [by injection Ehb as <-|done]).
    destruct Hcc as [-> ->]. rewrite Hhb. rewrite (set_file_header_eq _ w a f _ Hf), (upd_frame_eq _ _ a _ _ (put_frame_at _ _ _)), put_put. unfold ret.
    eexists _, lsn. split; [done|]. split; [|lia]. apply (hdr_changed cap b bp a w lsn s f _ _ h' _ Hat Hf); [|done|by rewrite Hb'].
    unfold view. cbn [fr_set_dirty fr_set_data fr_set_page page_ p_lsn p_data]. by rewrite Hl.
  - rewrite (proj2 (Z.ltb_ge _ _)) by lia. rewrite (proj2 (Z.leb_gt _ _)) by lia.
    destruct (header_take h s i (wrap32 (page_count h + 1)) Hh ltac:(lia) Hib Hni) as (h' & Eh & Hh' & Hb' & _).
    { rewrite wrap32_id; [lia|]. unfold in_int32. lia. }
    rewrite (set_file_header_eq _ w a f _ Hf), (upd_frame_eq _ _ a _ _ (put_frame_at _ _ _)), put_put.
    rewrite (upd_frame_eq _ _ a _ _ (put_frame_at _ _ _)), put_put. set (h1 := fh_counts _ _ h) in *. set (f1 := fr_set_dirty true _).
    assert (Edec : dec_file_header (p_data (page_ f1)) = Some h1).
    { change (p_data (page_ f1)) with (enc_file_header h1). apply dec_enc_fields; cbn [h1 fh_counts fh_buffer_pool_id page_count allocated_pages]; [done|apply wrap32_range..]. }
    rewrite (bind_eq _ _ _ _ _ (get_header_dec _ a f1 h1 (put_frame_at w a f1) Edec)), (bind_liftO _ _ _ _ Eh).
    rewrite (set_file_header_eq _ _ a f1 _ (put_frame_at w a f1)), put_put. unfold ret.
    eexists _, e. split; [done|]. split; [|lia]. by apply (hdr_changed cap b bp a w lsn s f _ _ h' _ Hat Hf); [..|rewrite Hb'].
Qed.

Lemma redo_deallocate_ok cap b bp a w lsn s e i f h : hdr_at cap b bp a w lsn s → memory (w_mgr w) !! a = Some f → view (page_ f) = (lsn, enc_file_header h) →
  header_is h s → header_bits h = cap → cap ≤ MAX_PAGE_NUM → lsn < e → i ∈ ps_pages s →
  ∃ w', redo_deallocate_page b e i w = Some (SUCCESS, w') ∧ hdr_at cap b bp a w' e (drop_page i s).
Proof.
  intros Hat Hf Hv Hh Hm Hmax He Hi. pose proof Hat as (Hb & Hid & Ha & _). injection Hv as Hl Hd. pose proof (hi_count _ _ Hh) as Hc.
  pose proof (hi_pages _ _ Hh i Hi) as Hir. pose proof (hi_range _ _ Hh) as Hrg.
  unfold redo_deallocate_page. rewrite (bind_eq _ _ _ _ _ (hdr_of_ok w b bp a Hb Ha)), (bind_eq _ _ _ _ _ (frame_ok w a f Hf)), Hl.
  rewrite (proj2 (Z.leb_gt _ _)) by lia. rewrite (bind_eq _ _ _ _ _ (get_header_ok w a f h s Hf Hd Hh)). rewrite (proj2 (Z.leb_gt _ _)) by lia.
  rewrite (bind_liftO _ _ _ _ (page_bit_ok h s i Hh ltac:(lia))). rewrite bool_decide_eq_true_2 by done. cbn [negb].
  destruct (header_drop h s i Hh Hi) as (h' & Eh & Hh' & Hb' & _). destruct (clear_page_bit_counts _ _ _ _ _ Eh) as (hb & Ehb & Hhb). rewrite (bind_liftO _ _ _ _ Ehb).
  assert (Hcc : page_count hb = page_count h ∧ allocated_pages hb = allocated_pages h) by (unfold clear_page_bit in Ehb; destruct (clear_bit (fh_bitmap h) i); [by injection Ehb as <-|done]).
  destruct Hcc as [-> ->]. rewrite Hhb. rewrite (set_file_header_eq _ w a f _ Hf), (upd_frame_eq _ _ a _ _ (put_frame_at _ _ _)), put_put.
  rewrite (upd_frame_eq _ _ a _ _ (put_frame_at _ _ _)), put_put. unfold ret. eexists. split; [done|].
  by apply (hdr_changed cap b bp a w lsn s f _ _ h' _ Hat Hf); [..|rewrite Hb'].
Qed.

(** *** One entry *)

Lemma bp_replay_taken w b bp lsn op i : in_int32 (id bp) → in_int32 i → id_to_buffer_pools_ w !! id bp = Some b →
  bp_replay (taken_entry lsn bp op i) w = (match op with ALLOCATE => redo_allocate_page b lsn i | DEALLOCATE => redo_deallocate_page b lsn i end) w.
Proof.
  intros Hid Hi Hb. unfold bp_replay, taken_entry. cbn [lr_data lr_lsn]. rewrite len_enc_fields. change (4 * len [id bp; type_id op; i] =? BufferPoolLogEntry_SIZE) with true. cbn [negb].
  pose proof (field32_enc_fields [id bp; type_id op; i] [] 0 (id bp) eq_refl Hid) as E0. rewrite app_nil_r in E0.
  pose proof (field32_enc_fields [id bp; type_id op; i] [] 1 (type_id op) eq_refl) as E1. rewrite app_nil_r in E1.
  pose proof (field32_enc_fields [id bp; type_id op; i] [] 2 i eq_refl Hi) as E2. rewrite app_nil_r in E2.
  rewrite (bind_liftO _ _ _ _ E0), (bind_liftO _ _ _ _ (E1 ltac:(by destruct op))), (bind_liftO _ _ _ _ E2).
  assert (Eg : get_buffer_pool (id bp) w = Some ((SUCCESS, Some b), w)) by (unfold get_buffer_pool; rewrite bind_get, Hb; done).
  rewrite (bind_eq _ _ _ _ _ Eg). by destruct op.
Qed.

(** an entry that the header has seen is skipped *)
Lemma redo_skip cap b bp a w lsn s e op i : hdr_at cap b bp a w lsn s → e ≤ lsn →
  (match op with ALLOCATE => redo_allocate_page b e i | DEALLOCATE => redo_deallocate_page b e i end) w = Some (SUCCESS, w).
Proof.
  intros (Hb & Hid & Ha & f & h & Hf & Hv & _) He. injection Hv as Hl _.
  destruct op; [unfold redo_allocate_page|unfold redo_deallocate_page];
    rewrite (bind_eq _ _ _ _ _ (hdr_of_ok w b bp a Hb Ha)), (bind_eq _ _ _ _ _ (frame_ok w a f Hf)), Hl; by rewrite (proj2 (Z.leb_le _ _)) by lia.
Qed.

Lemma redo_applies cap b bp a w lsn s e op i : hdr_at cap b bp a w lsn s → cap ≤ MAX_PAGE_NUM → lsn < e → applies cap s op i →
  ∃ w' lsn', (match op with ALLOCATE => redo_allocate_page b e i | DEALLOCATE => redo_deallocate_page b e i end) w = Some (SUCCESS, w') ∧
    hdr_at cap b bp a w' lsn' (apply_op op i s) ∧ lsn' ≤ e.
Proof.
  intros Hat Hmax He Hap. pose proof Hat as (_ & _ & _ & f & h & Hf & Hv & Hh & Hm). destruct op.
  - by apply (redo_allocate_ok cap b bp a w lsn s e i f h).
  - destruct (redo_deallocate_ok cap b bp a w lsn s e i f h) as (w' & E & Hat'); try done. by exists w', e.
Qed.

(** *** The entries of a run *)

(** the log handler gives the entries to the replayer until one fails *)
Fixpoint replay_entries (es : list LogRec) : M W RC :=
  match es with
  | [] => ret SUCCESS
  | e :: es => let* rc := bp_replay e in if OB_FAIL rc then ret rc else replay_entries es
  end.

Lemma replay_app es1 es2 w w1 : replay_entries es1 w = Some (SUCCESS, w1) → replay_entries (es1 ++ es2) w = replay_entries es2 w1.
Proof.
  revert w. induction es1 as [|e es1 IH]; intros w E; cbn [app replay_entries] in *; [by injection E as ->|].
  apply bind_Some in E as (rc & w2 & E1 & E2). rewrite (bind_eq _ _ _ _ _ E1). destruct (OB_FAIL rc) eqn:Erc; [|by apply IH].
  injection E2 as -> ->. done.
Qed.

(** the page a call is about is a number of 32 bits *)
Lemma taken_range cap h s c r s' : header_is h s → header_bits h = cap → page_set_call cap s c = Some (r, s') →
  match c with
  | None => applies cap s ALLOCATE (page_taken s) ∧ s' = take_page (page_taken s) s ∧ in_int32 (page_taken s)
  | Some p => if p =? 0 then s' = s else applies cap s DEALLOCATE p ∧ s' = drop_page p s ∧ in_int32 p
  end.
Proof.
  intros Hh Hc E. pose proof (hi_range _ _ Hh) as Hr. pose proof (hi_small _ _ Hh) as Hs. destruct c as [p|]; cbn in E.
  - destruct (p =? 0); [by injection E as _ <-|]. case_bool_decide as Hp; [|done]. injection E as _ <-. pose proof (hi_pages _ _ Hh p Hp).
    split; [done|]. split; [done|]. unfold in_int32. lia.
  - case_bool_decide as Hi; [|done]. injection E as _ <-. unfold page_taken in *. destruct (free_page s) as [i|] eqn:Ef; cbn in *.
    + destruct (free_page_Some _ _ Ef). split; [split; [lia|done]|]. split; [done|]. unfold in_int32. lia.
    + split; [|split; [done|unfold in_int32; lia]]. split; [lia|]. split; [|done]. intros Hin%(hi_pages _ _ Hh). lia.
Qed.

Lemma replay_run cap b bp a cs : in_int32 (id bp) → cap ≤ MAX_PAGE_NUM → ∀ w hl s lsn rs s', hdr_at cap b bp a w hl s → hl ≤ lsn →
  page_set_run cap s cs = Some (rs, s') →
  ∃ w' hl', replay_entries (run_entries cap bp s lsn cs) w = Some (SUCCESS, w') ∧ hdr_at cap b bp a w' hl' s'.
Proof.
  intros Hid Hmax. induction cs as [|c cs IH]; intros w hl s lsn rs s' Hat Hl E; cbn [page_set_run run_entries] in *.
  { injection E as <- <-. by exists w, hl. }
  destruct (page_set_call cap s c) as [[r s1]|] eqn:Ec; [|done]. cbn in E. destruct (page_set_run cap s1 cs) as [[rs1 s2]|] eqn:Es; [|done]. cbn in E. injection E as <- <-.
  pose proof Hat as (_ & Hb & _ & f & h & _ & _ & Hh & Hm). pose proof (taken_range cap h s c r s1 Hh Hm Ec) as Ht.
  assert (Hone : ∀ op i, applies cap s op i → s1 = apply_op op i s → in_int32 i →
    ∃ w' hl', replay_entries ([taken_entry (lsn + 1) bp op i] ++ run_entries cap bp s1 (lsn + 1) cs) w = Some (SUCCESS, w') ∧ hdr_at cap b bp a w' hl' s2).
  { intros op i Hap -> Hi. destruct (redo_applies cap b bp a w hl s (lsn + 1) op i Hat Hmax ltac:(lia) Hap) as (w1 & hl1 & E1 & Hat1 & Hl1).
    destruct (IH w1 hl1 _ (lsn + 1) _ _ Hat1 Hl1 Es) as (w2 & hl2 & E2 & Hat2). exists w2, hl2. split; [|done].
    rewrite (replay_app _ _ w w1); [done|]. cbn [replay_entries]. rewrite <-(bp_replay_taken w b bp (lsn + 1) op i Hid Hi Hb) in E1.
    by rewrite (bind_eq _ _ _ _ _ E1). }
  destruct c as [p|]; cbn [call_entry].
  - destruct (p =? 0).
    + subst s1. cbn. rewrite Z.add_0_r. by apply (IH w hl s lsn rs1 s2).
    + destruct Ht as (Hap & Hs1 & Hi). by apply (Hone DEALLOCATE p).
  - destruct Ht as (Hap & Hs1 & Hi). by apply (Hone ALLOCATE (page_taken s)).
Qed.

Lemma header_step cap s i h op : header_is h s → header_bits h = cap → applies cap s op i → ∃ h', header_is h' (apply_op op i s) ∧ header_bits h' = cap.
Proof.
  intros Hh <- Hap. destruct op as [|]; cbn in *.
  - destruct Hap as (Hi & Hni & Hb). destruct (header_take h s i _ Hh Hi Hb Hni eq_refl) as (h' & _ & Hh' & Hb' & _). by exists h'.
  - destruct (header_drop h s i Hh Hap) as (h' & _ & Hh' & Hb' & _). by exists h'.
Qed.

(** the entries of a run that the header has seen *)
Lemma replay_seen cap b bp a cs : in_int32 (id bp) → ∀ w hl s s0 lsn rs s' h, hdr_at cap b bp a w hl s0 → header_is h s → header_bits h = cap →
  lsn + len (run_entries cap bp s lsn cs) ≤ hl → page_set_run cap s cs = Some (rs, s') →
  replay_entries (run_entries cap bp s lsn cs) w = Some (SUCCESS, w).
Proof.
  intros Hid. induction cs as [|c cs IH]; intros w hl s s0 lsn rs s' h Hat Hh Hm Hl E; cbn [page_set_run run_entries] in *; [done|].
  destruct (page_set_call cap s c) as [[r s1]|] eqn:Ec; [|done]. cbn in E. destruct (page_set_run cap s1 cs) as [[rs1 s2]|] eqn:Es; [|done].
  pose proof (taken_range cap h s c r s1 Hh Hm Ec) as Ht. pose proof Hat as (_ & Hb & _).
  assert (Hone : ∀ op i, applies cap s op i → s1 = apply_op op i s → in_int32 i →
    lsn + len ([taken_entry (lsn + 1) bp op i] ++ run_entries cap bp s1 (lsn + 1) cs) ≤ hl →
    replay_entries ([taken_entry (lsn + 1) bp op i] ++ run_entries cap bp s1 (lsn + 1) cs) w = Some (SUCCESS, w)).
  { intros op i Hap -> Hi Hl'. rewrite len_app in Hl'. change (len [taken_entry (lsn + 1) bp op i]) with 1 in Hl'.
    pose proof (bp_replay_taken w b bp (lsn + 1) op i Hid Hi Hb) as E1.
    rewrite (redo_skip cap b bp a w hl s0 (lsn + 1) op i Hat) in E1 by (unfold len in *; lia).
    rewrite (replay_app _ _ w w) by (cbn [replay_entries]; by rewrite (bind_eq _ _ _ _ _ E1)).
    destruct (header_step cap s i h op Hh Hm Hap) as (h' & Hh' & Hm'). by apply (IH w hl _ s0 (lsn + 1) rs1 s2 h' Hat Hh' Hm' ltac:(lia) Es). }
  destruct c as [p|]; cbn [call_entry] in *.
  - destruct (p =? 0).
    + subst s1. cbn [app] in *. change (len (@nil LogRec)) with 0 in *. rewrite Z.add_0_r in *. by apply (IH w hl s s0 lsn rs1 s2 h).
    + destruct Ht as (Hap & Hs1 & Hi). by apply (Hone DEALLOCATE p).
  - destruct Ht as (Hap & Hs1 & Hi). by apply (Hone ALLOCATE (page_taken s)).
Qed.

(** the header of a pool that was opened *)
Lemma hdr_at_rel N b bp a l w lsn h s cap : alloc_rel N b bp a l w lsn h s → header_bits h = cap → hdr_at cap b bp a w lsn s.
Proof.
  intros Hr Hc. destruct (hdr_frame _ _ _ _ _ _ _ _ _ Hr) as (f & _ & Hf & _ & _ & Hv). destruct Hr.
  split; [done|]. split; [done|]. split; [done|]. by exists f, h.
Qed.
Lemma run_entries_id cap bp bp' s lsn cs : id bp = id bp' → run_entries cap bp s lsn cs = run_entries cap bp' s lsn cs.
Proof.
  intros Hid. revert s lsn. induction cs as [|c cs IH]; intros s lsn; [done|]. cbn [run_entries].
  assert (Hc : call_entry bp s (lsn + 1) c = call_entry bp' s (lsn + 1) c) by (unfold call_entry, taken_entry; rewrite Hid; done). rewrite Hc.
  destruct (page_set_call cap s c) as [[r s1]|]; [|done]. by rewrite IH.
Qed.
End recovery.

(** ** Properties *)

(** [C15] Allocating pages. Open a file whose header represents a set of allocated pages, with at
    least one block of frames, on a device without faults. For every sequence of calls that
    take a page (and release it) and give pages back, in which only allocated pages are given
    back and pages are only taken while the bitmap has room: every call returns and answers
    as the set of pages does. Taking a page gives the first page of the file that is not
    allocated, or a new one behind the last; giving back page 0 is refused. Each call that
    changes the set appends one entry to the log, and in the end the header frame represents
    the set. *)
Theorem allocation_is_a_page_set {L : Type} `{WL : WalLaws L} (walk_order : gmap FrameId (option DWPage) → list (FrameId * option DWPage))
    (pool_num : Z) (w : World L) (name : string) (p : Page) (h : BPFileHeader) (s : PageSet) (cs : list (option PageNum)) (rs : list (RC * PageNum)) (s' : PageSet) :
  (∀ m, walk_order m ≡ₚ map_to_list m) → closed_pool pool_num w name p h s → header_bits h ≤ MAX_PAGE_NUM → p_lsn p ≤ wal_lsn (w_log w) →
  page_set_run (header_bits h) s cs = Some (rs, s') →
  ∃ b bp a w1 w2 lsn, open_file walk_order name w = Some ((SUCCESS, Some b), w1) ∧ run_alloc_calls walk_order b cs w1 = Some (rs, w2) ∧
    id bp = fh_buffer_pool_id h ∧ hdr_at (header_bits h) b bp a w2 lsn s' ∧
    wal_entries (w_log w2) = wal_entries (w_log w) ++ run_entries (header_bits h) bp s (wal_lsn (w_log w)) cs.
Proof.
  intros Hwo Hcp Hmax Hlsn Hrun. destruct (open_file_ok walk_order pool_num w name p h s Hcp) as (b & a & l & w1 & E1 & Hlg & Hr).
  set (bp := mkBP _ _ _ _) in Hr.
  destruct (alloc_calls_ok walk_order Hwo _ b bp a cs l w1 (p_lsn p) h s rs s' Hr) as (l2 & w2 & h2 & lsn2 & E2 & Hr2 & Hb2 & _ & He & _); [|done|done|by rewrite Hlg|].
  { pose proof (cp_num _ _ _ _ _ _ Hcp). unfold DEFAULT_ITEM_NUM_PER_POOL. lia. }
  exists b, bp, a, w1, w2, lsn2. split; [done|]. split; [done|]. split; [done|]. rewrite Hlg in He. split; [|done].
  by apply (hdr_at_rel (Z.to_nat (pool_num * DEFAULT_ITEM_NUM_PER_POOL)) b bp a l2 w2 lsn2 h2 s').
Qed.

(** [C14] Recovering the header of a pool. Run allocations and deallocations on an opened file,
    [cs1] and then [cs2]. Take any world in which the pool is open and its header frame
    holds the header as it was in memory between the two: what was on disk when the header
    was last written. Then replaying all entries that the run appended to the log succeeds,
    and leaves a header that represents the same set of pages as at the end of the run: the
    entries that the header has seen are skipped, and each of the others applies. *)
Theorem header_is_recovered {L : Type} `{WL : WalLaws L} (walk_order : gmap FrameId (option DWPage) → list (FrameId * option DWPage))
    (pool_num : Z) (w : World L) (name : string) (p : Page) (h : BPFileHeader) (s : PageSet)
    (cs1 cs2 : list (option PageNum)) (rs1 rs2 : list (RC * PageNum)) (s1 s2 : PageSet) (b : bpref) (w0 w1 w2 : World L) :
  (∀ m, walk_order m ≡ₚ map_to_list m) → closed_pool pool_num w name p h s → header_bits h ≤ MAX_PAGE_NUM → p_lsn p ≤ wal_lsn (w_log w) →
  page_set_run (header_bits h) s cs1 = Some (rs1, s1) → page_set_run (header_bits h) s1 cs2 = Some (rs2, s2) →
  open_file walk_order name w = Some ((SUCCESS, Some b), w0) → run_alloc_calls walk_order b cs1 w0 = Some (rs1, w1) → run_alloc_calls walk_order b cs2 w1 = Some (rs2, w2) →
  ∃ bp a f1 lsn2 es, hdr_at (header_bits h) b bp a w2 lsn2 s2 ∧ memory (w_mgr w1) !! a = Some f1 ∧ wal_entries (w_log w2) = wal_entries (w_log w) ++ es ∧
    ∀ (wr : World L) (br : bpref) (bpr : DiskBufferPool) (ar : faddr) (fr : Frame),
      id bpr = id bp → w_objs wr !! br = Some bpr → id_to_buffer_pools_ wr !! id bpr = Some br → hdr_frame_ bpr = Some ar →
      memory (w_mgr wr) !! ar = Some fr → view (page_ fr) = view (page_ f1) →
      ∃ wr' lsn', replay_entries es wr = Some (SUCCESS, wr') ∧ hdr_at (header_bits h) br bpr ar wr' lsn' s2.
Proof.
  intros Hwo Hcp Hmax Hlsn Hrun1 Hrun2 Eo Er1 Er2. destruct (open_file_ok walk_order pool_num w name p h s Hcp) as (b' & a & l & w0' & E0 & Hlg & Hr).
  rewrite Eo in E0. injection E0 as <- <-. set (bp := mkBP _ _ _ _) in Hr. set (N := Z.to_nat _) in Hr.
  assert (HN : (1 < N)%nat) by (pose proof (cp_num _ _ _ _ _ _ Hcp); unfold N, DEFAULT_ITEM_NUM_PER_POOL; lia).
  destruct (alloc_calls_ok walk_order Hwo N b bp a cs1 l w0 (p_lsn p) h s rs1 s1 Hr HN Hmax Hrun1) as (l1 & w1' & h1 & lsn1 & E1 & Hr1 & Hb1 & Hl1 & He1 & Hle1 & Hne1); [by rewrite Hlg|].
  rewrite Er1 in E1. injection E1 as <-. rewrite <-Hb1 in Hrun2.
  destruct (alloc_calls_ok walk_order Hwo N b bp a cs2 l1 w1 lsn1 h1 s1 rs2 s2 Hr1 HN ltac:(by rewrite Hb1) Hrun2 ltac:(lia)) as (l2 & w2' & h2 & lsn2 & E2 & Hr2 & Hb2 & Hl2 & He2 & _).
  rewrite Er2 in E2. injection E2 as <-. destruct (hdr_frame _ _ _ _ _ _ _ _ _ Hr1) as (f1 & _ & Hf1 & _ & _ & Hv1).
  rewrite He1, Hlg, Hb1, <-app_assoc in He2. rewrite Hb1 in Hrun2, Hb2. rewrite Hlg in Hl1, He1, Hne1. set (es1 := run_entries (header_bits h) bp s (wal_lsn (w_log w)) cs1) in *.
  exists bp, a, f1, lsn2. eexists. split; [by apply (hdr_at_rel N b bp a l2 w2 lsn2 h2 s2)|]. split; [done|]. split; [exact He2|].
  intros wr br bpr ar fr Hid Hbr Hir Har Hfr Hvr. assert (Hint : in_int32 (id bpr)) by (rewrite Hid; apply (header_ints h s (cp_header _ _ _ _ _ _ Hcp))).
  assert (Hat : hdr_at (header_bits h) br bpr ar wr lsn1 s1).
  { split; [done|]. split; [done|]. split; [done|]. exists fr, h1. split; [done|]. split; [congruence|]. split; [apply (al_header _ _ _ _ _ _ _ _ _ Hr1)|done]. }
  assert (Hsame : ∀ s lsn cs, run_entries (header_bits h) bp s lsn cs = run_entries (header_bits h) bpr s lsn cs) by (intros; by apply run_entries_id).
  unfold es1. rewrite !Hsame.
  destruct (replay_run (header_bits h) br bpr ar cs2 Hint Hmax wr lsn1 s1 (wal_lsn (w_log w1)) rs2 s2 Hat ltac:(apply Hle1) Hrun2) as (wr' & hl' & Err & Hat').
  exists wr', hl'. split; [|done]. rewrite (replay_app _ _ wr wr); [exact Err|].
  destruct (decide (es1 = [])) as [Hnil|Hnn]; [unfold es1 in Hnil; rewrite Hsame in Hnil; by rewrite Hnil|].
  apply (replay_seen (header_bits h) br bpr ar cs1 Hint wr lsn1 s s1 _ rs1 s1 h Hat (cp_header _ _ _ _ _ _ Hcp) eq_refl); [|done].
  rewrite <-Hsame. fold es1. rewrite (Hne1 Hnn). lia.
Qed.

(** a closed pool with room for 8 pages, the header is the only one *)
Definition new_header : BPFileHeader := mkBPFileHeader 1 1 1 [1].
Definition new_header_page : Page := mkPage 0 0 (enc_file_header new_header).
Definition new_set : PageSet := mkPageSet 1 {[ 0 ]}.
Definition new_pool : World (list LogRec) :=
  mkWorld (frame_mgr_init 1).2 (DiskDW (mkDW true 16 0 ∅)) (mkDev {[ "t"%string := [new_header_page] ]} None [] []) ∅ ∅ ∅ 1 [].

Lemma new_header_is : header_is new_header new_set.
Proof.
  constructor; try by vm_compute.
  - constructor; [done|by repeat constructor|done].
  - intros j Hj. cbn [new_header fh_bitmap new_set ps_pages]. rewrite elem_of_singleton. destruct (decide (j < 8)) as [Hlt|Hge].
    + assert (j = 0 ∨ j = 1 ∨ j = 2 ∨ j = 3 ∨ j = 4 ∨ j = 5 ∨ j = 6 ∨ j = 7) as Hc by lia. by destruct Hc as [->|[->|[->|[->|[->|[->|[->| ->]]]]]]].
    + split; [|lia]. unfold bit, get_bit. rewrite (proj2 (Z.ltb_ge _ _)) by lia. rewrite quot8 by lia.
      rewrite (proj2 (rd_None [1] (j / 8))); [done|]. unfold len. cbn. intros [_ Hlt]. assert (1 ≤ j / 8) by (apply Z.div_le_lower_bound; lia). lia.
  - intros j Hj. cbn [new_set ps_pages] in Hj. by apply elem_of_singleton in Hj as ->.
Qed.
Lemma new_pool_closed : closed_pool 1 new_pool "t" new_header_page new_header new_set.
Proof.
  constructor; [done|by vm_compute|by exists 16|done| |done|apply new_header_is|done|done|done].
  exists []. done.
Qed.

Lemma allocation_is_a_page_set_witness :
  ∃ b bp a w1 w2 lsn, open_file map_to_list "t" new_pool = Some ((SUCCESS, Some b), w1) ∧
    run_alloc_calls map_to_list b [None; None; Some 1; Some 0; None] w1 = Some ([(SUCCESS, 1); (SUCCESS, 2); (SUCCESS, 1); (INTERNAL, 0); (SUCCESS, 1)], w2) ∧
    id bp = fh_buffer_pool_id new_header ∧ hdr_at (header_bits new_header) b bp a w2 lsn (mkPageSet 3 {[ 0; 1; 2 ]}) ∧
    wal_entries (w_log w2) = wal_entries (w_log new_pool) ++ run_entries (header_bits new_header) bp new_set (wal_lsn (w_log new_pool)) [None; None; Some 1; Some 0; None].
Proof.
  apply (allocation_is_a_page_set map_to_list 1 new_pool "t" new_header_page new_header new_set).
  - done.
  - apply new_pool_closed.
  - by vm_compute.
  - done.
  - by vm_compute.
Defined.

(** the world after opening, and the runs over it *)
Definition opened_pool : World (list LogRec) := from_option snd new_pool (open_file map_to_list "t" new_pool).
Definition after_calls (cs : list (option PageNum)) (w : World (list LogRec)) : World (list LogRec) :=
  from_option snd w (run_alloc_calls map_to_list 1%positive cs w).

Lemma result_with {A B : Type} (o : option (A * B)) (r : A) (d : B) : fst <$> o = Some r → o = Some (r, from_option snd d o).
Proof. destruct o as [[r' x]|]; [|done]. by intros [= ->]. Qed.

Lemma header_is_recovered_witness :
  let w1 := after_calls [None] opened_pool in
  let w2 := after_calls [None; Some 1] w1 in
  ∃ bp a f1 lsn2 es, hdr_at (header_bits new_header) 1%positive bp a w2 lsn2 (mkPageSet 3 {[ 0; 2 ]}) ∧ memory (w_mgr w1) !! a = Some f1 ∧
    wal_entries (w_log w2) = wal_entries (w_log new_pool) ++ es ∧
    ∀ (wr : World (list LogRec)) (br : bpref) (bpr : DiskBufferPool) (ar : faddr) (fr : Frame),
      id bpr = id bp → w_objs wr !! br = Some bpr → id_to_buffer_pools_ wr !! id bpr = Some br → hdr_frame_ bpr = Some ar →
      memory (w_mgr wr) !! ar = Some fr → view (page_ fr) = view (page_ f1) →
      ∃ wr' lsn', replay_entries es wr = Some (SUCCESS, wr') ∧ hdr_at (header_bits new_header) br bpr ar wr' lsn' (mkPageSet 3 {[ 0; 2 ]}).
Proof.
  apply (header_is_recovered map_to_list 1 new_pool "t" new_header_page new_header new_set [None] [None; Some 1] [(SUCCESS, 1)] [(SUCCESS, 2); (SUCCESS, 1)]
    (mkPageSet 2 {[ 0; 1 ]}) (mkPageSet 3 {[ 0; 2 ]}) 1%positive opened_pool (after_calls [None] opened_pool) (after_calls [None; Some 1] (after_calls [None] opened_pool))).
  - done.
  - apply new_pool_closed.
  - by vm_compute.
  - done.
  - by vm_compute.
  - by vm_compute.
  - apply result_with. by vm_compute.
  - apply result_with. by vm_compute.
  - apply result_with. by vm_compute.
Defined.
