(* ===== verification/KeyCompare.v ===== *)
(** * KeyCompare: comparing the keys of an index

    common/type (the [compare] of each attribute type), common/value.cpp ([set_data]),
    deps/common/lang/comparator.cpp, and the comparators at the top of
    storage/index/bplus_tree.h. A key is the bytes of the attribute followed by the bytes of
    the record id. Integers and strings are ordered; floating point numbers are not, since
    numbers closer than [EPSILON] compare as equal. *)
From Stdlib Require Import SpecFloat.
From S2P Require Import Prelude Types Encoding.

Inductive AttrType : Set := UNDEFINED | CHARS | INTS | FLOATS | BOOLEANS.
#[export] Instance AttrType_eq_dec : EqDecision AttrType.
Proof. solve_decision. Defined.
Definition attr_type_id (t : AttrType) : Z :=
  match t with UNDEFINED => 0 | CHARS => 1 | INTS => 2 | FLOATS => 3 | BOOLEANS => 4 end.
Definition attr_type_of (z : Z) : option AttrType :=
  match z with 0 => Some UNDEFINED | 1 => Some CHARS | 2 => Some INTS | 3 => Some FLOATS | 4 => Some BOOLEANS | _ => None end.

(** ** deps/common/lang/comparator.cpp *)

Definition compare_int (v1 v2 : Z) : Z := if v2 <? v1 then 1 else if v1 <? v2 then -1 else 0.

(** the bits of a [float], and the [double] constant 1E-6; the difference is rounded to [float],
    which is promoted to [double] for the comparison with the constant *)
Definition float_of_bits (bits : Z) : spec_float :=
  let s := Z.testbit bits 31 in
  let e := Z.land (Z.shiftr bits 23) 255 in
  let m := Z.land bits (2 ^ 23 - 1) in
  if e =? 255 then (if m =? 0 then S754_infinity s else S754_nan)
  else
    match (if e =? 0 then m else m + 2 ^ 23) with
    | Zpos p => S754_finite s p (Z.max e 1 - 150)
    | _ => S754_zero s
    end.
Definition EPSILON : spec_float := S754_finite false 4722366482869645 (-72).
Definition to_double (f : spec_float) : spec_float :=
  match f with S754_finite s m e => binary_normalize 53 1024 (cond_Zopp s (Zpos m)) e s | _ => f end.
Definition compare_float (v1 v2 : spec_float) : Z :=
  let cmp := to_double (SFsub 24 128 v1 v2) in
  if SFltb EPSILON cmp then 1 else if SFltb cmp (SFopp EPSILON) then -1 else 0.

(** [strnlen], [strncmp]: over the bytes of a C string *)
Fixpoint strnlen (n : nat) (s : list Z) : nat :=
  match n, s with S n, c :: s => if c =? 0 then O else S (strnlen n s) | _, _ => O end.
Fixpoint strncmp (n : nat) (s1 s2 : list Z) : Z :=
  match n, s1, s2 with
  | S n, c1 :: s1, c2 :: s2 => if c1 =? c2 then (if c1 =? 0 then 0 else strncmp n s1 s2) else c1 - c2
  | _, _, _ => 0
  end.
Definition compare_string (s1 : list Z) (arg1_max_length : Z) (s2 : list Z) (arg2_max_length : Z) : Z :=
  let maxlen := Z.min arg1_max_length arg2_max_length in
  let result := strncmp (Z.to_nat maxlen) s1 s2 in
  if negb (result =? 0) then (if result <? 0 then -1 else 1)
  else if maxlen <? arg1_max_length then 1
  else if maxlen <? arg2_max_length then -1
  else 0.

(** ** Values of an attribute *)

Inductive Value :=
| VChars (pointer_value : option (list Z)) (length_ : Z)   (** [None]: a pointer to nothing *)
| VInt (int_value : Z)
| VFloat (float_value : spec_float)
| VBool (bool_value : bool)
| VUndefined.

(** the copy ends at the first zero byte *)
Definition set_string (s : list Z) (len0 : Z) : Value :=
  let n := if 0 <? len0 then strnlen (Z.to_nat len0) s else strnlen (length s) s in
  VChars (Some (take n s)) (Z.of_nat n).
(** [Value::set_data] on a value of type [t] *)
Definition set_data (t : AttrType) (data : list Z) (length : Z) : Value :=
  match t with
  | CHARS => set_string data length
  | INTS => VInt (dec32 (take 4 data))
  | FLOATS => VFloat (float_of_bits (le_value (take 4 data)))
  | BOOLEANS => VBool (negb (dec32 (take 4 data) =? 0))
  | UNDEFINED => VUndefined
  end.

Definition INT32_MAX : Z := 2 ^ 31 - 1.
Definition int_compare (left right : Value) : Z :=
  match left, right with VInt l, VInt r => compare_int l r | _, _ => INT32_MAX end.
Definition char_compare (left right : Value) : Z :=
  match left, right with VChars l n, VChars r m => compare_string (default [] l) n (default [] r) m | _, _ => INT32_MAX end.
Definition float_compare (left right : Value) : Z :=
  match left, right with VFloat l, VFloat r => compare_float l r | _, _ => INT32_MAX end.
(** [DataType::compare]: not implemented *)
Definition data_type_compare (left right : Value) : Z := INT32_MAX.
(** [DataType::type_instance(t)->compare] *)
Definition type_compare (t : AttrType) : Value → Value → Z :=
  match t with INTS => int_compare | CHARS => char_compare | FLOATS => float_compare | _ => data_type_compare end.

(** [AttrComparator], [KeyComparator] *)
Definition attr_comparator (t : AttrType) (attr_length : Z) (v1 v2 : list Z) : Z :=
  type_compare t (set_data t v1 attr_length) (set_data t v2 attr_length).
Definition rid_at (bs : list Z) : RID := mkRID (dec32 (take 4 bs)) (dec32 (take 4 (drop 4 bs))).
Definition rid_bytes (r : RID) : list Z := enc32 (page_num r) ++ enc32 (slot_num r).
Definition key_comparator (t : AttrType) (attr_length : Z) (v1 v2 : list Z) : Z :=
  let result := attr_comparator t attr_length v1 v2 in
  if negb (result =? 0) then result
  else rid_compare (rid_at (drop (Z.to_nat attr_length) v1)) (rid_at (drop (Z.to_nat attr_length) v2)).

(** ** What the trees need of a comparison *)

(** [valid] keys are totally ordered; keys that compare as 0 need not be the same bytes *)
Class KeyOrder (valid : list Z → Prop) (cmp : list Z → list Z → Z) := {
  cmp_anti a b : valid a → valid b → Z.sgn (cmp b a) = - Z.sgn (cmp a b);
  cmp_trans a b c : valid a → valid b → valid c → cmp a b ≤ 0 → cmp b c ≤ 0 → cmp a c ≤ 0;
}.

Section order.
Context {valid : list Z → Prop} {cmp : list Z → list Z → Z} `{KO : !KeyOrder valid cmp}.
Implicit Types (a b c : list Z).

Lemma cmp_refl a : valid a → cmp a a = 0.
Proof. intros Ha. pose proof (cmp_anti a a Ha Ha). lia. Qed.
Lemma cmp_flip_lt a b : valid a → valid b → (cmp a b < 0 ↔ 0 < cmp b a).
Proof. intros Ha Hb. pose proof (cmp_anti a b Ha Hb). lia. Qed.
Lemma cmp_flip_le a b : valid a → valid b → (cmp a b ≤ 0 ↔ 0 ≤ cmp b a).
Proof. intros Ha Hb. pose proof (cmp_anti a b Ha Hb). lia. Qed.
Lemma cmp_flip_eq a b : valid a → valid b → (cmp a b = 0 ↔ cmp b a = 0).
Proof. intros Ha Hb. pose proof (cmp_anti a b Ha Hb). lia. Qed.
Lemma cmp_lt_le_trans a b c : valid a → valid b → valid c → cmp a b < 0 → cmp b c ≤ 0 → cmp a c < 0.
Proof.
  intros Ha Hb Hc H1 H2. destruct (decide (cmp a c < 0)) as [|Hge]; [done|]. exfalso.
  pose proof (cmp_anti a c Ha Hc). pose proof (cmp_anti a b Ha Hb). pose proof (cmp_trans b c a Hb Hc Ha H2). lia.
Qed.
Lemma cmp_le_lt_trans a b c : valid a → valid b → valid c → cmp a b ≤ 0 → cmp b c < 0 → cmp a c < 0.
Proof.
  intros Ha Hb Hc H1 H2. destruct (decide (cmp a c < 0)) as [|Hge]; [done|]. exfalso.
  pose proof (cmp_anti a c Ha Hc). pose proof (cmp_anti b c Hb Hc). pose proof (cmp_trans c a b Hc Ha Hb). lia.
Qed.
Lemma cmp_lt_trans a b c : valid a → valid b → valid c → cmp a b < 0 → cmp b c < 0 → cmp a c < 0.
Proof. intros Ha Hb Hc H1 H2. apply (cmp_lt_le_trans a b c); [done..|lia]. Qed.
End order.

(** ** Lexicographic order *)

Fixpoint lex (l1 l2 : list Z) : Z :=
  match l1, l2 with
  | [], [] => 0
  | [], _ :: _ => -1
  | _ :: _, [] => 1
  | a :: l1, b :: l2 => if a =? b then lex l1 l2 else Z.sgn (a - b)
  end.
Lemma lex_anti l1 l2 : lex l2 l1 = - lex l1 l2.
Proof.
  revert l2. induction l1 as [|a l1 IH]; intros [|b l2]; [done..|]. cbn [lex]. rewrite (Z.eqb_sym b a). destruct (a =? b); [done|]. lia.
Qed.
Lemma lex_trans l1 l2 l3 : lex l1 l2 ≤ 0 → lex l2 l3 ≤ 0 → lex l1 l3 ≤ 0.
Proof.
  revert l2 l3. induction l1 as [|a l1 IH]; intros [|b l2] [|c l3]; cbn [lex]; try lia.
  destruct (a =? b) eqn:E1, (b =? c) eqn:E2, (a =? c) eqn:E3; zbool; try lia. intros. by apply (IH l2).
Qed.
Lemma lex_range l1 l2 : -1 ≤ lex l1 l2 ≤ 1.
Proof. revert l2. induction l1 as [|a l1 IH]; intros [|b l2]; cbn [lex]; try lia. destruct (a =? b); [apply IH|lia]. Qed.

(** a comparison that is the lexicographic order of images of the keys *)
Lemma lex_order (valid : list Z → Prop) (cmp : list Z → list Z → Z) (image : list Z → list Z) :
  (∀ a b, valid a → valid b → Z.sgn (cmp a b) = lex (image a) (image b)) → KeyOrder valid cmp.
Proof.
  intros Hc. constructor.
  - intros a b Ha Hb. rewrite (Hc a b Ha Hb), (Hc b a Hb Ha). apply lex_anti.
  - intros a b c Ha Hb Hcv H1 H2. pose proof (lex_trans (image a) (image b) (image c)) as Ht.
    rewrite <-!Hc in Ht by done. lia.
Qed.

(** ** The orders of the attribute types *)

Definition key_rid (attr_length : Z) (k : list Z) : RID := rid_at (drop (Z.to_nat attr_length) k).
(** a key of the tree: the attribute and a record id that the engine hands out *)
Definition valid_key (attr_length : Z) (k : list Z) : Prop :=
  len k = attr_length + 8 ∧ Forall (λ b, 0 ≤ b < 256) k ∧ rid_ok (key_rid attr_length k).

Lemma rid_at_bytes r : rid_ok r → rid_at (rid_bytes r) = r.
Proof.
  destruct r as [p sl]. intros [Hp Hs]. cbn [page_num slot_num] in *. assert (L : ∀ z, length (enc32 z) = 4%nat) by (intros z; pose proof (len_enc32 z) as E; unfold len in E; lia).
  unfold rid_at, rid_bytes. cbn [page_num slot_num]. rewrite take_app_length', drop_app_length', (take_ge (enc32 sl)) by (rewrite L; done). by rewrite !dec32_enc32 by (unfold in_int32; lia).
Qed.
Lemma rid_compare_lex r1 r2 : rid_ok r1 → rid_ok r2 → Z.sgn (rid_compare r1 r2) = lex [page_num r1; slot_num r1] [page_num r2; slot_num r2].
Proof.
  destruct r1 as [p1 s1], r2 as [p2 s2]. intros [H1 H2] [H3 H4]. unfold rid_compare. cbn [page_num slot_num] in *.
  rewrite !wrap32_id by (unfold in_int32; lia). cbn [lex].
  destruct (p1 =? p2) eqn:E1; zbool.
  - subst p2. rewrite Z.sub_diag. cbn [negb Z.eqb]. destruct (s1 =? s2) eqn:E2; zbool; [subst; by rewrite Z.sub_diag|done].
  - rewrite (proj2 (Z.eqb_neq _ 0)) by lia. done.
Qed.

#[export] Instance int_key_order : KeyOrder (valid_key 4) (key_comparator INTS 4).
Proof.
  apply (lex_order _ _ (λ k, [dec32 (take 4 k); page_num (key_rid 4 k); slot_num (key_rid 4 k)])).
  intros a b (_ & _ & Ha) (_ & _ & Hb). unfold key_comparator, attr_comparator. cbn [type_compare set_data int_compare].
  unfold compare_int. fold (key_rid 4 a). fold (key_rid 4 b).
  set (x := dec32 (take 4 a)). set (y := dec32 (take 4 b)). cbn [lex].
  destruct (x =? y) eqn:E; zbool.
  - rewrite E, Z.ltb_irrefl. cbn [negb Z.eqb]. by apply (rid_compare_lex _ _ Ha Hb).
  - destruct (y <? x) eqn:E1; zbool; [cbn; lia|]. destruct (x <? y) eqn:E2; zbool; [cbn; lia|lia].
Qed.

(** *** Strings *)

Lemma strncmp_lex n s1 s2 :
  Forall (λ b, b ≠ 0) s1 → Forall (λ b, b ≠ 0) s2 → n = Nat.min (length s1) (length s2) →
  Z.sgn (strncmp n s1 s2) = lex (take n s1) (take n s2).
Proof.
  revert s1 s2. induction n as [|n IH]; intros s1 s2 H1 H2 Hn; [done|].
  destruct s1 as [|a s1], s2 as [|b s2]; [done..|]. inversion_clear H1. inversion_clear H2. cbn [strncmp take lex length] in *.
  destruct (a =? b) eqn:E; [|done]. rewrite (proj2 (Z.eqb_neq a 0)) by done. apply IH; [done|done|lia].
Qed.
Lemma lex_take s1 s2 : let n := Nat.min (length s1) (length s2) in
  lex s1 s2 = (if lex (take n s1) (take n s2) =? 0 then Z.sgn (len s1 - len s2) else lex (take n s1) (take n s2)).
Proof.
  revert s2. induction s1 as [|a s1 IH]; intros [|b s2]; cbn zeta.
  - done.
  - unfold len. cbn [length Nat.min take lex Z.eqb]. lia.
  - unfold len. cbn [length Nat.min take lex Z.eqb]. lia.
  - cbn [length Nat.min take lex]. destruct (a =? b) eqn:E.
    + rewrite (IH s2). unfold len. cbn [length]. destruct (lex _ _ =? 0); [f_equal; lia|done].
    + rewrite (proj2 (Z.eqb_neq _ 0)); [done|]. zbool. lia.
Qed.
Lemma compare_string_lex s1 s2 :
  Forall (λ b, b ≠ 0) s1 → Forall (λ b, b ≠ 0) s2 → compare_string s1 (len s1) s2 (len s2) = lex s1 s2.
Proof.
  intros H1 H2. unfold compare_string. set (n := Nat.min (length s1) (length s2)).
  replace (Z.to_nat (Z.min (len s1) (len s2))) with n by (unfold n, len; lia).
  pose proof (strncmp_lex n s1 s2 H1 H2 eq_refl) as Hs. pose proof (lex_take s1 s2) as Ht. cbn zeta in Ht. fold n in Ht. rewrite Ht, <-Hs.
  destruct (strncmp n s1 s2 =? 0) eqn:E; zbool; cbn [negb].
  - rewrite E. cbn [Z.sgn Z.eqb]. unfold len in *.
    destruct (Z.min _ _ <? Z.of_nat (length s1)) eqn:E1; zbool; [rewrite Z.sgn_pos by lia; done|].
    destruct (Z.min _ _ <? Z.of_nat (length s2)) eqn:E2; zbool; [rewrite Z.sgn_neg by lia; done|].
    replace (Z.of_nat (length s1) - Z.of_nat (length s2)) with 0 by lia. done.
  - rewrite (proj2 (Z.eqb_neq (Z.sgn _) 0)) by lia. destruct (strncmp n s1 s2 <? 0) eqn:E1; zbool; lia.
Qed.

Definition c_string (n : nat) (k : list Z) : list Z := take (strnlen n k) k.
Lemma c_string_ok n k : Forall (λ b, 0 ≤ b < 256) k → Forall (λ b, 0 < b) (c_string n k).
Proof.
  unfold c_string. intros Hk. revert k Hk. induction n as [|n IH]; intros k Hk; [done|].
  destruct k as [|c k]; [done|]. inversion_clear Hk. cbn [strnlen]. destruct (c =? 0) eqn:E; [done|].
  zbool. cbn [take]. constructor; [lia|by apply IH].
Qed.
Lemma len_c_string n k : len (c_string n k) = Z.of_nat (strnlen n k).
Proof.
  unfold c_string, len. rewrite length_take. f_equal. cut (strnlen n k ≤ length k)%nat; [lia|].
  revert k. induction n as [|n IH]; intros [|c k]; cbn [strnlen length]; try lia. destruct (c =? 0); [lia|]. specialize (IH k). lia.
Qed.
(** a terminator below every byte makes the attribute and the record id one sequence *)
Lemma lex_terminated s1 s2 r1 r2 :
  Forall (λ b, 0 < b) s1 → Forall (λ b, 0 < b) s2 →
  lex (s1 ++ -1 :: r1) (s2 ++ -1 :: r2) = (if lex s1 s2 =? 0 then lex r1 r2 else lex s1 s2).
Proof.
  intros H1. revert s2. induction H1 as [|a s1 Ha _ IH]; intros s2 H2; destruct H2 as [|b s2 Hb H2]; cbn [app lex].
  - done.
  - rewrite (proj2 (Z.eqb_neq _ _)) by lia. cbn. lia.
  - rewrite (proj2 (Z.eqb_neq _ _)) by lia. cbn. lia.
  - destruct (a =? b) eqn:E; [by apply IH|]. rewrite (proj2 (Z.eqb_neq (Z.sgn _) 0)); [done|]. zbool. lia.
Qed.

Lemma chars_key_order n : 0 < n → KeyOrder (valid_key n) (key_comparator CHARS n).
Proof.
  intros Hn. apply (lex_order _ _ (λ k, c_string (Z.to_nat n) k ++ [-1; page_num (key_rid n k); slot_num (key_rid n k)])).
  intros a b (_ & Ba & Ha) (_ & Bb & Hb). unfold key_comparator, attr_comparator. cbn [type_compare set_data].
  unfold set_string. rewrite (proj2 (Z.ltb_lt 0 n) Hn). cbn [char_compare]. fold (c_string (Z.to_nat n) a) (c_string (Z.to_nat n) b).
  fold (key_rid n a) (key_rid n b). pose proof (c_string_ok (Z.to_nat n) a Ba) as Ca. pose proof (c_string_ok (Z.to_nat n) b Bb) as Cb.
  rewrite <-!len_c_string, compare_string_lex by (eapply Forall_impl; [done|cbn; lia]).
  rewrite lex_terminated by done. pose proof (lex_range (c_string (Z.to_nat n) a) (c_string (Z.to_nat n) b)).
  destruct (lex _ _ =? 0) eqn:E; cbn [negb]; [by apply (rid_compare_lex _ _ Ha Hb)|lia].
Qed.
