(* ===== verification/LowerBound.v ===== *)
(** * LowerBound: binary search (deps/common/lang/lower_bound.h)

    The search walks an iterator over the items of a node; [cmp i] is the comparison of item
    [i] with the value looked for, undefined where the iterator leaves the page. *)
From stdpp Require Import sorting.
From S2P Require Import Prelude.

Fixpoint lower_bound_loop (n : nat) (cmp : Z → option Z) (first last_count : Z) : option (Z * bool) :=
  if last_count <=? 0 then Some (first, false)
  else
    match n with
    | O => None
    | S n =>
        let step := last_count / 2 in
        let iter := first + step in
        result ← cmp iter;
        if result =? 0 then Some (iter, true)
        else if result <? 0 then lower_bound_loop n cmp (iter + 1) (last_count - (step + 1))
        else lower_bound_loop n cmp first step
    end.
(** the iterator and [*_found]; every round at least halves the [count] items that are left *)
Definition lower_bound (cmp : Z → option Z) (count : Z) : option (Z * bool) :=
  lower_bound_loop (Z.to_nat count) cmp 0 count.

(** the reference: walk the comparisons from the left *)
Fixpoint linear_bound (cs : list Z) (i : Z) : Z * bool :=
  match cs with
  | [] => (i, false)
  | c :: cs => if c <? 0 then linear_bound cs (i + 1) else (i, c =? 0)
  end.

(** the comparisons of a sorted sequence without duplicates: first negative ones, at most
    one zero, then positive ones *)
Definition sorted_signs (cs : list Z) : Prop := StronglySorted (λ c d, Z.sgn c ≤ Z.sgn d ∧ (c = 0 → 0 < d)) cs.

Lemma linear_bound_spec cs i r b : linear_bound cs i = (r, b) →
  i ≤ r ≤ i + len cs ∧ Forall (λ c, c < 0) (take (Z.to_nat (r - i)) cs) ∧
  (r = i + len cs → b = false) ∧ (∀ c, rd cs (r - i) = Some c → 0 ≤ c ∧ b = bool_decide (c = 0)).
Proof.
  revert i. induction cs as [|c cs IH]; intros i; cbn [linear_bound].
  - intros [= <- <-]. rewrite Z.sub_diag. unfold len. cbn [length]. split; [lia|]. split; [done|]. split; [done|]. done.
  - destruct (c <? 0) eqn:E; zbool.
    + intros Hb. destruct (IH _ Hb) as (H1 & H2 & H3 & H4). unfold len in *. cbn [length]. split; [lia|].
      replace (Z.to_nat (r - i)) with (S (Z.to_nat (r - (i + 1)))) by lia. cbn [take]. split; [by constructor|]. split; [intros; apply H3; lia|].
      intros d. unfold rd. rewrite decide_True by lia. replace (Z.to_nat (r - i)) with (S (Z.to_nat (r - (i + 1)))) by lia. cbn [lookup list_lookup].
      intros Hd. apply H4. unfold rd. by rewrite decide_True by lia.
    + intros [= <- <-]. unfold len. cbn [length]. split; [lia|]. rewrite Z.sub_diag. split; [done|]. split; [lia|].
      intros d [= <-]. split; [lia|]. destruct (c =? 0) eqn:E0; zbool; [by rewrite bool_decide_true|by rewrite bool_decide_false].
Qed.
Lemma linear_bound_app cs1 cs2 i : Forall (λ c, c < 0) cs1 → linear_bound (cs1 ++ cs2) i = linear_bound cs2 (i + len cs1).
Proof.
  revert i. induction cs1 as [|c cs1 IH]; intros i H; [f_equal; unfold len; cbn; lia|]. inversion_clear H. cbn [app linear_bound].
  rewrite (proj2 (Z.ltb_lt c 0)) by lia. rewrite IH by done. f_equal. unfold len. cbn [length]. lia.
Qed.

Section search.
Context (cmp : Z → option Z) (cs : list Z).
Hypothesis Hcmp : ∀ i, 0 ≤ i < len cs → cmp i = rd cs i.
Hypothesis Hsorted : sorted_signs cs.

Lemma sorted_before i c : rd cs i = Some c → c ≤ 0 → Forall (λ d, d < 0) (take (Z.to_nat i) cs).
Proof.
  intros Hi Hc. pose proof (rd_Some_range _ _ _ Hi). unfold rd in Hi. rewrite decide_True in Hi by lia.
  revert Hsorted. unfold sorted_signs. rewrite <-(take_drop_middle _ _ _ Hi) at 1. intros Hs.
  apply Forall_forall. intros d Hd. eapply StronglySorted_app_1_elem_of in Hs; [|exact Hd|by left].
  destruct Hs as [H1 H2]. destruct (decide (d = 0)); [subst; lia|]. lia.
Qed.
Lemma sorted_after i c d j : rd cs i = Some c → 0 < c → i ≤ j → rd cs j = Some d → 0 < d.
Proof.
  intros Hi Hc Hij Hj. destruct (decide (i = j)) as [->|]; [congruence|]. pose proof (rd_Some_range _ _ _ Hi). unfold rd in Hi, Hj.
  rewrite decide_True in Hi by lia. rewrite decide_True in Hj by lia. revert Hsorted. unfold sorted_signs.
  rewrite <-(take_drop (Z.to_nat j) cs) at 1. intros Hs.
  eapply (StronglySorted_app_1_elem_of _ _ _ c d) in Hs.
  - cbn in Hs. destruct Hs as [H1 _]. lia.
  - apply list_elem_of_lookup. exists (Z.to_nat i). rewrite lookup_take_lt by lia. done.
  - apply list_elem_of_lookup. exists 0%nat. rewrite lookup_drop. by rewrite Nat.add_0_r.
Qed.

(** the loop looks between [first] and [first + last_count] *)
Lemma lower_bound_loop_ok n first count :
  0 ≤ first → 0 ≤ count → first + count ≤ len cs → (Z.to_nat count ≤ n)%nat →
  Forall (λ c, c < 0) (take (Z.to_nat first) cs) → (∀ j d, first + count ≤ j → rd cs j = Some d → 0 < d) →
  lower_bound_loop n cmp first count = Some (linear_bound cs 0).
Proof.
  revert first count. induction n as [|n IH]; intros first count Hf Hc Hfc Hn Hlow Hhigh; cbn [lower_bound_loop].
  all: destruct (count <=? 0) eqn:E0; zbool; try lia.
  1,2: assert (count = 0) as -> by lia; f_equal; rewrite <-(take_drop (Z.to_nat first) cs), linear_bound_app by done;
    replace (0 + len (take (Z.to_nat first) cs)) with first by (unfold len in *; rewrite length_take; lia);
    destruct (drop (Z.to_nat first) cs) as [|d l] eqn:Ed; [done|]; cbn [linear_bound];
    assert (Hd : rd cs first = Some d) by (unfold rd; rewrite decide_True by lia; rewrite <-(Nat.add_0_r (Z.to_nat first)), <-lookup_drop, Ed; done);
    pose proof (Hhigh first d ltac:(lia) Hd); rewrite (proj2 (Z.ltb_ge d 0)), (proj2 (Z.eqb_neq d 0)) by lia; done.
  set (step := count / 2). assert (Hstep : 0 ≤ step < count) by (unfold step; split; [apply Z.div_pos; lia|apply Z.div_lt_upper_bound; lia]).
  destruct (rd_is_Some cs (first + step) ltac:(lia)) as [c Hi]. rewrite Hcmp by lia. rewrite Hi. cbn [mbind option_bind].
  pose proof (rd_Some_range _ _ _ Hi). destruct (c =? 0) eqn:Ec; [|destruct (c <? 0) eqn:Ec'].
  - zbool. subst c. f_equal. pose proof (sorted_before _ _ Hi ltac:(lia)) as Hb. pose proof Hi as Hi'. unfold rd in Hi'. rewrite decide_True in Hi' by lia.
    rewrite <-(take_drop_middle _ _ _ Hi'), linear_bound_app by done. cbn [linear_bound]. change (0 <? 0) with false. cbn [Z.eqb]. f_equal. unfold len in *. rewrite length_take. lia.
  - zbool. apply IH; try lia.
    + pose proof (sorted_before _ _ Hi ltac:(lia)) as Hb. replace (Z.to_nat (first + step + 1)) with (S (Z.to_nat (first + step))) by lia.
      unfold rd in Hi. rewrite decide_True in Hi by lia. rewrite (take_S_r _ _ _ Hi). apply Forall_app. by split; [|constructor; [lia|constructor]].
    + intros j d Hj. apply Hhigh. lia.
  - zbool. apply IH; try lia; [done|]. intros j d Hj Hd. apply (sorted_after (first + step) c d j Hi ltac:(lia) ltac:(lia) Hd).
Qed.
Lemma lower_bound_linear : lower_bound cmp (len cs) = Some (linear_bound cs 0).
Proof.
  unfold lower_bound. apply lower_bound_loop_ok; [lia|unfold len; lia|lia|lia|constructor|]. intros j d Hj Hd. apply rd_Some_range in Hd. lia.
Qed.
End search.
