(* ===== verification/LatchMemo.v ===== *)
(** * LatchMemo: the pages and latches an operation holds (storage/index/latch_memo.cpp, frame.cpp)

    Trees work on pages through a [LatchMemo], which remembers what was pinned and latched, and
    gives it back in the opposite order. [TreePool] is the buffer pool as a tree sees it. A
    frame that a tree has a pointer to holds the same page as long as it is pinned, so the
    pointer is represented by the number of the page. Latches are those that the one thread
    of the model holds (a build with CONCURRENCY): waiting for an own latch never ends. *)
From S2P Require Import Prelude Types.

Class TreePool (P : Type) := {
  tp_get : PageNum → M P RC;                     (** [DiskBufferPool::get_this_page]: pins the frame *)
  tp_alloc : M P (RC * PageNum);                 (** [DiskBufferPool::allocate_page]: pins the frame *)
  tp_unpin : PageNum → M P unit;
  tp_dispose : PageNum → M P RC;
  tp_pins : PageNum → P → Z;                     (** [Frame::pin_count] *)
  tp_data : PageNum → P → option (list Z);       (** [Frame::data] of a page in memory *)
  tp_store : PageNum → list Z → M P unit;        (** writing through [Frame::data] *)
  tp_lsn : PageNum → P → option LSN;
  tp_set_lsn : PageNum → LSN → M P unit;
  tp_mark_dirty : PageNum → M P unit;
  tp_flush_all : M P RC;
  tp_close : M P RC;                             (** [DiskBufferPool::close_file] *)
  tp_id : P → Z;
  tp_append : list Z → M P (RC * LSN);           (** the log of the tree, module [BPLUS_TREE] *)
}.

(** ** What the pools promise *)

Record TPage := mkTPage { tpg_lsn : LSN; tpg_data : list Z }.
(** the pages of the file, the pins, and how many pages can still be allocated *)
Record PoolView := mkView { v_pages : gmap PageNum TPage; v_pins : gmap PageNum positive; v_free : nat }.
Definition pin_of (m : gmap PageNum positive) (pn : PageNum) : nat := default 0%nat (Pos.to_nat <$> m !! pn).
Definition pin_add (pn : PageNum) (m : gmap PageNum positive) : gmap PageNum positive :=
  <[pn := match m !! pn with Some n => Pos.succ n | None => 1%positive end]> m.
Definition pin_sub (pn : PageNum) (m : gmap PageNum positive) : gmap PageNum positive :=
  match m !! pn with
  | Some 1%positive => delete pn m
  | Some n => <[pn := Pos.pred n]> m
  | None => m
  end.
Definition v_with_pins (f : gmap PageNum positive → gmap PageNum positive) (v : PoolView) : PoolView := mkView (v_pages v) (f (v_pins v)) (v_free v).
Definition v_with_pages (f : gmap PageNum TPage → gmap PageNum TPage) (v : PoolView) : PoolView := mkView (f (v_pages v)) (v_pins v) (v_free v).

(** A pool with a frame for every page of the file: pages that were fetched stay in memory.
    [v_free] bounds the pages by the frames and by the bitmap of the file. *)
Class TreePoolLaws (P : Type) `{TreePool P} := {
  tp_ok : P → Prop;
  tp_view : P → PoolView;
  tp_memory : P → PageNum → Prop;
  tp_page_size : Z;
  tp_step (p p' : P) (v : PoolView) : Prop := tp_ok p' ∧ tp_id p' = tp_id p ∧ tp_view p' = v ∧ ∀ q, tp_memory p q → tp_memory p' q;
  tp_size_ok p pn g : tp_ok p → v_pages (tp_view p) !! pn = Some g → len (tpg_data g) = tp_page_size ∧ 0 < pn < 2 ^ 31;
  tp_pinned_ok p pn : tp_ok p → is_Some (v_pins (tp_view p) !! pn) → is_Some (v_pages (tp_view p) !! pn) ∧ tp_memory p pn;
  tp_pins_ok p pn : tp_ok p → tp_memory p pn → tp_pins pn p = Z.of_nat (pin_of (v_pins (tp_view p)) pn);
  tp_data_ok p pn g : tp_ok p → tp_memory p pn → v_pages (tp_view p) !! pn = Some g → tp_data pn p = Some (tpg_data g);
  tp_lsn_ok p pn g : tp_ok p → tp_memory p pn → v_pages (tp_view p) !! pn = Some g → tp_lsn pn p = Some (tpg_lsn g);
  tp_get_ok p pn :
    tp_ok p → is_Some (v_pages (tp_view p) !! pn) →
    ∃ p', tp_get pn p = Some (SUCCESS, p') ∧ tp_step p p' (v_with_pins (pin_add pn) (tp_view p));
  tp_alloc_ok p :
    tp_ok p → (0 < v_free (tp_view p))%nat →
    ∃ pn g p', tp_alloc p = Some ((SUCCESS, pn), p') ∧ v_pages (tp_view p) !! pn = None ∧
      tp_step p p' (mkView (<[pn := g]> (v_pages (tp_view p))) (<[pn := 1%positive]> (v_pins (tp_view p))) (Nat.pred (v_free (tp_view p))));
  tp_unpin_ok p pn :
    tp_ok p → is_Some (v_pins (tp_view p) !! pn) →
    ∃ p', tp_unpin pn p = Some (tt, p') ∧ tp_step p p' (v_with_pins (pin_sub pn) (tp_view p));
  tp_dispose_ok p pn :
    tp_ok p → is_Some (v_pages (tp_view p) !! pn) → v_pins (tp_view p) !! pn = None →
    ∃ p' n, tp_dispose pn p = Some (SUCCESS, p') ∧ tp_ok p' ∧ tp_id p' = tp_id p ∧ (v_free (tp_view p) ≤ n)%nat ∧
      tp_view p' = mkView (delete pn (v_pages (tp_view p))) (v_pins (tp_view p)) n ∧ ∀ q, q ≠ pn → tp_memory p q → tp_memory p' q;
  tp_store_ok p pn g d :
    tp_ok p → tp_memory p pn → v_pages (tp_view p) !! pn = Some g → len d = tp_page_size →
    ∃ p', tp_store pn d p = Some (tt, p') ∧ tp_step p p' (v_with_pages <[pn := mkTPage (tpg_lsn g) d]> (tp_view p));
  tp_set_lsn_ok p pn g l :
    tp_ok p → tp_memory p pn → v_pages (tp_view p) !! pn = Some g →
    ∃ p', tp_set_lsn pn l p = Some (tt, p') ∧ tp_step p p' (v_with_pages <[pn := mkTPage l (tpg_data g)]> (tp_view p));
  tp_mark_dirty_ok p pn :
    tp_ok p → tp_memory p pn → ∃ p', tp_mark_dirty pn p = Some (tt, p') ∧ tp_step p p' (tp_view p);
  tp_append_ok p data :
    tp_ok p → ∃ rc lsn p', tp_append data p = Some ((rc, lsn), p') ∧ tp_step p p' (tp_view p);
}.

(** ** The memo *)

Inductive LatchMemoType : Set := NONE | SHARED | EXCLUSIVE | PIN.
(** a frame, or the lock of the root *)
Inductive Latched : Set := OnFrame (pn : PageNum) | OnLock.
#[export] Instance Latched_eq_dec : EqDecision Latched.
Proof. solve_decision. Defined.
#[export] Instance Latched_countable : Countable Latched.
Proof. by refine (inj_countable' (λ w, match w with OnFrame pn => Some pn | OnLock => None end) (λ o, match o with Some pn => OnFrame pn | None => OnLock end) _); intros []. Defined.
#[export] Instance LatchMemoType_eq_dec : EqDecision LatchMemoType.
Proof. solve_decision. Defined.

Record LatchMemoItem := mkItem { item_type : LatchMemoType; item_on : Latched }.
Inductive LockState : Set := Locked | SharedBy (n : positive).

(** the pool, the latches, one memo, and [X] for the state of the client *)
Record Memo (P X : Type) := mkMemo {
  m_pool : P;
  m_locks : gmap Latched LockState;
  items_ : list LatchMemoItem;
  disposed_pages_ : list PageNum;
  m_client : X;
}.
Arguments mkMemo {P X}. Arguments m_pool {P X}. Arguments m_locks {P X}. Arguments items_ {P X}. Arguments disposed_pages_ {P X}. Arguments m_client {P X}.

Section memo.
Context {P X : Type} `{TreePool P}.
Abbreviation S := (Memo P X).

Definition with_pool (p : P) (s : S) : S := mkMemo p (m_locks s) (items_ s) (disposed_pages_ s) (m_client s).
Definition with_locks (l : gmap Latched LockState) (s : S) : S := mkMemo (m_pool s) l (items_ s) (disposed_pages_ s) (m_client s).
Definition with_items (l : list LatchMemoItem) (s : S) : S := mkMemo (m_pool s) (m_locks s) l (disposed_pages_ s) (m_client s).
Definition with_disposed (l : list PageNum) (s : S) : S := mkMemo (m_pool s) (m_locks s) (items_ s) l (m_client s).
Definition with_client (x : X) (s : S) : S := mkMemo (m_pool s) (m_locks s) (items_ s) (disposed_pages_ s) x.
Definition on_pool {A} (c : M P A) : M S A := λ s,
  match c (m_pool s) with Some (a, p) => Some (a, with_pool p s) | None => None end.

(** the latches of a frame and of the lock of the root *)
Definition lock (w : Latched) : M S unit :=
  let* s := get in
  match m_locks s !! w with None => put (with_locks (<[w := Locked]> (m_locks s)) s) | Some _ => abort end.
Definition lock_shared (w : Latched) : M S unit :=
  let* s := get in
  match m_locks s !! w with
  | None => put (with_locks (<[w := SharedBy 1]> (m_locks s)) s)
  | Some (SharedBy n) => put (with_locks (<[w := SharedBy (Pos.succ n)]> (m_locks s)) s)
  | Some Locked => abort
  end.
Definition unlock (w : Latched) : M S unit :=
  let* s := get in
  match m_locks s !! w with Some Locked => put (with_locks (delete w (m_locks s)) s) | _ => abort end.
Definition unlock_shared (w : Latched) : M S unit :=
  let* s := get in
  match m_locks s !! w with
  | Some (SharedBy 1) => put (with_locks (delete w (m_locks s)) s)
  | Some (SharedBy n) => put (with_locks (<[w := SharedBy (Pos.pred n)]> (m_locks s)) s)
  | _ => abort
  end.
Definition pinned (pn : PageNum) : M S unit := let* s := get in assertM (0 <? tp_pins pn (m_pool s)).
Definition write_latch (pn : PageNum) : M S unit := pinned pn ;;; lock (OnFrame pn).
Definition write_unlatch (pn : PageNum) : M S unit := pinned pn ;;; unlock (OnFrame pn).
Definition read_latch (pn : PageNum) : M S unit := pinned pn ;;; lock_shared (OnFrame pn).
Definition read_unlatch (pn : PageNum) : M S unit := pinned pn ;;; unlock_shared (OnFrame pn).
(** [Frame::try_read_latch]: one's own write latch is an assertion, and nobody else has one *)
Definition try_read_latch (pn : PageNum) : M S bool := read_latch pn ;;; ret true.
(** [Frame::unpin] under [DiskBufferPool::unpin_page]: the last pin goes after the latches *)
Definition unpin_page (pn : PageNum) : M S RC :=
  pinned pn ;;;
  on_pool (tp_unpin pn) ;;;
  let* s := get in
  assertM (negb (tp_pins pn (m_pool s) =? 0) || bool_decide (m_locks s !! OnFrame pn = None)) ;;;
  ret SUCCESS.

Definition emplace_back (i : LatchMemoItem) : M S unit := modify (λ s, with_items (items_ s ++ [i]) s).

Definition get_page (pn : PageNum) : M S RC :=
  let* rc := on_pool (tp_get pn) in
  if negb (bool_decide (rc = SUCCESS)) then ret rc
  else emplace_back (mkItem PIN (OnFrame pn)) ;;; ret SUCCESS.
Definition allocate_page : M S (RC * PageNum) :=
  let* r := on_pool tp_alloc in
  if bool_decide (r.1 = SUCCESS) then
    emplace_back (mkItem PIN (OnFrame r.2)) ;;;
    let* s := get in
    assertM (tp_pins r.2 (m_pool s) =? 1) ;;;
    ret r
  else ret r.
Definition dispose_page (pn : PageNum) : M S unit := modify (λ s, with_disposed (disposed_pages_ s ++ [pn]) s).

Definition latch (pn : PageNum) (type : LatchMemoType) : M S unit :=
  match type with EXCLUSIVE => write_latch pn | SHARED => read_latch pn | _ => abort end ;;;
  emplace_back (mkItem type (OnFrame pn)).
Definition xlatch (pn : PageNum) : M S unit := latch pn EXCLUSIVE.
Definition slatch (pn : PageNum) : M S unit := latch pn SHARED.
Definition try_slatch (pn : PageNum) : M S bool :=
  let* b := try_read_latch pn in
  (if b then emplace_back (mkItem SHARED (OnFrame pn)) else ret tt) ;;;
  ret b.
Definition xlatch_lock : M S unit := lock OnLock ;;; emplace_back (mkItem EXCLUSIVE OnLock).
Definition slatch_lock : M S unit := lock_shared OnLock ;;; emplace_back (mkItem SHARED OnLock).

Definition release_item (i : LatchMemoItem) : M S unit :=
  match item_type i, item_on i with
  | EXCLUSIVE, OnFrame pn => write_unlatch pn
  | EXCLUSIVE, OnLock => unlock OnLock
  | SHARED, OnFrame pn => read_unlatch pn
  | SHARED, OnLock => unlock_shared OnLock
  | PIN, OnFrame pn => unpin_page pn ;;; ret tt
  | _, _ => abort
  end.
Definition memo_point (s : S) : Z := len (items_ s).
Definition release_to (point : Z) : M S unit :=
  let* s := get in
  assertM ((0 <=? point) && (point <=? len (items_ s))) ;;;
  forM (reverse (take (Z.to_nat point) (items_ s))) release_item ;;;
  modify (λ s, with_items (drop (Z.to_nat point) (items_ s)) s).
Definition release : M S unit :=
  let* s := get in
  release_to (memo_point s) ;;;
  let* s := get in
  forM (disposed_pages_ s) (λ pn, on_pool (tp_dispose pn) ;;; ret tt) ;;;
  modify (with_disposed []).
End memo.
