(* ===== verification/TreePoolMem.v ===== *)
(** * TreePoolMem: a pool of pages in memory

    The smallest pool that keeps the promises of [TreePoolLaws]: every page stays in memory, page
    numbers are not used twice, and [mp_left] more pages can be allocated. The theorems about
    trees are applied to it. *)
From S2P Require Import Prelude Types Encoding LatchMemo.

Record MemPool := mkMemPool {
  mp_pages : gmap PageNum TPage;
  mp_pins : gmap PageNum positive;
  mp_next : PageNum;
  mp_left : nat;
  mp_id : Z;
  mp_log : list (list Z);
}.
Definition mp_page_size : Z := 112.
Definition mp_blank : TPage := mkTPage 0 (replicate 112 0).
Definition mp_with_pages (m : gmap PageNum TPage) (p : MemPool) : MemPool := mkMemPool m (mp_pins p) (mp_next p) (mp_left p) (mp_id p) (mp_log p).
Definition mp_with_pins (m : gmap PageNum positive) (p : MemPool) : MemPool := mkMemPool (mp_pages p) m (mp_next p) (mp_left p) (mp_id p) (mp_log p).

#[export] Instance mem_pool : TreePool MemPool := {
  tp_get pn := λ p, Some (match mp_pages p !! pn with Some _ => (SUCCESS, mp_with_pins (pin_add pn (mp_pins p)) p) | None => (BUFFERPOOL_INVALID_PAGE_NUM, p) end);
  tp_alloc := λ p, Some (match mp_left p with
    | O => ((BUFFERPOOL_NOBUF, 0), p)
    | S k => ((SUCCESS, mp_next p), mkMemPool (<[mp_next p := mp_blank]> (mp_pages p)) (<[mp_next p := 1%positive]> (mp_pins p)) (mp_next p + 1) k (mp_id p) (mp_log p))
    end);
  tp_unpin pn := λ p, Some (tt, mp_with_pins (pin_sub pn (mp_pins p)) p);
  tp_dispose pn := λ p, Some (SUCCESS, mp_with_pages (delete pn (mp_pages p)) p);
  tp_pins pn p := Z.of_nat (pin_of (mp_pins p) pn);
  tp_data pn p := tpg_data <$> mp_pages p !! pn;
  tp_store pn d := λ p, match mp_pages p !! pn with Some g => Some (tt, mp_with_pages (<[pn := mkTPage (tpg_lsn g) d]> (mp_pages p)) p) | None => None end;
  tp_lsn pn p := tpg_lsn <$> mp_pages p !! pn;
  tp_set_lsn pn l := λ p, match mp_pages p !! pn with Some g => Some (tt, mp_with_pages (<[pn := mkTPage l (tpg_data g)]> (mp_pages p)) p) | None => None end;
  tp_mark_dirty pn := λ p, Some (tt, p);
  tp_flush_all := λ p, Some (SUCCESS, p);
  tp_close := λ p, Some (SUCCESS, p);
  tp_id := mp_id;
  tp_append data := λ p, Some ((SUCCESS, len (mp_log p) + 1), mkMemPool (mp_pages p) (mp_pins p) (mp_next p) (mp_left p) (mp_id p) (mp_log p ++ [data]));
}.

Record mem_ok (p : MemPool) : Prop := {
  mk_pages : map_Forall (λ pn g, len (tpg_data g) = mp_page_size ∧ 0 < pn < mp_next p) (mp_pages p);
  mk_pins : map_Forall (λ pn _, is_Some (mp_pages p !! pn)) (mp_pins p);
  mk_next : 0 < mp_next p;
  mk_room : mp_next p + Z.of_nat (mp_left p) < 2 ^ 31;
}.
Definition mem_view (p : MemPool) : PoolView := mkView (mp_pages p) (mp_pins p) (mp_left p).

Lemma mem_pins p pn m : mem_ok p → is_Some (mp_pages p !! pn) → (∀ q, is_Some (m !! q) → q = pn ∨ is_Some (mp_pins p !! q)) → mem_ok (mp_with_pins m p).
Proof.
  intros [] Hp Hm. constructor; cbn; try done. intros q x Hq. destruct (Hm q ltac:(eauto)) as [->|[y Hy]]; [done|by apply (mk_pins0 q y)].
Qed.
Lemma mem_page p pn g : mem_ok p → is_Some (mp_pages p !! pn) → len (tpg_data g) = mp_page_size → mem_ok (mp_with_pages (<[pn := g]> (mp_pages p)) p).
Proof.
  intros [] [g0 Hg0] Hg. pose proof (mk_pages0 _ _ Hg0) as [_ Hr]. constructor; cbn; try done.
  - by apply map_Forall_insert_2.
  - intros q x Hq. destruct (mk_pins0 q x Hq) as [y Hy]. destruct (decide (q = pn)) as [->|]; [rewrite lookup_insert_eq; eauto|rewrite lookup_insert_ne by done; eauto].
Qed.
Lemma pin_add_some pn m q : is_Some (pin_add pn m !! q) → q = pn ∨ is_Some (m !! q).
Proof. unfold pin_add. destruct (decide (q = pn)) as [->|]; [by left|]. rewrite lookup_insert_ne by done. by right. Qed.
Lemma pin_sub_some pn m q : is_Some (pin_sub pn m !! q) → is_Some (m !! q).
Proof.
  unfold pin_sub. destruct (m !! pn) as [n|] eqn:En; [|done]. destruct (decide (q = pn)) as [->|Hne]; [rewrite En; eauto|]. by destruct n; rewrite ?lookup_insert_ne, ?lookup_delete_ne.
Qed.

(** the step of a pool to a state that is ok *)
Ltac mem_step := eexists; (split; [done|]); (split; [|split; [done|split; [done|]]]); cbn.

#[export] Program Instance mem_pool_laws : TreePoolLaws MemPool := {
  tp_ok := mem_ok;
  tp_view := mem_view;
  tp_memory p pn := is_Some (mp_pages p !! pn);
  tp_page_size := mp_page_size;
}.
Next Obligation. intros p pn g [] Hg. destruct (mk_pages0 _ _ Hg) as [H1 H2]. split; [done|]. lia. Qed.
Next Obligation. intros p pn [] [x Hx]. split; by apply (mk_pins0 _ _ Hx). Qed.
Next Obligation. done. Qed.
Next Obligation. cbn. intros p pn g _ _ ->. done. Qed.
Next Obligation. cbn. intros p pn g _ _ ->. done. Qed.
Next Obligation.
  cbn. intros p pn Hp [g Hg]. rewrite Hg. mem_step; [|done]. eapply mem_pins; [done|eauto|]. apply pin_add_some.
Qed.
Next Obligation.
  cbn. intros p [] Hf. destruct (mp_left p) as [|k] eqn:Ek; [lia|]. assert (Hnone : mp_pages p !! mp_next p = None).
  { destruct (mp_pages p !! mp_next p) eqn:E; [|done]. destruct (mk_pages0 _ _ E). lia. }
  exists (mp_next p), mp_blank. eexists. split; [done|]. split; [done|]. split; [|split; [done|split; [done|]]]; cbn.
  - constructor; cbn; [| |lia|lia].
    + apply map_Forall_insert_2; [split; [done|lia]|]. intros q g Hq. destruct (mk_pages0 _ _ Hq). split; [done|lia].
    + apply map_Forall_insert_2; [rewrite lookup_insert_eq; eauto|]. intros q x Hq. destruct (mk_pins0 _ _ Hq) as [g Hg]. rewrite lookup_insert_ne by congruence. eauto.
  - intros q [g Hg]. rewrite lookup_insert_ne by congruence. eauto.
Qed.
Next Obligation.
  cbn. intros p pn Hp [x Hx]. mem_step; [|done]. eapply (mem_pins p pn); [done|by apply (mk_pins _ Hp _ _ Hx)|]. intros q Hq. right. by apply (pin_sub_some pn).
Qed.
Next Obligation.
  cbn. intros p pn [] [g Hg] Hpin. eexists _, _. split; [done|]. split; [|split; [done|split; [|split; [done|]]]].
  - constructor; cbn; try done; [by apply map_Forall_delete|]. intros q x Hq. rewrite lookup_delete_ne by congruence. by apply (mk_pins0 _ _ Hq).
  - apply le_n.
  - intros q Hq. cbn. by rewrite lookup_delete_ne.
Qed.
Next Obligation.
  cbn. intros p pn g d Hp _ Hg Hd. rewrite Hg. mem_step; [apply mem_page; eauto|].
  intros q [x Hx]. cbn. destruct (decide (q = pn)) as [->|]; [rewrite lookup_insert_eq; eauto|rewrite lookup_insert_ne by done; eauto].
Qed.
Next Obligation.
  cbn. intros p pn g l Hp _ Hg. rewrite Hg. mem_step; [apply mem_page; [done|eauto|by apply (mk_pages _ Hp _ _ Hg)]|].
  intros q [x Hx]. cbn. destruct (decide (q = pn)) as [->|]; [rewrite lookup_insert_eq; eauto|rewrite lookup_insert_ne by done; eauto].
Qed.
Next Obligation. cbn. intros p pn Hp _. exists p. split; [done|]. by split; [|split; [|split]]. Qed.
Next Obligation.
  cbn. intros p data []. eexists _, _, _. split; [done|]. split; [|split; [done|split; [done|]]]; [by constructor|done].
Qed.
