(* ===== verification/LatchMemoSpec.v ===== *)
(** * LatchMemoSpec: what a memo remembers is what is pinned and latched

    [memo_ok ex s]: the pins and latches of [s] are those of the items of the memo and of
    [ex], which the operation holds outside of the memo. Releasing gives back exactly the
    items of the memo, and the one thread never waits for itself while it latches only frames
    it has not latched. *)
From S2P Require Import Prelude Types Encoding LatchMemo.

(** ** Counting items *)

Definition is_item (t : LatchMemoType) (w : Latched) (i : LatchMemoItem) : Prop := item_type i = t ∧ item_on i = w.
#[export] Instance is_item_dec t w i : Decision (is_item t w i).
Proof. unfold is_item. apply _. Defined.
Definition count (t : LatchMemoType) (w : Latched) (l : list LatchMemoItem) : nat := length (filter (is_item t w) l).
Abbreviation npin pn l := (count PIN (OnFrame pn) l).

Lemma count_app t w l1 l2 : count t w (l1 ++ l2) = (count t w l1 + count t w l2)%nat.
Proof. unfold count. by rewrite filter_app, length_app. Qed.
Lemma count_one t w t' w' : count t w [mkItem t' w'] = if decide (t' = t ∧ w' = w) then 1%nat else 0%nat.
Proof.
  unfold count. rewrite filter_cons, filter_nil. unfold is_item. cbn [item_type item_on]. by repeat case_decide; try (exfalso; tauto).
Qed.
Lemma count_self t w : count t w [mkItem t w] = 1%nat.
Proof. by rewrite count_one, decide_True. Qed.
Lemma count_other_type t w t' w' : t' ≠ t → count t w [mkItem t' w'] = 0%nat.
Proof. intros Ht. rewrite count_one, decide_False; [done|]. by intros []. Qed.
Lemma count_other_on t w t' w' : w' ≠ w → count t w [mkItem t' w'] = 0%nat.
Proof. intros Hw. rewrite count_one, decide_False; [done|]. by intros []. Qed.
Lemma count_cons t w i l : count t w (i :: l) = (count t w [i] + count t w l)%nat.
Proof. apply (count_app t w [i] l). Qed.
Lemma count_reverse t w l : count t w (reverse l) = count t w l.
Proof. induction l as [|i l IH]; [done|]. rewrite reverse_cons, count_app, IH, (count_cons _ _ _ l). lia. Qed.
Lemma count_elem t w l : mkItem t w ∈ l → (0 < count t w l)%nat.
Proof. intros (l1 & l2 & ->)%list_elem_of_split. rewrite count_app, count_cons, count_one, decide_True by done. lia. Qed.

(** the state of a lock that is held [x] times exclusively and [s] times shared *)
Definition lock_state (x s : nat) : option LockState :=
  match x, s with O, O => None | O, S s => Some (SharedBy (Pos.of_succ_nat s)) | S _, _ => Some Locked end.

Section spec.
Context {P X : Type} `{TL : TreePoolLaws P}.
Abbreviation St := (Memo P X).
Implicit Types (s : St) (l ex : list LatchMemoItem).

Definition pages s : gmap PageNum TPage := v_pages (tp_view (m_pool s)).
Definition pins s : gmap PageNum positive := v_pins (tp_view (m_pool s)).
Definition free s : nat := v_free (tp_view (m_pool s)).
Definition held s (pn : PageNum) : Prop := is_Some (pins s !! pn).
Definition latched s (w : Latched) : Prop := is_Some (m_locks s !! w).

(** a latched frame was pinned before *)
Definition ordered l : Prop := ∀ l1 t pn l2, l = l1 ++ mkItem t (OnFrame pn) :: l2 → t ≠ PIN → mkItem PIN (OnFrame pn) ∈ l1.

(** [l] lists what the thread holds *)
Record holds l s : Prop := {
  ho_pool : tp_ok (m_pool s);
  ho_pins : ∀ pn, pin_of (pins s) pn = npin pn l;
  ho_locks : ∀ w, m_locks s !! w = lock_state (count EXCLUSIVE w l) (count SHARED w l);
  ho_excl : ∀ w, (count EXCLUSIVE w l ≤ 1)%nat ∧ (0 < count EXCLUSIVE w l → count SHARED w l = 0)%nat;
}.
Record memo_ok ex s : Prop := {
  mo_holds : holds (ex ++ items_ s) s;
  mo_types : Forall (λ i, item_type i ≠ NONE ∧ (item_type i = PIN → item_on i ≠ OnLock)) (items_ s);
  mo_outside : ordered ex;
  mo_order : ordered (items_ s);
}.
Lemma mo_pool ex s : memo_ok ex s → tp_ok (m_pool s).
Proof. intros []. by destruct mo_holds0. Qed.
Lemma mo_pins ex s pn : memo_ok ex s → pin_of (pins s) pn = npin pn (ex ++ items_ s).
Proof. intros []. by destruct mo_holds0. Qed.

Lemma held_pin s pn : held s pn ↔ (0 < pin_of (pins s) pn)%nat.
Proof. unfold held, pin_of. destruct (pins s !! pn); cbn; [split; [lia|eauto]|split; [intros []; done|lia]]. Qed.
Lemma pin_of_add m pn q : pin_of (pin_add pn m) q = (pin_of m q + if decide (pn = q) then 1 else 0)%nat.
Proof.
  unfold pin_of, pin_add. destruct (decide (pn = q)) as [->|Hne].
  - rewrite lookup_insert_eq. cbn. destruct (m !! q); cbn; lia.
  - rewrite lookup_insert_ne by done. lia.
Qed.
Lemma pin_of_sub m pn q : is_Some (m !! pn) → pin_of (pin_sub pn m) q = (pin_of m q - if decide (pn = q) then 1 else 0)%nat.
Proof.
  intros [n Hn]. unfold pin_of, pin_sub. rewrite Hn. destruct (decide (pn = q)) as [->|Hne].
  - rewrite Hn. destruct n; cbn; rewrite ?lookup_insert_eq, ?lookup_delete_eq; cbn; lia.
  - destruct n; rewrite ?lookup_insert_ne, ?lookup_delete_ne by done; lia.
Qed.
Lemma pin_of_empty m : (∀ pn, pin_of m pn = 0%nat) → m = ∅.
Proof. intros Hm. apply map_eq. intros pn. specialize (Hm pn). unfold pin_of in Hm. rewrite lookup_empty. destruct (m !! pn); [cbn in Hm; lia|done]. Qed.

Lemma held_pins ex s pn : memo_ok ex s → held s pn ↔ (0 < npin pn (ex ++ items_ s))%nat.
Proof. intros Hs. by rewrite held_pin, (mo_pins _ _ _ Hs). Qed.
Lemma held_pinned ex s pn : memo_ok ex s → held s pn → pinned pn s = Some (tt, s).
Proof.
  intros Hs Hp. unfold pinned. rewrite bind_get. destruct (tp_pinned_ok _ _ (mo_pool _ _ Hs) Hp) as [_ Hm].
  rewrite (tp_pins_ok _ _ (mo_pool _ _ Hs) Hm). apply held_pin in Hp. unfold assertM. by rewrite (proj2 (Z.ltb_lt _ _)) by (unfold pins in Hp; lia).
Qed.
Lemma held_page ex s pn : memo_ok ex s → held s pn → is_Some (pages s !! pn) ∧ tp_memory (m_pool s) pn.
Proof. intros Hs. apply (tp_pinned_ok _ _ (mo_pool _ _ Hs)). Qed.

(** what every call preserves *)
Record evolves s s' : Prop := {
  ev_held : ∀ pn, held s pn → held s' pn;
  ev_disposed : disposed_pages_ s' = disposed_pages_ s;
  ev_client : m_client s' = m_client s;
  ev_id : tp_id (m_pool s') = tp_id (m_pool s);
  ev_memory : ∀ q, tp_memory (m_pool s) q → tp_memory (m_pool s') q;
}.

Lemma ordered_snoc l i : ordered l → (∀ t pn, i = mkItem t (OnFrame pn) → t ≠ PIN → mkItem PIN (OnFrame pn) ∈ l) → ordered (l ++ [i]).
Proof.
  intros Hl Hi l1 t pn l2 E Ht. destruct l2 as [|j l2 _] using rev_ind.
  - apply app_inj_tail in E as [<- E]. by apply (Hi t pn).
  - rewrite app_comm_cons, app_assoc in E. apply app_inj_tail in E as [E _]. by apply (Hl l1 t pn l2).
Qed.

Lemma count_in_snoc t w ex l i : count t w (ex ++ l ++ [i]) = (count t w (ex ++ l) + count t w [i])%nat.
Proof. by rewrite app_assoc, count_app. Qed.

Lemma get_page_ok ex s pn : memo_ok ex s → is_Some (pages s !! pn) →
  ∃ s', get_page pn s = Some (SUCCESS, s') ∧ memo_ok ex s' ∧ evolves s s' ∧ held s' pn ∧ pages s' = pages s ∧ free s' = free s ∧ m_locks s' = m_locks s ∧ items_ s' = items_ s ++ [mkItem PIN (OnFrame pn)].
Proof.
  intros Hs Hp. destruct (tp_get_ok _ pn (mo_pool _ _ Hs) Hp) as (p' & E & Hok & Hid & Hv & Hm).
  unfold get_page. assert (E1 : on_pool (tp_get pn) s = Some (SUCCESS, with_pool p' s)) by (unfold on_pool; by rewrite E).
  rewrite (bind_eq _ _ _ _ _ E1). rewrite bool_decide_true by done. cbn [negb]. unfold emplace_back. rewrite bind_modify.
  eexists. split; [done|]. assert (Hpin : ∀ q, pin_of (pins (with_pool p' s)) q = (pin_of (pins s) q + if decide (pn = q) then 1 else 0)%nat).
  { intros q. unfold pins. cbn [m_pool with_pool]. rewrite Hv. cbn [v_pins v_with_pins]. apply pin_of_add. }
  split; [|split; [|split; [|split; [|split]]]].
  - destruct Hs as [[] Hty Hout Hord]. split; [|cbn [items_ with_items]; apply Forall_app; split; [done|repeat constructor; done]|done|].
    + constructor; cbn [m_pool with_pool with_items items_ m_locks disposed_pages_]; [done| | |].
      * intros q. rewrite count_in_snoc, count_one. change (pins (mkMemo p' (m_locks s) (items_ s ++ [mkItem PIN (OnFrame pn)]) (disposed_pages_ s) (m_client s))) with (pins (with_pool p' s)).
        rewrite Hpin, ho_pins0. f_equal. do 2 case_decide; naive_solver.
      * intros w. rewrite !count_in_snoc, !count_one. rewrite !decide_False by naive_solver. by rewrite !Nat.add_0_r.
      * intros w. rewrite !count_in_snoc, !count_one. rewrite !decide_False by naive_solver. by rewrite !Nat.add_0_r.
    + apply ordered_snoc; [done|]. intros t q [= <- <-]. done.
  - constructor; try done. intros q Hq. apply held_pin. apply held_pin in Hq. change (pins (with_items _ _)) with (pins (with_pool p' s)). rewrite Hpin. lia.
  - apply held_pin. change (pins (with_items _ _)) with (pins (with_pool p' s)). rewrite Hpin, decide_True by done. lia.
  - unfold pages. cbn. by rewrite Hv.
  - unfold free. cbn. by rewrite Hv.
  - done.
Qed.
Lemma allocate_page_ok ex s : memo_ok ex s → (0 < free s)%nat →
  ∃ s' pn g, allocate_page s = Some ((SUCCESS, pn), s') ∧ memo_ok ex s' ∧ evolves s s' ∧ held s' pn ∧ pages s !! pn = None ∧
    pages s' = <[pn := g]> (pages s) ∧ free s' = Nat.pred (free s) ∧ m_locks s' = m_locks s ∧ items_ s' = items_ s ++ [mkItem PIN (OnFrame pn)].
Proof.
  intros Hs Hf. destruct (tp_alloc_ok _ (mo_pool _ _ Hs) Hf) as (pn & g & p' & E & Hnone & Hok & Hid & Hv & Hm).
  unfold allocate_page. assert (E1 : on_pool tp_alloc s = Some ((SUCCESS, pn), with_pool p' s)) by (unfold on_pool; by rewrite E).
  rewrite (bind_eq _ _ _ _ _ E1). cbn [fst snd]. rewrite bool_decide_true by done. unfold emplace_back. rewrite bind_modify, bind_get.
  assert (Hpn0 : pin_of (pins s) pn = 0%nat).
  { destruct (decide (pin_of (pins s) pn = 0%nat)) as [|Hne]; [done|]. destruct (held_page ex s pn Hs) as [[? Hp] _]; [apply held_pin; lia|]. unfold pages in Hp. congruence. }
  assert (Hpin : ∀ q, pin_of (pins (with_pool p' s)) q = (pin_of (pins s) q + if decide (pn = q) then 1 else 0)%nat).
  { intros q. unfold pins. cbn [m_pool with_pool]. rewrite Hv. cbn [v_pins]. case_decide as Hq.
    - subst q. fold (pins s). rewrite Hpn0. unfold pin_of. by rewrite lookup_insert_eq.
    - unfold pin_of. rewrite lookup_insert_ne by done. lia. }
  assert (Hmem : tp_memory p' pn) by (apply (tp_pinned_ok _ _ Hok); rewrite Hv; cbn [v_pins]; rewrite lookup_insert_eq; eauto).
  rewrite bind_assertM. 2:{ cbn [m_pool with_items with_pool]. rewrite (tp_pins_ok _ _ Hok Hmem), Hv. cbn [v_pins]. unfold pin_of. by rewrite lookup_insert_eq. }
  eexists _, pn, g. split; [done|]. split; [|split; [|split; [|split; [|split; [|split]]]]].
  - destruct Hs as [[] Hty Hout Hord]. split; [|cbn [items_ with_items]; apply Forall_app; split; [done|repeat constructor; done]|done|].
    + constructor; cbn [m_pool with_pool with_items items_ m_locks disposed_pages_]; [done| | |].
      * intros q. rewrite count_in_snoc, count_one. change (pins (mkMemo p' (m_locks s) (items_ s ++ [mkItem PIN (OnFrame pn)]) (disposed_pages_ s) (m_client s))) with (pins (with_pool p' s)).
        rewrite Hpin, ho_pins0. f_equal. do 2 case_decide; naive_solver.
      * intros w. rewrite !count_in_snoc, !count_one. rewrite !decide_False by naive_solver. by rewrite !Nat.add_0_r.
      * intros w. rewrite !count_in_snoc, !count_one. rewrite !decide_False by naive_solver. by rewrite !Nat.add_0_r.
    + apply ordered_snoc; [done|]. intros t q [= <- <-]. done.
  - constructor; try done. intros q Hq. apply held_pin. apply held_pin in Hq. change (pins (with_items _ _)) with (pins (with_pool p' s)). rewrite Hpin. lia.
  - apply held_pin. change (pins (with_items _ _)) with (pins (with_pool p' s)). rewrite Hpin, decide_True by done. lia.
  - done.
  - unfold pages. cbn. by rewrite Hv.
  - unfold free. cbn. by rewrite Hv.
  - done.
Qed.

(** taking a latch *)
Lemma push_latch ex s t w locks : memo_ok ex s → t ≠ PIN → t ≠ NONE →
  (∀ pn, w = OnFrame pn → mkItem PIN (OnFrame pn) ∈ items_ s) →
  (∀ v, v ≠ w → locks !! v = m_locks s !! v) →
  (t = EXCLUSIVE → m_locks s !! w = None ∧ locks !! w = Some Locked) →
  (t = SHARED → m_locks s !! w = None ∧ locks !! w = Some (SharedBy 1)) →
  memo_ok ex (with_items (items_ s ++ [mkItem t w]) (with_locks locks s)).
Proof.
  intros [[] Hty Hout Hord] Ht1 Ht2 Hw Hne Hx Hsh. constructor; cbn [items_ with_items with_locks].
  - assert (Hfree : m_locks s !! w = None → count EXCLUSIVE w (ex ++ items_ s) = 0%nat ∧ count SHARED w (ex ++ items_ s) = 0%nat).
    { rewrite ho_locks0. unfold lock_state. destruct (count EXCLUSIVE _ _), (count SHARED _ _); done. }
    constructor; cbn [m_pool with_pool with_items items_ m_locks with_locks]; [done| | |].
    + intros q. rewrite count_in_snoc, count_one, decide_False by naive_solver. rewrite Nat.add_0_r. apply ho_pins0.
    + intros v. rewrite !count_in_snoc. destruct (decide (w = v)) as [<-|Hv].
      * destruct t; try done; [destruct (Hsh eq_refl) as [E1 ->]|destruct (Hx eq_refl) as [E1 ->]]; destruct (Hfree E1) as [-> ->]; rewrite count_self, count_other_type by done; done.
      * rewrite !count_other_on, !Nat.add_0_r, Hne by done. apply ho_locks0.
    + intros v. rewrite !count_in_snoc. destruct (decide (w = v)) as [<-|Hv].
      * destruct t; try done; [destruct (Hsh eq_refl) as [E1 _]|destruct (Hx eq_refl) as [E1 _]]; destruct (Hfree E1) as [-> ->]; rewrite count_self, count_other_type by done; lia.
      * rewrite !count_other_on, !Nat.add_0_r by done. apply ho_excl0.
  - apply Forall_app. split; [done|]. repeat constructor; done.
  - done.
  - apply ordered_snoc; [done|]. intros t' pn [= <- ->] _. by apply Hw.
Qed.
Lemma evolves_locks s l i : evolves s (with_items l (with_locks i s)).
Proof. by constructor. Qed.

Lemma xlatch_ok ex s pn : memo_ok ex s → mkItem PIN (OnFrame pn) ∈ items_ s → m_locks s !! OnFrame pn = None →
  let s' := with_items (items_ s ++ [mkItem EXCLUSIVE (OnFrame pn)]) (with_locks (<[OnFrame pn := Locked]> (m_locks s)) s) in
  xlatch pn s = Some (tt, s') ∧ memo_ok ex s'.
Proof.
  intros Hs Hp Hl s'. assert (Hheld : held s pn) by (apply (held_pins _ _ _ Hs); rewrite count_app; pose proof (count_elem _ _ _ Hp); lia).
  split.
  - unfold xlatch, latch, write_latch. rewrite !bind_assoc, (bind_eq _ _ _ _ _ (held_pinned _ _ _ Hs Hheld)). unfold lock. rewrite bind_assoc, bind_get, Hl. done.
  - apply push_latch; try done; [by intros q [= <-]|intros v Hv; by rewrite lookup_insert_ne|]. intros _. by rewrite lookup_insert_eq.
Qed.
Lemma slatch_ok ex s pn : memo_ok ex s → mkItem PIN (OnFrame pn) ∈ items_ s → m_locks s !! OnFrame pn = None →
  let s' := with_items (items_ s ++ [mkItem SHARED (OnFrame pn)]) (with_locks (<[OnFrame pn := SharedBy 1]> (m_locks s)) s) in
  slatch pn s = Some (tt, s') ∧ memo_ok ex s'.
Proof.
  intros Hs Hp Hl s'. assert (Hheld : held s pn) by (apply (held_pins _ _ _ Hs); rewrite count_app; pose proof (count_elem _ _ _ Hp); lia).
  split.
  - unfold slatch, latch, read_latch. rewrite !bind_assoc, (bind_eq _ _ _ _ _ (held_pinned _ _ _ Hs Hheld)). unfold lock_shared. rewrite bind_assoc, bind_get, Hl. done.
  - apply push_latch; try done; [by intros q [= <-]|intros v Hv; by rewrite lookup_insert_ne|]. intros _. by rewrite lookup_insert_eq.
Qed.
Lemma xlatch_lock_ok ex s : memo_ok ex s → m_locks s !! OnLock = None →
  let s' := with_items (items_ s ++ [mkItem EXCLUSIVE OnLock]) (with_locks (<[OnLock := Locked]> (m_locks s)) s) in
  xlatch_lock s = Some (tt, s') ∧ memo_ok ex s'.
Proof.
  intros Hs Hl s'. split; [unfold xlatch_lock, lock; by rewrite bind_assoc, bind_get, Hl|].
  apply push_latch; try done; [intros v Hv; by rewrite lookup_insert_ne|]. intros _. by rewrite lookup_insert_eq.
Qed.
Lemma slatch_lock_ok ex s : memo_ok ex s → m_locks s !! OnLock = None →
  let s' := with_items (items_ s ++ [mkItem SHARED OnLock]) (with_locks (<[OnLock := SharedBy 1]> (m_locks s)) s) in
  slatch_lock s = Some (tt, s') ∧ memo_ok ex s'.
Proof.
  intros Hs Hl s'. split; [unfold slatch_lock, lock_shared; by rewrite bind_assoc, bind_get, Hl|].
  apply push_latch; try done; [intros v Hv; by rewrite lookup_insert_ne|]. intros _. by rewrite lookup_insert_eq.
Qed.
(** ** Giving back *)

(** giving back changes pins and latches only *)
Record gives_back s s' : Prop := {
  gb_items : items_ s' = items_ s;
  gb_disposed : disposed_pages_ s' = disposed_pages_ s;
  gb_client : m_client s' = m_client s;
  gb_id : tp_id (m_pool s') = tp_id (m_pool s);
  gb_memory : ∀ q, tp_memory (m_pool s) q → tp_memory (m_pool s') q;
  gb_pages : pages s' = pages s;
  gb_free : free s' = free s;
}.
Lemma gives_back_refl s : gives_back s s.
Proof. by constructor. Qed.
Lemma gives_back_trans s1 s2 s3 : gives_back s1 s2 → gives_back s2 s3 → gives_back s1 s3.
Proof. intros [] []. constructor; try congruence. naive_solver. Qed.

Definition needs_pin l : Prop := ∀ t pn, mkItem t (OnFrame pn) ∈ l → t ≠ PIN → mkItem PIN (OnFrame pn) ∈ l.

Lemma count_mid t w l1 i l2 : count t w (l1 ++ i :: l2) = (count t w [i] + count t w (l1 ++ l2))%nat.
Proof. rewrite !count_app, (count_cons _ _ i l2). lia. Qed.
Lemma count_zero t w l : count t w l = 0%nat ↔ mkItem t w ∉ l.
Proof.
  split; [intros H0 Hi; pose proof (count_elem _ _ _ Hi); lia|]. intros Hn. unfold count. rewrite list_filter_none; [done|].
  apply Forall_forall. intros [t' w'] Hi [E1 E2]. cbn in E1, E2. by subst.
Qed.

Lemma unlatch_item l1 i l2 s pn t : holds (l1 ++ i :: l2) s → i = mkItem t (OnFrame pn) → t ≠ PIN → needs_pin (l1 ++ i :: l2) → pinned pn s = Some (tt, s).
Proof.
  intros Hs -> Ht Hn. assert (Hp : mkItem PIN (OnFrame pn) ∈ l1 ++ mkItem t (OnFrame pn) :: l2) by (apply (Hn t); [set_solver|done]).
  destruct Hs. assert (Hpos : (0 < pin_of (pins s) pn)%nat) by (rewrite ho_pins0; by apply count_elem).
  unfold pinned. rewrite bind_get. destruct (tp_pinned_ok _ pn ho_pool0) as [_ Hm]; [by apply held_pin|].
  rewrite (tp_pins_ok _ _ ho_pool0 Hm). unfold assertM. by rewrite (proj2 (Z.ltb_lt _ _)) by (unfold pins in Hpos; lia).
Qed.
Lemma holds_locks l1 i l2 s locks : holds (l1 ++ i :: l2) s → item_type i ≠ PIN →
  (∀ w, locks !! w = lock_state (count EXCLUSIVE w (l1 ++ l2)) (count SHARED w (l1 ++ l2))) → holds (l1 ++ l2) (with_locks locks s).
Proof.
  intros [] Hi Hl. destruct i as [t v]. constructor; cbn [m_pool with_locks m_locks]; [done| |done|].
  - intros pn. change (pins (with_locks locks s)) with (pins s). rewrite ho_pins0, count_mid, count_other_type by done. done.
  - intros w. specialize (ho_excl0 w). rewrite !count_mid in ho_excl0. lia.
Qed.
Lemma delete_locks l1 t v l2 s : holds (l1 ++ mkItem t v :: l2) s → t ≠ PIN → count EXCLUSIVE v (l1 ++ l2) = 0%nat → count SHARED v (l1 ++ l2) = 0%nat →
  ∀ w, delete v (m_locks s) !! w = lock_state (count EXCLUSIVE w (l1 ++ l2)) (count SHARED w (l1 ++ l2)).
Proof.
  intros [] Ht Hx Hsh w. destruct (decide (v = w)) as [<-|Hw]; [by rewrite lookup_delete_eq, Hx, Hsh|].
  rewrite lookup_delete_ne, ho_locks0, !count_mid, !count_other_on by done. done.
Qed.

Lemma release_latch l1 t v l2 s : holds (l1 ++ mkItem t v :: l2) s → t = EXCLUSIVE ∨ t = SHARED → needs_pin (l1 ++ mkItem t v :: l2) →
  ∃ s', release_item (mkItem t v) s = Some (tt, s') ∧ holds (l1 ++ l2) s' ∧ gives_back s s'.
Proof.
  intros Hs Ht Hn. assert (HtP : t ≠ PIN) by (destruct Ht; congruence). pose proof (ho_locks _ _ Hs v) as Hv. pose proof (ho_excl _ _ Hs v) as Hx. rewrite !count_mid in Hv, Hx.
  assert (E : ∃ locks, (match t with EXCLUSIVE => unlock v s | _ => unlock_shared v s end) = Some (tt, with_locks locks s) ∧
    ∀ w, locks !! w = lock_state (count EXCLUSIVE w (l1 ++ l2)) (count SHARED w (l1 ++ l2))).
  { destruct Ht as [-> | ->].
    - rewrite count_self, (count_other_type SHARED) in Hv by done. rewrite count_self, (count_other_type SHARED) in Hx by done. cbn [plus lock_state] in Hv.
      exists (delete v (m_locks s)). split; [unfold unlock; by rewrite bind_get, Hv|].
      apply (delete_locks l1 EXCLUSIVE); [done|done|lia|lia].
    - rewrite count_self, (count_other_type EXCLUSIVE) in Hv by done. rewrite count_self, (count_other_type EXCLUSIVE) in Hx by done. cbn [plus] in Hx, Hv.
      assert (Hx0 : count EXCLUSIVE v (l1 ++ l2) = 0%nat) by lia. rewrite Hx0 in Hv. cbn [lock_state] in Hv.
      destruct (count SHARED v (l1 ++ l2)) as [|k] eqn:Ek; cbn [Pos.of_succ_nat] in Hv.
      + exists (delete v (m_locks s)). split; [unfold unlock_shared; by rewrite bind_get, Hv|]. by apply (delete_locks l1 SHARED).
      + exists (<[v := SharedBy (Pos.of_succ_nat k)]> (m_locks s)). split.
        * unfold unlock_shared. rewrite bind_get, Hv. destruct (Pos.succ (Pos.of_succ_nat k)) eqn:Ep; [|cbv beta iota; unfold put; do 4 f_equal; rewrite <-Ep, Pos.pred_succ; done|lia].
          unfold put. do 4 f_equal. rewrite <-Ep, Pos.pred_succ. done.
        * intros w. destruct (decide (v = w)) as [<-|Hw]; [by rewrite lookup_insert_eq, Hx0, Ek|].
          rewrite lookup_insert_ne, (ho_locks _ _ Hs), !count_mid, !count_other_on by done. done. }
  destruct E as (locks & E & Hl). exists (with_locks locks s). split; [|split; [by apply (holds_locks l1 (mkItem t v))|by constructor]].
  destruct v as [pn|].
  - pose proof (unlatch_item l1 _ l2 s pn t Hs eq_refl HtP Hn) as Hpin. destruct Ht as [-> | ->]; unfold release_item; cbn [item_type item_on].
    + unfold write_unlatch. by rewrite (bind_eq _ _ _ _ _ Hpin).
    + unfold read_unlatch. by rewrite (bind_eq _ _ _ _ _ Hpin).
  - by destruct Ht as [-> | ->].
Qed.

Lemma unpin_holds l1 pn l2 s : holds (l1 ++ mkItem PIN (OnFrame pn) :: l2) s → needs_pin (l1 ++ l2) →
  ∃ s', unpin_page pn s = Some (SUCCESS, s') ∧ holds (l1 ++ l2) s' ∧ gives_back s s' ∧ m_locks s' = m_locks s.
Proof.
  intros Hs Hn. pose proof (ho_pins _ _ Hs pn) as Hp. rewrite count_mid, count_self in Hp.
  assert (Hh : held s pn) by (apply held_pin; lia). destruct (tp_pinned_ok _ pn (ho_pool _ _ Hs) Hh) as [_ Hm].
  destruct (tp_unpin_ok _ pn (ho_pool _ _ Hs) Hh) as (p' & E & Hok & Hid & Hv & Hmem).
  unfold unpin_page. assert (E0 : pinned pn s = Some (tt, s)).
  { unfold pinned. rewrite bind_get, (tp_pins_ok _ _ (ho_pool _ _ Hs) Hm). unfold assertM. by rewrite (proj2 (Z.ltb_lt _ _)) by (unfold pins in Hp; lia). }
  rewrite (bind_eq _ _ _ _ _ E0). assert (E1 : on_pool (tp_unpin pn) s = Some (tt, with_pool p' s)) by (unfold on_pool; by rewrite E).
  rewrite (bind_eq _ _ _ _ _ E1), bind_get. cbn [m_pool with_pool m_locks].
  assert (Hpin : ∀ q, pin_of (v_pins (tp_view p')) q = npin q (l1 ++ l2)).
  { intros q. rewrite Hv. cbn [v_pins v_with_pins]. rewrite pin_of_sub by done. fold (pins s). rewrite (ho_pins _ _ Hs q), count_mid, count_one.
    destruct (decide (pn = q)) as [->|Hq]; [rewrite decide_True by done; lia|]. rewrite decide_False by (intros [_ [= ->]]; done). lia. }
  rewrite bind_assertM.
  2:{ rewrite (tp_pins_ok _ _ Hok (Hmem _ Hm)), Hpin. destruct (npin pn (l1 ++ l2)) eqn:E2; [|done]. apply count_zero in E2. rewrite orb_true_iff. right.
      apply bool_decide_eq_true. rewrite (ho_locks _ _ Hs), !count_mid, !(count_other_type _ _ PIN) by done. cbn [plus].
      assert (H0 : ∀ t, t ≠ PIN → count t (OnFrame pn) (l1 ++ l2) = 0%nat) by (intros t Ht; apply count_zero; intros Hi; by apply E2, (Hn t)).
      by rewrite !H0. }
  eexists. split; [done|]. split; [|split; [constructor; cbn; try done; [unfold pages; cbn; by rewrite Hv|unfold free; cbn; by rewrite Hv]|done]].
  destruct Hs. constructor; cbn [m_pool with_pool m_locks]; [done|done| |].
  - intros w. rewrite ho_locks0, !count_mid, !(count_other_type _ _ PIN) by done. done.
  - intros w. specialize (ho_excl0 w). rewrite !count_mid, !(count_other_type _ _ PIN) in ho_excl0 by done. done.
Qed.

Lemma ordered_needs l : ordered l → needs_pin l.
Proof. intros Hl t pn (l1 & l2 & ->)%list_elem_of_split Ht. apply elem_of_app. left. by apply (Hl l1 t pn l2). Qed.
Lemma ordered_prefix l1 l2 : ordered (l1 ++ l2) → ordered l1.
Proof. intros Hl a t pn b -> Ht. apply (Hl a t pn (b ++ l2)); [|done]. by rewrite <-app_assoc. Qed.
Lemma needs_app l1 l2 : needs_pin l1 → needs_pin l2 → needs_pin (l1 ++ l2).
Proof. intros H1 H2 t pn Hi Ht. apply elem_of_app in Hi as [Hi|Hi]; apply elem_of_app; [left; by apply (H1 t)|right; by apply (H2 t)]. Qed.

(** the prefix [l1] of the memo, last item first *)
Lemma release_items ex l1 l2 s : holds (ex ++ l1 ++ l2) s → Forall (λ i, item_type i ≠ NONE ∧ (item_type i = PIN → item_on i ≠ OnLock)) l1 →
  ordered l1 → needs_pin ex → needs_pin l2 →
  ∃ s', forM (reverse l1) release_item s = Some (tt, s') ∧ holds (ex ++ l2) s' ∧ gives_back s s'.
Proof.
  revert s. induction l1 as [|i l1 IH] using rev_ind; intros s Hs Hty Ho He Hl2; [exists s; split; [done|split; [done|apply gives_back_refl]]|].
  apply Forall_app in Hty as [Hty Hi]. inversion_clear Hi as [|? ? [Hi1 Hi2] _]. rewrite reverse_snoc. cbn [forM].
  pose proof (ordered_prefix _ _ Ho) as Ho1. assert (Hs' : holds ((ex ++ l1) ++ i :: l2) s) by (rewrite <-!app_assoc in *; done).
  assert (Hrest : needs_pin ((ex ++ l1) ++ l2)) by (apply needs_app; [apply needs_app; [done|by apply ordered_needs]|done]).
  assert (E : ∃ s1, release_item i s = Some (tt, s1) ∧ holds ((ex ++ l1) ++ l2) s1 ∧ gives_back s s1).
  { destruct i as [t v]. destruct (decide (t = PIN)) as [->|HtP].
    - destruct v as [pn|]; [|exfalso; by apply Hi2]. destruct (unpin_holds _ _ _ _ Hs' Hrest) as (s1 & E & H1 & H2 & _).
      exists s1. split; [|done]. unfold release_item. cbn [item_type item_on]. by rewrite (bind_eq _ _ _ _ _ E).
    - apply release_latch; [done|cbn in Hi1; destruct t; auto; done|].
      intros t' q Hq Ht'. apply elem_of_app in Hq as [Hq|Hq]; [|apply elem_of_cons in Hq as [Hq|Hq]].
      + pose proof (Hrest t' q ltac:(set_solver) Ht'). set_solver.
      + injection Hq as -> <-. pose proof (Ho l1 t q [] eq_refl HtP). set_solver.
      + pose proof (Hrest t' q ltac:(set_solver) Ht'). set_solver. }
  destruct E as (s1 & E & H1 & Hg1). rewrite (bind_eq _ _ _ _ _ E). rewrite <-app_assoc in H1.
  destruct (IH s1 H1 Hty Ho1 He Hl2) as (s2 & E2 & H2 & Hg2). exists s2. split; [done|]. split; [done|]. by apply (gives_back_trans _ s1).
Qed.

Lemma release_to_ok ex l1 l2 s : memo_ok ex s → items_ s = l1 ++ l2 → ordered l2 →
  ∃ s', release_to (len l1) s = Some (tt, s') ∧ memo_ok ex s' ∧ gives_back (with_items l2 s) s'.
Proof.
  intros [Hs Hty Hout Ho] El Hl2. rewrite El in *. apply Forall_app in Hty as [Hty1 Hty2].
  destruct (release_items ex l1 l2 s Hs Hty1 (ordered_prefix _ _ Ho) (ordered_needs _ Hout) (ordered_needs _ Hl2)) as (s1 & E & H1 & Hg).
  unfold release_to. rewrite bind_get, bind_assertM.
  2:{ rewrite El, len_app. unfold len. apply andb_true_intro. split; apply Z.leb_le; lia. }
  rewrite El. replace (Z.to_nat (len l1)) with (length l1) by (unfold len; lia). rewrite take_app_length, (bind_eq _ _ _ _ _ E).
  unfold modify. rewrite (gb_items _ _ Hg), El, drop_app_length. eexists. split; [done|]. split.
  - constructor; [|done|done|done]. cbn [items_ with_items]. destruct H1. by constructor.
  - destruct Hg. by constructor.
Qed.
Lemma needs_pin_nil : needs_pin [].
Proof. intros t pn Hi. by apply elem_of_nil in Hi. Qed.
Lemma ordered_nil : ordered [].
Proof. intros l1 t pn l2 E. by destruct l1. Qed.

(** no page of the file is pinned and nothing is latched *)
Definition idle s : Prop := tp_ok (m_pool s) ∧ pins s = ∅ ∧ m_locks s = ∅.
Lemma idle_holds s : idle s ↔ holds [] s.
Proof.
  split.
  - intros (Hok & Hp & Hl). constructor; [done| | |intros w; unfold count; cbn; lia].
    + intros pn. by rewrite Hp.
    + intros w. by rewrite Hl, lookup_empty.
  - intros []. split; [done|]. split; [by apply pin_of_empty|]. apply map_eq. intros w. by rewrite ho_locks0, lookup_empty.
Qed.

Lemma dispose_all (l : list PageNum) s : idle s → NoDup l → (∀ pn, pn ∈ l → is_Some (pages s !! pn)) →
  ∃ s', forM l (λ pn, on_pool (tp_dispose pn) ;;; ret tt) s = Some (tt, s') ∧ idle s' ∧ items_ s' = items_ s ∧ disposed_pages_ s' = disposed_pages_ s ∧
    m_client s' = m_client s ∧ tp_id (m_pool s') = tp_id (m_pool s) ∧ (free s ≤ free s')%nat ∧ (∀ q, pages s' !! q = if decide (q ∈ l) then None else pages s !! q).
Proof.
  revert s. induction l as [|pn l IH]; intros s Hs Hl Hp.
  - exists s. repeat split; try done; try apply Hs; try lia.
  - apply NoDup_cons in Hl as [Hn Hl]. destruct Hs as (Hok & Hpin & Hlk).
    destruct (tp_dispose_ok (m_pool s) pn Hok (Hp pn ltac:(set_solver))) as (p' & n & E & Hok' & Hid & Hfree & Hv & _); [change (pins s !! pn = None); by rewrite Hpin|].
    cbn [forM]. assert (E1 : on_pool (tp_dispose pn) s = Some (SUCCESS, with_pool p' s)) by (unfold on_pool; by rewrite E).
    rewrite bind_assoc, (bind_eq _ _ _ _ _ E1), bind_ret. destruct (IH (with_pool p' s)) as (s' & E2 & Hi & H1 & H2 & H3 & H4 & H5 & H6).
    + split; [done|]. split; [|done]. unfold pins. cbn. by rewrite Hv.
    + done.
    + intros q Hq. unfold pages. cbn. rewrite Hv. cbn. rewrite lookup_delete_ne by (intros ->; done). apply Hp. set_solver.
    + exists s'. split; [done|]. split; [done|]. split; [done|]. split; [done|]. split; [done|]. split; [cbn in H4; congruence|].
      split; [unfold free in *; cbn in H5; rewrite Hv in H5; cbn in H5; lia|]. intros q. rewrite H6. unfold pages. cbn. rewrite Hv. cbn.
      destruct (decide (q = pn)) as [->|Hne]; [rewrite lookup_delete_eq; repeat case_decide; set_solver|].
      rewrite lookup_delete_ne by done. repeat case_decide; set_solver.
Qed.

(** the end of a mini transaction *)
Lemma release_ok s : memo_ok [] s → NoDup (disposed_pages_ s) → (∀ pn, pn ∈ disposed_pages_ s → is_Some (pages s !! pn)) →
  ∃ s', release s = Some (tt, s') ∧ idle s' ∧ items_ s' = [] ∧ disposed_pages_ s' = [] ∧ m_client s' = m_client s ∧ tp_id (m_pool s') = tp_id (m_pool s) ∧
    (free s ≤ free s')%nat ∧ (∀ q, pages s' !! q = if decide (q ∈ disposed_pages_ s) then None else pages s !! q).
Proof.
  intros Hs Hd Hp. destruct (release_to_ok [] (items_ s) [] s Hs ltac:(by rewrite app_nil_r) ordered_nil) as (s1 & E & H1 & []).
  unfold release. rewrite bind_get. unfold memo_point. rewrite (bind_eq _ _ _ _ _ E), bind_get. cbn [items_ with_items disposed_pages_ m_client] in *.
  assert (Hi : idle s1) by (apply idle_holds; destruct H1 as [H1 _ _ _]; by rewrite gb_items0 in H1).
  change (pages (with_items [] s)) with (pages s) in gb_pages0. change (free (with_items [] s)) with (free s) in gb_free0.
  rewrite gb_disposed0. destruct (dispose_all (disposed_pages_ s) s1 Hi Hd) as (s2 & E2 & Hi2 & E3 & E4 & E5 & E6 & E7 & E8); [by rewrite gb_pages0|].
  rewrite (bind_eq _ _ _ _ _ E2). unfold modify. eexists. split; [done|]. destruct Hi2 as (? & ? & ?). split; [done|]. cbn [items_ with_disposed disposed_pages_ m_client m_pool].
  split; [congruence|]. split; [done|]. split; [congruence|]. split; [cbn in *; congruence|]. split; [unfold free in *; cbn in *; lia|]. intros q. change (pages (with_disposed [] s2)) with (pages s2). rewrite E8. by rewrite gb_pages0.
Qed.
End spec.
