(* ===== verification/BplusNode.v ===== *)
(** * BplusNode: the nodes of an index (storage/index/bplus_tree.h, bplus_tree.cpp up to the tree handler)

    A node is the data of a page: the fields [is_leaf], [key_num], [parent], for a leaf
    [next_brother], and the items. The handler classes differ in where the items begin and
    how large they are ([NodeClass]). Every change of a node is noted in the log entries of the
    mini transaction, before it is made. *)
From S2P Require Import Prelude Types Encoding KeyCompare LowerBound LatchMemo.

(** ** The header of an index file *)

Record IndexFileHeader := mkIndexFileHeader {
  root_page : PageNum; internal_max_size : Z; leaf_max_size : Z; attr_length : Z; key_length : Z; attr_type : AttrType;
}.
Definition header_fields (h : IndexFileHeader) : list Z :=
  [root_page h; internal_max_size h; leaf_max_size h; attr_length h; key_length h; attr_type_id (attr_type h)].
Definition enc_index_header (h : IndexFileHeader) : list Z := enc_fields (header_fields h).
Definition IndexFileHeader_SIZE : Z := 24.
Definition dec_index_header (d : list Z) : option IndexFileHeader :=
  root ← field32 d 0; imax ← field32 d 4; lmax ← field32 d 8; alen ← field32 d 12; klen ← field32 d 16;
  t ← field32 d 20; ty ← attr_type_of t;
  Some (mkIndexFileHeader root imax lmax alen klen ty).
Definition with_root (r : PageNum) (h : IndexFileHeader) : IndexFileHeader :=
  mkIndexFileHeader r (internal_max_size h) (leaf_max_size h) (attr_length h) (key_length h) (attr_type h).

(** ** Log entries of a mini transaction: [LogEntryHandler] and its subclasses *)

Inductive LogEntryHandler :=
| InitHeaderPageLogEntryHandler (frame : PageNum) (header : IndexFileHeader)
| UpdateRootPageLogEntryHandler (frame : PageNum) (root_page_num old_page_num : PageNum)
| SetParentPageLogEntryHandler (frame : PageNum) (parent_page_num old_parent_page_num : PageNum)
| LeafInitEmptyLogEntryHandler (frame : PageNum)
| LeafSetNextPageLogEntryHandler (frame : PageNum) (new_page_num old_page_num : PageNum)
| InternalInitEmptyLogEntryHandler (frame : PageNum)
| InternalCreateNewRootLogEntryHandler (frame : PageNum) (first_page_num : PageNum) (key : list Z) (page_num : PageNum)
| InternalUpdateKeyLogEntryHandler (frame : PageNum) (index : Z) (key old_key : list Z)
| NormalOperationLogEntryHandler (frame : PageNum) (insert : bool) (index : Z) (items : list Z) (item_num : Z).

(** what a tree handler and its mini transaction know besides the pool and the memo *)
Record TreeState := mkTreeState {
  opened_ : bool;                     (** [disk_buffer_pool_ != nullptr] *)
  file_header_ : IndexFileHeader;
  header_dirty_ : bool;
  entries_ : list LogEntryHandler;
  need_log_ : bool;
}.

(** [IndexNodeHandler], [LeafIndexNodeHandler], [InternalIndexNodeHandler] *)
Inductive NodeClass : Set := AnyNode | LeafNode | InternalNode.
Definition IndexNode_HEADER_SIZE : Z := 12.
Definition LeafIndexNode_HEADER_SIZE : Z := IndexNode_HEADER_SIZE + 4.
Definition InternalIndexNode_HEADER_SIZE : Z := IndexNode_HEADER_SIZE.
Definition sizeof_RID : Z := 8.
Definition sizeof_PageNum : Z := 4.

Definition calc_internal_page_capacity (attr_length : Z) : Z :=
  let item_size := attr_length + sizeof_RID + sizeof_PageNum in
  Z.quot (BP_PAGE_DATA_SIZE - InternalIndexNode_HEADER_SIZE) item_size.
Definition calc_leaf_page_capacity (attr_length : Z) : Z :=
  let item_size := attr_length + sizeof_RID + sizeof_RID in
  Z.quot (BP_PAGE_DATA_SIZE - LeafIndexNode_HEADER_SIZE) item_size.

Definition key_size (h : IndexFileHeader) : Z := key_length h.
Definition value_size (c : NodeClass) : Z := match c with InternalNode => sizeof_PageNum | _ => sizeof_RID end.
Definition item_size (c : NodeClass) (h : IndexFileHeader) : Z := key_size h + value_size c.
(** [__item_at]: the offset in the page, [None] for the null pointer of the base class *)
Definition item_at (c : NodeClass) (h : IndexFileHeader) (index : Z) : option Z :=
  match c with
  | AnyNode => None
  | LeafNode => Some (LeafIndexNode_HEADER_SIZE + index * item_size c h)
  | InternalNode => Some (InternalIndexNode_HEADER_SIZE + index * item_size c h)
  end.

Inductive BplusTreeOperationType : Set := READ | INSERT | DELETE.

Section node.
Context {P : Type} `{TP : TreePool P}.
Abbreviation St := (Memo P TreeState).

Definition tree_state : M St TreeState := λ s, Some (m_client s, s).
Definition file_header : M St IndexFileHeader := λ s, Some (file_header_ (m_client s), s).
Definition set_tree (f : TreeState → TreeState) : M St unit := modify (λ s, with_client (f (m_client s)) s).
Definition with_file_header (h : IndexFileHeader) (t : TreeState) : TreeState := mkTreeState (opened_ t) h (header_dirty_ t) (entries_ t) (need_log_ t).
Definition with_opened (b : bool) (t : TreeState) : TreeState := mkTreeState b (file_header_ t) (header_dirty_ t) (entries_ t) (need_log_ t).
Definition with_header_dirty (b : bool) (t : TreeState) : TreeState := mkTreeState (opened_ t) (file_header_ t) b (entries_ t) (need_log_ t).
Definition with_entries (l : list LogEntryHandler) (t : TreeState) : TreeState := mkTreeState (opened_ t) (file_header_ t) (header_dirty_ t) l (need_log_ t).
Definition with_need_log (b : bool) (t : TreeState) : TreeState := mkTreeState (opened_ t) (file_header_ t) (header_dirty_ t) (entries_ t) b.

(** [key_comparator_], initialised from the file header *)
Definition comparator (h : IndexFileHeader) : list Z → list Z → Z := key_comparator (attr_type h) (attr_length h).

(** [BplusTreeLogger::append_log_entry]; the member functions that build the entries are
    written out where they are called *)
Definition append_log_entry (e : LogEntryHandler) : M St RC :=
  let* t := tree_state in
  if negb (need_log_ t) then ret SUCCESS
  else set_tree (with_entries (entries_ t ++ [e])) ;;; ret SUCCESS.

(** memory of a page *)
Definition data (pn : PageNum) : M St (list Z) := let* s := get in liftO (tp_data pn (m_pool s)).
Definition store (pn : PageNum) (d : list Z) : M St unit := on_pool (tp_store pn d).
Definition memcpy_to (pn : PageNum) (off : option Z) (src : list Z) : M St unit :=
  let* d := data pn in
  let* o := liftO off in
  let* d := liftO (mem_write d o src) in
  store pn d.
Definition memory_at (pn : PageNum) (off : option Z) (n : Z) : M St (list Z) :=
  let* d := data pn in
  let* o := liftO off in
  liftO (mem_read d o n).
Definition memmove (pn : PageNum) (dst src : option Z) (n : Z) : M St unit :=
  let* bs := memory_at pn src n in
  memcpy_to pn dst bs.
Definition read_int (pn : PageNum) (off : Z) : M St Z := let* d := data pn in liftO (field32 d off).
Definition write_int (pn : PageNum) (off v : Z) : M St unit := memcpy_to pn (Some off) (enc32 v).
Definition mark_dirty (pn : PageNum) : M St unit := on_pool (tp_mark_dirty pn).

(** ** IndexNodeHandler *)

Definition is_leaf (pn : PageNum) : M St bool := let* d := data pn in let* b := liftO (rd d 0) in ret (negb (b =? 0)).
Definition size (pn : PageNum) : M St Z := read_int pn 4.
Definition parent_page_num (pn : PageNum) : M St PageNum := read_int pn 8.
Definition init_empty (pn : PageNum) (leaf : bool) : M St unit :=
  memcpy_to pn (Some 0) [if leaf then 1 else 0] ;;;
  write_int pn 4 0 ;;;
  write_int pn 8 BP_INVALID_PAGE_NUM.
Definition max_size (pn : PageNum) : M St Z :=
  let* h := file_header in
  let* l := is_leaf pn in
  ret (if l then leaf_max_size h else internal_max_size h).
Definition min_size (pn : PageNum) : M St Z := let* max := max_size pn in ret (max - Z.quot max 2).
Definition increase_size (pn : PageNum) (n : Z) : M St unit :=
  let* k := size pn in write_int pn 4 (wrap32 (k + n)).
Definition set_parent_page_num (pn : PageNum) (page_num : PageNum) : M St RC :=
  let* old := parent_page_num pn in
  append_log_entry (SetParentPageLogEntryHandler pn page_num old) ;;;
  write_int pn 8 page_num ;;;
  ret SUCCESS.
Definition is_safe (pn : PageNum) (op : BplusTreeOperationType) (is_root_node : bool) : M St bool :=
  match op with
  | READ => ret true
  | INSERT => let* n := size pn in let* max := max_size pn in ret (n <? max)
  | DELETE =>
      if is_root_node then
        let* l := is_leaf pn in
        let* n := size pn in
        if l then ret (1 <? n) else ret (2 <? n)
      else let* n := size pn in let* min := min_size pn in ret (min <? n)
  end.
Definition node_validate (pn : PageNum) : M St bool :=
  let* p := parent_page_num pn in
  if p =? BP_INVALID_PAGE_NUM then
    let* n := size pn in
    if n <? 1 then ret false
    else
      let* l := is_leaf pn in
      ret (negb (negb l && (n <? 2)))
  else ret true.
Definition recover_insert_items (c : NodeClass) (pn : PageNum) (index : Z) (items : list Z) (num : Z) : M St RC :=
  let* h := file_header in
  let sz := item_size c h in
  let* n := size pn in
  (if index <? n then memmove pn (item_at c h (index + num)) (item_at c h index) ((n - index) * sz) else ret tt) ;;;
  let* bs := liftO (mem_read items 0 (num * sz)) in
  memcpy_to pn (item_at c h index) bs ;;;
  increase_size pn num ;;;
  ret SUCCESS.
Definition recover_remove_items (c : NodeClass) (pn : PageNum) (index num : Z) : M St RC :=
  let* h := file_header in
  let sz := item_size c h in
  let* n := size pn in
  (if index <? n - num then memmove pn (item_at c h index) (item_at c h (index + num)) ((n - index - num) * sz) else ret tt) ;;;
  increase_size pn (- num) ;;;
  ret SUCCESS.

(** the items of a node, as bytes of the page *)
Definition items_at (c : NodeClass) (pn : PageNum) (index num : Z) : M St (list Z) :=
  let* h := file_header in memory_at pn (item_at c h index) (num * item_size c h).
Definition raw_key_at (c : NodeClass) (pn : PageNum) (index : Z) : M St (list Z) :=
  let* h := file_header in memory_at pn (item_at c h index) (key_size h).
Definition value_offset (c : NodeClass) (h : IndexFileHeader) (index : Z) : option Z := o ← item_at c h index; Some (o + key_size h).
Definition raw_value_at (c : NodeClass) (pn : PageNum) (index : Z) : M St (list Z) :=
  let* h := file_header in memory_at pn (value_offset c h index) (value_size c).
Definition in_node (pn : PageNum) (index : Z) : M St unit :=
  let* n := size pn in assertM ((0 <=? index) && (index <? n)).
Definition key_at (c : NodeClass) (pn : PageNum) (index : Z) : M St (list Z) := in_node pn index ;;; raw_key_at c pn index.
(** the binary search from item [first] on, [count] items *)
Definition search (c : NodeClass) (pn : PageNum) (first count : Z) (key : list Z) : M St (Z * bool) :=
  let* h := file_header in
  let* d := data pn in
  liftO (lower_bound (λ i, o ← item_at c h (first + i); k ← mem_read d o (key_size h); Some (comparator h k key)) count).

(** ** LeafIndexNodeHandler *)

Definition next_page (pn : PageNum) : M St PageNum := read_int pn 12.
Definition leaf_init_empty (pn : PageNum) : M St RC :=
  append_log_entry (LeafInitEmptyLogEntryHandler pn) ;;;
  init_empty pn true ;;;
  write_int pn 12 BP_INVALID_PAGE_NUM ;;;
  ret SUCCESS.
Definition set_next_page (pn : PageNum) (page_num : PageNum) : M St RC :=
  let* old := next_page pn in
  append_log_entry (LeafSetNextPageLogEntryHandler pn page_num old) ;;;
  write_int pn 12 page_num ;;;
  ret SUCCESS.
Definition leaf_value_at (pn : PageNum) (index : Z) : M St (list Z) := in_node pn index ;;; raw_value_at LeafNode pn index.
Definition leaf_lookup (pn : PageNum) (key : list Z) : M St (Z * bool) :=
  let* n := size pn in search LeafNode pn 0 n key.
Definition leaf_insert (pn : PageNum) (index : Z) (key value : list Z) : M St RC :=
  let* h := file_header in
  let* k := liftO (mem_read key 0 (key_size h)) in
  let* v := liftO (mem_read value 0 (value_size LeafNode)) in
  let item := k ++ v in
  append_log_entry (NormalOperationLogEntryHandler pn true index item 1) ;;;
  recover_insert_items LeafNode pn index item 1 ;;;
  ret SUCCESS.
Definition leaf_remove (pn : PageNum) (index : Z) : M St RC :=
  in_node pn index ;;;
  let* item := items_at LeafNode pn index 1 in
  append_log_entry (NormalOperationLogEntryHandler pn false index item 1) ;;;
  recover_remove_items LeafNode pn index 1 ;;;
  ret SUCCESS.
Definition leaf_remove_key (pn : PageNum) (key : list Z) : M St Z :=
  let* r := leaf_lookup pn key in
  if r.2 : bool then leaf_remove pn r.1 ;;; ret 1 else ret 0.
Definition leaf_append (pn : PageNum) (items : list Z) (num : Z) : M St RC :=
  let* n := size pn in
  append_log_entry (NormalOperationLogEntryHandler pn true n items num) ;;;
  let* n := size pn in
  recover_insert_items LeafNode pn n items num.
Definition leaf_preappend (pn : PageNum) (item : list Z) : M St RC :=
  let* h := file_header in
  leaf_insert pn 0 item (drop (Z.to_nat (key_size h)) item).
Definition leaf_move_half_to (pn other : PageNum) : M St RC :=
  let* n := size pn in
  let move_index := Z.quot n 2 in
  let move_item_num := n - move_index in
  let* items := items_at LeafNode pn move_index move_item_num in
  leaf_append other items move_item_num ;;;
  let* items := items_at LeafNode pn move_index move_item_num in
  append_log_entry (NormalOperationLogEntryHandler pn false move_index items move_item_num) ;;;
  recover_remove_items LeafNode pn move_index move_item_num ;;;
  ret SUCCESS.
Definition leaf_move_first_to_end (pn other : PageNum) : M St RC :=
  let* item := items_at LeafNode pn 0 1 in
  leaf_append other item 1 ;;;
  leaf_remove pn 0.
Definition leaf_move_last_to_front (pn other : PageNum) : M St RC :=
  let* n := size pn in
  let* item := items_at LeafNode pn (n - 1) 1 in
  leaf_preappend other item ;;;
  let* n := size pn in
  leaf_remove pn (n - 1) ;;;
  ret SUCCESS.
Definition leaf_move_to (pn other : PageNum) : M St RC :=
  let* n := size pn in
  let* items := items_at LeafNode pn 0 n in
  leaf_append other items n ;;;
  let* next := next_page pn in
  set_next_page other next ;;;
  let* n := size pn in
  let* items := items_at LeafNode pn 0 n in
  append_log_entry (NormalOperationLogEntryHandler pn false 0 items n) ;;;
  increase_size pn (- n) ;;;
  ret SUCCESS.

(** ** InternalIndexNodeHandler *)

Definition page_num_bytes (pn : PageNum) : list Z := enc32 pn.
Definition internal_init_empty (pn : PageNum) : M St RC :=
  append_log_entry (InternalInitEmptyLogEntryHandler pn) ;;;
  init_empty pn false ;;;
  ret SUCCESS.
Definition create_new_root (pn : PageNum) (first_page_num : PageNum) (key : list Z) (page_num : PageNum) : M St RC :=
  let* h := file_header in
  let* k := liftO (mem_read key 0 (key_size h)) in
  append_log_entry (InternalCreateNewRootLogEntryHandler pn first_page_num k page_num) ;;;
  memcpy_to pn (item_at InternalNode h 0) (replicate (Z.to_nat (key_size h)) 0) ;;;
  memcpy_to pn (value_offset InternalNode h 0) (page_num_bytes first_page_num) ;;;
  memcpy_to pn (item_at InternalNode h 1) k ;;;
  memcpy_to pn (value_offset InternalNode h 1) (page_num_bytes page_num) ;;;
  increase_size pn 2 ;;;
  ret SUCCESS.
(** the child that belongs to the key, whether the key is there, where it would be inserted *)
Definition internal_lookup (pn : PageNum) (key : list Z) : M St (Z * bool * Z) :=
  let* n := size pn in
  if n =? 0 then ret (0, false, 1)
  else
    let* r := search InternalNode pn 1 (n - 1) key in
    let pos := r.1 + 1 in
    if n <=? pos then ret (pos - 1, r.2, pos)
    else
      let* h := file_header in
      let* k := raw_key_at InternalNode pn pos in
      ret (if comparator h key k <? 0 then pos - 1 else pos, r.2, pos).
Definition internal_value_at (pn : PageNum) (index : Z) : M St PageNum :=
  in_node pn index ;;;
  let* bs := raw_value_at InternalNode pn index in
  ret (dec32 bs).
Fixpoint value_index_loop (n : nat) (pn : PageNum) (i : Z) (page_num : PageNum) : M St Z :=
  match n with
  | O => ret (-1)
  | S n =>
      let* bs := raw_value_at InternalNode pn i in
      if page_num =? dec32 bs then ret i else value_index_loop n pn (i + 1) page_num
  end.
Definition value_index (pn : PageNum) (page_num : PageNum) : M St Z :=
  let* n := size pn in value_index_loop (Z.to_nat n) pn 0 page_num.
Definition set_key_at (pn : PageNum) (index : Z) (key : list Z) : M St unit :=
  in_node pn index ;;;
  let* h := file_header in
  let* k := liftO (mem_read key 0 (key_size h)) in
  let* old := raw_key_at InternalNode pn index in
  append_log_entry (InternalUpdateKeyLogEntryHandler pn index k old) ;;;
  memcpy_to pn (item_at InternalNode h index) k.
Definition internal_insert (pn : PageNum) (key : list Z) (page_num : PageNum) : M St RC :=
  let* r := internal_lookup pn key in
  let insert_position := r.2 in
  let* h := file_header in
  let* k := liftO (mem_read key 0 (key_size h)) in
  let item := k ++ page_num_bytes page_num in
  append_log_entry (NormalOperationLogEntryHandler pn true insert_position item 1) ;;;
  recover_insert_items InternalNode pn insert_position item 1.
Definition internal_remove (pn : PageNum) (index : Z) : M St unit :=
  in_node pn index ;;;
  let* item := items_at InternalNode pn index 1 in
  append_log_entry (NormalOperationLogEntryHandler pn false index item 1) ;;;
  recover_remove_items InternalNode pn index 1 ;;;
  ret tt.
(** the loop of [insert_items]: the pages of the moved items get a new parent *)
Fixpoint set_parents (n : nat) (i : Z) (items : list Z) (this_page_num : PageNum) : M St RC :=
  match n with
  | O => ret SUCCESS
  | S n =>
      let* h := file_header in
      let* bs := liftO (mem_read items (i * item_size InternalNode h + key_size h) sizeof_PageNum) in
      let page_num := dec32 bs in
      let* rc := get_page page_num in
      if OB_FAIL rc then ret rc
      else
        set_parent_page_num page_num this_page_num ;;;
        mark_dirty page_num ;;;
        set_parents n (i + 1) items this_page_num
  end.
Definition insert_items (pn : PageNum) (index : Z) (items : list Z) (num : Z) : M St RC :=
  append_log_entry (NormalOperationLogEntryHandler pn true index items num) ;;;
  recover_insert_items InternalNode pn index items num ;;;
  set_parents (Z.to_nat num) 0 items pn.
Definition internal_append (pn : PageNum) (items : list Z) (num : Z) : M St RC :=
  let* n := size pn in insert_items pn n items num.
Definition internal_preappend (pn : PageNum) (item : list Z) : M St RC := insert_items pn 0 item 1.
Definition internal_move_half_to (pn other : PageNum) : M St RC :=
  let* n := size pn in
  let move_index := Z.quot n 2 in
  let move_num := n - move_index in
  let* items := items_at InternalNode pn move_index move_num in
  let* rc := internal_append other items move_num in
  if OB_FAIL rc then ret rc
  else
    let* items := items_at InternalNode pn move_index move_num in
    append_log_entry (NormalOperationLogEntryHandler pn false move_index items move_num) ;;;
    increase_size pn (- (n - move_index)) ;;;
    ret rc.
Definition internal_move_to (pn other : PageNum) : M St RC :=
  let* n := size pn in
  let* items := items_at InternalNode pn 0 n in
  let* rc := internal_append other items n in
  if OB_FAIL rc then ret rc
  else
    let* n := size pn in
    let* items := items_at InternalNode pn 0 n in
    append_log_entry (NormalOperationLogEntryHandler pn false 0 items n) ;;;
    recover_remove_items InternalNode pn 0 n ;;;
    ret SUCCESS.
Definition internal_move_first_to_end (pn other : PageNum) : M St RC :=
  let* item := items_at InternalNode pn 0 1 in
  let* rc := internal_append other item 1 in
  if OB_FAIL rc then ret rc
  else internal_remove pn 0 ;;; ret rc.
Definition internal_move_last_to_front (pn other : PageNum) : M St RC :=
  let* n := size pn in
  let* item := items_at InternalNode pn (n - 1) 1 in
  let* rc := internal_preappend other item in
  if OB_FAIL rc then ret rc
  else
    let* n := size pn in
    let* item := items_at InternalNode pn (n - 1) 1 in
    append_log_entry (NormalOperationLogEntryHandler pn false (n - 1) item 1) ;;;
    increase_size pn (-1) ;;;
    ret SUCCESS.
End node.
