(* ===== verification/BplusLog.v ===== *)
(** * BplusLog: the log of an index (storage/index/bplus_tree_log.cpp, bplus_tree_log_entry.cpp)

    A mini transaction collects the changes an operation makes. When the operation
    succeeds they become one entry of the commit log; when it fails they are undone. Here are
    the format of the entry, commit, rollback, redo, and the parts of the tree handler that
    they call. *)
From S2P Require Import Prelude Types Encoding LogHandler KeyCompare LatchMemo BplusNode.

(** ** The format: [Serializer], [Deserializer], [serialize], [deserialize] *)

Definition operation_index (e : LogEntryHandler) : Z :=
  match e with
  | InitHeaderPageLogEntryHandler _ _ => 0
  | UpdateRootPageLogEntryHandler _ _ _ => 1
  | SetParentPageLogEntryHandler _ _ _ => 2
  | LeafInitEmptyLogEntryHandler _ => 3
  | LeafSetNextPageLogEntryHandler _ _ _ => 4
  | InternalInitEmptyLogEntryHandler _ => 5
  | InternalCreateNewRootLogEntryHandler _ _ _ _ => 6
  | InternalUpdateKeyLogEntryHandler _ _ _ _ => 7
  | NormalOperationLogEntryHandler _ insert _ _ _ => if insert then 8 else 9
  end.
Definition entry_frame (e : LogEntryHandler) : PageNum :=
  match e with
  | InitHeaderPageLogEntryHandler f _ | UpdateRootPageLogEntryHandler f _ _ | SetParentPageLogEntryHandler f _ _
  | LeafInitEmptyLogEntryHandler f | LeafSetNextPageLogEntryHandler f _ _ | InternalInitEmptyLogEntryHandler f
  | InternalCreateNewRootLogEntryHandler f _ _ _ | InternalUpdateKeyLogEntryHandler f _ _ _
  | NormalOperationLogEntryHandler f _ _ _ _ => f
  end.
Definition serialize_header (e : LogEntryHandler) : list Z := enc32 (operation_index e) ++ enc32 (entry_frame e).
Definition serialize_body (e : LogEntryHandler) : list Z :=
  match e with
  | InitHeaderPageLogEntryHandler _ h => enc_index_header h
  | UpdateRootPageLogEntryHandler _ root _ => enc32 root
  | SetParentPageLogEntryHandler _ parent _ => enc32 parent
  | LeafInitEmptyLogEntryHandler _ | InternalInitEmptyLogEntryHandler _ => []
  | LeafSetNextPageLogEntryHandler _ next _ => enc32 next
  | InternalCreateNewRootLogEntryHandler _ first key page => enc32 first ++ enc32 page ++ enc32 (len key) ++ key
  | InternalUpdateKeyLogEntryHandler _ index key _ => enc32 index ++ enc32 (len key) ++ key
  | NormalOperationLogEntryHandler _ _ index items num => enc32 index ++ enc32 num ++ enc32 (len items) ++ items
  end.
Definition serialize (e : LogEntryHandler) : list Z := serialize_header e ++ serialize_body e.

(** [Deserializer::read]: the bytes and the rest of the buffer, or -1 *)
Definition read_bytes (n : Z) (buf : list Z) : option (list Z * list Z) :=
  if len buf <? n then None else Some (take (Z.to_nat n) buf, drop (Z.to_nat n) buf).
Definition read_int32 (buf : list Z) : option (Z * list Z) :=
  r ← read_bytes 4 buf; Some (dec32 r.1, r.2).
(** a vector of the length that was read, and its bytes; a negative length ends the process *)
Definition read_vector (buf : list Z) : option (option (list Z * list Z)) :=
  match read_int32 buf with
  | None => Some None
  | Some (n, buf) => if n <? 0 then None else Some (read_bytes n buf)
  end.

(** the [deserialize] of each class: the result code with the entry and the rest of the buffer *)
Definition deserialize (op : Z) (f : PageNum) (buf : list Z) : option (RC * option (LogEntryHandler * list Z)) :=
  let int k := Some (match read_int32 buf with Some (v, rest) => (SUCCESS, Some (k v, rest)) | None => (INTERNAL, None) end) in
  match op with
  | 0 =>
      match read_bytes IndexFileHeader_SIZE buf with
      | Some (bs, rest) => h ← dec_index_header bs; Some (SUCCESS, Some (InitHeaderPageLogEntryHandler f h, rest))
      | None => Some (INTERNAL, None)
      end
  | 1 => int (λ root, UpdateRootPageLogEntryHandler f root (-1))
  | 2 => int (λ parent, SetParentPageLogEntryHandler f parent (-1))
  | 3 => Some (SUCCESS, Some (LeafInitEmptyLogEntryHandler f, buf))
  | 4 => int (λ next, LeafSetNextPageLogEntryHandler f next (-1))
  | 5 => Some (SUCCESS, Some (InternalInitEmptyLogEntryHandler f, buf))
  | 6 =>
      match read_int32 buf with
      | None => Some (INTERNAL, None)
      | Some (first, buf) =>
          match read_int32 buf with
          | None => Some (INTERNAL, None)
          | Some (page, buf) =>
              r ← read_vector buf;
              Some (match r with Some (key, rest) => (SUCCESS, Some (InternalCreateNewRootLogEntryHandler f first key page, rest)) | None => (INTERNAL, None) end)
          end
      end
  | 7 =>
      match read_int32 buf with
      | None => Some (INTERNAL, None)
      | Some (index, buf) =>
          r ← read_vector buf;
          Some (match r with Some (key, rest) => (SUCCESS, Some (InternalUpdateKeyLogEntryHandler f index key [], rest)) | None => (INTERNAL, None) end)
      end
  | _ =>
      match read_int32 buf with
      | None => Some (INTERNAL, None)
      | Some (index, buf) =>
          match read_int32 buf with
          | None => Some (INTERNAL, None)
          | Some (num, buf) =>
              r ← read_vector buf;
              Some (match r with Some (items, rest) => (SUCCESS, Some (NormalOperationLogEntryHandler f (op =? 8) index items num, rest)) | None => (INTERNAL, None) end)
          end
      end
  end.

(** the payload of the entry that a mini transaction writes *)
Definition mtr_payload (buffer_pool_id : Z) (es : list LogEntryHandler) : list Z := enc32 buffer_pool_id ++ mjoin (serialize <$> es).

Definition FIRST_INDEX_PAGE : PageNum := 1.

Section log.
Context {P : Type} `{TP : TreePool P}.
Abbreviation St := (Memo P TreeState).

(** ** The parts of [BplusTreeHandler] that change the header page *)

Definition update_root_page_num_locked (root_page_num : PageNum) : M St unit :=
  let* rc := get_page FIRST_INDEX_PAGE in
  assertM (OB_SUCC rc) ;;;
  xlatch FIRST_INDEX_PAGE ;;;
  let* old := read_int FIRST_INDEX_PAGE 0 in
  append_log_entry (UpdateRootPageLogEntryHandler FIRST_INDEX_PAGE root_page_num old) ;;;
  write_int FIRST_INDEX_PAGE 0 root_page_num ;;;
  set_tree (λ t, with_header_dirty true (with_file_header (with_root root_page_num (file_header_ t)) t)) ;;;
  mark_dirty FIRST_INDEX_PAGE.
Definition recover_update_root_page (root_page_num : PageNum) : M St RC :=
  update_root_page_num_locked root_page_num ;;; ret SUCCESS.
Definition recover_init_header_page (f : PageNum) (h : IndexFileHeader) : M St RC :=
  memcpy_to f (Some 0) (enc_index_header h) ;;;
  set_tree (λ t, with_header_dirty false (with_file_header h t)) ;;;
  mark_dirty f ;;;
  ret SUCCESS.

(** ** Undoing and redoing one entry *)

Definition rollback_entry (e : LogEntryHandler) : M St RC :=
  match e with
  | InitHeaderPageLogEntryHandler _ _ | LeafInitEmptyLogEntryHandler _ | InternalInitEmptyLogEntryHandler _
  | InternalCreateNewRootLogEntryHandler _ _ _ _ => ret SUCCESS
  | UpdateRootPageLogEntryHandler _ _ old => recover_update_root_page old
  | SetParentPageLogEntryHandler f _ old => set_parent_page_num f old
  | LeafSetNextPageLogEntryHandler f _ old => set_next_page f old ;;; ret SUCCESS
  | InternalUpdateKeyLogEntryHandler f index _ old_key => set_key_at f index old_key ;;; ret SUCCESS
  | NormalOperationLogEntryHandler f insert index items num =>
      if insert : bool then recover_remove_items AnyNode f index num else recover_insert_items AnyNode f index items num
  end.
Definition redo_entry (e : LogEntryHandler) : M St RC :=
  match e with
  | InitHeaderPageLogEntryHandler f h => recover_init_header_page f h
  | UpdateRootPageLogEntryHandler _ root _ => recover_update_root_page root
  | SetParentPageLogEntryHandler f parent _ => set_parent_page_num f parent
  | LeafInitEmptyLogEntryHandler f => leaf_init_empty f
  | LeafSetNextPageLogEntryHandler f next _ => set_next_page f next ;;; ret SUCCESS
  | InternalInitEmptyLogEntryHandler f => internal_init_empty f
  | InternalCreateNewRootLogEntryHandler f first key page => create_new_root f first key page
  | InternalUpdateKeyLogEntryHandler f index key _ => set_key_at f index key ;;; ret SUCCESS
  | NormalOperationLogEntryHandler f insert index items num =>
      let* l := is_leaf f in
      let c := if l : bool then LeafNode else InternalNode in
      if insert : bool then recover_insert_items c f index items num else recover_remove_items c f index num
  end.

(** ** BplusTreeLogger *)

Definition commit : M St RC :=
  let* t := tree_state in
  match entries_ t with
  | [] => ret SUCCESS
  | _ :: _ =>
      let* s := get in
      let* r := on_pool (tp_append (mtr_payload (tp_id (m_pool s)) (entries_ t))) in
      if negb (bool_decide (r.1 = SUCCESS)) then ret r.1
      else
        forM (entries_ t) (λ e, on_pool (tp_set_lsn (entry_frame e) r.2)) ;;;
        set_tree (with_entries []) ;;;
        ret SUCCESS
  end.
Definition rollback : M St RC :=
  set_tree (with_need_log false) ;;;
  let* t := tree_state in
  forM (reverse (entries_ t)) (λ e, rollback_entry e ;;; ret tt) ;;;
  set_tree (with_entries []) ;;;
  set_tree (with_need_log true) ;;;
  ret SUCCESS.

(** ** BplusTreeMiniTransaction *)

(** the destructor: its body, then those of the logger and of the memo *)
Definition end_mtr (operation_result : option RC) : M St unit :=
  match operation_result with
  | Some rc => if OB_SUCC rc then commit ;;; ret tt else rollback ;;; ret tt
  | None => ret tt
  end ;;;
  commit ;;;
  release.
(** the scope of a mini transaction; one that is open around it is not touched *)
Definition begin_mtr : M St unit := λ s,
  Some (tt, mkMemo (m_pool s) (m_locks s) [] [] (with_need_log true (with_entries [] (m_client s)))).
Definition outer_mtr (o : St) : M St unit := λ s,
  Some (tt, mkMemo (m_pool s) (m_locks s) (items_ o) (disposed_pages_ o) (with_need_log (need_log_ (m_client o)) (with_entries (entries_ (m_client o)) (m_client s)))).
Definition in_mtr {A} (result : A → option RC) (body : M St A) : M St A :=
  let* o := get in
  begin_mtr ;;;
  let* a := body in
  end_mtr (result a) ;;;
  outer_mtr o ;;;
  ret a.

(** ** Opening a tree, as far as redo needs it *)

Definition tree_close : M St RC :=
  let* t := tree_state in
  (if opened_ t then on_pool tp_close ;;; ret tt else ret tt) ;;;
  set_tree (with_opened false) ;;;
  ret SUCCESS.
Definition tree_open : M St RC :=
  let* t := tree_state in
  if opened_ t then ret RECORD_OPENNED
  else
    let* rc := on_pool (tp_get FIRST_INDEX_PAGE) in
    if OB_FAIL rc then ret rc
    else
      let* d := data FIRST_INDEX_PAGE in
      let* h := liftO (dec_index_header d) in
      set_tree (λ t, with_opened true (with_header_dirty false (with_file_header h t))) ;;;
      if key_length h <=? 0 then tree_close ;;; ret NOMEM
      else unpin_page FIRST_INDEX_PAGE ;;; ret SUCCESS.

(** ** Redo *)

Definition from_buffer (buf : list Z) : M St (RC * option (LogEntryHandler * list Z)) :=
  match read_int32 buf with
  | None => ret (INVALID_ARGUMENT, None)
  | Some (op, buf) =>
      if (op <? 0) || (10 <=? op) then ret (INVALID_ARGUMENT, None)
      else
        match read_int32 buf with
        | None => ret (INVALID_ARGUMENT, None)
        | Some (pn, buf) =>
            let* rc := on_pool (tp_get pn) in
            if OB_FAIL rc then ret (rc, None) else liftO (deserialize op pn buf)
        end
  end.
(** every round takes at least 8 bytes off the buffer *)
Fixpoint redo_loop (n : nat) (lsn : LSN) (buf : list Z) (frames : list PageNum) : M St (RC * list PageNum) :=
  match buf, n with
  | [], _ => ret (SUCCESS, frames)
  | _, O => abort
  | _, S n =>
      let* r := from_buffer buf in
      match r with
      | (SUCCESS, Some (e, buf)) =>
          let f := entry_frame e in
          let* s := get in
          let* l := liftO (tp_lsn f (m_pool s)) in
          if lsn <=? l then unpin_page f ;;; redo_loop n lsn buf frames
          else
            let* rc := redo_entry e in
            if OB_FAIL rc then ret (rc, frames ++ [f]) else redo_loop n lsn buf (frames ++ [f])
      | (rc, _) => ret (rc, frames)
      end
  end.
Definition __redo (lsn : LSN) (buf : list Z) : M St RC :=
  set_tree (with_need_log false) ;;;
  let* r := redo_loop (length buf) lsn buf [] in
  (if OB_SUCC r.1 then forM r.2 (λ f, on_pool (tp_set_lsn f lsn) ;;; unpin_page f ;;; ret tt) else ret tt) ;;;
  set_tree (with_need_log true) ;;;
  ret SUCCESS.
(** [BplusTreeLogger::redo]: a tree handler of its own, on the pool whose id the entry names;
    the manager knows this pool only *)
Definition redo (e : LogRec) : M St RC :=
  assertM (bool_decide (lr_module e = BPLUS_TREE)) ;;;
  match read_int32 (lr_data e) with
  | None => ret IOERR_READ
  | Some (i, buf) =>
      let* s := get in
      if negb (i =? tp_id (m_pool s)) then ret INTERNAL
      else
        let outer := m_client s in
        set_tree (λ t, mkTreeState false (file_header_ t) false [] true) ;;;
        let* rc := tree_open in
        let* rc := (if OB_FAIL rc then ret rc
                    else in_mtr (λ _, None) (let* rc := __redo (lr_lsn e) buf in
                                             let* t := tree_state in
                                             assertM (bool_decide (length (entries_ t) = O)) ;;; ret rc)) in
        set_tree (λ _, outer) ;;;
        ret rc
  end.
(** [BplusTreeLogReplayer] *)
Definition bplus_replay (e : LogRec) : M St RC := redo e.
End log.
