(* ===== verification/BplusNodeSpec.v ===== *)
(** * BplusNodeSpec: the bytes of a node

    [raw_node b p x sz raws d]: the page data [d] is a node of kind [b] with parent [p], whose
    header goes on with [x] and whose items are the byte strings [raws], all of size [sz]. The
    operations on memory insert into and remove from that list. *)
From S2P Require Import Prelude Types Encoding KeyCompare LowerBound LatchMemo LatchMemoSpec BplusNode BplusLog.

Lemma mem_write_app {A} (l1 l2 l3 l2' : list A) : len l2' = len l2 → mem_write (l1 ++ l2 ++ l3) (len l1) l2' = Some (l1 ++ l2' ++ l3).
Proof.
  intros Hl. unfold mem_write. rewrite decide_True by (rewrite !len_app; unfold len in *; lia). f_equal. unfold len in *.
  rewrite take_app_length' by lia. do 2 f_equal. rewrite app_assoc. apply drop_app_length'. rewrite length_app. lia.
Qed.
Lemma mem_read_all {A} (l : list A) : mem_read l 0 (len l) = Some l.
Proof. unfold mem_read. rewrite decide_True by (unfold len; lia). f_equal. rewrite drop_0. apply take_ge. unfold len. lia. Qed.
Lemma mem_read_prefix {A} (l1 l2 : list A) n : n = len l1 → mem_read (l1 ++ l2) 0 n = Some l1.
Proof. intros ->. apply (mem_read_app [] l1 l2). Qed.

(** ** Lists of items of one size *)

Definition all_size (sz : Z) (raws : list (list Z)) : Prop := Forall (λ r, len r = sz) raws.
Abbreviation bytes_of := (@mjoin list list_join Z).
Lemma len_bytes sz raws : all_size sz raws → len (bytes_of raws) = len raws * sz.
Proof. induction 1 as [|r raws Hr _ IH]; [done|]. change (bytes_of (r :: raws)) with (r ++ bytes_of raws). rewrite len_app, IH, Hr. unfold len. cbn [length]. lia. Qed.
Lemma bytes_app (r1 r2 : list (list Z)) : bytes_of (r1 ++ r2) = bytes_of r1 ++ bytes_of r2.
Proof. apply join_app. Qed.
Lemma all_size_app sz r1 r2 : all_size sz (r1 ++ r2) ↔ all_size sz r1 ∧ all_size sz r2.
Proof. apply Forall_app. Qed.

Definition raw_node (b : Z) (p : PageNum) (x : list Z) (sz : Z) (raws : list (list Z)) (d : list Z) : Prop :=
  ∃ pad junk, len pad = 3 ∧ d = ([b] ++ pad) ++ enc32 (len raws) ++ enc32 p ++ x ++ bytes_of raws ++ junk ∧
    in_int32 p ∧ in_int32 (len raws) ∧ all_size sz raws.

Section state.
Context {P X : Type} `{TL : TreePoolLaws P}.
Implicit Types (s : Memo P X).

(** the page is in memory with these bytes *)
Definition at_page s (pn : PageNum) (d : list Z) : Prop :=
  tp_ok (m_pool s) ∧ tp_memory (m_pool s) pn ∧ ∃ l, pages s !! pn = Some (mkTPage l d).
Lemma at_page_held ex s pn g : memo_ok ex s → held s pn → pages s !! pn = Some g → at_page s pn (tpg_data g).
Proof. intros Hs Hh Hg. split; [by apply (mo_pool ex)|]. split; [by apply (held_page ex s pn Hs)|]. exists (tpg_lsn g). by destruct g. Qed.
Lemma at_page_len s pn d : at_page s pn d → len d = tp_page_size ∧ 0 < pn < 2 ^ 31.
Proof. intros (Hok & _ & l & Hg). apply (tp_size_ok _ _ _ Hok Hg). Qed.
Lemma at_page_fun s pn d d' : at_page s pn d → at_page s pn d' → d = d'.
Proof. intros (_ & _ & l & H1) (_ & _ & l' & H2). congruence. Qed.
End state.

Section node.
Context {P : Type} `{TL : TreePoolLaws P}.
Abbreviation St := (Memo P TreeState).
Implicit Types (s : St).

(** only the data of page [pn] and the log entries change *)
Record wrote (pn : PageNum) (d : list Z) s s' : Prop := {
  wr_ok : tp_ok (m_pool s');
  wr_id : tp_id (m_pool s') = tp_id (m_pool s);
  wr_memory : ∀ q, tp_memory (m_pool s) q → tp_memory (m_pool s') q;
  wr_in : tp_memory (m_pool s) pn;
  wr_pages : ∃ g, pages s !! pn = Some g ∧ pages s' = <[pn := mkTPage (tpg_lsn g) d]> (pages s);
  wr_pins : pins s' = pins s;
  wr_free : free s' = free s;
  wr_locks : m_locks s' = m_locks s;
  wr_items : items_ s' = items_ s;
  wr_disposed : disposed_pages_ s' = disposed_pages_ s;
  wr_tree : ∃ es, m_client s' = with_entries (entries_ (m_client s) ++ es) (m_client s) ∧ Forall (λ e, entry_frame e = pn) es;
}.
Lemma wrote_at pn d s s' : at_page s pn d → ∀ d', wrote pn d' s s' → at_page s' pn d'.
Proof. intros (_ & Hm & l & Hg) d' []. destruct wr_pages0 as (g & Eg & Ep). split; [done|]. split; [by apply wr_memory0|]. exists (tpg_lsn g). rewrite Ep. by rewrite lookup_insert_eq. Qed.
Lemma wrote_trans pn d1 d2 s1 s2 s3 : wrote pn d1 s1 s2 → wrote pn d2 s2 s3 → wrote pn d2 s1 s3.
Proof.
  intros [] []. constructor; try congruence; try naive_solver.
  - destruct wr_pages0 as (g & Eg & Ep), wr_pages1 as (g' & Eg' & Ep'). exists g. split; [done|]. rewrite Ep', Ep. rewrite Ep, lookup_insert_eq in Eg'. injection Eg' as <-. by rewrite insert_insert_eq.
  - destruct wr_tree0 as (es & E & F), wr_tree1 as (es' & E' & F'). exists (es ++ es'). rewrite E', E. split; [cbn; by rewrite app_assoc|by apply Forall_app].
Qed.
Lemma wrote_id pn d s : at_page s pn d → wrote pn d s s.
Proof.
  intros (Hok & Hm & l & Hg). constructor; try done; [|exists []; rewrite app_nil_r; by destruct (m_client s)].
  exists (mkTPage l d). split; [done|]. cbn. by rewrite insert_id.
Qed.
Lemma wrote_other pn d s s' q : wrote pn d s s' → q ≠ pn → ∀ d', at_page s q d' → at_page s' q d'.
Proof. intros [] Hq d' (_ & Hm & l & Hg). destruct wr_pages0 as (g & _ & Ep). split; [done|]. split; [by apply wr_memory0|]. exists l. by rewrite Ep, lookup_insert_ne. Qed.
Lemma wrote_memo pn d s s' ex : wrote pn d s s' → memo_ok ex s → memo_ok ex s'.
Proof.
  intros [] [[] ? ? ?]. rewrite <-wr_items0 in *. constructor; [|done|done|done]. constructor; [done| | |done].
  - intros q. rewrite wr_pins0. apply ho_pins.
  - intros w. rewrite wr_locks0. apply ho_locks.
Qed.
Lemma wrote_header pn d s s' : wrote pn d s s' → file_header_ (m_client s') = file_header_ (m_client s) ∧ need_log_ (m_client s') = need_log_ (m_client s) ∧
  opened_ (m_client s') = opened_ (m_client s) ∧ header_dirty_ (m_client s') = header_dirty_ (m_client s).
Proof. intros []. by destruct wr_tree0 as (es & -> & _). Qed.

(** *** Memory *)

Lemma data_at pn d s : at_page s pn d → data pn s = Some (d, s).
Proof. intros (Hok & Hm & l & Hg). unfold data. rewrite bind_get. unfold liftO. by rewrite (tp_data_ok _ _ _ Hok Hm Hg). Qed.
Lemma store_at pn d d' s : at_page s pn d → len d' = len d → ∃ s', store pn d' s = Some (tt, s') ∧ wrote pn d' s s'.
Proof.
  intros Ha Hl. pose proof (at_page_len _ _ _ Ha) as [Hsz _]. destruct Ha as (Hok & Hm & l & Hg).
  destruct (tp_store_ok _ _ _ d' Hok Hm Hg ltac:(lia)) as (p' & E & Hok' & Hid & Hv & Hmem). exists (with_pool p' s). split; [unfold store, on_pool; by rewrite E|].
  constructor; try done; [|unfold pins; cbn; by rewrite Hv|unfold free; cbn; by rewrite Hv|exists []; cbn; rewrite app_nil_r; by destruct (m_client s)].
  exists (mkTPage l d). split; [done|]. unfold pages. cbn. by rewrite Hv.
Qed.
Lemma memcpy_at pn d off src d' s : at_page s pn d → mem_write d off src = Some d' → ∃ s', memcpy_to pn (Some off) src s = Some (tt, s') ∧ wrote pn d' s s'.
Proof.
  intros Ha Hw. destruct (store_at pn d d' s Ha (mem_write_len _ _ _ _ Hw)) as (s' & E & Hwr). exists s'. split; [|done].
  unfold memcpy_to. rewrite (bind_eq _ _ _ _ _ (data_at _ _ _ Ha)), (bind_liftO (Some off) off) by done. by rewrite (bind_liftO _ _ _ _ Hw).
Qed.
Lemma memory_at_ok pn d off n bs s : at_page s pn d → mem_read d off n = Some bs → memory_at pn (Some off) n s = Some (bs, s).
Proof.
  intros Ha Hr. unfold memory_at. rewrite (bind_eq _ _ _ _ _ (data_at _ _ _ Ha)), (bind_liftO (Some off) off) by done. unfold liftO. by rewrite Hr.
Qed.
Lemma read_int_ok pn d off v s : at_page s pn d → field32 d off = Some v → read_int pn off s = Some (v, s).
Proof. intros Ha Hf. unfold read_int. rewrite (bind_eq _ _ _ _ _ (data_at _ _ _ Ha)). unfold liftO. by rewrite Hf. Qed.
Lemma mark_dirty_ok pn d s : at_page s pn d → ∃ s', mark_dirty pn s = Some (tt, s') ∧ wrote pn d s s'.
Proof.
  intros (Hok & Hm & l & Hg). destruct (tp_mark_dirty_ok _ pn Hok Hm) as (p' & E & Hok' & Hid & Hv & Hmem). exists (with_pool p' s). split; [unfold mark_dirty, on_pool; by rewrite E|].
  constructor; try done; [|unfold pins; cbn; by rewrite Hv|unfold free; cbn; by rewrite Hv|exists []; cbn; rewrite app_nil_r; by destruct (m_client s)].
  exists (mkTPage l d). split; [done|]. unfold pages. cbn. rewrite Hv. cbn. by rewrite insert_id.
Qed.
Lemma tree_append_log_ok e pn d s : at_page s pn d → entry_frame e = pn → ∃ s', append_log_entry e s = Some (SUCCESS, s') ∧ wrote pn d s s'.
Proof.
  intros Ha He. unfold append_log_entry, tree_state. unfold bind at 1. destruct (need_log_ (m_client s)); cbn [negb].
  - unfold set_tree. rewrite bind_modify. eexists. split; [done|]. destruct (wrote_id _ _ _ Ha). constructor; try done. exists [e]. split; [done|by constructor].
  - exists s. split; [done|]. by apply wrote_id.
Qed.

(** ** Reading a node *)

Definition class_raw (c : NodeClass) (b : Z) (x : list Z) : Prop :=
  match c with LeafNode => b = 1 ∧ len x = 4 | InternalNode => b = 0 ∧ x = [] | AnyNode => False end.
Lemma item_at_raw c b x h i : class_raw c b x → item_at c h i = Some (12 + len x + i * item_size c h).
Proof. destruct c; [done|intros [_ Hx]|intros [_ ->]]; cbn [item_at]; unfold LeafIndexNode_HEADER_SIZE, InternalIndexNode_HEADER_SIZE, IndexNode_HEADER_SIZE, len in *; f_equal; cbn [length]; lia. Qed.

Section raw.
Context (pn : PageNum) (d : list Z) (b : Z) (p : PageNum) (x : list Z) (sz : Z) (raws : list (list Z)) (s : St).
Context (Ha : at_page s pn d) (Hn : raw_node b p x sz raws d).

Lemma rn_is_leaf : is_leaf pn s = Some (negb (b =? 0), s).
Proof. unfold is_leaf. rewrite (bind_eq _ _ _ _ _ (data_at _ _ _ Ha)). destruct Hn as (pad & junk & _ & -> & _). done. Qed.
Lemma rn_size : size pn s = Some (len raws, s).
Proof.
  apply (read_int_ok _ _ _ _ _ Ha). destruct Hn as (pad & junk & Hp & -> & _ & Hr & _).
  replace 4 with (len ([b] ++ pad)) by (rewrite len_app, Hp; done). by apply field32_app.
Qed.
Lemma rn_parent : parent_page_num pn s = Some (p, s).
Proof.
  apply (read_int_ok _ _ _ _ _ Ha). destruct Hn as (pad & junk & Hp & -> & Hr & _ & _).
  replace 8 with (len (([b] ++ pad) ++ enc32 (len raws))) by (rewrite !len_app, len_enc32, Hp; done). rewrite app_assoc. by apply field32_app.
Qed.
Lemma rn_next nx : x = enc32 nx → in_int32 nx → next_page pn s = Some (nx, s).
Proof.
  intros Hx Hnx. apply (read_int_ok _ _ _ _ _ Ha). destruct Hn as (pad & junk & Hp & -> & Hr & _ & _). rewrite Hx.
  replace 12 with (len ((([b] ++ pad) ++ enc32 (len raws)) ++ enc32 p)) by (rewrite !len_app, !len_enc32, Hp; done). rewrite (app_assoc ([b] ++ pad)), (app_assoc (([b] ++ pad) ++ enc32 (len raws))). by apply field32_app.
Qed.

(** the bytes of [r2] in [raws = r1 ++ r2 ++ r3] *)
Lemma raw_split r1 r2 : raws = r1 ++ r2 → ∃ pad junk, len pad = 3 ∧
  d = (([b] ++ pad) ++ enc32 (len raws) ++ enc32 p ++ x ++ bytes_of r1) ++ bytes_of r2 ++ junk ∧
  len (([b] ++ pad) ++ enc32 (len raws) ++ enc32 p ++ x ++ bytes_of r1) = 12 + len x + len r1 * sz.
Proof.
  intros E. destruct Hn as (pad & junk & Hp & Hd & _ & _ & Hs). exists pad, junk. split; [done|]. rewrite E in Hd at 2. rewrite bytes_app in Hd. split; [by rewrite Hd, <-!app_assoc|].
  rewrite E, all_size_app in Hs. destruct Hs as [Hs _]. rewrite !len_app, !len_enc32, Hp, (len_bytes sz r1 Hs). unfold len. cbn [length]. lia.
Qed.
Lemma raw_read r1 r2 r3 : raws = r1 ++ r2 ++ r3 → mem_read d (12 + len x + len r1 * sz) (len r2 * sz) = Some (bytes_of r2).
Proof.
  intros E. destruct (raw_split r1 (r2 ++ r3) E) as (pad & junk & _ & Hd & Hl). rewrite <-Hl, Hd, bytes_app. destruct Hn as (_ & _ & _ & _ & _ & _ & Hs).
  rewrite E, !all_size_app in Hs. destruct Hs as (_ & Hs & _). rewrite <-(len_bytes sz r2 Hs). set (pre := ([b] ++ pad) ++ _). rewrite <-app_assoc. apply mem_read_app.
Qed.
(** the first [k] bytes of an item, and those behind them *)
Lemma raw_read_part r1 u v r3 : raws = r1 ++ (u ++ v) :: r3 →
  mem_read d (12 + len x + len r1 * sz) (len u) = Some u ∧ mem_read d (12 + len x + len r1 * sz + len u) (len v) = Some v.
Proof.
  intros E. destruct (raw_split r1 _ E) as (pad & junk & _ & Hd & Hl). change (bytes_of ((u ++ v) :: r3)) with ((u ++ v) ++ bytes_of r3) in Hd.
  rewrite <-Hl, Hd. set (pre := ([b] ++ pad) ++ enc32 (len raws) ++ enc32 p ++ x ++ bytes_of r1). rewrite <-!app_assoc. split; [apply mem_read_app|].
  rewrite <-len_app, (app_assoc pre u). apply mem_read_app.
Qed.
End raw.

Section items.
Context (c : NodeClass) (pn : PageNum) (d : list Z) (b : Z) (p : PageNum) (x : list Z) (raws : list (list Z)) (s : St) (h : IndexFileHeader).
Context (Hc : class_raw c b x) (Hh : file_header_ (m_client s) = h) (Ha : at_page s pn d) (Hn : raw_node b p x (item_size c h) raws d).

Lemma rn_items_at r1 r2 r3 i n : raws = r1 ++ r2 ++ r3 → i = len r1 → n = len r2 → items_at c pn i n s = Some (bytes_of r2, s).
Proof.
  intros E -> ->. unfold items_at, file_header. unfold bind at 1. rewrite Hh, (item_at_raw c b x h _ Hc). apply (memory_at_ok _ _ _ _ _ _ Ha).
  by apply (raw_read d b p x _ raws Hn r1 r2 r3).
Qed.
Lemma rn_raw_key r1 k v r3 i : raws = r1 ++ (k ++ v) :: r3 → i = len r1 → len k = key_length h → raw_key_at c pn i s = Some (k, s).
Proof.
  intros E -> Hk. unfold raw_key_at, file_header. unfold bind at 1. rewrite Hh, (item_at_raw c b x h _ Hc). apply (memory_at_ok _ _ _ _ _ _ Ha).
  unfold key_size. rewrite <-Hk. apply (raw_read_part d b p x _ raws Hn r1 k v r3 E).
Qed.
Lemma rn_raw_value r1 k v r3 i : raws = r1 ++ (k ++ v) :: r3 → i = len r1 → len k = key_length h → len v = value_size c → raw_value_at c pn i s = Some (v, s).
Proof.
  intros E -> Hk Hv. unfold raw_value_at, file_header, value_offset. unfold bind at 1. rewrite Hh, (item_at_raw c b x h _ Hc). cbn [mbind option_bind]. apply (memory_at_ok _ _ _ _ _ _ Ha).
  unfold key_size. rewrite <-Hk, <-Hv. apply (raw_read_part d b p x _ raws Hn r1 k v r3 E).
Qed.
Lemma rn_in_node i : 0 ≤ i < len raws → in_node pn i s = Some (tt, s).
Proof.
  intros Hi. unfold in_node. rewrite (bind_eq _ _ _ _ _ (rn_size _ _ _ _ _ _ _ _ Ha Hn)). unfold assertM.
  by rewrite (proj2 (Z.leb_le _ _)), (proj2 (Z.ltb_lt _ _)) by lia.
Qed.
End items.

(** ** Writing a node *)

(** [key_num] and [parent] are written in place *)
Lemma rn_write_parent pn d b p x sz raws s q : at_page s pn d → raw_node b p x sz raws d → in_int32 q →
  ∃ s' d', write_int pn 8 q s = Some (tt, s') ∧ wrote pn d' s s' ∧ raw_node b q x sz raws d'.
Proof.
  intros Ha (pad & junk & Hp & Hd & _ & Hr & Hs) Hq. set (pre := ([b] ++ pad) ++ enc32 (len raws)).
  assert (Hl : len pre = 8) by (unfold pre; rewrite !len_app, len_enc32, Hp; done).
  assert (E : mem_write d 8 (enc32 q) = Some (pre ++ enc32 q ++ x ++ bytes_of raws ++ junk)).
  { rewrite <-Hl, Hd, app_assoc. apply mem_write_app. by rewrite !len_enc32. }
  destruct (memcpy_at _ _ _ _ _ _ Ha E) as (s' & E' & Hw). exists s'. eexists. split; [done|]. split; [done|].
  exists pad, junk. split; [done|]. split; [unfold pre; by rewrite <-!app_assoc|done].
Qed.
Lemma rn_write_next pn d b p nx sz raws s nx' : at_page s pn d → raw_node b p (enc32 nx) sz raws d → 
  ∃ s' d', write_int pn 12 nx' s = Some (tt, s') ∧ wrote pn d' s s' ∧ raw_node b p (enc32 nx') sz raws d'.
Proof.
  intros Ha (pad & junk & Hp & Hd & Hip & Hr & Hs). set (pre := (([b] ++ pad) ++ enc32 (len raws)) ++ enc32 p).
  assert (Hl : len pre = 12) by (unfold pre; rewrite !len_app, !len_enc32, Hp; done).
  assert (E : mem_write d 12 (enc32 nx') = Some (pre ++ enc32 nx' ++ bytes_of raws ++ junk)).
  { rewrite <-Hl, Hd, (app_assoc ([b] ++ pad)), (app_assoc (([b] ++ pad) ++ enc32 (len raws))). apply mem_write_app. by rewrite !len_enc32. }
  destruct (memcpy_at _ _ _ _ _ _ Ha E) as (s' & E' & Hw). exists s'. eexists. split; [done|]. split; [done|].
  exists pad, junk. split; [done|]. split; [unfold pre; by rewrite <-!app_assoc|done].
Qed.
(** the number of items: the bytes behind them become unused, or unused bytes become items *)
Lemma rn_write_size pn d b p x sz (raws : list (list Z)) (pad : list Z) s raws' (junk' : list Z) : at_page s pn d → len pad = 3 → in_int32 p →
  d = ([b] ++ pad) ++ enc32 (len raws) ++ enc32 p ++ x ++ bytes_of raws' ++ junk' → in_int32 (len raws') → all_size sz raws' →
  ∃ s' d', write_int pn 4 (len raws') s = Some (tt, s') ∧ wrote pn d' s s' ∧ raw_node b p x sz raws' d'.
Proof.
  intros Ha Hp Hip Hd Hr Hs. assert (Hl : len ([b] ++ pad) = 4) by (rewrite len_app, Hp; done).
  assert (E : mem_write d 4 (enc32 (len raws')) = Some (([b] ++ pad) ++ enc32 (len raws') ++ enc32 p ++ x ++ bytes_of raws' ++ junk')).
  { rewrite <-Hl, Hd. apply mem_write_app. by rewrite !len_enc32. }
  destruct (memcpy_at _ _ _ _ _ _ Ha E) as (s' & E' & Hw). exists s'. eexists. split; [done|]. split; [done|]. by exists pad, junk'.
Qed.

Lemma increase_size_at pn d b p x sz (raws : list (list Z)) (pad : list Z) s raws' (junk' : list Z) k : at_page s pn d → len pad = 3 → in_int32 p →
  d = ([b] ++ pad) ++ enc32 (len raws) ++ enc32 p ++ x ++ bytes_of raws' ++ junk' → in_int32 (len raws) → in_int32 (len raws') → all_size sz raws' → len raws' = len raws + k →
  ∃ s' d', increase_size pn k s = Some (tt, s') ∧ wrote pn d' s s' ∧ raw_node b p x sz raws' d'.
Proof.
  intros Ha Hp Hip Hd Hr Hr' Hs Hk. unfold increase_size. assert (E : size pn s = Some (len raws, s)).
  { apply (read_int_ok _ _ _ _ _ Ha). rewrite Hd. replace 4 with (len ([b] ++ pad)) by (rewrite len_app, Hp; done). by apply field32_app. }
  rewrite (bind_eq _ _ _ _ _ E), <-Hk, wrap32_id by done. by apply (rn_write_size pn d b p x sz raws pad s raws' junk').
Qed.

Lemma int32_below a b : 0 ≤ a ≤ b → in_int32 b → in_int32 a.
Proof. unfold in_int32. lia. Qed.

Lemma split_tail (l junk : list Z) k : (k + length l ≤ length (l ++ junk))%nat →
  ∃ X Y Z, l ++ junk = X ++ Y ++ Z ∧ length X = k ∧ length Y = length l.
Proof.
  intros Hk. exists (take k (l ++ junk)), (take (length l) (drop k (l ++ junk))), (drop (length l) (drop k (l ++ junk))).
  rewrite take_drop, take_drop. split; [done|]. rewrite !length_take, length_drop. lia.
Qed.

Section change.
Context (c : NodeClass) (pn : PageNum) (d : list Z) (b : Z) (p : PageNum) (x : list Z) (s : St) (h : IndexFileHeader).
Context (Hc : class_raw c b x) (Hh : file_header_ (m_client s) = h) (Ha : at_page s pn d).
Abbreviation sz := (item_size c h).

Lemma rn_insert r1 new r2 items index num : raw_node b p x sz (r1 ++ r2) d → all_size sz new → items = bytes_of new → index = len r1 → num = len new →
  12 + len x + len (r1 ++ new ++ r2) * sz ≤ len d → in_int32 (len (r1 ++ new ++ r2)) →
  ∃ s' d', recover_insert_items c pn index items num s = Some (SUCCESS, s') ∧ wrote pn d' s s' ∧ raw_node b p x sz (r1 ++ new ++ r2) d'.
Proof.
  intros Hn Hnew -> -> -> Hroom Hint. destruct (raw_split d b p x sz (r1 ++ r2) Hn r1 r2 eq_refl) as (pad & junk & Hpad & Hd & Hpre).
  pose proof (rn_size _ _ _ _ _ _ _ _ Ha Hn) as Esz. destruct Hn as (_ & _ & _ & _ & Hip & Hr & Hs). apply all_size_app in Hs as [Hs1 Hs2].
  set (pre := ([b] ++ pad) ++ enc32 (len (r1 ++ r2)) ++ enc32 p ++ x ++ bytes_of r1) in *.
  pose proof (len_bytes _ _ Hs2) as L2. pose proof (len_bytes _ _ Hnew) as Ln. set (k := length (bytes_of new)).
  rewrite !len_app in Hroom. assert (Hlen : (k + length (bytes_of r2) ≤ length (bytes_of r2 ++ junk))%nat).
  { assert (len d = len pre + len (bytes_of r2 ++ junk)) by (rewrite Hd, len_app; done). unfold k, len in *. nia. }
  assert (Estep : ∃ s1 X Z, (if len r1 <? len (r1 ++ r2) then memmove pn (item_at c h (len r1 + len new)) (item_at c h (len r1)) ((len (r1 ++ r2) - len r1) * sz) else ret tt) s = Some (tt, s1) ∧
    length X = k ∧ wrote pn (pre ++ X ++ bytes_of r2 ++ Z) s s1).
  { destruct (len r1 <? len (r1 ++ r2)) eqn:El; zbool.
    - destruct (split_tail (bytes_of r2) junk k Hlen) as (X & Y & Z & HT & HX & HY). rewrite !(item_at_raw c b x h _ Hc). assert (Erd : mem_read d (12 + len x + len r1 * sz) ((len (r1 ++ r2) - len r1) * sz) = Some (bytes_of r2)).
      { rewrite <-Hpre, Hd. replace ((len (r1 ++ r2) - len r1) * sz) with (len (bytes_of r2)) by (rewrite L2, len_app; lia). apply mem_read_app. }
      assert (Ewr : mem_write d (12 + len x + (len r1 + len new) * sz) (bytes_of r2) = Some ((pre ++ X) ++ bytes_of r2 ++ Z)).
      { replace (12 + len x + (len r1 + len new) * sz) with (len (pre ++ X)) by (rewrite len_app, Hpre; unfold len in *; unfold k in HX; nia).
        rewrite Hd, HT, (app_assoc pre X). apply mem_write_app. unfold len. lia. }
      destruct (memcpy_at _ _ _ _ _ _ Ha Ewr) as (s1 & E1 & Hw). rewrite <-app_assoc in Hw. exists s1, X, Z. split; [|done].
      unfold memmove. by rewrite (bind_eq _ _ _ _ _ (memory_at_ok _ _ _ _ _ _ Ha Erd)).
    - assert (r2 = []) as -> by (destruct r2; [done|rewrite len_app in El; unfold len in El; cbn [length] in El; lia]).
      change (bytes_of []) with (@nil Z) in *. cbn [app length] in *. exists s, (take k junk), (drop k junk). split; [done|]. split; [rewrite length_take; lia|].
      rewrite take_drop, <-Hd. apply (wrote_id _ _ _ Ha). }
  destruct Estep as (s1 & X & Z & E1 & HX & Hw1). pose proof (wrote_at _ _ _ _ Ha _ Hw1) as Ha1.
  unfold recover_insert_items, file_header. unfold bind at 1. rewrite Hh, (bind_eq _ _ _ _ _ Esz), (bind_eq _ _ _ _ _ E1).
  rewrite (bind_liftO _ (bytes_of new)) by (rewrite <-Ln; apply mem_read_all). rewrite (item_at_raw c b x h _ Hc).
  assert (Ew2 : mem_write (pre ++ X ++ bytes_of r2 ++ Z) (12 + len x + len r1 * sz) (bytes_of new) = Some (pre ++ bytes_of new ++ bytes_of r2 ++ Z)).
  { rewrite <-Hpre. apply mem_write_app. unfold len. by rewrite HX. }
  destruct (memcpy_at _ _ _ _ _ _ Ha1 Ew2) as (s2 & E2 & Hw2). rewrite (bind_eq _ _ _ _ _ E2). pose proof (wrote_at _ _ _ _ Ha1 _ Hw2) as Ha2.
  destruct (increase_size_at pn _ b p x sz (r1 ++ r2) pad s2 (r1 ++ new ++ r2) Z (len new) Ha2 Hpad Hip) as (s3 & d3 & E3 & Hw3 & Hn3).
  - unfold pre. rewrite !bytes_app, <-!app_assoc. done.
  - done.
  - done.
  - by rewrite !all_size_app.
  - rewrite !len_app. lia.
  - exists s3, d3. rewrite (bind_eq _ _ _ _ _ E3). split; [done|]. split; [|done]. apply (wrote_trans _ _ _ _ _ _ Hw1). by apply (wrote_trans _ _ _ _ _ _ Hw2).
Qed.

Lemma rn_remove r1 old r2 index num : raw_node b p x sz (r1 ++ old ++ r2) d → index = len r1 → num = len old →
  ∃ s' d', recover_remove_items c pn index num s = Some (SUCCESS, s') ∧ wrote pn d' s s' ∧ raw_node b p x sz (r1 ++ r2) d'.
Proof.
  intros Hn -> ->. destruct (raw_split d b p x sz _ Hn r1 (old ++ r2) eq_refl) as (pad & junk & Hpad & Hd & Hpre).
  pose proof (rn_size _ _ _ _ _ _ _ _ Ha Hn) as Esz. destruct Hn as (_ & _ & _ & _ & Hip & Hr & Hs). apply all_size_app in Hs as [Hs1 Hs2]. apply all_size_app in Hs2 as [Ho Hs2].
  set (pre := ([b] ++ pad) ++ enc32 (len (r1 ++ old ++ r2)) ++ enc32 p ++ x ++ bytes_of r1) in *.
  pose proof (len_bytes _ _ Hs2) as L2. pose proof (len_bytes _ _ Ho) as Lo. rewrite bytes_app, <-app_assoc in Hd.
  assert (Estep : ∃ s1 Z, (if len r1 <? len (r1 ++ old ++ r2) - len old then memmove pn (item_at c h (len r1)) (item_at c h (len r1 + len old)) ((len (r1 ++ old ++ r2) - len r1 - len old) * sz) else ret tt) s = Some (tt, s1) ∧
    wrote pn (pre ++ bytes_of r2 ++ Z) s s1).
  { destruct (len r1 <? len (r1 ++ old ++ r2) - len old) eqn:El; zbool.
    - rewrite !(item_at_raw c b x h _ Hc). assert (Erd : mem_read d (12 + len x + (len r1 + len old) * sz) ((len (r1 ++ old ++ r2) - len r1 - len old) * sz) = Some (bytes_of r2)).
      { replace (12 + len x + (len r1 + len old) * sz) with (len (pre ++ bytes_of old)) by (rewrite len_app, Hpre; lia).
        replace ((len (r1 ++ old ++ r2) - len r1 - len old) * sz) with (len (bytes_of r2)) by (rewrite L2, !len_app; lia). rewrite Hd, (app_assoc pre). apply mem_read_app. }
      set (Y' := take (length (bytes_of r2)) (bytes_of old ++ bytes_of r2)). set (Z' := drop (length (bytes_of r2)) (bytes_of old ++ bytes_of r2) ++ junk).
      assert (Ewr : mem_write d (12 + len x + len r1 * sz) (bytes_of r2) = Some (pre ++ bytes_of r2 ++ Z')).
      { rewrite <-Hpre, Hd. rewrite (app_assoc (bytes_of old)), <-(take_drop (length (bytes_of r2)) (bytes_of old ++ bytes_of r2)), <-app_assoc. fold Y' Z'. apply mem_write_app.
        unfold Y', len. rewrite length_take, length_app. lia. }
      destruct (memcpy_at _ _ _ _ _ _ Ha Ewr) as (s1 & E1 & Hw). exists s1, Z'. split; [|done].
      unfold memmove. by rewrite (bind_eq _ _ _ _ _ (memory_at_ok _ _ _ _ _ _ Ha Erd)).
    - assert (r2 = []) as -> by (destruct r2; [done|rewrite !len_app in El; unfold len in El; cbn [length] in El; lia]).
      exists s, (bytes_of old ++ junk). split; [done|]. change (bytes_of []) with (@nil Z) in *. cbn [app] in *. rewrite <-Hd. apply (wrote_id _ _ _ Ha). }
  destruct Estep as (s1 & Z & E1 & Hw1). pose proof (wrote_at _ _ _ _ Ha _ Hw1) as Ha1.
  unfold recover_remove_items, file_header. unfold bind at 1. rewrite Hh, (bind_eq _ _ _ _ _ Esz), (bind_eq _ _ _ _ _ E1).
  destruct (increase_size_at pn _ b p x sz (r1 ++ old ++ r2) pad s1 (r1 ++ r2) Z (- len old) Ha1 Hpad Hip) as (s3 & d3 & E3 & Hw3 & Hn3).
  - unfold pre. rewrite !bytes_app, <-!app_assoc. done.
  - done.
  - apply (int32_below _ (len (r1 ++ old ++ r2))); [|done]. rewrite !len_app. unfold len. lia.
  - by rewrite !all_size_app.
  - rewrite !len_app. lia.
  - exists s3, d3. rewrite (bind_eq _ _ _ _ _ E3). split; [done|]. split; [|done]. by apply (wrote_trans _ _ _ _ _ _ Hw1).
Qed.

(** items given up by lowering [key_num] *)
Lemma rn_truncate r1 r2 n : raw_node b p x sz (r1 ++ r2) d → n = - len r2 →
  ∃ s' d', increase_size pn n s = Some (tt, s') ∧ wrote pn d' s s' ∧ raw_node b p x sz r1 d'.
Proof.
  intros (pad & junk & Hpad & Hd & Hip & Hr & Hs) ->. apply all_size_app in Hs as [Hs1 Hs2].
  apply (increase_size_at pn d b p x sz (r1 ++ r2) pad s r1 (bytes_of r2 ++ junk) (- len r2) Ha Hpad Hip); [|done| |done|rewrite len_app; lia].
  - rewrite Hd, bytes_app, <-!app_assoc. done.
  - apply (int32_below _ (len (r1 ++ r2))); [|done]. rewrite len_app. unfold len. lia.
Qed.
End change.
End node.
