(* ===== verification/BplusOps.v ===== *)
(** * BplusOps: what the operations on nodes do

    [stored s pn N]: the file holds the node [N] on page [pn]. Each operation of a node handler
    is a change of [N]; [changes X s s'] says what else it does: it pins, latches, allocates and
    logs, and leaves every page that is not in [X] as it was. *)
From S2P Require Import Prelude Types Encoding KeyCompare LowerBound LatchMemo LatchMemoSpec BplusNode BplusLog BplusNodeSpec.

(** ** Nodes *)

Inductive Node :=
| LeafOf (parent next : PageNum) (items : list (list Z * list Z))
| InnerOf (parent : PageNum) (kids : list (list Z * PageNum)).

Definition parent_of (N : Node) : PageNum := match N with LeafOf p _ _ => p | InnerOf p _ => p end.
Definition with_parent (p : PageNum) (N : Node) : Node := match N with LeafOf _ nx l => LeafOf p nx l | InnerOf _ l => InnerOf p l end.
Definition class_of (N : Node) : NodeClass := match N with LeafOf _ _ _ => LeafNode | InnerOf _ _ => InternalNode end.
Definition flag_of (N : Node) : Z := match N with LeafOf _ _ _ => 1 | InnerOf _ _ => 0 end.
Definition next_bytes (N : Node) : list Z := match N with LeafOf _ nx _ => enc32 nx | InnerOf _ _ => [] end.
Definition item_bytes (kv : list Z * list Z) : list Z := kv.1 ++ kv.2.
Definition kid_bytes (kq : list Z * PageNum) : list Z := kq.1 ++ enc32 kq.2.
Definition raws_of (N : Node) : list (list Z) := match N with LeafOf _ _ l => item_bytes <$> l | InnerOf _ l => kid_bytes <$> l end.
Definition size_of (N : Node) : Z := match N with LeafOf _ _ l => len l | InnerOf _ l => len l end.
Definition keys_of (N : Node) : list (list Z) := match N with LeafOf _ _ l => l.*1 | InnerOf _ l => l.*1 end.

Lemma len_fmap {A B} (f : A → B) (l : list A) : len (f <$> l) = len l.
Proof. unfold len. by rewrite length_fmap. Qed.
Lemma len_raws N : len (raws_of N) = size_of N.
Proof. destruct N; apply len_fmap. Qed.
Lemma class_raw_of N : class_raw (class_of N) (flag_of N) (next_bytes N).
Proof. destruct N; [split; [done|apply len_enc32]|done]. Qed.
Lemma len_pos {A} (l : list A) : 0 ≤ len l.
Proof. unfold len. lia. Qed.
Lemma with_parent_same N : with_parent (parent_of N) N = N.
Proof. by destruct N. Qed.
Lemma parent_with p N : parent_of (with_parent p N) = p.
Proof. by destruct N. Qed.
Lemma with_with p q N : with_parent p (with_parent q N) = with_parent p N.
Proof. by destruct N. Qed.
Lemma keys_with p N : keys_of (with_parent p N) = keys_of N.
Proof. by destruct N. Qed.
Lemma size_with p N : size_of (with_parent p N) = size_of N.
Proof. by destruct N. Qed.

(** headers that differ in the root page only *)
Definition header_like (h : IndexFileHeader) (h' : IndexFileHeader) : Prop := ∃ r, h' = with_root r h.
Lemma header_like_refl h : header_like h h.
Proof. exists (root_page h). by destruct h. Qed.
Lemma header_like_root h h' r : header_like h h' → header_like h (with_root r h').
Proof. intros [r' ->]. by exists r. Qed.

Section ops.
Context {P : Type} `{TL : TreePoolLaws P}.
Abbreviation St := (Memo P TreeState).
Implicit Types (s : St) (pn q : PageNum) (N : Node).

(** ** What an operation changes *)

Definition tree_header s : IndexFileHeader := file_header_ (m_client s).
Definition in_memory s pn : Prop := tp_memory (m_pool s) pn ∧ is_Some (pages s !! pn).
(** [k] pages are allocated *)
Record changes (k : nat) (X : list PageNum) s s' : Prop := {
  ch_memo : ∀ ex, memo_ok ex s → memo_ok ex s';
  ch_id : tp_id (m_pool s') = tp_id (m_pool s);
  ch_free : (free s = k + free s')%nat;
  ch_memory : ∀ q, in_memory s q → in_memory s' q;
  ch_pages : ∀ q, q ∉ X → pages s' !! q = pages s !! q;
  ch_held : ∀ q, held s q → held s' q;
  ch_disposed : disposed_pages_ s' = disposed_pages_ s;
  ch_header : FIRST_INDEX_PAGE ∉ X → tree_header s' = tree_header s;
  ch_like : ∀ h, header_like h (tree_header s) → header_like h (tree_header s');
  ch_log : need_log_ (m_client s') = need_log_ (m_client s) ∧ opened_ (m_client s') = opened_ (m_client s);
  ch_entries : ∀ e, e ∈ entries_ (m_client s') → e ∈ entries_ (m_client s) ∨ in_memory s' (entry_frame e);
  ch_latched : ∀ w, latched s' w → latched s w ∨ ∃ q, q ∈ X ∧ w = OnFrame q;
  ch_exists : ∀ q, is_Some (pages s !! q) → is_Some (pages s' !! q);
}.
Lemma changes_refl s : changes 0 [] s s.
Proof. constructor; auto. Qed.
Lemma changes_weaken X Y k s s' : X ⊆ Y → changes k X s s' → changes k Y s s'.
Proof.
  intros HX []. constructor; try done.
  - intros q Hq. apply ch_pages0. set_solver.
  - intros Hq. apply ch_header0. set_solver.
  - intros w Hw. destruct (ch_latched0 w Hw) as [|(q & Hq & ->)]; [by left|]. right. exists q. set_solver.
Qed.
(** the pages of two steps are put together, [Z] names them *)
Lemma changes_trans Z X Y k j s1 s2 s3 : changes k X s1 s2 → changes j Y s2 s3 → X ⊆ Z → Y ⊆ Z → changes (k + j) Z s1 s3.
Proof.
  intros H1 H2 HX HY. apply (changes_weaken X Z _ _ _ HX) in H1. apply (changes_weaken Y Z _ _ _ HY) in H2. destruct H1, H2. constructor.
  - auto.
  - congruence.
  - lia.
  - auto.
  - intros q Hq. rewrite ch_pages1, ch_pages0; set_solver.
  - auto.
  - congruence.
  - intros Hq. rewrite ch_header1, ch_header0; set_solver.
  - auto.
  - destruct ch_log0, ch_log1. split; congruence.
  - intros e He. destruct (ch_entries1 e He) as [He1|]; [|by right]. destruct (ch_entries0 e He1) as [|]; [by left|right; auto].
  - intros w Hw. destruct (ch_latched1 w Hw) as [Hw1|(q & Hq & ->)]; [|right; exists q; set_solver]. destruct (ch_latched0 w Hw1) as [|(q & Hq & ->)]; [by left|right; exists q; set_solver].
  - auto.
Qed.

Lemma wrote_changes pn d s s' : wrote pn d s s' → changes 0 [pn] s s'.
Proof.
  intros Hw. pose proof (wrote_header _ _ _ _ Hw) as (Eh & En & Eo & _). pose proof Hw as Hw'. destruct Hw'.
  destruct wr_pages as (g & Eg & Ep), wr_tree as (es & Et & Hes).
  assert (Hmem : ∀ q, in_memory s q → in_memory s' q).
  { intros q [H1 H2]. split; [by apply wr_memory|]. rewrite Ep. destruct (decide (q = pn)) as [->|]; [rewrite lookup_insert_eq; eauto|by rewrite lookup_insert_ne]. }
  constructor; [by intros ex; apply (wrote_memo pn d s s')|done|done|done| | |done|done|intros h; unfold tree_header; by rewrite Eh|done| | |].
  - intros q Hq. rewrite Ep, lookup_insert_ne by set_solver. done.
  - intros q. unfold held. by rewrite wr_pins.
  - intros e. rewrite Et. cbn [entries_ with_entries]. rewrite elem_of_app. intros [He|He]; [by left|]. right.
    rewrite Forall_forall in Hes. rewrite (Hes e He). apply Hmem. split; [done|by exists g].
  - intros w. unfold latched. rewrite wr_locks. by left.
  - intros q [g' Hg']. rewrite Ep. destruct (decide (q = pn)) as [->|]; [rewrite lookup_insert_eq; eauto|rewrite lookup_insert_ne by done; eauto].
Qed.

(** ** Nodes on pages *)

Section header.
Context (h : IndexFileHeader).

Definition node_ok N : Prop :=
  match N with
  | LeafOf _ nx l => in_int32 nx ∧ Forall (λ kv, len kv.1 = key_length h ∧ len kv.2 = 8) l
  | InnerOf _ l => Forall (λ kq, len kq.1 = key_length h ∧ in_int32 kq.2) l
  end.
Definition max_of N : Z := match N with LeafOf _ _ _ => leaf_max_size h | InnerOf _ _ => internal_max_size h end.
Definition node_repr N (d : list Z) : Prop :=
  raw_node (flag_of N) (parent_of N) (next_bytes N) (item_size (class_of N) h) (raws_of N) d ∧ node_ok N.
Definition stored s pn N : Prop := ∃ g, pages s !! pn = Some g ∧ node_repr N (tpg_data g).

(** full nodes fit into a page *)
Record index_ok : Prop := {
  ix_page : tp_page_size < 2 ^ 31;
  ix_key : key_length h = attr_length h + 8 ∧ 0 ≤ attr_length h;
  ix_leaf : LeafIndexNode_HEADER_SIZE + leaf_max_size h * item_size LeafNode h ≤ tp_page_size;
  ix_inner : InternalIndexNode_HEADER_SIZE + internal_max_size h * item_size InternalNode h ≤ tp_page_size;
  ix_leaf_min : 2 ≤ leaf_max_size h;
  ix_inner_min : 2 ≤ internal_max_size h;
}.
Definition ready (ex : list LatchMemoItem) s : Prop := memo_ok ex s ∧ header_like h (tree_header s).

Lemma changes_ready k X ex s s' : changes k X s s' → ready ex s → ready ex s'.
Proof. intros [] []. split; auto. Qed.
Lemma changes_stored k X s s' pn N : changes k X s s' → pn ∉ X → stored s pn N → stored s' pn N.
Proof. intros [] Hpn (g & Hg & HN). exists g. by rewrite ch_pages0. Qed.
Lemma wrote_stored pn d s s' N : wrote pn d s s' → node_repr N d → changes 0 [pn] s s' ∧ stored s' pn N.
Proof.
  intros Hw HN. split; [by apply (wrote_changes pn d)|]. destruct Hw. destruct wr_pages as (g & Eg & Ep). exists (mkTPage (tpg_lsn g) d).
  by rewrite Ep, lookup_insert_eq.
Qed.
(** the node can be read and written *)
Definition at_node ex s pn N : Prop := ready ex s ∧ held s pn ∧ stored s pn N.
Lemma stored_at ex s pn N : at_node ex s pn N → ∃ d, at_page s pn d ∧ node_repr N d.
Proof. intros ([Hm _] & Hh & g & Hg & HN). exists (tpg_data g). split; [|done]. by apply (at_page_held ex). Qed.
Lemma stored_exists s pn N : stored s pn N → is_Some (pages s !! pn).
Proof. intros (g & -> & _). eauto. Qed.
Lemma file_header_ok s : file_header s = Some (tree_header s, s).
Proof. done. Qed.
Lemma item_size_like c h' : header_like h h' → item_size c h' = item_size c h.
Proof. by intros [r ->]. Qed.

(** *** Reading *)

Section reads.
Context (ex : list LatchMemoItem) (s : St) (pn : PageNum) (N : Node) (Hat : at_node ex s pn N).
Let Hlike : header_like h (tree_header s) := proj2 (proj1 Hat).

Lemma is_leaf_ok : is_leaf pn s = Some (match N with LeafOf _ _ _ => true | _ => false end, s).
Proof. destruct (stored_at _ _ _ _ Hat) as (d & Ha & Hn & _). rewrite (rn_is_leaf _ _ _ _ _ _ _ _ Ha Hn). by destruct N. Qed.
Lemma size_ok : size pn s = Some (size_of N, s).
Proof. destruct (stored_at _ _ _ _ Hat) as (d & Ha & Hn & _). by rewrite (rn_size _ _ _ _ _ _ _ _ Ha Hn), len_raws. Qed.
Lemma parent_ok : parent_page_num pn s = Some (parent_of N, s).
Proof. destruct (stored_at _ _ _ _ Hat) as (d & Ha & Hn & _). apply (rn_parent _ _ _ _ _ _ _ _ Ha Hn). Qed.
Lemma next_ok p nx l : N = LeafOf p nx l → next_page pn s = Some (nx, s).
Proof. intros ->. destruct (stored_at _ _ _ _ Hat) as (d & Ha & Hn & Hok). apply (rn_next _ _ _ _ _ _ _ _ Ha Hn); [done|apply Hok]. Qed.
Lemma max_size_ok : max_size pn s = Some (max_of N, s).
Proof.
  unfold max_size. rewrite (bind_eq _ _ _ _ _ (file_header_ok s)), (bind_eq _ _ _ _ _ is_leaf_ok). destruct Hlike as [r ->]. by destruct N.
Qed.
Lemma min_size_ok : min_size pn s = Some (max_of N - Z.quot (max_of N) 2, s).
Proof. unfold min_size. by rewrite (bind_eq _ _ _ _ _ max_size_ok). Qed.
Lemma is_safe_ok op root : ∃ b, is_safe pn op root s = Some (b, s).
Proof.
  unfold is_safe. destruct op; [by eexists| |destruct root].
  - rewrite (bind_eq _ _ _ _ _ size_ok), (bind_eq _ _ _ _ _ max_size_ok). by eexists.
  - rewrite (bind_eq _ _ _ _ _ is_leaf_ok), (bind_eq _ _ _ _ _ size_ok). destruct N; by eexists.
  - rewrite (bind_eq _ _ _ _ _ size_ok), (bind_eq _ _ _ _ _ min_size_ok). by eexists.
Qed.
Lemma in_node_ok i : 0 ≤ i < size_of N → in_node pn i s = Some (tt, s).
Proof. intros Hi. destruct (stored_at _ _ _ _ Hat) as (d & Ha & Hn & _). apply (rn_in_node (class_of N) _ _ _ _ _ _ _ h Ha Hn). by rewrite len_raws. Qed.
Lemma items_at_ok r1 r2 r3 i n : raws_of N = r1 ++ r2 ++ r3 → i = len r1 → n = len r2 → items_at (class_of N) pn i n s = Some (bytes_of r2, s).
Proof.
  intros E Hi Hn'. destruct (stored_at _ _ _ _ Hat) as (d & Ha & Hn & _). rewrite <-(item_size_like _ _ Hlike) in Hn.
  apply (rn_items_at _ _ _ _ _ _ _ _ _ (class_raw_of N) eq_refl Ha Hn r1 r2 r3 i n E Hi Hn').
Qed.
Lemma key_read d i k : node_repr N d → rd (keys_of N) i = Some k → ∃ o, item_at (class_of N) h i = Some o ∧ mem_read d o (key_length h) = Some k.
Proof.
  intros [Hn Hok] Hk. pose proof (rd_Some_range _ _ _ Hk) as Hi. unfold rd in Hk. rewrite decide_True in Hk by lia.
  assert (E : ∃ r1 v r3, raws_of N = r1 ++ (k ++ v) :: r3 ∧ i = len r1 ∧ len k = key_length h).
  { destruct N as [p nx l|p l]; cbn [keys_of raws_of node_ok] in *; rewrite list_lookup_fmap in Hk; destruct (l !! Z.to_nat i) as [[k' v]|] eqn:El; try done; injection Hk as ->;
      rewrite <-(take_drop_middle _ _ _ El), fmap_app; do 3 eexists; (split; [done|]); (split; [rewrite len_fmap; unfold len in *; rewrite length_take, ?length_fmap in *; lia|]);
      [destruct Hok as [_ Hok]|]; rewrite Forall_forall in Hok; by apply (Hok _ (list_elem_of_lookup_2 _ _ _ El)). }
  destruct E as (r1 & v & r3 & E & -> & El). exists (12 + len (next_bytes N) + len r1 * item_size (class_of N) h).
  split; [apply (item_at_raw _ (flag_of N)), class_raw_of|]. rewrite <-El. apply (raw_read_part _ _ _ _ _ _ Hn r1 k v r3 E).
Qed.
Lemma raw_key_ok i k : rd (keys_of N) i = Some k → raw_key_at (class_of N) pn i s = Some (k, s).
Proof.
  intros Hk. destruct (stored_at _ _ _ _ Hat) as (d & Ha & HN). destruct (key_read _ _ _ HN Hk) as (o & Eo & Er).
  unfold raw_key_at. rewrite (bind_eq _ _ _ _ _ (file_header_ok s)). destruct Hlike as [r ->]. change (item_at (class_of N) (with_root r h) i) with (item_at (class_of N) h i).
  rewrite Eo. by apply (memory_at_ok _ _ _ _ _ _ Ha).
Qed.
Lemma key_at_ok i k : rd (keys_of N) i = Some k → key_at (class_of N) pn i s = Some (k, s).
Proof.
  intros Hk. unfold key_at. rewrite (bind_eq _ _ _ _ _ (in_node_ok i ltac:(pose proof (rd_Some_range _ _ _ Hk) as Hi; destruct N; cbn [keys_of size_of] in *; unfold len in *; rewrite length_fmap in Hi; lia))).
  by apply raw_key_ok.
Qed.
End reads.

(** *** Writing *)

Definition same_head N N' : Prop := class_of N' = class_of N ∧ parent_of N' = parent_of N ∧ next_bytes N' = next_bytes N.
Lemma flag_class N N' : class_of N' = class_of N → flag_of N' = flag_of N.
Proof. by destruct N, N'. Qed.
Lemma item_size_pos c : index_ok → 0 < item_size c h.
Proof. intros []. unfold item_size, key_size. destruct c; cbn; unfold sizeof_RID, sizeof_PageNum; lia. Qed.
Lemma room N : index_ok → size_of N ≤ max_of N → 12 + len (next_bytes N) + size_of N * item_size (class_of N) h ≤ tp_page_size ∧ in_int32 (size_of N).
Proof.
  intros Hix Hsz. pose proof (item_size_pos (class_of N) Hix) as Hpos. destruct Hix. assert (0 ≤ size_of N) by (destruct N; apply len_pos).
  assert (Hroom : 12 + len (next_bytes N) + size_of N * item_size (class_of N) h ≤ tp_page_size).
  { destruct N; cbn [next_bytes size_of max_of class_of] in *; rewrite ?len_enc32; unfold LeafIndexNode_HEADER_SIZE, InternalIndexNode_HEADER_SIZE, IndexNode_HEADER_SIZE in *; [nia|unfold len at 1; cbn [length]; nia]. }
  split; [done|]. pose proof (len_pos (next_bytes N)). unfold in_int32. nia.
Qed.
Lemma raws_sized N : node_ok N → all_size (item_size (class_of N) h) (raws_of N).
Proof.
  unfold all_size. destruct N as [p nx l|p l]; cbn [node_ok raws_of class_of]; [intros [_ Hl]|intros Hl]; apply Forall_fmap; eapply Forall_impl; try exact Hl; intros [k v] [H1 H2];
    unfold compose, item_bytes, kid_bytes, item_size, key_size, value_size, sizeof_RID, sizeof_PageNum; cbn [fst snd] in *; rewrite len_app, ?len_enc32; lia.
Qed.
Lemma at_node_changes ex k X s s' pn N : changes k X s s' → pn ∉ X → at_node ex s pn N → at_node ex s' pn N.
Proof. intros Hc Hpn (H1 & H2 & H3). split; [by apply (changes_ready k X ex s)|]. split; [by apply (ch_held _ _ _ _ Hc)|by apply (changes_stored k X s)]. Qed.
Lemma wrote_at_node ex pn N d s s' N' : at_node ex s pn N → wrote pn d s s' → node_repr N' d → changes 0 [pn] s s' ∧ at_node ex s' pn N'.
Proof.
  intros (H1 & H2 & _) Hw HN. destruct (wrote_stored _ _ _ _ _ Hw HN) as [Hc Hs]. split; [done|]. split; [by apply (changes_ready 0 [pn] ex s)|]. split; [by apply (ch_held _ _ _ _ Hc)|done].
Qed.

Section writes.
Context (ex : list LatchMemoItem) (s : St) (pn : PageNum) (N : Node) (Hat : at_node ex s pn N) (Hix : index_ok).
Let Hlike : header_like h (tree_header s) := proj2 (proj1 Hat).

Lemma dirty_ok : ∃ s', mark_dirty pn s = Some (tt, s') ∧ changes 0 [pn] s s' ∧ at_node ex s' pn N.
Proof.
  destruct (stored_at _ _ _ _ Hat) as (d & Ha & HN). destruct (mark_dirty_ok _ _ _ Ha) as (s' & E & Hw). exists s'. split; [done|]. by apply (wrote_at_node _ _ N d).
Qed.
Lemma log_ok e : entry_frame e = pn → ∃ s', append_log_entry e s = Some (SUCCESS, s') ∧ changes 0 [pn] s s' ∧ at_node ex s' pn N.
Proof.
  intros He. destruct (stored_at _ _ _ _ Hat) as (d & Ha & HN). destruct (tree_append_log_ok _ _ _ _ Ha He) as (s' & E & Hw). exists s'. split; [done|]. by apply (wrote_at_node _ _ N d).
Qed.
Lemma write_parent_ok p : in_int32 p → ∃ s', write_int pn 8 p s = Some (tt, s') ∧ changes 0 [pn] s s' ∧ at_node ex s' pn (with_parent p N).
Proof.
  intros Hp. destruct (stored_at _ _ _ _ Hat) as (d & Ha & HN & Hok). destruct (rn_write_parent _ _ _ _ _ _ _ _ _ Ha HN Hp) as (s' & d' & E & Hw & HN'). exists s'. split; [done|].
  apply (wrote_at_node _ _ N d' _ _ _ Hat Hw). split; by destruct N.
Qed.
Lemma write_next_ok p nx l nx' : N = LeafOf p nx l → in_int32 nx' → ∃ s', write_int pn 12 nx' s = Some (tt, s') ∧ changes 0 [pn] s s' ∧ at_node ex s' pn (LeafOf p nx' l).
Proof.
  intros -> Hnx. destruct (stored_at _ _ _ _ Hat) as (d & Ha & HN & Hok). destruct (rn_write_next _ _ _ _ _ _ _ _ nx' Ha HN) as (s' & d' & E & Hw & HN'). exists s'. split; [done|].
  apply (wrote_at_node _ _ _ d' _ _ _ Hat Hw). split; [done|]. split; [done|apply Hok].
Qed.
Lemma recover_insert_ok N' r1 new r2 index items num : raws_of N = r1 ++ r2 → raws_of N' = r1 ++ new ++ r2 → same_head N N' → node_ok N' → size_of N' ≤ max_of N' →
  index = len r1 → items = bytes_of new → num = len new →
  ∃ s', recover_insert_items (class_of N) pn index items num s = Some (SUCCESS, s') ∧ changes 0 [pn] s s' ∧ at_node ex s' pn N'.
Proof.
  intros E1 E2 (Hc & Hp & Hx) Hok' Hsz Hi Hits Hnum. destruct (stored_at _ _ _ _ Hat) as (d & Ha & HN & Hok). rewrite E1 in HN.
  pose proof (raws_sized _ Hok') as Hall. rewrite E2, Hc, !all_size_app in Hall. destruct (room N' Hix Hsz) as [Hroom Hint].
  pose proof (at_page_len _ _ _ Ha) as [Hlen _]. rewrite <-len_raws, E2 in Hroom, Hint. rewrite Hc, Hx in Hroom.
  assert (Esz : item_size (class_of N) (tree_header s) = item_size (class_of N) h) by (by apply item_size_like). rewrite <-Esz in *.
  destruct (rn_insert _ _ _ _ _ _ _ _ (class_raw_of N) eq_refl Ha r1 new r2 items index num HN (proj1 (proj2 Hall)) Hits Hi Hnum) as (s' & d' & E & Hw & HN'); [by rewrite Hlen|done|].
  exists s'. split; [done|]. apply (wrote_at_node _ _ N d' _ _ _ Hat Hw). split; [|done]. rewrite (flag_class N N' Hc), Hp, Hx, Hc, E2, <-Esz. done.
Qed.
Lemma recover_remove_ok N' r1 old r2 index num : raws_of N = r1 ++ old ++ r2 → raws_of N' = r1 ++ r2 → same_head N N' → node_ok N' →
  index = len r1 → num = len old →
  ∃ s', recover_remove_items (class_of N) pn index num s = Some (SUCCESS, s') ∧ changes 0 [pn] s s' ∧ at_node ex s' pn N'.
Proof.
  intros E1 E2 (Hc & Hp & Hx) Hok' Hi Hnum. destruct (stored_at _ _ _ _ Hat) as (d & Ha & HN & Hok). rewrite E1 in HN.
  assert (Esz : item_size (class_of N) (tree_header s) = item_size (class_of N) h) by (by apply item_size_like). rewrite <-Esz in *.
  destruct (rn_remove _ _ _ _ _ _ _ _ (class_raw_of N) eq_refl Ha r1 old r2 index num HN Hi Hnum) as (s' & d' & E & Hw & HN').
  exists s'. split; [done|]. apply (wrote_at_node _ _ N d' _ _ _ Hat Hw). split; [|done]. rewrite (flag_class N N' Hc), Hp, Hx, Hc, E2, <-Esz. done.
Qed.
Lemma truncate_ok N' r1 r2 n : raws_of N = r1 ++ r2 → raws_of N' = r1 → same_head N N' → node_ok N' → n = - len r2 →
  ∃ s', increase_size pn n s = Some (tt, s') ∧ changes 0 [pn] s s' ∧ at_node ex s' pn N'.
Proof.
  intros E1 E2 (Hc & Hp & Hx) Hok' Hn. destruct (stored_at _ _ _ _ Hat) as (d & Ha & HN & Hok). rewrite E1 in HN.
  assert (Esz : item_size (class_of N) (tree_header s) = item_size (class_of N) h) by (by apply item_size_like). rewrite <-Esz in *.
  destruct (rn_truncate (class_of N) pn d _ _ _ s (tree_header s) Ha r1 r2 n HN Hn) as (s' & d' & E & Hw & HN').
  exists s'. split; [done|]. apply (wrote_at_node _ _ N d' _ _ _ Hat Hw). split; [|done]. rewrite (flag_class N N' Hc), Hp, Hx, Hc, E2, <-Esz. done.
Qed.
End writes.
End header.
End ops.
