(* ===== verification/BplusNodeOps.v ===== *)
(** * BplusNodeOps: the operations of the node handlers as operations on nodes

    Looking up a key, inserting and removing items, splitting a node and moving items to a
    neighbour, and the pages an operation gets hold of. *)
From stdpp Require Import sorting.
From S2P Require Import Prelude Types Encoding KeyCompare LowerBound LatchMemo LatchMemoSpec BplusNode BplusLog BplusNodeSpec BplusOps.

Ltac run E := rewrite (bind_eq _ _ _ _ _ E).

(** ** Lists *)

Lemma rd_cons {A} (x : A) l i : 0 ≤ i → rd (x :: l) (i + 1) = rd l i.
Proof. intros Hi. unfold rd. rewrite !decide_True by lia. by replace (Z.to_nat (i + 1)) with (S (Z.to_nat i)) by lia. Qed.
Lemma rd_middle {A B} (l1 : list (A * B)) k q l2 : rd (l1 ++ (k, q) :: l2).*1 (len l1) = Some k.
Proof. unfold rd. rewrite decide_True by apply len_pos. unfold len. by rewrite Nat2Z.id, list_lookup_fmap, list_lookup_middle. Qed.

(** ** Sorted keys *)

Section keys.
Context {valid : list Z → Prop} {cmp : list Z → list Z → Z} `{KO : !KeyOrder valid cmp}.
Implicit Types (ks : list (list Z)) (key : list Z).

Definition below key ks : Prop := Forall (λ k, cmp k key < 0) ks.
Definition above key ks : Prop := Forall (λ k, 0 < cmp k key) ks.
Definition ascending ks : Prop := Forall valid ks ∧ StronglySorted (λ a b, cmp a b < 0) ks.

(** where a binary search ends, and whether the key is there *)
Inductive located key ks : Z → bool → Prop :=
| located_found l1 k l2 : ks = l1 ++ k :: l2 → below key l1 → cmp k key = 0 → above key l2 → located key ks (len l1) true
| located_absent l1 l2 : ks = l1 ++ l2 → below key l1 → above key l2 → located key ks (len l1) false.

Lemma ascending_app l1 l2 : ascending (l1 ++ l2) ↔ ascending l1 ∧ ascending l2 ∧ ∀ a b, a ∈ l1 → b ∈ l2 → cmp a b < 0.
Proof.
  unfold ascending. rewrite Forall_app. split.
  - intros [[H1 H2] Hs]. repeat split; try done.
    + by eapply StronglySorted_app_1_l.
    + by eapply StronglySorted_app_1_r.
    + intros a b Ha Hb. by apply (StronglySorted_app_1_elem_of _ _ _ _ _ Hs).
  - intros ([H1 S1] & [H2 S2] & H12). repeat split; try done. by apply StronglySorted_app_2.
Qed.
Lemma ascending_cons k ks : ascending (k :: ks) ↔ valid k ∧ ascending ks ∧ Forall (λ b, cmp k b < 0) ks.
Proof.
  unfold ascending. rewrite Forall_cons. split.
  - intros [[H1 H2] Hs]. apply StronglySorted_inv in Hs as [H3 H4]. done.
  - intros (H1 & [H2 H3] & H4). repeat split; try done. by constructor.
Qed.
Lemma above_after key k ks : valid key → ascending (k :: ks) → 0 ≤ cmp k key → above key ks.
Proof.
  intros Hk Ha Hc. apply ascending_cons in Ha as (Hv & [Hvs _] & Hl). unfold above. rewrite Forall_forall in *. intros b Hb.
  apply cmp_flip_lt; [done|by apply Hvs|]. apply (cmp_le_lt_trans _ k); [done..|by apply Hvs| |by apply Hl]. by apply cmp_flip_le.
Qed.

Lemma located_cons key k ks i b : cmp k key < 0 → located key ks i b → located key (k :: ks) (i + 1) b.
Proof.
  intros Hk [l1 k' l2 -> H1 H2 H3|l1 l2 -> H1 H2].
  - replace (len l1 + 1) with (len (k :: l1)) by (unfold len; cbn [length]; lia). eapply (located_found _ _ (k :: l1)); [done|by constructor|done..].
  - replace (len l1 + 1) with (len (k :: l1)) by (unfold len; cbn [length]; lia). eapply (located_absent _ _ (k :: l1)); [done|by constructor|done..].
Qed.
Lemma linear_located key ks i : valid key → ascending ks →
  let r := linear_bound ((λ k, cmp k key) <$> ks) i in located key ks (r.1 - i) r.2.
Proof.
  intros Hk. revert i. induction ks as [|k ks IH]; intros i Hs; cbn [fmap list_fmap linear_bound].
  - cbn. rewrite Z.sub_diag. apply (located_absent _ _ [] []); [done|constructor..].
  - pose proof Hs as (Hv & Hs' & Hall)%ascending_cons. destruct (cmp k key <? 0) eqn:E; zbool.
    + specialize (IH (i + 1) Hs'). cbn zeta in *. apply (located_cons _ k) in IH; [|done]. by replace (_ - (i + 1) + 1) with ((linear_bound ((λ k, cmp k key) <$> ks) (i + 1)).1 - i) in IH by lia.
    + cbn. rewrite Z.sub_diag. pose proof (above_after key k ks Hk Hs E) as Hab. destruct (cmp k key =? 0) eqn:E0; zbool.
      * by eapply (located_found _ _ []); [done|constructor|..].
      * eapply (located_absent _ _ [] (k :: ks)); [done|constructor|constructor; [lia|done]].
Qed.
Lemma sorted_signs_of key ks : valid key → ascending ks → sorted_signs ((λ k, cmp k key) <$> ks).
Proof.
  intros Hk. induction ks as [|k ks IH]; intros Hs; [constructor|]. pose proof Hs as (Hv & Hs' & Hall)%ascending_cons. cbn. constructor; [by apply IH|].
  apply Forall_fmap, Forall_forall. intros b Hb. unfold compose. pose proof (proj1 (Forall_forall _ _) (proj1 Hs') b Hb) as Hvb. pose proof (proj1 (Forall_forall _ _) Hall b Hb) as Hkb. cbn in Hkb.
  destruct (decide (0 ≤ cmp k key)) as [Hc|Hc].
  - pose proof (proj1 (Forall_forall _ _) (above_after key k ks Hk Hs Hc) b Hb) as H1. cbn in H1. lia.
  - split; lia.
Qed.
(** the binary search *)
Lemma search_located (f : Z → option Z) key ks : valid key → ascending ks → (∀ i k, rd ks i = Some k → f i = Some (cmp k key)) →
  ∃ i b, lower_bound f (len ks) = Some (i, b) ∧ located key ks i b.
Proof.
  intros Hk Hs Hf. set (cs := (λ k, cmp k key) <$> ks). assert (Hlen : len cs = len ks) by apply len_fmap.
  pose proof (lower_bound_linear f cs) as E. rewrite Hlen in E. rewrite E.
  - pose proof (linear_located key ks 0 Hk Hs) as Hl. cbn zeta in Hl. fold cs in Hl. destruct (linear_bound cs 0) as [i b]. cbn in Hl. rewrite Z.sub_0_r in Hl. by exists i, b.
  - intros i Hi. destruct (rd_is_Some ks i ltac:(lia)) as [k Ek]. rewrite (Hf _ _ Ek). unfold rd in Ek |- *. rewrite decide_True in Ek by lia. rewrite decide_True by lia. unfold cs. by rewrite list_lookup_fmap, Ek.
  - by apply sorted_signs_of.
Qed.
Lemma located_bound key ks i b : located key ks i b → 0 ≤ i ≤ len ks.
Proof. intros [l1 k l2 -> _ _ _|l1 l2 -> _ _]; rewrite len_app; unfold len; cbn [length]; lia. Qed.
End keys.
Arguments below cmp key ks : clear implicits.
Arguments above cmp key ks : clear implicits.
Arguments ascending valid cmp ks : clear implicits.
Arguments located cmp key ks _ _ : clear implicits.

Section pages.
Context {P : Type} `{TL : TreePoolLaws P} (h : IndexFileHeader).
Abbreviation St := (Memo P TreeState).
Implicit Types (s : St) (pn q : PageNum) (ex : list LatchMemoItem).
Abbreviation ready := (ready h).

(** ** Getting pages *)

Lemma get_page_changes ex s pn : ready ex s → is_Some (pages s !! pn) →
  ∃ s', get_page pn s = Some (SUCCESS, s') ∧ changes 0 [] s s' ∧ held s' pn ∧ mkItem PIN (OnFrame pn) ∈ items_ s'.
Proof.
  intros [Hm _] Hp. destruct (get_page_ok ex s pn Hm Hp) as (s' & E & Hm' & [] & Hh & Hpg & Hfr & Hlk & Hit).
  exists s'. split; [done|]. split; [|split; [done|rewrite Hit; apply elem_of_app; right; by apply list_elem_of_singleton]]. constructor; unfold tree_header, latched, in_memory; rewrite ?ev_client, ?Hpg, ?Hlk; auto.
  - intros ex0 H0. destruct (get_page_ok ex0 s pn H0 Hp) as (s0 & E0 & Hm0 & _). congruence.
  - intros q [H1 H2]. auto.
Qed.

Lemma fresh_unlatched ex s pn : memo_ok ex s → pages s !! pn = None → m_locks s !! OnFrame pn = None.
Proof.
  intros Hs Hp. pose proof Hs as [Hh _ Ho1 Ho2]. assert (Hno : ∀ t, count t (OnFrame pn) (ex ++ items_ s) = 0%nat).
  { intros t. apply count_zero. intros Hi. assert (Hin : mkItem PIN (OnFrame pn) ∈ ex ++ items_ s).
    { destruct (decide (t = PIN)) as [->|Ht]; [done|]. by apply (needs_app _ _ (ordered_needs _ Ho1) (ordered_needs _ Ho2) t). }
    destruct (held_page ex s pn Hs) as [[g Hg] _]; [|congruence]. apply (held_pins ex); [done|]. by apply count_elem. }
  by rewrite (ho_locks _ _ Hh), !Hno.
Qed.
Lemma xlatch_changes ex s pn : ready ex s → mkItem PIN (OnFrame pn) ∈ items_ s → ¬ latched s (OnFrame pn) →
  ∃ s', xlatch pn s = Some (tt, s') ∧ changes 0 [pn] s s' ∧ pages s' = pages s.
Proof.
  intros [Hm _] Hi Hl. apply eq_None_not_Some in Hl. pose proof (xlatch_ok ex s pn Hm Hi Hl) as [E Hm']. eexists. split; [exact E|]. split; [|done].
  constructor; try done; auto.
  - intros ex0 H0. by apply (xlatch_ok ex0 s pn H0 Hi Hl).
  - intros w. unfold latched. cbn. destruct (decide (w = OnFrame pn)) as [->|Hw]; [right; exists pn; set_solver|]. rewrite lookup_insert_ne by done. by left.
Qed.
(** a new page, latched *)
Lemma allocate_page_changes ex s : ready ex s → (0 < free s)%nat →
  ∃ s' pn, allocate_page s = Some ((SUCCESS, pn), s') ∧ changes 1 [pn] s s' ∧ held s' pn ∧ pages s !! pn = None ∧ is_Some (pages s' !! pn) ∧
    mkItem PIN (OnFrame pn) ∈ items_ s' ∧ ¬ latched s' (OnFrame pn).
Proof.
  intros [Hm _] Hf. destruct (allocate_page_ok ex s Hm Hf) as (s' & pn & g & E & Hm' & [] & Hh & Hnone & Hpg & Hfr & Hlk & Hit).
  pose proof (fresh_unlatched ex s pn Hm Hnone) as Hul. exists s', pn. split; [done|].
  assert (Hp' : is_Some (pages s' !! pn)) by (rewrite Hpg, lookup_insert_eq; eauto).
  split; [|split; [done|split; [done|split; [done|split; [rewrite Hit; set_solver|unfold latched; rewrite Hlk, Hul; by intros []]]]]].
  constructor; unfold tree_header, latched; rewrite ?ev_client, ?Hlk; auto.
  - intros ex0 H0. destruct (allocate_page_ok ex0 s H0 Hf) as (s0 & pn0 & g0 & E0 & Hm0 & _). congruence.
  - lia.
  - intros q [H1 [g' H2]]. split; [auto|]. rewrite Hpg. rewrite lookup_insert_ne by congruence. eauto.
  - intros q Hq. rewrite Hpg, lookup_insert_ne by set_solver. done.
  - intros q [g' H2]. rewrite Hpg. rewrite lookup_insert_ne by congruence. eauto.
Qed.
End pages.

Section ops.
Context {P : Type} `{TL : TreePoolLaws P}.
Context (h : IndexFileHeader) (valid : list Z → Prop).
Abbreviation St := (Memo P TreeState).
Abbreviation cmp := (comparator h).
Context `{KO : !KeyOrder valid cmp} (Hlen : ∀ k, valid k → len k = key_length h) (Hix : index_ok h).
Implicit Types (s : St) (pn q : PageNum) (N : Node) (ex : list LatchMemoItem).
Abbreviation at_node := (at_node h).
Abbreviation ready := (ready h).
Abbreviation stored := (stored h).

(** ** Looking up a key *)

Lemma search_ok ex s pn N pre ks key first count : at_node ex s pn N → keys_of N = pre ++ ks → first = len pre → count = len ks → valid key → ascending valid cmp ks →
  ∃ i b, search (class_of N) pn first count key s = Some ((i, b), s) ∧ located cmp key ks i b.
Proof.
  intros Hat E -> -> Hk Hs. destruct (stored_at _ _ _ _ _ Hat) as (d & Ha & HN). pose proof (proj2 (proj1 Hat)) as [r Hlike].
  unfold search. run (file_header_ok s). run (data_at _ _ _ Ha). rewrite Hlike. unfold liftO.
  destruct (search_located (λ i, o ← item_at (class_of N) (with_root r h) (len pre + i); k ← mem_read d o (key_size (with_root r h)); Some (comparator (with_root r h) k key)) key ks Hk Hs) as (i & b & El & Hloc).
  - intros i k Hi. pose proof (rd_Some_range _ _ _ Hi). assert (Hki : rd (keys_of N) (len pre + i) = Some k).
    { unfold rd in *. rewrite decide_True in Hi by lia. pose proof (len_pos pre). rewrite decide_True by lia. rewrite E, lookup_app_r by (unfold len; lia). rewrite <-Hi. f_equal. unfold len. lia. }
    destruct (key_read h ex s pn N Hat d _ k HN Hki) as (o & Eo & Er). change (item_at (class_of N) (with_root r h)) with (item_at (class_of N) h). rewrite Eo. cbn [mbind option_bind].
    change (key_size (with_root r h)) with (key_length h). by rewrite Er.
  - exists i, b. by rewrite El.
Qed.

Lemma leaf_lookup_ok ex s pn p nx l key : at_node ex s pn (LeafOf p nx l) → valid key → ascending valid cmp l.*1 →
  ∃ i b, leaf_lookup pn key s = Some ((i, b), s) ∧ located cmp key l.*1 i b.
Proof.
  intros Hat Hk Hs. unfold leaf_lookup. run (size_ok _ _ _ _ _ Hat). apply (search_ok ex s pn _ [] l.*1 key 0 (len l) Hat); try done. by rewrite len_fmap.
Qed.

(** the child whose keys surround [key], and the place behind it *)
Lemma internal_lookup_ok ex s pn p k0 q0 kids key : at_node ex s pn (InnerOf p ((k0, q0) :: kids)) → valid key → ascending valid cmp kids.*1 →
  ∃ l1 l2 b pos, kids = l1 ++ l2 ∧ Forall (λ k, cmp k key ≤ 0) l1.*1 ∧ above cmp key l2.*1 ∧ internal_lookup pn key s = Some ((len l1, b, pos), s) ∧
    (Forall (λ k, cmp k key ≠ 0) kids.*1 → pos = len l1 + 1).
Proof.
  intros Hat Hk Hs. unfold internal_lookup. run (size_ok _ _ _ _ _ Hat). cbn [size_of].
  replace (len ((k0, q0) :: kids)) with (len kids + 1) by (unfold len; cbn [length]; lia). pose proof (len_pos kids).
  rewrite (proj2 (Z.eqb_neq _ 0)) by lia.
  destruct (search_ok ex s pn _ [k0] kids.*1 key 1 (len kids + 1 - 1) Hat) as (i & b & E & Hloc); [done|done|rewrite len_fmap; lia|done|done|]. cbn [class_of] in E. run E. cbn [fst snd].
  destruct Hloc as [ks1 k ks2 Eks Hb Hk0 Hab|ks1 ks2 Eks Hb Hab].
  - apply fmap_app_inv in Eks as (l1 & l2' & -> & E2 & ->). destruct l2' as [|[k' q] l2]; [done|]. cbn in E2. injection E2 as -> ->.
    rewrite (proj2 (Z.leb_gt _ _)) by (rewrite len_app, len_fmap; unfold len; cbn [length]; lia). run (file_header_ok s).
    assert (Ek : rd (keys_of (InnerOf p ((k0, q0) :: l1 ++ (k', q) :: l2))) (len l1.*1 + 1) = Some k').
    { rewrite len_fmap. change (rd (k0 :: (l1 ++ (k', q) :: l2).*1) (len l1 + 1) = Some k'). rewrite rd_cons by apply len_pos. apply rd_middle. }
    pose proof (raw_key_ok _ _ _ _ _ Hat _ _ Ek) as Er. cbn [class_of] in Er. run Er. destruct (proj2 (proj1 Hat)) as [r Hlike]. rewrite Hlike. change (comparator (with_root r h)) with cmp.
    assert (Hkv : valid k') by (apply (proj1 (Forall_forall _ _) (proj1 Hs)); rewrite fmap_app; set_solver).
    apply (cmp_flip_eq k' key Hkv Hk) in Hk0. rewrite (proj2 (Z.ltb_ge _ _)) by lia. apply (cmp_flip_eq key k' Hk Hkv) in Hk0.
    exists (l1 ++ [(k', q)]), l2, true, (len l1.*1 + 1). split; [by rewrite <-app_assoc|]. split; [|split; [done|split]].
    + rewrite fmap_app. apply Forall_app. split; [eapply Forall_impl; [exact Hb|cbn; lia]|]. constructor; [cbn; lia|done].
    + unfold ret. do 4 f_equal. rewrite len_fmap, len_app. done.
    + rewrite fmap_app, Forall_app. intros [_ Hne]. inversion_clear Hne as [|? ? Hne0 _]. cbn in Hne0. done.
  - apply fmap_app_inv in Eks as (l1 & l2 & -> & -> & ->). exists l1, l2, false, (len l1.*1 + 1).
    split; [done|]. split; [eapply Forall_impl; [exact Hb|cbn; lia]|]. split; [done|]. split; [|by rewrite len_fmap].
    rewrite !len_fmap. destruct l2 as [|[k q] l2].
    + rewrite (proj2 (Z.leb_le _ _)) by (rewrite len_app; unfold len; cbn [length]; lia). unfold ret. do 4 f_equal. lia.
    + rewrite (proj2 (Z.leb_gt _ _)) by (rewrite len_app; unfold len; cbn [length]; lia). run (file_header_ok s).
      assert (Ek : rd (keys_of (InnerOf p ((k0, q0) :: l1 ++ (k, q) :: l2))) (len l1 + 1) = Some k).
      { change (rd (k0 :: (l1 ++ (k, q) :: l2).*1) (len l1 + 1) = Some k). rewrite rd_cons by apply len_pos. apply rd_middle. }
      pose proof (raw_key_ok _ _ _ _ _ Hat _ _ Ek) as Er. cbn [class_of] in Er. run Er. destruct (proj2 (proj1 Hat)) as [r Hlike]. rewrite Hlike. change (comparator (with_root r h)) with cmp.
      inversion_clear Hab as [|? ? Hk1 _]. assert (Hkv : valid k) by (apply (proj1 (Forall_forall _ _) (proj1 Hs)); rewrite fmap_app; set_solver).
      apply (cmp_flip_lt key k Hk Hkv) in Hk1. rewrite (proj2 (Z.ltb_lt _ _)) by done. unfold ret. do 4 f_equal. lia.
Qed.

(** the child at an index *)
Lemma value_at_ok ex s pn p l1 k q l2 : at_node ex s pn (InnerOf p (l1 ++ (k, q) :: l2)) → internal_value_at pn (len l1) s = Some (q, s).
Proof.
  intros Hat. unfold internal_value_at. assert (Hi : 0 ≤ len l1 < size_of (InnerOf p (l1 ++ (k, q) :: l2))) by (cbn [size_of]; rewrite len_app; unfold len; cbn [length]; lia).
  run (in_node_ok _ _ _ _ _ Hat _ Hi). destruct (stored_at _ _ _ _ _ Hat) as (d & Ha & Hn & Hok). pose proof (proj2 (proj1 Hat)) as Hlike.
  cbn [node_ok] in Hok. rewrite Forall_app, Forall_cons in Hok. destruct Hok as (_ & [Hk Hq] & _). cbn in Hk, Hq.
  change (item_size (class_of (InnerOf p (l1 ++ (k, q) :: l2))) h) with (item_size InternalNode h) in Hn. rewrite <-(item_size_like _ _ _ Hlike) in Hn.
  assert (E : raw_value_at InternalNode pn (len l1) s = Some (enc32 q, s)).
  { apply (rn_raw_value _ _ _ _ _ _ _ _ _ (class_raw_of (InnerOf p (l1 ++ (k, q) :: l2))) eq_refl Ha Hn (kid_bytes <$> l1) k (enc32 q) (kid_bytes <$> l2)).
    - cbn [raws_of]. by rewrite fmap_app.
    - by rewrite len_fmap.
    - rewrite Hk. destruct Hlike as [r Hl]. unfold tree_header in Hl. by rewrite Hl.
    - apply len_enc32. }
  run E. unfold ret. by rewrite dec32_enc32.
Qed.

(** ** Single changes *)

Lemma set_parent_ok ex s pn N p : at_node ex s pn N → in_int32 p →
  ∃ s', set_parent_page_num pn p s = Some (SUCCESS, s') ∧ changes 0 [pn] s s' ∧ at_node ex s' pn (with_parent p N).
Proof.
  intros Hat Hp. unfold set_parent_page_num. run (parent_ok _ _ _ _ _ Hat).
  destruct (log_ok _ _ _ _ _ Hat (SetParentPageLogEntryHandler pn p (parent_of N)) eq_refl) as (s1 & E1 & C1 & H1). run E1.
  destruct (write_parent_ok _ _ _ _ _ H1 p Hp) as (s2 & E2 & C2 & H2). run E2. exists s2. split; [done|]. split; [by apply (changes_trans [pn] [pn] [pn] 0 0 s s1 s2)|done].
Qed.
Lemma set_next_ok ex s pn p nx l nx' : at_node ex s pn (LeafOf p nx l) → in_int32 nx' →
  ∃ s', set_next_page pn nx' s = Some (SUCCESS, s') ∧ changes 0 [pn] s s' ∧ at_node ex s' pn (LeafOf p nx' l).
Proof.
  intros Hat Hp. unfold set_next_page. run (next_ok _ _ _ _ _ Hat p nx l eq_refl).
  destruct (log_ok _ _ _ _ _ Hat (LeafSetNextPageLogEntryHandler pn nx' nx) eq_refl) as (s1 & E1 & C1 & H1). run E1.
  destruct (write_next_ok _ _ _ _ _ H1 p nx l nx' eq_refl Hp) as (s2 & E2 & C2 & H2). run E2. exists s2. split; [done|]. split; [by apply (changes_trans [pn] [pn] [pn] 0 0 s s1 s2)|done].
Qed.

Lemma leaf_insert_ok ex s pn p nx l1 l2 key value : at_node ex s pn (LeafOf p nx (l1 ++ l2)) → len key = key_length h → len value = 8 → len (l1 ++ l2) < leaf_max_size h →
  ∃ s', leaf_insert pn (len l1) key value s = Some (SUCCESS, s') ∧ changes 0 [pn] s s' ∧ at_node ex s' pn (LeafOf p nx (l1 ++ (key, value) :: l2)).
Proof.
  intros Hat Hk Hv Hsz. unfold leaf_insert. run (file_header_ok s). destruct (proj2 (proj1 Hat)) as [r Hlike]. rewrite Hlike. change (key_size (with_root r h)) with (key_length h).
  rewrite <-Hk. rewrite (bind_liftO _ _ _ _ (mem_read_all key)). change (value_size LeafNode) with 8. rewrite <-Hv. rewrite (bind_liftO _ _ _ _ (mem_read_all value)).
  destruct (log_ok _ _ _ _ _ Hat (NormalOperationLogEntryHandler pn true (len l1) (key ++ value) 1) eq_refl) as (s1 & E1 & C1 & H1). run E1.
  destruct (stored_at _ _ _ _ _ Hat) as (d & _ & _ & [Hnx Hok]). apply Forall_app in Hok as [Ho1 Ho2].
  destruct (recover_insert_ok _ _ _ _ _ H1 Hix (LeafOf p nx (l1 ++ (key, value) :: l2)) (item_bytes <$> l1) [key ++ value] (item_bytes <$> l2) (len l1) (key ++ value) 1) as (s2 & E2 & C2 & H2).
  - cbn [raws_of]. by rewrite fmap_app.
  - cbn [raws_of]. rewrite fmap_app. done.
  - done.
  - split; [done|]. apply Forall_app. split; [done|]. by constructor.
  - cbn [size_of max_of]. rewrite len_app in *. unfold len in *. cbn [length]. lia.
  - by rewrite len_fmap.
  - unfold mjoin. cbn. by rewrite app_nil_r.
  - done.
  - cbn [class_of] in E2. run E2. exists s2. split; [done|]. split; [by apply (changes_trans [pn] [pn] [pn] 0 0 s s1 s2)|done].
Qed.
Lemma internal_insert_ok ex s pn p k0 q0 l1 l2 key q : at_node ex s pn (InnerOf p ((k0, q0) :: l1 ++ l2)) → valid key → in_int32 q →
  ascending valid cmp (l1 ++ l2).*1 → below cmp key l1.*1 → above cmp key l2.*1 → len ((k0, q0) :: l1 ++ l2) < internal_max_size h →
  ∃ s', internal_insert pn key q s = Some (SUCCESS, s') ∧ changes 0 [pn] s s' ∧ at_node ex s' pn (InnerOf p ((k0, q0) :: l1 ++ (key, q) :: l2)).
Proof.
  intros Hat Hk Hq Hs Hb Ha Hsz. unfold internal_insert. destruct (internal_lookup_ok ex s pn p k0 q0 (l1 ++ l2) key Hat Hk Hs) as (m1 & m2 & b & pos & Em & Hm1 & Hm2 & E & Hpos).
  run E. cbn [fst snd].
  assert (Hne : Forall (λ k, cmp k key ≠ 0) (l1 ++ l2).*1) by (rewrite fmap_app; apply Forall_app; split; [eapply Forall_impl; [exact Hb|cbn; lia]|eapply Forall_impl; [exact Ha|cbn; lia]]).
  specialize (Hpos Hne). assert (Hm : m1 = l1 ∧ m2 = l2).
  { apply app_inj_1; [|done]. assert (Hcount : ∀ l l' : list (list Z * PageNum), Forall (λ k, cmp k key ≤ 0) l.*1 → above cmp key l'.*1 → length (filter (λ kq, cmp kq.1 key ≤ 0) (l ++ l')) = length l).
    { intros l l' H1 H2. rewrite filter_app, (list_filter_all _ l), (list_filter_none _ l'), app_nil_r; [done| |].
      - unfold above in H2. rewrite Forall_fmap in H2. eapply Forall_impl; [exact H2|]. unfold compose. cbn. lia.
      - by rewrite Forall_fmap in H1. }
    rewrite <-(Hcount m1 m2), <-Em by done. apply Hcount; [eapply Forall_impl; [exact Hb|cbn; lia]|done]. }
  destruct Hm as [-> ->]. subst pos. run (file_header_ok s). destruct (proj2 (proj1 Hat)) as [r Hlike]. rewrite Hlike. change (key_size (with_root r h)) with (key_length h).
  pose proof (Hlen _ Hk) as Hkl. rewrite <-Hkl. rewrite (bind_liftO _ _ _ _ (mem_read_all key)). unfold page_num_bytes.
  destruct (log_ok _ _ _ _ _ Hat (NormalOperationLogEntryHandler pn true (len l1 + 1) (key ++ enc32 q) 1) eq_refl) as (s1 & E1 & C1 & H1). run E1.
  destruct (stored_at _ _ _ _ _ Hat) as (d & _ & _ & Hok). cbn [node_ok] in Hok. inversion_clear Hok as [|? ? Hok0 Hok']. apply Forall_app in Hok' as [Ho1 Ho2].
  destruct (recover_insert_ok _ _ _ _ _ H1 Hix (InnerOf p ((k0, q0) :: l1 ++ (key, q) :: l2)) (kid_bytes <$> (k0, q0) :: l1) [key ++ enc32 q] (kid_bytes <$> l2) (len l1 + 1) (key ++ enc32 q) 1) as (s2 & E2 & C2 & H2).
  - cbn [raws_of]. rewrite !fmap_cons, fmap_app. done.
  - cbn [raws_of]. rewrite !fmap_cons, fmap_app. done.
  - done.
  - constructor; [done|]. apply Forall_app. split; [done|]. by constructor.
  - cbn [size_of max_of]. unfold len in *. cbn [length] in *. rewrite length_app in *. cbn [length]. lia.
  - rewrite len_fmap. unfold len. cbn [length]. lia.
  - unfold mjoin. cbn. by rewrite app_nil_r.
  - done.
  - cbn [class_of] in E2. rewrite E2. exists s2. split; [done|]. split; [by apply (changes_trans [pn] [pn] [pn] 0 0 s s1 s2)|done].
Qed.
End ops.
