(* ===== verification/BplusMoves.v ===== *)
(** * BplusMoves: new nodes, and items that move from one node to another *)
From stdpp Require Import sorting.
From S2P Require Import Prelude Types Encoding KeyCompare LowerBound LatchMemo LatchMemoSpec BplusNode BplusLog BplusNodeSpec BplusOps BplusNodeOps.

(** a node that a step has not changed *)
Ltac keep C := eapply at_node_changes; [exact C|set_solver|eassumption].

Lemma cut {A} n (l : list A) : 0 ≤ n ≤ len l → ∃ l1 l2, l = l1 ++ l2 ∧ len l1 = n.
Proof. intros Hn. exists (take (Z.to_nat n) l), (drop (Z.to_nat n) l). rewrite take_drop. split; [done|]. unfold len in *. rewrite length_take. lia. Qed.

Lemma mem_write_at {A} (l l' l1 l2 l3 l2' : list A) off : l = l1 ++ l2 ++ l3 → l' = l1 ++ l2' ++ l3 → off = len l1 → len l2' = len l2 → mem_write l off l2' = Some l'.
Proof. intros -> -> ->. apply mem_write_app. Qed.

Section moves.
Context {P : Type} `{TL : TreePoolLaws P}.
Context (h : IndexFileHeader).
Abbreviation St := (Memo P TreeState).
Context (Hix : index_ok h).
Implicit Types (s : St) (pn q : PageNum) (N : Node) (ex : list LatchMemoItem).
Abbreviation at_node := (at_node h).
Abbreviation ready := (ready h).
Abbreviation stored := (stored h).

(** ** New nodes *)

Lemma blank_at ex s pn : ready ex s → held s pn → ∃ d, at_page s pn d ∧ len d = tp_page_size.
Proof. intros [Hm _] Hh. destruct (held_page ex s pn Hm Hh) as [[g Hg] _]. pose proof (at_page_held ex s pn g Hm Hh Hg) as Ha. exists (tpg_data g). split; [done|]. apply (at_page_len _ _ _ Ha). Qed.
Lemma blank_head (d : list Z) : 12 ≤ len d → ∃ (b : Z) (pad a c junk : list Z), d = ([b] ++ pad) ++ a ++ c ++ junk ∧ len pad = 3 ∧ len a = 4 ∧ len c = 4.
Proof.
  intros Hd. destruct d as [|b d]; [unfold len in Hd; cbn in Hd; lia|]. change (b :: d) with ([b] ++ d) in *. rewrite len_app in Hd. change (len [b]) with 1 in Hd.
  destruct (cut 3 d) as (pad & d1 & -> & Hp); [lia|]. rewrite len_app in Hd. destruct (cut 4 d1) as (a & d2 & -> & Ha); [lia|]. rewrite len_app in Hd.
  destruct (cut 4 d2) as (c & junk & -> & Hc); [lia|]. exists b, pad, a, c, junk. split; [by rewrite <-!app_assoc|done].
Qed.
Lemma init_empty_at s pn d leaf : at_page s pn d → 12 ≤ len d → ∃ s' (pad junk : list Z), init_empty pn leaf s = Some (tt, s') ∧ len pad = 3 ∧ len junk = len d - 12 ∧
  wrote pn (([if leaf then 1 else 0] ++ pad) ++ enc32 0 ++ enc32 (-1) ++ junk) s s'.
Proof.
  intros Ha Hd. destruct (blank_head d Hd) as (b & pad & a & c & junk & -> & Hp & Hla & Hlc). set (f := if leaf then 1 else 0).
  assert (W1 : mem_write (([b] ++ pad) ++ a ++ c ++ junk) 0 [f] = Some (([f] ++ pad) ++ a ++ c ++ junk)) by (apply (mem_write_app [] [b] (pad ++ a ++ c ++ junk) [f]); done).
  destruct (memcpy_at _ _ _ _ _ _ Ha W1) as (s1 & E1 & Hw1). pose proof (wrote_at _ _ _ _ Ha _ Hw1) as Ha1.
  assert (W2 : mem_write (([f] ++ pad) ++ a ++ c ++ junk) 4 (enc32 0) = Some (([f] ++ pad) ++ enc32 0 ++ c ++ junk)).
  { replace 4 with (len ([f] ++ pad)) by (rewrite len_app, Hp; done). apply mem_write_app. by rewrite len_enc32. }
  destruct (memcpy_at _ _ _ _ _ _ Ha1 W2) as (s2 & E2 & Hw2). pose proof (wrote_at _ _ _ _ Ha1 _ Hw2) as Ha2.
  assert (W3 : mem_write (([f] ++ pad) ++ enc32 0 ++ c ++ junk) 8 (enc32 (-1)) = Some (([f] ++ pad) ++ enc32 0 ++ enc32 (-1) ++ junk)).
  { eapply (mem_write_at _ _ (([f] ++ pad) ++ enc32 0) c junk); [by rewrite <-!app_assoc|by rewrite <-!app_assoc|rewrite !len_app, !len_enc32, Hp; done|by rewrite len_enc32]. }
  destruct (memcpy_at _ _ _ _ _ _ Ha2 W3) as (s3 & E3 & Hw3). exists s3, pad, junk.
  split; [unfold init_empty, write_int; run E1; run E2; exact E3|]. split; [done|]. split; [rewrite !len_app, Hp, Hla, Hlc; change (len [b]) with 1; lia|].
  apply (wrote_trans _ _ _ _ _ _ Hw1). by apply (wrote_trans _ _ _ _ _ _ Hw2).
Qed.
Lemma page_size_head : 16 ≤ tp_page_size.
Proof. pose proof (item_size_pos h LeafNode Hix). destruct Hix. unfold LeafIndexNode_HEADER_SIZE, IndexNode_HEADER_SIZE in *. nia. Qed.

(** a page becomes an empty node, whatever it held *)
Lemma wrote_new ex s s' pn d N : ready ex s → held s pn → wrote pn d s s' → node_repr h N d → changes 0 [pn] s s' ∧ at_node ex s' pn N.
Proof.
  intros Hr Hh Hw HN. destruct (wrote_stored h _ _ _ _ _ Hw HN) as [Hc Hst]. split; [done|]. split; [by apply (changes_ready _ 0 [pn] ex s)|]. split; [by apply (ch_held _ _ _ _ Hc)|done].
Qed.
Lemma leaf_init_ok ex s pn : ready ex s → held s pn →
  ∃ s', leaf_init_empty pn s = Some (SUCCESS, s') ∧ changes 0 [pn] s s' ∧ at_node ex s' pn (LeafOf (-1) (-1) []).
Proof.
  intros Hr Hh. destruct (blank_at _ _ _ Hr Hh) as (d & Ha & Hd). pose proof page_size_head as Hsz.
  destruct (tree_append_log_ok (LeafInitEmptyLogEntryHandler pn) _ _ _ Ha eq_refl) as (s1 & E1 & Hw1). pose proof (wrote_at _ _ _ _ Ha _ Hw1) as Ha1.
  destruct (init_empty_at s1 pn d true Ha1 ltac:(lia)) as (s2 & pad & junk & E2 & Hp & Hj & Hw2). pose proof (wrote_at _ _ _ _ Ha1 _ Hw2) as Ha2.
  destruct (cut 4 junk) as (e & junk' & -> & He); [lia|].
  assert (W3 : mem_write (([1] ++ pad) ++ enc32 0 ++ enc32 (-1) ++ e ++ junk') 12 (enc32 (-1)) = Some (([1] ++ pad) ++ enc32 0 ++ enc32 (-1) ++ enc32 (-1) ++ junk')).
  { eapply (mem_write_at _ _ (([1] ++ pad) ++ enc32 0 ++ enc32 (-1)) e junk'); [by rewrite <-!app_assoc|by rewrite <-!app_assoc|rewrite !len_app, !len_enc32, Hp; done|by rewrite len_enc32]. }
  destruct (memcpy_at _ _ _ _ _ _ Ha2 W3) as (s3 & E3 & Hw3). exists s3. split; [unfold leaf_init_empty, write_int; run E1; run E2; by run E3|].
  apply (wrote_new ex s s3 pn _ _ Hr Hh (wrote_trans _ _ _ _ _ _ Hw1 (wrote_trans _ _ _ _ _ _ Hw2 Hw3))).
  split; [|split; [unfold in_int32; lia|constructor]]. exists pad, junk'. split; [done|]. split; [done|]. cbn. change (len (@nil (list Z))) with 0. unfold in_int32, all_size. repeat split; try lia. constructor.
Qed.
Lemma internal_init_ok ex s pn : ready ex s → held s pn →
  ∃ s', internal_init_empty pn s = Some (SUCCESS, s') ∧ changes 0 [pn] s s' ∧ at_node ex s' pn (InnerOf (-1) []).
Proof.
  intros Hr Hh. destruct (blank_at _ _ _ Hr Hh) as (d & Ha & Hd). pose proof page_size_head as Hsz.
  destruct (tree_append_log_ok (InternalInitEmptyLogEntryHandler pn) _ _ _ Ha eq_refl) as (s1 & E1 & Hw1). pose proof (wrote_at _ _ _ _ Ha _ Hw1) as Ha1.
  destruct (init_empty_at s1 pn d false Ha1 ltac:(lia)) as (s2 & pad & junk & E2 & Hp & Hj & Hw2).
  exists s2. split; [unfold internal_init_empty; run E1; by run E2|].
  apply (wrote_new ex s s2 pn _ _ Hr Hh (wrote_trans _ _ _ _ _ _ Hw1 Hw2)).
  split; [|constructor]. exists pad, junk. split; [done|]. split; [done|]. cbn. change (len (@nil (list Z))) with 0. unfold in_int32, all_size. repeat split; try lia. constructor.
Qed.

(** the first two children of a new root; its first key is not used *)
Lemma create_new_root_ok ex s pn p q1 k q2 : at_node ex s pn (InnerOf p []) → len k = key_length h → in_int32 q1 → in_int32 q2 → 
  ∃ s', create_new_root pn q1 k q2 s = Some (SUCCESS, s') ∧ changes 0 [pn] s s' ∧ at_node ex s' pn (InnerOf p [(replicate (Z.to_nat (key_length h)) 0, q1); (k, q2)]).
Proof.
  intros Hat Hk Hq1 Hq2. destruct (log_ok _ _ _ _ _ Hat (InternalCreateNewRootLogEntryHandler pn q1 k q2) eq_refl) as (s0 & E0 & C0 & H0).
  destruct (stored_at _ _ _ _ _ H0) as (d & Ha & HN & _). pose proof (at_page_len _ _ _ Ha) as [Hd _]. destruct HN as (pad & junk & Hp & Ed & Hip & Hr & Hs). cbn [flag_of parent_of next_bytes raws_of fmap list_fmap class_of] in *.
  destruct (proj2 (proj1 Hat)) as [r Hlike]. set (z := replicate (Z.to_nat (key_length h)) 0). pose proof Hix as [].
  assert (Hz : len z = key_length h) by (unfold z, len; rewrite length_replicate; lia).
  set (pre := ([0] ++ pad) ++ enc32 (len (@nil (list Z))) ++ enc32 p). assert (Hpre : len pre = 12) by (unfold pre; rewrite !len_app, !len_enc32, Hp; done).
  change (@nil Z ++ bytes_of [] ++ junk) with junk in Ed. assert (Ed' : d = pre ++ junk) by (rewrite Ed; unfold pre; by rewrite <-!app_assoc).
  assert (Hj : 2 * (key_length h + 4) ≤ len junk).
  { unfold InternalIndexNode_HEADER_SIZE, IndexNode_HEADER_SIZE, item_size, key_size, value_size, sizeof_PageNum in *. rewrite Ed', len_app, Hpre in Hd. nia. }
  destruct (cut (key_length h) junk) as (a1 & j1 & -> & L1); [lia|]. rewrite len_app in Hj. destruct (cut 4 j1) as (a2 & j2 & -> & L2); [lia|]. rewrite len_app in Hj.
  destruct (cut (key_length h) j2) as (a3 & j3 & -> & L3); [lia|]. rewrite len_app in Hj. destruct (cut 4 j3) as (a4 & j4 & -> & L4); [lia|]. subst d.
  assert (W1 : mem_write (pre ++ a1 ++ a2 ++ a3 ++ a4 ++ j4) 12 z = Some (pre ++ z ++ a2 ++ a3 ++ a4 ++ j4)) by (eapply (mem_write_at _ _ pre a1); [done|done|lia|lia]).
  assert (W2 : mem_write (pre ++ z ++ a2 ++ a3 ++ a4 ++ j4) (12 + key_length h) (enc32 q1) = Some (pre ++ z ++ enc32 q1 ++ a3 ++ a4 ++ j4)) by
    (eapply (mem_write_at _ _ (pre ++ z) a2); [by rewrite <-!app_assoc|by rewrite <-!app_assoc|rewrite len_app; lia|by rewrite len_enc32]).
  assert (W3 : mem_write (pre ++ z ++ enc32 q1 ++ a3 ++ a4 ++ j4) (12 + (key_length h + 4)) k = Some (pre ++ z ++ enc32 q1 ++ k ++ a4 ++ j4)) by
    (eapply (mem_write_at _ _ (pre ++ z ++ enc32 q1) a3); [by rewrite <-!app_assoc|by rewrite <-!app_assoc|rewrite !len_app, len_enc32; lia|lia]).
  assert (W4 : mem_write (pre ++ z ++ enc32 q1 ++ k ++ a4 ++ j4) (12 + (key_length h + 4) + key_length h) (enc32 q2) = Some (pre ++ z ++ enc32 q1 ++ k ++ enc32 q2 ++ j4)) by
    (eapply (mem_write_at _ _ (pre ++ z ++ enc32 q1 ++ k) a4); [by rewrite <-!app_assoc|by rewrite <-!app_assoc|rewrite !len_app, len_enc32; lia|by rewrite len_enc32]).
  rewrite Ed' in Ha. destruct (memcpy_at _ _ _ _ _ _ Ha W1) as (s1 & E1 & Hw1). pose proof (wrote_at _ _ _ _ Ha _ Hw1) as Ha1.
  destruct (memcpy_at _ _ _ _ _ _ Ha1 W2) as (s2 & E2 & Hw2). pose proof (wrote_at _ _ _ _ Ha1 _ Hw2) as Ha2.
  destruct (memcpy_at _ _ _ _ _ _ Ha2 W3) as (s3 & E3 & Hw3). pose proof (wrote_at _ _ _ _ Ha2 _ Hw3) as Ha3.
  destruct (memcpy_at _ _ _ _ _ _ Ha3 W4) as (s4 & E4 & Hw4). pose proof (wrote_at _ _ _ _ Ha3 _ Hw4) as Ha4.
  set (raws := [z ++ enc32 q1; k ++ enc32 q2]). destruct (increase_size_at pn (pre ++ z ++ enc32 q1 ++ k ++ enc32 q2 ++ j4) 0 p [] (item_size InternalNode h) [] pad s4 raws j4 2 Ha4 Hp Hip) as (s5 & d5 & E5 & Hw5 & HN5).
  - unfold pre, raws. cbn [mjoin list_join]. by rewrite <-!app_assoc.
  - done.
  - unfold in_int32. change (len raws) with 2. lia.
  - unfold all_size, raws, item_size, key_size, value_size, sizeof_PageNum. repeat constructor; rewrite len_app, len_enc32; lia.
  - done.
  - exists s5. split.
    + unfold create_new_root. run (file_header_ok s). rewrite Hlike. change (key_size (with_root r h)) with (key_length h). rewrite <-Hk. rewrite (bind_liftO _ _ _ _ (mem_read_all k)). run E0. rewrite Hk.
      change (item_at InternalNode (with_root r h) 0) with (Some (12 + 0 * (key_length h + 4))). rewrite Z.mul_0_l, Z.add_0_r. run E1.
      change (value_offset InternalNode (with_root r h) 0) with (Some (12 + 0 * (key_length h + 4) + key_length h)). rewrite Z.mul_0_l, Z.add_0_r. unfold page_num_bytes. run E2.
      change (item_at InternalNode (with_root r h) 1) with (Some (12 + 1 * (key_length h + 4))). rewrite Z.mul_1_l. run E3.
      change (value_offset InternalNode (with_root r h) 1) with (Some (12 + 1 * (key_length h + 4) + key_length h)). rewrite Z.mul_1_l. run E4. by run E5.
    + destruct (wrote_at_node h ex pn _ d5 s0 s5 (InnerOf p [(z, q1); (k, q2)]) H0 (wrote_trans _ _ _ _ _ _ Hw1 (wrote_trans _ _ _ _ _ _ Hw2 (wrote_trans _ _ _ _ _ _ Hw3 (wrote_trans _ _ _ _ _ _ Hw4 Hw5))))) as [C H5].
      * split; [exact HN5|]. apply Forall_cons; split; [done|]. apply Forall_cons; split; [done|constructor].
      * split; [by apply (changes_trans [pn] [pn] [pn] 0 0 s s0)|done].
Qed.

(** ** Items that move *)

Lemma leaf_append_ok ex s pn p nx l l2 items num : at_node ex s pn (LeafOf p nx l) → node_ok h (LeafOf p nx (l ++ l2)) → len (l ++ l2) ≤ leaf_max_size h →
  items = bytes_of (item_bytes <$> l2) → num = len l2 →
  ∃ s', leaf_append pn items num s = Some (SUCCESS, s') ∧ changes 0 [pn] s s' ∧ at_node ex s' pn (LeafOf p nx (l ++ l2)).
Proof.
  intros Hat Hok Hsz -> ->. unfold leaf_append. run (size_ok _ _ _ _ _ Hat). cbn [size_of].
  destruct (log_ok _ _ _ _ _ Hat (NormalOperationLogEntryHandler pn true (len l) (bytes_of (item_bytes <$> l2)) (len l2)) eq_refl) as (s1 & E1 & C1 & H1). run E1.
  run (size_ok _ _ _ _ _ H1). cbn [size_of].
  destruct (recover_insert_ok _ _ _ _ _ H1 Hix (LeafOf p nx (l ++ l2)) (item_bytes <$> l) (item_bytes <$> l2) [] (len l) (bytes_of (item_bytes <$> l2)) (len l2)) as (s2 & E2 & C2 & H2); try done.
  - cbn [raws_of]. by rewrite app_nil_r.
  - cbn [raws_of]. by rewrite app_nil_r, fmap_app.
  - by rewrite len_fmap.
  - by rewrite len_fmap.
  - cbn [class_of] in E2. exists s2. split; [done|]. split; [by apply (changes_trans [pn] [pn] [pn] 0 0 s s1 s2)|done].
Qed.
(** items at the end of a node are given away *)
Lemma leaf_drop_tail ex s pn p nx l1 l2 e : at_node ex s pn (LeafOf p nx (l1 ++ l2)) → entry_frame e = pn →
  ∃ s1 s2, append_log_entry e s = Some (SUCCESS, s1) ∧ recover_remove_items LeafNode pn (len l1) (len l2) s1 = Some (SUCCESS, s2) ∧ changes 0 [pn] s s2 ∧ at_node ex s2 pn (LeafOf p nx l1).
Proof.
  intros Hat He. destruct (log_ok _ _ _ _ _ Hat e He) as (s1 & E1 & C1 & H1).
  destruct (stored_at _ _ _ _ _ Hat) as (d & _ & _ & [Hnx Hok]). apply Forall_app in Hok as [Ho1 Ho2].
  destruct (recover_remove_ok _ _ _ _ _ H1 (LeafOf p nx l1) (item_bytes <$> l1) (item_bytes <$> l2) [] (len l1) (len l2)) as (s2 & E2 & C2 & H2); try done.
  - cbn [raws_of]. by rewrite app_nil_r, fmap_app.
  - cbn [raws_of]. by rewrite app_nil_r.
  - by rewrite len_fmap.
  - by rewrite len_fmap.
  - exists s1, s2. split; [done|]. split; [done|]. split; [by apply (changes_trans [pn] [pn] [pn] 0 0 s s1 s2)|done].
Qed.
Lemma leaf_move_half_ok ex s pn other p nx p' nx' l1 l2 : at_node ex s pn (LeafOf p nx (l1 ++ l2)) → at_node ex s other (LeafOf p' nx' []) → pn ≠ other →
  len l1 = Z.quot (len (l1 ++ l2)) 2 → len l2 ≤ leaf_max_size h →
  ∃ s', leaf_move_half_to pn other s = Some (SUCCESS, s') ∧ changes 0 [pn; other] s s' ∧ at_node ex s' pn (LeafOf p nx l1) ∧ at_node ex s' other (LeafOf p' nx' l2).
Proof.
  intros Hat Hother Hne Hl1 Hsz. unfold leaf_move_half_to. run (size_ok _ _ _ _ _ Hat). cbn [size_of]. rewrite <-Hl1. replace (len (l1 ++ l2) - len l1) with (len l2) by (rewrite len_app; lia).
  destruct (stored_at _ _ _ _ _ Hat) as (d & _ & _ & [Hnx Hok]). apply Forall_app in Hok as [Ho1 Ho2]. destruct (stored_at _ _ _ _ _ Hother) as (d' & _ & _ & [Hnx' _]).
  assert (Eit : ∀ s0, at_node ex s0 pn (LeafOf p nx (l1 ++ l2)) → items_at LeafNode pn (len l1) (len l2) s0 = Some (bytes_of (item_bytes <$> l2), s0)).
  { intros s0 H0. apply (items_at_ok _ _ _ _ _ H0 (item_bytes <$> l1) (item_bytes <$> l2) []); [cbn [raws_of]; by rewrite app_nil_r, fmap_app|by rewrite len_fmap|by rewrite len_fmap]. }
  run (Eit s Hat). destruct (leaf_append_ok ex s other p' nx' [] l2 (bytes_of (item_bytes <$> l2)) (len l2) Hother) as (s1 & E1 & C1 & H1); [done|done|done|done|]. run E1.
  assert (Hat1 : at_node ex s1 pn (LeafOf p nx (l1 ++ l2))) by keep C1. run (Eit s1 Hat1).
  destruct (leaf_drop_tail ex s1 pn p nx l1 l2 (NormalOperationLogEntryHandler pn false (len l1) (bytes_of (item_bytes <$> l2)) (len l2)) Hat1 eq_refl) as (s2 & s3 & E2 & E3 & C3 & H3).
  run E2. run E3. exists s3. split; [done|]. split; [apply (changes_trans [pn; other] [other] [pn] 0 0 s s1 s3); [done|done|set_solver|set_solver]|]. split; [done|]. keep C3.
Qed.

(** *** Children get a new parent *)

(** the pages of [kids] hold the nodes [Ns], but for their parents *)
Definition kids_stored s (par : PageNum) (kids : list (list Z * PageNum)) (Ns : list Node) : Prop := Forall2 (λ kq N, stored s kq.2 (with_parent par N)) kids Ns.
Lemma kids_changes k X s s' par kids Ns : changes k X s s' → (∀ q, q ∈ kids.*2 → q ∉ X) → kids_stored s par kids Ns → kids_stored s' par kids Ns.
Proof.
  intros Hc HX Hk. induction Hk as [|[k1 q] N kids Ns H1 _ IH]; [constructor|]. constructor; [|apply IH; set_solver]. apply (changes_stored _ k X s); [done| |done]. apply HX. set_solver.
Qed.
Lemma read_kid kids1 k q kids2 : len k = key_length h → Forall (λ kq, len kq.1 = key_length h) kids1 →
  mem_read (bytes_of (kid_bytes <$> kids1 ++ (k, q) :: kids2)) (len kids1 * (key_length h + 4) + key_length h) 4 = Some (enc32 q).
Proof.
  intros Hk Hks. rewrite fmap_app, bytes_app. assert (L1 : len (bytes_of (kid_bytes <$> kids1)) = len kids1 * (key_length h + 4)).
  { rewrite (len_bytes (key_length h + 4)), len_fmap; [done|]. apply Forall_fmap. eapply Forall_impl; [exact Hks|]. intros [k1 q1] H1. unfold compose, kid_bytes. cbn [fst snd] in *. rewrite len_app, len_enc32. lia. }
  rewrite <-L1, <-Hk. change (bytes_of (kid_bytes <$> (k, q) :: kids2)) with ((k ++ enc32 q) ++ bytes_of (kid_bytes <$> kids2)).
  rewrite <-len_app, <-app_assoc, app_assoc. apply (mem_read_app _ (enc32 q)).
Qed.
Lemma set_parents_ok ex n this old s kids1 kids Ns i items : ready ex s → in_int32 this → kids_stored s old kids Ns → NoDup kids.*2 → Forall (λ kq, len kq.1 = key_length h ∧ in_int32 kq.2) (kids1 ++ kids) →
  n = length kids → i = len kids1 → items = bytes_of (kid_bytes <$> kids1 ++ kids) →
  ∃ s', set_parents n i items this s = Some (SUCCESS, s') ∧ changes 0 kids.*2 s s' ∧ kids_stored s' this kids Ns.
Proof.
  intros Hr Hthis Hk. revert n s Hr Hk kids1 i items. induction kids as [|[k q] kids IH] in Ns |- *; intros n s Hr Hk kids1 i items Hnd Hok -> -> ->.
  - inversion Hk; subst. exists s. split; [done|]. split; [apply changes_refl|constructor].
  - inversion Hk as [|? N ? Ns' HN HNs]; subst. cbn [fmap list_fmap snd] in Hnd. apply NoDup_cons in Hnd as [Hnq Hnd]. pose proof Hok as [Hok1 Hok2]%Forall_app. apply Forall_cons in Hok2 as [[Hkl Hq] Hok2].
    cbn [length set_parents]. run (file_header_ok s). destruct (proj2 Hr) as [r Hlike]. rewrite Hlike.
    change (item_size InternalNode (with_root r h)) with (key_length h + 4). change (key_size (with_root r h)) with (key_length h). change sizeof_PageNum with 4. cbn [fst snd] in *.
    rewrite (bind_liftO _ (enc32 q)) by (apply read_kid; [done|eapply Forall_impl; [exact Hok1|by intros ? []]]). rewrite dec32_enc32 by done.
    destruct (get_page_changes h ex s q Hr (stored_exists h _ _ _ HN)) as (s1 & E1 & C1 & Hh1 & _). run E1. change (OB_FAIL SUCCESS) with false. cbv iota.
    assert (H1 : at_node ex s1 q (with_parent old N)) by (split; [by apply (changes_ready h 0 [] ex s)|split; [done|by apply (changes_stored h 0 [] s); [|set_solver|]]]).
    destruct (set_parent_ok h ex s1 q _ this H1 Hthis) as (s2 & E2 & C2 & H2). run E2. rewrite with_with in H2.
    destruct (dirty_ok h ex s2 q _ H2) as (s3 & E3 & C3 & H3). run E3.
    assert (C03 : changes 0 [q] s s3).
    { apply (changes_trans [q] [q] [q] 0 0 s s2 s3); [|done|done..]. apply (changes_trans [q] [] [q] 0 0 s s1 s2); [done|done|set_solver|done]. }
    replace (len kids1 + 1) with (len (kids1 ++ [(k, q)])) by (rewrite len_app; done). replace (kids1 ++ (k, q) :: kids) with ((kids1 ++ [(k, q)]) ++ kids) by (by rewrite <-app_assoc).
    destruct (IH Ns' (length kids) s3) with (kids1 := kids1 ++ [(k, q)]) (i := len (kids1 ++ [(k, q)])) (items := bytes_of (kid_bytes <$> (kids1 ++ [(k, q)]) ++ kids)) as (s4 & E4 & C4 & H4).
    + by apply (changes_ready h 0 [q] ex s).
    + by apply (kids_changes 0 [q] s); [|intros q' Hq'; intros ->%list_elem_of_singleton|].
    + done.
    + by rewrite <-app_assoc.
    + done.
    + done.
    + done.
    + exists s4. split; [done|]. change ((k, q) :: kids).*2 with (q :: kids.*2). split; [apply (changes_trans (q :: kids.*2) [q] (kids.*2) 0 0 s s3 s4); [done|done|set_solver|set_solver]|].
      constructor; [|exact H4]. apply (changes_stored h 0 (kids.*2) s3); [done|done|]. apply H3.
Qed.

(** items that come from another node bring their children along *)
Lemma insert_items_ok ex s pn p l1 l3 l2 old Ns index items num : at_node ex s pn (InnerOf p (l1 ++ l3)) → node_ok h (InnerOf p (l1 ++ l2 ++ l3)) → len (l1 ++ l2 ++ l3) ≤ internal_max_size h → in_int32 pn →
  kids_stored s old l2 Ns → NoDup l2.*2 → pn ∉ l2.*2 → index = len l1 → items = bytes_of (kid_bytes <$> l2) → num = len l2 →
  ∃ s', insert_items pn index items num s = Some (SUCCESS, s') ∧ changes 0 (pn :: l2.*2) s s' ∧ at_node ex s' pn (InnerOf p (l1 ++ l2 ++ l3)) ∧ kids_stored s' pn l2 Ns.
Proof.
  intros Hat Hok Hsz Hpn Hk Hnd Hni -> -> ->. unfold insert_items.
  destruct (log_ok _ _ _ _ _ Hat (NormalOperationLogEntryHandler pn true (len l1) (bytes_of (kid_bytes <$> l2)) (len l2)) eq_refl) as (s1 & E1 & C1 & H1). run E1.
  destruct (recover_insert_ok _ _ _ _ _ H1 Hix (InnerOf p (l1 ++ l2 ++ l3)) (kid_bytes <$> l1) (kid_bytes <$> l2) (kid_bytes <$> l3) (len l1) (bytes_of (kid_bytes <$> l2)) (len l2)) as (s2 & E2 & C2 & H2); try done.
  - cbn [raws_of]. by rewrite fmap_app.
  - cbn [raws_of]. by rewrite !fmap_app.
  - by rewrite len_fmap.
  - by rewrite len_fmap.
  - cbn [class_of] in E2. run E2. assert (C02 : changes 0 [pn] s s2) by (by apply (changes_trans [pn] [pn] [pn] 0 0 s s1 s2)).
    cbn [node_ok] in Hok. rewrite !Forall_app in Hok.
    destruct (set_parents_ok ex (Z.to_nat (len l2)) pn old s2 [] l2 Ns 0 (bytes_of (kid_bytes <$> l2)) (proj1 H2) Hpn) as (s3 & E3 & C3 & H3); [|done|apply Hok|unfold len; lia|done|done|].
    + apply (kids_changes 0 [pn] s); [done| |done]. intros q Hq ->%list_elem_of_singleton. done.
    + exists s3. split; [done|]. split; [apply (changes_trans (pn :: l2.*2) [pn] (l2.*2) 0 0 s s2 s3); [done|done|set_solver|set_solver]|]. split; [|done]. keep C3.
Qed.
Lemma internal_append_ok ex s pn p l l2 old Ns items num : at_node ex s pn (InnerOf p l) → node_ok h (InnerOf p (l ++ l2)) → len (l ++ l2) ≤ internal_max_size h → in_int32 pn →
  kids_stored s old l2 Ns → NoDup l2.*2 → pn ∉ l2.*2 → items = bytes_of (kid_bytes <$> l2) → num = len l2 →
  ∃ s', internal_append pn items num s = Some (SUCCESS, s') ∧ changes 0 (pn :: l2.*2) s s' ∧ at_node ex s' pn (InnerOf p (l ++ l2)) ∧ kids_stored s' pn l2 Ns.
Proof.
  intros Hat Hok Hsz Hpn Hk Hnd Hni Hi Hn. unfold internal_append. run (size_ok _ _ _ _ _ Hat). cbn [size_of].
  rewrite <-(app_nil_r l) in Hat.
  destruct (insert_items_ok ex s pn p l [] l2 old Ns (len l) items num Hat) as (s' & E & C & H1 & H2); rewrite ?app_nil_r; try done. exists s'. rewrite app_nil_r in H1. done.
Qed.
Lemma internal_move_half_ok ex s pn other p p' l1 l2 Ns : at_node ex s pn (InnerOf p (l1 ++ l2)) → at_node ex s other (InnerOf p' []) → pn ≠ other → in_int32 other →
  len l1 = Z.quot (len (l1 ++ l2)) 2 → len l2 ≤ internal_max_size h → kids_stored s pn l2 Ns → NoDup l2.*2 → pn ∉ l2.*2 → other ∉ l2.*2 →
  ∃ s', internal_move_half_to pn other s = Some (SUCCESS, s') ∧ changes 0 (pn :: other :: l2.*2) s s' ∧
    at_node ex s' pn (InnerOf p l1) ∧ at_node ex s' other (InnerOf p' l2) ∧ kids_stored s' other l2 Ns.
Proof.
  intros Hat Hother Hne Ho32 Hl1 Hsz Hk Hnd Hn1 Hn2. unfold internal_move_half_to. run (size_ok _ _ _ _ _ Hat). cbn [size_of]. rewrite <-Hl1. replace (len (l1 ++ l2) - len l1) with (len l2) by (rewrite len_app; lia).
  destruct (stored_at _ _ _ _ _ Hat) as (d & _ & _ & Hok). cbn [node_ok] in Hok. apply Forall_app in Hok as [Ho1 Ho2].
  assert (Eit : ∀ s0, at_node ex s0 pn (InnerOf p (l1 ++ l2)) → items_at InternalNode pn (len l1) (len l2) s0 = Some (bytes_of (kid_bytes <$> l2), s0)).
  { intros s0 H0. apply (items_at_ok _ _ _ _ _ H0 (kid_bytes <$> l1) (kid_bytes <$> l2) []); [cbn [raws_of]; by rewrite app_nil_r, fmap_app|by rewrite len_fmap|by rewrite len_fmap]. }
  run (Eit s Hat). destruct (internal_append_ok ex s other p' [] l2 pn Ns (bytes_of (kid_bytes <$> l2)) (len l2) Hother) as (s1 & E1 & C1 & H1 & K1); try done. run E1. change (OB_FAIL SUCCESS) with false. cbv iota.
  assert (Hat1 : at_node ex s1 pn (InnerOf p (l1 ++ l2))) by keep C1. run (Eit s1 Hat1).
  destruct (log_ok _ _ _ _ _ Hat1 (NormalOperationLogEntryHandler pn false (len l1) (bytes_of (kid_bytes <$> l2)) (len l2)) eq_refl) as (s2 & E2 & C2 & H2). run E2.
  destruct (truncate_ok h ex s2 pn _ H2 (InnerOf p l1) (kid_bytes <$> l1) (kid_bytes <$> l2) (- len l2)) as (s3 & E3 & C3 & H3).
  - cbn [raws_of]. by rewrite fmap_app.
  - done.
  - done.
  - done.
  - by rewrite len_fmap.
  - run E3. assert (C13 : changes 0 [pn] s1 s3) by (by apply (changes_trans [pn] [pn] [pn] 0 0 s1 s2 s3)).
    exists s3. split; [done|]. split; [apply (changes_trans (pn :: other :: l2.*2) (other :: l2.*2) [pn] 0 0 s s1 s3); [done|done|set_solver|set_solver]|]. split; [done|].
    split; [keep C13|]. apply (kids_changes 0 [pn] s1); [done| |done]. intros q Hq ->%list_elem_of_singleton. done.
Qed.
End moves.
