(* ===== verification/BplusShape.v ===== *)
(** * BplusShape: the levels of a tree

    A tree is seen level by level, from the leaves up. Level by level the items of the inner
    nodes, put together, name the nodes of the level below, each with the key that separates it
    from the node on its left. The first key of a level separates nothing, and the code stores
    anything there. *)
From stdpp Require Import sorting.
From S2P Require Import Prelude Types KeyCompare BplusNodeOps.

(** an item of an inner node: a key and a child *)
Abbreviation Kid := (list Z * PageNum)%type.
(** an inner node: its page and its items *)
Abbreviation Inner := (PageNum * list Kid)%type.

Definition kids_of (up : list Inner) : list Kid := mjoin (snd <$> up).
(** the page each of the children is on *)
Definition parents_of (up : list Inner) : list PageNum := mjoin ((λ n, replicate (length n.2) n.1) <$> up).
Definition head_key (l : list Kid) : list Z := match l with [] => [] | kq :: _ => kq.1 end.
(** the nodes of a level as the items of the level above *)
Definition as_kids (up : list Inner) : list Kid := (λ n, (head_key n.2, n.1)) <$> up.
(** equal but for the first key *)
Definition same_tail (l l' : list Kid) : Prop := l.*2 = l'.*2 ∧ tail l.*1 = tail l'.*1.

Lemma kids_app u1 u2 : kids_of (u1 ++ u2) = kids_of u1 ++ kids_of u2.
Proof. unfold kids_of. by rewrite fmap_app, join_app. Qed.
Lemma kids_cons n u : kids_of (n :: u) = n.2 ++ kids_of u.
Proof. done. Qed.
Lemma parents_app u1 u2 : parents_of (u1 ++ u2) = parents_of u1 ++ parents_of u2.
Proof. unfold parents_of. by rewrite fmap_app, join_app. Qed.
Lemma parents_cons n u : parents_of (n :: u) = replicate (length n.2) n.1 ++ parents_of u.
Proof. done. Qed.
Lemma as_kids_app u1 u2 : as_kids (u1 ++ u2) = as_kids u1 ++ as_kids u2.
Proof. apply fmap_app. Qed.
Lemma as_kids_pages u : (as_kids u).*2 = u.*1.
Proof. unfold as_kids. rewrite <-list_fmap_compose. done. Qed.
Lemma length_parents u : length (parents_of u) = length (kids_of u).
Proof. induction u as [|n u IH]; [done|]. rewrite parents_cons, kids_cons, !length_app, IH, length_replicate. done. Qed.

Lemma same_tail_refl l : same_tail l l.
Proof. done. Qed.
Lemma same_tail_length l l' : same_tail l l' → length l = length l'.
Proof. intros [H _]. apply (f_equal length) in H. by rewrite !length_fmap in H. Qed.
Lemma pairs_eq {X Y} (l l' : list (X * Y)) : l.*1 = l'.*1 → l.*2 = l'.*2 → l = l'.
Proof. revert l'. induction l as [|[a b] l IH]; intros [|[a' b'] l']; try done. cbn. intros [= -> H1] [= -> H2]. f_equal. by apply IH. Qed.
(** equal pages and equal keys behind the first *)
Lemma same_tail_split l A k q B : same_tail l (A ++ (k, q) :: B) → ∃ A' k', l = A' ++ (k', q) :: B ∧ length A' = length A ∧ same_tail A' A ∧ (A ≠ [] → k' = k).
Proof.
  destruct A as [|[ka qa] A]; intros [H1 H2]; (destruct l as [|[k' q'] l]; [done|]); cbn in *; injection H1 as -> H1.
  - exists [], k'. split; [|done]. cbn. f_equal. by apply pairs_eq.
  - rewrite (pairs_eq l (A ++ (k, q) :: B)) by done. by exists ((k', qa) :: A), k.
Qed.
Lemma same_tail_replace A' A x k' k q B B' : same_tail A' A → (A ≠ [] → k' = k) → x = k' → B' = B → same_tail (A' ++ (x, q) :: B') (A ++ (k, q) :: B).
Proof.
  intros [H1 H2] Hk -> ->. split; [by rewrite !fmap_app, H1|]. destruct A' as [|[a b] A'], A as [|[a' b'] A]; try done. cbn in *. rewrite Hk by done. rewrite !fmap_app. by f_equal.
Qed.

(** the node that holds a given child *)
Lemma kids_split up kA kq kB : kids_of up = kA ++ kq :: kB → ∃ uA pn c1 c2 uB, up = uA ++ (pn, c1 ++ kq :: c2) :: uB ∧ kA = kids_of uA ++ c1 ∧ kB = c2 ++ kids_of uB.
Proof.
  revert kA. induction up as [|[pn ks] up IH]; intros kA; [by destruct kA|]. rewrite kids_cons. cbn [snd]. intros E.
  destruct (decide (length ks ≤ length kA)%nat) as [Hle|Hgt].
  - assert (∃ kA', kA = ks ++ kA') as [kA' ->].
    { exists (drop (length ks) kA). rewrite <-(take_drop (length ks) kA) at 1. f_equal. apply (f_equal (take (length ks))) in E. rewrite take_app_length, take_app_le in E by done. done. }
    rewrite <-app_assoc in E. apply app_inv_head in E. destruct (IH _ E) as (uA & pn' & c1 & c2 & uB & -> & -> & ->).
    exists ((pn, ks) :: uA), pn', c1, c2, uB. split; [done|]. split; [|done]. by rewrite kids_cons, <-app_assoc.
  - assert (∃ c2, ks = kA ++ kq :: c2) as [c2 ->].
    { exists (drop (S (length kA)) ks). rewrite <-(take_drop (S (length kA)) ks) at 1. rewrite (cons_middle kq), app_assoc. f_equal. apply (f_equal (take (S (length kA)))) in E.
      rewrite take_app_le in E by lia. rewrite E, cons_middle, app_assoc, take_app_length'; [done|]. rewrite length_app. cbn. lia. }
    rewrite <-app_assoc in E. apply app_inv_head in E. cbn in E. injection E as E. exists [], pn, kA, c2, up. done.
Qed.
Lemma parents_split uA pn c1 kq c2 uB : parents_of (uA ++ (pn, c1 ++ kq :: c2) :: uB) = (parents_of uA ++ replicate (length c1) pn) ++ pn :: replicate (length c2) pn ++ parents_of uB.
Proof. rewrite parents_app, parents_cons. cbn [fst snd]. rewrite length_app. cbn [length]. rewrite replicate_add. cbn [replicate]. by rewrite <-!app_assoc. Qed.

(** ** Order *)

Section order.
Context {valid : list Z → Prop} {cmp : list Z → list Z → Z} `{KO : !KeyOrder valid cmp}.

Lemma ascending_sublist l1 l2 : l1 `sublist_of` l2 → ascending valid cmp l2 → ascending valid cmp l1.
Proof.
  induction 1 as [|k l1 l2 Hsub IH|k l1 l2 Hsub IH]; [done| |]; intros (Hk & Hl & Hall)%ascending_cons; apply IH in Hl; [|done].
  apply ascending_cons. split; [done|]. split; [done|]. rewrite Forall_forall in *. intros x Hx. apply Hall. by apply (sublist_subseteq _ _ Hsub).
Qed.
Lemma heads_sublist up : Forall (λ n, n.2 ≠ []) up → (as_kids up).*1 `sublist_of` (kids_of up).*1.
Proof.
  induction 1 as [|[pn ks] up Hn _ IH]; [constructor|]. rewrite kids_cons. cbn [as_kids fmap list_fmap fst snd] in *. destruct ks as [|[k q] ks]; [done|]. cbn [head_key fst app]. rewrite fmap_cons. cbn [fst].
  apply sublist_skip. rewrite fmap_app. by apply sublist_inserts_l.
Qed.
(** the separators of a level are among those of the level below *)
Lemma ascending_up up : Forall (λ n, n.2 ≠ []) up → ascending valid cmp (tail (kids_of up).*1) → ascending valid cmp (tail (as_kids up).*1).
Proof.
  destruct up as [|[pn ks] up]; [done|]. intros [Hn Hup]%Forall_cons. apply ascending_sublist. rewrite kids_cons. cbn [snd] in *. destruct ks as [|[k q] ks]; [done|].
  cbn [as_kids fmap list_fmap fst snd head_key tail app]. rewrite fmap_app. apply sublist_inserts_l. by apply heads_sublist.
Qed.
End order.

(** ** The levels above a level *)

Section levels.
Context (imax : Z).

(** the root has two children at least, other nodes are half full *)
Definition inner_sized (top : bool) (n : Inner) : Prop := (if top then 2 else Z.quot imax 2) ≤ len n.2 ≤ imax.
Definition is_top (lvls : list (list Inner)) : bool := match lvls with [] => true | _ => false end.
(** [lvls] are the levels above the nodes that [es] lists *)
Fixpoint levels_ok (es : list Kid) (lvls : list (list Inner)) (root : PageNum) : Prop :=
  match lvls with
  | [] => es.*2 = [root]
  | up :: lvls => same_tail (kids_of up) es ∧ Forall (inner_sized (is_top lvls)) up ∧ levels_ok (as_kids up) lvls root
  end.
(** the parents of the nodes below [lvls] *)
Definition pars (lvls : list (list Inner)) : list PageNum := match lvls with [] => [BP_INVALID_PAGE_NUM] | up :: _ => parents_of up end.
Definition level_pages (lvls : list (list Inner)) : list PageNum := mjoin ((λ up, up.*1) <$> lvls).
(** [r] is on the way from the root to [q] *)
Fixpoint over (lvls : list (list Inner)) (q r : PageNum) : Prop :=
  match lvls with
  | [] => False
  | up :: lvls => ∃ n : Inner, n ∈ up ∧ q ∈ n.2.*2 ∧ (r = n.1 ∨ over lvls n.1 r)
  end.
Lemma over_pages lvls q r : over lvls q r → r ∈ level_pages lvls.
Proof.
  revert q. induction lvls as [|up lvls IH]; intros q; [done|]. intros (n & Hn & _ & Hr). unfold level_pages. cbn. apply elem_of_app. destruct Hr as [->|Hr]; [left; by apply list_elem_of_fmap_2|right; by apply (IH n.1)].
Qed.

Hypothesis Hmax : 2 ≤ imax.
Lemma sized_nonempty top up : Forall (inner_sized top) up → Forall (λ n, n.2 ≠ []) up.
Proof.
  intros Hu. eapply Forall_impl; [exact Hu|]. intros [pn ks] [H1 _] E. cbn in *. subst ks. unfold len in H1. cbn in H1.
  destruct top; [lia|]. pose proof (Z.quot_le_mono 2 imax 2 ltac:(lia) Hmax). change (Z.quot 2 2) with 1 in *. lia.
Qed.
Lemma length_pars es lvls root : levels_ok es lvls root → length (pars lvls) = length es.
Proof.
  destruct lvls as [|up lvls]; cbn [levels_ok pars].
  - intros E. apply (f_equal length) in E. by rewrite length_fmap in E.
  - intros (Hs & _ & _). rewrite length_parents. by apply same_tail_length.
Qed.
Lemma levels_ok_same es es' lvls root : same_tail es es' → levels_ok es lvls root → levels_ok es' lvls root.
Proof. intros [H1 H2]. destruct lvls as [|up lvls]; cbn [levels_ok]; [by rewrite H1|]. intros ([H3 H4] & H5 & H6). split; [split; congruence|done]. Qed.
End levels.
