(* ===== verification/BplusTree.v ===== *)
(** * BplusTree: the handler of an index and its scanner (storage/index/bplus_tree.cpp, bplus_tree_index.cpp)

    Searching descends from the root; an insertion that finds a full leaf splits nodes on the
    way up, a deletion that leaves a node too small takes an item from a neighbour or merges
    with it. Recursions over the levels of the tree and loops over its leaves are bounded by
    a fuel [n]. *)
From S2P Require Import Prelude Types Encoding LogHandler KeyCompare LatchMemo BplusNode BplusLog.

Section tree.
Context {P : Type} `{TP : TreePool P}.
Abbreviation St := (Memo P TreeState).

(** ** Creating and writing back *)

Definition sync : M St RC :=
  let* t := tree_state in
  (if header_dirty_ t then
     let* rc := on_pool (tp_get FIRST_INDEX_PAGE) in
     if OB_SUCC rc then
       memcpy_to FIRST_INDEX_PAGE (Some 0) (enc_index_header (file_header_ t)) ;;;
       mark_dirty FIRST_INDEX_PAGE ;;;
       unpin_page FIRST_INDEX_PAGE ;;;
       set_tree (with_header_dirty false)
     else ret tt
   else ret tt) ;;;
  on_pool tp_flush_all.

(** [create] on an open buffer pool *)
Definition tree_create (type : AttrType) (length0 imax lmax : Z) : M St RC :=
  let imax := if imax <? 0 then calc_internal_page_capacity length0 else imax in
  let lmax := if lmax <? 0 then calc_leaf_page_capacity length0 else lmax in
  set_tree (with_opened true) ;;;
  in_mtr Some (
    let* r := allocate_page in
    if OB_FAIL r.1 then ret r.1
    else if negb (r.2 =? FIRST_INDEX_PAGE) then ret INTERNAL
    else
      let h := mkIndexFileHeader BP_INVALID_PAGE_NUM imax lmax length0 (wrap32 (length0 + sizeof_RID)) type in
      memcpy_to r.2 (Some 0) (enc_index_header h) ;;;
      mark_dirty r.2 ;;;
      set_tree (λ t, with_header_dirty false (with_file_header h t)) ;;;
      if key_length h <=? 0 then tree_close ;;; ret NOMEM
      else sync).

(** ** Finding a leaf *)

Definition is_empty : M St bool := let* h := file_header in ret (root_page h =? BP_INVALID_PAGE_NUM).

Definition crabing_protocal_fetch_page (op : BplusTreeOperationType) (page_num : PageNum) (is_root_node : bool) : M St (RC * PageNum) :=
  let readonly := match op with READ => true | _ => false end in
  let* s := get in
  let point := memo_point s in
  let* rc := get_page page_num in
  if OB_FAIL rc then ret (rc, page_num)
  else
    latch page_num (if readonly then SHARED else EXCLUSIVE) ;;;
    let* safe := is_safe page_num op is_root_node in
    (if safe : bool then release_to point else ret tt) ;;;
    ret (rc, page_num).

Fixpoint find_leaf_loop (n : nat) (op : BplusTreeOperationType) (child_page_getter : PageNum → M St PageNum) (frame : PageNum) : M St (RC * PageNum) :=
  match n with
  | O => abort
  | S n =>
      let* l := is_leaf frame in
      if l : bool then ret (SUCCESS, frame)
      else
        let* next_page_id := child_page_getter frame in
        let* r := crabing_protocal_fetch_page op next_page_id false in
        if OB_FAIL r.1 then ret r else find_leaf_loop n op child_page_getter r.2
  end.
Definition find_leaf_internal (n : nat) (op : BplusTreeOperationType) (child_page_getter : PageNum → M St PageNum) : M St (RC * PageNum) :=
  match op with READ => slatch_lock | _ => xlatch_lock end ;;;
  let* e := is_empty in
  if e : bool then ret (EMPTY, BP_INVALID_PAGE_NUM)
  else
    let* h := file_header in
    let* r := crabing_protocal_fetch_page op (root_page h) true in
    if OB_FAIL r.1 then ret r else find_leaf_loop n op child_page_getter r.2.
Definition find_leaf (n : nat) (op : BplusTreeOperationType) (key : list Z) : M St (RC * PageNum) :=
  find_leaf_internal n op (λ f, let* r := internal_lookup f key in internal_value_at f r.1.1).
Definition left_most_page (n : nat) : M St (RC * PageNum) := find_leaf_internal n READ (λ f, internal_value_at f 0).

(** ** Insertion *)

Definition class_init_empty (c : NodeClass) (pn : PageNum) : M St RC :=
  match c with InternalNode => internal_init_empty pn | _ => leaf_init_empty pn end.
Definition class_move_half_to (c : NodeClass) (pn other : PageNum) : M St RC :=
  match c with InternalNode => internal_move_half_to pn other | _ => leaf_move_half_to pn other end.
Definition split (c : NodeClass) (frame : PageNum) : M St (RC * PageNum) :=
  let* r := allocate_page in
  if OB_FAIL r.1 then ret r
  else
    let new_frame := r.2 in
    xlatch new_frame ;;;
    class_init_empty c new_frame ;;;
    let* parent := parent_page_num frame in
    set_parent_page_num new_frame parent ;;;
    class_move_half_to c frame new_frame ;;;
    mark_dirty frame ;;;
    mark_dirty new_frame ;;;
    ret (SUCCESS, new_frame).

Fixpoint insert_entry_into_parent (n : nat) (frame new_frame : PageNum) (key : list Z) : M St RC :=
  match n with
  | O => abort
  | S n =>
      let* parent := parent_page_num frame in
      if parent =? BP_INVALID_PAGE_NUM then
        let* r := on_pool tp_alloc in
        if OB_FAIL r.1 then ret r.1
        else
          let root_frame := r.2 in
          internal_init_empty root_frame ;;;
          create_new_root root_frame frame key new_frame ;;;
          set_parent_page_num frame root_frame ;;;
          set_parent_page_num new_frame root_frame ;;;
          mark_dirty frame ;;;
          mark_dirty new_frame ;;;
          write_latch root_frame ;;;
          update_root_page_num_locked root_frame ;;;
          mark_dirty root_frame ;;;
          write_unlatch root_frame ;;;
          unpin_page root_frame ;;;
          ret SUCCESS
      else
        let* rc := get_page parent in
        if OB_FAIL rc then ret rc
        else
          let* k := size parent in
          let* max := max_size parent in
          if k <? max then
            internal_insert parent key new_frame ;;;
            set_parent_page_num new_frame parent ;;;
            mark_dirty frame ;;;
            mark_dirty new_frame ;;;
            mark_dirty parent ;;;
            ret SUCCESS
          else
            let* r := split InternalNode parent in
            if OB_FAIL r.1 then ret r.1
            else
              let new_parent := r.2 in
              let* h := file_header in
              let* first := key_at InternalNode new_parent 0 in
              (if 0 <? comparator h key first then
                 internal_insert new_parent key new_frame ;;;
                 set_parent_page_num new_frame new_parent
               else
                 internal_insert parent key new_frame ;;;
                 set_parent_page_num new_frame parent) ;;;
              let* sep := key_at InternalNode new_parent 0 in
              insert_entry_into_parent n parent new_parent sep
  end.

Definition insert_entry_into_leaf_node (n : nat) (frame : PageNum) (key rid : list Z) : M St RC :=
  let* r := leaf_lookup frame key in
  let insert_position := r.1 in
  if r.2 : bool then ret RECORD_DUPLICATE_KEY
  else
    let* k := size frame in
    let* max := max_size frame in
    if k <? max then
      leaf_insert frame insert_position key rid ;;;
      mark_dirty frame ;;;
      ret SUCCESS
    else
      let* r := split LeafNode frame in
      if OB_FAIL r.1 then ret r.1
      else
        let new_frame := r.2 in
        let* next := next_page frame in
        set_next_page new_frame next ;;;
        let* parent := parent_page_num frame in
        set_parent_page_num new_frame parent ;;;
        set_next_page frame new_frame ;;;
        let* k := size frame in
        (if insert_position <? k then leaf_insert frame insert_position key rid
         else leaf_insert new_frame (insert_position - k) key rid) ;;;
        let* sep := key_at LeafNode new_frame 0 in
        insert_entry_into_parent n frame new_frame sep.

Definition create_new_tree (key rid : list Z) : M St RC :=
  let* h := file_header in
  if negb (root_page h =? BP_INVALID_PAGE_NUM) then ret INTERNAL
  else
    let* r := allocate_page in
    if OB_FAIL r.1 then ret r.1
    else
      leaf_init_empty r.2 ;;;
      leaf_insert r.2 0 key rid ;;;
      update_root_page_num_locked r.2 ;;;
      mark_dirty r.2 ;;;
      ret SUCCESS.

Definition make_key (user_key : list Z) (rid : RID) : M St (list Z) :=
  let* h := file_header in
  let* k := liftO (mem_read user_key 0 (attr_length h)) in
  ret (k ++ rid_bytes rid).

(** the lock of the root is taken and given back around [create_new_tree] *)
Definition insert_entry (n : nat) (user_key : option (list Z)) (rid : option RID) : M St RC :=
  match user_key, rid with
  | Some user_key, Some rid =>
      let* key := make_key user_key rid in
      in_mtr Some (
        let* e := is_empty in
        if e : bool then
          lock OnLock ;;;
          let* rc := create_new_tree key (rid_bytes rid) in
          unlock OnLock ;;;
          ret rc
        else
          let* r := find_leaf n INSERT key in
          if OB_FAIL r.1 then ret r.1
          else insert_entry_into_leaf_node n r.2 key (rid_bytes rid))
  | _, _ => ret INVALID_ARGUMENT
  end.

(** ** Deletion *)

Definition adjust_root (root_frame : PageNum) : M St RC :=
  let* l := is_leaf root_frame in
  let* k := size root_frame in
  if (l : bool) && (0 <? k) then mark_dirty root_frame ;;; ret SUCCESS
  else
    let finish new_root :=
      (update_root_page_num_locked new_root ;;;
       dispose_page root_frame ;;;
       ret SUCCESS) in
    if l then assertM (k =? 0) ;;; finish BP_INVALID_PAGE_NUM
    else
      let* child := internal_value_at root_frame 0 in
      let* rc := get_page child in
      if OB_FAIL rc then ret rc
      else set_parent_page_num child BP_INVALID_PAGE_NUM ;;; finish child.

Definition class_move_to (c : NodeClass) (pn other : PageNum) : M St RC :=
  match c with InternalNode => internal_move_to pn other | _ => leaf_move_to pn other end.
Definition class_move_first_to_end (c : NodeClass) (pn other : PageNum) : M St RC :=
  match c with InternalNode => internal_move_first_to_end pn other | _ => leaf_move_first_to_end pn other end.
Definition class_move_last_to_front (c : NodeClass) (pn other : PageNum) : M St RC :=
  match c with InternalNode => internal_move_last_to_front pn other | _ => leaf_move_last_to_front pn other end.

Definition redistribute (c : NodeClass) (neighbor frame parent : PageNum) (index : Z) : M St RC :=
  (if index =? 0 then
     class_move_first_to_end c neighbor frame ;;;
     let* k := key_at c neighbor 0 in
     set_key_at parent (index + 1) k
   else
     class_move_last_to_front c neighbor frame ;;;
     let* k := key_at c frame 0 in
     set_key_at parent index k) ;;;
  mark_dirty neighbor ;;;
  mark_dirty frame ;;;
  mark_dirty parent ;;;
  ret SUCCESS.

(** [up] is [coalesce_or_redistribute] on the parent *)
Definition coalesce (up : PageNum → M St RC) (c : NodeClass) (neighbor frame parent : PageNum) (index : Z) : M St RC :=
  let '(left_frame, right_frame, index) := if index =? 0 then (frame, neighbor, index + 1) else (neighbor, frame, index) in
  internal_remove parent index ;;;
  let* rc := class_move_to c right_frame left_frame in
  if OB_FAIL rc then ret rc
  else
    let* l := is_leaf left_frame in
    (if l : bool then let* next := next_page right_frame in set_next_page left_frame next ;;; ret tt else ret tt) ;;;
    dispose_page right_frame ;;;
    up parent.

Fixpoint coalesce_or_redistribute (n : nat) (c : NodeClass) (frame : PageNum) : M St RC :=
  match n with
  | O => abort
  | S n =>
      let* k := size frame in
      let* min := min_size frame in
      if min <=? k then ret SUCCESS
      else
        let* parent := parent_page_num frame in
        if BP_INVALID_PAGE_NUM =? parent then
          (if 1 <? k then ret tt else adjust_root frame ;;; ret tt) ;;;
          ret SUCCESS
        else
          let* rc := get_page parent in
          if OB_FAIL rc then ret rc
          else
            let* last := key_at c frame (k - 1) in
            let* r := internal_lookup parent last in
            let index := r.1.1 in
            let* v := internal_value_at parent index in
            assertM (v =? frame) ;;;
            let* neighbor := internal_value_at parent (if index =? 0 then 1 else index - 1) in
            let* rc := get_page neighbor in
            if OB_FAIL rc then ret rc
            else
              xlatch neighbor ;;;
              let* k := size frame in
              let* kn := size neighbor in
              let* max := max_size frame in
              if max <? k + kn then redistribute c neighbor frame parent index
              else coalesce (coalesce_or_redistribute n InternalNode) c neighbor frame parent index
  end.

Definition delete_entry_internal (n : nat) (leaf_frame : PageNum) (key : list Z) : M St RC :=
  let* remove_count := leaf_remove_key leaf_frame key in
  if remove_count =? 0 then ret RECORD_NOT_EXIST
  else
    mark_dirty leaf_frame ;;;
    let* k := size leaf_frame in
    let* min := min_size leaf_frame in
    if min <=? k then ret SUCCESS else coalesce_or_redistribute n LeafNode leaf_frame.

Definition delete_entry (n : nat) (user_key : list Z) (rid : RID) : M St RC :=
  let* key := make_key user_key rid in
  in_mtr Some (
    let* r := find_leaf n DELETE key in
    if bool_decide (r.1 = EMPTY) then ret RECORD_NOT_EXIST
    else if OB_FAIL r.1 then ret r.1
    else delete_entry_internal n r.2 key).

(** ** Validation *)

Fixpoint keys_ascend (n : nat) (c : NodeClass) (pn : PageNum) (i : Z) : M St bool :=
  match n with
  | O => ret true
  | S n =>
      let* h := file_header in
      let* k1 := raw_key_at c pn (i - 1) in
      let* k2 := raw_key_at c pn i in
      if 0 <=? comparator h k1 k2 then ret false else keys_ascend n c pn (i + 1)
  end.
(** the comparisons with the items of the parent, [first] is the item that bounds from below *)
Definition validate_in_parent (c : NodeClass) (pn : PageNum) (first : Z) : M St bool :=
  let* parent := parent_page_num pn in
  if parent =? BP_INVALID_PAGE_NUM then ret true
  else
    let* rc := on_pool (tp_get parent) in
    if OB_FAIL rc then ret false
    else
      let* h := file_header in
      let* index := value_index parent pn in
      let* result :=
        (if index <? 0 then ret false
         else
           let* low := (if negb (index =? 0) then
                          let* k := raw_key_at c pn first in
                          let* p := key_at InternalNode parent index in
                          ret (comparator h k p <? 0)
                        else ret false) in
           if low : bool then ret false
           else
             let* n := size parent in
             if index <? n - 1 then
               let* k := size pn in
               let* last := raw_key_at c pn (k - 1) in
               let* p := key_at InternalNode parent (index + 1) in
               ret (negb (0 <=? comparator h last p))
             else ret true) in
      unpin_page parent ;;;
      ret result.
Definition leaf_validate (pn : PageNum) : M St bool :=
  let* b := node_validate pn in
  if negb b then ret false
  else
    let* n := size pn in
    let* b := keys_ascend (Z.to_nat (n - 1)) LeafNode pn 1 in
    if negb b then ret false else validate_in_parent LeafNode pn 0.
(** the parents of the children; a child that cannot be read is passed over *)
Fixpoint validate_children (n : nat) (pn : PageNum) (i : Z) : M St bool :=
  match n with
  | O => ret true
  | S n =>
      let* bs := raw_value_at InternalNode pn i in
      let child := dec32 bs in
      if child <? 0 then validate_children n pn (i + 1)
      else
        let* rc := on_pool (tp_get child) in
        if OB_FAIL rc then validate_children n pn (i + 1)
        else
          let* p := parent_page_num child in
          unpin_page child ;;;
          if negb (p =? pn) then ret false else validate_children n pn (i + 1)
  end.
Definition internal_validate (pn : PageNum) : M St bool :=
  let* b := node_validate pn in
  if negb b then ret false
  else
    let* n := size pn in
    let* b := keys_ascend (Z.to_nat (n - 2)) InternalNode pn 2 in
    if negb b then ret false
    else
      let* b := validate_children (Z.to_nat n) pn 0 in
      if negb b then ret false else validate_in_parent InternalNode pn 1.
(** the loop over the children of [validate_node_recursive], [rec] validates one *)
Fixpoint validate_each (rec : PageNum → M St bool) (n : nat) (pn : PageNum) (i : Z) : M St bool :=
  match n with
  | O => ret true
  | S n =>
      let* child := internal_value_at pn i in
      let* rc := get_page child in
      if OB_FAIL rc then ret false
      else
        let* b := rec child in
        if negb b then ret false else validate_each rec n pn (i + 1)
  end.
Fixpoint validate_node_recursive (n : nat) (pn : PageNum) : M St bool :=
  match n with
  | O => abort
  | S n =>
      let* l := is_leaf pn in
      if l : bool then leaf_validate pn
      else
        let* b := internal_validate pn in
        if negb b then ret false
        else let* k := size pn in validate_each (validate_node_recursive n) (Z.to_nat k) pn 0
  end.
Fixpoint validate_link_loop (n : nat) (next : PageNum) (prev_key : list Z) : M St bool :=
  match n with
  | O => abort
  | S n =>
      if next =? BP_INVALID_PAGE_NUM then ret true
      else
        let* rc := get_page next in
        if OB_FAIL rc then ret false
        else
          let* h := file_header in
          let* k := key_at LeafNode next 0 in
          let result := negb (0 <=? comparator h prev_key k) in
          let* next' := next_page next in
          let* m := size next in
          let* last := key_at LeafNode next (m - 1) in
          if negb result then ret false else validate_link_loop n next' last
  end.
Definition validate_leaf_link (n : nat) : M St bool :=
  let* e := is_empty in
  if e : bool then ret true
  else
    let* r := left_most_page n in
    if OB_FAIL r.1 then ret false
    else
      let* next := next_page r.2 in
      let* m := size r.2 in
      let* last := key_at LeafNode r.2 (m - 1) in
      validate_link_loop n next last.
(** without [print_tree], which an invalid tree is printed with *)
Definition validate_tree (n : nat) : M St bool :=
  let* e := is_empty in
  if e : bool then ret true
  else
    in_mtr (λ _, None) (
      let* h := file_header in
      let* rc := get_page (root_page h) in
      if OB_FAIL rc then ret false
      else
        let* b := validate_node_recursive n (root_page h) in
        if negb b then ret false else validate_leaf_link n).
End tree.
