(* ===== verification/BplusRoot.v ===== *)
(** * BplusRoot: the page of the root

    The header page names the root; [header_page] relates it to the header in memory. Here are
    changing the root, and growing the tree by a new root. *)
From stdpp Require Import sorting.
From S2P Require Import Prelude Types Encoding KeyCompare LatchMemo LatchMemoSpec BplusNode BplusLog BplusNodeSpec BplusOps BplusNodeOps BplusMoves BplusTree.

Section root.
Context {P : Type} `{TL : TreePoolLaws P}.
Context (h : IndexFileHeader).
Abbreviation St := (Memo P TreeState).
Context (Hix : index_ok h).
Implicit Types (s : St) (pn q r : PageNum) (N : Node) (ex : list LatchMemoItem).
Abbreviation at_node := (at_node h).
Abbreviation ready := (ready h).
Abbreviation stored := (stored h).

Definition header_page s : Prop := ∃ g rest, pages s !! FIRST_INDEX_PAGE = Some g ∧ tpg_data g = enc_index_header (tree_header s) ++ rest.

Lemma header_page_changes k X s s' : changes k X s s' → FIRST_INDEX_PAGE ∉ X → header_page s → header_page s'.
Proof. intros [] HX (g & rest & Hg & Hd). exists g, rest. rewrite ch_pages, ch_header by done. done. Qed.

(** setting the root in memory *)
Definition root_set r (t : TreeState) : TreeState := with_header_dirty true (with_file_header (with_root r (file_header_ t)) t).
Lemma root_set_changes s r : changes 0 [FIRST_INDEX_PAGE] s (with_client (root_set r (m_client s)) s).
Proof.
  constructor; try done; auto.
  - intros ex []. constructor; [|done..]. by destruct mo_holds.
  - intros HX. exfalso. apply HX. by apply list_elem_of_singleton.
  - intros h0. apply header_like_root.
Qed.

Lemma update_root_ok ex s r : ready ex s → header_page s → ¬ latched s (OnFrame FIRST_INDEX_PAGE) → in_int32 (root_page (tree_header s)) →
  ∃ s', update_root_page_num_locked r s = Some (tt, s') ∧ changes 0 [FIRST_INDEX_PAGE] s s' ∧ tree_header s' = with_root r (tree_header s) ∧ header_page s'.
Proof.
  intros Hr Hp Hl H32. pose proof Hp as (g & rest & Hg & Hd). set (X := [FIRST_INDEX_PAGE]).
  assert (HX : FIRST_INDEX_PAGE ∈ X) by (by apply list_elem_of_singleton).
  destruct (get_page_changes h ex s FIRST_INDEX_PAGE Hr) as (s1 & E1 & C1 & Hh1 & Hi1); [eauto|].
  unfold update_root_page_num_locked. run E1. change (OB_SUCC SUCCESS) with true. rewrite bind_assertM by done. pose proof (changes_ready h _ _ ex _ _ C1 Hr) as Hr1.
  destruct (xlatch_changes h ex s1 FIRST_INDEX_PAGE Hr1 Hi1) as (s2 & E2 & C2 & Ep2). { intros Hl1. destruct (ch_latched _ _ _ _ C1 _ Hl1) as [|(q & Hq & _)]; [done|by apply elem_of_nil in Hq]. }
  run E2. assert (C02 : changes 0 X s s2) by (apply (changes_trans X [] X 0 0 s s1 s2); [done|done|set_solver|done]).
  pose proof (changes_ready h _ _ ex _ _ C02 Hr) as Hr2. pose proof (ch_held _ _ _ _ C2 _ Hh1) as Hh2.
  assert (Hg2 : pages s2 !! FIRST_INDEX_PAGE = Some g) by (rewrite Ep2, (ch_pages _ _ _ _ C1) by (apply not_elem_of_nil); done).
  assert (Eh2 : tree_header s2 = tree_header s).
  { assert (Eh1 : tree_header s1 = tree_header s) by (apply (ch_header _ _ _ _ C1); apply not_elem_of_nil). rewrite <-Eh1. unfold xlatch, latch, write_latch in E2. clear - E2.
    unfold tree_header. f_equal. apply bind_Some in E2 as ([] & sa & Ea & E2). apply bind_Some in Ea as ([] & sb & Eb & Ea).
    unfold pinned in Eb. rewrite bind_get in Eb. unfold assertM in Eb. destruct (_ <? _); [|done]. injection Eb as <-. unfold lock in Ea. rewrite bind_get in Ea. destruct (_ !! _); [done|]. injection Ea as <-. injection E2 as <-. done. }
  pose proof (at_page_held ex s2 _ g (proj1 Hr2) Hh2 Hg2) as Ha2. set (d := tpg_data g) in *. change (tpg_data g) with d in Hd.
  set (tl := enc_fields (tail (header_fields (tree_header s))) ++ rest). assert (Hd' : d = [] ++ enc32 (root_page (tree_header s)) ++ tl) by (rewrite Hd; unfold enc_index_header, tl; cbn [enc_fields header_fields tail]; by rewrite <-!app_assoc).
  assert (E3 : read_int FIRST_INDEX_PAGE 0 s2 = Some (root_page (tree_header s), s2)) by (apply (read_int_ok _ _ _ _ _ Ha2); rewrite Hd'; by apply (field32_app [])).
  run E3. destruct (tree_append_log_ok (UpdateRootPageLogEntryHandler FIRST_INDEX_PAGE r (root_page (tree_header s))) _ _ _ Ha2 eq_refl) as (s3 & E4 & W3). run E4. pose proof (wrote_at _ _ _ _ Ha2 _ W3) as Ha3.
  assert (Ew : mem_write d 0 (enc32 r) = Some ([] ++ enc32 r ++ tl)) by (apply (mem_write_at _ _ [] (enc32 (root_page (tree_header s))) tl (enc32 r)); [done|done|done|by rewrite !len_enc32]).
  destruct (memcpy_at _ _ _ _ _ _ Ha3 Ew) as (s4 & E5 & W4). unfold write_int. run E5. pose proof (wrote_at _ _ _ _ Ha3 _ W4) as Ha4. cbn [app] in *.
  pose proof (wrote_trans _ _ _ _ _ _ W3 W4) as W34. pose proof (wrote_changes _ _ _ _ W34) as C34. unfold set_tree. rewrite bind_modify.
  set (s5 := with_client _ s4). change s5 with (with_client (root_set r (m_client s4)) s4) in *. clear s5. set (s5 := with_client (root_set r (m_client s4)) s4).
  pose proof (root_set_changes s4 r) as C45. fold s5 in C45. assert (Ha5 : at_page s5 FIRST_INDEX_PAGE (enc32 r ++ tl)) by (destruct Ha4 as (? & ? & l & ?); split; [done|]; split; [done|]; by exists l).
  destruct (mark_dirty_ok _ _ _ Ha5) as (s6 & E6 & W6). exists s6. split; [done|]. pose proof (wrote_changes _ _ _ _ W6) as C56. pose proof (wrote_at _ _ _ _ Ha5 _ W6) as (_ & _ & l6 & Hg6).
  assert (Eh6 : tree_header s6 = with_root r (tree_header s)).
  { unfold tree_header. destruct (wrote_header _ _ _ _ W6) as (-> & _). unfold s5. cbn [m_client with_client root_set]. unfold with_header_dirty, with_file_header. cbn [file_header_].
    destruct (wrote_header _ _ _ _ W34) as (E34 & _). unfold tree_header in Eh2. rewrite <-Eh2, <-E34. done. }
  split; [|split; [done|]].
  - apply (changes_trans X X X 0 0 s s2 s6); [done| |done|done]. apply (changes_trans X X X 0 0 s2 s4 s6); [done| |done|done]. by apply (changes_trans X X X 0 0 s4 s5 s6).
  - exists (mkTPage l6 (enc32 r ++ tl)), rest. split; [done|]. rewrite Eh6. cbn [tpg_data]. unfold enc_index_header, tl. cbn [header_fields with_root tail enc_fields root_page internal_max_size leaf_max_size attr_length key_length attr_type].
    by rewrite <-!app_assoc.
Qed.

(** ** A step that holds more, or less, outside of the memo *)

Record alters (k : nat) (X : list PageNum) s s' : Prop := {
  al_id : tp_id (m_pool s') = tp_id (m_pool s);
  al_free : (free s = k + free s')%nat;
  al_memory : ∀ q, in_memory s q → in_memory s' q;
  al_pages : ∀ q, q ∉ X → pages s' !! q = pages s !! q;
  al_disposed : disposed_pages_ s' = disposed_pages_ s;
  al_header : FIRST_INDEX_PAGE ∉ X → tree_header s' = tree_header s;
  al_like : ∀ h, header_like h (tree_header s) → header_like h (tree_header s');
  al_log : need_log_ (m_client s') = need_log_ (m_client s) ∧ opened_ (m_client s') = opened_ (m_client s);
  al_entries : ∀ e, e ∈ entries_ (m_client s') → e ∈ entries_ (m_client s) ∨ in_memory s' (entry_frame e);
  al_latched : ∀ w, latched s' w → latched s w ∨ ∃ q, q ∈ X ∧ w = OnFrame q;
  al_exists : ∀ q, is_Some (pages s !! q) → is_Some (pages s' !! q);
}.
Lemma changes_alters k X s s' : changes k X s s' → alters k X s s'.
Proof. by intros []. Qed.
Lemma alters_changes k X s s' : alters k X s s' → (∀ ex, memo_ok ex s → memo_ok ex s') → (∀ q, held s q → held s' q) → changes k X s s'.
Proof. by intros []. Qed.
Lemma alters_weaken X Y k s s' : X ⊆ Y → alters k X s s' → alters k Y s s'.
Proof.
  intros HX []. constructor; try done.
  - intros q Hq. apply al_pages0. set_solver.
  - intros Hq. apply al_header0. set_solver.
  - intros w Hw. destruct (al_latched0 w Hw) as [|(q & Hq & ->)]; [by left|]. right. exists q. set_solver.
Qed.
Lemma alters_trans Z X Y k j s1 s2 s3 : alters k X s1 s2 → alters j Y s2 s3 → X ⊆ Z → Y ⊆ Z → alters (k + j) Z s1 s3.
Proof.
  intros H1 H2 HX HY. apply (alters_weaken X Z _ _ _ HX) in H1. apply (alters_weaken Y Z _ _ _ HY) in H2. destruct H1, H2. constructor.
  - congruence.
  - lia.
  - auto.
  - intros q Hq. rewrite al_pages1, al_pages0; set_solver.
  - congruence.
  - intros Hq. rewrite al_header1, al_header0; set_solver.
  - auto.
  - destruct al_log0, al_log1. split; congruence.
  - intros e He. destruct (al_entries1 e He) as [He1|]; [|by right]. destruct (al_entries0 e He1) as [|]; [by left|right; auto].
  - intros w Hw. destruct (al_latched1 w Hw) as [Hw1|(q & Hq & ->)]; [|right; exists q; set_solver]. destruct (al_latched0 w Hw1) as [|(q & Hq & ->)]; [by left|right; exists q; set_solver].
  - auto.
Qed.

(** a frame that is allocated, and latched, outside of the memo *)
Lemma count_snoc_mid t w ex l1 l2 : count t w ((ex ++ l1) ++ l2) = (count t w (ex ++ l2) + count t w l1)%nat.
Proof. rewrite !count_app. lia. Qed.
Lemma alloc_outside ex s : ready ex s → (0 < free s)%nat →
  ∃ s' pn, on_pool tp_alloc s = Some ((SUCCESS, pn), s') ∧ memo_ok (ex ++ [mkItem PIN (OnFrame pn)]) s' ∧ alters 1 [pn] s s' ∧ pages s !! pn = None ∧ is_Some (pages s' !! pn) ∧ held s' pn ∧
    (∀ q, held s q → held s' q).
Proof.
  intros [Hs _] Hf. destruct (tp_alloc_ok _ (mo_pool _ _ Hs) Hf) as (pn & g & p' & E & Hnone & Hok & Hid & Hv & Hm). change (v_pages (tp_view (m_pool s))) with (pages s) in *. exists (with_pool p' s), pn.
  split; [unfold on_pool; by rewrite E|]. assert (Epg : pages (with_pool p' s) = <[pn := g]> (pages s)) by (unfold pages; cbn; by rewrite Hv).
  assert (Hpin : ∀ q, pin_of (pins (with_pool p' s)) q = (pin_of (pins s) q + if decide (pn = q) then 1 else 0)%nat).
  { intros q. unfold pins. cbn [m_pool with_pool]. rewrite Hv. cbn [v_pins]. unfold pin_of. case_decide as Hq; [|by rewrite lookup_insert_ne, Nat.add_0_r]. subst q. rewrite lookup_insert_eq.
    fold (pins s). destruct (pins s !! pn) as [n|] eqn:En; [|done]. destruct (held_page ex s pn Hs) as [[g' Hg'] _]; [unfold held; by rewrite En|congruence]. }
  assert (Hn0 : ∀ t, count t (OnFrame pn) (ex ++ items_ s) = 0%nat).
  { intros t. apply count_zero. intros Hi. assert (Hin : mkItem PIN (OnFrame pn) ∈ ex ++ items_ s).
    { destruct (decide (t = PIN)) as [->|Ht]; [done|]. by apply (needs_app _ _ (ordered_needs _ (mo_outside _ _ Hs)) (ordered_needs _ (mo_order _ _ Hs)) t). }
    destruct (held_page ex s pn Hs) as [[g' Hg'] _]; [|congruence]. apply (held_pins ex); [done|]. by apply count_elem. }
  split; [|split; [|split; [done|split; [rewrite Epg, lookup_insert_eq; eauto|split]]]].
  - destruct Hs as [[] Hty Hout Hord]. constructor; [|done| |done]; [constructor; cbn [m_pool with_pool items_ m_locks]; [done| | |]|].
    + intros q. rewrite count_snoc_mid, count_one. rewrite Hpin, ho_pins. f_equal. do 2 case_decide; naive_solver.
    + intros w. rewrite !count_snoc_mid, !(count_other_type _ _ PIN) by done. by rewrite !Nat.add_0_r.
    + intros w. rewrite !count_snoc_mid, !(count_other_type _ _ PIN) by done. by rewrite !Nat.add_0_r.
    + apply ordered_snoc; [done|]. intros t q [= <- <-]. done.
  - constructor; auto.
    + unfold free. cbn. rewrite Hv. cbn. unfold free in Hf. lia.
    + intros q [H1 [g' H2]]. split; [by apply Hm|]. rewrite Epg. rewrite lookup_insert_ne by congruence. eauto.
    + intros q Hq. rewrite Epg, lookup_insert_ne by set_solver. done.
    + intros q [g' H2]. rewrite Epg, lookup_insert_ne by congruence. eauto.
  - apply held_pin. rewrite Hpin, decide_True by done. lia.
  - intros q Hq. apply held_pin. apply held_pin in Hq. rewrite Hpin. lia.
Qed.
Lemma latch_outside ex s pn : memo_ok (ex ++ [mkItem PIN (OnFrame pn)]) s → ¬ latched s (OnFrame pn) →
  ∃ s', write_latch pn s = Some (tt, s') ∧ memo_ok (ex ++ [mkItem PIN (OnFrame pn); mkItem EXCLUSIVE (OnFrame pn)]) s' ∧ alters 0 [pn] s s' ∧ pages s' = pages s ∧ pins s' = pins s ∧ tree_header s' = tree_header s.
Proof.
  intros Hs Hl. apply eq_None_not_Some in Hl. assert (Hh : held s pn) by (apply (held_pins _ _ _ Hs), count_elem; set_solver).
  exists (with_locks (<[OnFrame pn := Locked]> (m_locks s)) s). split; [unfold write_latch, lock; run (held_pinned _ _ _ Hs Hh); by rewrite bind_get, Hl|].
  split; [|split; [|done]].
  - destruct Hs as [[] Hty Hout Hord]. assert (Hz : count EXCLUSIVE (OnFrame pn) ((ex ++ [mkItem PIN (OnFrame pn)]) ++ items_ s) = 0%nat ∧ count SHARED (OnFrame pn) ((ex ++ [mkItem PIN (OnFrame pn)]) ++ items_ s) = 0%nat).
    { revert Hl. rewrite ho_locks. unfold lock_state. by destruct (count EXCLUSIVE _ _), (count SHARED _ _). }
    change [mkItem PIN (OnFrame pn); mkItem EXCLUSIVE (OnFrame pn)] with ([mkItem PIN (OnFrame pn)] ++ [mkItem EXCLUSIVE (OnFrame pn)]). rewrite (app_assoc ex). set (ex1 := ex ++ [mkItem PIN (OnFrame pn)]) in *.
    constructor; [|done| |done]; [constructor; cbn [m_pool with_locks items_ m_locks]; [done| | |]|].
    + intros q. rewrite count_snoc_mid, (count_other_type PIN) by done. rewrite Nat.add_0_r. apply ho_pins.
    + intros w. rewrite !count_snoc_mid. destruct (decide (OnFrame pn = w)) as [<-|Hw].
      * destruct Hz as [-> ->]. rewrite lookup_insert_eq, count_self, count_other_type by done. done.
      * rewrite lookup_insert_ne, !count_other_on, !Nat.add_0_r by done. apply ho_locks.
    + intros w. rewrite !count_snoc_mid. destruct (decide (OnFrame pn = w)) as [<-|Hw].
      * destruct Hz as [-> ->]. rewrite count_self, count_other_type by done. lia.
      * rewrite !count_other_on, !Nat.add_0_r by done. apply ho_excl.
    + apply ordered_snoc; [done|]. intros t q [= <- <-] _. unfold ex1. set_solver.
  - constructor; auto. intros w. unfold latched. cbn. destruct (decide (w = OnFrame pn)) as [->|Hw]; [right; exists pn; set_solver|]. rewrite lookup_insert_ne by done. by left.
Qed.

Lemma latched_count l s w : holds l s → latched s w ↔ (0 < count EXCLUSIVE w l + count SHARED w l)%nat.
Proof.
  intros Hs. unfold latched. rewrite (ho_locks _ _ Hs). unfold lock_state. destruct (count EXCLUSIVE w l), (count SHARED w l); (split; [try lia|eauto]); intros Hl; try lia; by destruct Hl.
Qed.
Lemma gives_back_alters s s' : gives_back s s' → (∀ w, latched s' w → latched s w) → alters 0 [] s s'.
Proof.
  intros [] Hl. constructor; unfold tree_header, in_memory; rewrite ?gb_client, ?gb_pages; auto.
  intros q [H1 H2]. auto.
Qed.
Lemma give_back_outside ex s pn : memo_ok (ex ++ [mkItem PIN (OnFrame pn); mkItem EXCLUSIVE (OnFrame pn)]) s →
  ∃ s1 s2, write_unlatch pn s = Some (tt, s1) ∧ unpin_page pn s1 = Some (SUCCESS, s2) ∧ memo_ok ex s2 ∧ alters 0 [] s s2 ∧ pages s2 = pages s ∧ tree_header s2 = tree_header s ∧ ∀ q, q ≠ pn → held s q → held s2 q.
Proof.
  intros [Hs Hty Hout Hord]. set (P1 := mkItem PIN (OnFrame pn)) in *. set (X1 := mkItem EXCLUSIVE (OnFrame pn)) in *.
  assert (Ho : ordered ex) by (by apply (ordered_prefix ex [P1; X1])). pose proof (needs_app _ _ (ordered_needs _ Ho) (ordered_needs _ Hord)) as Hn0.
  assert (Hs1 : holds ((ex ++ [P1]) ++ X1 :: items_ s) s) by (by rewrite <-!app_assoc in *).
  destruct (release_latch (ex ++ [P1]) EXCLUSIVE (OnFrame pn) (items_ s) s Hs1) as (s1 & E1 & H1 & G1); [by left| |].
  { replace ((ex ++ [P1]) ++ mkItem EXCLUSIVE (OnFrame pn) :: items_ s) with ((ex ++ [P1; X1]) ++ items_ s) by (by rewrite <-!app_assoc). by apply needs_app; apply ordered_needs. }
  rewrite <-app_assoc in H1. cbn [app] in H1. destruct (unpin_holds ex pn (items_ s) s1 H1 Hn0) as (s2 & E2 & H2 & G2 & _).
  pose proof (gives_back_trans _ _ _ G1 G2) as G. exists s1, s2. split; [exact E1|]. split; [done|].
  assert (Ei : items_ s2 = items_ s) by apply G. split; [constructor; rewrite ?Ei; done|].
  split; [|split; [apply G|split; [unfold tree_header; by rewrite (gb_client _ _ G)|]]].
  - apply gives_back_alters; [done|]. intros w. rewrite (latched_count _ _ _ H2), (latched_count _ _ _ Hs). rewrite !count_app. lia.
  - intros q Hq. rewrite !held_pin, (ho_pins _ _ H2), (ho_pins _ _ Hs), !count_app. cbn [app]. unfold P1, X1.
    rewrite (count_cons _ _ (mkItem PIN _)), (count_other_on _ _ PIN (OnFrame pn)), count_other_type by congruence. lia.
Qed.

(** *** Steps that latch nothing *)

Definition keeps_locks {A} (c : M St A) : Prop := ∀ s a s', c s = Some (a, s') → m_locks s' = m_locks s.
Lemma keeps_bind {A B} (c : M St A) (k : A → M St B) : keeps_locks c → (∀ a, keeps_locks (k a)) → keeps_locks (bind c k).
Proof. intros Hc Hk s b s' (a & s1 & E1 & E2)%bind_Some. rewrite (Hk _ _ _ _ E2). by apply (Hc _ _ _ E1). Qed.
Lemma keeps_ret {A} (a : A) : keeps_locks (ret a).
Proof. by intros s b s' [= _ <-]. Qed.
Lemma keeps_get : keeps_locks get.
Proof. by intros s b s' [= _ <-]. Qed.
Lemma keeps_liftO {A} (o : option A) : keeps_locks (liftO o).
Proof. intros s b s' E. unfold liftO in E. destruct o; [|done]. by injection E as _ <-. Qed.
Lemma keeps_pool {A} (c : M P A) : keeps_locks (on_pool c).
Proof. intros s b s' E. unfold on_pool in E. destruct (c (m_pool s)) as [[]|]; [|done]. by injection E as _ <-. Qed.
Lemma keeps_set f : keeps_locks (set_tree f).
Proof. by intros s b s' [= _ <-]. Qed.
Lemma keeps_state : keeps_locks tree_state.
Proof. by intros s b s' [= _ <-]. Qed.
Lemma keeps_header : keeps_locks file_header.
Proof. by intros s b s' [= _ <-]. Qed.
Create HintDb locks.
#[local] Hint Resolve keeps_bind keeps_ret keeps_get keeps_liftO keeps_pool keeps_set keeps_state keeps_header : locks.
#[local] Hint Extern 1 (∀ _, keeps_locks _) => intros ? : locks.
Lemma keeps_append e : keeps_locks (append_log_entry e).
Proof. unfold append_log_entry. apply keeps_bind; [auto with locks|]. intros t. destruct (negb _); auto with locks. Qed.
#[local] Hint Resolve keeps_append : locks.
Lemma keeps_memcpy pn o src : keeps_locks (memcpy_to pn o src).
Proof. unfold memcpy_to, data, store. auto 8 with locks. Qed.
#[local] Hint Resolve keeps_memcpy : locks.
Lemma keeps_read pn o : keeps_locks (read_int pn o).
Proof. unfold read_int, data. auto 8 with locks. Qed.
#[local] Hint Resolve keeps_read : locks.
Lemma keeps_set_parent pn q : keeps_locks (set_parent_page_num pn q).
Proof. unfold set_parent_page_num, parent_page_num, write_int. auto 8 with locks. Qed.
Lemma keeps_init pn : keeps_locks (internal_init_empty pn).
Proof. unfold internal_init_empty, init_empty, write_int. auto 8 with locks. Qed.
Lemma keeps_new_root pn q1 k q2 : keeps_locks (create_new_root pn q1 k q2).
Proof. unfold create_new_root, increase_size, size, write_int. auto 12 with locks. Qed.
Lemma keeps_dirty pn : keeps_locks (mark_dirty pn).
Proof. unfold mark_dirty. auto with locks. Qed.

(** ** A new root *)

(** the branch of [insert_entry_into_parent] for the root *)
Definition grow_root (frame new_frame : PageNum) (key : list Z) : M St RC :=
  let* a := on_pool tp_alloc in
  if OB_FAIL a.1 then ret a.1
  else
    let root_frame := a.2 in
    internal_init_empty root_frame ;;;
    create_new_root root_frame frame key new_frame ;;;
    set_parent_page_num frame root_frame ;;;
    set_parent_page_num new_frame root_frame ;;;
    mark_dirty frame ;;;
    mark_dirty new_frame ;;;
    write_latch root_frame ;;;
    update_root_page_num_locked root_frame ;;;
    mark_dirty root_frame ;;;
    write_unlatch root_frame ;;;
    unpin_page root_frame ;;;
    ret SUCCESS.

Definition zero_key : list Z := replicate (Z.to_nat (key_length h)) 0.
Lemma page_int32 ex s q : memo_ok ex s → is_Some (pages s !! q) → 0 < q < 2 ^ 31.
Proof. intros Hs [g Hg]. by apply (tp_size_ok _ q g (mo_pool _ _ Hs)). Qed.

Lemma grow_root_core ex s L NL R NR key : at_node ex s L NL → at_node ex s R NR → header_page s → ¬ latched s (OnFrame FIRST_INDEX_PAGE) → in_int32 (root_page (tree_header s)) →
  L ≠ R → L ≠ FIRST_INDEX_PAGE → R ≠ FIRST_INDEX_PAGE → len key = key_length h → (0 < free s)%nat →
  ∃ s' root, grow_root L R key s = Some (SUCCESS, s') ∧ memo_ok ex s' ∧ alters 1 [root; L; R; FIRST_INDEX_PAGE] s s' ∧ (∀ q, held s q → held s' q) ∧ pages s !! root = None ∧
    stored s' root (InnerOf (-1) [(zero_key, L); (key, R)]) ∧ stored s' L (with_parent root NL) ∧ stored s' R (with_parent root NR) ∧
    tree_header s' = with_root root (tree_header s) ∧ header_page s'.
Proof.
  intros HL HR Hp Hlat H32 HLR HL1 HR1 Hk Hfree. destruct (alloc_outside ex s (proj1 HL) Hfree) as (s1 & root & E1 & M1 & A1 & Hnone & Hsome & Hheld & Hh1).
  set (ex1 := ex ++ [mkItem PIN (OnFrame root)]) in *. assert (Hr1 : ready ex1 s1) by (split; [done|apply A1, (proj1 HL)]).
  assert (Hother : ∀ q N, at_node ex s q N → q ≠ root ∧ at_node ex1 s1 q N).
  { intros q N (_ & Hq & Hst). assert (q ≠ root) by (intros ->; destruct (stored_exists _ _ _ _ Hst); congruence). split; [done|]. split; [done|]. split; [auto|].
    destruct Hst as (g & Hg & HN). exists g. rewrite (al_pages _ _ _ _ A1) by set_solver. done. }
  destruct (Hother _ _ HL) as [HLr HL']. destruct (Hother _ _ HR) as [HRr HR']. assert (Hroot1 : root ≠ FIRST_INDEX_PAGE) by (intros ->; destruct Hp as (g & rest & Hg & _); congruence).
  pose proof (page_int32 _ _ _ (proj1 (proj1 HL)) (stored_exists _ _ _ _ (proj2 (proj2 HL)))) as BL. pose proof (page_int32 _ _ _ (proj1 (proj1 HR)) (stored_exists _ _ _ _ (proj2 (proj2 HR)))) as BR.
  pose proof (page_int32 _ _ _ M1 Hsome) as Br. unfold grow_root. run E1. cbn [fst snd]. change (OB_FAIL SUCCESS) with false. cbv iota.
  set (Z1 := [root; L; R]).
  destruct (internal_init_ok h Hix ex1 s1 root Hr1 Hheld) as (s2 & E2 & C2 & H2). run E2.
  destruct (create_new_root_ok h Hix ex1 s2 root (-1) L key R H2 Hk) as (s3 & E3 & C3 & H3); [unfold in_int32; lia|unfold in_int32; lia|]. fold zero_key in H3. run E3.
  assert (C13 : changes 0 Z1 s1 s3) by (apply (changes_trans Z1 [root] [root] 0 0 s1 s2 s3); [done|done|set_solver|set_solver]).
  assert (HL3 : at_node ex1 s3 L NL) by (eapply at_node_changes; [exact C3|set_solver|]; eapply at_node_changes; [exact C2|set_solver|done]).
  assert (HR3 : at_node ex1 s3 R NR) by (eapply at_node_changes; [exact C3|set_solver|]; eapply at_node_changes; [exact C2|set_solver|done]).
  destruct (set_parent_ok h ex1 s3 L NL root HL3) as (s4 & E4 & C4 & HL4); [unfold in_int32; lia|]. run E4. assert (HR4 : at_node ex1 s4 R NR) by keep C4.
  destruct (set_parent_ok h ex1 s4 R NR root HR4) as (s5 & E5 & C5 & HR5); [unfold in_int32; lia|]. run E5. assert (HL5 : at_node ex1 s5 L (with_parent root NL)) by keep C5.
  destruct (dirty_ok h ex1 s5 L _ HL5) as (s6 & E6 & C6 & HL6). run E6. assert (HR6 : at_node ex1 s6 R (with_parent root NR)) by keep C6.
  destruct (dirty_ok h ex1 s6 R _ HR6) as (s7 & E7 & C7 & HR7). run E7. assert (HL7 : at_node ex1 s7 L (with_parent root NL)) by keep C7.
  assert (C37 : changes 0 Z1 s3 s7).
  { apply (changes_trans Z1 [L; R] [L; R] 0 0 s3 s5 s7); [apply (changes_trans [L; R] [L] [R] 0 0 s3 s4 s5)|apply (changes_trans [L; R] [L] [R] 0 0 s5 s6 s7)|set_solver|set_solver]; first [done|set_solver]. }
  assert (H7 : at_node ex1 s7 root (InnerOf (-1) [(zero_key, L); (key, R)])).
  { eapply at_node_changes; [exact C7|set_solver|]. eapply at_node_changes; [exact C6|set_solver|]. eapply at_node_changes; [exact C5|set_solver|]. eapply at_node_changes; [exact C4|set_solver|done]. }
  assert (C17 : changes 0 Z1 s1 s7) by (apply (changes_trans Z1 Z1 Z1 0 0 s1 s3 s7); done).
  assert (Hp7 : header_page s7).
  { apply (header_page_changes 0 Z1 s1); [done|unfold Z1; set_solver|]. destruct Hp as (g & rest & Hg & Hd). exists g, rest. rewrite (al_pages _ _ _ _ A1), (al_header _ _ _ _ A1) by set_solver. done. }
  assert (El7 : m_locks s7 = m_locks s).
  { rewrite (keeps_dirty _ _ _ _ E7), (keeps_dirty _ _ _ _ E6), (keeps_set_parent _ _ _ _ _ E5), (keeps_set_parent _ _ _ _ _ E4), (keeps_new_root _ _ _ _ _ _ _ E3), (keeps_init _ _ _ _ E2). apply (keeps_pool _ _ _ _ E1). }
  assert (Hl7 : ∀ q, ¬ latched s (OnFrame q) → ¬ latched s7 (OnFrame q)) by (intros q; unfold latched; by rewrite El7).
  assert (Hroot_free : ¬ latched s (OnFrame root)) by (unfold latched; rewrite (fresh_unlatched ex s root (proj1 (proj1 HL)) Hnone); by intros []).
  destruct (latch_outside ex s7 root (proj1 (proj1 H7)) (Hl7 _ Hroot_free)) as (s8 & E8 & M8 & A8 & Epg8 & Epin8 & Eh8). run E8.
  set (ex2 := ex ++ [mkItem PIN (OnFrame root); mkItem EXCLUSIVE (OnFrame root)]) in *. assert (Hr8 : ready ex2 s8) by (split; [done|apply A8, (proj1 H7)]).
  assert (Eh7 : tree_header s7 = tree_header s) by (rewrite (ch_header _ _ _ _ C17), (al_header _ _ _ _ A1); [done|set_solver|unfold Z1; set_solver]).
  assert (Hst8 : ∀ q N, stored s7 q N → stored s8 q N) by (intros q N (g & Hg & HN); exists g; by rewrite Epg8).
  destruct (update_root_ok ex2 s8 root Hr8) as (s9 & E9 & C9 & Eh9 & Hp9).
  { destruct Hp7 as (g & rest & Hg & Hd). exists g, rest. by rewrite Epg8, Eh8. }
  { intros Hq. destruct (al_latched _ _ _ _ A8 _ Hq) as [Hq7|(q & Hq7 & [= <-])]; [by apply (Hl7 _ Hlat)|set_solver]. }
  { by rewrite Eh8, Eh7. }
  run E9. assert (Hst9 : ∀ q N, q ≠ FIRST_INDEX_PAGE → stored s7 q N → stored s9 q N) by (intros q N Hq Hst; apply (changes_stored h 0 _ _ _ _ _ C9); [set_solver|by apply Hst8]).
  assert (H9 : at_node ex2 s9 root (InnerOf (-1) [(zero_key, L); (key, R)])).
  { split; [by apply (changes_ready h _ _ _ _ _ C9)|]. split; [apply (ch_held _ _ _ _ C9); unfold held; rewrite Epin8; apply H7|apply Hst9; [done|apply H7]]. }
  destruct (dirty_ok h ex2 s9 root _ H9) as (s10 & E10 & C10 & H10). run E10.
  destruct (give_back_outside ex s10 root (proj1 (proj1 H10))) as (s11 & s12 & E11 & E12 & M12 & A12 & Epg12 & Eh12 & Hh12). run E11. run E12.
  assert (Hst12 : ∀ q N, q ≠ FIRST_INDEX_PAGE → q ≠ root → stored s7 q N → stored s12 q N).
  { intros q N Hq1 Hqr Hst. destruct (Hst9 q N Hq1 Hst) as (g & Hg & HN). exists g. rewrite Epg12, (ch_pages _ _ _ _ C10) by set_solver. done. }
  exists s12, root. split; [done|]. split; [done|]. set (Z2 := [root; L; R; FIRST_INDEX_PAGE]).
  split; [|split; [|split; [done|split; [|split; [|split; [|split]]]]]].
  - apply (alters_trans Z2 [root] Z2 1 0 s s1 s12); [done| |unfold Z2; set_solver|done].
    apply (alters_trans Z2 Z1 Z2 0 0 s1 s7 s12); [by apply changes_alters| |unfold Z1, Z2; set_solver|done].
    apply (alters_trans Z2 [root] Z2 0 0 s7 s8 s12); [done| |unfold Z2; set_solver|done].
    apply (alters_trans Z2 [FIRST_INDEX_PAGE] Z2 0 0 s8 s9 s12); [by apply changes_alters| |unfold Z2; set_solver|done].
    apply (alters_trans Z2 [root] [] 0 0 s9 s10 s12); [by apply changes_alters|done|unfold Z2; set_solver|set_solver].
  - intros q Hq. apply Hh12; [intros ->; destruct (held_page ex s root (proj1 (proj1 HL)) Hq) as [[g Hg] _]; congruence|].
    apply (ch_held _ _ _ _ C10), (ch_held _ _ _ _ C9). unfold held. rewrite Epin8. apply (ch_held _ _ _ _ C17). auto.
  - destruct H10 as (_ & _ & g & Hg & HN). exists g. by rewrite Epg12.
  - apply Hst12; [done|done|apply HL7].
  - apply Hst12; [done|done|apply HR7].
  - rewrite Eh12, (ch_header _ _ _ _ C10), Eh9, Eh8, Eh7 by set_solver. done.
  - assert (Hp10 : header_page s10) by (apply (header_page_changes 0 [root] s9); [done|set_solver|done]). destruct Hp10 as (g & rest & Hg & Hd). exists g, rest. by rewrite Epg12, Eh12.
Qed.

(** it counts as one step *)
Lemma grow_root_ok ex s L NL R NR key : at_node ex s L NL → at_node ex s R NR → header_page s → ¬ latched s (OnFrame FIRST_INDEX_PAGE) → in_int32 (root_page (tree_header s)) →
  L ≠ R → L ≠ FIRST_INDEX_PAGE → R ≠ FIRST_INDEX_PAGE → len key = key_length h → (0 < free s)%nat →
  ∃ s' root, grow_root L R key s = Some (SUCCESS, s') ∧ changes 1 [root; L; R; FIRST_INDEX_PAGE] s s' ∧ pages s !! root = None ∧
    stored s' root (InnerOf (-1) [(zero_key, L); (key, R)]) ∧ stored s' L (with_parent root NL) ∧ stored s' R (with_parent root NR) ∧
    tree_header s' = with_root root (tree_header s) ∧ header_page s'.
Proof.
  intros HL HR Hp Hlat H32 HLR HL1 HR1 Hk Hfree. destruct (grow_root_core ex s L NL R NR key) as (s' & root & E & M' & A' & Hh' & Hrest); [done..|].
  exists s', root. split; [done|]. split; [|done]. apply alters_changes; [done| |done]. intros ex0 M0.
  destruct (grow_root_core ex0 s L NL R NR key) as (s0 & root0 & E0 & M0' & _); [| |done..|congruence].
  - destruct HL as ([_ Hlike] & H1). by split.
  - destruct HR as ([_ Hlike] & H1). by split.
Qed.
End root.
