(* ===== verification/BplusInsert.v ===== *)
(** * BplusInsert: splitting nodes on the way up

    [insert_entry_into_parent] puts the second half of a split node behind the first one in the
    level above, which may split in turn. *)
From stdpp Require Import sorting.
From S2P Require Import Prelude Types Encoding KeyCompare LatchMemo LatchMemoSpec BplusNode BplusLog BplusNodeSpec BplusOps BplusNodeOps BplusMoves BplusShape BplusTree BplusRoot.

Lemma sublist_tail_mid {A} (a m b : list A) : tail m `sublist_of` tail (a ++ m ++ b).
Proof.
  destruct a as [|x a]; cbn [app tail].
  - destruct m as [|y m]; cbn [app tail]; [apply sublist_nil_l|]. by apply sublist_inserts_r.
  - apply sublist_inserts_l. destruct m as [|y m]; cbn [app tail]; [apply sublist_nil_l|]. apply sublist_cons. by apply sublist_inserts_r.
Qed.
(** two ways to split a list *)
Lemma split_twice {A} (h1 h2 c1 c2 : list A) x : h1 ++ h2 = c1 ++ x :: c2 →
  (∃ d, h1 = c1 ++ x :: d ∧ c2 = d ++ h2) ∨ (∃ d, c1 = h1 ++ d ∧ h2 = d ++ x :: c2).
Proof.
  revert c1. induction h1 as [|y h1 IH]; intros c1 E.
  - right. by exists c1.
  - destruct c1 as [|z c1]; cbn in E; injection E as -> E; [left; by exists h1|].
    destruct (IH _ E) as [(d & -> & ->)|(d & -> & ->)]; [left; by exists d|right; by exists d].
Qed.

(** ** Levels in the file *)

(** a level: the pages and their nodes, but for the parents *)
Abbreviation Level := (list (PageNum * Node)).
Definition inner_nodes (up : list Inner) : Level := (λ n, (n.1, InnerOf 0 n.2)) <$> up.

Section insert.
Context {P : Type} `{TL : TreePoolLaws P}.
Context (h : IndexFileHeader).
Abbreviation St := (Memo P TreeState).
Implicit Types (s : St) (pn q r : PageNum) (N : Node) (ex : list LatchMemoItem) (low : Level) (lvls : list (list Inner)).
Abbreviation at_node := (at_node h).
Abbreviation ready := (ready h).
Abbreviation stored := (stored h).

Definition level_stored s low (ps : list PageNum) : Prop := Forall2 (λ pN p, stored s pN.1 (with_parent p pN.2)) low ps.
Fixpoint levels_stored s lvls : Prop :=
  match lvls with
  | [] => True
  | up :: lvls => level_stored s (inner_nodes up) (pars lvls) ∧ levels_stored s lvls
  end.

Lemma inner_nodes_pages up : (inner_nodes up).*1 = up.*1.
Proof. unfold inner_nodes. by rewrite <-list_fmap_compose. Qed.
Lemma level_stored_app s l1 l2 p1 p2 : length l1 = length p1 → level_stored s (l1 ++ l2) (p1 ++ p2) ↔ level_stored s l1 p1 ∧ level_stored s l2 p2.
Proof. intros Hl. unfold level_stored. split; [by apply Forall2_app_inv|intros []; by apply Forall2_app]. Qed.
Lemma level_stored_cons s pn N l p ps : level_stored s ((pn, N) :: l) (p :: ps) ↔ stored s pn (with_parent p N) ∧ level_stored s l ps.
Proof. unfold level_stored. by rewrite Forall2_cons. Qed.
Lemma level_stored_length s low ps : level_stored s low ps → length low = length ps.
Proof. apply Forall2_length. Qed.
Lemma level_stored_changes k X s s' low ps : changes k X s s' → (∀ q, q ∈ low.*1 → q ∉ X) → level_stored s low ps → level_stored s' low ps.
Proof.
  intros Hc HX Hl. induction Hl as [|[pn N] p low ps H1 _ IH]; [constructor|]. constructor; [|apply IH; set_solver]. apply (changes_stored h k X s); [done| |done]. apply HX. set_solver.
Qed.
Lemma levels_stored_changes k X s s' lvls : changes k X s s' → (∀ q, q ∈ level_pages lvls → q ∉ X) → levels_stored s lvls → levels_stored s' lvls.
Proof.
  intros Hc. induction lvls as [|up lvls IH]; [done|]. intros HX [H1 H2]. unfold level_pages in HX. cbn [fmap list_fmap mjoin list_join] in HX. split.
  - apply (level_stored_changes k X s); [done| |done]. intros q. rewrite inner_nodes_pages. intros Hq. apply HX. by apply elem_of_app; left.
  - apply IH; [|done]. intros q Hq. apply HX. by apply elem_of_app; right.
Qed.
Lemma level_stored_exists s low ps q : level_stored s low ps → q ∈ low.*1 → is_Some (pages s !! q).
Proof.
  induction 1 as [|[pn N] p low ps H1 _ IH]; cbn; [by intros ?%elem_of_nil|]. intros [->|Hq]%elem_of_cons; [by apply (stored_exists h _ _ _ H1)|auto].
Qed.
Lemma levels_stored_exists s lvls q : levels_stored s lvls → q ∈ level_pages lvls → is_Some (pages s !! q).
Proof.
  induction lvls as [|up lvls IH]; [by intros _ ?%elem_of_nil|]. intros [H1 H2]. unfold level_pages. cbn [fmap list_fmap mjoin list_join]. intros [Hq|Hq]%elem_of_app; [|auto].
  apply (level_stored_exists _ _ _ _ H1). by rewrite inner_nodes_pages.
Qed.
(** children of one node *)
Lemma level_kids s low kids pn : low.*1 = kids.*2 → level_stored s low (replicate (length low) pn) ↔ kids_stored h s pn kids low.*2.
Proof.
  revert kids. induction low as [|[q N] low IH]; intros [|[k q'] kids]; cbn; intros E; try done.
  - split; intros _; constructor.
  - injection E as <- E. unfold kids_stored. rewrite level_stored_cons, Forall2_cons. cbn [fst snd]. by rewrite (IH kids).
Qed.
Lemma kids_stored_exists s par kids Ns q : kids_stored h s par kids Ns → q ∈ kids.*2 → is_Some (pages s !! q).
Proof.
  induction 1 as [|[k q'] N kids Ns HN _ IH]; cbn; [by intros ?%elem_of_nil|]. intros [->|Hq]%elem_of_cons; [by apply (stored_exists h _ _ _ HN)|auto].
Qed.
Lemma stored_int32 s pn N : stored s pn N → in_int32 (parent_of N).
Proof. intros (g & _ & (pad & junk & _ & _ & Hp & _) & _). done. Qed.

(** ** Splitting a node *)

Context (Hix : index_ok h).

Lemma split_leaf_ok ex s pn p nx l1 l2 : at_node ex s pn (LeafOf p nx (l1 ++ l2)) → (0 < free s)%nat → len l1 = Z.quot (len (l1 ++ l2)) 2 → len l2 ≤ leaf_max_size h →
  ∃ s' new, split LeafNode pn s = Some ((SUCCESS, new), s') ∧ changes 1 [new; pn] s s' ∧ pages s !! new = None ∧
    at_node ex s' pn (LeafOf p nx l1) ∧ at_node ex s' new (LeafOf p (-1) l2).
Proof.
  intros Hat Hf Hl1 Hl2. unfold split. destruct (allocate_page_changes h ex s (proj1 Hat) Hf) as (s1 & new & E1 & C1 & Hh1 & Hnone & Hsome & Hi1 & Hul).
  run E1. cbn [fst snd]. change (OB_FAIL SUCCESS) with false. cbv iota. assert (Hne : pn ≠ new) by (intros ->; destruct (stored_exists _ _ _ _ (proj2 (proj2 Hat))); congruence).
  pose proof (changes_ready h _ _ ex _ _ C1 (proj1 Hat)) as Hr1. destruct (xlatch_changes h ex s1 new Hr1 Hi1 Hul) as (s2 & E2 & C2 & _). run E2.
  cbn [class_init_empty]. destruct (leaf_init_ok h Hix ex s2 new) as (s3 & E3 & C3 & H3); [by apply (changes_ready h _ _ ex _ _ C2)|by apply (ch_held _ _ _ _ C2)|]. run E3.
  assert (C13 : changes 1 [new] s s3) by (apply (changes_trans [new] [new] [new] 1 0 s s1 s3); [done|by apply (changes_trans [new] [new] [new] 0 0 s1 s2 s3)|done|done]).
  assert (Hat3 : at_node ex s3 pn (LeafOf p nx (l1 ++ l2))) by keep C13. run (parent_ok _ _ _ _ _ Hat3). cbn [parent_of].
  destruct (set_parent_ok h ex s3 new _ p H3) as (s4 & E4 & C4 & H4); [apply (stored_int32 s pn (LeafOf p nx (l1 ++ l2))), Hat|]. run E4. cbn [with_parent] in H4. assert (Hat4 : at_node ex s4 pn (LeafOf p nx (l1 ++ l2))) by keep C4.
  cbn [class_move_half_to]. destruct (leaf_move_half_ok h Hix ex s4 pn new p nx p (-1) l1 l2 Hat4 H4 Hne Hl1 Hl2) as (s5 & E5 & C5 & H5 & H5'). run E5.
  destruct (dirty_ok h ex s5 pn _ H5) as (s6 & E6 & C6 & H6). run E6. assert (H6' : at_node ex s6 new (LeafOf p (-1) l2)) by keep C6.
  destruct (dirty_ok h ex s6 new _ H6') as (s7 & E7 & C7 & H7). run E7. exists s7, new. split; [done|]. split; [|split; [done|split; [keep C7|done]]].
  apply (changes_trans [new; pn] [new] [new; pn] 1 0 s s3 s7); [done| |set_solver|done]. apply (changes_trans [new; pn] [new] [new; pn] 0 0 s3 s4 s7); [done| |set_solver|done].
  apply (changes_trans [new; pn] [pn; new] [new; pn] 0 0 s4 s5 s7); [done| |set_solver|done]. apply (changes_trans [new; pn] [pn] [new] 0 0 s5 s6 s7); [done|done|set_solver|set_solver].
Qed.
Lemma split_inner_ok ex s pn p l1 l2 Ns : at_node ex s pn (InnerOf p (l1 ++ l2)) → (0 < free s)%nat → len l1 = Z.quot (len (l1 ++ l2)) 2 → len l2 ≤ internal_max_size h →
  kids_stored h s pn l2 Ns → NoDup l2.*2 → pn ∉ l2.*2 →
  ∃ s' new, split InternalNode pn s = Some ((SUCCESS, new), s') ∧ changes 1 (new :: pn :: l2.*2) s s' ∧ pages s !! new = None ∧
    at_node ex s' pn (InnerOf p l1) ∧ at_node ex s' new (InnerOf p l2) ∧ kids_stored h s' new l2 Ns.
Proof.
  intros Hat Hf Hl1 Hl2 Hk Hnd Hpn. unfold split. destruct (allocate_page_changes h ex s (proj1 Hat) Hf) as (s1 & new & E1 & C1 & Hh1 & Hnone & Hsome & Hi1 & Hul).
  run E1. cbn [fst snd]. change (OB_FAIL SUCCESS) with false. cbv iota. assert (Hne : pn ≠ new) by (intros ->; destruct (stored_exists _ _ _ _ (proj2 (proj2 Hat))); congruence).
  pose proof (changes_ready h _ _ ex _ _ C1 (proj1 Hat)) as Hr1. destruct (xlatch_changes h ex s1 new Hr1 Hi1 Hul) as (s2 & E2 & C2 & _). run E2.
  cbn [class_init_empty]. destruct (internal_init_ok h Hix ex s2 new) as (s3 & E3 & C3 & H3); [by apply (changes_ready h _ _ ex _ _ C2)|by apply (ch_held _ _ _ _ C2)|]. run E3.
  assert (C13 : changes 1 [new] s s3) by (apply (changes_trans [new] [new] [new] 1 0 s s1 s3); [done|by apply (changes_trans [new] [new] [new] 0 0 s1 s2 s3)|done|done]).
  assert (Hat3 : at_node ex s3 pn (InnerOf p (l1 ++ l2))) by keep C13. run (parent_ok _ _ _ _ _ Hat3). cbn [parent_of].
  destruct (set_parent_ok h ex s3 new _ p H3) as (s4 & E4 & C4 & H4); [apply (stored_int32 s pn (InnerOf p (l1 ++ l2))), Hat|]. run E4. cbn [with_parent] in H4. assert (Hat4 : at_node ex s4 pn (InnerOf p (l1 ++ l2))) by keep C4.
  assert (C04 : changes 1 [new] s s4) by (apply (changes_trans [new] [new] [new] 1 0 s s3 s4); done).
  assert (Hkn : new ∉ l2.*2).
  { intros Hq. destruct (kids_stored_exists _ _ _ _ _ Hk Hq). congruence. }
  assert (Hk4 : kids_stored h s4 pn l2 Ns) by (apply (kids_changes h Hix 1 [new] s); [done| |done]; intros q Hq ->%list_elem_of_singleton; done).
  assert (Hn32 : in_int32 new) by (pose proof (page_int32 _ _ _ (proj1 (proj1 H4)) (stored_exists _ _ _ _ (proj2 (proj2 H4)))); unfold in_int32; lia).
  cbn [class_move_half_to]. destruct (internal_move_half_ok h Hix ex s4 pn new p p l1 l2 Ns Hat4 H4 Hne Hn32 Hl1 Hl2 Hk4 Hnd Hpn Hkn) as (s5 & E5 & C5 & H5 & H5' & K5). run E5.
  destruct (dirty_ok h ex s5 pn _ H5) as (s6 & E6 & C6 & H6). run E6. assert (H6' : at_node ex s6 new (InnerOf p l2)) by keep C6.
  destruct (dirty_ok h ex s6 new _ H6') as (s7 & E7 & C7 & H7). run E7. exists s7, new. split; [done|]. assert (C57 : changes 0 [pn; new] s5 s7) by (apply (changes_trans [pn; new] [pn] [new] 0 0 s5 s6 s7); [done|done|set_solver|set_solver]).
  split; [|split; [done|split; [keep C7|split; [done|]]]].
  - apply (changes_trans (new :: pn :: l2.*2) [new] (new :: pn :: l2.*2) 1 0 s s4 s7); [done| |set_solver|done].
    apply (changes_trans (new :: pn :: l2.*2) (pn :: new :: l2.*2) [pn; new] 0 0 s4 s5 s7); [done|done|set_solver|set_solver].
  - apply (kids_changes h Hix 0 [pn; new] s5); [done| |done]. intros q Hq [E|E]%elem_of_cons; [by subst|]. apply list_elem_of_singleton in E. by subst.
Qed.

(** ** Into the parent *)

Context (valid : list Z → Prop).
Abbreviation cmp := (comparator h).
Context `{KO : !KeyOrder valid cmp} (Hlen : ∀ k, valid k → len k = key_length h).

Lemma insert_kid_ok ex s pn p c1 k L c2 sep R : at_node ex s pn (InnerOf p (c1 ++ (k, L) :: c2)) → valid sep → in_int32 R →
  ascending valid cmp (tail (c1 ++ (k, L) :: (sep, R) :: c2).*1) → len (c1 ++ (k, L) :: c2) < internal_max_size h →
  ∃ s', internal_insert pn sep R s = Some (SUCCESS, s') ∧ changes 0 [pn] s s' ∧ at_node ex s' pn (InnerOf p (c1 ++ (k, L) :: (sep, R) :: c2)).
Proof.
  intros Hat Hv HR Hasc Hsz. assert (E : ∃ k0 q0 l1, ∀ x, c1 ++ (k, L) :: x = (k0, q0) :: l1 ++ x).
  { destruct c1 as [|[k0 q0] c1]; [by exists k, L, []|]. exists k0, q0, (c1 ++ [(k, L)]). intros x. cbn. by rewrite <-app_assoc. }
  destruct E as (k0 & q0 & l1 & E). rewrite !E in *. cbn [fmap list_fmap fst tail] in Hasc. rewrite fmap_app in Hasc. cbn [fmap list_fmap fst] in Hasc.
  apply ascending_app in Hasc as (H1 & H2 & H12). apply ascending_cons in H2 as (_ & H2 & H3).
  apply (internal_insert_ok h valid Hlen Hix ex s pn p k0 q0 l1 c2 sep R Hat Hv HR); [| | |done].
  - rewrite fmap_app. apply ascending_app. split; [done|]. split; [done|]. intros a b Ha Hb. apply H12; [done|]. apply elem_of_cons. by right.
  - apply Forall_forall. intros a Ha. apply H12; [done|]. by left.
  - apply Forall_forall. intros b Hb. rewrite Forall_forall in H3. apply cmp_flip_lt; [done|by apply (proj1 (Forall_forall _ _) (proj1 H2))|]. by apply H3.
Qed.

Lemma parent_set_ok s ex R NR p : ready ex s → held s R → stored s R NR → in_int32 p → ∃ s', set_parent_page_num R p s = Some (SUCCESS, s') ∧ changes 0 [R] s s' ∧ stored s' R (with_parent p NR).
Proof.
  intros Hr Hh Hst Hp. destruct (set_parent_ok h ex s R NR p) as (s' & E & C & H1); [by split|done|]. exists s'. split; [done|]. split; [done|apply H1].
Qed.

Lemma ascending_tail_mid (a m b : list Kid) : ascending valid cmp (tail (a ++ m ++ b).*1) → ascending valid cmp (tail m.*1).
Proof. apply ascending_sublist. rewrite !fmap_app. apply sublist_tail_mid. Qed.
Lemma ascending_behind (a m : list Kid) : a ≠ [] → ascending valid cmp (tail (a ++ m).*1) → ascending valid cmp m.*1.
Proof. intros Ha. apply ascending_sublist. destruct a as [|x a]; [done|]. cbn [app fmap list_fmap tail]. rewrite fmap_app. by apply sublist_inserts_l. Qed.

(** the child goes behind [L], into the node [t] that holds [L] *)
Lemma insert_half_ok ex s t pp a k L b sep R la NL lb NR : at_node ex s t (InnerOf pp (a ++ (k, L) :: b)) → len (a ++ (k, L) :: b) < internal_max_size h → valid sep →
  ascending valid cmp (tail (a ++ (k, L) :: (sep, R) :: b).*1) → la.*1 = a.*2 → lb.*1 = b.*2 → level_stored s (la ++ (L, NL) :: lb) (replicate (length (la ++ (L, NL) :: lb)) t) →
  held s R → stored s R NR → R ≠ t → t ∉ (a ++ (k, L) :: b).*2 → R ∉ (a ++ (k, L) :: b).*2 →
  ∃ s1 s', internal_insert t sep R s = Some (SUCCESS, s1) ∧ set_parent_page_num R t s1 = Some (SUCCESS, s') ∧ changes 0 [t; R] s s' ∧ held s' R ∧ at_node ex s' t (InnerOf pp (a ++ (k, L) :: (sep, R) :: b)) ∧
    level_stored s' (la ++ (L, NL) :: (R, NR) :: lb) (replicate (length (a ++ (k, L) :: (sep, R) :: b)) t).
Proof.
  intros Hat Hroom Hv Hasc Ela Elb Hlow HhR HR HRt Htk HRk.
  pose proof (page_int32 _ _ _ (proj1 (proj1 Hat)) (stored_exists _ _ _ _ HR)) as BR. pose proof (page_int32 _ _ _ (proj1 (proj1 Hat)) (stored_exists _ _ _ _ (proj2 (proj2 Hat)))) as Bt.
  destruct (insert_kid_ok ex s t pp a k L b sep R Hat Hv ltac:(unfold in_int32; lia) Hasc Hroom) as (s1 & E1 & C1 & H1).
  destruct (parent_set_ok s1 ex R NR t (proj1 H1)) as (s2 & E2 & C2 & H2); [by apply (ch_held _ _ _ _ C1)|apply (changes_stored h 0 [t] s); [done|set_solver|done]|unfold in_int32; lia|].
  assert (C : changes 0 [t; R] s s2) by (apply (changes_trans [t; R] [t] [R] 0 0 s s1 s2); [done|done|set_solver|set_solver]).
  exists s1, s2. split; [done|]. split; [done|]. split; [done|]. split; [by apply (ch_held _ _ _ _ C)|]. split; [keep C2|].
  assert (Epages : (la ++ (L, NL) :: lb).*1 = (a ++ (k, L) :: b).*2) by (rewrite !fmap_app; cbn; by rewrite Ela, Elb).
  apply (level_stored_changes 0 [t; R] s s2) in Hlow; [|done|intros q Hq [->|Hq']%elem_of_cons; rewrite Epages in Hq; [done|apply list_elem_of_singleton in Hq'; by subst]].
  assert (La : length la = length a) by (apply (f_equal length) in Ela; by rewrite !length_fmap in Ela). assert (Lb : length lb = length b) by (apply (f_equal length) in Elb; by rewrite !length_fmap in Elb).
  rewrite length_app, replicate_add, level_stored_app in Hlow by (by rewrite length_replicate). destruct Hlow as [Hla Hlb]. cbn [length replicate] in Hlb. apply level_stored_cons in Hlb as [HL Hlb].
  rewrite length_app, replicate_add, <-La, level_stored_app by (by rewrite length_replicate). split; [done|]. cbn [length replicate]. rewrite <-Lb. apply level_stored_cons. split; [done|]. by apply level_stored_cons.
Qed.

(** a full parent is split, and the new child goes into the half it belongs to *)
Lemma split_parent_ok ex s pn pp c1 k L c2 sep R lows1 NL lows2 NR :
  at_node ex s pn (InnerOf pp (c1 ++ (k, L) :: c2)) → len (c1 ++ (k, L) :: c2) = internal_max_size h → (0 < free s)%nat →
  lows1.*1 = c1.*2 → lows2.*1 = c2.*2 → level_stored s (lows1 ++ (L, NL) :: lows2) (replicate (length (lows1 ++ (L, NL) :: lows2)) pn) →
  stored s R NR → held s R → NoDup (pn :: R :: (c1 ++ (k, L) :: c2).*2) → valid sep → ascending valid cmp (tail (c1 ++ (k, L) :: (sep, R) :: c2).*1) →
  ∃ s1 s' new k2 g1 g2, split InternalNode pn s = Some ((SUCCESS, new), s1) ∧ header_like h (tree_header s1) ∧ key_at InternalNode new 0 s1 = Some (k2, s1) ∧
    (if 0 <? cmp sep k2 then internal_insert new sep R ;;; set_parent_page_num R new else internal_insert pn sep R ;;; set_parent_page_num R pn) s1 = Some (SUCCESS, s') ∧
    key_at InternalNode new 0 s' = Some (k2, s') ∧ changes 1 (new :: pn :: R :: (c1 ++ (k, L) :: c2).*2) s s' ∧ pages s !! new = None ∧
    g1 ++ g2 = c1 ++ (k, L) :: (sep, R) :: c2 ∧ at_node ex s' pn (InnerOf pp g1) ∧ at_node ex s' new (InnerOf pp g2) ∧ head_key g2 = k2 ∧ valid k2 ∧
    inner_sized (internal_max_size h) false (pn, g1) ∧ inner_sized (internal_max_size h) false (new, g2) ∧ head_key g1 = head_key (c1 ++ (k, L) :: c2) ∧
    level_stored s' (lows1 ++ (L, NL) :: (R, NR) :: lows2) (replicate (length g1) pn ++ replicate (length g2) new).
Proof.
  intros Hat Hfull Hf El1 El2 Hlow HR HhR Hnd Hv Hasc. set (imax := internal_max_size h) in *. pose proof (ix_inner_min _ Hix) as Hmin. fold imax in Hmin.
  set (m := Z.quot imax 2). assert (Hm : 1 ≤ m < imax ∧ m ≤ imax - m) by (unfold m; pose proof (Z.quot_rem' imax 2); pose proof (Z.rem_bound_pos imax 2); lia).
  destruct (cut m (c1 ++ (k, L) :: c2)) as (h1 & h2 & E & Lh1); [lia|]. assert (Lh2 : len h2 = imax - m) by (rewrite E, len_app in Hfull; lia).
  assert (Hhead : head_key h1 = head_key (c1 ++ (k, L) :: c2)) by (rewrite E; destruct h1; [unfold len in Lh1; cbn in Lh1; lia|done]).
  destruct h2 as [|[k2 q2] h2']; [unfold len in Lh2; cbn in Lh2; lia|]. set (h2 := (k2, q2) :: h2') in *.
  apply NoDup_cons in Hnd as [Hpn Hnd]. apply NoDup_cons in Hnd as [HRn Hnd]. 
  assert (HpnR : pn ≠ R) by (intros ->; apply Hpn; by left). assert (Hpk : pn ∉ (c1 ++ (k, L) :: c2).*2) by (intros Hq; apply Hpn; by right).
  pose proof (page_int32 _ _ _ (proj1 (proj1 Hat)) (stored_exists _ _ _ _ HR)) as BR. pose proof (page_int32 _ _ _ (proj1 (proj1 Hat)) (stored_exists _ _ _ _ (proj2 (proj2 Hat)))) as Bpn.
  assert (Hsplit : ∀ low1 low2, lows1 ++ (L, NL) :: lows2 = low1 ++ low2 → low1.*1 = h1.*2 → low2.*1 = h2.*2 →
    ∃ s1 new, split InternalNode pn s = Some ((SUCCESS, new), s1) ∧ changes 1 (new :: pn :: h2.*2) s s1 ∧ pages s !! new = None ∧ (new ∉ [pn; R]) ∧ 0 < new < 2 ^ 31 ∧
      at_node ex s1 pn (InnerOf pp h1) ∧ at_node ex s1 new (InnerOf pp h2) ∧ level_stored s1 low1 (replicate (length low1) pn) ∧ level_stored s1 low2 (replicate (length low2) new) ∧ ready ex s1 ∧ held s1 R ∧ stored s1 R NR).
  { intros low1 low2 Elow E1 E2. rewrite Elow, length_app, replicate_add, level_stored_app in Hlow by (by rewrite length_replicate). destruct Hlow as [Hl1 Hl2]. rewrite E in *. rewrite fmap_app in Hnd, Hpk, HRn.
    apply NoDup_app in Hnd as (Hnd1 & Hnd12 & Hnd2). destruct (split_inner_ok ex s pn pp h1 h2 low2.*2 Hat Hf) as (s1 & new & Es & C & Hnone & Ha1 & Ha2 & Hk2); [rewrite Lh1, Hfull; done|lia|by apply level_kids|done|set_solver|].
    assert (HnR : new ∉ [pn; R]) by (intros [E0|E0]%elem_of_cons; [destruct (stored_exists _ _ _ _ (proj2 (proj2 Hat)))|apply list_elem_of_singleton in E0; destruct (stored_exists _ _ _ _ HR)]; congruence). exists s1, new. split; [done|]. split; [done|]. split; [done|]. split; [done|].
    split; [apply (page_int32 ex s1); [apply Ha2|apply (stored_exists h _ _ _ (proj2 (proj2 Ha2)))]|]. split; [done|]. split; [done|].
    split; [|split; [by apply level_kids in Hk2|split; [by apply (changes_ready h _ _ ex _ _ C), Hat|split; [by apply (ch_held _ _ _ _ C)|]]]].
    - apply (level_stored_changes 1 (new :: pn :: h2.*2) s); [done| |done]. intros q Hq [->|[->|Hq2]%elem_of_cons]%elem_of_cons.
      + destruct (level_stored_exists _ _ _ _ Hl1 Hq). congruence.
      + rewrite E1 in Hq. set_solver.
      + rewrite E1 in Hq. by apply (Hnd12 q).
    - apply (changes_stored h 1 (new :: pn :: h2.*2) s); [done| |done]. set_solver. }
  set (X' := (λ new, new :: (pn :: R :: (c1 ++ (k, L) :: c2).*2))).
  destruct (split_twice h1 h2 c1 c2 (k, L) (eq_sym E)) as [(d & Eh1 & Ec2)|(d & Ec1 & Eh2)].
  - rewrite Ec2, fmap_app in El2. apply fmap_app_inv in El2 as (ld & low2 & Eld & Elow2 & ->).
    destruct (Hsplit (lows1 ++ (L, NL) :: ld) low2) as (s1 & new & Es & C1 & Hnone & HnR & Bn & Ha1 & Ha2 & Hl1 & Hl2 & Hr1 & Hh1 & HR1); [by rewrite <-app_assoc|rewrite Eh1, !fmap_app; cbn; by rewrite El1, Eld|done|].
    assert (Esub : c1 ++ (k, L) :: (sep, R) :: c2 = (c1 ++ (k, L) :: (sep, R) :: d) ++ h2) by (rewrite Ec2, <-app_assoc; done).
    assert (Hsep : cmp sep k2 < 0 ∧ valid k2).
    { assert (Hs2 : ascending valid cmp ((sep, R) :: d ++ h2).*1) by (apply (ascending_behind (c1 ++ [(k, L)])); [by destruct c1|by rewrite <-app_assoc, <-Ec2]).
      cbn [fmap list_fmap fst] in Hs2. apply ascending_cons in Hs2 as (_ & [Hs2 _] & Hs3). rewrite fmap_app in Hs2, Hs3. rewrite Forall_forall in Hs2, Hs3. split; [apply Hs3|apply Hs2]; apply elem_of_app; right; left. }
    destruct Hsep as [Hsep Hvk2]. rewrite Esub in Hasc. rewrite Eh1 in Ha1, Lh1, Hhead. rewrite E, fmap_app, Eh1 in Hpk, HRn.
    destruct (insert_half_ok ex s1 pn pp c1 k L d sep R lows1 NL ld NR Ha1) as (s2 & s3 & E2 & E3 & C3 & Hh3 & H3 & Hl3); [fold imax; lia|done|by apply (ascending_tail_mid [] _ h2)|done|done|done|done|done|done|set_solver|set_solver|].
    assert (Ha3 : at_node ex s3 new (InnerOf pp h2)) by (eapply at_node_changes; [exact C3|done|done]).
    exists s1, s3, new, k2, (c1 ++ (k, L) :: (sep, R) :: d), h2. rewrite (proj2 (Z.ltb_ge 0 _)) by lia.
    split; [done|]. split; [apply Hr1|]. split; [apply (key_at_ok _ _ _ _ _ Ha2); done|]. split; [by run E2|]. split; [apply (key_at_ok _ _ _ _ _ Ha3); done|].
    split; [apply (changes_trans (X' new) (new :: pn :: h2.*2) [pn; R] 1 0 s s1 s3); [done|done|unfold X'; rewrite E, fmap_app; set_solver|unfold X'; set_solver]|].
    split; [done|]. split; [done|]. split; [done|]. split; [done|]. split; [done|]. split; [done|].
    rewrite len_app in Lh1. cbn [len] in Lh1. unfold inner_sized. cbn [snd]. rewrite len_app. fold m.
    split; [unfold len in *; cbn [length] in *; lia|]. split; [lia|]. split; [rewrite <-Hhead; by destruct c1|].
    replace (lows1 ++ (L, NL) :: (R, NR) :: ld ++ low2) with ((lows1 ++ (L, NL) :: (R, NR) :: ld) ++ low2) by (by rewrite <-app_assoc). apply level_stored_app; [rewrite (level_stored_length _ _ _ Hl3); done|]. split; [done|].
    replace (length h2) with (length low2) by (apply (f_equal length) in Elow2; by rewrite !length_fmap in Elow2). apply (level_stored_changes 0 [pn; R] s1); [done| |done].
    intros q Hq [->|Hq']%elem_of_cons; rewrite <-Elow2 in Hq; [set_solver|apply list_elem_of_singleton in Hq'; set_solver].
  - rewrite Ec1, fmap_app in El1. apply fmap_app_inv in El1 as (low1 & ld & Elow1 & Eld & ->).
    destruct (Hsplit low1 (ld ++ (L, NL) :: lows2)) as (s1 & new & Es & C1 & Hnone & HnR & Bn & Ha1 & Ha2 & Hl1 & Hl2 & Hr1 & Hh1 & HR1); [by rewrite <-app_assoc|done|rewrite Eh2, !fmap_app; cbn; by rewrite El2, Eld|].
    assert (Esub : c1 ++ (k, L) :: (sep, R) :: c2 = h1 ++ (d ++ (k, L) :: (sep, R) :: c2)) by (rewrite Ec1, <-app_assoc; done). rewrite Esub in Hasc.
    assert (Hne : h1 ≠ []) by (intros ->; unfold len in Lh1; cbn in Lh1; lia).
    assert (Hk2 : head_key (d ++ (k, L) :: (sep, R) :: c2) = k2) by (assert (H2 : head_key h2 = k2) by done; rewrite Eh2 in H2; by destruct d).
    assert (Hsep : 0 < cmp sep k2 ∧ valid k2).
    { pose proof (ascending_behind _ _ Hne Hasc) as Hs2. destruct d as [|[k0 q0] d]; cbn [app fmap list_fmap fst head_key] in Hk2, Hs2; subst k2; apply ascending_cons in Hs2 as (Hvk & [Hvs _] & Hs3); (split; [|done]); rewrite Forall_forall in Hs3; apply cmp_flip_lt; try done; apply Hs3.
      - by left.
      - rewrite fmap_app. apply elem_of_app. right. cbn. apply elem_of_cons. right. by left. }
    destruct Hsep as [Hsep Hvk2]. rewrite Eh2 in Ha2, Lh2. rewrite E, fmap_app, Eh2 in HRn.
    assert (Hnk : new ∉ (d ++ (k, L) :: c2).*2).
    { intros Hq. destruct (level_stored_exists s _ _ new Hlow); [|congruence]. rewrite <-app_assoc, fmap_app. apply elem_of_app. right. rewrite fmap_app in Hq. rewrite fmap_app. cbn in *. by rewrite <-Eld, El2. }
    destruct (insert_half_ok ex s1 new pp d k L c2 sep R ld NL lows2 NR Ha2) as (s2 & s3 & E2 & E3 & C3 & Hh3 & H3 & Hl3); [fold imax; lia|done| |done|done|done|done|done|intros ->; set_solver|done|set_solver|].
    { apply (ascending_tail_mid h1 _ []). by rewrite app_nil_r. }
    assert (Ha3 : at_node ex s3 pn (InnerOf pp h1)) by (eapply at_node_changes; [exact C3|set_solver|done]).
    exists s1, s3, new, k2, h1, (d ++ (k, L) :: (sep, R) :: c2). rewrite (proj2 (Z.ltb_lt 0 _)) by lia.
    split; [done|]. split; [apply Hr1|]. split; [apply (key_at_ok _ _ _ _ _ Ha2); rewrite <-Eh2; done|]. split; [by run E2|].
    split; [apply (key_at_ok _ _ _ _ _ H3); destruct d as [|[k0 q0] d]; cbn [app head_key fst] in Hk2; subst; done|].
    split; [apply (changes_trans (X' new) (new :: pn :: h2.*2) [new; R] 1 0 s s1 s3); [done|done|unfold X'; rewrite E, fmap_app; set_solver|unfold X'; set_solver]|].
    split; [done|]. split; [done|]. split; [done|]. split; [done|]. split; [done|]. split; [done|].
    unfold inner_sized. cbn [snd]. fold m. rewrite len_app in Lh2 |- *.
    split; [lia|]. split; [unfold len in *; cbn [length] in *; lia|]. split; [done|].
    rewrite <-app_assoc. apply level_stored_app; [rewrite length_replicate; apply (f_equal length) in Elow1; by rewrite !length_fmap in Elow1|]. split; [|done].
    replace (length h1) with (length low1) by (apply (f_equal length) in Elow1; by rewrite !length_fmap in Elow1). apply (level_stored_changes 0 [new; R] s1); [done| |done].
    intros q Hq [->|Hq']%elem_of_cons.
    + destruct (level_stored_exists s _ _ new Hlow); [|congruence]. rewrite <-app_assoc, fmap_app. apply elem_of_app. by left.
    + apply list_elem_of_singleton in Hq'. subst q. rewrite <-Elow1 in Hq. set_solver.
Qed.
End insert.
