(* ===== verification/BplusGrow.v ===== *)
(** * BplusGrow: [insert_entry_into_parent]

    The second half [R] of a node [L] that was split gets a place in the levels above. Either a
    parent has room for it, or the parent is split and its second half is put into the level
    above that; a split root makes the tree one level higher. *)
From stdpp Require Import sorting.
From S2P Require Import Prelude Types Encoding KeyCompare LatchMemo LatchMemoSpec BplusNode BplusLog BplusNodeSpec BplusOps BplusNodeOps BplusMoves BplusShape BplusTree BplusRoot BplusInsert.

Section grow.
Context {P : Type} `{TL : TreePoolLaws P}.
Context (h : IndexFileHeader).
Abbreviation St := (Memo P TreeState).
Implicit Types (s : St) (pn q r : PageNum) (N : Node) (ex : list LatchMemoItem) (low : Level) (lvls : list (list Inner)).
Abbreviation at_node := (at_node h).
Abbreviation ready := (ready h).
Abbreviation stored := (stored h).
Abbreviation level_stored := (level_stored h).
Abbreviation levels_stored := (levels_stored h).
Abbreviation imax := (internal_max_size h).

Lemma fmap_length_eq {A B C} (f : A → C) (g : B → C) (l1 : list A) (l2 : list B) : f <$> l1 = g <$> l2 → length l1 = length l2.
Proof. intros E. apply (f_equal length) in E. by rewrite !length_fmap in E. Qed.

(** the parent a node is given does not depend on the one it had *)
Lemma level_stored_with s l1 q N N' l2 ps : with_parent 0 N = with_parent 0 N' → level_stored s (l1 ++ (q, N) :: l2) ps → level_stored s (l1 ++ (q, N') :: l2) ps.
Proof.
  intros E Hl. pose proof (level_stored_length h _ _ _ Hl) as Hlen. destruct (cut (len l1) ps) as (p1 & p2 & -> & L1).
  { rewrite length_app in Hlen. unfold len. lia. }
  assert (Hl1 : length l1 = length p1) by (unfold len in L1; lia). rewrite (level_stored_app h) in Hl |- * by done. destruct Hl as [H1 H2]. split; [done|].
  destruct p2 as [|p p2]; [by inversion H2|]. rewrite level_stored_cons in H2 |- *. destruct H2 as [H2 H3]. split; [|done].
  by rewrite <-(with_with p 0), <-E, with_with.
Qed.
(** one node of a level gets other contents, or another parent *)
Lemma level_stored_node k X s s' l1 q N N' l2 p1 p p' p2 : changes k X s s' → length l1 = length p1 → level_stored s (l1 ++ (q, N) :: l2) (p1 ++ p :: p2) →
  (∀ r, r ∈ l1.*1 ++ l2.*1 → r ∉ X) → stored s' q (with_parent p' N') → level_stored s' (l1 ++ (q, N') :: l2) (p1 ++ p' :: p2).
Proof.
  intros Hc Hl. rewrite !level_stored_app by done. rewrite !level_stored_cons. intros (H1 & _ & H2) HX Hq. split; [|split; [done|]].
  - apply (level_stored_changes h k X s); [done| |done]. set_solver.
  - apply (level_stored_changes h k X s); [done| |done]. set_solver.
Qed.

Lemma level_stored_pair s s' l1 q1 N1 q2 N2 l2 p1 a b p2 : level_stored s (l1 ++ (q1, N1) :: (q2, N2) :: l2) (p1 ++ a :: b :: p2) → length l1 = length p1 →
  (∀ N q p, q ∈ l1.*1 ++ l2.*1 → stored s q (with_parent p N) → stored s' q (with_parent p N)) →
  stored s' q1 (with_parent a N1) → stored s' q2 (with_parent b N2) → level_stored s' (l1 ++ (q1, N1) :: (q2, N2) :: l2) (p1 ++ a :: b :: p2).
Proof.
  intros Hl L1 Hs H1 H2. rewrite (level_stored_app h) in Hl |- * by done. rewrite !level_stored_cons in Hl |- *. destruct Hl as (Hl1 & _ & _ & Hl2).
  assert (Hlift : ∀ l p, (∀ q, q ∈ l.*1 → q ∈ l1.*1 ++ l2.*1) → level_stored s l p → level_stored s' l p).
  { intros l p Hin Hl. induction Hl as [|[q N] p' l p Hq _ IH]; constructor; [apply Hs; [apply Hin; by left|done]|apply IH; intros r Hr; apply Hin; by right]. }
  split; [apply Hlift; [set_solver|done]|]. split; [done|]. split; [done|]. apply Hlift; [set_solver|done].
Qed.

(** the children of one inner node among the level below *)
Lemma level_around s up uA pn c1 kq c2 uB low : up = uA ++ (pn, c1 ++ kq :: c2) :: uB → low.*1 = (kids_of up).*2 → level_stored s low (parents_of up) →
  ∃ lA l1 N l2 lB, low = (lA ++ l1) ++ (kq.2, N) :: l2 ++ lB ∧ lA.*1 = (kids_of uA).*2 ∧ l1.*1 = c1.*2 ∧ l2.*1 = c2.*2 ∧ lB.*1 = (kids_of uB).*2 ∧
    level_stored s lA (parents_of uA) ∧ level_stored s (l1 ++ (kq.2, N) :: l2) (replicate (length (l1 ++ (kq.2, N) :: l2)) pn) ∧ level_stored s lB (parents_of uB).
Proof.
  intros -> E Hl. rewrite kids_app, kids_cons in E. cbn [snd] in E. rewrite !fmap_app in E. apply fmap_app_inv in E as (lA & l' & EA & E & ->). symmetry in E. apply fmap_app_inv in E as (lm & lB & Em & EB & ->).
  symmetry in Em. rewrite <-fmap_app in Em. rewrite fmap_app in Em. symmetry in Em. symmetry in Em. apply fmap_app_inv in Em as (l1 & l2' & E1 & E2 & ->). destruct l2' as [|[q N] l2]; [done|]. cbn in E2. injection E2 as Eq E2. subst q.
  exists lA, l1, N, l2, lB. rewrite parents_app, parents_cons in Hl. cbn [fst snd] in Hl.
  assert (L1 : length lA = length (parents_of uA)) by (rewrite length_parents; by apply (fmap_length_eq fst snd)).
  assert (Lm : length (l1 ++ (kq.2, N) :: l2) = length (c1 ++ kq :: c2)) by (apply (fmap_length_eq fst snd); rewrite !fmap_app; cbn; by rewrite E1, E2).
  rewrite level_stored_app in Hl by done. destruct Hl as [HA Hl]. rewrite level_stored_app in Hl by (by rewrite length_replicate). destruct Hl as [Hm HB].
  rewrite Lm. repeat split; try done. by rewrite <-!app_assoc.
Qed.

(** ** The levels above a node that was split *)

Context (Hix : index_ok h) (valid : list Z → Prop).
Abbreviation cmp := (comparator h).
Context `{KO : !KeyOrder valid cmp} (Hlen : ∀ k, valid k → len k = key_length h).

(** [R] is the second half of [L], in the file but not in the levels [lvls] above [L] *)
Record pending ex s lvls (A : list Kid) k L (B : list Kid) sep R lowA NL lowB NR root : Prop := {
  pe_ready : ready ex s;
  pe_free : (S (length lvls) ≤ free s)%nat;
  pe_header : header_page s;
  pe_unlatched : ¬ latched s (OnFrame FIRST_INDEX_PAGE);
  pe_root : root_page (tree_header s) = root;
  pe_levels : levels_ok imax (A ++ (k, L) :: B) lvls root;
  pe_lowA : lowA.*1 = A.*2;
  pe_lowB : lowB.*1 = B.*2;
  pe_low : level_stored s (lowA ++ (L, NL) :: lowB) (pars lvls);
  pe_lvls : levels_stored s lvls;
  pe_new : stored s R NR;
  pe_held : held s L ∧ held s R;
  pe_pages : NoDup (FIRST_INDEX_PAGE :: R :: (A ++ (k, L) :: B).*2 ++ level_pages lvls);
  pe_sep : valid sep;
  pe_keys : ascending valid cmp (tail (A ++ (k, L) :: (sep, R) :: B).*1);
}.
(** [lvls'] are the levels above all the nodes, with page numbers of [lvls] and new ones *)
Record grows s lvls (es' : list Kid) low' lvls' root' s' : Prop := {
  gr_changes : ∃ j, changes j (FIRST_INDEX_PAGE :: es'.*2 ++ level_pages lvls') s s' ∧ (j ≤ S (length lvls))%nat;
  gr_height : (length lvls' ≤ S (length lvls))%nat;
  gr_levels : levels_ok imax es' lvls' root';
  gr_top : lvls' ≠ [];
  gr_low : level_stored s' low' (pars lvls');
  gr_lvls : levels_stored s' lvls';
  gr_root : tree_header s' = with_root root' (tree_header s);
  gr_header : header_page s';
  gr_pages : NoDup (level_pages lvls');
  gr_fresh : ∀ q, q ∈ level_pages lvls' → q ∈ level_pages lvls ∨ pages s !! q = None;
}.

Lemma imax_pos : 2 ≤ imax.
Proof. apply Hix. Qed.

(** [L] was the root *)
Lemma insert_into_root_ok n ex s A k L B sep R lowA NL lowB NR root : pending ex s [] A k L B sep R lowA NL lowB NR root →
  ∃ s' lvls' root', insert_entry_into_parent (S n) L R sep s = Some (SUCCESS, s') ∧ grows s [] (A ++ (k, L) :: (sep, R) :: B) (lowA ++ (L, NL) :: (R, NR) :: lowB) lvls' root' s'.
Proof.
  intros []. destruct A as [|a A]; [|by destruct A]. destruct B as [|b B]; [|done]. cbn in pe_levels0. injection pe_levels0 as ->.
  destruct lowA; [|done]. destruct lowB; [|done]. cbn [app pars fmap list_fmap level_pages mjoin list_join fst snd] in *. apply level_stored_cons in pe_low0 as [HL _].
  assert (HL' : at_node ex s root (with_parent (-1) NL)) by (split; [done|split; [apply pe_held0|done]]). assert (HR : at_node ex s R NR) by (split; [done|split; [apply pe_held0|done]]).
  apply NoDup_cons in pe_pages0 as [H1 Hnd]. apply NoDup_cons in Hnd as [H2 _]. pose proof (page_int32 _ _ _ (proj1 (proj1 HL')) (stored_exists _ _ _ _ HL)) as Broot.
  destruct (grow_root_ok h Hix ex s root _ R _ sep HL' HR pe_header0 pe_unlatched0) as (s' & top & E & C & Hnone & St & SL & SR & Eh & Hp);
    [rewrite pe_root0; unfold in_int32; lia|set_solver|set_solver|set_solver|by apply Hlen|lia|]. rewrite with_with in SL.
  exists s', [[(top, [(zero_key h, root); (sep, R)])]], top. split; [cbn [insert_entry_into_parent]; run (parent_ok _ _ _ _ _ HL'); rewrite parent_with; exact E|].
  pose proof imax_pos. constructor.
  - exists 1%nat. split; [|done]. eapply changes_weaken; [|exact C]. cbn. set_solver.
  - done.
  - cbn. split; [done|]. split; [|done]. constructor; [|constructor]. unfold inner_sized, len. cbn. lia.
  - done.
  - cbn. apply level_stored_cons. split; [done|]. apply level_stored_cons. split; [done|constructor].
  - cbn. split; [|done]. apply level_stored_cons. split; [done|constructor].
  - done.
  - done.
  - cbn. apply NoDup_singleton.
  - cbn. intros q ->%list_elem_of_singleton. by right.
Qed.

Lemma level_at s l1 q N l2 ps : level_stored s (l1 ++ (q, N) :: l2) ps → ∃ p1 p p2, ps = p1 ++ p :: p2 ∧ length l1 = length p1 ∧ stored s q (with_parent p N).
Proof.
  intros Hl. apply Forall2_app_inv_l in Hl as (p1 & p2' & H1 & H2 & ->). apply Forall2_cons_inv_l in H2 as (p & p2 & H2 & _ & ->). exists p1, p, p2. split; [done|]. split; [by apply Forall2_length in H1|done].
Qed.

(** where [L] is in the level above *)
Record beneath s up lvls (A : list Kid) k L (B : list Kid) lowA NL lowB uA pn c1 k0 c2 uB p1 pp p2 lA l1 l2 lB : Prop := {
  be_up : up = uA ++ (pn, c1 ++ (k0, L) :: c2) :: uB;
  be_A : same_tail (kids_of uA ++ c1) A;
  be_k : A ≠ [] → k0 = k;
  be_B : B = c2 ++ kids_of uB;
  be_low : lowA = lA ++ l1 ∧ lowB = l2 ++ lB;
  be_l1 : l1.*1 = c1.*2;
  be_l2 : l2.*1 = c2.*2;
  be_lA : level_stored s lA (parents_of uA);
  be_lm : level_stored s (l1 ++ (L, NL) :: l2) (replicate (length (l1 ++ (L, NL) :: l2)) pn);
  be_lB : level_stored s lB (parents_of uB);
  be_pars : pars lvls = p1 ++ pp :: p2 ∧ length uA = length p1;
  be_node : stored s pn (InnerOf pp (c1 ++ (k0, L) :: c2));
}.
Lemma beneath_ok s up lvls A k L B lowA NL lowB : same_tail (kids_of up) (A ++ (k, L) :: B) → lowA.*1 = A.*2 → lowB.*1 = B.*2 →
  level_stored s (lowA ++ (L, NL) :: lowB) (pars (up :: lvls)) → levels_stored s (up :: lvls) →
  ∃ uA pn c1 k0 c2 uB p1 pp p2 lA l1 l2 lB, beneath s up lvls A k L B lowA NL lowB uA pn c1 k0 c2 uB p1 pp p2 lA l1 l2 lB.
Proof.
  intros Hs ElA ElB Hlow Hlvls. pose proof Hs as Hs'. apply same_tail_split in Hs as (A' & k0 & Ek & HA & HsA & Hk).
  destruct (kids_split _ _ _ _ Ek) as (uA & pn & c1 & c2 & uB & Eup & -> & EB).
  destruct (level_around s up uA pn c1 (k0, L) c2 uB (lowA ++ (L, NL) :: lowB) Eup) as (lA & l1 & N & l2 & lB & El & EA & E1 & E2 & EB' & HA1 & Hm & HB1); [|done|].
  { rewrite (proj1 Hs'), !fmap_app. cbn. by rewrite ElA, ElB. }
  assert (E : lowA = lA ++ l1 ∧ (L, NL) = (L, N) ∧ lowB = l2 ++ lB).
  { apply app_inj_1 in El as [-> El]; [by injection El as -> ->|]. apply (f_equal length) in EA, E1, ElA. rewrite !length_fmap in *. rewrite !length_app in *. lia. }
  destruct E as (EA1 & [= <-] & EB1). destruct Hlvls as [Hin _]. rewrite Eup in Hin. unfold inner_nodes in Hin. rewrite fmap_app in Hin. cbn in Hin. apply level_at in Hin as (p1 & pp & p2 & Ep & Lp & Hst).
  rewrite length_fmap in Lp. exists uA, pn, c1, k0, c2, uB, p1, pp, p2, lA, l1, l2, lB. by constructor.
Qed.
Lemma pending_beneath ex s up lvls A k L B sep R lowA NL lowB NR root : pending ex s (up :: lvls) A k L B sep R lowA NL lowB NR root →
  ∃ uA pn c1 k0 c2 uB p1 pp p2 lA l1 l2 lB, beneath s up lvls A k L B lowA NL lowB uA pn c1 k0 c2 uB p1 pp p2 lA l1 l2 lB.
Proof. intros []. destruct pe_levels0 as (Hs & _ & _). by apply beneath_ok. Qed.

(** the items above after the insertion *)
Lemma kids_behind s up lvls A k L B lowA NL lowB uA pn c1 k0 c2 uB p1 pp p2 lA l1 l2 lB sep R : beneath s up lvls A k L B lowA NL lowB uA pn c1 k0 c2 uB p1 pp p2 lA l1 l2 lB →
  same_tail (kids_of uA ++ (c1 ++ (k0, L) :: (sep, R) :: c2) ++ kids_of uB) (A ++ (k, L) :: (sep, R) :: B).
Proof.
  intros []. rewrite app_assoc, app_assoc, <-(app_assoc _ _ (kids_of uB)). apply (same_tail_replace _ _ k0 k0); [done|done|done|by subst B].
Qed.
Lemma as_kids_same uA pn kids kids' uB : head_key kids = head_key kids' → as_kids (uA ++ (pn, kids) :: uB) = as_kids (uA ++ (pn, kids') :: uB).
Proof. intros E. unfold as_kids. rewrite !fmap_app. cbn. by rewrite E. Qed.
Lemma inner_nodes_app u1 u2 : inner_nodes (u1 ++ u2) = inner_nodes u1 ++ inner_nodes u2.
Proof. apply fmap_app. Qed.

Lemma level_child s l1 q N l2 n p : level_stored s (l1 ++ (q, N) :: l2) (replicate n p) → stored s q (with_parent p N).
Proof.
  intros Hl. apply level_at in Hl as (p1 & p' & p2 & E & _ & Hst). assert (Hin : p' ∈ replicate n p) by (rewrite E; clear; set_solver). by apply elem_of_replicate_inv in Hin as ->.
Qed.

(** pages that are all different *)
Lemma apart_pages (o R pn : PageNum) (a m b ua ub lv : list PageNum) : NoDup (o :: R :: (a ++ m ++ b) ++ (ua ++ pn :: ub) ++ lv) →
  NoDup (pn :: R :: m) ∧ (o ∉ pn :: R :: m) ∧ (∀ q, q ∈ a ++ b ++ ua ++ ub ++ lv → q ∉ pn :: R :: m) ∧ NoDup (o :: (ua ++ pn :: ub) ++ lv) ∧
  (∀ q, q ∈ R :: a ++ m ++ b → q ≠ o ∧ (q ∉ ua ++ pn :: ub) ∧ q ∉ lv).
Proof.
  intros (M1 & (M2 & (M3 & M4 & M5)%NoDup_app)%NoDup_cons)%NoDup_cons. pose proof M3 as (_ & M7 & M8)%NoDup_app. apply NoDup_app in M8 as (M8 & M9 & _). pose proof M5 as (M11 & M12 & _)%NoDup_app. apply NoDup_app in M11 as (_ & M15 & M16). apply NoDup_cons in M16 as [M16 _].
  assert (Hpm : pn ∉ m) by (intros Hq; apply (M4 pn); clear - Hq; set_solver).
  split; [|split; [|split; [|split]]].
  - apply NoDup_cons. split; [clear - Hpm M2; set_solver|]. apply NoDup_cons. split; [clear - M2; set_solver|done].
  - clear - M1. set_solver.
  - intros q Hq [->|[->|Hm]%elem_of_cons]%elem_of_cons.
    + clear - Hq M4 M12 M15 M16. set_solver.
    + clear - Hq M2. set_solver.
    + clear - Hq M4 M7 M9 Hm. set_solver.
  - apply NoDup_cons. split; [clear - M1; set_solver|done].
  - intros q [->|Hq]%elem_of_cons; [clear - M1 M2; set_solver|]. specialize (M4 q Hq). clear - M1 M4 Hq. set_solver.
Qed.

Section step.
Context (n : nat) (ex : list LatchMemoItem) (s : St) (up : list Inner) (lvls : list (list Inner)) (A : list Kid) (k : list Z) (L : PageNum) (B : list Kid) (sep : list Z) (R : PageNum).
Context (lowA : Level) (NL : Node) (lowB : Level) (NR : Node) (root : PageNum).
Context (Hpe : pending ex s (up :: lvls) A k L B sep R lowA NL lowB NR root).
Context (uA : list Inner) (pn : PageNum) (c1 : list Kid) (k0 : list Z) (c2 : list Kid) (uB : list Inner) (p1 : list PageNum) (pp : PageNum) (p2 : list PageNum) (lA l1 l2 lB : Level).
Context (Hbe : beneath s up lvls A k L B lowA NL lowB uA pn c1 k0 c2 uB p1 pp p2 lA l1 l2 lB).
Abbreviation kids := (c1 ++ (k0, L) :: c2).
Abbreviation kids' := (c1 ++ (k0, L) :: (sep, R) :: c2).
Abbreviation es' := (A ++ (k, L) :: (sep, R) :: B).

(** the parent is fetched *)
Lemma parent_got : ∃ s1, changes 0 [] s s1 ∧ at_node ex s1 pn (InnerOf pp kids) ∧ at_node ex s1 L (with_parent pn NL) ∧ at_node ex s1 R NR ∧
  insert_entry_into_parent (S n) L R sep s = (if len kids <? imax then
      internal_insert pn sep R ;;; set_parent_page_num R pn ;;; mark_dirty L ;;; mark_dirty R ;;; mark_dirty pn ;;; ret SUCCESS
    else
      let* sp := split InternalNode pn in
      if OB_FAIL sp.1 then ret sp.1
      else
        let* h := file_header in
        let* first := key_at InternalNode sp.2 0 in
        (if 0 <? comparator h sep first then internal_insert sp.2 sep R ;;; set_parent_page_num R sp.2 else internal_insert pn sep R ;;; set_parent_page_num R pn) ;;;
        let* sep := key_at InternalNode sp.2 0 in
        insert_entry_into_parent n pn sp.2 sep) s1.
Proof.
  destruct Hpe, Hbe. pose proof (level_child _ _ _ _ _ _ _ be_lm0) as HstL.
  assert (HL : at_node ex s L (with_parent pn NL)) by (split; [done|split; [apply pe_held0|done]]). assert (HR : at_node ex s R NR) by (split; [done|split; [apply pe_held0|done]]).
  pose proof (page_int32 _ _ _ (proj1 pe_ready0) (stored_exists _ _ _ _ be_node0)) as Bpn.
  destruct (get_page_changes h ex s pn pe_ready0 (stored_exists _ _ _ _ be_node0)) as (s1 & E1 & C1 & Hh1 & _). exists s1. split; [done|].
  assert (Hpn : at_node ex s1 pn (InnerOf pp kids)) by (split; [by apply (changes_ready h _ _ ex _ _ C1)|split; [done|apply (changes_stored h _ _ _ _ _ _ C1); [apply not_elem_of_nil|done]]]).
  split; [done|]. split; [keep C1|]. split; [keep C1|].
  cbn [insert_entry_into_parent]. run (parent_ok _ _ _ _ _ HL). rewrite parent_with. rewrite (proj2 (Z.eqb_neq pn BP_INVALID_PAGE_NUM)) by (unfold BP_INVALID_PAGE_NUM; lia).
  run E1. change (OB_FAIL SUCCESS) with false. cbv iota. run (size_ok _ _ _ _ _ Hpn). run (max_size_ok _ _ _ _ _ Hpn). done.
Qed.

Lemma step_distinct : NoDup (FIRST_INDEX_PAGE :: R :: (A ++ (k, L) :: B).*2 ++ up.*1 ++ level_pages lvls) ∧ (A ++ (k, L) :: B).*2 = (kids_of uA).*2 ++ kids.*2 ++ (kids_of uB).*2 ∧
  up.*1 = uA.*1 ++ pn :: uB.*1 ∧ lowA.*1 = (kids_of uA).*2 ++ c1.*2 ∧ lowB.*1 = c2.*2 ++ (kids_of uB).*2 ∧ lA.*1 = (kids_of uA).*2 ∧ lB.*1 = (kids_of uB).*2.
Proof.
  destruct Hpe, Hbe. split; [exact pe_pages0|]. destruct be_A0 as [EA _]. destruct be_low0 as [ElA ElB]. rewrite fmap_app in EA. rewrite ElA, fmap_app in pe_lowA0. rewrite ElB, be_B0, !fmap_app in pe_lowB0.
  rewrite be_l3 in pe_lowA0. rewrite be_l4 in pe_lowB0.
  split; [rewrite be_B0, !fmap_app; cbn; rewrite !fmap_app, <-EA, <-!app_assoc; done|]. split; [rewrite be_up0, fmap_app; done|]. rewrite <-EA in pe_lowA0. apply app_inv_tail in pe_lowA0. apply app_inv_head in pe_lowB0.
  rewrite ElA, ElB, !fmap_app, be_l3, be_l4, pe_lowA0, pe_lowB0. done.
Qed.

(** the pages of the step: [pn], [R] and the children of [pn] *)
Abbreviation ms := (pn :: R :: kids.*2).
Record apart : Prop := {
  ap_ms : NoDup ms;
  ap_first : FIRST_INDEX_PAGE ∉ ms;
  ap_A : ∀ q, q ∈ lA.*1 → q ∉ ms;
  ap_B : ∀ q, q ∈ lB.*1 → q ∉ ms;
  ap_uA : ∀ q, q ∈ uA.*1 → q ∉ ms;
  ap_uB : ∀ q, q ∈ uB.*1 → q ∉ ms;
  ap_lvls : ∀ q, q ∈ level_pages lvls → q ∉ ms;
  ap_up : NoDup (FIRST_INDEX_PAGE :: up.*1 ++ level_pages lvls);
  ap_low : ∀ q, q ∈ R :: (A ++ (k, L) :: B).*2 → q ≠ FIRST_INDEX_PAGE ∧ (q ∉ up.*1) ∧ (q ∉ level_pages lvls);
}.
Lemma step_apart : apart.
Proof.
  destruct step_distinct as (Hnd & Ees & Eup & _ & _ & EA & EB). rewrite Ees in Hnd.
  destruct (apart_pages _ _ _ _ _ _ _ _ _ (eq_rect _ (λ l, NoDup (FIRST_INDEX_PAGE :: R :: ((kids_of uA).*2 ++ kids.*2 ++ (kids_of uB).*2) ++ l ++ level_pages lvls)) Hnd _ Eup)) as (H1 & H2 & H3 & H4 & H5).
  constructor; rewrite ?EA, ?EB, ?Eup, ?Ees; try done; intros q Hq; apply H3; clear - Hq; set_solver.
Qed.

(** a step that changes the pages [ms] and new ones *)
Lemma fresh_new j X s' q : changes j X s s' → (∀ r, r ∈ X → r ∈ ms ∨ pages s !! r = None) → (q ∉ ms) → is_Some (pages s !! q) → q ∉ X.
Proof. intros _ HX Hq [g Hg] Hx. destruct (HX _ Hx) as [Hm|]; [done|congruence]. Qed.

Lemma low_replaced j X s' mid pm : changes j X s s' → (∀ r, r ∈ X → r ∈ ms ∨ pages s !! r = None) → level_stored s' mid pm → level_stored s' (lA ++ mid ++ lB) (parents_of uA ++ pm ++ parents_of uB).
Proof.
  intros C HX Hm. pose proof step_apart as []. destruct Hbe. apply (level_stored_app h); [apply (level_stored_length h _ _ _ be_lA0)|]. split; [|apply (level_stored_app h); [apply (level_stored_length h _ _ _ Hm)|split; [done|]]].
  - apply (level_stored_changes h j X s); [done| |done]. intros q Hq. apply (fresh_new j X s'); auto. by apply (level_stored_exists h _ _ _ _ be_lA0).
  - apply (level_stored_changes h j X s); [done| |done]. intros q Hq. apply (fresh_new j X s'); auto. by apply (level_stored_exists h _ _ _ _ be_lB0).
Qed.
Lemma up_replaced j X s' c : changes j X s s' → (∀ r, r ∈ X → r ∈ ms ∨ pages s !! r = None) → stored s' pn (InnerOf pp c) →
  level_stored s' (inner_nodes uA ++ (pn, InnerOf 0 c) :: inner_nodes uB) (pars lvls) ∧ levels_stored s' lvls.
Proof.
  intros C HX Hm. pose proof step_apart as []. pose proof Hpe as []. destruct Hbe. destruct pe_lvls0 as [Hup Hl]. rewrite be_up0, inner_nodes_app in Hup. destruct be_pars0 as [Ep Lp]. rewrite Ep in *. cbn in Hup.
  assert (Hex : ∀ q, q ∈ uA.*1 ++ uB.*1 → is_Some (pages s !! q)).
  { intros q Hq. apply (level_stored_exists h _ _ _ q Hup). rewrite fmap_app. cbn. pose proof (inner_nodes_pages uA) as E1. pose proof (inner_nodes_pages uB) as E2. unfold inner_nodes in E1, E2. rewrite E2. unfold inner_nodes. rewrite E1. clear - Hq. set_solver. }
  split.
  - apply (level_stored_node j X s s' (inner_nodes uA) pn (InnerOf 0 (c1 ++ (k0, L) :: c2)) (InnerOf 0 c) (inner_nodes uB) p1 pp); [done|unfold inner_nodes; by rewrite length_fmap|done| |done].
    intros q Hq. rewrite !inner_nodes_pages in Hq. apply (fresh_new j X s'); [done|done| |by apply Hex]. apply elem_of_app in Hq as [Hq|Hq]; auto.
  - apply (levels_stored_changes h j X s); [done| |done]. intros q Hq. apply (fresh_new j X s'); auto. by apply (levels_stored_exists h _ _ _ Hl).
Qed.
Lemma header_kept j X s' : changes j X s s' → (∀ r, r ∈ X → r ∈ ms ∨ pages s !! r = None) → tree_header s' = tree_header s ∧ header_page s' ∧ ¬ latched s' (OnFrame FIRST_INDEX_PAGE).
Proof.
  intros C HX. pose proof step_apart as []. destruct Hpe. assert (H1 : FIRST_INDEX_PAGE ∉ X).
  { apply (fresh_new j X s'); [done..|]. destruct pe_header0 as (g & rest & Hg & _). eauto. }
  split; [by apply (ch_header _ _ _ _ C)|]. split; [by apply (header_page_changes j X s)|]. intros Hl. destruct (ch_latched _ _ _ _ C _ Hl) as [|(q & Hq & [= <-])]; done.
Qed.

Lemma kids_ascending : ascending valid cmp (tail kids'.*1).
Proof.
  pose proof (kids_behind _ _ _ _ _ _ _ _ _ _ _ _ _ _ _ _ _ _ _ _ _ _ _ sep R Hbe) as [_ E]. apply (ascending_tail_mid h valid (kids_of uA) _ (kids_of uB)). rewrite E. apply Hpe.
Qed.
Lemma head_behind : head_key kids' = head_key kids.
Proof. by destruct c1. Qed.

Lemma step_pages : same_tail (kids_of uA ++ kids' ++ kids_of uB) es' → es'.*2 = (kids_of uA).*2 ++ kids'.*2 ++ (kids_of uB).*2 ∧ kids'.*2 = c1.*2 ++ L :: R :: c2.*2.
Proof. intros [<- _]. rewrite !fmap_app. done. Qed.

(** the parent has room *)
Lemma insert_room_ok : len kids < imax → ∃ s' lvls' root', insert_entry_into_parent (S n) L R sep s = Some (SUCCESS, s') ∧ grows s (up :: lvls) es' (lowA ++ (L, NL) :: (R, NR) :: lowB) lvls' root' s'.
Proof.
  intros Hroom. destruct parent_got as (s1 & C1 & Hpn1 & HL1 & HR1 & E1). rewrite E1, (proj2 (Z.ltb_lt _ _)) by done. clear E1.
  pose proof step_apart as []. pose proof Hpe as []. pose proof Hbe as []. pose proof (kids_behind _ _ _ _ _ _ _ _ _ _ _ _ _ _ _ _ _ _ _ _ _ _ _ sep R Hbe) as Hkup.
  pose proof ap_ms0 as (N1 & (N2 & _)%NoDup_cons)%NoDup_cons. assert (N3 : R ≠ pn) by (clear - N1; set_solver). assert (HLk : L ∈ kids.*2) by (rewrite fmap_app; clear; set_solver).
  assert (N5 : pn ∉ kids.*2) by (intros Hq; apply N1; by right). assert (N4 : L ≠ pn ∧ L ≠ R) by (split; intros E0; [rewrite <-E0 in N5|rewrite <-E0 in N2]; done).
  destruct (insert_half_ok h Hix valid Hlen ex s1 pn pp c1 k0 L c2 sep R l1 NL l2 NR Hpn1) as (s2 & s3 & E2 & E3 & C3 & Hh3 & Hpn3 & Hlm3); [done|done|apply kids_ascending|done|done| |apply HR1|apply HR1|done|done|done|].
  { apply (level_stored_changes h 0 [] s); [done|intros; apply not_elem_of_nil|done]. }
  run E2. run E3. assert (HL3 : at_node ex s3 L (with_parent pn NL)).
  { split; [apply Hpn3|]. split; [apply (ch_held _ _ _ _ C3), HL1|]. by apply (level_child _ l1 _ _ ((R, NR) :: l2) (length kids')). }
  assert (HR3 : at_node ex s3 R (with_parent pn NR)).
  { split; [apply Hpn3|]. split; [done|]. apply (level_child s3 (l1 ++ [(L, NL)]) _ _ l2 (length kids')). by rewrite <-app_assoc. }
  destruct (dirty_ok h ex s3 L _ HL3) as (s4 & E4 & C4 & HL4). run E4. assert (HR4 : at_node ex s4 R (with_parent pn NR)) by (eapply at_node_changes; [exact C4|clear - N4; set_solver|done]).
  destruct (dirty_ok h ex s4 R _ HR4) as (s5 & E5 & C5 & HR5). run E5. assert (Hpn4 : at_node ex s4 pn (InnerOf pp kids')) by (eapply at_node_changes; [exact C4|clear - N4; set_solver|done]).
  assert (Hpn5 : at_node ex s5 pn (InnerOf pp kids')) by (eapply at_node_changes; [exact C5|clear - N3; set_solver|done]).
  destruct (dirty_ok h ex s5 pn _ Hpn5) as (s6 & E6 & C6 & Hpn6). run E6. exists s6, ((uA ++ (pn, kids') :: uB) :: lvls), root. split; [done|].
  assert (C36 : changes 0 [L; R; pn] s3 s6) by (apply (changes_trans [L; R; pn] [L; R] [pn] 0 0 s3 s5 s6); [apply (changes_trans [L; R] [L] [R] 0 0 s3 s4 s5); [done|done|clear; set_solver|clear; set_solver]|done|clear; set_solver|clear; set_solver]).
  assert (C : changes 0 ms s s6) by (apply (changes_trans ms [] ms 0 0 s s1 s6); [done|apply (changes_trans ms [pn; R] [L; R; pn] 0 0 s1 s3 s6); [done|done|clear; set_solver|clear - HLk; set_solver]|apply list_subseteq_nil|done]).
  assert (HX : ∀ r, r ∈ ms → r ∈ ms ∨ pages s !! r = None) by (by left). destruct (header_kept _ _ _ C HX) as (Eh6 & Hp6 & _).
  constructor; [exists 0%nat; split; [eapply changes_weaken; [|exact C]|lia]|cbn; lia| |done| | |by rewrite Eh6, <-pe_root0; destruct (tree_header s)|done| |].
  - rewrite (proj1 (step_pages Hkup)). unfold level_pages. cbn. rewrite !fmap_app. cbn. clear. set_solver.
  - destruct pe_levels0 as (_ & Hsz & Hlv). cbn. split; [by rewrite kids_app, kids_cons|]. rewrite be_up0 in Hsz, Hlv. split.
    + apply Forall_app in Hsz as [Hs1 (Hs2 & Hs3)%Forall_cons]. apply Forall_app. split; [done|]. apply Forall_cons. split; [|done]. destruct Hs2 as [Hs2 _]. revert Hs2 Hroom. unfold inner_sized. cbn [snd]. rewrite !len_app. unfold len. cbn [length]. destruct (is_top lvls); lia.
    + by rewrite (as_kids_same uA pn _ _ uB head_behind).
  - cbn [pars]. rewrite parents_app, parents_cons. cbn [fst snd]. rewrite (proj1 be_low0), (proj2 be_low0).
    replace ((lA ++ l1) ++ (L, NL) :: (R, NR) :: l2 ++ lB) with (lA ++ (l1 ++ (L, NL) :: (R, NR) :: l2) ++ lB) by (by rewrite <-!app_assoc).
    apply (low_replaced 0 ms s6); [done|done|].
    assert (Er : replicate (length kids') pn = replicate (length c1) pn ++ pn :: pn :: replicate (length c2) pn) by (rewrite length_app, replicate_add; done). rewrite Er in *.
    assert (Hl1 : length l1 = length (replicate (length c1) pn)) by (rewrite length_replicate; by apply (fmap_length_eq fst snd)).
    apply (level_stored_pair s3 s6); [done|done| | |].
    + intros N q p Hq. apply (changes_stored h 0 [L; R; pn] s3); [done|]. rewrite be_l3, be_l4 in Hq. clear - Hq ap_ms0. intros Hx. rewrite fmap_app in ap_ms0. cbn in ap_ms0.
      apply NoDup_cons in ap_ms0 as (M1 & (M2 & (_ & M3 & (M4 & _)%NoDup_cons)%NoDup_app)%NoDup_cons). apply elem_of_app in Hq as [Hq|Hq]; [specialize (M3 _ Hq)|]; set_solver.
    + apply (changes_stored h 0 [pn] s5); [done|clear - N4; set_solver|]. apply (changes_stored h 0 [R] s4); [done|clear - N4; set_solver|]. apply HL4.
    + apply (changes_stored h 0 [pn] s5); [done|clear - N3; set_solver|apply HR5].
  - cbn [levels_stored]. rewrite inner_nodes_app. apply (up_replaced 0 ms s6); [done|done|apply Hpn6].
  - unfold level_pages. cbn. rewrite be_up0, fmap_app in ap_up0. apply NoDup_cons in ap_up0 as [_ Hu]. rewrite fmap_app. exact Hu.
  - intros q Hq. left. unfold level_pages in *. cbn in *. rewrite be_up0. rewrite fmap_app in *. done.
Qed.

Lemma up_exists q : q ∈ FIRST_INDEX_PAGE :: up.*1 ++ level_pages lvls → is_Some (pages s !! q).
Proof.
  destruct Hpe. intros [->|Hq]%elem_of_cons; [destruct pe_header0 as (g & rest & Hg & _); eauto|]. by apply (levels_stored_exists h _ _ q pe_lvls0).
Qed.
Lemma low_exists q : q ∈ R :: (A ++ (k, L) :: B).*2 → is_Some (pages s !! q).
Proof.
  destruct Hpe. intros [->|Hq]%elem_of_cons; [by apply (stored_exists _ _ _ _ pe_new0)|]. apply (level_stored_exists h _ _ _ q pe_low0). rewrite !fmap_app in *. cbn. by rewrite pe_lowA0, pe_lowB0.
Qed.
Lemma low_pages q : q ∈ (lowA ++ (L, NL) :: (R, NR) :: lowB).*1 → q ∈ R :: (A ++ (k, L) :: B).*2.
Proof. destruct Hpe. rewrite !fmap_app. cbn. rewrite pe_lowA0, pe_lowB0. clear. set_solver. Qed.
Lemma only_root : levels_ok imax (as_kids up) lvls root → Forall (inner_sized imax (is_top lvls)) up → Forall (inner_sized imax false) uA ∧ Forall (inner_sized imax false) uB.
Proof.
  destruct Hbe. rewrite be_up0. destruct lvls as [|up2 lvls2]; cbn [is_top levels_ok].
  - intros E _. rewrite as_kids_pages, fmap_app in E. cbn in E. destruct uA as [|u1 [|u2 u3]], uB as [|u4 u5]; done.
  - intros _ Hf. rewrite Forall_app, Forall_cons in Hf. tauto.
Qed.

(** the parent is full *)
Lemma insert_split_ok :
  (∀ ex s A k L B sep R lowA NL lowB NR root, pending ex s lvls A k L B sep R lowA NL lowB NR root →
    ∃ s' lvls' root', insert_entry_into_parent n L R sep s = Some (SUCCESS, s') ∧ grows s lvls (A ++ (k, L) :: (sep, R) :: B) (lowA ++ (L, NL) :: (R, NR) :: lowB) lvls' root' s') →
  len kids = imax → ∃ s' lvls' root', insert_entry_into_parent (S n) L R sep s = Some (SUCCESS, s') ∧ grows s (up :: lvls) es' (lowA ++ (L, NL) :: (R, NR) :: lowB) lvls' root' s'.
Proof.
  intros IH Hfull. destruct parent_got as (s1 & C1 & Hpn1 & HL1 & HR1 & E1). rewrite E1, (proj2 (Z.ltb_ge _ _)) by lia. clear E1.
  pose proof step_apart as []. pose proof Hpe as []. pose proof Hbe as []. pose proof (kids_behind _ _ _ _ _ _ _ _ _ _ _ _ _ _ _ _ _ _ _ _ _ _ _ sep R Hbe) as Hkup.
  assert (Epg : pages s1 = pages s) by (apply map_eq; intros q; apply (ch_pages _ _ _ _ C1), not_elem_of_nil).
  destruct (split_parent_ok h Hix valid Hlen ex s1 pn pp c1 k0 L c2 sep R l1 NL l2 NR Hpn1 Hfull) as (s2 & s3 & new & k2 & g1 & g2 & E2 & Hlike & Ek & E3 & Ek3 & C3 & Hnone & Eg & Hg1 & Hg2 & Hk2 & Hv2 & Hz1 & Hz2 & Hh1 & Hlm);
    [pose proof (ch_free _ _ _ _ C1); cbn in pe_free0; lia|done|done| |apply HR1|apply HR1|done|done|apply kids_ascending|].
  { apply (level_stored_changes h 0 [] s); [done|intros; apply not_elem_of_nil|done]. }
  run E2. cbn [fst snd]. change (OB_FAIL SUCCESS) with false. cbv iota. run (file_header_ok s2). run Ek. destruct Hlike as [r Hlike]. rewrite Hlike. change (comparator (with_root r h)) with cmp. run E3. run Ek3.
  rewrite Epg in Hnone. assert (C : changes 1 (new :: ms) s s3) by (apply (changes_trans (new :: ms) [] (new :: ms) 0 1 s s1 s3); [done|done|apply list_subseteq_nil|done]).
  assert (HX : ∀ r, r ∈ new :: ms → r ∈ ms ∨ pages s !! r = None) by (intros q [->|Hq]%elem_of_cons; [by right|by left]).
  destruct (header_kept _ _ _ C HX) as (Eh3 & Hp3 & Hl3). destruct (up_replaced _ _ _ g1 C HX (proj2 (proj2 Hg1))) as [Hup3 Hlv3].
  pose proof (low_replaced _ _ _ _ _ C HX Hlm) as Hlow3. destruct pe_levels0 as (Hsame & Hsz & Hlv). rewrite be_up0 in Hsz, Hlv.
  set (up' := uA ++ (pn, g1) :: (new, g2) :: uB). assert (Ekids : kids_of up' = kids_of uA ++ kids' ++ kids_of uB) by (unfold up'; rewrite kids_app, !kids_cons; cbn [snd]; by rewrite <-Eg, <-!app_assoc).
  assert (Eas : as_kids up' = as_kids uA ++ (head_key kids, pn) :: (k2, new) :: as_kids uB) by (unfold up'; rewrite as_kids_app; cbn; by rewrite Hh1, Hk2).
  assert (Hne : Forall (λ m, m.2 ≠ []) up').
  { apply (sized_nonempty imax imax_pos) in Hsz. unfold up'. rewrite Forall_app, !Forall_cons in *. destruct Hsz as (Hs1 & _ & Hs2). split; [done|]. assert (Hs : Forall (inner_sized imax false) [(pn, g1); (new, g2)]) by (rewrite !Forall_cons; by split; [|split; [|apply Forall_nil]]).
    apply (sized_nonempty imax imax_pos) in Hs. rewrite !Forall_cons in Hs. tauto. }
  assert (Hnew : ∀ q, is_Some (pages s !! q) → q ≠ new) by (intros q [? ?] ->; congruence).
  assert (Hup' : ∀ q, q ∈ up'.*1 → q = new ∨ q ∈ up.*1) by (intros q; unfold up'; rewrite be_up0, !fmap_app; cbn; clear; set_solver).
  destruct (IH ex s3 (as_kids uA) (head_key kids) pn (as_kids uB) k2 new (inner_nodes uA) (InnerOf 0 g1) (inner_nodes uB) (InnerOf pp g2) root) as (s4 & lvls' & root' & E4 & G).
  { constructor; try done.
    - apply Hg1.
    - pose proof (ch_free _ _ _ _ C). cbn in pe_free0. lia.
    - by rewrite Eh3.
    - rewrite as_kids_app in Hlv. exact Hlv.
    - by rewrite inner_nodes_pages, as_kids_pages.
    - by rewrite inner_nodes_pages, as_kids_pages.
    - apply Hg2.
    - split; [apply Hg1|apply Hg2].
    - assert (E : (as_kids uA ++ (head_key kids, pn) :: as_kids uB).*2 = up.*1) by (rewrite be_up0, !fmap_app; cbn; by rewrite !as_kids_pages).
      rewrite E. apply NoDup_cons in ap_up0 as [M1 M2]. pose proof up_exists as Hex. apply NoDup_cons. split; [|apply NoDup_cons; split; [|done]].
      + intros [E1|Hq]%elem_of_cons; [|done]. by apply (Hnew FIRST_INDEX_PAGE); [apply Hex; left|].
      + intros Hq. apply (Hnew new); [|done]. apply Hex. by right.
    - rewrite <-Eas. apply (ascending_up (valid := valid)); [done|]. rewrite Ekids, (proj2 Hkup). done. }
  exists s4, (up' :: lvls'), root'. split; [exact E4|]. destruct G. rewrite <-Eas in *. constructor; [|cbn; lia| |done| | |by rewrite gr_root0, Eh3|done| |].
  - destruct gr_changes0 as (j & C4 & Hj). exists (1 + j)%nat. split; [|cbn; lia]. rewrite as_kids_pages in C4. rewrite (proj1 (step_pages Hkup)), (proj2 (step_pages Hkup)).
    eapply changes_trans; [exact C|exact C4| |]; unfold level_pages, up'; cbn; rewrite !fmap_app; cbn; clear; set_solver.
  - cbn [levels_ok]. split; [by rewrite Ekids|]. split; [|done]. replace (is_top lvls') with false by (by destruct lvls'). rewrite <-be_up0 in Hsz, Hlv. destruct (only_root Hlv Hsz). unfold up'. by rewrite Forall_app, !Forall_cons.
  - destruct gr_changes0 as (j & C4 & _). rewrite as_kids_pages in C4. apply (level_stored_changes h j _ s3 _ _ _ C4).
    + intros q Hq. apply low_pages in Hq. pose proof (low_exists q Hq) as Hex. destruct (ap_low0 q Hq) as (M1 & M2 & M3). specialize (Hnew q Hex). pose proof (ch_exists _ _ _ _ C q Hex) as Hex3.
      assert (M4 : q ∉ level_pages lvls') by (intros Hl; destruct (gr_fresh0 q Hl) as [|E0]; [done|rewrite E0 in Hex3; by destruct Hex3]). assert (M5 : q ∉ up'.*1) by (intros Hu; by destruct (Hup' q Hu)).
      rewrite elem_of_cons, elem_of_app. tauto.
    + cbn [pars]. unfold up'. rewrite parents_app, !parents_cons. cbn [fst snd]. rewrite (proj1 be_low0), (proj2 be_low0). rewrite <-!app_assoc in Hlow3. rewrite <-!app_assoc. exact Hlow3.
  - cbn [levels_stored]. split; [|done]. unfold up'. rewrite inner_nodes_app. cbn.
    assert (gr_low0' : level_stored s4 ((inner_nodes uA ++ [(pn, InnerOf 0 g1)]) ++ (new, InnerOf pp g2) :: inner_nodes uB) (pars lvls')) by (by rewrite <-app_assoc).
    apply (level_stored_with s4 (inner_nodes uA ++ [(pn, InnerOf 0 g1)]) new (InnerOf pp g2) (InnerOf 0 g2)) in gr_low0' as Hl; [|done]. rewrite <-app_assoc in Hl. exact Hl.
  - unfold level_pages. cbn. apply NoDup_cons in ap_up0 as [_ M]. rewrite be_up0, fmap_app in M. apply NoDup_app in M as (M1 & M2 & _). pose proof up_exists as Hex. rewrite be_up0, fmap_app in Hex.
    apply NoDup_app. split; [|split; [|done]].
    + assert (Hn : new ∉ uA.*1 ++ pn :: uB.*1) by (intros Hq; apply (Hnew new); [apply Hex; right; apply elem_of_app; by left|done]). clear - M1 Hn. unfold up'. rewrite fmap_app. cbn in *.
      apply NoDup_app in M1 as (A1 & A2 & (A3 & A4)%NoDup_cons). apply NoDup_app. split; [done|]. split; [set_solver|]. apply NoDup_cons. split; [set_solver|]. apply NoDup_cons. split; [set_solver|done].
    + intros q Hq Hl. destruct (Hup' q Hq) as [->|Hu].
      * destruct (gr_fresh0 new Hl) as [Hl'|E0]; [apply (Hnew new); [apply Hex; right; apply elem_of_app; by right|done]|]. destruct (stored_exists _ _ _ _ (proj2 (proj2 Hg2))) as [? ?]. congruence.
      * rewrite be_up0, fmap_app in Hu. destruct (gr_fresh0 q Hl) as [Hl'|E0]; [by apply (M2 q)|]. destruct (ch_exists _ _ _ _ C q) as [? ?]; [apply Hex; right; apply elem_of_app; by left|congruence].
  - intros q. unfold level_pages. cbn. intros [Hq|Hq]%elem_of_app; [destruct (Hup' q Hq) as [->|Hu]; [by right|left; apply elem_of_app; by left]|].
    destruct (gr_fresh0 q Hq) as [Hl|E0]; [left; apply elem_of_app; by right|right]. destruct (pages s !! q) eqn:Eq; [|done]. destruct (ch_exists _ _ _ _ C q) as [? ?]; [eauto|congruence].
Qed.
End step.

(** the second half of a node finds its place; [n] bounds the levels *)
Lemma insert_into_parent_ok lvls : ∀ n ex s A k L B sep R lowA NL lowB NR root, (length lvls < n)%nat → pending ex s lvls A k L B sep R lowA NL lowB NR root →
  ∃ s' lvls' root', insert_entry_into_parent n L R sep s = Some (SUCCESS, s') ∧ grows s lvls (A ++ (k, L) :: (sep, R) :: B) (lowA ++ (L, NL) :: (R, NR) :: lowB) lvls' root' s'.
Proof.
  induction lvls as [|up lvls IH]; intros [|n] ex s A k L B sep R lowA NL lowB NR root Hn Hpe; try (cbn in Hn; lia); [by eapply (insert_into_root_ok n ex s)|].
  destruct (pending_beneath _ _ _ _ _ _ _ _ _ _ _ _ _ _ _ Hpe) as (uA & pn & c1 & k0 & c2 & uB & p1 & pp & p2 & lA & l1 & l2 & lB & Hbe).
  assert (Hsz : len (c1 ++ (k0, L) :: c2) ≤ imax).
  { destruct (pe_levels _ _ _ _ _ _ _ _ _ _ _ _ _ _ Hpe) as (_ & Hsz & _). rewrite (be_up _ _ _ _ _ _ _ _ _ _ _ _ _ _ _ _ _ _ _ _ _ _ _ Hbe), Forall_app, Forall_cons in Hsz. apply Hsz. }
  destruct (decide (len (c1 ++ (k0, L) :: c2) = imax)).
  - eapply insert_split_ok; [done|done| |done]. intros. eapply IH; [|done]. cbn in Hn. lia.
  - eapply insert_room_ok; [done|done|lia].
Qed.
End grow.
