(* ===== verification/BplusLeaves.v ===== *)
(** * BplusLeaves: the leaves of a tree

    A leaf comes with the key that separates it from the leaf on its left. Separators and
    keys, read from left to right, are one sorted sequence of [mark]s; a separator may be equal to
    the first key behind it. The key of the first leaf separates nothing. *)
From stdpp Require Import sorting.
From S2P Require Import Prelude Types KeyCompare BplusOps BplusNodeOps BplusShape BplusInsert.

Abbreviation Item := (list Z * list Z)%type.
(** a leaf: its separator, its page and its items *)
Abbreviation Leaf := (Kid * list Item)%type.

Definition contents (ls : list Leaf) : list Item := mjoin ls.*2.
Definition first_page (ls : list Leaf) (nx : PageNum) : PageNum := match ls with [] => nx | x :: _ => x.1.2 end.
(** the leaves are linked, [nx] follows the last one *)
Fixpoint leaf_nodes (ls : list Leaf) (nx : PageNum) : Level :=
  match ls with
  | [] => []
  | x :: ls => (x.1.2, LeafOf 0 (first_page ls nx) x.2) :: leaf_nodes ls nx
  end.

Lemma contents_app l1 l2 : contents (l1 ++ l2) = contents l1 ++ contents l2.
Proof. unfold contents. by rewrite fmap_app, join_app. Qed.
Lemma contents_cons x l : contents (x :: l) = x.2 ++ contents l.
Proof. done. Qed.
Lemma leaf_nodes_app l1 l2 nx : leaf_nodes (l1 ++ l2) nx = leaf_nodes l1 (first_page l2 nx) ++ leaf_nodes l2 nx.
Proof. induction l1 as [|x l1 IH]; [done|]. cbn. rewrite IH. do 2 f_equal. f_equal. by destruct l1. Qed.
Lemma leaf_nodes_pages ls nx : (leaf_nodes ls nx).*1 = ls.*1.*2.
Proof. induction ls as [|x ls IH]; [done|]. cbn. by f_equal. Qed.

(** ** The reference: sorted lists of items *)

Section spec.
Context (cmp : list Z → list Z → Z).
Definition has_key (key : list Z) (l : list Item) : bool := existsb (λ kv, cmp kv.1 key =? 0) l.
Fixpoint insert_sorted (kv : Item) (l : list Item) : list Item :=
  match l with
  | [] => [kv]
  | kw :: l => if cmp kw.1 kv.1 <? 0 then kw :: insert_sorted kv l else kv :: kw :: l
  end.
Lemma insert_sorted_app kv l1 l2 : below cmp kv.1 l1.*1 → above cmp kv.1 l2.*1 → insert_sorted kv (l1 ++ l2) = l1 ++ kv :: l2.
Proof.
  intros H1 H2. induction l1 as [|kw l1 IH]; cbn in *.
  - destruct l2 as [|kw l2]; [done|]. cbn in *. inversion_clear H2. by rewrite (proj2 (Z.ltb_ge _ _)) by lia.
  - inversion_clear H1. rewrite (proj2 (Z.ltb_lt _ _)) by done. f_equal. by apply IH.
Qed.
Lemma has_key_app key l1 l2 : has_key key (l1 ++ l2) = has_key key l1 || has_key key l2.
Proof. apply existsb_app. Qed.
Lemma has_key_below key l : below cmp key l.*1 → has_key key l = false.
Proof. induction l as [|kv l IH]; [done|]. intros Hb. inversion_clear Hb. change (has_key key (kv :: l)) with ((cmp kv.1 key =? 0) || has_key key l). rewrite IH, orb_false_r by done. apply Z.eqb_neq. lia. Qed.
Lemma has_key_above key l : above cmp key l.*1 → has_key key l = false.
Proof. induction l as [|kv l IH]; [done|]. intros Hb. inversion_clear Hb. change (has_key key (kv :: l)) with ((cmp kv.1 key =? 0) || has_key key l). rewrite IH, orb_false_r by done. apply Z.eqb_neq. lia. Qed.
Lemma has_key_located key l i b : located cmp key l.*1 i b → has_key key l = b.
Proof.
  intros Hl. inversion Hl as [k1 k k2 E H1 H2 H3|k1 k2 E H1 H2]; subst.
  - apply fmap_app_inv in E as (l1 & l2' & -> & E & ->). destruct l2' as [|[k' v] l2]; [done|]. cbn in E. injection E as -> ->. rewrite has_key_app. cbn [has_key existsb fst]. by rewrite H2, orb_true_r.
  - apply fmap_app_inv in E as (l1 & l2 & -> & -> & ->). by rewrite has_key_app, (has_key_below _ _ H1), (has_key_above _ _ H2).
Qed.
Fixpoint remove_key (key : list Z) (l : list Item) : list Item :=
  match l with
  | [] => []
  | kw :: l => if cmp kw.1 key =? 0 then l else kw :: remove_key key l
  end.
Lemma remove_key_found key l1 kv l2 : has_key key l1 = false → cmp kv.1 key = 0 → remove_key key (l1 ++ kv :: l2) = l1 ++ l2.
Proof.
  intros H1 Hk. induction l1 as [|kw l1 IH]; cbn [remove_key app]; [by rewrite Hk|].
  change (has_key key (kw :: l1)) with ((cmp kw.1 key =? 0) || has_key key l1) in H1. apply orb_false_iff in H1 as [-> H1]. f_equal. by apply IH.
Qed.
End spec.

(** ** Marks *)

Inductive mark := Sep (k : list Z) | Key (k : list Z).
Definition mark_value (m : mark) : list Z := match m with Sep k | Key k => k end.
Definition marks (ls : list Leaf) : list mark := mjoin ((λ x : Leaf, Sep x.1.1 :: (Key <$> x.2.*1)) <$> ls).

Lemma marks_app l1 l2 : marks (l1 ++ l2) = marks l1 ++ marks l2.
Proof. unfold marks. by rewrite fmap_app, join_app. Qed.
Lemma marks_cons x l : marks (x :: l) = Sep x.1.1 :: (Key <$> x.2.*1) ++ marks l.
Proof. done. Qed.
Lemma marks_nil ls : marks ls = [] → ls = [].
Proof. by destruct ls. Qed.

Section marks.
Context {valid : list Z → Prop} {cmp : list Z → list Z → Z} `{KO : !KeyOrder valid cmp}.
Implicit Types (a b m : mark) (ls A B : list Leaf).

Definition mark_lt a b : Prop :=
  match a, b with
  | Sep k, Key x => cmp k x ≤ 0
  | _, _ => cmp (mark_value a) (mark_value b) < 0
  end.
Definition marks_ok (l : list mark) : Prop := Forall (λ m, valid (mark_value m)) l ∧ StronglySorted mark_lt l.
Definition sorted_leaves ls : Prop := marks_ok (tail (marks ls)).

Lemma mark_lt_le a b : mark_lt a b → cmp (mark_value a) (mark_value b) ≤ 0.
Proof. destruct a, b; cbn; lia. Qed.
Lemma mark_lt_trans a b c : valid (mark_value a) → valid (mark_value b) → valid (mark_value c) → mark_lt a b → mark_lt b c → mark_lt a c.
Proof.
  intros Ha Hb Hc H1 H2. destruct a, b, c; cbn in *; try (by eapply cmp_lt_trans; [apply Ha|apply Hb|apply Hc|..]); try (by eapply cmp_le_lt_trans; [apply Ha|apply Hb|apply Hc|..]); try (by eapply cmp_lt_le_trans; [apply Ha|apply Hb|apply Hc|..]).
  - pose proof (cmp_lt_le_trans _ _ _ Ha Hb Hc H1 H2). lia.
  - pose proof (cmp_le_lt_trans _ _ _ Ha Hb Hc H1 H2). lia.
Qed.

Lemma marks_ok_app l1 l2 : marks_ok (l1 ++ l2) ↔ marks_ok l1 ∧ marks_ok l2 ∧ ∀ a b, a ∈ l1 → b ∈ l2 → mark_lt a b.
Proof.
  unfold marks_ok. rewrite Forall_app. split.
  - intros [[H1 H2] Hs]. repeat split; try done.
    + by eapply StronglySorted_app_1_l.
    + by eapply StronglySorted_app_1_r.
    + intros a b Ha Hb. by apply (StronglySorted_app_1_elem_of _ _ _ _ _ Hs).
  - intros ([H1 S1] & [H2 S2] & H12). repeat split; try done. by apply StronglySorted_app_2.
Qed.
Lemma marks_ok_cons m l : marks_ok (m :: l) ↔ valid (mark_value m) ∧ marks_ok l ∧ Forall (mark_lt m) l.
Proof.
  unfold marks_ok. rewrite Forall_cons. split.
  - intros [[H1 H2] Hs]. apply StronglySorted_inv in Hs as [H3 H4]. done.
  - intros (H1 & [H2 H3] & H4). repeat split; try done. by constructor.
Qed.
Lemma marks_ok_insert l1 m l2 : marks_ok (l1 ++ l2) → valid (mark_value m) → (∀ a, a ∈ l1 → mark_lt a m) → Forall (mark_lt m) l2 → marks_ok (l1 ++ m :: l2).
Proof.
  rewrite !marks_ok_app, marks_ok_cons. intros (H1 & H2 & H12) Hv Ha Hb. split; [done|]. split; [done|]. intros a b Hin [->|Hb']%elem_of_cons; auto.
Qed.
Lemma marks_ok_sublist l1 l2 : l1 `sublist_of` l2 → marks_ok l2 → marks_ok l1.
Proof.
  induction 1 as [|m l1 l2 Hsub IH|m l1 l2 Hsub IH]; [done| |]; intros (Hm & Hl & Hall)%marks_ok_cons; apply IH in Hl; [|done].
  apply marks_ok_cons. split; [done|]. split; [done|]. rewrite Forall_forall in *. intros x Hx. apply Hall. by apply (sublist_subseteq _ _ Hsub).
Qed.
Lemma marks_ok_seps ks : marks_ok (Sep <$> ks) → ascending valid cmp ks.
Proof.
  induction ks as [|k ks IH]; [by split; constructor|]. cbn. intros (Hk & Hks & Hall)%marks_ok_cons. apply ascending_cons. split; [done|]. split; [by apply IH|]. by rewrite Forall_fmap in Hall.
Qed.
Lemma marks_ok_keys ks : marks_ok (Key <$> ks) → ascending valid cmp ks.
Proof.
  induction ks as [|k ks IH]; [by split; constructor|]. cbn. intros (Hk & Hks & Hall)%marks_ok_cons. apply ascending_cons. split; [done|]. split; [by apply IH|]. by rewrite Forall_fmap in Hall.
Qed.

(** *** Where a leaf is *)

Lemma tail_marks A (kq : Kid) l B : tail (marks (A ++ (kq, l) :: B)) = tail (marks A ++ [Sep kq.1]) ++ (Key <$> l.*1) ++ marks B.
Proof. rewrite marks_app, marks_cons. cbn [fst snd]. destruct (marks A); cbn; [done|by rewrite <-app_assoc]. Qed.
Lemma tail_marks_head ls : tail (marks ls) = match ls with [] => [] | x :: ls => (Key <$> x.2.*1) ++ marks ls end.
Proof. by destruct ls. Qed.
Lemma contents_sublist ls : (Key <$> (contents ls).*1) `sublist_of` marks ls.
Proof.
  induction ls as [|x ls IH]; [constructor|]. rewrite marks_cons, contents_cons, !fmap_app. apply sublist_cons. by apply sublist_app.
Qed.
Lemma sorted_keys ls : sorted_leaves ls → ascending valid cmp (contents ls).*1.
Proof.
  intros Hs. apply marks_ok_keys. eapply marks_ok_sublist; [|exact Hs]. destruct ls as [|x ls]; [constructor|]. rewrite tail_marks_head, contents_cons, !fmap_app. apply sublist_app; [done|apply contents_sublist].
Qed.
Lemma seps_sublist ls : (Sep <$> ls.*1.*1) `sublist_of` marks ls.
Proof. induction ls as [|x ls IH]; [constructor|]. rewrite marks_cons. cbn. apply sublist_skip. by apply sublist_inserts_l. Qed.
Lemma sorted_seps ls : sorted_leaves ls → ascending valid cmp (tail ls.*1.*1).
Proof.
  intros Hs. apply marks_ok_seps. eapply marks_ok_sublist; [|exact Hs]. destruct ls as [|x ls]; [constructor|]. rewrite tail_marks_head. cbn. apply sublist_inserts_l, seps_sublist.
Qed.
Lemma sorted_leaf A kq l B : sorted_leaves (A ++ (kq, l) :: B) → ascending valid cmp l.*1.
Proof. unfold sorted_leaves. rewrite tail_marks, marks_ok_app. intros (_ & (Hl & _)%marks_ok_app & _). by apply marks_ok_keys. Qed.

(** [key] belongs to the leaf at [A ++ _ :: B] *)
Definition covers (key : list Z) (A : list (list Z)) (k : list Z) (B : list (list Z)) : Prop := (A ≠ [] → cmp k key ≤ 0) ∧ above cmp key B.

Section cover.
Context (A : list Leaf) (kq : Kid) (l : list Item) (B : list Leaf) (key : list Z).
Context (Hs : sorted_leaves (A ++ (kq, l) :: B)) (Hv : valid key) (Hc : covers key A.*1.*1 kq.1 B.*1.*1).

Lemma before_key m : m ∈ tail (marks A ++ [Sep kq.1]) → mark_lt m (Key key).
Proof.
  intros Hm. destruct Hc as [Hk _]. unfold sorted_leaves in Hs. rewrite tail_marks in Hs. apply marks_ok_app in Hs as (Hs1 & _ & _). destruct A as [|x A']; [by apply elem_of_nil in Hm|]. specialize (Hk ltac:(done)).
  rewrite marks_cons in Hm, Hs1. cbn [app tail] in Hm, Hs1. apply marks_ok_app in Hs1 as (Hs1 & Hs2 & H12). apply elem_of_app in Hm as [Hm| ->%list_elem_of_singleton]; [|done].
  apply marks_ok_cons in Hs2 as (Hvk & _). apply (mark_lt_trans m (Sep kq.1) (Key key)); [|done|done|apply H12; [done|by left]|done]. apply (proj1 (Forall_forall _ _) (proj1 Hs1) m Hm).
Qed.
Lemma after_key m : m ∈ marks B → mark_lt (Key key) m.
Proof.
  intros Hm. destruct Hc as [_ Hk]. unfold sorted_leaves in Hs. rewrite tail_marks in Hs. apply marks_ok_app in Hs as (_ & Hs1 & _). apply marks_ok_app in Hs1 as (_ & Hs1 & _). destruct B as [|x B']; [by apply elem_of_nil in Hm|].
  inversion_clear Hk as [|? ? Hk1 _]. rewrite marks_cons in Hm, Hs1. apply marks_ok_cons in Hs1 as (Hvk & [Hvs _] & Hall). cbn [mark_value] in Hvk.
  assert (H1 : mark_lt (Key key) (Sep x.1.1)) by (cbn; by apply cmp_flip_lt). apply elem_of_cons in Hm as [->|Hm]; [done|].
  rewrite Forall_forall in Hvs, Hall. apply (mark_lt_trans (Key key) (Sep x.1.1) m); auto.
Qed.
Lemma covered_below : below cmp key (contents A).*1.
Proof.
  apply Forall_forall. intros x Hx. apply (before_key (Key x)). destruct A as [|y A']; [by apply elem_of_nil in Hx|]. rewrite marks_cons. cbn [app tail]. apply elem_of_app. left.
  rewrite contents_cons, fmap_app in Hx. apply elem_of_app in Hx as [Hx|Hx]; apply elem_of_app; [left; by apply list_elem_of_fmap_2|right]. apply (sublist_subseteq _ _ (contents_sublist A')). by apply list_elem_of_fmap_2.
Qed.
Lemma covered_above : above cmp key (contents B).*1.
Proof.
  apply Forall_forall. intros x Hx. pose proof (after_key (Key x)) as H1. assert (Hin : Key x ∈ marks B) by (apply (sublist_subseteq _ _ (contents_sublist B)); by apply list_elem_of_fmap_2).
  specialize (H1 Hin). cbn in H1. apply cmp_flip_lt; [done| |done]. unfold sorted_leaves in Hs. rewrite tail_marks in Hs. apply marks_ok_app in Hs as (_ & Hs1 & _). apply marks_ok_app in Hs1 as (_ & [Hs1 _] & _).
  by apply (proj1 (Forall_forall _ _) Hs1 (Key x) Hin).
Qed.
Lemma covered_has_key : has_key cmp key (contents (A ++ (kq, l) :: B)) = has_key cmp key l.
Proof. rewrite contents_app, contents_cons, !has_key_app, (has_key_below _ _ _ covered_below), (has_key_above _ _ _ covered_above). by rewrite orb_false_r. Qed.
End cover.

Lemma sorted_insert A kq la lb B key v : sorted_leaves (A ++ (kq, la ++ lb) :: B) → valid key → covers key A.*1.*1 kq.1 B.*1.*1 → below cmp key la.*1 → above cmp key lb.*1 →
  sorted_leaves (A ++ (kq, la ++ (key, v) :: lb) :: B) ∧
  contents (A ++ (kq, la ++ (key, v) :: lb) :: B) = insert_sorted cmp (key, v) (contents (A ++ (kq, la ++ lb) :: B)).
Proof.
  intros Hs Hv Hc Ha Hb. pose proof (before_key _ _ _ _ _ Hs Hv Hc) as H1. pose proof (after_key _ _ _ _ _ Hs Hv Hc) as H2. pose proof (covered_below _ _ _ _ _ Hs Hv Hc) as H3. pose proof (covered_above _ _ _ _ _ Hs Hv Hc) as H4.
  pose proof (sorted_leaf _ _ _ _ Hs) as Hl. rewrite fmap_app in Hl. apply ascending_app in Hl as (_ & [Hvb _] & _). split.
  - unfold sorted_leaves in *. rewrite tail_marks, fmap_app, fmap_app in *. cbn. rewrite <-app_assoc in *. rewrite app_assoc in *. cbn. apply marks_ok_insert; [done|done| |].
    + intros m Hm. apply elem_of_app in Hm as [Hm|Hm]; [auto|]. apply list_elem_of_fmap in Hm as (x & -> & Hx). cbn. by apply (proj1 (Forall_forall _ _) Ha).
    + apply Forall_app. split; [|apply Forall_forall; auto]. apply Forall_fmap, Forall_forall. intros x Hx. cbn. rewrite Forall_forall in Hvb. apply cmp_flip_lt; [done|by apply Hvb|]. by apply (proj1 (Forall_forall _ _) Hb).
  - rewrite !contents_app, !contents_cons. cbn [snd]. rewrite <-!app_assoc. rewrite !app_assoc. rewrite <-(app_assoc (contents A ++ la)), <-(app_assoc (contents A ++ la)). symmetry. apply insert_sorted_app.
    + rewrite fmap_app. by apply Forall_app.
    + rewrite fmap_app. by apply Forall_app.
Qed.

Lemma leaf_covers A kq l B x : sorted_leaves (A ++ (kq, l) :: B) → x ∈ l.*1 → valid x ∧ covers x A.*1.*1 kq.1 B.*1.*1.
Proof.
  unfold sorted_leaves. rewrite tail_marks, !marks_ok_app. intros (HA & ([Hv _] & [HvB _] & HB) & Hl) Hx. assert (Hvx : valid x) by (rewrite Forall_fmap, Forall_forall in Hv; by apply Hv). split; [done|]. split.
  - intros HA'. destruct A as [|y A]; [done|]. apply (Hl (Sep kq.1) (Key x)); [rewrite marks_cons; cbn [app tail]; apply elem_of_app; right; left|apply elem_of_app; left; by apply list_elem_of_fmap_2].
  - apply Forall_forall. intros k Hk. assert (Hin : Sep k ∈ marks B) by (apply (sublist_subseteq _ _ (seps_sublist B)); by apply list_elem_of_fmap_2). rewrite Forall_forall in HvB.
    apply cmp_flip_lt; [done|by apply (HvB (Sep k))|]. apply (HB (Key x) (Sep k)); [by apply list_elem_of_fmap_2|done].
Qed.
Lemma sorted_remove A kq la kv lb B key : sorted_leaves (A ++ (kq, la ++ kv :: lb) :: B) → valid key → covers key A.*1.*1 kq.1 B.*1.*1 → below cmp key la.*1 → cmp kv.1 key = 0 →
  sorted_leaves (A ++ (kq, la ++ lb) :: B) ∧ contents (A ++ (kq, la ++ lb) :: B) = remove_key cmp key (contents (A ++ (kq, la ++ kv :: lb) :: B)).
Proof.
  intros Hs Hv Hc Ha Hk. pose proof (covered_below _ _ _ _ _ Hs Hv Hc) as H3. split.
  - unfold sorted_leaves in *. rewrite tail_marks in *. eapply marks_ok_sublist; [|exact Hs]. apply sublist_app; [done|]. apply sublist_app; [|done]. rewrite !fmap_app. cbn. apply sublist_app; [done|by apply sublist_cons].
  - rewrite !contents_app, !contents_cons. cbn [snd]. rewrite <-!app_assoc, <-app_comm_cons, (app_assoc (contents A) la (lb ++ _)), (app_assoc (contents A) la (kv :: _)). symmetry. apply (remove_key_found cmp key (contents A ++ la) kv (lb ++ contents B)); [|done]. by rewrite has_key_app, (has_key_below _ _ _ H3), (has_key_below _ _ _ Ha).
Qed.
(** two leaves become one *)
Lemma sorted_merge A k q l1 k2 q2 l2 B : sorted_leaves (A ++ ((k, q), l1) :: ((k2, q2), l2) :: B) → sorted_leaves (A ++ ((k, q), l1 ++ l2) :: B).
Proof.
  unfold sorted_leaves. rewrite !tail_marks, marks_cons. cbn [fst snd]. apply marks_ok_sublist. apply sublist_app; [done|]. rewrite !fmap_app, <-app_assoc. apply sublist_app; [done|]. by apply sublist_cons.
Qed.

(** splitting a leaf at a key *)
Lemma sorted_split A k q l1 kv l2 B q' : l1 ≠ [] → sorted_leaves (A ++ ((k, q), l1 ++ kv :: l2) :: B) → sorted_leaves (A ++ ((k, q), l1) :: ((kv.1, q'), kv :: l2) :: B).
Proof.
  intros Hne Hs. unfold sorted_leaves in *. rewrite tail_marks in *. rewrite marks_cons. cbn [fst snd]. rewrite fmap_app, fmap_app, <-app_assoc, app_assoc in Hs. rewrite app_assoc.
  apply marks_ok_insert; [done| | |].
  - apply marks_ok_app in Hs as (_ & Hs & _). cbn in Hs. apply marks_ok_cons in Hs as [Hs _]. done.
  - apply marks_ok_app in Hs as (Hs & Hs2 & H12). cbn in Hs2. apply marks_ok_cons in Hs2 as (Hvk & _). intros m [Hm|Hm]%elem_of_app.
    + destruct l1 as [|[x v] l1]; [done|]. apply marks_ok_app in Hs as (Hs & Hs1 & H1). cbn in Hs1. apply marks_ok_cons in Hs1 as (Hvx & _ & _).
      apply (mark_lt_trans m (Key x) (Sep kv.1)); [apply (proj1 (Forall_forall _ _) (proj1 Hs) m Hm)|done|done|apply H1; [done|left]|].
      apply (H12 (Key x) (Key kv.1)); [apply elem_of_app; right; left|left].
    + apply list_elem_of_fmap in Hm as (x & -> & Hx). apply (H12 (Key x) (Key kv.1)); [apply elem_of_app; right; by apply list_elem_of_fmap_2|left].
  - apply marks_ok_app in Hs as (_ & Hs & _). cbn in Hs |- *. apply marks_ok_cons in Hs as (Hvk & Hs & Hall). apply Forall_cons. split; [cbn; rewrite (cmp_refl (cmp := cmp) kv.1 Hvk); lia|].
    rewrite Forall_forall in *. intros m Hm. apply (mark_lt_trans (Sep kv.1) (Key kv.1) m); [done|done|apply (proj1 (Forall_forall _ _) (proj1 Hs) m Hm)|cbn; rewrite (cmp_refl (cmp := cmp) kv.1 Hvk); lia|auto].
Qed.
End marks.
