(* ===== verification/BplusFind.v ===== *)
(** * BplusFind: the way from the root to a leaf

    [find_leaf] takes the latch of a child before it gives back those of the nodes above,
    which it does when the operation cannot change them. It ends at the leaf that a key
    belongs to. *)
From stdpp Require Import sorting.
From S2P Require Import Prelude Types Encoding KeyCompare LatchMemo LatchMemoSpec BplusNode BplusLog BplusNodeSpec BplusOps BplusNodeOps BplusMoves BplusShape BplusTree BplusRoot BplusInsert BplusLeaves.

Section find.
Context {P : Type} `{TL : TreePoolLaws P}.
Context (h : IndexFileHeader).
Abbreviation St := (Memo P TreeState).
Implicit Types (s : St) (pn q r : PageNum) (N : Node) (low : Level) (lvls : list (list Inner)) (op : BplusTreeOperationType).
Abbreviation ready := (ready h []).
Abbreviation stored := (stored h).
Abbreviation level_stored := (level_stored h).
Abbreviation levels_stored := (levels_stored h).
Abbreviation imax := (internal_max_size h).

(** ** Steps that pin and latch only *)

Record looks s s' : Prop := {
  lk_disposed : disposed_pages_ s' = disposed_pages_ s;
  lk_client : m_client s' = m_client s;
  lk_id : tp_id (m_pool s') = tp_id (m_pool s);
  lk_memory : ∀ q, tp_memory (m_pool s) q → tp_memory (m_pool s') q;
  lk_pages : pages s' = pages s;
  lk_free : free s' = free s;
}.
Lemma looks_refl s : looks s s.
Proof. by constructor. Qed.
Lemma looks_trans s1 s2 s3 : looks s1 s2 → looks s2 s3 → looks s1 s3.
Proof. intros [] []. constructor; try congruence. auto. Qed.
Lemma looks_stored s s' pn N : looks s s' → stored s pn N → stored s' pn N.
Proof. intros [] (g & Hg & HN). exists g. by rewrite lk_pages0. Qed.
Lemma looks_level s s' low ps : looks s s' → level_stored s low ps → level_stored s' low ps.
Proof. intros Hl Hs. eapply Forall2_impl; [exact Hs|]. intros ? ?. by apply looks_stored. Qed.
Lemma looks_levels s s' lvls : looks s s' → levels_stored s lvls → levels_stored s' lvls.
Proof. intros Hl. induction lvls as [|up lvls IH]; [done|]. intros []. split; [by apply (looks_level s)|auto]. Qed.
Lemma looks_like s s' : looks s s' → header_like h (tree_header s) → header_like h (tree_header s').
Proof. intros []. unfold tree_header. by rewrite lk_client0. Qed.

(** what is latched after the memo gave back its front *)
Lemma latched_items ex s w : memo_ok ex s → latched s w ↔ (0 < count EXCLUSIVE w (ex ++ items_ s) + count SHARED w (ex ++ items_ s))%nat.
Proof. intros Hs. apply latched_count, Hs. Qed.

(** a page is pinned and latched *)
Lemma fetch_ok s q (readonly : bool) : ready s → is_Some (pages s !! q) → ¬ latched s (OnFrame q) →
  let t := if readonly then SHARED else EXCLUSIVE in
  ∃ s1 s2, get_page q s = Some (SUCCESS, s1) ∧ latch q t s1 = Some (tt, s2) ∧ ready s2 ∧ looks s s2 ∧ held s2 q ∧
    items_ s2 = items_ s ++ [mkItem PIN (OnFrame q); mkItem t (OnFrame q)].
Proof.
  intros [Hm Hlike] Hp Hl t. destruct (get_page_ok [] s q Hm Hp) as (s1 & E1 & M1 & [] & Hh1 & Hpg & Hfr & Hlk & Hit).
  assert (Hi1 : mkItem PIN (OnFrame q) ∈ items_ s1) by (rewrite Hit; apply elem_of_app; right; left). assert (Hl1 : m_locks s1 !! OnFrame q = None) by (rewrite Hlk; by apply eq_None_not_Some).
  assert (E : ∃ locks, let s2 := with_items (items_ s1 ++ [mkItem t (OnFrame q)]) (with_locks locks s1) in latch q t s1 = Some (tt, s2) ∧ memo_ok [] s2).
  { destruct readonly; [destruct (slatch_ok [] s1 q M1 Hi1 Hl1) as [E M2]|destruct (xlatch_ok [] s1 q M1 Hi1 Hl1) as [E M2]]; eexists; (split; [exact E|exact M2]). }
  destruct E as (locks & E2 & M2). exists s1, (with_items (items_ s1 ++ [mkItem t (OnFrame q)]) (with_locks locks s1)). split; [done|]. split; [done|].
  assert (Hlook : looks s (with_items (items_ s1 ++ [mkItem t (OnFrame q)]) (with_locks locks s1))) by (by constructor).
  split; [split; [done|by apply (looks_like s)]|]. split; [done|]. split; [done|]. cbn [items_ with_items]. by rewrite Hit, <-app_assoc.
Qed.
Lemma ordered_pair q t : ordered [mkItem PIN (OnFrame q); mkItem t (OnFrame q)].
Proof.
  apply (ordered_snoc [mkItem PIN (OnFrame q)]).
  - apply (ordered_snoc []); [apply ordered_nil|]. intros t' pn [= <- <-]. done.
  - intros t' pn [= <- <-] _. by left.
Qed.
Lemma count_pair_other t w t' q : w ≠ OnFrame q → count t w [mkItem PIN (OnFrame q); mkItem t' (OnFrame q)] = 0%nat.
Proof. intros Hw. apply count_zero. intros [[= _ E]|[[= _ E]|Hn%elem_of_nil]%elem_of_cons]%elem_of_cons; done. Qed.
Lemma front_released s l1 l2 : ready s → items_ s = l1 ++ l2 → ordered l2 →
  ∃ s', release_to (len l1) s = Some (tt, s') ∧ ready s' ∧ looks s s' ∧ items_ s' = l2.
Proof.
  intros [Hm Hlike] Ei Ho. destruct (release_to_ok [] l1 l2 s Hm Ei Ho) as (s' & E & M & []). exists s'. split; [done|]. assert (Hlook : looks s s') by (by constructor).
  split; [split; [done|by apply (looks_like s)]|]. done.
Qed.

(** a reader holds one page at a time *)
Definition read_items q : list LatchMemoItem := [mkItem PIN (OnFrame q); mkItem SHARED (OnFrame q)].
Lemma crabing_ok op q top s N : ready s → stored s q N → ¬ latched s (OnFrame q) →
  ∃ s', crabing_protocal_fetch_page op q top s = Some ((SUCCESS, q), s') ∧ ready s' ∧ looks s s' ∧ held s' q ∧ (∀ w, latched s' w → latched s w ∨ w = OnFrame q) ∧ (op = READ → items_ s' = read_items q).
Proof.
  intros Hr Hst Hl. set (ro := match op with READ => true | _ => false end). destruct (fetch_ok s q ro Hr (stored_exists _ _ _ _ Hst) Hl) as (s1 & s2 & E1 & E2 & Hr2 & L2 & Hh2 & Ei).
  unfold crabing_protocal_fetch_page. rewrite bind_get. run E1. change (OB_FAIL SUCCESS) with false. cbv iota. fold ro. run E2.
  assert (Hat : at_node h [] s2 q N) by (split; [done|split; [done|by apply (looks_stored s)]]). destruct (is_safe_ok h [] s2 q N Hat op top) as [b E3]. run E3.
  set (t := if ro then SHARED else EXCLUSIVE) in *. assert (Hlat : ∀ s' l, ready s' → items_ s' = l ++ [mkItem PIN (OnFrame q); mkItem t (OnFrame q)] → l = [] ∨ l = items_ s → ∀ w, latched s' w → latched s w ∨ w = OnFrame q).
  { intros s' l [M' _] Ei' Hl' w Hw. apply (latched_items [] s' w M') in Hw. destruct (decide (w = OnFrame q)) as [->|Hne]; [by right|left]. apply (latched_items [] s w (proj1 Hr)). rewrite Ei' in Hw. cbn [app] in *.
    rewrite !count_app, !count_pair_other in Hw by done. destruct Hl' as [->| ->]; [by cbn in Hw; lia|cbn [app]; lia]. }
  assert (Hheld : ∀ s', ready s' → mkItem PIN (OnFrame q) ∈ items_ s' → held s' q) by (intros s' [M' _] Hi; apply (held_pins [] s' q M'); by apply count_elem).
  destruct b.
  - unfold memo_point. destruct (front_released s2 (items_ s) _ Hr2 Ei (ordered_pair q t)) as (s3 & E4 & Hr3 & L3 & Ei3). run E4. exists s3. split; [done|]. split; [done|].
    split; [by apply (looks_trans s s2)|]. split; [apply Hheld; [done|rewrite Ei3; left]|]. split; [apply (Hlat s3 []); auto|]. intros ->. exact Ei3.
  - rewrite bind_ret. exists s2. split; [done|]. split; [done|]. split; [done|]. split; [done|]. split; [apply (Hlat s2 (items_ s)); auto|]. intros ->. by injection E3.
Qed.

(** ** Down the levels *)

Context (Hix : index_ok h) (valid : list Z → Prop).
Abbreviation cmp := (comparator h).
Context `{KO : !KeyOrder valid cmp} (Hlen : ∀ k, valid k → len k = key_length h).

Lemma same_tail_sym l l' : same_tail l l' → same_tail l' l.
Proof. by intros []. Qed.
Lemma level_nodes_at s low ps q : level_stored s low ps → q ∈ low.*1 → ∃ N, stored s q N.
Proof.
  intros Hl. induction Hl as [|[q' N] p low ps H1 _ IH]; [by intros ?%elem_of_nil|]. intros [->|Hq]%elem_of_cons; [eauto|auto].
Qed.
Lemma inner_at s up lvls uA pn ks uB : level_stored s (inner_nodes up) (pars lvls) → up = uA ++ (pn, ks) :: uB → ∃ pp, stored s pn (InnerOf pp ks).
Proof.
  intros Hl ->. unfold inner_nodes in Hl. rewrite fmap_app in Hl. apply Forall2_app_inv_l in Hl as (p1 & p2 & _ & Hl & _). cbn in Hl. apply Forall2_cons_inv_l in Hl as (pp & p3 & Hl & _ & _). by exists pp.
Qed.

Lemma root_stored lvls : ∀ es low s root, levels_ok imax es lvls root → low.*1 = es.*2 → level_stored s low (pars lvls) → levels_stored s lvls → ∃ N, stored s root N.
Proof.
  induction lvls as [|up lvls IH]; intros es low s root Hlv Elow Hlow Hst.
  - cbn in Hlv. apply (level_nodes_at s _ _ root Hlow). rewrite Elow, Hlv. left.
  - destruct Hlv as (_ & _ & Hlv). destruct Hst as [Hup Hst]. apply (IH (as_kids up) (inner_nodes up)); try done. by rewrite inner_nodes_pages, as_kids_pages.
Qed.

Section descend.
Context (op : BplusTreeOperationType) (getter : PageNum → M St PageNum) (Q : list Kid → list Z → list Kid → Prop).
(** what the getter finds among the items of a node, and what it means for a level *)
Hypothesis Qone : ∀ k, Q [] k [].
Hypothesis Qsame : ∀ A A' k k' B, same_tail A' A → (A ≠ [] → k' = k) → Q A k B → Q A' k' B.
Hypothesis Qget : ∀ s pn p ks, at_node h [] s pn (InnerOf p ks) → ks ≠ [] → ascending valid cmp (tail ks.*1) →
  ∃ c1 kq c2, ks = c1 ++ kq :: c2 ∧ getter pn s = Some (kq.2, s) ∧ Q c1 kq.1 c2.
Hypothesis Qlift : ∀ uA pn c1 kq c2 uB, Forall (λ n, n.2 ≠ []) (uA ++ (pn, c1 ++ kq :: c2) :: uB) → ascending valid cmp (tail (kids_of (uA ++ (pn, c1 ++ kq :: c2) :: uB)).*1) →
  Q (as_kids uA) (head_key (c1 ++ kq :: c2)) (as_kids uB) → Q c1 kq.1 c2 → Q (kids_of uA ++ c1) kq.1 (c2 ++ kids_of uB).

Lemma descend lvls : ∀ es low root s n, levels_ok imax es lvls root → low.*1 = es.*2 → level_stored s low (pars lvls) → levels_stored s lvls → ascending valid cmp (tail es.*1) →
  NoDup (es.*2 ++ level_pages lvls) → ready s → held s root → (∀ q, latched s (OnFrame q) → q = root) → (op = READ → items_ s = read_items root) →
  ∃ s' A k q B, es = A ++ (k, q) :: B ∧ Q A k B ∧ find_leaf_loop (length lvls + n) op getter root s = find_leaf_loop n op getter q s' ∧
    ready s' ∧ looks s s' ∧ held s' q ∧ (∀ r, latched s' (OnFrame r) → r = q ∨ over lvls q r) ∧ (op = READ → items_ s' = read_items q).
Proof.
  induction lvls as [|up lvls IH]; intros es low root s n Hlv Elow Hlow Hst Hasc Hnd Hr Hh Hlat Hro.
  - destruct es as [|[k q] [|]]; [done| |done]. cbn in Hlv. injection Hlv as ->. exists s, [], k, root, []. split; [done|]. split; [apply Qone|]. split; [done|]. split; [done|]. split; [apply looks_refl|]. split; [done|]. split; [|done]. intros r Hr'. left. by apply Hlat.
  - destruct Hlv as (Hsame & Hsz & Hlv). destruct Hst as [Hup Hst]. pose proof (sized_nonempty imax (ix_inner_min _ Hix) _ _ Hsz) as Hne.
    apply NoDup_app in Hnd as (_ & Hnd12 & Hnd2). rewrite <-(proj2 Hsame) in Hasc.
    destruct (IH (as_kids up) (inner_nodes up) root s (S n) Hlv) as (s1 & A & k & pn & B & Eup & HQ & E1 & Hr1 & L1 & Hh1 & Hlat1 & _); try done.
    { by rewrite inner_nodes_pages, as_kids_pages. }
    { by apply (ascending_up (valid := valid)). }
    { by rewrite as_kids_pages. }
    replace (length (up :: lvls) + n)%nat with (length lvls + S n)%nat by (cbn; lia). rewrite E1.
    unfold as_kids in Eup. apply fmap_app_inv in Eup as (uA & u' & -> & E2 & Eu). destruct u' as [|[pn' ks] uB]; [done|]. cbn in E2. injection E2 as -> -> ->. fold (as_kids uA) in HQ. fold (as_kids uB) in HQ.
    destruct (inner_at s1 up lvls uA pn' ks uB (looks_level _ _ _ _ L1 Hup) Eu) as [pp Hpn]. assert (Hat : at_node h [] s1 pn' (InnerOf pp ks)) by done.
    assert (Hks : ks ≠ []) by (rewrite Eu, Forall_app, Forall_cons in Hne; apply Hne).
    destruct (Qget s1 pn' pp ks Hat Hks) as (c1 & kq & c2 & -> & E3 & HQ2).
    { rewrite Eu, kids_app, kids_cons in Hasc. by apply (ascending_tail_mid h valid (kids_of uA) _ (kids_of uB)) in Hasc. }
    cbn [find_leaf_loop]. run (is_leaf_ok _ _ _ _ _ Hat). run E3.
    rewrite Eu in Hne, Hasc. pose proof (Qlift _ _ _ _ _ _ Hne Hasc HQ HQ2) as HQ3.
    rewrite Eu, kids_app, kids_cons in Hsame. cbn [snd] in Hsame. rewrite <-app_assoc, app_assoc in Hsame. cbn [app] in Hsame. destruct kq as [k0 q]. cbn [fst snd] in *.
    apply same_tail_sym in Hsame. apply same_tail_split in Hsame as (A' & k' & -> & HA & HsA & Hk). 
    assert (Hq : q ∈ low.*1) by (rewrite Elow, fmap_app; apply elem_of_app; right; left). destruct (level_nodes_at _ _ _ _ (looks_level _ _ _ _ L1 Hlow) Hq) as [N HN]. rewrite Elow in Hq.
    assert (Hnq : ¬ latched s1 (OnFrame q)).
    { intros Hl. apply (Hnd12 q Hq). apply elem_of_app. destruct (Hlat1 q Hl) as [->|?%over_pages]; [left|by right]. rewrite Eu, fmap_app. apply elem_of_app. right. left. }
    destruct (crabing_ok op q false s1 N Hr1 HN Hnq) as (s2 & E4 & Hr2 & L2 & Hh2 & Hlat2 & Hro2). run E4. cbn [fst snd]. change (OB_FAIL SUCCESS) with false. cbv iota.
    exists s2, A', k', q, (c2 ++ kids_of uB). split; [done|]. split; [by apply (Qsame (kids_of uA ++ c1) A' k0)|]. split; [done|]. split; [done|]. split; [by apply (looks_trans s s1)|]. split; [done|].
    split; [|done]. intros r Hr'. destruct (Hlat2 _ Hr') as [Hl1|[= ->]]; [|by left]. right. exists (pn', c1 ++ (k0, q) :: c2). split; [rewrite Eu; apply elem_of_app; right; left|]. split; [cbn [snd]; rewrite fmap_app; apply elem_of_app; right; left|by apply Hlat1].
Qed.

(** the lock of the root, and from there *)
Lemma lock_ok s : ready s → m_locks s !! OnLock = None →
  ∃ s', match op with READ => slatch_lock | _ => xlatch_lock end s = Some (tt, s') ∧ ready s' ∧ looks s s' ∧ (∀ w, latched s' w → latched s w ∨ w = OnLock).
Proof.
  intros [Hm Hlike] Hl. assert (E : ∃ x t, match op with READ => slatch_lock | _ => xlatch_lock end s = Some (tt, with_items (items_ s ++ [mkItem t OnLock]) (with_locks (<[OnLock := x]> (m_locks s)) s)) ∧
      memo_ok [] (with_items (items_ s ++ [mkItem t OnLock]) (with_locks (<[OnLock := x]> (m_locks s)) s))).
  { destruct op; [destruct (slatch_lock_ok [] s Hm Hl)|destruct (xlatch_lock_ok [] s Hm Hl)..]; by eexists _, _. }
  destruct E as (x & t & E & M). eexists. split; [exact E|]. split; [by split|]. split; [by constructor|]. intros w. unfold latched. cbn. destruct (decide (w = OnLock)) as [->|]; [by right|]. rewrite lookup_insert_ne by done. by left.
Qed.

Lemma find_leaf_internal_ok lvls es low root s n : levels_ok imax es lvls root → low.*1 = es.*2 → level_stored s low (pars lvls) → levels_stored s lvls → ascending valid cmp (tail es.*1) →
  NoDup (es.*2 ++ level_pages lvls) → Forall (λ x, ∃ p nx l, x.2 = LeafOf p nx l) low → (length lvls < n)%nat →
  ready s → m_locks s = ∅ → root_page (tree_header s) = root →
  ∃ s' A k q B, es = A ++ (k, q) :: B ∧ Q A k B ∧ find_leaf_internal n op getter s = Some ((SUCCESS, q), s') ∧
    ready s' ∧ looks s s' ∧ held s' q ∧ (∀ r, latched s' (OnFrame r) → r = q ∨ over lvls q r) ∧ (op = READ → items_ s' = read_items q).
Proof.
  intros Hlv Elow Hlow Hst Hasc Hnd Hleaf Hn Hr Hlk Hroot. unfold find_leaf_internal.
  destruct (lock_ok s Hr) as (s1 & E1 & Hr1 & L1 & Hlat1); [by rewrite Hlk|]. run E1. unfold is_empty. rewrite bind_assoc. run (file_header_ok s1). rewrite bind_ret.
  assert (Eh1 : root_page (tree_header s1) = root) by (unfold tree_header; rewrite (lk_client _ _ L1); exact Hroot). rewrite Eh1.
  assert (Hno : ∀ q, ¬ latched s1 (OnFrame q)). { intros q Hq. destruct (Hlat1 _ Hq) as [[x Hx]|]; [by rewrite Hlk, lookup_empty in Hx|done]. }
  destruct (root_stored lvls es low s1 root Hlv Elow (looks_level _ _ _ _ L1 Hlow) (looks_levels _ _ _ L1 Hst)) as [N HN].
  pose proof (page_int32 _ _ _ (proj1 Hr1) (stored_exists _ _ _ _ HN)) as Broot. rewrite (proj2 (Z.eqb_neq root BP_INVALID_PAGE_NUM)) by (unfold BP_INVALID_PAGE_NUM; lia).
  run (file_header_ok s1). rewrite Eh1. destruct (crabing_ok op root true s1 N Hr1 HN (Hno root)) as (s2 & E2 & Hr2 & L2 & Hh2 & Hlat2 & Hro2). run E2. cbn [fst snd]. change (OB_FAIL SUCCESS) with false. cbv iota.
  pose proof (looks_trans _ _ _ L1 L2) as L12.
  destruct (descend lvls es low root s2 (n - length lvls) Hlv Elow) as (s3 & A & k & q & B & Ees & HQ & E3 & Hr3 & L3 & Hh3 & Hlat3); try done.
  { by apply (looks_level s). }
  { by apply (looks_levels s). }
  { intros q Hq. destruct (Hlat2 _ Hq) as [Hq1|[= ->]]; [by apply Hno in Hq1|done]. }
  exists s3, A, k, q, B. split; [done|]. split; [done|]. replace (length lvls + (n - length lvls))%nat with n in E3 by lia. rewrite E3.
  destruct (n - length lvls)%nat as [|m] eqn:Em; [lia|]. cbn [find_leaf_loop].
  assert (Hq : q ∈ low.*1) by (rewrite Elow, Ees, fmap_app; apply elem_of_app; right; left).
  assert (HNq : ∃ p nx l, stored s3 q (LeafOf p nx l)).
  { pose proof (looks_level _ _ _ _ (looks_trans _ _ _ L12 L3) Hlow) as Hl. clear - Hl Hleaf Hq. induction Hl as [|[q' N'] p low ps H1 _ IH]; [by apply elem_of_nil in Hq|]. apply Forall_cons in Hleaf as [(p0 & nx & l & E) Hleaf].
    apply elem_of_cons in Hq as [->|Hq]; [|auto]. cbn in *. subst N'. by exists p, nx, l. }
  destruct HNq as (p & nx & l & HNq). assert (Hat : at_node h [] s3 q (LeafOf p nx l)) by done. run (is_leaf_ok _ _ _ _ _ Hat).
  split; [done|]. split; [done|]. split; [by apply (looks_trans _ _ _ L12)|]. done.
Qed.
End descend.

(** ** To the leaf of a key, and to the first leaf *)

Lemma lookup_get key s pn p ks : valid key → at_node h [] s pn (InnerOf p ks) → ks ≠ [] → ascending valid cmp (tail ks.*1) →
  ∃ c1 kq c2, ks = c1 ++ kq :: c2 ∧ (let* lu := internal_lookup pn key in internal_value_at pn lu.1.1) s = Some (kq.2, s) ∧ covers (cmp := cmp) key c1.*1 kq.1 c2.*1.
Proof.
  intros Hk Hat Hne Hasc. destruct ks as [|[k0 q0] ks]; [done|]. cbn in Hasc.
  destruct (internal_lookup_ok h valid Hlen Hix [] s pn p k0 q0 ks key Hat Hk Hasc) as (l1 & l2 & b & pos & -> & Hle & Hab & E & _).
  destruct l1 as [|[k q] l1 _] using rev_ind.
  - exists [], (k0, q0), l2. split; [done|]. run E. cbn [fst]. split; [by apply (value_at_ok h [] s pn p [] k0 q0 l2)|]. by split.
  - exists ((k0, q0) :: l1), (k, q), l2. split; [by rewrite <-app_assoc|]. run E. cbn [fst]. split.
    + replace (len (l1 ++ [(k, q)])) with (len ((k0, q0) :: l1)) by (rewrite len_app; unfold len; cbn [length]; lia). apply (value_at_ok h [] s pn p ((k0, q0) :: l1) k q l2). by rewrite <-app_assoc in Hat.
    + split; [|done]. intros _. rewrite fmap_app in Hle. apply Forall_app in Hle as [_ Hle]. by inversion_clear Hle.
Qed.
Lemma covers_lift key uA pn c1 kq c2 uB : valid key → Forall (λ n : Inner, n.2 ≠ []) (uA ++ (pn, c1 ++ kq :: c2) :: uB) → ascending valid cmp (tail (kids_of (uA ++ (pn, c1 ++ kq :: c2) :: uB)).*1) →
  covers (cmp := cmp) key (as_kids uA).*1 (head_key (c1 ++ kq :: c2)) (as_kids uB).*1 → covers (cmp := cmp) key c1.*1 kq.1 c2.*1 →
  covers (cmp := cmp) key (kids_of uA ++ c1).*1 kq.1 (c2 ++ kids_of uB).*1.
Proof.
  intros Hk Hne Hasc [H1 H2] [H3 H4]. split.
  - intros HA. destruct c1 as [|kc c1]; [|by apply H3]. apply H1. destruct uA; [by rewrite app_nil_r in HA|done].
  - rewrite fmap_app. apply Forall_app. split; [done|]. destruct uB as [|[pn' ks'] uB]; [done|]. rewrite Forall_app, !Forall_cons in Hne. destruct Hne as (_ & _ & Hne & _). cbn in Hne. destruct ks' as [|[k1 q1] ks']; [done|].
    cbn in H2. inversion_clear H2 as [|? ? Hk1 _]. rewrite kids_app, kids_cons in Hasc. cbn [snd] in Hasc. rewrite <-app_assoc, app_assoc in Hasc. 
    change ((kq :: c2) ++ kids_of ((pn', (k1, q1) :: ks') :: uB)) with ([kq] ++ c2 ++ kids_of ((pn', (k1, q1) :: ks') :: uB)) in Hasc. rewrite !app_assoc in Hasc.
    apply ascending_behind in Hasc; [|by destruct (kids_of uA), c1]. rewrite kids_cons in *. cbn in *. apply Forall_cons. split; [done|]. apply (above_after key k1); [done|done|lia].
Qed.

Context (lvls : list (list Inner)) (es : list Kid) (low : Level) (root : PageNum) (s : St) (n : nat).
Context (Hlv : levels_ok imax es lvls root) (Elow : low.*1 = es.*2) (Hlow : level_stored s low (pars lvls)) (Hst : levels_stored s lvls) (Hasc : ascending valid cmp (tail es.*1)).
Context (Hnd : NoDup (es.*2 ++ level_pages lvls)) (Hleaf : Forall (λ x, ∃ p nx l, x.2 = LeafOf p nx l) low) (Hn : (length lvls < n)%nat).
Context (Hr : ready s) (Hlk : m_locks s = ∅) (Hroot : root_page (tree_header s) = root).

Lemma find_leaf_ok op key : valid key → ∃ s' A k q B, es = A ++ (k, q) :: B ∧ covers (cmp := cmp) key A.*1 k B.*1 ∧ find_leaf n op key s = Some ((SUCCESS, q), s') ∧
    ready s' ∧ looks s s' ∧ held s' q ∧ (∀ r, latched s' (OnFrame r) → r = q ∨ over lvls q r) ∧ (op = READ → items_ s' = read_items q).
Proof.
  intros Hk. apply (find_leaf_internal_ok op (λ f, let* lu := internal_lookup f key in internal_value_at f lu.1.1) (λ A k B, covers (cmp := cmp) key A.*1 k B.*1)) with (low := low) (root := root); try done.
  - intros k0. split; [done|constructor].
  - intros A A' k k' B Hs Hkk [H1 H2]. split; [|done]. intros HA. assert (A ≠ []) by (intros ->; apply same_tail_length in Hs; by destruct A'). rewrite Hkk by done. apply H1. by destruct A.
  - intros s0 pn p ks Hat Hne Ha. by apply (lookup_get key s0 pn p ks).
  - intros uA pn c1 kq c2 uB Hne Ha. by apply (covers_lift key uA pn).
Qed.
Lemma left_most_ok : ∃ s' k q B, es = (k, q) :: B ∧ left_most_page n s = Some ((SUCCESS, q), s') ∧
    ready s' ∧ looks s s' ∧ held s' q ∧ (∀ r, latched s' (OnFrame r) → r = q ∨ over lvls q r) ∧ items_ s' = read_items q.
Proof.
  destruct (find_leaf_internal_ok READ (λ f, internal_value_at f 0) (λ A k B, A = [])) with (lvls := lvls) (es := es) (low := low) (root := root) (s := s) (n := n) as (s' & A & k & q & B & E & -> & Hrest); try done.
  - intros A A' k k' B Hs _ ->. apply same_tail_length in Hs. by destruct A'.
  - intros s0 pn p ks Hat Hne Ha. destruct ks as [|[k0 q0] ks]; [done|]. exists [], (k0, q0), ks. split; [done|]. split; [|done]. apply (value_at_ok h [] s0 pn p [] k0 q0 ks Hat).
  - intros uA pn c1 kq c2 uB _ _ HA ->. destruct uA; [done|done].
  - destruct Hrest as (H1 & H2 & H3 & H4 & H5 & H6). specialize (H6 eq_refl). exists s', k, q, B. done.
Qed.
End find.
