(* ===== verification/BplusInsertLeaf.v ===== *)
(** * BplusInsertLeaf: [insert_entry_into_leaf_node]

    [tree_at] is the invariant of a tree that is not empty: levels of nodes in the file, with
    the parents and the links between the leaves, sorted and half full. Inserting an item
    into the leaf it belongs to keeps it. *)
From stdpp Require Import sorting.
From S2P Require Import Prelude Types Encoding KeyCompare LatchMemo LatchMemoSpec BplusNode BplusLog BplusNodeSpec BplusOps BplusNodeOps BplusMoves BplusShape BplusTree BplusRoot BplusInsert BplusGrow BplusLeaves BplusFind.

Section leaf.
Context {P : Type} `{TL : TreePoolLaws P}.
Context (h : IndexFileHeader).
Abbreviation St := (Memo P TreeState).
Implicit Types (s : St) (pn q : PageNum) (N : Node) (low : Level) (lvls : list (list Inner)) (ls A B : list Leaf).
Abbreviation ready := (ready h).
Abbreviation at_node := (at_node h []).
Abbreviation stored := (stored h).
Abbreviation level_stored := (level_stored h).
Abbreviation levels_stored := (levels_stored h).
Abbreviation imax := (internal_max_size h).
Abbreviation lmax := (leaf_max_size h).
Context (Hix : index_ok h) (valid : list Z → Prop).
Abbreviation cmp := (comparator h).

Definition leaf_sized (top : bool) (x : Leaf) : Prop := (if top then 1 else Z.quot lmax 2) ≤ len x.2 ≤ lmax.
Record tree_at s ls lvls (root : PageNum) : Prop := {
  ta_levels : levels_ok imax ls.*1 lvls root;
  ta_leaves : level_stored s (leaf_nodes ls (-1)) (pars lvls);
  ta_lvls : levels_stored s lvls;
  ta_pages : NoDup (FIRST_INDEX_PAGE :: ls.*1.*2 ++ level_pages lvls);
  ta_sorted : sorted_leaves (valid := valid) (cmp := cmp) ls;
  ta_sized : Forall (leaf_sized (is_top lvls)) ls;
  ta_root : root_page (tree_header s) = root;
  ta_header : header_page s;
}.

Context `{KO : !KeyOrder valid cmp} (Hlen : ∀ k, valid k → len k = key_length h).

Lemma lmax_half : 1 ≤ Z.quot lmax 2 ∧ Z.quot lmax 2 ≤ lmax - Z.quot lmax 2 < lmax.
Proof. pose proof (ix_leaf_min _ Hix). pose proof (Z.quot_rem' lmax 2). pose proof (Z.rem_bound_pos lmax 2). lia. Qed.

(** the leaf as the file has it *)
Lemma leaf_at s A k q l B lvls : level_stored s (leaf_nodes (A ++ ((k, q), l) :: B) (-1)) (pars lvls) →
  ∃ p1 p p2, pars lvls = p1 ++ p :: p2 ∧ length (leaf_nodes A q) = length p1 ∧ stored s q (LeafOf p (first_page B (-1)) l).
Proof. rewrite leaf_nodes_app. cbn. intros Hl. by apply (level_at h) in Hl. Qed.
Lemma only_leaf A x B lvls root : levels_ok imax (A ++ x :: B).*1 lvls root → Forall (leaf_sized (is_top lvls)) (A ++ x :: B) → Forall (leaf_sized false) A ∧ Forall (leaf_sized false) B.
Proof.
  destruct lvls as [|up lvls]; cbn [is_top levels_ok].
  - intros E _. rewrite !fmap_app in E. cbn in E. destruct A as [|a1 [|a2 A]], B as [|b B]; done.
  - intros _ Hf. rewrite Forall_app, Forall_cons in Hf. tauto.
Qed.

(** [q] is the leaf that [key] belongs to *)
Section at_leaf.
Context (s : St) (A : list Leaf) (k : list Z) (q : PageNum) (l : list Item) (B : list Leaf) (lvls : list (list Inner)) (root : PageNum) (key v : list Z) (n : nat).
Context (Ht : tree_at s (A ++ ((k, q), l) :: B) lvls root) (Hr : ready [] s) (Hh : held s q) (Hlat : ∀ r : PageNum, latched s (OnFrame r) → r ∈ q :: level_pages lvls).
Context (Hk : valid key) (Hv : len v = 8) (Hc : covers (cmp := cmp) key A.*1.*1 k B.*1.*1).
Abbreviation ls := (A ++ ((k, q), l) :: B).

Context (p1 : list PageNum) (p : PageNum) (p2 : list PageNum) (Ep : pars lvls = p1 ++ p :: p2) (Lp : length (leaf_nodes A q) = length p1) (Hst : stored s q (LeafOf p (first_page B (-1)) l)).

Lemma leaf_node : at_node s q (LeafOf p (first_page B (-1)) l).
Proof. done. Qed.

(** the leaf has other items *)
Lemma leaf_kept s' l' : changes 0 [q] s s' → at_node s' q (LeafOf p (first_page B (-1)) l') →
  level_stored s' (leaf_nodes (A ++ ((k, q), l') :: B) (-1)) (pars lvls) ∧ levels_stored s' lvls ∧ header_page s' ∧ tree_header s' = tree_header s.
Proof.
  intros C H2. destruct Ht. apply NoDup_cons in ta_pages0 as Hnd. destruct Hnd as [Hn1 Hnd]. apply NoDup_app in Hnd as (Hnd1 & Hnd2 & _). rewrite !fmap_app in Hnd1, Hnd2, Hn1. cbn in Hnd1, Hnd2, Hn1. apply NoDup_app in Hnd1 as (_ & Hnd3 & Hnd4). apply NoDup_cons in Hnd4 as [Hnd4 _].
  assert (Hf : FIRST_INDEX_PAGE ∉ [q]) by (clear - Hn1; set_solver). split; [|split; [|split; [by apply (header_page_changes 0 [q] s)|by apply (ch_header _ _ _ _ C)]]].
  - rewrite leaf_nodes_app, Ep in *. cbn in ta_leaves0 |- *.
    apply (level_stored_node h 0 [q] s s' (leaf_nodes A q) q (LeafOf 0 (first_page B (-1)) l) _ (leaf_nodes B (-1)) p1 p); [done|done|done| |apply H2].
    intros r Hr'. rewrite !leaf_nodes_pages in Hr'. clear - Hr' Hnd3 Hnd4. set_solver.
  - apply (levels_stored_changes h 0 [q] s); [done| |done]. intros r Hr' ->%list_elem_of_singleton. apply (Hnd2 q); [clear; set_solver|done].
Qed.
Lemma leaf_replaced s' l' : changes 0 [q] s s' → at_node s' q (LeafOf p (first_page B (-1)) l') → sorted_leaves (valid := valid) (cmp := cmp) (A ++ ((k, q), l') :: B) → leaf_sized (is_top lvls) ((k, q), l') →
  tree_at s' (A ++ ((k, q), l') :: B) lvls root.
Proof.
  intros C H2 Hs Hz. destruct (leaf_kept s' l' C H2) as (H3 & H4 & H5 & H6). destruct Ht. constructor; try done.
  - by rewrite fmap_app in *.
  - by rewrite !fmap_app in *.
  - rewrite Forall_app, Forall_cons in *. tauto.
  - by rewrite H6.
Qed.

(** there is room for one more item *)
Lemma insert_in_room la lb : l = la ++ lb → below cmp key la.*1 → above cmp key lb.*1 → len l < lmax →
  ∃ s', (leaf_insert q (len la) key v ;;; mark_dirty q ;;; ret SUCCESS) s = Some (SUCCESS, s') ∧ changes 0 [q] s s' ∧ tree_at s' (A ++ ((k, q), la ++ (key, v) :: lb) :: B) lvls root.
Proof.
  intros El Ha Hb Hroom. pose proof leaf_node as Hat. rewrite El in Hat, Hroom. pose proof (Hlen _ Hk) as Hkl.
  destruct (leaf_insert_ok h Hix [] s q p _ la lb key v Hat Hkl Hv Hroom) as (s1 & E1 & C1 & H1). run E1.
  destruct (dirty_ok h [] s1 q _ H1) as (s2 & E2 & C2 & H2). run E2. exists s2. split; [done|]. assert (C : changes 0 [q] s s2) by (by apply (changes_trans [q] [q] [q] 0 0 s s1 s2)). split; [done|].
  assert (Hsz : leaf_sized (is_top lvls) ((k, q), la ++ (key, v) :: lb)).
  { pose proof (ta_sized _ _ _ _ Ht) as Hs. rewrite Forall_app, Forall_cons in Hs. destruct Hs as (_ & Hs & _). unfold leaf_sized in *. cbn [snd] in *. rewrite El in Hs. rewrite len_app in *. unfold len in *. cbn [length] in *. lia. }
  pose proof (ta_sorted _ _ _ _ Ht) as Hsrt. rewrite El in Hsrt. apply (leaf_replaced _ _ C H2); [by apply (sorted_insert A (k, q) la lb B key v)|done].
Qed.

(** *** A full leaf is split *)

(** the new item goes into the half it belongs to *)
Lemma insert_half la lb l1 l2 s0 new : l1 ++ l2 = la ++ lb → at_node s0 q (LeafOf p new l1) → at_node s0 new (LeafOf p (first_page B (-1)) l2) → q ≠ new → len l1 < lmax → len l2 < lmax →
  ∃ s' g1 g2, (if len la <? len l1 then leaf_insert q (len la) key v else leaf_insert new (len la - len l1) key v) s0 = Some (SUCCESS, s') ∧ changes 0 [new; q] s0 s' ∧
    g1 ++ g2 = la ++ (key, v) :: lb ∧ len l1 ≤ len g1 ≤ len l1 + 1 ∧ len l2 ≤ len g2 ≤ len l2 + 1 ∧ at_node s' q (LeafOf p new g1) ∧ at_node s' new (LeafOf p (first_page B (-1)) g2).
Proof.
  intros E H1 H2 Hne Hl1 Hl2. pose proof (Hlen _ Hk) as Hkl. destruct (len la <? len l1) eqn:Hi; zbool.
  - assert (∃ d, l1 = la ++ d ∧ lb = d ++ l2) as (d & -> & ->).
    { apply app_eq_inv in E as [(d & -> & ->)|(d & -> & _)]; [by exists d|]. exfalso. rewrite len_app in Hi. pose proof (len_pos d). lia. }
    destruct (leaf_insert_ok h Hix [] s0 q p new la d key v H1 Hkl Hv Hl1) as (s1 & E1 & C1 & H3). exists s1, (la ++ (key, v) :: d), l2. split; [done|].
    split; [apply (changes_weaken [q]); [clear; set_solver|done]|]. split; [by rewrite <-app_assoc|]. rewrite !len_app. unfold len. cbn [length]. split; [lia|]. split; [lia|]. split; [done|]. eapply at_node_changes; [exact C1|clear - Hne; set_solver|done].
  - assert (∃ d, l2 = d ++ lb ∧ la = l1 ++ d) as (d & -> & ->).
    { apply app_eq_inv in E as [(d & -> & ->)|(d & -> & ->)]; [|by exists d]. exists []. rewrite len_app in Hi. destruct d; [by rewrite !app_nil_r|]. unfold len in Hi. cbn in Hi. lia. }
    replace (len (l1 ++ d) - len l1) with (len d) by (rewrite len_app; lia).
    destruct (leaf_insert_ok h Hix [] s0 new p (first_page B (-1)) d lb key v H2 Hkl Hv Hl2) as (s1 & E1 & C1 & H3). exists s1, l1, (d ++ (key, v) :: lb). split; [done|].
    split; [apply (changes_weaken [new]); [clear; set_solver|done]|]. split; [by rewrite <-app_assoc|]. rewrite !len_app. unfold len. cbn [length]. split; [lia|]. split; [lia|]. split; [|done]. eapply at_node_changes; [exact C1|clear - Hne; set_solver|done].
Qed.

Lemma split_full la lb : l = la ++ lb → len l = lmax → (0 < free s)%nat →
  ∃ s' new g1 kv g2, (let* sp := split LeafNode q in
      if OB_FAIL sp.1 then ret sp.1
      else
        let* next := next_page q in
        set_next_page sp.2 next ;;;
        let* parent := parent_page_num q in
        set_parent_page_num sp.2 parent ;;;
        set_next_page q sp.2 ;;;
        let* k := size q in
        (if len la <? k then leaf_insert q (len la) key v else leaf_insert sp.2 (len la - k) key v) ;;;
        let* sep := key_at LeafNode sp.2 0 in
        insert_entry_into_parent n q sp.2 sep) s = insert_entry_into_parent n q new kv.1 s' ∧
    changes 1 [new; q] s s' ∧ pages s !! new = None ∧ g1 ++ kv :: g2 = la ++ (key, v) :: lb ∧ g1 ≠ [] ∧ leaf_sized false ((k, q), g1) ∧ leaf_sized false ((kv.1, new), kv :: g2) ∧
    at_node s' q (LeafOf p new g1) ∧ at_node s' new (LeafOf p (first_page B (-1)) (kv :: g2)).
Proof.
  intros El Hfull Hf. pose proof leaf_node as Hat. pose proof lmax_half as Hhalf. set (nx := first_page B (-1)) in *.
  destruct (cut (Z.quot lmax 2) l) as (l1 & l2 & E & L1); [lia|]. assert (L2 : len l2 = lmax - Z.quot lmax 2) by (rewrite E, len_app in Hfull; lia). rewrite E in Hat.
  destruct (split_leaf_ok h Hix [] s q p nx l1 l2 Hat Hf) as (s1 & new & E1 & C1 & Hnone & Hq1 & Hn1); [rewrite <-E, Hfull; done|lia|].
  assert (Hne : q ≠ new) by (intros ->; destruct (stored_exists _ _ _ _ Hst); congruence). pose proof (page_int32 _ _ _ (proj1 (proj1 Hn1)) (stored_exists _ _ _ _ (proj2 (proj2 Hn1)))) as Bn.
  run E1. cbn [fst snd]. change (OB_FAIL SUCCESS) with false. cbv iota. run (next_ok _ _ _ _ _ Hq1 p nx l1 eq_refl).
  assert (Bnx : in_int32 nx) by (destruct Hst as (g & _ & _ & Hok); apply Hok).
  destruct (set_next_ok h [] s1 new p (-1) l2 nx Hn1 Bnx) as (s2 & E2 & C2 & Hn2). run E2. assert (Hq2 : at_node s2 q (LeafOf p nx l1)) by (eapply at_node_changes; [exact C2|clear - Hne; set_solver|done]).
  run (parent_ok _ _ _ _ _ Hq2). cbn [parent_of]. destruct (set_parent_ok h [] s2 new _ p Hn2) as (s3 & E3 & C3 & Hn3); [apply (stored_int32 h s q _ Hst)|]. run E3. cbn [with_parent] in Hn3.
  assert (Hq3 : at_node s3 q (LeafOf p nx l1)) by (eapply at_node_changes; [exact C3|clear - Hne; set_solver|done]).
  destruct (set_next_ok h [] s3 q p nx l1 new Hq3) as (s4 & E4 & C4 & Hq4); [unfold in_int32; lia|]. run E4. assert (Hn4 : at_node s4 new (LeafOf p nx l2)) by (eapply at_node_changes; [exact C4|clear - Hne; set_solver|done]).
  run (size_ok _ _ _ _ _ Hq4). cbn [size_of].
  destruct (insert_half la lb l1 l2 s4 new) as (s5 & g1 & g2 & E5 & C5 & Eg & Lg1 & Lg2 & Hq5 & Hn5); [congruence|done|done|done|lia|lia|]. run E5.
  destruct g2 as [|[k0 v0] g2]; [unfold len in *; cbn in *; lia|]. pose proof (key_at_ok _ _ _ _ _ Hn5 0 k0 eq_refl) as E6. cbn [class_of] in E6. run E6.
  exists s5, new, g1, (k0, v0), g2. split; [done|]. split; [|split; [done|split; [done|split; [|split; [|split; [|done]]]]]].
  - set (X := [new; q]). apply (changes_trans X X X 1 0 s s1 s5); [done| |done|done]. apply (changes_trans X [new] X 0 0 s1 s2 s5); [done| |clear; set_solver|done]. apply (changes_trans X [new] X 0 0 s2 s3 s5); [done| |clear; set_solver|done].
    by apply (changes_trans X [q] X 0 0 s3 s4 s5); [| |clear; set_solver|].
  - intros ->. unfold len in *. cbn in *. lia.
  - unfold leaf_sized. cbn [snd]. lia.
  - unfold leaf_sized. cbn [snd]. lia.
Qed.

(** the halves find their place in the levels above *)
Lemma split_grown la lb : l = la ++ lb → below cmp key la.*1 → above cmp key lb.*1 → len l = lmax → (S (S (length lvls)) ≤ free s)%nat → (length lvls < n)%nat → ∀ s1 new g1 kv g2,
  changes 1 [new; q] s s1 → pages s !! new = None → g1 ++ kv :: g2 = la ++ (key, v) :: lb → g1 ≠ [] → leaf_sized false ((k, q), g1) → leaf_sized false ((kv.1, new), kv :: g2) →
  at_node s1 q (LeafOf p new g1) → at_node s1 new (LeafOf p (first_page B (-1)) (kv :: g2)) →
  ∃ s' lvls' root' j X, insert_entry_into_parent n q new kv.1 s1 = Some (SUCCESS, s') ∧ changes j X s s' ∧ (j ≤ S (S (length lvls)))%nat ∧ (length lvls' ≤ S (length lvls))%nat ∧
    tree_at s' (A ++ ((k, q), g1) :: ((kv.1, new), kv :: g2) :: B) lvls' root'.
Proof.
  intros El Ha Hb Hfull Hf Hn s1 new g1 kv g2 C1 Hnone Eg Hg1 Hz1 Hz2 Hq1 Hn1. pose proof Ht as [].
  assert (Hnew : ∀ r, is_Some (pages s !! r) → r ≠ new) by (intros r [? ?] ->; congruence).
  assert (Hsrt : sorted_leaves (valid := valid) (cmp := cmp) (A ++ ((k, q), g1) :: ((kv.1, new), kv :: g2) :: B)).
  { apply sorted_split; [done|]. rewrite Eg. rewrite El in ta_sorted0. by apply (sorted_insert A (k, q) la lb B key v). }
  pose proof (sorted_seps _ Hsrt) as Hseps.
  assert (Hex : ∀ r, r ∈ FIRST_INDEX_PAGE :: ls.*1.*2 ++ level_pages lvls → is_Some (pages s !! r)).
  { intros r [->|[Hr'|Hr']%elem_of_app]%elem_of_cons; [destruct ta_header0 as (g & rest & Hg & _); eauto| |by apply (levels_stored_exists h _ _ r ta_lvls0)]. apply (level_stored_exists h _ _ _ r ta_leaves0). by rewrite leaf_nodes_pages. }
  assert (HX : ∀ r, r ∈ FIRST_INDEX_PAGE :: A.*1.*2 ++ B.*1.*2 ++ level_pages lvls → r ∉ [new; q]).
  { intros r Hr' [->|Hq%list_elem_of_singleton]%elem_of_cons.
    - apply (Hnew new); [apply Hex|done]. rewrite !fmap_app. cbn. clear - Hr'. set_solver.
    - subst r. clear - ta_pages0 Hr'. rewrite !fmap_app in ta_pages0. cbn in ta_pages0. apply NoDup_cons in ta_pages0 as [M1 (M2 & M3 & _)%NoDup_app]. apply NoDup_app in M2 as (_ & M4 & (M5 & _)%NoDup_cons). set_solver. }
  assert (H1 : FIRST_INDEX_PAGE ∉ [new; q]) by (apply HX; left). pose proof (ch_header _ _ _ _ C1 H1) as Eh1.
  assert (Hpe : pending h valid [] s1 lvls A.*1 k q B.*1 kv.1 new (leaf_nodes A q) (LeafOf 0 new g1) (leaf_nodes B (-1)) (LeafOf p (first_page B (-1)) (kv :: g2)) root).
  { constructor.
    - apply Hq1.
    - pose proof (ch_free _ _ _ _ C1). lia.
    - by apply (header_page_changes 1 [new; q] s).
    - intros Hl. destruct (ch_latched _ _ _ _ C1 _ Hl) as [Hl'|(r & Hr' & [= <-])]; [|done]. apply NoDup_cons in ta_pages0 as [M _]. apply M. pose proof (Hlat _ Hl') as Hin. rewrite !fmap_app. cbn. clear - Hin. set_solver.
    - by rewrite Eh1.
    - rewrite fmap_app in ta_levels0. exact ta_levels0.
    - apply leaf_nodes_pages.
    - apply leaf_nodes_pages.
    - rewrite leaf_nodes_app, Ep in *. cbn in ta_leaves0. eapply (level_stored_node h 1 [new; q] s s1 (leaf_nodes A q) q (LeafOf 0 (first_page B (-1)) l)); [done|done|done| |apply Hq1].
      intros r Hr'. rewrite !leaf_nodes_pages in Hr'. apply HX. clear - Hr'. set_solver.
    - apply (levels_stored_changes h 1 [new; q] s); [done| |done]. intros r Hr'. apply HX. clear - Hr'. set_solver.
    - apply Hn1.
    - split; [apply Hq1|apply Hn1].
    - rewrite fmap_app in ta_pages0, Hex. apply NoDup_cons in ta_pages0 as [M1 M2]. apply NoDup_cons. split; [|apply NoDup_cons; split; [|exact M2]].
      + intros [E1|Hr']%elem_of_cons; [|by apply M1]. by apply (Hnew FIRST_INDEX_PAGE); [apply Hex; left|].
      + intros Hr'. apply (Hnew new); [|done]. apply Hex. by right.
    - assert (Hs2 : ascending valid cmp (kv :: g2).*1) by (apply (sorted_leaf (A ++ [((k, q), g1)]) (kv.1, new) (kv :: g2) B); by rewrite <-app_assoc). by apply ascending_cons in Hs2 as [Hs2 _].
    - rewrite fmap_app in Hseps. rewrite !fmap_app in Hseps |- *. exact Hseps. }
  destruct (insert_into_parent_ok h Hix valid Hlen lvls n _ _ _ _ _ _ _ _ _ _ _ _ _ Hn Hpe) as (s' & lvls' & root' & E & G).
  destruct G, gr_changes as (j & C2 & Hj). match type of C2 with BplusOps.changes _ ?Y _ _ => set (Y0 := Y) in C2 end. exists s', lvls', root', (1 + j)%nat, ([new; q] ++ Y0). split; [exact E|].
  split; [apply (changes_trans _ [new; q] Y0 1 j s s1 s'); [exact C1|exact C2|intros r Hr'; apply elem_of_app; by left|intros r Hr'; apply elem_of_app; by right]|]. split; [lia|]. split; [done|].
  constructor; [by rewrite fmap_app| |done| |done| |by rewrite gr_root; destruct (tree_header s1)|done].
  - rewrite leaf_nodes_app. cbn. assert (Hlow : level_stored s' ((leaf_nodes A q ++ [(q, LeafOf 0 new g1)]) ++ (new, LeafOf p (first_page B (-1)) (kv :: g2)) :: leaf_nodes B (-1)) (pars lvls')) by (by rewrite <-app_assoc).
    apply (level_stored_with h _ _ _ _ (LeafOf 0 (first_page B (-1)) (kv :: g2))) in Hlow; [|done]. rewrite <-app_assoc in Hlow. exact Hlow.
  - apply NoDup_cons in ta_pages0 as [M1 M2]. apply NoDup_app in M2 as (M2 & M3 & _). rewrite !fmap_app in *. cbn in M1, M2, M3, Hex |- *.
    assert (Hold : ∀ r, is_Some (pages s !! r) → r ∈ level_pages lvls' → r ∈ level_pages lvls). { intros r Hr' Hl. destruct (gr_fresh r Hl) as [|E1]; [done|]. destruct (ch_exists _ _ _ _ C1 r Hr') as [? ?]. congruence. }
    apply NoDup_cons. split; [|apply NoDup_app; split; [|split; [|done]]].
    + intros Hr'. assert (Hf1 : FIRST_INDEX_PAGE ∈ level_pages lvls' → False) by (intros Hl; apply M1, elem_of_app; right; apply Hold; [apply Hex; left|done]). pose proof (Hnew FIRST_INDEX_PAGE (Hex _ (list_elem_of_here _ _))) as Hn1'. clear - M1 Hf1 Hr' Hn1'. set_solver.
    + assert (Hn' : new ∉ A.*1.*2 ++ q :: B.*1.*2) by (intros Hr'; apply (Hnew new); [apply Hex; right; apply elem_of_app; by left|done]). clear - M2 Hn'. apply NoDup_app in M2 as (N1 & N2 & (N3 & N4)%NoDup_cons).
      apply NoDup_app. split; [done|]. split; [set_solver|]. apply NoDup_cons. split; [set_solver|]. apply NoDup_cons. split; [set_solver|done].
    + intros r Hr' Hl. destruct (decide (r = new)) as [->|Hne].
      * destruct (gr_fresh new Hl) as [Hl'|E1]; [apply (Hnew new); [apply Hex; right; apply elem_of_app; by right|done]|]. destruct (stored_exists _ _ _ _ (proj2 (proj2 Hn1))) as [? ?]. congruence.
      * assert (Hr2 : r ∈ A.*1.*2 ++ q :: B.*1.*2) by (clear - Hr' Hne; set_solver). apply (M3 r Hr2). apply Hold; [apply Hex; right; apply elem_of_app; by left|done].
  - replace (is_top lvls') with false by (by destruct lvls'). destruct (only_leaf _ _ _ _ _ ta_levels0 ta_sized0). by rewrite Forall_app, !Forall_cons.
Qed.

Lemma insert_leaf_ok : (S (S (length lvls)) ≤ free s)%nat → (length lvls < n)%nat →
  if has_key cmp key (contents ls) then insert_entry_into_leaf_node n q key v s = Some (RECORD_DUPLICATE_KEY, s)
  else ∃ s' ls' lvls' root' j X, insert_entry_into_leaf_node n q key v s = Some (SUCCESS, s') ∧ changes j X s s' ∧ (j ≤ S (S (length lvls)))%nat ∧ (length lvls' ≤ S (length lvls))%nat ∧
    tree_at s' ls' lvls' root' ∧ contents ls' = insert_sorted cmp (key, v) (contents ls).
Proof.
  intros Hf Hn. pose proof Ht as []. pose proof leaf_node as Hat. pose proof (sorted_leaf _ _ _ _ ta_sorted0) as Hl.
  destruct (leaf_lookup_ok h valid [] s q p _ l key Hat Hk Hl) as (i & b & E & Hloc). rewrite (covered_has_key A (k, q) l B key ta_sorted0 Hk Hc), (has_key_located _ _ _ _ _ Hloc).
  unfold insert_entry_into_leaf_node. run E. cbn [fst snd]. destruct b; [done|].
  inversion Hloc as [|ks1 ks2 El Ha Hb Ei]; subst i. apply fmap_app_inv in El as (la & lb & -> & -> & El). rewrite len_fmap in *.
  pose proof ta_sorted0 as Hsrt. rewrite El in Hsrt. destruct (sorted_insert A (k, q) la lb B key v Hsrt Hk Hc Ha Hb) as [_ Ec]. rewrite <-El in Ec.
  run (size_ok _ _ _ _ _ Hat). run (max_size_ok _ _ _ _ _ Hat). cbn [size_of max_of]. destruct (len l <? lmax) eqn:Hroom; zbool.
  - destruct (insert_in_room la lb El Ha Hb Hroom) as (s' & E1 & C & Ht'). exists s', (A ++ ((k, q), la ++ (key, v) :: lb) :: B), lvls, root, 0%nat, [q]. split; [exact E1|]. split; [done|]. split; [lia|]. split; [lia|]. by split.
  - assert (Hfull : len l = lmax). { rewrite Forall_app, Forall_cons in ta_sized0. destruct ta_sized0 as (_ & [_ Hs] & _). cbn in Hs. lia. }
    destruct (split_full la lb El Hfull ltac:(lia)) as (s1 & new & g1 & kv & g2 & E1 & C1 & Hnone & Eg & Hg1 & Hz1 & Hz2 & Hq1 & Hn1).
    destruct (split_grown la lb El Ha Hb Hfull Hf Hn s1 new g1 kv g2 C1 Hnone Eg Hg1 Hz1 Hz2 Hq1 Hn1) as (s' & lvls' & root' & j & X & E2 & C2 & Hj & Hlv & Ht').
    exists s', (A ++ ((k, q), g1) :: ((kv.1, new), kv :: g2) :: B), lvls', root', j, X. split; [rewrite <-E2; exact E1|]. split; [done|]. split; [done|]. split; [done|]. split; [done|].
    rewrite <-Ec, !contents_app, !contents_cons. cbn [snd]. by rewrite <-Eg, <-!app_assoc.
Qed.
End at_leaf.
End leaf.
