(* ===== verification/BplusMtr.v ===== *)
(** * BplusMtr: the mini transaction around an operation

    When the operation succeeds its entries go to the log, the pages they name get the number
    of the log entry, and the memo is released. What the pages hold stays the same. *)
From S2P Require Import Prelude Types Encoding LogHandler KeyCompare LatchMemo LatchMemoSpec BplusNode BplusLog BplusNodeSpec BplusOps BplusNodeOps BplusRoot.

Section mtr.
Context {P : Type} `{TL : TreePoolLaws P}.
Abbreviation St := (Memo P TreeState).
Implicit Types (s : St) (pn q : PageNum) (ex : list LatchMemoItem).

Definition data_at s q : option (list Z) := tpg_data <$> pages s !! q.

(** only the log numbers of pages and the entries change *)
Record settles s s' : Prop := {
  st_pool : tp_ok (m_pool s) → tp_ok (m_pool s');
  st_id : tp_id (m_pool s') = tp_id (m_pool s);
  st_memory : ∀ q, tp_memory (m_pool s) q → tp_memory (m_pool s') q;
  st_pins : pins s' = pins s;
  st_free : free s' = free s;
  st_locks : m_locks s' = m_locks s;
  st_items : items_ s' = items_ s;
  st_disposed : disposed_pages_ s' = disposed_pages_ s;
  st_header : tree_header s' = tree_header s;
  st_opened : opened_ (m_client s') = opened_ (m_client s);
  st_data : ∀ q, data_at s' q = data_at s q;
}.
Lemma settles_refl s : settles s s.
Proof. by constructor. Qed.
Lemma settles_trans s1 s2 s3 : settles s1 s2 → settles s2 s3 → settles s1 s3.
Proof. intros [] []. constructor; try congruence; auto. Qed.
Lemma settles_client s f : file_header_ (f (m_client s)) = file_header_ (m_client s) → opened_ (f (m_client s)) = opened_ (m_client s) → settles s (with_client (f (m_client s)) s).
Proof. intros E1 E2. by constructor. Qed.
Lemma settles_memo ex s s' : settles s s' → memo_ok ex s → memo_ok ex s'.
Proof. intros [] [[] Hty Ho1 Ho2]. constructor; rewrite ?st_items0; try done. constructor; rewrite ?st_pins0, ?st_locks0; auto. Qed.
Lemma data_exists s s' q : data_at s' q = data_at s q → is_Some (pages s !! q) → is_Some (pages s' !! q).
Proof. unfold data_at. intros E [g Hg]. rewrite Hg in E. cbn in E. destruct (pages s' !! q); [eauto|done]. Qed.
Lemma settles_in_memory s s' q : settles s s' → in_memory s q → in_memory s' q.
Proof. intros [] [H1 H2]. split; [auto|]. by apply (data_exists s). Qed.

Lemma set_lsns_ok l (es : list LogEntryHandler) s : tp_ok (m_pool s) → (∀ e, e ∈ es → in_memory s (entry_frame e)) →
  ∃ s', forM es (λ e, on_pool (tp_set_lsn (entry_frame e) l)) s = Some (tt, s') ∧ settles s s' ∧ m_client s' = m_client s.
Proof.
  revert s. induction es as [|e es IH]; intros s Hok Hes; [exists s; split; [done|]; split; [apply settles_refl|done]|].
  destruct (Hes e ltac:(left)) as [Hm [g Hg]]. destruct (tp_set_lsn_ok _ _ g l Hok Hm Hg) as (p' & E & Hok' & Hid & Hv & Hmem).
  assert (Hs1 : settles s (with_pool p' s)).
  { constructor; try done; unfold pins, free, data_at, pages; cbn [m_pool with_pool]; rewrite Hv; try done. intros q. cbn. destruct (decide (q = entry_frame e)) as [->|]; [change (v_pages (tp_view (m_pool s))) with (pages s); by rewrite lookup_insert_eq, Hg|by rewrite lookup_insert_ne]. }
  cbn [forM]. assert (E1 : on_pool (tp_set_lsn (entry_frame e) l) s = Some (tt, with_pool p' s)) by (unfold on_pool; by rewrite E). rewrite (bind_eq _ _ _ _ _ E1).
  destruct (IH (with_pool p' s) Hok') as (s' & E2 & H2 & H3); [intros e' He'; apply (settles_in_memory s); [done|apply Hes; by right]|].
  exists s'. split; [done|]. split; [by apply (settles_trans _ (with_pool p' s))|done].
Qed.

(** the entries that are left when the log could not be written are thrown away *)
Lemma tree_commit_ok s : tp_ok (m_pool s) → (∀ e, e ∈ entries_ (m_client s) → in_memory s (entry_frame e)) →
  ∃ rc s', commit s = Some (rc, s') ∧ settles s s' ∧ entries_ (m_client s') ⊆ entries_ (m_client s).
Proof.
  intros Hok Hes. unfold commit. assert (E0 : tree_state s = Some (m_client s, s)) by done. rewrite (bind_eq _ _ _ _ _ E0).
  destruct (entries_ (m_client s)) as [|e es] eqn:Ee; [exists SUCCESS, s; split; [done|]; split; [apply settles_refl|by rewrite Ee]|]. rewrite <-Ee in *. rewrite bind_get.
  destruct (tp_append_ok (m_pool s) (mtr_payload (tp_id (m_pool s)) (entries_ (m_client s))) Hok) as (rc & lsn & p' & E & Hok' & Hid & Hv & Hmem).
  assert (Hs1 : settles s (with_pool p' s)) by (constructor; try done; unfold pins, free, data_at, pages; cbn [m_pool with_pool]; by rewrite Hv).
  assert (E1 : on_pool (tp_append (mtr_payload (tp_id (m_pool s)) (entries_ (m_client s)))) s = Some ((rc, lsn), with_pool p' s)) by (unfold on_pool; by rewrite E). rewrite (bind_eq _ _ _ _ _ E1). cbn [fst snd].
  destruct (bool_decide (rc = SUCCESS)) eqn:Erc; cbn [negb]; [|exists rc, (with_pool p' s); split; [done|]; by split].
  destruct (set_lsns_ok lsn (entries_ (m_client s)) (with_pool p' s) Hok') as (s2 & E2 & H2 & Ec); [intros e' He'; apply (settles_in_memory s); auto|]. rewrite (bind_eq _ _ _ _ _ E2). unfold set_tree. rewrite bind_modify.
  exists SUCCESS. eexists. split; [done|]. split; [|cbn; set_solver]. apply (settles_trans _ (with_pool p' s)); [done|]. apply (settles_trans _ s2); [done|]. by apply settles_client.
Qed.

(** the end of a mini transaction; a failed operation that changed nothing has nothing to undo *)
Lemma end_mtr_ok rc s : memo_ok [] s → (∀ e, e ∈ entries_ (m_client s) → in_memory s (entry_frame e)) → rc = SUCCESS ∨ entries_ (m_client s) = [] →
  NoDup (disposed_pages_ s) → (∀ pn, pn ∈ disposed_pages_ s → is_Some (pages s !! pn)) →
  ∃ s', end_mtr (Some rc) s = Some (tt, s') ∧ idle s' ∧ items_ s' = [] ∧ disposed_pages_ s' = [] ∧ tree_header s' = tree_header s ∧ opened_ (m_client s') = opened_ (m_client s) ∧
    tp_id (m_pool s') = tp_id (m_pool s) ∧ (free s ≤ free s')%nat ∧ (∀ q, data_at s' q = if decide (q ∈ disposed_pages_ s) then None else data_at s q).
Proof.
  intros Hm Hes Hrc Hnd Hex. assert (E : ∃ s1, (if OB_SUCC rc then commit ;;; ret tt else rollback ;;; ret tt) s = Some (tt, s1) ∧ settles s s1 ∧ entries_ (m_client s1) ⊆ entries_ (m_client s)).
  { destruct (OB_SUCC rc) eqn:Erc.
    - destruct (tree_commit_ok s (mo_pool _ _ Hm) Hes) as (rc1 & s1 & E & H1 & H2). exists s1. rewrite (bind_eq _ _ _ _ _ E). done.
    - destruct Hrc as [->|He]; [done|]. eexists. split; [|split].
      + unfold rollback, set_tree. rewrite !bind_assoc. unfold modify at 1. rewrite (bind_eq _ _ _ tt _ eq_refl). unfold tree_state. rewrite !bind_assoc. rewrite (bind_eq _ _ _ _ _ eq_refl). cbn [m_client with_client with_need_log entries_]. rewrite He. cbn. reflexivity.
      + by constructor.
      + cbn. by rewrite He. }
  destruct E as (s1 & E1 & S1 & I1). unfold end_mtr. rewrite (bind_eq _ _ _ _ _ E1).
  destruct (tree_commit_ok s1 (st_pool _ _ S1 (mo_pool _ _ Hm))) as (rc2 & s2 & E2 & S2 & _); [intros e He; apply (settles_in_memory s); auto|]. rewrite (bind_eq _ _ _ _ _ E2).
  pose proof (settles_trans _ _ _ S1 S2) as S. pose proof (settles_memo _ _ _ S Hm) as M2.
  destruct (release_ok s2 M2) as (s3 & E3 & Hi & H1 & H2 & H3 & H4 & H5 & H6); [by rewrite (st_disposed _ _ S)|intros pn; rewrite (st_disposed _ _ S); intros Hpn; apply (data_exists s); [apply S|auto]|].
  exists s3. split; [done|]. split; [done|]. split; [done|]. split; [done|]. unfold tree_header. rewrite H3, H4. split; [apply S|]. split; [apply S|]. split; [apply S|]. split; [rewrite <-(st_free _ _ S); done|].
  intros q. unfold data_at at 1. rewrite H6, (st_disposed _ _ S). case_decide; [done|]. apply S.
Qed.
End mtr.
