(* ===== verification/BplusGive.v ===== *)
(** * BplusGive: items that are removed, or given to a neighbour

    A node that has become too small takes an item from a neighbour or all of its items. Items
    of inner nodes bring their children along. *)
From stdpp Require Import sorting.
From S2P Require Import Prelude Types Encoding KeyCompare LowerBound LatchMemo LatchMemoSpec BplusNode BplusLog BplusNodeSpec BplusOps BplusNodeOps BplusMoves BplusTree.

Section give.
Context {P : Type} `{TL : TreePoolLaws P}.
Context (h : IndexFileHeader).
Abbreviation St := (Memo P TreeState).
Context (Hix : index_ok h).
Implicit Types (s : St) (pn q : PageNum) (N : Node) (ex : list LatchMemoItem).
Abbreviation at_node := (at_node h).
Abbreviation ready := (ready h).
Abbreviation stored := (stored h).
Abbreviation kids_stored := (kids_stored h).

Lemma changes_one k X s s1 s2 : changes k X s s1 → changes 0 X s1 s2 → changes k X s s2.
Proof. intros C1 C2. replace k with (k + 0)%nat by lia. by apply (changes_trans X X X k 0 s s1 s2). Qed.

(** ** One item goes away *)

(** the part that leaves and inner nodes have in common *)
Lemma remove_item_ok ex s pn N N' r1 item r2 : at_node ex s pn N → raws_of N = r1 ++ item :: r2 → raws_of N' = r1 ++ r2 → same_head N N' → node_ok h N' →
  ∃ s1 s2, in_node pn (len r1) s = Some (tt, s) ∧ items_at (class_of N) pn (len r1) 1 s = Some (item, s) ∧
    append_log_entry (NormalOperationLogEntryHandler pn false (len r1) item 1) s = Some (SUCCESS, s1) ∧
    recover_remove_items (class_of N) pn (len r1) 1 s1 = Some (SUCCESS, s2) ∧ changes 0 [pn] s s2 ∧ at_node ex s2 pn N'.
Proof.
  intros Hat E1 E2 Hh Hok. destruct (log_ok _ _ _ _ _ Hat (NormalOperationLogEntryHandler pn false (len r1) item 1) eq_refl) as (s1 & Es1 & C1 & H1).
  destruct (recover_remove_ok _ _ _ _ _ H1 N' r1 [item] r2 (len r1) 1 E1 E2 Hh Hok eq_refl eq_refl) as (s2 & Es2 & C2 & H2). exists s1, s2.
  split; [apply (in_node_ok _ _ _ _ _ Hat); rewrite <-len_raws, E1, len_app; unfold len; cbn [length]; lia|].
  split; [rewrite (items_at_ok _ _ _ _ _ Hat r1 [item] r2 (len r1) 1 E1 eq_refl eq_refl); do 2 f_equal; unfold mjoin; cbn; apply app_nil_r|].
  split; [done|]. split; [done|]. split; [by apply (changes_one 0 _ s s1)|done].
Qed.
Lemma leaf_remove_ok ex s pn p nx l1 kv l2 : at_node ex s pn (LeafOf p nx (l1 ++ kv :: l2)) →
  ∃ s', leaf_remove pn (len l1) s = Some (SUCCESS, s') ∧ changes 0 [pn] s s' ∧ at_node ex s' pn (LeafOf p nx (l1 ++ l2)).
Proof.
  intros Hat. destruct (stored_at _ _ _ _ _ Hat) as (d & _ & _ & Hnx & Hok). rewrite Forall_app, Forall_cons in Hok.
  destruct (remove_item_ok ex s pn _ (LeafOf p nx (l1 ++ l2)) (item_bytes <$> l1) (item_bytes kv) (item_bytes <$> l2) Hat) as (s1 & s2 & E1 & E2 & E3 & E4 & C & H2); [cbn [raws_of]; by rewrite fmap_app|cbn [raws_of]; by rewrite fmap_app|done|split; [done|apply Forall_app; tauto]|].
  rewrite len_fmap in *. cbn [class_of] in *. unfold leaf_remove. run E1. run E2. run E3. run E4. by exists s2.
Qed.
Lemma internal_remove_ok ex s pn p l1 kq l2 : at_node ex s pn (InnerOf p (l1 ++ kq :: l2)) →
  ∃ s', internal_remove pn (len l1) s = Some (tt, s') ∧ changes 0 [pn] s s' ∧ at_node ex s' pn (InnerOf p (l1 ++ l2)).
Proof.
  intros Hat. destruct (stored_at _ _ _ _ _ Hat) as (d & _ & _ & Hok). cbn [node_ok] in Hok. rewrite Forall_app, Forall_cons in Hok.
  destruct (remove_item_ok ex s pn _ (InnerOf p (l1 ++ l2)) (kid_bytes <$> l1) (kid_bytes kq) (kid_bytes <$> l2) Hat) as (s1 & s2 & E1 & E2 & E3 & E4 & C & H2); [cbn [raws_of]; by rewrite fmap_app|cbn [raws_of]; by rewrite fmap_app|done|apply Forall_app; tauto|].
  rewrite len_fmap in *. cbn [class_of] in *. unfold internal_remove. run E1. run E2. run E3. run E4. by exists s2.
Qed.
(** another key for a child *)
Lemma set_key_ok ex s pn p l1 k q l2 key : at_node ex s pn (InnerOf p (l1 ++ (k, q) :: l2)) → len key = key_length h →
  ∃ s', set_key_at pn (len l1) key s = Some (tt, s') ∧ changes 0 [pn] s s' ∧ at_node ex s' pn (InnerOf p (l1 ++ (key, q) :: l2)).
Proof.
  intros Hat Hk. set (N := InnerOf p (l1 ++ (k, q) :: l2)) in *. assert (Hi : rd (keys_of N) (len l1) = Some k) by apply rd_middle.
  unfold set_key_at. assert (Hin : 0 ≤ len l1 < size_of N) by (unfold N; cbn [size_of]; rewrite len_app; unfold len; cbn [length]; lia).
  run (in_node_ok _ _ _ _ _ Hat _ Hin). run (file_header_ok s). destruct (proj2 (proj1 Hat)) as [r Hlike]. rewrite Hlike. change (key_size (with_root r h)) with (key_length h).
  rewrite <-Hk, (bind_liftO _ _ _ _ (mem_read_all key)). run (raw_key_ok _ _ _ _ _ Hat _ _ Hi).
  destruct (log_ok _ _ _ _ _ Hat (InternalUpdateKeyLogEntryHandler pn (len l1) key k) eq_refl) as (s1 & E1 & C1 & H1). run E1.
  destruct (stored_at _ _ _ _ _ H1) as (d & Ha & Hn & Hok). cbn [node_ok N] in Hok. rewrite Forall_app, Forall_cons in Hok. destruct Hok as (Ho1 & [Hkl Hq] & Ho2). cbn [fst snd] in *.
  cbn [flag_of parent_of next_bytes raws_of class_of N] in Hn. destruct (raw_split _ _ _ _ _ _ Hn (kid_bytes <$> l1) (kid_bytes <$> (k, q) :: l2)) as (pad & junk & Hpad & Hd & Hpre); [by rewrite fmap_app|].
  destruct Hn as (_ & _ & _ & _ & Hip & Hr & Hs). rewrite (len_fmap kid_bytes l1) in Hpre. set (raws := kid_bytes <$> l1 ++ (k, q) :: l2) in *. set (raws' := kid_bytes <$> l1 ++ (key, q) :: l2).
  assert (El : len raws' = len raws) by (unfold raws, raws'; rewrite !len_fmap, !len_app; done).
  set (pre := ([0] ++ pad) ++ enc32 (len raws) ++ enc32 p ++ [] ++ bytes_of (kid_bytes <$> l1)) in *.
  change (bytes_of (kid_bytes <$> (k, q) :: l2)) with ((k ++ enc32 q) ++ bytes_of (kid_bytes <$> l2)) in Hd. rewrite <-!app_assoc in Hd.
  assert (Ew : mem_write d (12 + len l1 * item_size InternalNode h) key = Some (pre ++ key ++ enc32 q ++ bytes_of (kid_bytes <$> l2) ++ junk)).
  { rewrite Hd. replace (12 + len l1 * item_size InternalNode h) with (len pre) by (rewrite Hpre; change (len (@nil Z)) with 0; lia). apply mem_write_app. lia. }
  change (item_at InternalNode (with_root r h) (len l1)) with (Some (12 + len l1 * item_size InternalNode h)). destruct (memcpy_at _ _ _ _ _ _ Ha Ew) as (s2 & E2 & Hw). rewrite E2. exists s2. split; [done|].
  destruct (wrote_at_node h ex pn N _ s1 s2 (InnerOf p (l1 ++ (key, q) :: l2)) H1 Hw) as [C2 H2]; [|by split; [apply (changes_one 0 _ s s1)|]].
  split; [|cbn [node_ok]; rewrite Forall_app, Forall_cons; done]. exists pad, junk. cbn [flag_of parent_of next_bytes raws_of class_of]. fold raws'. rewrite El. split; [done|]. split; [|split; [done|split; [done|]]].
  - unfold pre, raws'. rewrite fmap_app, bytes_app. change (bytes_of (kid_bytes <$> (key, q) :: l2)) with ((key ++ enc32 q) ++ bytes_of (kid_bytes <$> l2)). by rewrite <-!app_assoc.
  - unfold raws, raws' in *. rewrite !fmap_app, !fmap_cons in *. unfold all_size in *. rewrite !Forall_app, !Forall_cons in *. destruct Hs as (? & Hs & ?). split; [done|]. split; [|done]. unfold kid_bytes in *. cbn [fst snd] in *. rewrite len_app in *. lia.
Qed.

(** ** Leaves *)

Lemma one_item (f : list Z * list Z → list Z) kv : bytes_of (f <$> [kv]) = f kv.
Proof. unfold mjoin. cbn. apply app_nil_r. Qed.
Lemma one_kid kq : bytes_of (kid_bytes <$> [kq]) = kid_bytes kq.
Proof. unfold mjoin. cbn. apply app_nil_r. Qed.
Lemma leaf_item_at ex s pn p nx l1 kv l2 i : at_node ex s pn (LeafOf p nx (l1 ++ kv :: l2)) → i = len l1 → items_at LeafNode pn i 1 s = Some (item_bytes kv, s).
Proof.
  intros Hat ->. rewrite <-one_item. apply (items_at_ok _ _ _ _ _ Hat (item_bytes <$> l1) (item_bytes <$> [kv]) (item_bytes <$> l2)); [cbn [raws_of]; by rewrite fmap_app|by rewrite len_fmap|done].
Qed.
Lemma leaf_all_items ex s pn p nx l : at_node ex s pn (LeafOf p nx l) → items_at LeafNode pn 0 (len l) s = Some (bytes_of (item_bytes <$> l), s).
Proof. intros Hat. apply (items_at_ok _ _ _ _ _ Hat [] (item_bytes <$> l) []); [cbn [raws_of app]; by rewrite app_nil_r|done|by rewrite len_fmap]. Qed.

Lemma leaf_first_ok ex s pn other p nx p' nx' kv l l' : at_node ex s pn (LeafOf p nx (kv :: l)) → at_node ex s other (LeafOf p' nx' l') → pn ≠ other → len l' < leaf_max_size h →
  ∃ s', leaf_move_first_to_end pn other s = Some (SUCCESS, s') ∧ changes 0 [pn; other] s s' ∧ at_node ex s' pn (LeafOf p nx l) ∧ at_node ex s' other (LeafOf p' nx' (l' ++ [kv])).
Proof.
  intros Hat Hother Hne Hroom. unfold leaf_move_first_to_end. run (leaf_item_at _ _ _ _ _ [] _ _ 0 Hat eq_refl).
  destruct (stored_at _ _ _ _ _ Hat) as (d & _ & _ & [_ Hok]). apply Forall_cons in Hok as [Hkv _]. destruct (stored_at _ _ _ _ _ Hother) as (d' & _ & _ & [Hnx' Hok']).
  destruct (leaf_append_ok h Hix ex s other p' nx' l' [kv] (item_bytes kv) 1 Hother) as (s1 & E1 & C1 & H1); [split; [done|]; apply Forall_app; split; [done|by constructor]|rewrite len_app; unfold len in *; cbn [length]; lia|by rewrite one_item|done|]. run E1.
  assert (Hat1 : at_node ex s1 pn (LeafOf p nx (kv :: l))) by keep C1. destruct (leaf_remove_ok ex s1 pn p nx [] kv l Hat1) as (s2 & E2 & C2 & H2). change (len (@nil (list Z * list Z))) with 0 in E2. rewrite E2.
  exists s2. split; [done|]. split; [apply (changes_trans [pn; other] [other] [pn] 0 0 s s1 s2); [done|done|set_solver|set_solver]|]. split; [done|]. keep C2.
Qed.

(** [preappend] passes the bytes of the whole item as the key *)
Lemma leaf_preappend_ok ex s pn p nx l k v : at_node ex s pn (LeafOf p nx l) → len k = key_length h → len v = 8 → len l < leaf_max_size h →
  ∃ s', leaf_preappend pn (k ++ v) s = Some (SUCCESS, s') ∧ changes 0 [pn] s s' ∧ at_node ex s' pn (LeafOf p nx ((k, v) :: l)).
Proof.
  intros Hat Hk Hv Hroom. destruct (leaf_insert_ok h Hix ex s pn p nx [] l k v Hat Hk Hv Hroom) as (s' & E & C & H'). exists s'. split; [|done]. rewrite <-E.
  unfold leaf_preappend. run (file_header_ok s). destruct (proj2 (proj1 Hat)) as [r Hlike]. rewrite Hlike. change (key_size (with_root r h)) with (key_length h). rewrite <-Hk. unfold len at 1. rewrite Nat2Z.id, drop_app_length.
  change (len (@nil (list Z * list Z))) with 0. unfold leaf_insert. rewrite !(bind_eq _ _ _ _ _ (file_header_ok s)), Hlike. change (key_size (with_root r h)) with (key_length h).
  rewrite (bind_liftO _ _ _ _ (mem_read_prefix k v (key_length h) (eq_sym Hk))), <-Hk, (bind_liftO _ _ _ _ (mem_read_all k)). done.
Qed.
Lemma leaf_last_ok ex s pn other p nx p' nx' l kv l' : at_node ex s pn (LeafOf p nx (l ++ [kv])) → at_node ex s other (LeafOf p' nx' l') → pn ≠ other → len l' < leaf_max_size h →
  ∃ s', leaf_move_last_to_front pn other s = Some (SUCCESS, s') ∧ changes 0 [pn; other] s s' ∧ at_node ex s' pn (LeafOf p nx l) ∧ at_node ex s' other (LeafOf p' nx' (kv :: l')).
Proof.
  intros Hat Hother Hne Hroom. unfold leaf_move_last_to_front. assert (El : len (l ++ [kv]) - 1 = len l) by (rewrite len_app; unfold len; cbn [length]; lia).
  run (size_ok _ _ _ _ _ Hat). cbn [size_of]. rewrite El. run (leaf_item_at _ _ _ _ _ l kv [] _ Hat eq_refl).
  destruct (stored_at _ _ _ _ _ Hat) as (d & _ & _ & [_ Hok]). apply Forall_app in Hok as [_ Hok]. apply Forall_cons in Hok as [[Hk Hv] _]. destruct kv as [k v].
  destruct (leaf_preappend_ok ex s other p' nx' l' k v Hother Hk Hv Hroom) as (s1 & E1 & C1 & H1). change (item_bytes (k, v)) with (k ++ v). run E1.
  assert (Hat1 : at_node ex s1 pn (LeafOf p nx (l ++ [(k, v)]))) by keep C1. run (size_ok _ _ _ _ _ Hat1). cbn [size_of]. rewrite El.
  destruct (leaf_remove_ok ex s1 pn p nx l (k, v) [] Hat1) as (s2 & E2 & C2 & H2). run E2. rewrite app_nil_r in H2. exists s2. split; [done|].
  split; [apply (changes_trans [pn; other] [other] [pn] 0 0 s s1 s2); [done|done|set_solver|set_solver]|]. split; [done|]. keep C2.
Qed.
Lemma leaf_move_ok ex s pn other p nx p' nx' l l' : at_node ex s pn (LeafOf p nx l) → at_node ex s other (LeafOf p' nx' l') → pn ≠ other → len (l' ++ l) ≤ leaf_max_size h →
  ∃ s', leaf_move_to pn other s = Some (SUCCESS, s') ∧ changes 0 [pn; other] s s' ∧ at_node ex s' pn (LeafOf p nx []) ∧ at_node ex s' other (LeafOf p' nx (l' ++ l)).
Proof.
  intros Hat Hother Hne Hroom. unfold leaf_move_to. run (size_ok _ _ _ _ _ Hat). cbn [size_of]. run (leaf_all_items _ _ _ _ _ _ Hat).
  destruct (stored_at _ _ _ _ _ Hat) as (d & _ & _ & [Hnx Hok]). destruct (stored_at _ _ _ _ _ Hother) as (d' & _ & _ & [Hnx' Hok']).
  destruct (leaf_append_ok h Hix ex s other p' nx' l' l (bytes_of (item_bytes <$> l)) (len l) Hother) as (s1 & E1 & C1 & H1); [split; [done|by apply Forall_app]|done|done|done|]. run E1.
  assert (Hat1 : at_node ex s1 pn (LeafOf p nx l)) by keep C1. run (next_ok _ _ _ _ _ Hat1 p nx l eq_refl).
  destruct (set_next_ok h ex s1 other p' nx' _ nx H1 Hnx) as (s2 & E2 & C2 & H2). run E2. assert (Hat2 : at_node ex s2 pn (LeafOf p nx l)) by keep C2.
  run (size_ok _ _ _ _ _ Hat2). cbn [size_of]. run (leaf_all_items _ _ _ _ _ _ Hat2).
  destruct (log_ok _ _ _ _ _ Hat2 (NormalOperationLogEntryHandler pn false 0 (bytes_of (item_bytes <$> l)) (len l)) eq_refl) as (s3 & E3 & C3 & H3). run E3.
  destruct (truncate_ok h ex s3 pn _ H3 (LeafOf p nx []) [] (item_bytes <$> l) (- len l)) as (s4 & E4 & C4 & H4); [done|done|done|split; [done|constructor]|by rewrite len_fmap|]. run E4.
  pose proof (changes_one _ _ _ _ _ C1 C2) as C02. pose proof (changes_one _ _ _ _ _ C3 C4) as C24. exists s4. split; [done|].
  split; [apply (changes_trans [pn; other] [other] [pn] 0 0 s s2 s4); [done|done|set_solver|set_solver]|]. split; [done|]. keep C24.
Qed.

(** ** Inner nodes *)

Lemma inner_item_at ex s pn p l1 kq l2 i : at_node ex s pn (InnerOf p (l1 ++ kq :: l2)) → i = len l1 → items_at InternalNode pn i 1 s = Some (kid_bytes kq, s).
Proof.
  intros Hat ->. rewrite <-one_kid. apply (items_at_ok _ _ _ _ _ Hat (kid_bytes <$> l1) (kid_bytes <$> [kq]) (kid_bytes <$> l2)); [cbn [raws_of]; by rewrite fmap_app|by rewrite len_fmap|done].
Qed.
Lemma inner_all_items ex s pn p l : at_node ex s pn (InnerOf p l) → items_at InternalNode pn 0 (len l) s = Some (bytes_of (kid_bytes <$> l), s).
Proof. intros Hat. apply (items_at_ok _ _ _ _ _ Hat [] (kid_bytes <$> l) []); [cbn [raws_of app]; by rewrite app_nil_r|done|by rewrite len_fmap]. Qed.
Section kid.
Context (ex : list LatchMemoItem) (s : St) (pn other : PageNum) (p p' : PageNum) (kq : list Z * PageNum) (l l' : list (list Z * PageNum)) (N : Node).
Context (Hother : at_node ex s other (InnerOf p' l')) (Hne : pn ≠ other) (Ho32 : in_int32 other) (Hroom : len l' < internal_max_size h).
Context (Hkid : stored s kq.2 (with_parent pn N)) (Hq1 : kq.2 ≠ pn) (Hq2 : kq.2 ≠ other).

Lemma kid_gone s1 s' N' : stored s1 kq.2 N' → changes 0 [pn] s1 s' → stored s' kq.2 N'.
Proof. intros H1 C. apply (changes_stored h 0 [pn] s1); [done|clear - Hq1; set_solver|done]. Qed.
Lemma internal_first_ok : at_node ex s pn (InnerOf p (kq :: l)) →
  ∃ s', internal_move_first_to_end pn other s = Some (SUCCESS, s') ∧ changes 0 [pn; other; kq.2] s s' ∧ at_node ex s' pn (InnerOf p l) ∧ at_node ex s' other (InnerOf p' (l' ++ [kq])) ∧
    stored s' kq.2 (with_parent other N).
Proof.
  intros Hat. unfold internal_move_first_to_end. run (inner_item_at _ _ _ _ [] _ _ 0 Hat eq_refl).
  destruct (stored_at _ _ _ _ _ Hat) as (d & _ & _ & Hok). apply Forall_cons in Hok as [Hkq _]. destruct (stored_at _ _ _ _ _ Hother) as (d' & _ & _ & Hok').
  destruct (internal_append_ok h Hix ex s other p' l' [kq] pn [N] (kid_bytes kq) 1 Hother) as (s1 & E1 & C1 & H1 & K1);
    [apply Forall_app; split; [done|by constructor]|rewrite len_app; unfold len in *; cbn [length]; lia|done|by constructor|apply NoDup_singleton|by intros ->%list_elem_of_singleton|by rewrite one_kid|done|].
  run E1. change (OB_FAIL SUCCESS) with false. cbv iota. cbn [fmap list_fmap] in C1. assert (Hat1 : at_node ex s1 pn (InnerOf p (kq :: l))) by (eapply at_node_changes; [exact C1|clear - Hne Hq1; set_solver|done]).
  destruct (internal_remove_ok ex s1 pn p [] kq l Hat1) as (s2 & E2 & C2 & H2). change (len (@nil (list Z * PageNum))) with 0 in E2. run E2. exists s2. split; [done|].
  split; [apply (changes_trans [pn; other; kq.2] [other; kq.2] [pn] 0 0 s s1 s2); [done|done|set_solver|set_solver]|]. split; [done|]. split; [keep C2|]. apply (kid_gone s1); [|done]. by apply Forall2_cons_1 in K1 as [? _].
Qed.
Lemma internal_last_ok : at_node ex s pn (InnerOf p (l ++ [kq])) →
  ∃ s', internal_move_last_to_front pn other s = Some (SUCCESS, s') ∧ changes 0 [pn; other; kq.2] s s' ∧ at_node ex s' pn (InnerOf p l) ∧ at_node ex s' other (InnerOf p' (kq :: l')) ∧
    stored s' kq.2 (with_parent other N).
Proof.
  intros Hat. unfold internal_move_last_to_front. assert (El : len (l ++ [kq]) - 1 = len l) by (rewrite len_app; unfold len; cbn [length]; lia).
  run (size_ok _ _ _ _ _ Hat). cbn [size_of]. rewrite El. run (inner_item_at _ _ _ _ l kq [] _ Hat eq_refl). unfold internal_preappend.
  destruct (stored_at _ _ _ _ _ Hat) as (d & _ & _ & Hok). cbn [node_ok] in Hok. apply Forall_app in Hok as [Hok Hkq]. apply Forall_cons in Hkq as [Hkq _]. destruct (stored_at _ _ _ _ _ Hother) as (d' & _ & _ & Hok').
  destruct (insert_items_ok h Hix ex s other p' [] l' [kq] pn [N] 0 (kid_bytes kq) 1 Hother) as (s1 & E1 & C1 & H1 & K1);
    [by apply Forall_cons|unfold len in *; cbn [length app]; lia|done|by constructor|apply NoDup_singleton|by intros ->%list_elem_of_singleton|done|by rewrite one_kid|done|].
  run E1. change (OB_FAIL SUCCESS) with false. cbv iota. cbn [fmap list_fmap app] in C1, H1. assert (Hat1 : at_node ex s1 pn (InnerOf p (l ++ [kq]))) by (eapply at_node_changes; [exact C1|clear - Hne Hq1; set_solver|done]).
  run (size_ok _ _ _ _ _ Hat1). cbn [size_of]. rewrite El. run (inner_item_at _ _ _ _ l kq [] _ Hat1 eq_refl).
  destruct (log_ok _ _ _ _ _ Hat1 (NormalOperationLogEntryHandler pn false (len l) (kid_bytes kq) 1) eq_refl) as (s2 & E2 & C2 & H2). run E2.
  destruct (truncate_ok h ex s2 pn _ H2 (InnerOf p l) (kid_bytes <$> l) [kid_bytes kq] (-1)) as (s3 & E3 & C3 & H3); [cbn [raws_of]; by rewrite fmap_app|done|done|done|done|]. run E3.
  pose proof (changes_one _ _ _ _ _ C2 C3) as C13. exists s3. split; [done|].
  split; [apply (changes_trans [pn; other; kq.2] [other; kq.2] [pn] 0 0 s s1 s3); [done|done|set_solver|set_solver]|]. split; [done|]. split; [keep C13|]. apply (kid_gone s1); [|done]. by apply Forall2_cons_1 in K1 as [? _].
Qed.
End kid.

Lemma internal_move_ok ex s pn other p p' l l' Ns : at_node ex s pn (InnerOf p l) → at_node ex s other (InnerOf p' l') → pn ≠ other → in_int32 other → len (l' ++ l) ≤ internal_max_size h →
  kids_stored s pn l Ns → NoDup l.*2 → pn ∉ l.*2 → other ∉ l.*2 →
  ∃ s', internal_move_to pn other s = Some (SUCCESS, s') ∧ changes 0 (pn :: other :: l.*2) s s' ∧ at_node ex s' pn (InnerOf p []) ∧ at_node ex s' other (InnerOf p' (l' ++ l)) ∧ kids_stored s' other l Ns.
Proof.
  intros Hat Hother Hne Ho32 Hsz Hk Hnd Hn1 Hn2. unfold internal_move_to. run (size_ok _ _ _ _ _ Hat). cbn [size_of]. run (inner_all_items _ _ _ _ _ Hat).
  destruct (stored_at _ _ _ _ _ Hat) as (d & _ & _ & Hok). destruct (stored_at _ _ _ _ _ Hother) as (d' & _ & _ & Hok').
  destruct (internal_append_ok h Hix ex s other p' l' l pn Ns (bytes_of (kid_bytes <$> l)) (len l) Hother) as (s1 & E1 & C1 & H1 & K1); [by apply Forall_app|done|done|done|done|done|done|done|]. run E1. change (OB_FAIL SUCCESS) with false. cbv iota.
  assert (Hat1 : at_node ex s1 pn (InnerOf p l)) by (eapply at_node_changes; [exact C1|clear - Hne Hn1; set_solver|done]). run (size_ok _ _ _ _ _ Hat1). cbn [size_of]. run (inner_all_items _ _ _ _ _ Hat1).
  destruct (log_ok _ _ _ _ _ Hat1 (NormalOperationLogEntryHandler pn false 0 (bytes_of (kid_bytes <$> l)) (len l)) eq_refl) as (s2 & E2 & C2 & H2). run E2.
  destruct (recover_remove_ok _ _ _ _ _ H2 (InnerOf p []) [] (kid_bytes <$> l) [] 0 (len l)) as (s3 & E3 & C3 & H3); [cbn [raws_of app]; by rewrite app_nil_r|done|done|constructor|done|by rewrite len_fmap|].
  cbn [class_of] in E3. run E3. pose proof (changes_one _ _ _ _ _ C2 C3) as C13. exists s3. split; [done|].
  split; [apply (changes_trans (pn :: other :: l.*2) (other :: l.*2) [pn] 0 0 s s1 s3); [done|done|set_solver|set_solver]|]. split; [done|]. split; [keep C13|].
  apply (kids_changes h Hix 0 [pn] s1); [done| |done]. intros q Hq ->%list_elem_of_singleton. done.
Qed.
End give.
