(* ===== verification/BplusPair.v ===== *)
(** * BplusPair: two neighbours below one parent

    [redistribute] moves one item between them, [coalesce] puts all of them into the left one.
    What follows holds for leaves and for inner nodes; the children of inner nodes are named by
    the level below. *)
From stdpp Require Import sorting.
From S2P Require Import Prelude Types Encoding KeyCompare LatchMemo LatchMemoSpec BplusNode BplusLog BplusNodeSpec BplusOps BplusNodeOps BplusMoves BplusShape BplusTree BplusRoot BplusInsert BplusGrow BplusGive.

(** the children of a node, and the parent each of them has *)
Definition kid_pages (N : Node) : list PageNum := match N with InnerOf _ ks => ks.*2 | LeafOf _ _ _ => [] end.
Definition kid_pars (q : PageNum) (N : Node) : list PageNum := match N with InnerOf _ ks => replicate (length ks) q | LeafOf _ _ _ => [] end.
(** the items of two neighbours are shared out anew *)
Inductive spread : Node → Node → Node → Node → Prop :=
| spread_leaf p1 nx1 a p2 nx2 b a' b' : a ++ b = a' ++ b' → spread (LeafOf p1 nx1 a) (LeafOf p2 nx2 b) (LeafOf p1 nx1 a') (LeafOf p2 nx2 b')
| spread_inner p1 a p2 b a' b' : a ++ b = a' ++ b' → spread (InnerOf p1 a) (InnerOf p2 b) (InnerOf p1 a') (InnerOf p2 b').
(** the left one takes them all *)
Inductive fused : Node → Node → Node → Prop :=
| fused_leaf p1 nx1 a p2 nx2 b : fused (LeafOf p1 nx1 a) (LeafOf p2 nx2 b) (LeafOf p1 nx2 (a ++ b))
| fused_inner p1 a p2 b : fused (InnerOf p1 a) (InnerOf p2 b) (InnerOf p1 (a ++ b)).

Lemma fused_size N1 N2 N : fused N1 N2 N → size_of N = size_of N1 + size_of N2.
Proof. intros []; cbn; apply len_app. Qed.
Lemma spread_size N1 N2 N1' N2' : spread N1 N2 N1' N2' → size_of N1 + size_of N2 = size_of N1' + size_of N2'.
Proof. intros [? ? ? ? ? ? ? ? E|? ? ? ? ? ? E]; cbn; apply (f_equal len) in E; rewrite !len_app in E; done. Qed.
Lemma spread_class N1 N2 N1' N2' : spread N1 N2 N1' N2' → class_of N1' = class_of N1 ∧ class_of N2' = class_of N2.
Proof. by intros []. Qed.
Lemma length_kids q N : length (kid_pars q N) = length (kid_pages N).
Proof. destruct N; cbn; [done|]. by rewrite length_replicate, length_fmap. Qed.

Section drops.
Context {P : Type} `{TL : TreePoolLaws P}.
Abbreviation St := (Memo P TreeState).
Implicit Types (s : St).

(** a change that puts the pages [D] on the list of those to be disposed of *)
Definition drops (D X : list PageNum) s s' : Prop := changes 0 X s (with_disposed (disposed_pages_ s) s') ∧ disposed_pages_ s' = disposed_pages_ s ++ D.

Lemma memo_disposed ex d s : memo_ok ex s → memo_ok ex (with_disposed d s).
Proof. intros [[] ? ? ?]. by constructor. Qed.
Lemma memo_disposed_back ex d s : memo_ok ex (with_disposed d s) → memo_ok ex s.
Proof. intros [[] ? ? ?]. by constructor. Qed.
Lemma changes_disposed d k X s s' : changes k X s s' → changes k X (with_disposed d s) (with_disposed d s').
Proof. intros []. constructor; try done. intros ex H1. apply memo_disposed, ch_memo. by apply memo_disposed_back in H1. Qed.
Lemma with_disposed_id s : with_disposed (disposed_pages_ s) s = s.
Proof. by destruct s. Qed.
Lemma changes_drops X s s' : changes 0 X s s' → drops [] X s s'.
Proof. intros C. split; [|by rewrite app_nil_r, (ch_disposed _ _ _ _ C)]. by rewrite <-(ch_disposed _ _ _ _ C), with_disposed_id. Qed.
Lemma drops_trans Z D1 D2 X Y s1 s2 s3 : drops D1 X s1 s2 → drops D2 Y s2 s3 → X ⊆ Z → Y ⊆ Z → drops (D1 ++ D2) Z s1 s3.
Proof.
  intros [C1 E1] [C2 E2] HX HY. split; [|by rewrite E2, E1, app_assoc]. apply (changes_disposed (disposed_pages_ s1)) in C2.
  change (with_disposed (disposed_pages_ s1) (with_disposed (disposed_pages_ s2) s3)) with (with_disposed (disposed_pages_ s1) s3) in C2.
  by apply (changes_trans Z X Y 0 0 _ (with_disposed (disposed_pages_ s1) s2)).
Qed.
Lemma drops_weaken X Y D s s' : X ⊆ Y → drops D X s s' → drops D Y s s'.
Proof. intros HX [C E]. split; [|done]. by apply (changes_weaken X). Qed.
Lemma dispose_drops pn s : ∃ s', dispose_page pn s = Some (tt, s') ∧ drops [pn] [] s s'.
Proof. eexists. split; [done|]. split; [|done]. change (changes 0 [] s (with_disposed (disposed_pages_ s) s)). rewrite with_disposed_id. apply changes_refl. Qed.

Context (h : IndexFileHeader).
Lemma drops_ready D X ex s s' : drops D X s s' → ready h ex s → ready h ex s'.
Proof. intros [C _] Hr. destruct (changes_ready h _ _ ex _ _ C Hr) as [Hm Hlike]. split; [by apply memo_disposed_back in Hm|done]. Qed.
Lemma drops_held D X s s' q : drops D X s s' → held s q → held s' q.
Proof. intros [C _]. apply (ch_held _ _ _ _ C). Qed.
Lemma drops_stored D X s s' q N : drops D X s s' → q ∉ X → stored h s q N → stored h s' q N.
Proof. intros [C _]. apply (changes_stored h _ _ _ _ _ _ C). Qed.
Lemma drops_at_node D X ex s s' q N : drops D X s s' → q ∉ X → at_node h ex s q N → at_node h ex s' q N.
Proof. intros Hd Hq (H1 & H2 & H3). split; [by apply (drops_ready D X ex s)|]. split; [by apply (drops_held D X s)|by apply (drops_stored D X s)]. Qed.
Lemma drops_level D X s s' low ps : drops D X s s' → (∀ q, q ∈ low.*1 → q ∉ X) → level_stored h s low ps → level_stored h s' low ps.
Proof. intros [C _]. apply (level_stored_changes h _ _ _ _ _ _ C). Qed.
Lemma drops_levels D X s s' lvls : drops D X s s' → (∀ q, q ∈ level_pages lvls → q ∉ X) → levels_stored h s lvls → levels_stored h s' lvls.
Proof.
  intros [C _] HX Hl. pose proof (levels_stored_changes h _ _ _ _ lvls C HX Hl) as Hl'. clear - Hl'. induction lvls as [|up lvls IH]; [done|]. destruct Hl' as [Hl1 Hl2]. split; [exact Hl1|by apply IH].
Qed.
Lemma drops_header_page D X s s' : drops D X s s' → FIRST_INDEX_PAGE ∉ X → header_page s → header_page s'.
Proof. intros [C _] HX Hp. apply (header_page_changes _ _ _ _ C HX Hp). Qed.
End drops.

Section pair.
Context {P : Type} `{TL : TreePoolLaws P}.
Context (h : IndexFileHeader).
Abbreviation St := (Memo P TreeState).
Implicit Types (pn q : PageNum) (N : Node).
Abbreviation at_node := (at_node h []).
Abbreviation stored := (stored h).
Abbreviation level_stored := (level_stored h).
Context (Hix : index_ok h).

Lemma move_kid s' k X s bA q N bB psA p psB p' : changes k X s s' → level_stored s (bA ++ (q, N) :: bB) (psA ++ p :: psB) → length bA = length psA → NoDup (bA ++ (q, N) :: bB).*1 →
  (∀ r, r ∈ (bA ++ (q, N) :: bB).*1 → r ∈ X → r = q) → stored s' q (with_parent p' N) → level_stored s' (bA ++ (q, N) :: bB) (psA ++ p' :: psB).
Proof.
  intros C Hl L Hnd HX Hq. apply (level_stored_node h k X s s' bA q N N bB psA p p' psB); [done|done|done| |done].
  rewrite fmap_app in Hnd, HX. cbn in Hnd, HX. apply NoDup_app in Hnd as (_ & H1 & H2). apply NoDup_cons in H2 as [H2 _]. intros r Hr HrX. assert (r = q) as ->; [apply HX; [|done]|]; clear - Hr H1 H2; set_solver.
Qed.

(** marking the pages of three nodes *)
Lemma dirty_three s qa Na qb Nb qc Nc f g : at_node s qa Na → at_node s qb Nb → at_node s qc Nc → qa ≠ qb → qa ≠ qc → qb ≠ qc → (f = qa ∧ g = qb) ∨ (f = qb ∧ g = qa) →
  ∃ s', (mark_dirty g ;;; mark_dirty f ;;; mark_dirty qc ;;; ret SUCCESS) s = Some (SUCCESS, s') ∧ changes 0 [qa; qb; qc] s s' ∧ at_node s' qa Na ∧ at_node s' qb Nb ∧ at_node s' qc Nc.
Proof.
  intros Ha Hb Hc0 Hab Hac Hbc Hfg. assert (Hone : ∀ s q N, at_node s q N → q ∈ [qa; qb; qc] → (q = qa → N = Na) → (q = qb → N = Nb) → (q = qc → N = Nc) → at_node s qa Na → at_node s qb Nb → at_node s qc Nc →
    ∃ s', mark_dirty q s = Some (tt, s') ∧ changes 0 [qa; qb; qc] s s' ∧ at_node s' qa Na ∧ at_node s' qb Nb ∧ at_node s' qc Nc).
  { intros s0 q N Hq Hin I1 I2 I3 J1 J2 J3. destruct (dirty_ok h [] s0 q N Hq) as (s' & E & C & Hq'). exists s'. split; [done|]. split; [apply (changes_weaken [q]); [clear - Hin; set_solver|done]|].
    assert (Hkeep : ∀ r M, (q = r → N = M) → at_node s0 r M → at_node s' r M).
    { intros r M HM Hr. destruct (decide (r = q)) as [->|Hne]; [rewrite <-HM by done; done|]. eapply at_node_changes; [exact C|clear - Hne; set_solver|done]. }
    auto. }
  assert (E2 : ∃ s1 s2, mark_dirty g s = Some (tt, s1) ∧ mark_dirty f s1 = Some (tt, s2) ∧ changes 0 [qa; qb; qc] s s2 ∧ at_node s2 qa Na ∧ at_node s2 qb Nb ∧ at_node s2 qc Nc).
  { destruct Hfg as [[-> ->]|[-> ->]].
    - destruct (Hone s qb Nb Hb) as (s1 & E1 & C1 & J1 & J2 & J3); [clear; set_solver|done..|]. destruct (Hone s1 qa Na J1) as (s2 & E2 & C2 & J4); [clear; set_solver|done..|]. exists s1, s2. split; [done|]. split; [done|]. split; [by apply (changes_one 0 _ s s1)|done].
    - destruct (Hone s qa Na Ha) as (s1 & E1 & C1 & J1 & J2 & J3); [clear; set_solver|done..|]. destruct (Hone s1 qb Nb J2) as (s2 & E2 & C2 & J4); [clear; set_solver|done..|]. exists s1, s2. split; [done|]. split; [done|]. split; [by apply (changes_one 0 _ s s1)|done]. }
  destruct E2 as (s1 & s2 & E1 & E2 & C2 & J1 & J2 & J3). run E1. run E2. destruct (Hone s2 qc Nc J3) as (s3 & E3 & C3 & J4); [clear; set_solver|done..|]. run E3. exists s3. split; [done|]. split; [by apply (changes_one 0 _ s s2)|done].
Qed.

Context (s : St) (pn pp : PageNum) (c1 : list Kid) (k1 : list Z) (q1 : PageNum) (k2 : list Z) (q2 : PageNum) (c2 : list Kid) (N1 N2 : Node) (bm : Level).
Context (H1 : at_node s q1 N1) (H2 : at_node s q2 N2) (Hp : at_node s pn (InnerOf pp (c1 ++ (k1, q1) :: (k2, q2) :: c2))).
Context (Hc : class_of N2 = class_of N1) (Ebm : bm.*1 = kid_pages N1 ++ kid_pages N2) (Hbm : level_stored s bm (kid_pars q1 N1 ++ kid_pars q2 N2)).
Context (Hnd : NoDup (pn :: q1 :: q2 :: bm.*1)).
Abbreviation X := (pn :: q1 :: q2 :: bm.*1).

Lemma pair_int32 q N : at_node s q N → in_int32 q.
Proof. intros Hq. pose proof (page_int32 _ _ _ (proj1 (proj1 Hq)) (stored_exists _ _ _ _ (proj2 (proj2 Hq)))). unfold in_int32. lia. Qed.

(** the first item of the right node *)
Lemma first_to_end : 1 ≤ size_of N2 → size_of N1 < max_of h N1 →
  ∃ s' N1' N2', class_move_first_to_end (class_of N1) q2 q1 s = Some (SUCCESS, s') ∧ changes 0 X s s' ∧ at_node s' q1 N1' ∧ at_node s' q2 N2' ∧ at_node s' pn (InnerOf pp (c1 ++ (k1, q1) :: (k2, q2) :: c2)) ∧
    spread N1 N2 N1' N2' ∧ size_of N1' = size_of N1 + 1 ∧ level_stored s' bm (kid_pars q1 N1' ++ kid_pars q2 N2').
Proof.
  intros Hsz Hroom. pose proof Hnd as (Hn1 & (Hn2 & (Hn3 & Hn4)%NoDup_cons)%NoDup_cons)%NoDup_cons.
  assert (Hkeep : ∀ s' Y, changes 0 Y s s' → Y ⊆ q1 :: q2 :: bm.*1 → at_node s' pn (InnerOf pp (c1 ++ (k1, q1) :: (k2, q2) :: c2))).
  { intros s' Y C HY. eapply at_node_changes; [exact C| |exact Hp]. clear - Hn1 HY. set_solver. }
  destruct N1 as [p1 nx1 a|p1 a], N2 as [p2 nx2 b|p2 b]; try done; cbn [size_of max_of class_of class_move_first_to_end kid_pages kid_pars] in *; (destruct b as [|kv b]; [unfold len in Hsz; cbn in Hsz; lia|]).
  - destruct (leaf_first_ok h Hix [] s q2 q1 p2 nx2 p1 nx1 kv b a H2 H1) as (s' & E & C & H3 & H4); [clear - Hn2; set_solver|done|]. assert (bm = []) as -> by (by destruct bm).
    exists s', (LeafOf p1 nx1 (a ++ [kv])), (LeafOf p2 nx2 b). split; [done|]. split; [apply (changes_weaken [q2; q1]); [clear; set_solver|done]|]. split; [done|]. split; [done|].
    split; [apply (Hkeep s' [q2; q1]); [done|clear; set_solver]|]. split; [constructor; by rewrite <-app_assoc|]. split; [cbn; rewrite len_app; done|]. constructor.
  - cbn [fmap list_fmap length replicate] in *. apply fmap_app_inv in Ebm as (bA & bB' & EA & EB & Eb). destruct bB' as [|[q N] bB]; [done|]. cbn in EB. injection EB as Eq EB. rewrite Eb in *.
    assert (LA : length bA = length (replicate (length a) q1)) by (rewrite length_replicate; by apply (fmap_length_eq fst snd)).
    assert (HqX : (q ∉ [pn; q1; q2]) ∧ q ∈ bm.*1) by (rewrite Eb, fmap_app in *; cbn in *; clear - Hn1 Hn2 Hn3; set_solver).
    assert (Hk : stored s q (with_parent q2 N)) by (rewrite (level_stored_app h) in Hbm by done; destruct Hbm as [_ Hbm']; by apply level_stored_cons in Hbm' as [? _]).
    destruct (internal_first_ok h Hix [] s q2 q1 p2 p1 kv b a N H1) as (s' & E & C & H3 & H4 & Hk'); [clear - Hn2; set_solver|by apply (pair_int32 q1 _ H1)|done|by rewrite Eq|clear - HqX Eq; set_solver|clear - HqX Eq; set_solver|exact H2|].
    exists s', (InnerOf p1 (a ++ [kv])), (InnerOf p2 b). split; [done|]. assert (C' : changes 0 (q1 :: q2 :: bm.*1) s s') by (apply (changes_weaken [q2; q1; kv.2]); [rewrite Eq; clear - HqX; set_solver|done]).
    split; [rewrite <-Eb; apply (changes_weaken (q1 :: q2 :: bm.*1)); [clear; set_solver|done]|]. split; [done|]. split; [done|]. split; [rewrite Eb in C'; by apply (Hkeep s' _ C')|].
    split; [constructor; by rewrite <-app_assoc|]. split; [cbn; rewrite len_app; done|]. cbn [kid_pars]. rewrite length_app, replicate_add, <-app_assoc. cbn [length replicate app].
    apply (move_kid s' 0 [q2; q1; kv.2] s bA q N bB _ q2); [done|done|done|done| |by rewrite <-Eq]. intros r Hr [->|[->|Hr']%elem_of_cons]%elem_of_cons; [done| |by apply list_elem_of_singleton in Hr'; subst r].
    exfalso. apply Hn2. by right.
Qed.

(** the last item of the left node *)
Lemma last_to_front : 1 ≤ size_of N1 → size_of N2 < max_of h N2 →
  ∃ s' N1' N2', class_move_last_to_front (class_of N1) q1 q2 s = Some (SUCCESS, s') ∧ changes 0 X s s' ∧ at_node s' q1 N1' ∧ at_node s' q2 N2' ∧ at_node s' pn (InnerOf pp (c1 ++ (k1, q1) :: (k2, q2) :: c2)) ∧
    spread N1 N2 N1' N2' ∧ size_of N2' = size_of N2 + 1 ∧ level_stored s' bm (kid_pars q1 N1' ++ kid_pars q2 N2').
Proof.
  intros Hsz Hroom. pose proof Hnd as (Hn1 & (Hn2 & (Hn3 & Hn4)%NoDup_cons)%NoDup_cons)%NoDup_cons.
  assert (Hkeep : ∀ s' Y, changes 0 Y s s' → Y ⊆ q1 :: q2 :: bm.*1 → at_node s' pn (InnerOf pp (c1 ++ (k1, q1) :: (k2, q2) :: c2))).
  { intros s' Y C HY. eapply at_node_changes; [exact C| |exact Hp]. clear - Hn1 HY. set_solver. }
  destruct N1 as [p1 nx1 a|p1 a], N2 as [p2 nx2 b|p2 b]; try done; cbn [size_of max_of class_of class_move_last_to_front kid_pages kid_pars] in *; (destruct a as [|kv a _] using rev_ind; [unfold len in Hsz; cbn in Hsz; lia|]).
  - destruct (leaf_last_ok h Hix [] s q1 q2 p1 nx1 p2 nx2 a kv b H1 H2) as (s' & E & C & H3 & H4); [clear - Hn2; set_solver|done|]. assert (bm = []) as -> by (by destruct bm).
    exists s', (LeafOf p1 nx1 a), (LeafOf p2 nx2 (kv :: b)). split; [done|]. split; [apply (changes_weaken [q1; q2]); [clear; set_solver|done]|]. split; [done|]. split; [done|].
    split; [apply (Hkeep s' [q1; q2]); [done|clear; set_solver]|]. split; [constructor; by rewrite <-app_assoc|]. split; [cbn; unfold len; cbn [length]; lia|]. constructor.
  - rewrite fmap_app, <-app_assoc in Ebm. cbn [fmap list_fmap app] in Ebm. rewrite length_app, replicate_add, <-app_assoc in Hbm. cbn [length replicate app] in Hbm.
    apply fmap_app_inv in Ebm as (bA & bB' & EA & EB & Eb). destruct bB' as [|[q N] bB]; [done|]. cbn in EB. injection EB as Eq EB. rewrite Eb in *.
    assert (LA : length bA = length (replicate (length a) q1)) by (rewrite length_replicate; by apply (fmap_length_eq fst snd)).
    assert (HqX : (q ∉ [pn; q1; q2]) ∧ q ∈ bm.*1) by (rewrite Eb, fmap_app in *; cbn in *; clear - Hn1 Hn2 Hn3; set_solver).
    assert (Hk : stored s q (with_parent q1 N)) by (rewrite (level_stored_app h) in Hbm by done; destruct Hbm as [_ Hbm']; by apply level_stored_cons in Hbm' as [? _]).
    destruct (internal_last_ok h Hix [] s q1 q2 p1 p2 kv a b N H2) as (s' & E & C & H3 & H4 & Hk'); [clear - Hn2; set_solver|by apply (pair_int32 q2 _ H2)|done|by rewrite Eq|clear - HqX Eq; set_solver|clear - HqX Eq; set_solver|exact H1|].
    exists s', (InnerOf p1 a), (InnerOf p2 (kv :: b)). split; [done|]. assert (C' : changes 0 (q1 :: q2 :: bm.*1) s s') by (apply (changes_weaken [q1; q2; kv.2]); [rewrite Eq; clear - HqX; set_solver|done]).
    split; [rewrite <-Eb; apply (changes_weaken (q1 :: q2 :: bm.*1)); [clear; set_solver|done]|]. split; [done|]. split; [done|]. split; [rewrite Eb in C'; by apply (Hkeep s' _ C')|].
    split; [constructor; by rewrite <-app_assoc|]. split; [cbn; unfold len; cbn [length]; lia|]. cbn [kid_pars length replicate].
    apply (move_kid s' 0 [q1; q2; kv.2] s bA q N bB _ q1); [done|done|done|done| |by rewrite <-Eq]. intros r Hr [->|[->|Hr']%elem_of_cons]%elem_of_cons; [|done|by apply list_elem_of_singleton in Hr'; subst r].
    exfalso. apply Hn2. by right.
Qed.

(** ** [redistribute] *)

(** the node that is too small and the neighbour, as [coalesce_or_redistribute] chooses them *)
Definition chosen (frame neighbor : PageNum) (index : Z) : Prop := (c1 = [] ∧ frame = q1 ∧ neighbor = q2 ∧ index = 0) ∨ (frame = q2 ∧ neighbor = q1 ∧ index = len c1 + 1).
Definition of_frame {A} (frame : PageNum) (x1 x2 : A) : A := if decide (frame = q1) then x1 else x2.

Lemma first_key N : 1 ≤ size_of N → ∃ k, rd (keys_of N) 0 = Some k.
Proof. destruct N as [p nx [|kv l]|p [|kv l]]; cbn; intros Hs; [unfold len in Hs; cbn in Hs; lia| |unfold len in Hs; cbn in Hs; lia|]; by exists kv.1. Qed.
Lemma node_key_len s0 q N k : at_node s0 q N → rd (keys_of N) 0 = Some k → len k = key_length h.
Proof.
  intros Hat Hk. destruct (stored_at _ _ _ _ _ Hat) as (d & _ & _ & Hok). destruct N as [p nx [|kv l]|p [|kv l]]; try done; cbn in Hk; injection Hk as <-; [destruct Hok as [_ Hok]|]; apply Forall_cons in Hok as [Hok _]; apply Hok.
Qed.

Section shares.
Context (half : Z).
Context (Hhalf : 2 ≤ half ∧ half ≤ max_of h N1 - half ≤ half + 1) (Hmax2 : max_of h N2 = max_of h N1).

Lemma redistribute_ok frame neighbor index : chosen frame neighbor index → max_of h N1 < size_of N1 + size_of N2 →
  half - 1 ≤ of_frame frame (size_of N1) (size_of N2) < max_of h N1 - half → half ≤ of_frame frame (size_of N2) (size_of N1) ≤ max_of h N1 →
  ∃ s' N1' N2' k2', redistribute (class_of N1) neighbor frame pn index s = Some (SUCCESS, s') ∧ changes 0 X s s' ∧ at_node s' q1 N1' ∧ at_node s' q2 N2' ∧
    at_node s' pn (InnerOf pp (c1 ++ (k1, q1) :: (k2', q2) :: c2)) ∧ spread N1 N2 N1' N2' ∧ rd (keys_of N2') 0 = Some k2' ∧
    half ≤ size_of N1' ≤ max_of h N1 ∧ half ≤ size_of N2' ≤ max_of h N1 ∧ level_stored s' bm (kid_pars q1 N1' ++ kid_pars q2 N2').
Proof.
  intros Hch Hsum Hf Hnb. pose proof Hnd as (Hn1 & (Hn2 & (Hn3 & Hn4)%NoDup_cons)%NoDup_cons)%NoDup_cons. assert (Hq12 : q1 ≠ q2) by (clear - Hn2; set_solver). assert (Hpq : pn ≠ q1 ∧ pn ≠ q2) by (clear - Hn1; set_solver).
  assert (Ecall : ∃ s1 N1' N2', (if index =? 0 then class_move_first_to_end (class_of N1) neighbor frame else class_move_last_to_front (class_of N1) neighbor frame) s = Some (SUCCESS, s1) ∧ changes 0 X s s1 ∧ at_node s1 q1 N1' ∧ at_node s1 q2 N2' ∧
    at_node s1 pn (InnerOf pp (c1 ++ (k1, q1) :: (k2, q2) :: c2)) ∧ spread N1 N2 N1' N2' ∧ half ≤ size_of N1' ≤ max_of h N1 ∧ half ≤ size_of N2' ≤ max_of h N1 ∧ level_stored s1 bm (kid_pars q1 N1' ++ kid_pars q2 N2')).
  { unfold of_frame in *. destruct Hch as [(_ & -> & -> & ->)|(-> & -> & ->)].
    - rewrite decide_True in Hf, Hnb by done. destruct first_to_end as (s1 & N1' & N2' & E & C & A1 & A2 & A3 & Hsp & Hs1 & Hl); [lia|lia|]. pose proof (spread_size _ _ _ _ Hsp). exists s1, N1', N2'. do 6 (split; [done|]). split; [lia|]. split; [lia|done].
    - rewrite decide_False in Hf, Hnb by done. rewrite (proj2 (Z.eqb_neq _ 0)) by (pose proof (len_pos c1); lia).
      destruct last_to_front as (s1 & N1' & N2' & E & C & A1 & A2 & A3 & Hsp & Hs1 & Hl); [lia|lia|]. pose proof (spread_size _ _ _ _ Hsp). exists s1, N1', N2'. do 6 (split; [done|]). split; [lia|]. split; [lia|done]. }
  destruct Ecall as (s1 & N1' & N2' & E1 & C1 & A1 & A2 & A3 & Hsp & Hs1 & Hs2 & Hl1). destruct (first_key N2') as [k2' Hk2]; [lia|]. pose proof (spread_class _ _ _ _ Hsp) as [_ Ec2].
  assert (Ekey : key_at (class_of N1) q2 0 s1 = Some (k2', s1)) by (rewrite <-Hc, <-Ec2; by apply (key_at_ok _ _ _ _ _ A2)).
  assert (A3' : at_node s1 pn (InnerOf pp ((c1 ++ [(k1, q1)]) ++ (k2, q2) :: c2))) by (by rewrite <-app_assoc).
  destruct (set_key_ok h [] s1 pn pp (c1 ++ [(k1, q1)]) k2 q2 c2 k2' A3' (node_key_len _ _ _ _ A2 Hk2)) as (s2 & E2 & C2 & A4).
  assert (El : len (c1 ++ [(k1, q1)]) = len c1 + 1) by (rewrite len_app; done). rewrite El in E2. rewrite <-app_assoc in A4. cbn [app] in A4.
  assert (Eset : (if index =? 0 then class_move_first_to_end (class_of N1) neighbor frame ;;; let* k := key_at (class_of N1) neighbor 0 in set_key_at pn (index + 1) k
    else class_move_last_to_front (class_of N1) neighbor frame ;;; let* k := key_at (class_of N1) frame 0 in set_key_at pn index k) s = Some (tt, s2)).
  { destruct Hch as [(Ec1 & -> & -> & ->)|(-> & -> & ->)].
    - subst c1. cbn [Z.eqb] in *. run E1. by run Ekey.
    - pose proof (len_pos c1). rewrite (proj2 (Z.eqb_neq _ 0)) in * by lia. run E1. by run Ekey. }
  assert (A5 : at_node s2 q1 N1') by (eapply at_node_changes; [exact C2|clear - Hpq; set_solver|done]). assert (A6 : at_node s2 q2 N2') by (eapply at_node_changes; [exact C2|clear - Hpq; set_solver|done]).
  destruct (dirty_three s2 q1 N1' q2 N2' pn _ frame neighbor A5 A6 A4) as (s3 & E3 & C3 & A7 & A8 & A9); [done|apply not_eq_sym, Hpq|apply not_eq_sym, Hpq|destruct Hch as [(_ & -> & -> & _)|(-> & -> & _)]; auto|].
  unfold redistribute. run Eset. exists s3, N1', N2', k2'. assert (C13 : changes 0 [pn; q1; q2] s1 s3) by (apply (changes_trans [pn; q1; q2] [pn] [q1; q2; pn] 0 0 s1 s2 s3); [done|done|clear; set_solver|clear; set_solver]).
  split; [done|]. split; [apply (changes_trans X X [pn; q1; q2] 0 0 s s1 s3); [done|done|done|clear; set_solver]|]. do 7 (split; [done|]).
  apply (level_stored_changes h 0 [pn; q1; q2] s1); [done| |done]. intros q Hq Hin. clear - Hq Hin Hn1 Hn2 Hn3. set_solver.
Qed.
End shares.

(** ** [coalesce] *)

(** all items of the right node *)
Lemma move_all : size_of N1 + size_of N2 ≤ max_of h N1 →
  ∃ s' N2' N, class_move_to (class_of N1) q2 q1 s = Some (SUCCESS, s') ∧ changes 0 (q1 :: q2 :: bm.*1) s s' ∧ at_node s' q1 N ∧ at_node s' q2 N2' ∧ fused N1 N2 N ∧ (∀ p nx l, N = LeafOf p nx l → N2' = LeafOf (parent_of N2) nx []) ∧
    level_stored s' bm (kid_pars q1 N).
Proof.
  intros Hroom. pose proof Hnd as (Hn1 & (Hn2 & (Hn3 & Hn4)%NoDup_cons)%NoDup_cons)%NoDup_cons. assert (Hne : q2 ≠ q1) by (clear - Hn2; set_solver).
  destruct N1 as [p1 nx1 a|p1 a], N2 as [p2 nx2 b|p2 b]; try done; cbn [size_of max_of class_of class_move_to kid_pages kid_pars] in *.
  - destruct (leaf_move_ok h Hix [] s q2 q1 p2 nx2 p1 nx1 b a H2 H1 Hne) as (s' & E & C & H3 & H4); [by rewrite len_app|]. assert (bm = []) as -> by (by destruct bm).
    exists s', (LeafOf p2 nx2 []), (LeafOf p1 nx2 (a ++ b)). split; [done|]. split; [apply (changes_weaken [q2; q1]); [clear; set_solver|done]|]. split; [done|]. split; [done|]. split; [constructor|]. split; [by intros ? ? ? [= <- <- <-]|constructor].
  - apply fmap_app_inv in Ebm as (bA & bB & EA & EB & Eb). rewrite Eb in Hbm, Hn1, Hn2, Hn3, Hn4 |- *. rewrite fmap_app in Hn1, Hn2, Hn3, Hn4 |- *.
    assert (LA : length bA = length (replicate (length a) q1)) by (rewrite length_replicate; by apply (fmap_length_eq fst snd)). assert (LB : length bB = length b) by (by apply (fmap_length_eq fst snd)).
    rewrite (level_stored_app h) in Hbm by done. destruct Hbm as [HA HB]. rewrite <-LB in HB. apply (level_kids h _ _ b) in HB; [|done].
    assert (Hb : (q2 ∉ b.*2) ∧ (q1 ∉ b.*2) ∧ NoDup b.*2) by (rewrite EB; apply NoDup_app in Hn4 as (_ & _ & Hn4); clear - Hn2 Hn3 Hn4; set_solver).
    destruct (internal_move_ok h Hix [] s q2 q1 p2 p1 b a bB.*2 H2 H1 Hne) as (s' & E & C & H3 & H4 & K); [by apply (pair_int32 q1 _ H1)|by rewrite len_app|done|apply Hb|apply Hb|apply Hb|].
    exists s', (InnerOf p2 []), (InnerOf p1 (a ++ b)). split; [done|]. split; [apply (changes_weaken (q2 :: q1 :: b.*2)); [rewrite EB; clear; set_solver|done]|]. split; [done|]. split; [done|]. split; [constructor|]. split; [done|].
    cbn [kid_pars]. rewrite length_app, replicate_add, (level_stored_app h) by done. split.
    + apply (level_stored_changes h 0 (q2 :: q1 :: b.*2) s); [done| |done]. intros q Hq. rewrite EB. apply NoDup_app in Hn4 as (_ & Hn4 & _). specialize (Hn4 q Hq). clear - Hn2 Hn3 Hn4 Hq. set_solver.
    + rewrite <-LB. by apply (level_kids h _ _ b).
Qed.
Lemma coalesce_choice (up : PageNum → M St RC) c frame neighbor index : chosen frame neighbor index →
  coalesce up c neighbor frame pn index =
    (internal_remove pn (len c1 + 1) ;;;
     let* rc := class_move_to c q2 q1 in
     if OB_FAIL rc then ret rc
     else
       let* l := is_leaf q1 in
       (if l : bool then let* next := next_page q2 in set_next_page q1 next ;;; ret tt else ret tt) ;;;
       dispose_page q2 ;;;
       up pn).
Proof.
  clear H1 H2 Hp Hc Ebm Hbm Hnd. unfold coalesce. intros [(-> & -> & -> & ->)|(-> & -> & ->)]; [done|]. by rewrite (proj2 (Z.eqb_neq _ 0)) by (pose proof (len_pos c1); lia).
Qed.
End pair.

Section merge.
Context {P : Type} `{TL : TreePoolLaws P}.
Context (h : IndexFileHeader) (Hix : index_ok h).
Abbreviation St := (Memo P TreeState).
Abbreviation at_node := (at_node h []).
Abbreviation level_stored := (level_stored h).
Context (s : St) (pn pp : PageNum) (c1 : list Kid) (k1 : list Z) (q1 : PageNum) (k2 : list Z) (q2 : PageNum) (c2 : list Kid) (N1 N2 : Node) (bm : Level).
Context (H1 : at_node s q1 N1) (H2 : at_node s q2 N2) (Hp : at_node s pn (InnerOf pp (c1 ++ (k1, q1) :: (k2, q2) :: c2))).
Context (Hc : class_of N2 = class_of N1) (Ebm : bm.*1 = kid_pages N1 ++ kid_pages N2) (Hbm : level_stored s bm (kid_pars q1 N1 ++ kid_pars q2 N2)).
Context (Hnd : NoDup (pn :: q1 :: q2 :: bm.*1)).
Abbreviation X := (pn :: q1 :: q2 :: bm.*1).

Lemma coalesce_ok (up : PageNum → M St RC) frame neighbor index : chosen c1 q1 q2 frame neighbor index → size_of N1 + size_of N2 ≤ max_of h N1 →
  ∃ s' N, coalesce up (class_of N1) neighbor frame pn index s = up pn s' ∧ drops [q2] X s s' ∧ at_node s' q1 N ∧ at_node s' pn (InnerOf pp (c1 ++ (k1, q1) :: c2)) ∧ fused N1 N2 N ∧ level_stored s' bm (kid_pars q1 N).
Proof.
  intros Hch Hroom. rewrite (coalesce_choice pn c1 q1 q2 up _ _ _ _ Hch). pose proof Hnd as (Hn1 & (Hn2 & (Hn3 & Hn4)%NoDup_cons)%NoDup_cons)%NoDup_cons. assert (Hpq : pn ≠ q1 ∧ pn ≠ q2) by (clear - Hn1; set_solver).
  assert (Hp' : at_node s pn (InnerOf pp ((c1 ++ [(k1, q1)]) ++ (k2, q2) :: c2))) by (by rewrite <-app_assoc).
  destruct (internal_remove_ok h [] s pn pp _ _ _ Hp') as (s1 & E1 & C1 & A1). assert (El : len (c1 ++ [(k1, q1)]) = len c1 + 1) by (rewrite len_app; done). rewrite El in E1. rewrite <-app_assoc in A1. cbn [app] in A1. run E1.
  assert (B1 : at_node s1 q1 N1) by (eapply at_node_changes; [exact C1|clear - Hpq; set_solver|done]). assert (B2 : at_node s1 q2 N2) by (eapply at_node_changes; [exact C1|clear - Hpq; set_solver|done]).
  assert (Hbm1 : level_stored s1 bm (kid_pars q1 N1 ++ kid_pars q2 N2)) by (apply (level_stored_changes h 0 [pn] s); [done|intros q Hq ->%list_elem_of_singleton; apply Hn1; by do 2 right|done]).
  destruct (move_all h Hix s1 pn q1 q2 N1 N2 bm B1 B2 Hc Ebm Hbm1 Hnd Hroom) as (s2 & N2' & N & E2 & C2 & B3 & B4 & Hf & Hnx & Hbm2). run E2. change (OB_FAIL SUCCESS) with false. cbv iota.
  assert (A2 : at_node s2 pn (InnerOf pp (c1 ++ (k1, q1) :: c2))) by (eapply at_node_changes; [exact C2|clear - Hn1; set_solver|done]). run (is_leaf_ok _ _ _ _ _ B3).
  assert (E3 : ∃ s3, (if (match N with LeafOf _ _ _ => true | _ => false end) then let* next := next_page q2 in set_next_page q1 next ;;; ret tt else ret tt) s2 = Some (tt, s3) ∧ changes 0 [q1] s2 s3 ∧ at_node s3 q1 N).
  { destruct N as [p nx l|p l]; [|exists s2; split; [done|]; split; [apply (changes_weaken []); [apply list_subseteq_nil|apply changes_refl]|done]].
    rewrite (Hnx p nx l eq_refl) in B4. run (next_ok _ _ _ _ _ B4 _ nx [] eq_refl). destruct (stored_at _ _ _ _ _ B4) as (d & _ & _ & [H32 _]). destruct (set_next_ok h [] s2 q1 p nx l nx B3 H32) as (s3 & E3 & C3 & B5). run E3. by exists s3. }
  destruct E3 as (s3 & E3 & C3 & B5). run E3. assert (A3 : at_node s3 pn (InnerOf pp (c1 ++ (k1, q1) :: c2))) by (eapply at_node_changes; [exact C3|clear - Hpq; set_solver|done]).
  destruct (dispose_drops q2 s3) as (s4 & E4 & D4). run E4. exists s4, N. split; [done|].
  assert (C03 : changes 0 X s s3).
  { apply (changes_trans X [pn] X 0 0 s s1 s3); [done| |clear; set_solver|done]. apply (changes_trans X (q1 :: q2 :: bm.*1) [q1] 0 0 s1 s2 s3); [done|done|clear; set_solver|clear; set_solver]. }
  split; [apply (drops_trans X [] [q2] X [] s s3 s4); [by apply changes_drops|done|done|apply list_subseteq_nil]|].
  assert (Hnil : ∀ q : PageNum, q ∉ []) by (intros; apply not_elem_of_nil). split; [by apply (drops_at_node h _ _ _ _ _ _ _ D4)|]. split; [by apply (drops_at_node h _ _ _ _ _ _ _ D4)|]. split; [done|].
  apply (drops_level h _ _ _ _ _ _ D4); [auto|]. apply (level_stored_changes h 0 [q1] s2); [done| |done]. intros q Hq ->%list_elem_of_singleton. apply Hn2. by right.
Qed.
End merge.
