(* ===== verification/BplusNeighbour.v ===== *)
(** * BplusNeighbour: a node that has become too small, and its neighbour

    [coalesce_or_redistribute] looks the node up in its parent and takes the node on its left,
    or the one on its right if it is the first child. Either both nodes are big enough
    afterwards, or one of them is gone and the parent has a child less. *)
From stdpp Require Import sorting.
From S2P Require Import Prelude Types Encoding KeyCompare LatchMemo LatchMemoSpec BplusNode BplusLog BplusNodeSpec BplusOps BplusNodeOps BplusMoves BplusShape BplusTree BplusRoot BplusInsert BplusGrow BplusLeaves BplusFind BplusGive BplusPair.

(** ** The children of a level *)

Definition below_pages (low : Level) : list PageNum := mjoin ((λ x : PageNum * Node, kid_pages x.2) <$> low).
Definition below_pars (low : Level) : list PageNum := mjoin ((λ x : PageNum * Node, kid_pars x.1 x.2) <$> low).

Lemma below_pages_app l1 l2 : below_pages (l1 ++ l2) = below_pages l1 ++ below_pages l2.
Proof. unfold below_pages. by rewrite fmap_app, join_app. Qed.
Lemma below_pages_cons q N l : below_pages ((q, N) :: l) = kid_pages N ++ below_pages l.
Proof. done. Qed.
Lemma below_pars_app l1 l2 : below_pars (l1 ++ l2) = below_pars l1 ++ below_pars l2.
Proof. unfold below_pars. by rewrite fmap_app, join_app. Qed.
Lemma below_pars_cons q N l : below_pars ((q, N) :: l) = kid_pars q N ++ below_pars l.
Proof. done. Qed.
Lemma length_below low : length (below_pars low) = length (below_pages low).
Proof. induction low as [|[q N] low IH]; [done|]. rewrite below_pars_cons, below_pages_cons, !length_app, IH, length_kids. done. Qed.
Lemma inner_nodes_cons (n : Inner) up : inner_nodes (n :: up) = (n.1, InnerOf 0 n.2) :: inner_nodes up.
Proof. done. Qed.
Lemma below_inner up : below_pages (inner_nodes up) = (kids_of up).*2 ∧ below_pars (inner_nodes up) = parents_of up.
Proof.
  induction up as [|n up [IH1 IH2]]; [done|]. rewrite inner_nodes_cons, below_pages_cons, below_pars_cons, IH1, IH2, kids_cons, parents_cons, fmap_app. done.
Qed.
Lemma below_leaves ls nx : below_pages (leaf_nodes ls nx) = [] ∧ below_pars (leaf_nodes ls nx) = [].
Proof. revert nx. induction ls as [|x ls IH]; intros nx; [done|]. cbn [leaf_nodes]. rewrite below_pages_cons, below_pars_cons. apply IH. Qed.

Lemma max_with h p N : max_of h (with_parent p N) = max_of h N.
Proof. by destruct N. Qed.
Lemma class_with p N : class_of (with_parent p N) = class_of N.
Proof. by destruct N. Qed.
Lemma max_class h N N' : class_of N' = class_of N → max_of h N' = max_of h N.
Proof. by destruct N, N'. Qed.
Lemma kid_pages_with p N : kid_pages (with_parent p N) = kid_pages N.
Proof. by destruct N. Qed.
Lemma kid_pars_with q p N : kid_pars q (with_parent p N) = kid_pars q N.
Proof. by destruct N. Qed.
(** the parent of the nodes is kept *)
Lemma spread_with p Na Nb Na1 Nb1 : spread (with_parent p Na) (with_parent p Nb) Na1 Nb1 → ∃ Na' Nb', Na1 = with_parent p Na' ∧ Nb1 = with_parent p Nb' ∧ spread Na Nb Na' Nb'.
Proof.
  destruct Na as [pa na a|pa a], Nb as [pb nb b|pb b]; inversion 1; subst.
  - exists (LeafOf pa na a'), (LeafOf pb nb b'). split; [done|]. split; [done|]. by constructor.
  - exists (InnerOf pa a'), (InnerOf pb b'). split; [done|]. split; [done|]. by constructor.
Qed.
Lemma fused_with p Na Nb N1 : fused (with_parent p Na) (with_parent p Nb) N1 → ∃ N, N1 = with_parent p N ∧ fused Na Nb N.
Proof.
  destruct Na as [pa na a|pa a], Nb as [pb nb b|pb b]; inversion 1; subst.
  - exists (LeafOf pa nb (a ++ b)). split; [done|constructor].
  - exists (InnerOf pa (a ++ b)). split; [done|constructor].
Qed.
(** pages that are all different: those of a pair, its children and its parent, and the others *)
Lemma pair_pages (o pn q1 q2 : PageNum) (ba bm bb a b ua ub lv : list PageNum) : NoDup (o :: (ba ++ bm ++ bb) ++ (a ++ q1 :: q2 :: b) ++ (ua ++ pn :: ub) ++ lv) →
  NoDup (pn :: q1 :: q2 :: bm) ∧ (o ∉ pn :: q1 :: q2 :: bm) ∧ ∀ r, r ∈ ba ++ bb ++ a ++ b ++ ua ++ ub ++ lv → r ∉ pn :: q1 :: q2 :: bm.
Proof.
  intros (M1 & (M2 & M3 & (M4 & M5 & (M6 & M7 & _)%NoDup_app)%NoDup_app)%NoDup_app)%NoDup_cons.
  apply NoDup_app in M2 as (M8 & M9 & (M10 & M11 & _)%NoDup_app). apply NoDup_app in M4 as (_ & M12 & (M13 & (M14 & _)%NoDup_cons)%NoDup_cons). apply NoDup_app in M6 as (_ & M15 & (M16 & _)%NoDup_cons).
  assert (Hpn : pn ∉ a ++ q1 :: q2 :: b) by (intros Hq; apply (M5 pn Hq); clear; set_solver).
  assert (Hbm : ∀ r, r ∈ bm → r ∉ (a ++ q1 :: q2 :: b) ++ (ua ++ pn :: ub) ++ lv) by (intros r Hr; apply M3; clear - Hr; set_solver).
  split; [|split].
  - apply NoDup_cons. split; [intros [->|[->|Hb]%elem_of_cons]%elem_of_cons; [clear - Hpn; set_solver|clear - Hpn; set_solver|specialize (Hbm pn Hb); clear - Hbm; set_solver]|].
    apply NoDup_cons. split; [intros [->|Hb]%elem_of_cons; [clear - M13; set_solver|specialize (Hbm q1 Hb); clear - Hbm; set_solver]|].
    apply NoDup_cons. split; [intros Hb; specialize (Hbm q2 Hb); clear - Hbm; set_solver|done].
  - clear - M1. set_solver.
  - assert (Hbot : ∀ r, r ∈ (a ++ q1 :: q2 :: b) ++ (ua ++ pn :: ub) ++ lv → r ∉ ba ++ bb) by (intros r Hr Hq; apply (M3 r); [clear - Hq; set_solver|done]).
    assert (Hlow : ∀ r, r ∈ a ++ q1 :: q2 :: b → r ∉ ua ++ ub ++ lv) by (intros r Hr Hq; apply (M5 r Hr); clear - Hq; set_solver).
    assert (H1 : pn ∉ ua ++ ub ++ lv) by (pose proof (λ Hq, M15 pn Hq ltac:(left)) as J1; pose proof (M7 pn) as J2; clear - J1 J2 M16; set_solver).
    assert (H2 : q1 ∉ a ++ b) by (pose proof (λ Hq, M12 q1 Hq ltac:(left)) as J1; clear - J1 M13; set_solver). assert (H3 : q2 ∉ a ++ b) by (pose proof (λ Hq, M12 q2 Hq ltac:(right; left)) as J1; clear - J1 M14; set_solver).
    pose proof (Hbot pn) as B1. pose proof (Hbot q1) as B2. pose proof (Hbot q2) as B3. pose proof (Hlow q1) as L2. pose proof (Hlow q2) as L3.
    intros r Hr [->|[->|[->|Hb]%elem_of_cons]%elem_of_cons]%elem_of_cons.
    + clear - Hr Hpn B1 H1. set_solver.
    + clear - Hr B2 L2 H2. set_solver.
    + clear - Hr B3 L3 H3. set_solver.
    + specialize (Hbm r Hb). pose proof (λ Hq, M9 r Hq) as J1. pose proof (M11 r Hb) as J2. clear - Hr Hb Hbm J1 J2. set_solver.
Qed.

Section neighbour.
Context {P : Type} `{TL : TreePoolLaws P}.
Context (h : IndexFileHeader).
Abbreviation St := (Memo P TreeState).
Implicit Types (s : St) (pn q r : PageNum) (N Na Nb NL : Node) (low lowA lowB bot : Level) (lvls : list (list Inner)) (up uA uB : list Inner).
Abbreviation at_node := (at_node h []).
Abbreviation ready := (ready h []).
Abbreviation stored := (stored h).
Abbreviation level_stored := (level_stored h).
Abbreviation levels_stored := (levels_stored h).
Abbreviation imax := (internal_max_size h).
Context (Hix : index_ok h) (valid : list Z → Prop).
Abbreviation cmp := (comparator h).
Context `{KO : !KeyOrder valid cmp} (Hlen : ∀ k, valid k → len k = key_length h).

(** the child that a key belongs to is found at its place *)
Lemma lookup_at s pn p d1 k0 L d2 key : at_node s pn (InnerOf p (d1 ++ (k0, L) :: d2)) → ascending valid cmp (tail (d1 ++ (k0, L) :: d2).*1) → valid key →
  (d1 ≠ [] → cmp k0 key ≤ 0) → above cmp key d2.*1 → ∃ b pos, internal_lookup pn key s = Some ((len d1, b, pos), s).
Proof.
  intros Hat Hasc Hk H1 H2. assert (Hc : ∀ l l' : list Kid, Forall (λ k, cmp k key ≤ 0) l.*1 → above cmp key l'.*1 → length (filter (λ kq, cmp kq.1 key ≤ 0) (l ++ l')) = length l).
  { intros l l' J1 J2. rewrite filter_app, (list_filter_all _ l), (list_filter_none _ l'), app_nil_r; [done| |]; [unfold above in J2; rewrite Forall_fmap in J2; eapply Forall_impl; [exact J2|]; unfold compose; cbn; lia|by rewrite Forall_fmap in J1]. }
  destruct d1 as [|[ka qa] d1]; cbn [app] in *.
  - destruct (internal_lookup_ok h valid Hlen Hix [] s pn p k0 L d2 key Hat Hk Hasc) as (l1 & l2 & b & pos & -> & J1 & J2 & E & _). exists b, pos. rewrite E.
    assert (l1 = []) as ->; [|done]. pose proof (Hc l1 l2 J1 J2) as E1. pose proof (Hc [] (l1 ++ l2) (Forall_nil_2 _) H2) as E2. cbn [app] in E2. rewrite E2 in E1. by destruct l1.
  - specialize (H1 ltac:(done)). cbn in Hasc. destruct (internal_lookup_ok h valid Hlen Hix [] s pn p ka qa (d1 ++ (k0, L) :: d2) key Hat Hk Hasc) as (l1 & l2 & b & pos & El & J1 & J2 & E & _). exists b, pos. rewrite E. enough (len l1 = len ((ka, qa) :: d1)) as -> by done.
    assert (El1 : length l1 = length (d1 ++ [(k0, L)])).
    { rewrite <-(Hc l1 l2 J1 J2), <-El. change ((k0, L) :: d2) with ([(k0, L)] ++ d2). rewrite app_assoc. apply Hc; [|done].
      rewrite fmap_app. cbn. rewrite fmap_app in Hasc. cbn in Hasc. apply ascending_app in Hasc as ([Hv1 _] & Hasc & H12). apply ascending_cons in Hasc as (Hv0 & _). apply Forall_app. split; [|by constructor].
      apply Forall_forall. intros x Hx. pose proof (H12 x k0 Hx ltac:(left)) as Hlt. rewrite Forall_forall in Hv1. pose proof (cmp_lt_le_trans x k0 key (Hv1 x Hx) Hv0 Hk Hlt H1). lia. }
    rewrite length_app in El1. unfold len. cbn [length] in *. lia.
Qed.

(** ** Two children that follow each other *)

Record pairing s up lvls (A : list Kid) k1 q1 k2 q2 (B : list Kid) lowA Na Nb lowB uA pn c1 k1p c2 uB p1 pp p2 : Prop := {
  pg_up : up = uA ++ (pn, c1 ++ (k1p, q1) :: (k2, q2) :: c2) :: uB;
  pg_A : same_tail (kids_of uA ++ c1) A;
  pg_k : A ≠ [] → k1p = k1;
  pg_B : B = c2 ++ kids_of uB;
  pg_lowA : lowA.*1 = A.*2;
  pg_lowB : lowB.*1 = B.*2;
  pg_pars : pars lvls = p1 ++ pp :: p2 ∧ length uA = length p1;
  pg_nodes : stored s q1 (with_parent pn Na) ∧ stored s q2 (with_parent pn Nb);
  pg_parent : stored s pn (InnerOf pp (c1 ++ (k1p, q1) :: (k2, q2) :: c2));
}.

(** [L] and the node next to it below the same parent *)
Lemma pairing_ok s up lvls A k L B lowA NL lowB : same_tail (kids_of up) (A ++ (k, L) :: B) → lowA.*1 = A.*2 → lowB.*1 = B.*2 →
  level_stored s (lowA ++ (L, NL) :: lowB) (pars (up :: lvls)) → levels_stored s (up :: lvls) → Forall (λ n : Inner, 2 ≤ len n.2) up →
  ∃ A' k1 q1 k2 q2 B' lowA' Na Nb lowB' uA pn c1 k1p c2 uB p1 pp p2 neighbor index,
    pairing s up lvls A' k1 q1 k2 q2 B' lowA' Na Nb lowB' uA pn c1 k1p c2 uB p1 pp p2 ∧ A ++ (k, L) :: B = A' ++ (k1, q1) :: (k2, q2) :: B' ∧
    lowA ++ (L, NL) :: lowB = lowA' ++ (q1, Na) :: (q2, Nb) :: lowB' ∧ chosen c1 q1 q2 L neighbor index ∧
    ((L = q1 ∧ NL = Na ∧ A = A') ∨ (L = q2 ∧ NL = Nb ∧ A = A' ++ [(k1, q1)] ∧ k = k2)).
Proof.
  intros Hs ElA ElB Hlow Hlv H2. destruct (beneath_ok h s up lvls A k L B lowA NL lowB Hs ElA ElB Hlow Hlv) as (uA & pn & c1 & k0 & c2 & uB & p1 & pp & p2 & lA & l1 & l2 & lB & []).
  assert (Hk2 : 2 ≤ len (c1 ++ (k0, L) :: c2)) by (rewrite be_up, Forall_app, Forall_cons in H2; apply H2). destruct be_low as [E1 E2].
  destruct c1 as [|[k1p q1] c1 _] using rev_ind.
  - destruct c2 as [|[k2 q2] c2]; [unfold len in Hk2; cbn in Hk2; lia|]. destruct l1; [|done]. destruct l2 as [|[q2' Nb] l2]; [done|]. cbn in be_l2. injection be_l2 as -> be_l2.
    exists A, k, L, k2, q2, (c2 ++ kids_of uB), lowA, NL, Nb, (l2 ++ lB), uA, pn, [], k0, c2, uB, p1, pp, p2, q2, 0.
    split; [|split; [by subst B|split; [by subst lowB|split; [by left|by left]]]]. constructor; try done.
    + subst B lowB. cbn in ElB. by injection ElB.
    + split; [by apply (level_child h s [] L NL ((q2, Nb) :: l2) (length ([] ++ (L, NL) :: (q2, Nb) :: l2)))|by apply (level_child h s [(L, NL)] q2 Nb l2 (length ([] ++ (L, NL) :: (q2, Nb) :: l2)))].
  - pose proof (same_tail_sym _ _ be_A) as Hst. rewrite app_assoc in Hst. apply same_tail_split in Hst as (A' & k1 & -> & LA & HsA & Hk1). rewrite fmap_app in be_l1. cbn in be_l1. apply fmap_app_inv in be_l1 as (l1' & l1x & El1 & El1x & ->).
    destruct l1x as [|[q1' Na] [|]]; [done| |done]. cbn in El1x. injection El1x as <-. rewrite be_k in * by (by destruct A').
    assert (ElA' : (lA ++ l1').*1 = A'.*2) by (subst lowA; rewrite app_assoc, !fmap_app in ElA; cbn in ElA; rewrite fmap_app; by apply app_inj_2 in ElA as [? _]).
    exists A', k1, q1, k, L, B, (lA ++ l1'), Na, NL, lowB, uA, pn, c1, k1p, c2, uB, p1, pp, p2, q1, (len c1 + 1).
    split; [|split; [by rewrite <-app_assoc|split; [subst lowA; by rewrite <-!app_assoc|split; [by right|by right]]]]. rewrite <-app_assoc in *. cbn [app] in *. constructor; try done.
    + by apply same_tail_sym.
    + intros HA. symmetry. apply Hk1. intros E. rewrite E in HsA. apply same_tail_length in HsA. by destruct A'.
    + split; [by apply (level_child h s l1' q1 Na ((L, NL) :: l2) (length (l1' ++ (q1, Na) :: (L, NL) :: l2)))|].
      apply (level_child h s (l1' ++ [(q1, Na)]) L NL l2 (length (l1' ++ (q1, Na) :: (L, NL) :: l2))). by rewrite <-app_assoc.
Qed.

(** ** A node that is too small *)

(** with smaller nodes the last key of a node may be one that separates nothing *)
Context (Hcap : 4 ≤ leaf_max_size h ∧ 6 ≤ imax).
Definition half N : Z := Z.quot (max_of h N) 2.
Lemma half_bounds N : 2 ≤ half N ∧ half N ≤ max_of h N - half N ≤ half N + 1.
Proof. unfold half. assert (4 ≤ max_of h N) by (destruct N; cbn; lia). pose proof (Z.quot_rem' (max_of h N) 2). pose proof (Z.rem_bound_pos (max_of h N) 2). lia. Qed.
Lemma half_class N N' : class_of N' = class_of N → half N' = half N.
Proof. intros E. unfold half. by rewrite (max_class h N N' E). Qed.

(** the node [L] among the nodes [lowA ++ (L, NL) :: lowB] of a level; [bot] is the level below *)
Record deficient s bot (A : list Kid) k L (B : list Kid) lowA NL lowB up lvls root : Prop := {
  df_ready : ready s;
  df_header : header_page s;
  df_root : root_page (tree_header s) = root;
  df_levels : levels_ok imax (as_kids up) lvls root;
  df_same : same_tail (kids_of up) (A ++ (k, L) :: B);
  df_upsized : Forall (inner_sized imax (is_top lvls)) up;
  df_lowA : lowA.*1 = A.*2;
  df_lowB : lowB.*1 = B.*2;
  df_low : level_stored s (lowA ++ (L, NL) :: lowB) (parents_of up);
  df_lvls : levels_stored s (up :: lvls);
  df_bot : bot.*1 = below_pages (lowA ++ (L, NL) :: lowB);
  df_kids : level_stored s bot (below_pars (lowA ++ (L, NL) :: lowB));
  df_class : Forall (λ x : PageNum * Node, class_of x.2 = class_of NL) (lowA ++ lowB);
  df_sized : Forall (λ x : PageNum * Node, half NL ≤ size_of x.2 ≤ max_of h NL) (lowA ++ lowB);
  df_short : half NL - 1 ≤ size_of NL < max_of h NL - half NL;
  df_held : held s L;
  df_latched : ∀ r, latched s (OnFrame r) → (r ∈ (A ++ (k, L) :: B).*2 → r = L) ∧ (r ∈ level_pages (up :: lvls) → over (up :: lvls) L r) ∧ r ≠ FIRST_INDEX_PAGE;
  df_pages : NoDup (FIRST_INDEX_PAGE :: bot.*1 ++ (A ++ (k, L) :: B).*2 ++ level_pages (up :: lvls));
  df_keys : ascending valid cmp (tail (A ++ (k, L) :: B).*1);
  df_last : ∃ kl, rd (keys_of NL) (size_of NL - 1) = Some kl ∧ valid kl ∧ covers (cmp := cmp) kl A.*1 k B.*1;
}.
(** [pn] may have become too small: [es] are the nodes below its level [up] *)
Record thin s bot (es : list Kid) up lvls uA pn (ks : list Kid) uB root : Prop := {
  th_ready : ready s;
  th_header : header_page s;
  th_root : root_page (tree_header s) = root;
  th_up : up = uA ++ (pn, ks) :: uB;
  th_same : same_tail (kids_of up) es;
  th_sized : Forall (inner_sized imax (is_top lvls)) (uA ++ uB);
  th_node : (if is_top lvls then 1 else Z.quot imax 2 - 1) ≤ len ks ≤ imax;
  th_levels : levels_ok imax (as_kids up) lvls root;
  th_bot : bot.*1 = es.*2;
  th_kids : level_stored s bot (parents_of up);
  th_lvls : levels_stored s (up :: lvls);
  th_held : held s pn;
  th_latched : ∀ r, latched s (OnFrame r) → (r ∈ up.*1 → r = pn) ∧ (r ∈ level_pages lvls → over lvls pn r) ∧ r ≠ FIRST_INDEX_PAGE;
  th_pages : NoDup (FIRST_INDEX_PAGE :: es.*2 ++ level_pages (up :: lvls));
  th_keys : ascending valid cmp (tail es.*1);
}.
(** [low] and [up] take the place of two levels of a tree, the pages [D] are given up *)
Record stepped D X s bot low up lvls s' : Prop := {
  sp_drops : drops D X s s';
  sp_bot : level_stored s' bot (below_pars low);
  sp_low : level_stored s' low (parents_of up);
  sp_lvls : levels_stored s' (up :: lvls);
}.

Section step.
Context (n : nat) (s : St) (bot : Level) (A : list Kid) (k : list Z) (L : PageNum) (B : list Kid) (lowA : Level) (NL : Node) (lowB : Level) (up : list Inner) (lvls : list (list Inner)) (root : PageNum).
Context (Hdf : deficient s bot A k L B lowA NL lowB up lvls root).
Context (A' : list Kid) (k1 : list Z) (q1 : PageNum) (k2 : list Z) (q2 : PageNum) (B' : list Kid) (lowA' : Level) (Na Nb : Node) (lowB' : Level) (uA : list Inner) (pn : PageNum) (c1 : list Kid) (k1p : list Z) (c2 : list Kid) (uB : list Inner).
Context (p1 : list PageNum) (pp : PageNum) (p2 : list PageNum) (neighbor : PageNum) (index : Z).
Context (Hpg : pairing s up lvls A' k1 q1 k2 q2 B' lowA' Na Nb lowB' uA pn c1 k1p c2 uB p1 pp p2).
Context (Ees : A ++ (k, L) :: B = A' ++ (k1, q1) :: (k2, q2) :: B') (Elow : lowA ++ (L, NL) :: lowB = lowA' ++ (q1, Na) :: (q2, Nb) :: lowB').
Context (Hch : chosen c1 q1 q2 L neighbor index) (Hwho : (L = q1 ∧ NL = Na ∧ A = A') ∨ (L = q2 ∧ NL = Nb ∧ A = A' ++ [(k1, q1)] ∧ k = k2)).
Abbreviation kids := (c1 ++ (k1p, q1) :: (k2, q2) :: c2).
Abbreviation N1 := (with_parent pn Na).
Abbreviation N2 := (with_parent pn Nb).

Lemma pair_apart bA bm bB : bot = bA ++ bm ++ bB → NoDup (pn :: q1 :: q2 :: bm.*1) ∧ (FIRST_INDEX_PAGE ∉ pn :: q1 :: q2 :: bm.*1) ∧
  ∀ r, r ∈ bA.*1 ++ bB.*1 ++ lowA'.*1 ++ lowB'.*1 ++ uA.*1 ++ uB.*1 ++ level_pages lvls → r ∉ pn :: q1 :: q2 :: bm.*1.
Proof.
  intros Eb. destruct Hdf, Hpg. apply pair_pages. rewrite pg_lowA0, pg_lowB0. rewrite Ees, Eb, !fmap_app in df_pages0. unfold level_pages in df_pages0. cbn in df_pages0. rewrite pg_up0, fmap_app in df_pages0. exact df_pages0.
Qed.
(** the children of the pair *)
Lemma pair_bot : ∃ bA bm bB, bot = bA ++ bm ++ bB ∧ bm.*1 = kid_pages Na ++ kid_pages Nb ∧ length bA = length (below_pars lowA') ∧ length bm = length (kid_pars q1 Na ++ kid_pars q2 Nb) ∧
  level_stored s bA (below_pars lowA') ∧ level_stored s bm (kid_pars q1 Na ++ kid_pars q2 Nb) ∧ level_stored s bB (below_pars lowB').
Proof.
  destruct Hdf. rewrite Elow, below_pages_app, !below_pages_cons, (app_assoc (kid_pages Na)) in df_bot0. apply fmap_app_inv in df_bot0 as (bA & b' & EA & E' & Eb). symmetry in E'. apply fmap_app_inv in E' as (bm & bB & Em & EB & ->).
  assert (LA : length bA = length (below_pars lowA')) by (rewrite length_below, EA; by rewrite length_fmap). assert (Lm : length bm = length (kid_pars q1 Na ++ kid_pars q2 Nb)) by (rewrite length_app, !length_kids, <-length_app, Em; by rewrite length_fmap).
  exists bA, bm, bB. split; [done|]. split; [done|]. split; [done|]. split; [done|]. rewrite Elow, Eb, below_pars_app, !below_pars_cons, (app_assoc (kid_pars q1 Na)) in df_kids0.
  rewrite (level_stored_app h) in df_kids0 by done. destruct df_kids0 as [H1 H2]. rewrite (level_stored_app h) in H2 by done. done.
Qed.

Lemma frame_stored : stored s L (with_parent pn NL).
Proof. destruct Hpg, pg_nodes0. by destruct Hwho as [(-> & -> & _)|(-> & -> & _)]. Qed.
Lemma pair_distinct : q1 ≠ q2 ∧ pn ≠ q1 ∧ pn ≠ q2.
Proof. destruct pair_bot as (bA & bm & bB & Eb & _). destruct (pair_apart bA bm bB Eb) as (Hnd & _ & _). clear - Hnd. apply NoDup_cons in Hnd as [H1 Hnd]. apply NoDup_cons in Hnd as [H2 _]. set_solver. Qed.
Lemma neighbor_at : neighbor ≠ L ∧ neighbor ∈ [q1; q2] ∧ internal_value_at pn (if index =? 0 then 1 else index - 1) = internal_value_at pn (if decide (L = q1) then len c1 + 1 else len c1).
Proof.
  destruct pair_distinct as [Hne _]. pose proof (len_pos c1) as Hp. clear - Hch Hne Hp. destruct Hch as [(-> & -> & -> & ->)|(-> & -> & ->)].
  - split; [done|]. split; [right; left|]. by rewrite decide_True.
  - split; [done|]. split; [left|]. rewrite (proj2 (Z.eqb_neq _ 0)), decide_False by (done || lia). f_equal. lia.
Qed.
(** the child's place in the parent *)
Lemma found s1 kl : at_node s1 pn (InnerOf pp kids) → valid kl → covers (cmp := cmp) kl A.*1 k B.*1 → ∃ b pos, internal_lookup pn kl s1 = Some ((index, b, pos), s1) ∧ internal_value_at pn index s1 = Some (L, s1).
Proof.
  intros Hat Hv [Hc1 Hc2]. destruct Hdf, Hpg. assert (Hasc : ascending valid cmp (tail kids.*1)).
  { rewrite pg_up0, kids_app, kids_cons in df_same0. cbn [snd] in df_same0. rewrite <-(proj2 df_same0) in df_keys0. by apply (ascending_tail_mid h valid (kids_of uA) _ (kids_of uB)) in df_keys0. }
  assert (HB : B = (if decide (L = q1) then [(k2, q2)] else []) ++ c2 ++ kids_of uB).
  { destruct pair_distinct as [Hne _]. destruct Hwho as [(E1 & E2 & E3)|(E1 & E2 & E3 & E4)]; rewrite E3 in Ees.
    - rewrite decide_True by done. apply app_inv_head in Ees. injection Ees as _ _ Ees. by rewrite Ees, pg_B0.
    - rewrite decide_False by congruence. rewrite <-app_assoc in Ees. apply app_inv_head in Ees. injection Ees as _ _ Ees. by rewrite Ees. }
  rewrite HB, !fmap_app in Hc2. unfold above in Hc2. rewrite !Forall_app in Hc2. destruct Hc2 as (Hc2 & Hc3 & _). destruct pair_distinct as [Hne _].
  destruct Hch as [(Ec1 & E1 & E2 & E3)|(E1 & E2 & E3)].
  - subst c1 index. assert (EA : A = A') by (destruct Hwho as [(_ & _ & ?)|(E4 & _)]; [done|congruence]). rewrite decide_True in Hc2 by done.
    destruct (lookup_at s1 pn pp [] k1p q1 ((k2, q2) :: c2) kl Hat Hasc Hv) as (b & pos & E); [done|inversion_clear Hc2; by constructor|].
    exists b, pos. split; [done|]. rewrite E1. by eapply (value_at_ok h [] s1 pn pp [] k1p q1).
  - assert (Hw : A = A' ++ [(k1, q1)] ∧ k = k2) by (destruct Hwho as [(E4 & _)|(_ & _ & ? & ?)]; [congruence|done]). destruct Hw as [EA Ek]. rewrite <-Ek in Hat, Hasc.
    assert (Hat' : at_node s1 pn (InnerOf pp ((c1 ++ [(k1p, q1)]) ++ (k, q2) :: c2))) by (by rewrite <-app_assoc). assert (El : len (c1 ++ [(k1p, q1)]) = index) by (rewrite len_app, E3; done).
    destruct (lookup_at s1 pn pp (c1 ++ [(k1p, q1)]) k q2 c2 kl Hat') as (b & pos & E); [by rewrite <-app_assoc|done|intros _; apply Hc1; rewrite EA; by destruct A'|done|].
    rewrite El in E. exists b, pos. split; [done|]. rewrite E1, <-El. by eapply (value_at_ok h [] s1 pn pp (c1 ++ [(k1p, q1)]) k q2).
Qed.

Lemma fetched : ∃ s1, coalesce_or_redistribute (S n) (class_of NL) L s =
    (if max_of h NL <? size_of Na + size_of Nb then redistribute (class_of NL) neighbor L pn index else coalesce (coalesce_or_redistribute n InternalNode) (class_of NL) neighbor L pn index) s1 ∧
  changes 0 [neighbor] s s1 ∧ pages s1 = pages s ∧ at_node s1 q1 N1 ∧ at_node s1 q2 N2 ∧ at_node s1 pn (InnerOf pp kids).
Proof.
  pose proof Hdf as []. pose proof Hpg as []. destruct pg_nodes0 as [St1 St2]. destruct df_last0 as (kl & Hkl & Hvkl & Hcov). destruct (half_bounds NL) as [Hh1 Hh2].
  assert (HL : at_node s L (with_parent pn NL)) by (split; [done|]; split; [done|apply frame_stored]).
  cbn [coalesce_or_redistribute]. run (size_ok _ _ _ _ _ HL). run (min_size_ok _ _ _ _ _ HL). rewrite size_with, max_with. fold (half NL). rewrite (proj2 (Z.leb_gt _ _)) by lia. run (parent_ok _ _ _ _ _ HL). rewrite parent_with.
  pose proof (page_int32 _ _ _ (proj1 df_ready0) (stored_exists _ _ _ _ pg_parent0)) as Bpn. rewrite (proj2 (Z.eqb_neq _ pn)) by (unfold BP_INVALID_PAGE_NUM; lia).
  destruct (get_page_changes h [] s pn df_ready0 (stored_exists _ _ _ _ pg_parent0)) as (s1 & E1 & C1 & Hh & _). run E1. change (OB_FAIL SUCCESS) with false. cbv iota.
  assert (HL1 : at_node s1 L (with_parent pn NL)) by (eapply at_node_changes; [exact C1|apply not_elem_of_nil|done]).
  assert (Ekl : key_at (class_of NL) L (size_of NL - 1) s1 = Some (kl, s1)) by (rewrite <-(class_with pn NL); apply (key_at_ok _ _ _ _ _ HL1); by rewrite keys_with). run Ekl.
  assert (Hst1 : ∀ q N, stored s q N → stored s1 q N) by (intros q N; apply (changes_stored h 0 [] s); [done|apply not_elem_of_nil]).
  assert (Hp1 : at_node s1 pn (InnerOf pp kids)) by (split; [apply HL1|]; split; [done|auto]). destruct (found s1 kl Hp1 Hvkl Hcov) as (b & pos & E2 & E3). run E2. cbn [fst snd]. run E3. rewrite Z.eqb_refl, bind_assertM by done.
  destruct neighbor_at as (Hne & Hnb & En). rewrite (bind_eq (internal_value_at pn (if index =? 0 then 1 else index - 1)) _ s1 neighbor s1).
  2:{ rewrite En. destruct pair_distinct as [Hq12 _]. destruct Hch as [(Ec1 & E4 & E5 & _)|(E4 & E5 & _)].
      - rewrite decide_True, E5 by done. assert (Hp1' : at_node s1 pn (InnerOf pp ((c1 ++ [(k1p, q1)]) ++ (k2, q2) :: c2))) by (by rewrite <-app_assoc). replace (len c1 + 1) with (len (c1 ++ [(k1p, q1)])) by (rewrite len_app; done). by eapply (value_at_ok h [] s1 pn pp (c1 ++ [(k1p, q1)]) k2 q2).
      - rewrite decide_False, E5 by congruence. by eapply (value_at_ok h [] s1 pn pp c1 k1p q1). }
  assert (Hex : is_Some (pages s1 !! neighbor)) by (apply (ch_exists _ _ _ _ C1); apply elem_of_cons in Hnb as [->|Hnb]; [by apply (stored_exists _ _ _ _ St1)|apply list_elem_of_singleton in Hnb as ->; by apply (stored_exists _ _ _ _ St2)]).
  destruct (get_page_changes h [] s1 neighbor (proj1 HL1) Hex) as (s2 & E4 & C2 & Hh2' & Hi). run E4. change (OB_FAIL SUCCESS) with false. cbv iota. pose proof (changes_ready h _ _ [] _ _ C2 (proj1 HL1)) as Hr2.
  assert (Hul : ¬ latched s2 (OnFrame neighbor)).
  { intros Hl. destruct (ch_latched _ _ _ _ C2 _ Hl) as [Hl1|(r & Hr & _)]; [|by apply elem_of_nil in Hr]. destruct (ch_latched _ _ _ _ C1 _ Hl1) as [Hl0|(r & Hr & _)]; [|by apply elem_of_nil in Hr].
    apply Hne, (df_latched0 _ Hl0). rewrite Ees, fmap_app. cbn. clear - Hnb. set_solver. }
  destruct (xlatch_changes h [] s2 neighbor Hr2 Hi Hul) as (s3 & E5 & C3 & Ep3). run E5.
  assert (C : changes 0 [neighbor] s s3) by (apply (changes_trans [neighbor] [] [neighbor] 0 0 s s1 s3); [done|by apply (changes_trans [neighbor] [] [neighbor] 0 0 s1 s2 s3); [..|apply list_subseteq_nil|]|apply list_subseteq_nil|done]).
  assert (Ep : pages s3 = pages s) by (rewrite Ep3; apply map_eq; intros q; rewrite (ch_pages _ _ _ _ C2), (ch_pages _ _ _ _ C1) by apply not_elem_of_nil; done).
  assert (Hst3 : ∀ q N, stored s q N → stored s3 q N) by (intros q N (g & Hg & HN); exists g; by rewrite Ep). pose proof (changes_ready h _ _ [] _ _ C df_ready0) as Hr3.
  assert (Hhn : held s3 neighbor) by (apply (ch_held _ _ _ _ C3); done). assert (HhL : held s3 L) by (by apply (ch_held _ _ _ _ C)). assert (Hhp : held s3 pn) by (apply (ch_held _ _ _ _ C3), (ch_held _ _ _ _ C2); done).
  exists s3. assert (H3 : at_node s3 q1 N1 ∧ at_node s3 q2 N2 ∧ size L s3 = Some (size_of NL, s3) ∧ max_size L s3 = Some (max_of h NL, s3) ∧ ∃ kn, size neighbor s3 = Some (kn, s3) ∧ size_of NL + kn = size_of Na + size_of Nb).
  { assert (Hat : ∀ q N, held s3 q → stored s q (with_parent pn N) → at_node s3 q (with_parent pn N) ∧ size q s3 = Some (size_of N, s3) ∧ max_size q s3 = Some (max_of h N, s3)).
    { intros q N Hq HN. assert (Hat : at_node s3 q (with_parent pn N)) by (split; [done|]; split; [done|auto]). split; [done|]. rewrite <-(size_with pn N), <-(max_with h pn N). split; [apply (size_ok _ _ _ _ _ Hat)|apply (max_size_ok _ _ _ _ _ Hat)]. }
    destruct pair_distinct as [Hq12 _]. destruct Hwho as [(E6 & E7 & _)|(E6 & E7 & _)].
    - assert (neighbor = q2) as -> by (destruct Hch as [(_ & _ & ? & _)|(? & _)]; congruence). rewrite E6, E7 in *. destruct (Hat q1 Na HhL St1) as (J1 & J2 & J3). destruct (Hat q2 Nb Hhn St2) as (J4 & J5 & _). do 4 (split; [done|]). by eexists.
    - assert (neighbor = q1) as -> by (destruct Hch as [(_ & ? & _)|(_ & ? & _)]; congruence). rewrite E6, E7 in *. destruct (Hat q2 Nb HhL St2) as (J1 & J2 & J3). destruct (Hat q1 Na Hhn St1) as (J4 & J5 & _). do 4 (split; [done|]). eexists. split; [done|lia]. }
  destruct H3 as (J1 & J2 & E6 & E7 & kn & E8 & Hsum). run E6. run E8. run E7. rewrite Hsum. split; [by destruct (_ <? _)|]. split; [done|]. split; [done|]. split; [done|]. split; [done|]. split; [done|]. split; [done|auto].
Qed.

Lemma low_split : (L = q1 ∧ NL = Na ∧ lowA = lowA' ∧ lowB = (q2, Nb) :: lowB') ∨ (L = q2 ∧ NL = Nb ∧ lowA = lowA' ++ [(q1, Na)] ∧ lowB = lowB').
Proof.
  destruct Hdf, Hpg. assert (Hl : length lowA = length A) by (by apply (fmap_length_eq fst snd)). assert (Hl' : length lowA' = length A') by (by apply (fmap_length_eq fst snd)).
  destruct Hwho as [(-> & -> & EA)|(-> & -> & EA & _)]; [left|right]; (split; [done|]); (split; [done|]).
  - apply app_inj_1 in Elow as [-> E]; [by injection E as ->|congruence].
  - change ((q1, Na) :: (q2, Nb) :: lowB') with ([(q1, Na)] ++ (q2, Nb) :: lowB') in Elow. rewrite app_assoc in Elow. apply app_inj_1 in Elow as [-> E]; [by injection E as ->|]. rewrite Hl, EA, !length_app, Hl'. done.
Qed.
Lemma pair_facts : class_of Na = class_of NL ∧ class_of Nb = class_of NL ∧
  half NL - 1 ≤ of_frame q1 L (size_of Na) (size_of Nb) < max_of h NL - half NL ∧ half NL ≤ of_frame q1 L (size_of Nb) (size_of Na) ≤ max_of h NL.
Proof.
  destruct pair_distinct as [Hne _]. destruct Hdf. unfold of_frame. destruct low_split as [(-> & <- & -> & ->)|(-> & <- & -> & ->)].
  - rewrite !decide_True by done. rewrite Forall_app, Forall_cons in *. destruct df_class0 as (_ & Hc & _), df_sized0 as (_ & Hs & _). done.
  - rewrite !decide_False by done. rewrite !Forall_app, Forall_cons in *. destruct df_class0 as ((_ & Hc & _) & _), df_sized0 as ((_ & Hs & _) & _). done.
Qed.

(** the levels after the pair [lowm], with the items [km] in the parent, took the place of the two nodes *)
Lemma rebuilt D s' bA bm bB lowm km : bot = bA ++ bm ++ bB → level_stored s bA (below_pars lowA') → level_stored s bB (below_pars lowB') → drops D (pn :: q1 :: q2 :: bm.*1) s s' →
  level_stored s' bm (below_pars lowm) → level_stored s' lowm (replicate (length lowm) pn) → stored s' pn (InnerOf pp (c1 ++ km ++ c2)) → length km = length lowm →
  stepped D (pn :: q1 :: q2 :: bot.*1) s bot (lowA' ++ lowm ++ lowB') (uA ++ (pn, c1 ++ km ++ c2) :: uB) lvls s'.
Proof.
  intros Eb HbA HbB Hd Hbm Hlm Hpn Hkm. destruct (pair_apart bA bm bB Eb) as (Hnd & _ & HX). destruct Hdf, Hpg.
  assert (Hkeep : ∀ low ps, (∀ r, r ∈ low.*1 → r ∈ bA.*1 ++ bB.*1 ++ lowA'.*1 ++ lowB'.*1 ++ uA.*1 ++ uB.*1 ++ level_pages lvls) → level_stored s low ps → level_stored s' low ps).
  { intros low ps Hin. apply (drops_level h _ _ _ _ _ _ Hd). intros q Hq. by apply HX, Hin. }
  constructor.
  - eapply drops_weaken; [|exact Hd]. rewrite Eb, !fmap_app. clear. set_solver.
  - rewrite Eb, !below_pars_app. rewrite (level_stored_app h) by (by apply (level_stored_length h) in HbA). split; [apply Hkeep; [clear; set_solver|done]|].
    rewrite (level_stored_app h) by (by apply (level_stored_length h) in Hbm). split; [done|apply Hkeep; [clear; set_solver|done]].
  - assert (Lc : length lowA' = length (parents_of uA ++ replicate (length c1) pn)).
    { rewrite length_app, length_replicate, length_parents, <-length_app, (same_tail_length _ _ pg_A0). by apply (fmap_length_eq fst snd). }
    assert (E : ∀ m, parents_of (uA ++ (pn, c1 ++ m ++ c2) :: uB) = (parents_of uA ++ replicate (length c1) pn) ++ replicate (length m) pn ++ replicate (length c2) pn ++ parents_of uB).
    { intros m. rewrite parents_app, parents_cons. cbn [fst snd]. rewrite !length_app, !replicate_add, <-!app_assoc. done. }
    rewrite Elow, pg_up0 in df_low0. change (c1 ++ (k1p, q1) :: (k2, q2) :: c2) with (c1 ++ [(k1p, q1); (k2, q2)] ++ c2) in df_low0. rewrite E in df_low0. rewrite (E km), Hkm. rewrite (level_stored_app h) in df_low0 by done. destruct df_low0 as [HA HB]. cbn [length replicate app] in HB. rewrite !level_stored_cons in HB. destruct HB as (_ & _ & HB).
    rewrite (level_stored_app h) by done. split; [apply Hkeep; [clear; set_solver|done]|]. rewrite (level_stored_app h) by (by rewrite length_replicate). split; [done|]. apply Hkeep; [clear; set_solver|done].
  - destruct df_lvls0 as [Hup Hlv]. destruct pg_pars0 as [Epp Lpp]. cbn [levels_stored]. split; [|apply (drops_levels h _ _ _ _ _ Hd); [|done]; intros q Hq; apply HX; clear - Hq; set_solver].
    rewrite pg_up0, Epp in Hup. rewrite Epp. rewrite inner_nodes_app, inner_nodes_cons in *. cbn [fst snd] in *. rewrite (level_stored_app h) in * by (unfold inner_nodes; by rewrite length_fmap). rewrite !level_stored_cons in *. destruct Hup as (HuA & _ & HuB).
    split; [apply Hkeep; [rewrite inner_nodes_pages; clear; set_solver|done]|]. split; [done|]. apply Hkeep; [|done]. rewrite inner_nodes_pages. clear. set_solver.
Qed.

(** one item moves over *)
Lemma step_balanced : max_of h NL < size_of Na + size_of Nb →
  ∃ s' Na' Nb' k2', coalesce_or_redistribute (S n) (class_of NL) L s = Some (SUCCESS, s') ∧ spread Na Nb Na' Nb' ∧ rd (keys_of Nb') 0 = Some k2' ∧ half NL ≤ size_of Na' ≤ max_of h NL ∧ half NL ≤ size_of Nb' ≤ max_of h NL ∧
    stepped [] (pn :: q1 :: q2 :: bot.*1) s bot (lowA' ++ [(q1, Na'); (q2, Nb')] ++ lowB') (uA ++ (pn, c1 ++ [(k1p, q1); (k2', q2)] ++ c2) :: uB) lvls s'.
Proof.
  intros Hsum. destruct fetched as (s1 & E & C1 & Ep & H1 & H2 & Hp). rewrite (proj2 (Z.ltb_lt _ _)) in E by done. destruct pair_bot as (bA & bm & bB & Eb & Ebm & LA & Lm & HbA & Hbm & HbB). destruct (pair_apart bA bm bB Eb) as (Hnd & _ & HX).
  destruct pair_facts as (Eca & Ecb & Hf & Hnb). destruct (half_bounds NL) as [Hh1 Hh2]. rewrite <-(max_class h _ _ Eca), <-(max_with h pn Na) in *. rewrite <-Eca, <-(class_with pn Na) in *. rewrite <-(size_with pn Na), <-(size_with pn Nb) in *.
  assert (Hbm1 : level_stored s1 bm (kid_pars q1 N1 ++ kid_pars q2 N2)).
  { rewrite !kid_pars_with. eapply Forall2_impl; [exact Hbm|]. intros x p (g & Hg & HN). exists g. by rewrite Ep. }
  destruct (redistribute_ok h Hix s1 pn pp c1 k1p q1 k2 q2 c2 N1 N2 bm H1 H2 Hp ltac:(by rewrite !class_with in *; congruence) ltac:(by rewrite !kid_pages_with) Hbm1 Hnd (half NL) (conj Hh1 Hh2) ltac:(apply max_class; rewrite !class_with in *; congruence) L neighbor index Hch Hsum Hf Hnb)
    as (s2 & M1 & M2 & k2' & E2 & C2 & J1 & J2 & J3 & Hsp & Hk2 & Hs1 & Hs2 & Hbm2).
  destruct (spread_with pn Na Nb M1 M2 Hsp) as (Na' & Nb' & -> & -> & Hsp'). exists s2, Na', Nb', k2'. rewrite E. split; [done|]. split; [done|]. rewrite keys_with in Hk2. rewrite !size_with in Hs1, Hs2. do 3 (split; [done|]).
  assert (C : changes 0 (pn :: q1 :: q2 :: bm.*1) s s2) by (apply (changes_trans _ [neighbor] (pn :: q1 :: q2 :: bm.*1) 0 0 s s1 s2); [done|done|destruct neighbor_at as (_ & Hin & _); clear - Hin; set_solver|done]).
  apply (rebuilt [] s2 bA bm bB [(q1, Na'); (q2, Nb')] [(k1p, q1); (k2', q2)]); try done.
  - by apply changes_drops.
  - rewrite !below_pars_cons, app_nil_r. by rewrite !kid_pars_with in Hbm2.
  - cbn [length replicate]. apply level_stored_cons. split; [apply J1|]. apply level_stored_cons. split; [apply J2|constructor].
  - apply J3.
Qed.
(** the two nodes become one *)
Lemma step_merged : size_of Na + size_of Nb ≤ max_of h NL →
  ∃ s' N, coalesce_or_redistribute (S n) (class_of NL) L s = coalesce_or_redistribute n InternalNode pn s' ∧ fused Na Nb N ∧ half NL ≤ size_of N ≤ max_of h NL ∧ held s' pn ∧
    stepped [q2] (pn :: q1 :: q2 :: bot.*1) s bot (lowA' ++ [(q1, N)] ++ lowB') (uA ++ (pn, c1 ++ [(k1p, q1)] ++ c2) :: uB) lvls s'.
Proof.
  intros Hsum. destruct fetched as (s1 & E & C1 & Ep & H1 & H2 & Hp). rewrite (proj2 (Z.ltb_ge _ _)) in E by done. destruct pair_bot as (bA & bm & bB & Eb & Ebm & LA & Lm & HbA & Hbm & HbB). destruct (pair_apart bA bm bB Eb) as (Hnd & _ & HX).
  destruct pair_facts as (Eca & Ecb & Hf & Hnb). destruct (half_bounds NL) as [Hh1 Hh2].
  assert (Hbm1 : level_stored s1 bm (kid_pars q1 N1 ++ kid_pars q2 N2)).
  { rewrite !kid_pars_with. eapply Forall2_impl; [exact Hbm|]. intros x p (g & Hg & HN). exists g. by rewrite Ep. }
  destruct (coalesce_ok h Hix s1 pn pp c1 k1p q1 k2 q2 c2 N1 N2 bm H1 H2 Hp ltac:(by rewrite !class_with; congruence) ltac:(by rewrite !kid_pages_with) Hbm1 Hnd (coalesce_or_redistribute n InternalNode) L neighbor index Hch)
    as (s2 & M & E2 & D2 & J1 & J3 & Hfu & Hbm2); [by rewrite !size_with, max_with, (max_class h _ _ Eca)|]. rewrite class_with, Eca in E2.
  destruct (fused_with pn Na Nb M Hfu) as (N & -> & Hfu'). exists s2, N. rewrite E. split; [done|]. split; [done|]. split; [rewrite (fused_size _ _ _ Hfu'); unfold of_frame in *; destruct (decide (L = q1)); lia|]. split; [apply J3|].
  assert (D : drops [q2] (pn :: q1 :: q2 :: bm.*1) s s2) by (apply (drops_trans _ [] [q2] [neighbor] (pn :: q1 :: q2 :: bm.*1) s s1 s2); [by apply changes_drops|done|destruct neighbor_at as (_ & Hin & _); clear - Hin; set_solver|done]).
  apply (rebuilt [q2] s2 bA bm bB [(q1, N)] [(k1p, q1)]); try done.
  - rewrite !below_pars_cons, app_nil_r. by rewrite kid_pars_with in Hbm2.
  - cbn [length replicate]. apply level_stored_cons. split; [apply J1|constructor].
  - apply J3.
Qed.

(** ** The levels above *)

Lemma others_sized : Forall (λ x : PageNum * Node, half NL ≤ size_of x.2 ≤ max_of h NL) (lowA' ++ lowB').
Proof. destruct Hdf. destruct low_split as [(_ & _ & <- & E)|(_ & _ & E & <-)]; rewrite E in df_sized0; rewrite ?Forall_app, ?Forall_cons in *; tauto. Qed.

Abbreviation up' m := (uA ++ (pn, c1 ++ (k1p, q1) :: m ++ c2) :: uB).
Lemma up_same m : same_tail (kids_of (up' m)) (A' ++ (k1, q1) :: m ++ B').
Proof.
  destruct Hpg. rewrite kids_app, kids_cons. cbn [snd]. rewrite <-app_assoc, app_assoc. cbn [app]. apply (same_tail_replace _ _ k1p k1p); [done|done|done|]. by rewrite pg_B0, <-app_assoc.
Qed.
Lemma up_kids m : as_kids (up' m) = as_kids up.
Proof. destruct Hpg. rewrite pg_up0. apply as_kids_same. by destruct c1 as [|[? ?] ?]. Qed.
Lemma up_pages m : (up' m).*1 = up.*1.
Proof. by rewrite <-!as_kids_pages, up_kids. Qed.
Lemma up_sized : (if is_top lvls then 2 else Z.quot imax 2) ≤ len kids ≤ imax ∧ Forall (inner_sized imax (is_top lvls)) (uA ++ uB).
Proof. destruct Hdf, Hpg. rewrite pg_up0, Forall_app, Forall_cons in df_upsized0. destruct df_upsized0 as (? & Hs & ?). split; [exact Hs|]. by apply Forall_app. Qed.

Lemma unique_parent q (m : Inner) : q ∈ kids.*2 → m ∈ up → q ∈ m.2.*2 → m = (pn, kids).
Proof.
  intros Hq Hm Hqm. destruct Hdf, Hpg. apply NoDup_cons in df_pages0 as [_ Hnd]. apply NoDup_app in Hnd as (_ & _ & Hnd). apply NoDup_app in Hnd as (Hnd & _). rewrite <-(proj1 df_same0), pg_up0, kids_app, kids_cons, !fmap_app in Hnd. cbn [snd] in Hnd.
  apply NoDup_app in Hnd as (_ & H1 & Hnd). apply NoDup_app in Hnd as (_ & H2 & _). assert (Hin : ∀ u, m ∈ u → q ∈ (kids_of u).*2).
  { intros u Hu. apply list_elem_of_split in Hu as (u1 & u2 & ->). rewrite kids_app, kids_cons, !fmap_app, !elem_of_app. tauto. }
  rewrite pg_up0 in Hm. apply elem_of_app in Hm as [Hm|[->|Hm]%elem_of_cons]; [|done|].
  - exfalso. apply (H1 q); [by apply Hin|]. apply elem_of_app. by left.
  - exfalso. apply (H2 q); [done|by apply Hin].
Qed.
Lemma step_latched D low s' : stepped D (pn :: q1 :: q2 :: bot.*1) s bot low up lvls s' ∨ drops D (pn :: q1 :: q2 :: bot.*1) s s' →
  ∀ r, latched s' (OnFrame r) → (r ∈ up.*1 → r = pn) ∧ (r ∈ level_pages lvls → over lvls pn r) ∧ r ≠ FIRST_INDEX_PAGE.
Proof.
  intros Hd r Hr. assert (Hl : latched s (OnFrame r) ∨ r ∈ pn :: q1 :: q2 :: bot.*1).
  { destruct Hd as [[[C _] _ _ _]|[C _]]; (destruct (ch_latched _ _ _ _ C (OnFrame r) Hr) as [?|(q & Hq & [= ->])]; [by left|by right]). }
  clear Hd Hr. pose proof Hdf as []. pose proof Hpg as []. apply NoDup_cons in df_pages0 as [M1 M2]. apply NoDup_app in M2 as (_ & M2 & M3). apply NoDup_app in M3 as (_ & M3 & M4). unfold level_pages in *. cbn in *. apply NoDup_app in M4 as (_ & M4 & _).
  assert (Hpn : pn ∈ up.*1) by (rewrite pg_up0, fmap_app; apply elem_of_app; right; left).
  assert (Hqs : ∀ q, q ∈ [q1; q2] → q ∈ (A ++ (k, L) :: B).*2) by (intros q Hq; rewrite Ees, fmap_app; cbn; clear - Hq; set_solver).
  destruct Hl as [Hl|[->|Hx]%elem_of_cons].
  - destruct (df_latched0 r Hl) as (J1 & J2 & J3). split; [|split; [|done]].
    + intros Hru. destruct J2 as (m & Hm & Hqm & Hor); [apply elem_of_app; by left|]. rewrite (unique_parent L m) in Hor; [|destruct Hch as [(_ & -> & _)|(-> & _)]; rewrite fmap_app; cbn; clear; set_solver|done|done].
      destruct Hor as [->|Ho]; [done|]. exfalso. apply (M4 r Hru). by apply over_pages in Ho.
    + intros Hrl. destruct J2 as (m & Hm & Hqm & Hor); [apply elem_of_app; by right|]. rewrite (unique_parent L m) in Hor; [|destruct Hch as [(_ & -> & _)|(-> & _)]; rewrite fmap_app; cbn; clear; set_solver|done|done].
      destruct Hor as [->|Ho]; [|done]. exfalso. by apply (M4 pn).
  - split; [done|]. split; [intros Hrl; exfalso; by apply (M4 pn)|]. intros ->. apply M1. rewrite !elem_of_app. tauto.
  - assert (Hr : r ∈ (A ++ (k, L) :: B).*2 ∨ r ∈ bot.*1) by (apply elem_of_cons in Hx as [->|[->|Hx]%elem_of_cons]; [left; apply Hqs; left|left; apply Hqs; right; left|by right]).
    assert (Hno : r ∉ up.*1 ++ mjoin ((λ u : list Inner, u.*1) <$> lvls)) by (destruct Hr as [Hr|Hr]; [by apply M3|intros Hq; apply (M2 r Hr); apply elem_of_app; by right]). rewrite elem_of_app in Hno.
    split; [tauto|]. split; [tauto|]. intros ->. apply M1. rewrite !elem_of_app. tauto.
Qed.

Lemma first_apart : FIRST_INDEX_PAGE ∉ pn :: q1 :: q2 :: bot.*1.
Proof.
  destruct pair_bot as (bA & bm & bB & Eb & _). destruct (pair_apart bA bm bB Eb) as (_ & H1 & _). destruct Hdf. apply NoDup_cons in df_pages0 as [H2 _]. clear - H1 H2. set_solver.
Qed.
Lemma step_header D low up2 s' : stepped D (pn :: q1 :: q2 :: bot.*1) s bot low up2 lvls s' → ready s' ∧ header_page s' ∧ tree_header s' = tree_header s.
Proof.
  intros [Hd _ _ _]. destruct Hdf. split; [by eapply (drops_ready h D _ [] s)|]. split; [apply (drops_header_page _ _ _ _ Hd first_apart df_header0)|]. destruct Hd as [C _]. apply (ch_header _ _ _ _ C first_apart).
Qed.
Lemma lowA_pages : lowA'.*1 = A'.*2 ∧ lowB'.*1 = B'.*2.
Proof. by destruct Hpg. Qed.
Lemma merged_thin N s' : stepped [q2] (pn :: q1 :: q2 :: bot.*1) s bot (lowA' ++ [(q1, N)] ++ lowB') (up' []) lvls s' → held s' pn →
  thin s' (lowA' ++ [(q1, N)] ++ lowB') (A' ++ (k1, q1) :: B') (up' []) lvls uA pn (c1 ++ (k1p, q1) :: c2) uB root.
Proof.
  intros Hst Hh. destruct (step_header _ _ _ _ Hst) as (Hr & Hhp & Eh). pose proof Hdf as []. destruct up_sized as [Hk Hsz]. destruct lowA_pages as [ElA ElB]. constructor; try done.
  - by rewrite Eh.
  - apply (up_same []).
  - rewrite len_app in *. unfold len in *. cbn [length] in *. destruct (is_top lvls); lia.
  - by rewrite (up_kids []).
  - by rewrite !fmap_app, ElA, ElB.
  - apply Hst.
  - apply Hst.
  - rewrite (up_pages []). apply (step_latched [q2] (lowA' ++ [(q1, N)] ++ lowB')). right. apply Hst.
  - unfold level_pages. cbn [fmap list_fmap mjoin list_join]. rewrite (up_pages []). rewrite Ees in df_pages0. unfold level_pages in df_pages0. cbn in df_pages0.
    assert (Hsub : FIRST_INDEX_PAGE :: (A' ++ (k1, q1) :: B').*2 ++ up.*1 ++ mjoin ((λ u : list Inner, u.*1) <$> lvls) `sublist_of` FIRST_INDEX_PAGE :: bot.*1 ++ (A' ++ (k1, q1) :: (k2, q2) :: B').*2 ++ up.*1 ++ mjoin ((λ u : list Inner, u.*1) <$> lvls)).
    { apply sublist_skip, sublist_inserts_l. apply sublist_app; [|done]. rewrite !fmap_app. cbn. apply sublist_app; [done|]. apply sublist_skip. by apply sublist_cons. }
    by apply (sublist_NoDup _ _ df_pages0).
  - rewrite Ees in df_keys0. eapply ascending_sublist; [|exact df_keys0]. rewrite !fmap_app. cbn. destruct (A'.*1); cbn; [by apply sublist_cons|]. apply sublist_app; [done|]. apply sublist_skip. by apply sublist_cons.
Qed.

(** the levels above two nodes that shared their items *)
Lemma balanced_levels k2' Na' Nb' s' : stepped [] (pn :: q1 :: q2 :: bot.*1) s bot (lowA' ++ [(q1, Na'); (q2, Nb')] ++ lowB') (up' [(k2', q2)]) lvls s' →
  levels_ok imax (A' ++ (k1, q1) :: (k2', q2) :: B') (up' [(k2', q2)] :: lvls) root ∧ level_pages (up' [(k2', q2)] :: lvls) = level_pages (up :: lvls).
Proof.
  intros Hst. destruct Hdf. destruct up_sized as [Hk Hsz]. split; [|unfold level_pages; cbn [fmap list_fmap mjoin list_join]; by rewrite up_pages]. cbn [levels_ok]. split; [apply (up_same [(k2', q2)])|]. split; [|by rewrite up_kids].
  rewrite Forall_app in Hsz. rewrite Forall_app, Forall_cons. destruct Hsz as [? ?]. split; [done|]. split; [|done]. unfold inner_sized. cbn [snd]. rewrite len_app in *. unfold len in *. cbn [length app] in *. done.
Qed.
End step.
End neighbour.
