(* ===== verification/BplusShrink.v ===== *)
(** * BplusShrink: [coalesce_or_redistribute] on the levels above the leaves

    A node that lost a child may be too small. Then it is evened out with a neighbour, which
    may leave its parent too small in turn; a root with one child gives its place to the
    child. The file loses the pages of the nodes that were merged. *)
From stdpp Require Import sorting.
From S2P Require Import Prelude Types Encoding KeyCompare LatchMemo LatchMemoSpec BplusNode BplusLog BplusNodeSpec BplusOps BplusNodeOps BplusMoves BplusShape BplusTree BplusRoot BplusInsert BplusGrow BplusLeaves BplusFind BplusGive BplusPair BplusNeighbour.

Section shrink.
Context {P : Type} `{TL : TreePoolLaws P}.
Context (h : IndexFileHeader).
Abbreviation St := (Memo P TreeState).
Implicit Types (s : St) (pn q r : PageNum) (N Na Nb NL : Node) (low lowA lowB bot : Level) (lvls : list (list Inner)) (up uA uB : list Inner).
Abbreviation at_node := (at_node h []).
Abbreviation ready := (ready h []).
Abbreviation stored := (stored h).
Abbreviation level_stored := (level_stored h).
Abbreviation levels_stored := (levels_stored h).
Abbreviation imax := (internal_max_size h).
Context (Hix : index_ok h) (valid : list Z → Prop).
Abbreviation cmp := (comparator h).
Context `{KO : !KeyOrder valid cmp} (Hlen : ∀ k, valid k → len k = key_length h) (Hcap : 4 ≤ leaf_max_size h ∧ 6 ≤ imax).
Abbreviation thin := (thin h valid).

(** the levels [lvls] over the nodes [es] became [lvls']; the pages [D] are given up *)
Record shrunk D s bot (es : list Kid) lvls lvls' root' s' : Prop := {
  sh_drops : drops D (FIRST_INDEX_PAGE :: bot.*1 ++ level_pages lvls) s s';
  sh_levels : levels_ok imax es lvls' root';
  sh_bot : level_stored s' bot (pars lvls');
  sh_lvls : levels_stored s' lvls';
  sh_header : header_page s';
  sh_root : tree_header s' = with_root root' (tree_header s);
  sh_pages : level_pages lvls' ++ D ≡ₚ level_pages lvls;
  sh_height : (length lvls' ≤ length lvls)%nat;
}.
Lemma imax_half : 3 ≤ Z.quot imax 2 ∧ Z.quot imax 2 ≤ imax - Z.quot imax 2 ≤ Z.quot imax 2 + 1.
Proof. pose proof (Z.quot_rem' imax 2). pose proof (Z.rem_bound_pos imax 2). lia. Qed.

(** nothing has to be done *)
Lemma shrunk_refl s bot es up lvls uA pn ks uB root : thin s bot es up lvls uA pn ks uB root → inner_sized imax (is_top lvls) (pn, ks) → shrunk [] s bot es (up :: lvls) (up :: lvls) root s.
Proof.
  intros [] Hs. constructor; try done.
  - apply changes_drops. apply (changes_weaken []); [apply list_subseteq_nil|apply changes_refl].
  - split; [done|]. split; [|done]. rewrite th_up. rewrite Forall_app in th_sized |- *. rewrite Forall_cons. tauto.
  - rewrite <-th_root. by destruct (tree_header s).
  - by rewrite app_nil_r.
Qed.

Lemma root_alone s bot es up uA pn ks uB root : thin s bot es up [] uA pn ks uB root → uA = [] ∧ uB = [] ∧ pn = root ∧ at_node s root (InnerOf (-1) ks).
Proof.
  intros []. cbn [levels_ok] in th_levels. rewrite th_up, as_kids_app, fmap_app in th_levels. cbn in th_levels.
  assert (E : uA = [] ∧ uB = [] ∧ pn = root). { destruct uA as [|? [|]], uB as [|]; cbn in th_levels; try done. by injection th_levels as ->. } destruct E as (-> & -> & ->). cbn [app] in *. subst up.
  cbn [levels_stored] in th_lvls. destruct th_lvls as [Hroot _]. cbn in Hroot. apply level_stored_cons in Hroot as [Hroot _]. done.
Qed.
(** the root has one child left *)
Lemma shrink_root s bot es up uA pn k child uB root : thin s bot es up [] uA pn [(k, child)] uB root →
  ∃ s', adjust_root pn s = Some (SUCCESS, s') ∧ shrunk [pn] s bot es [up] [] child s'.
Proof.
  intros Hth. pose proof Hth as []. destruct (root_alone _ _ _ _ _ _ _ _ _ Hth) as (-> & -> & -> & Hat). cbn [app] in *. subst up. pose proof (proj2 (proj2 Hat)) as Hroot. assert (Ees : es.*2 = [child]) by (by rewrite <-(proj1 th_same)).
  assert (Hbot : ∃ N, bot = [(child, N)] ∧ stored s child (with_parent root N)).
  { rewrite Ees in th_bot. destruct bot as [|[q N] [|]]; [done| |done]. cbn in th_bot. injection th_bot as ->. exists N. split; [done|]. cbn in th_kids. by apply level_stored_cons in th_kids as [? _]. }
  destruct Hbot as (N & -> & HN). rewrite Ees in th_pages. unfold level_pages in th_pages. cbn in th_pages.
  apply NoDup_cons in th_pages as [M1 M2]. apply NoDup_cons in M2 as [M2 _]. assert (Hcr : child ≠ root ∧ FIRST_INDEX_PAGE ≠ child ∧ FIRST_INDEX_PAGE ≠ root) by (clear - M1 M2; set_solver).
  unfold adjust_root. run (is_leaf_ok _ _ _ _ _ Hat). run (size_ok _ _ _ _ _ Hat). cbn [andb]. run (value_at_ok h [] s root (-1) [] k child [] Hat).
  destruct (get_page_changes h [] s child th_ready (stored_exists _ _ _ _ HN)) as (s1 & E1 & C1 & Hh1 & _). run E1. change (OB_FAIL SUCCESS) with false. cbv iota.
  assert (HN1 : at_node s1 child (with_parent root N)) by (split; [by apply (changes_ready h _ _ [] _ _ C1)|split; [done|apply (changes_stored h 0 [] s); [done|apply not_elem_of_nil|done]]]).
  destruct (set_parent_ok h [] s1 child _ (-1) HN1) as (s2 & E2 & C2 & HN2); [unfold in_int32; lia|]. change BP_INVALID_PAGE_NUM with (-1). run E2. rewrite with_with in HN2.
  assert (C02 : changes 0 [child] s s2) by (apply (changes_trans [child] [] [child] 0 0 s s1 s2); [done|done|apply list_subseteq_nil|done]).
  assert (Hf : FIRST_INDEX_PAGE ∉ [child]) by (clear - Hcr; set_solver). pose proof (header_page_changes _ _ _ _ C02 Hf th_header) as Hp2. pose proof (ch_header _ _ _ _ C02 Hf) as Eh2.
  destruct (update_root_ok h Hix [] s2 child (proj1 HN2) Hp2) as (s3 & E3 & C3 & Eh3 & Hp3).
  { intros Hl. destruct (ch_latched _ _ _ _ C02 _ Hl) as [Hl'|(r & Hr & [= <-])]; [|done]. by destruct (th_latched _ Hl') as (_ & _ & ?). }
  { rewrite Eh2, th_root. pose proof (page_int32 _ _ _ (proj1 th_ready) (stored_exists _ _ _ _ Hroot)). unfold in_int32. lia. }
  run E3. destruct (dispose_drops root s3) as (s4 & E4 & D4). run E4. exists s4. split; [done|].
  set (X := FIRST_INDEX_PAGE :: [child] ++ [root]). assert (C03 : changes 0 X s s3) by (apply (changes_trans X [child] [FIRST_INDEX_PAGE] 0 0 s s2 s3); [done|done|unfold X; clear; set_solver|unfold X; clear; set_solver]).
  assert (HN3 : at_node s3 child (with_parent (-1) N)) by (eapply at_node_changes; [exact C3|clear - Hcr; set_solver|done]).
  constructor; try done.
  - apply (drops_trans X [] [root] X [] s s3 s4); [by apply changes_drops|done|done|apply list_subseteq_nil].
  - cbn. apply level_stored_cons. split; [|constructor]. apply (drops_stored h _ _ _ _ _ _ D4); [apply not_elem_of_nil|apply HN3].
  - apply (drops_header_page _ _ _ _ D4); [apply not_elem_of_nil|done].
  - destruct D4 as [C4 _]. pose proof (ch_header _ _ _ _ C4 (not_elem_of_nil _)) as Eh4. unfold tree_header in *. cbn in Eh4. by rewrite Eh4, Eh3, Eh2.
  - cbn. lia.
Qed.

(** ** One level *)

Lemma last_covers uA pn ks uB : Forall (λ n : Inner, n.2 ≠ []) (uA ++ (pn, ks) :: uB) → 2 ≤ len ks → ascending valid cmp (tail (kids_of (uA ++ (pn, ks) :: uB)).*1) →
  ∃ kl, rd ks.*1 (len ks - 1) = Some kl ∧ valid kl ∧ covers (cmp := cmp) kl (as_kids uA).*1 (head_key ks) (as_kids uB).*1.
Proof.
  intros Hne Hks Hasc. destruct ks as [|[k0 q0] ks]; [unfold len in Hks; cbn in Hks; lia|]. destruct ks as [|[kl ql] ks _] using rev_ind; [unfold len in Hks; cbn in Hks; lia|]. exists kl. rewrite Forall_app, Forall_cons in Hne. destruct Hne as (HneA & _ & HneB).
  rewrite kids_app, kids_cons in Hasc. cbn [snd] in Hasc. change ((k0, q0) :: ks ++ [(kl, ql)]) with (((k0, q0) :: ks) ++ [(kl, ql)]) in *. rewrite <-app_assoc in Hasc.
  split; [|split; [|split]].
  - replace (len (((k0, q0) :: ks) ++ [(kl, ql)]) - 1) with (len ((k0, q0) :: ks)) by (rewrite len_app; unfold len; cbn [length]; lia). apply rd_middle.
  - assert (H1 := Hasc). rewrite app_assoc in H1. apply ascending_behind in H1; [|by destruct (kids_of uA)]. by apply ascending_cons in H1 as [? _].
  - intros HA. apply ascending_behind in Hasc; [|]. 2:{ destruct uA as [|[p' ks'] uA]; [done|]. apply Forall_cons in HneA as [HneA _]. rewrite kids_cons. cbn in *. by destruct ks'. }
    cbn [app fmap list_fmap fst head_key] in *. apply ascending_cons in Hasc as (_ & _ & Hall). rewrite Forall_forall in Hall. assert (Hlt : cmp k0 kl < 0) by (apply Hall; rewrite fmap_app; cbn; apply elem_of_app; right; left). lia.
  - assert (H1 := Hasc). rewrite app_assoc in H1. apply ascending_behind in H1; [|by destruct (kids_of uA)]. cbn [app fmap list_fmap fst] in H1. apply ascending_cons in H1 as (Hv & [Hvs _] & Hall).
    apply Forall_forall. intros x Hx. pose proof (sublist_subseteq _ _ (heads_sublist uB HneB) x Hx) as Hx'. rewrite Forall_forall in Hall, Hvs. apply cmp_flip_lt; auto.
Qed.

Lemma thin_deficient s bot es up up2 lvls uA pn ks uB root : thin s bot es up (up2 :: lvls) uA pn ks uB root → len ks < imax - Z.quot imax 2 →
  deficient h valid s bot (as_kids uA) (head_key ks) pn (as_kids uB) (inner_nodes uA) (InnerOf 0 ks) (inner_nodes uB) up2 lvls root.
Proof.
  intros [] Hlt. destruct th_levels as (Hs2 & Hsz2 & Hlv2). pose proof imax_half as [Hh1 Hh2]. cbn [is_top] in *.
  assert (Eup : as_kids uA ++ (head_key ks, pn) :: as_kids uB = as_kids up) by (rewrite th_up, as_kids_app; done).
  assert (Elow : inner_nodes uA ++ (pn, InnerOf 0 ks) :: inner_nodes uB = inner_nodes up) by (rewrite th_up, inner_nodes_app; done).
  assert (Hne : Forall (λ n : Inner, n.2 ≠ []) (uA ++ (pn, ks) :: uB)).
  { apply (sized_nonempty imax (ix_inner_min _ Hix) false) in th_sized. rewrite Forall_app, Forall_cons in *. destruct th_sized. split; [done|]. split; [|done]. cbn. intros ->. unfold len in th_node. cbn in th_node. lia. }
  assert (Hasc : ascending valid cmp (tail (kids_of up).*1)) by (by rewrite (proj2 th_same)).
  constructor; rewrite ?Eup, ?Elow; try done.
  - by rewrite inner_nodes_pages, as_kids_pages.
  - by rewrite inner_nodes_pages, as_kids_pages.
  - apply th_lvls.
  - apply th_lvls.
  - rewrite (proj1 (below_inner up)). by rewrite (proj1 th_same).
  - by rewrite (proj2 (below_inner up)).
  - apply Forall_app. split; apply Forall_fmap, Forall_forall; done.
  - rewrite !Forall_app in *. unfold inner_nodes. rewrite !Forall_fmap. exact th_sized.
  - cbn [size_of]. unfold half. cbn [max_of]. lia.
  - intros r Hr. rewrite as_kids_pages. by apply th_latched.
  - rewrite as_kids_pages, th_bot. exact th_pages.
  - apply (ascending_up (valid := valid)); [by rewrite th_up|done].
  - cbn [keys_of size_of]. rewrite th_up in Hasc. apply (last_covers uA pn ks uB); [done|lia|done].
Qed.

Lemma inner_pair up lowA q1 Na q2 Nb lowB : inner_nodes up = lowA ++ (q1, Na) :: (q2, Nb) :: lowB →
  ∃ uA a b uB, up = uA ++ (q1, a) :: (q2, b) :: uB ∧ lowA = inner_nodes uA ∧ Na = InnerOf 0 a ∧ Nb = InnerOf 0 b ∧ lowB = inner_nodes uB.
Proof.
  intros E. apply fmap_app_inv in E as (uA & u & -> & E & ->). destruct u as [|[p1 a] [|[p2 b] uB]]; try done. cbn in E. injection E as -> -> -> -> ->. by exists uA, a, b, uB.
Qed.
Lemma sized_top b n : inner_sized imax false n → inner_sized imax b n.
Proof. unfold inner_sized. pose proof imax_half. destruct b; lia. Qed.
Lemma with_same_root s root : root_page (tree_header s) = root → tree_header s = with_root root (tree_header s).
Proof. intros <-. by destruct (tree_header s). Qed.
Lemma head_same a b a' b' : a ++ b = a' ++ b' → 1 ≤ len a → 1 ≤ len a' → head_key a = head_key a'.
Proof. destruct a as [|x a], a' as [|x' a']; unfold len; cbn; try lia. intros [= -> _]. done. Qed.
Lemma fits_two lvls u : Forall (inner_sized imax (is_top lvls)) u → Forall (λ n : Inner, 2 ≤ len n.2) u.
Proof. intros Hu. eapply Forall_impl; [exact Hu|]. intros n [Hn _]. pose proof imax_half. destruct (is_top lvls); lia. Qed.

(** the node [pn] of the level [up], which has a parent in the level [up2], and its neighbour *)
Section pair.
Context (n : nat) (s : St) (bot : Level) (es : list Kid) (up up2 : list Inner) (lvls : list (list Inner)) (uA : list Inner) (pn : PageNum) (ks : list Kid) (uB : list Inner) (root : PageNum).
Context (Hth : thin s bot es up (up2 :: lvls) uA pn ks uB root) (Hks : len ks < imax - Z.quot imax 2).
Context (u1 : list Inner) (q1 : PageNum) (a : list Kid) (q2 : PageNum) (b : list Kid) (u2 : list Inner) (Eup : up = u1 ++ (q1, a) :: (q2, b) :: u2).
Context (uA2 : list Inner) (pn2 : PageNum) (c1 : list Kid) (k1p : list Z) (c2 : list Kid) (uB2 : list Inner) (p1 : list PageNum) (pp : PageNum) (p2 : list PageNum) (neighbor : PageNum) (index : Z).
Abbreviation A' := (as_kids u1).
Abbreviation B' := (as_kids u2).
Context (Hpg : pairing h s up2 lvls A' (head_key a) q1 (head_key b) q2 B' (inner_nodes u1) (InnerOf 0 a) (InnerOf 0 b) (inner_nodes u2) uA2 pn2 c1 k1p c2 uB2 p1 pp p2).
Context (Hch : chosen c1 q1 q2 pn neighbor index) (Hwho : (pn = q1 ∧ InnerOf 0 ks = InnerOf 0 a ∧ as_kids uA = A') ∨ (pn = q2 ∧ InnerOf 0 ks = InnerOf 0 b ∧ as_kids uA = A' ++ [(head_key a, q1)] ∧ head_key ks = head_key b)).
Abbreviation up2' m := (uA2 ++ (pn2, c1 ++ (k1p, q1) :: m ++ c2) :: uB2).

Lemma thin_pair : deficient h valid s bot (as_kids uA) (head_key ks) pn (as_kids uB) (inner_nodes uA) (InnerOf 0 ks) (inner_nodes uB) up2 lvls root ∧
  as_kids uA ++ (head_key ks, pn) :: as_kids uB = A' ++ (head_key a, q1) :: (head_key b, q2) :: B' ∧ inner_nodes uA ++ (pn, InnerOf 0 ks) :: inner_nodes uB = inner_nodes u1 ++ (q1, InnerOf 0 a) :: (q2, InnerOf 0 b) :: inner_nodes u2.
Proof.
  split; [by apply (thin_deficient s bot es up)|]. pose proof (th_up _ _ _ _ _ _ _ _ _ _ _ _ Hth) as E. rewrite Eup in E. split.
  - apply (f_equal as_kids) in E. by rewrite !as_kids_app in E.
  - apply (f_equal inner_nodes) in E. by rewrite !inner_nodes_app in E.
Qed.
Lemma pair_sized : Forall (inner_sized imax false) u1 ∧ Forall (inner_sized imax false) u2.
Proof.
  destruct thin_pair as (Hdf & E1 & E2). pose proof (others_sized h valid Hcap s bot _ _ _ _ _ _ _ _ _ _ Hdf _ _ _ _ _ _ _ _ _ _ _ _ _ _ _ _ _ _ _ _ _ Hpg E1 E2 Hch Hwho) as Hz.
  rewrite Forall_app in Hz. unfold inner_nodes in Hz. rewrite !Forall_fmap in Hz. exact Hz.
Qed.
Lemma step_inside : pn2 :: q1 :: q2 :: bot.*1 ⊆ FIRST_INDEX_PAGE :: bot.*1 ++ level_pages (up :: up2 :: lvls).
Proof. destruct Hpg as [E _ _ _ _ _ _ _ _]. rewrite E, Eup. unfold level_pages. cbn. rewrite !fmap_app. cbn. clear. set_solver. Qed.

Lemma left_full : 1 ≤ len a.
Proof.
  destruct thin_pair as (Hdf & E1 & E2). pose proof imax_half as [Hh _].
  pose proof (pair_facts h valid s bot _ _ _ _ _ _ _ _ _ _ Hdf _ _ _ _ _ _ _ _ _ _ _ _ _ _ _ _ _ _ _ _ _ Hpg E1 E2 Hch Hwho) as (_ & _ & J1 & J2). unfold of_frame in *. change (half h (InnerOf 0 ks)) with (Z.quot imax 2) in *. cbn [size_of] in *. destruct (decide _); lia.
Qed.

(** the two nodes share their children: the levels above stay *)
Lemma pair_balanced : imax < len a + len b → ∃ s' lvls', coalesce_or_redistribute (S n) InternalNode pn s = Some (SUCCESS, s') ∧ shrunk [] s bot es (up :: up2 :: lvls) lvls' root s'.
Proof.
  intros Hsum. destruct thin_pair as (Hdf & E1 & E2). destruct pair_sized as [Hz1 Hz2].
  destruct (step_balanced h Hix valid Hlen Hcap n s bot _ _ _ _ _ _ _ _ _ _ Hdf _ _ _ _ _ _ _ _ _ _ _ _ _ _ _ _ _ _ _ _ _ Hpg E1 E2 Hch Hwho Hsum) as (s' & Na' & Nb' & k2' & E & Hsp & Hk2 & Hsa & Hsb & Hst).
  inversion Hsp as [|? ? ? ? a' b' Eab]; subst Na' Nb'. cbn [size_of max_of keys_of] in Hsa, Hsb, Hk2. pose proof imax_half as [Hh _]. change (half h (InnerOf 0 ks)) with (Z.quot imax 2) in *.
  assert (Ek2 : k2' = head_key b') by (destruct b' as [|[kb qb] b']; [done|]; by injection Hk2).
  pose proof left_full as Ha.
  destruct (balanced_levels h valid s bot _ _ _ _ _ _ _ _ _ _ Hdf _ _ _ _ _ _ _ _ _ _ _ _ _ _ _ _ _ _ _ _ _ Hpg Hch k2' _ _ s' Hst) as [Hlv Hpgs]. destruct (step_header h valid s bot _ _ _ _ _ _ _ _ _ _ Hdf _ _ _ _ _ _ _ _ _ _ _ _ _ _ _ _ _ _ _ Hpg E1 E2 _ _ _ s' Hst) as (_ & Hhp & Eh).
  set (up' := u1 ++ (q1, a') :: (q2, b') :: u2). set (u3 := (uA2 ++ (pn2, c1 ++ (k1p, q1) :: [(k2', q2)] ++ c2) :: uB2)) in *.
  assert (Ekids : kids_of up' = kids_of up) by (unfold up'; rewrite Eup, !kids_app, !kids_cons; cbn [snd]; by rewrite !app_assoc, <-!(app_assoc (kids_of u1)), Eab).
  assert (Epages : up'.*1 = up.*1) by (unfold up'; by rewrite Eup, !fmap_app).
  exists s', (up' :: u3 :: lvls). split; [exact E|]. destruct Hth, Hst. constructor; try done.
  - eapply drops_weaken; [apply step_inside|exact sp_drops].
  - split; [by rewrite Ekids|]. split; [|].
    + unfold up'. rewrite Forall_app, !Forall_cons. done.
    + unfold up'. rewrite as_kids_app. cbn [as_kids fmap list_fmap fst snd]. rewrite <-Ek2, <-(head_same a b a' b' Eab Ha) by lia. exact Hlv.
  - cbn [pars]. rewrite <-(proj2 (below_inner up')). unfold up'. by rewrite inner_nodes_app.
  - split; [|exact sp_lvls]. unfold up'. by rewrite inner_nodes_app.
  - rewrite Eh. by apply with_same_root.
  - rewrite app_nil_r. change (up'.*1 ++ level_pages (u3 :: lvls) ≡ₚ up.*1 ++ level_pages (up2 :: lvls)). by rewrite Epages, Hpgs.
Qed.

(** they become one, and the parent may be too small now *)
Definition shrinks_up (m : nat) : Prop := ∀ s bot es up uA pn ks uB, (length lvls < m)%nat → thin s bot es up lvls uA pn ks uB root →
  ∃ s' lvls' root' D, coalesce_or_redistribute m InternalNode pn s = Some (SUCCESS, s') ∧ shrunk D s bot es (up :: lvls) lvls' root' s'.
Lemma pair_merged : len a + len b ≤ imax → (length lvls < n)%nat → shrinks_up n →
  ∃ s' lvls' root' D, coalesce_or_redistribute (S n) InternalNode pn s = Some (SUCCESS, s') ∧ shrunk D s bot es (up :: up2 :: lvls) lvls' root' s'.
Proof.
  intros Hsum Hn IH. destruct thin_pair as (Hdf & E1 & E2). destruct pair_sized as [Hz1 Hz2].
  destruct (step_merged h Hix valid Hlen Hcap n s bot _ _ _ _ _ _ _ _ _ _ Hdf _ _ _ _ _ _ _ _ _ _ _ _ _ _ _ _ _ _ _ _ _ Hpg E1 E2 Hch Hwho Hsum) as (s1 & N & E & Hfu & Hsz & Hh1 & Hst).
  inversion Hfu; subst N. cbn [size_of max_of] in Hsz. pose proof imax_half as [Hh _]. change (half h (InnerOf 0 ks)) with (Z.quot imax 2) in *.
  pose proof (merged_thin h valid Hcap s bot _ _ _ _ _ _ _ _ _ _ Hdf _ _ _ _ _ _ _ _ _ _ _ _ _ _ _ _ _ _ _ _ _ Hpg E1 E2 Hch Hwho _ s1 Hst Hh1) as Ht1. destruct (step_header h valid s bot _ _ _ _ _ _ _ _ _ _ Hdf _ _ _ _ _ _ _ _ _ _ _ _ _ _ _ _ _ _ _ Hpg E1 E2 _ _ _ s1 Hst) as (_ & Hhp & Eh).
  pose proof (up_pages h s pn _ _ _ _ _ _ _ _ _ _ _ _ _ _ _ _ _ _ _ _ _ _ _ Hpg Hch []) as Eu. destruct (IH _ _ _ _ _ _ _ _ Hn Ht1) as (s2 & lvls' & root' & D & E3 & []). set (up' := u1 ++ (q1, a ++ b) :: u2).
  exists s2, (up' :: lvls'), root', ([q2] ++ D). split; [by rewrite <-E3|]. set (u3 := uA2 ++ (pn2, c1 ++ (k1p, q1) :: [] ++ c2) :: uB2) in *.
  assert (Elow : inner_nodes up' = inner_nodes u1 ++ [(q1, InnerOf 0 (a ++ b))] ++ inner_nodes u2) by (unfold up'; by rewrite inner_nodes_app). rewrite <-Elow in *.
  assert (Ekids : kids_of up' = kids_of up) by (unfold up'; rewrite Eup, !kids_app, !kids_cons; cbn [snd]; by rewrite <-!app_assoc).
  assert (Eas : as_kids up' = A' ++ (head_key a, q1) :: B') by (unfold up'; rewrite as_kids_app; cbn [as_kids fmap list_fmap fst snd]; pose proof left_full; rewrite <-(head_same a b (a ++ b) []); [done|by rewrite app_nil_r|done|rewrite len_app; pose proof (len_pos b); lia]). rewrite <-Eas in *.
  assert (Epl : level_pages (u3 :: lvls) = level_pages (up2 :: lvls)) by (change (u3.*1 ++ level_pages lvls = up2.*1 ++ level_pages lvls); by rewrite Eu). rewrite inner_nodes_pages in sh_drops0. rewrite Epl in *.
  assert (Esub : up.*1 ≡ₚ up'.*1 ++ [q2]) by (rewrite Eup; unfold up'; rewrite !fmap_app; cbn; solve_Permutation).
  destruct Hth, Hst. constructor; try done.
  - eapply drops_trans; [exact sp_drops|exact sh_drops0|apply step_inside|]. change (level_pages (up :: up2 :: lvls)) with (up.*1 ++ level_pages (up2 :: lvls)). rewrite Esub. intros r. rewrite !elem_of_cons, !elem_of_app. tauto.
  - split; [by rewrite Ekids|]. split; [|done]. apply (Forall_impl (inner_sized imax false)); [|apply sized_top]. unfold up'. rewrite Forall_app, Forall_cons. done.
  - cbn [pars]. apply (drops_level h D _ s1 s2 _ _ sh_drops0); [|rewrite <-(proj2 (below_inner up')); done].
    intros q Hq Hin. rewrite th_bot in Hq. apply NoDup_cons in th_pages as [M1 M2]. apply NoDup_app in M2 as (_ & M2 & _). change (level_pages (up :: up2 :: lvls)) with (up.*1 ++ level_pages (up2 :: lvls)) in *.
    apply (M2 q Hq). apply elem_of_cons in Hin as [->|Hin]; [destruct M1; apply elem_of_app; by left|]. rewrite Esub, !elem_of_app. rewrite elem_of_app in Hin. tauto.
  - by rewrite sh_root0, Eh.
  - change ((up'.*1 ++ level_pages lvls') ++ [q2] ++ D ≡ₚ up.*1 ++ level_pages (up2 :: lvls)). rewrite Esub, <-sh_pages0. solve_Permutation.
  - cbn in *. lia.
Qed.
End pair.

Lemma shrink_ok root lvls : ∀ n, shrinks_up lvls root n.
Proof.
  induction lvls as [|up2 lvls IH]; intros n s bot es up uA pn ks uB Hn Hth; (destruct n as [|n]; [cbn in Hn; lia|]); pose proof Hth as []; pose proof imax_half as [Hh1 Hh2].
  all: assert (Hat : ∃ pp, at_node s pn (InnerOf pp ks)) by (destruct (inner_at h s up _ uA pn ks uB (proj1 th_lvls) th_up) as [pp Hpp]; by exists pp); destruct Hat as [pp Hat].
  all: destruct (decide (imax - Z.quot imax 2 ≤ len ks)) as [Hge|Hlt].
  1,3: exists s; eexists; exists root, []; split; [cbn [coalesce_or_redistribute]; run (size_ok _ _ _ _ _ Hat); run (min_size_ok _ _ _ _ _ Hat); cbn [size_of max_of]; by rewrite (proj2 (Z.leb_le _ _)) by done|eapply shrunk_refl; [exact Hth|]; apply sized_top; unfold inner_sized; cbn [snd]; lia].
  - destruct (root_alone _ _ _ _ _ _ _ _ _ Hth) as (-> & -> & -> & Hroot). cbn [is_top] in th_node. cbn [coalesce_or_redistribute]. run (size_ok _ _ _ _ _ Hroot). run (min_size_ok _ _ _ _ _ Hroot). cbn [size_of max_of].
    rewrite (proj2 (Z.leb_gt _ _)) by lia. run (parent_ok _ _ _ _ _ Hroot). cbn [parent_of]. change (BP_INVALID_PAGE_NUM =? -1) with true. cbv iota.
    destruct (decide (1 < len ks)) as [H1|H1]; [rewrite (proj2 (Z.ltb_lt _ _) H1)|rewrite (proj2 (Z.ltb_ge _ _)) by lia].
    + eexists s, _, root, []. split; [done|]. eapply shrunk_refl; [exact Hth|]. unfold inner_sized. cbn [snd is_top]. lia.
    + destruct ks as [|[k child] [|]]; [unfold len in th_node; cbn in th_node; lia| |unfold len in H1; cbn in H1; lia].
      destruct (shrink_root _ _ _ _ _ _ _ _ _ _ Hth) as (s' & E & Hs). rewrite bind_assoc. run E. by exists s', [], child, [root].
  - apply Z.nle_gt in Hlt. destruct (thin_deficient _ _ _ _ _ _ _ _ _ _ _ Hth Hlt) as [].
    destruct (pairing_ok h s up2 lvls _ _ _ _ _ _ _ df_same df_lowA df_lowB df_low df_lvls (fits_two _ _ df_upsized)) as (A' & k1 & q1 & k2 & q2 & B' & lowA' & Na & Nb & lowB' & uA2 & pn2 & c1 & k1p & c2 & uB2 & p1 & pp' & p2 & neighbor & index & Hpg & Ees & Elow & Hch & Hwho).
    pose proof Elow as Einn. assert (Eall : inner_nodes uA ++ (pn, InnerOf 0 ks) :: inner_nodes uB = inner_nodes up) by (by rewrite th_up, inner_nodes_app). rewrite Eall in Einn.
    destruct (inner_pair _ _ _ _ _ _ _ Einn) as (u1 & a & b & u2 & Eup & -> & -> & -> & ->). pose proof (f_equal as_kids th_up) as Ekd. rewrite Eup, !as_kids_app in Ekd. cbn in Ekd. fold (as_kids u2) in Ekd. fold (as_kids uB) in Ekd. rewrite Ees in Ekd.
    assert (Hab : A' = as_kids u1 ∧ k1 = head_key a ∧ k2 = head_key b ∧ B' = as_kids u2).
    { apply app_inj_1 in Ekd as [<- Ekd]; [by injection Ekd as <- <- <-|]. destruct Hpg. apply (f_equal length) in pg_lowA. unfold inner_nodes, as_kids in *. rewrite !length_fmap in *. done. }
    destruct Hab as (-> & -> & -> & ->). destruct (decide (imax < len a + len b)) as [Hsum|Hsum].
    + destruct (pair_balanced n s bot es up up2 lvls uA pn ks uB root Hth Hlt u1 q1 a q2 b u2 Eup uA2 pn2 c1 k1p c2 uB2 p1 pp' p2 neighbor index Hpg Hch Hwho Hsum) as (s' & lvls' & E & Hs). by exists s', lvls', root, [].
    + apply (pair_merged n s bot es up up2 lvls uA pn ks uB root Hth Hlt u1 q1 a q2 b u2 Eup uA2 pn2 c1 k1p c2 uB2 p1 pp' p2 neighbor index Hpg Hch Hwho); [lia|cbn in Hn; lia|apply IH].
Qed.
End shrink.
