(* ===== verification/BplusEntry.v ===== *)
(** * BplusEntry: inserting an entry

    [tree_ok s l ht]: nothing is pinned or latched, and the file holds a tree of [ht] levels
    whose leaves, from left to right, contain the items [l]. [insert_entry] then is the
    insertion into a sorted list. *)
From stdpp Require Import sorting.
From S2P Require Import Prelude Types Encoding KeyCompare LatchMemo LatchMemoSpec BplusNode BplusLog BplusNodeSpec BplusOps BplusNodeOps BplusMoves BplusShape BplusTree BplusRoot BplusInsert BplusGrow BplusLeaves BplusFind BplusInsertLeaf BplusMtr.

Section entry.
Context {P : Type} `{TL : TreePoolLaws P}.
Context (h : IndexFileHeader).
Abbreviation St := (Memo P TreeState).
Implicit Types (s : St) (pn q : PageNum) (N : Node) (lvls : list (list Inner)) (ls : list Leaf) (l : list Item).
Abbreviation stored := (stored h).
Context (Hix : index_ok h) (valid : list Z → Prop).
Abbreviation cmp := (comparator h).
Abbreviation tree_at := (tree_at h valid).

Definition tree_has s l (ht : nat) : Prop :=
  (root_page (tree_header s) = BP_INVALID_PAGE_NUM ∧ header_page s ∧ l = [] ∧ ht = 0%nat) ∨
  ∃ ls lvls root, tree_at s ls lvls root ∧ l = contents ls ∧ ht = S (length lvls).
Record tree_ok s l ht : Prop := {
  to_idle : idle s;
  to_items : items_ s = [];
  to_disposed : disposed_pages_ s = [];
  to_header : header_like h (tree_header s);
  to_has : tree_has s l ht;
}.

Lemma stored_data s s' q N : data_at s' q = data_at s q → stored s q N → stored s' q N.
Proof. unfold data_at. intros E (g & Hg & HN). rewrite Hg in E. destruct (pages s' !! q) as [g'|] eqn:Eg'; [|done]. cbn in E. injection E as E. exists g'. by rewrite E. Qed.
Lemma level_data s s' low ps : (∀ q, q ∈ low.*1 → data_at s' q = data_at s q) → level_stored h s low ps → level_stored h s' low ps.
Proof.
  intros E Hl. induction Hl as [|[q N] p low ps H1 _ IH]; constructor; [apply (stored_data s); [apply E; left|done]|apply IH; intros q' Hq; apply E; by right].
Qed.
Lemma levels_data s s' lvls : (∀ q, q ∈ level_pages lvls → data_at s' q = data_at s q) → levels_stored h s lvls → levels_stored h s' lvls.
Proof.
  intros E. induction lvls as [|up lvls IH]; [done|]. unfold level_pages in E. cbn in E. intros [H1 H2]. split.
  - apply (level_data s); [|done]. intros q. rewrite inner_nodes_pages. intros Hq. apply E, elem_of_app. by left.
  - apply IH; [|done]. intros q Hq. apply E, elem_of_app. by right.
Qed.
Lemma header_data s s' : data_at s' FIRST_INDEX_PAGE = data_at s FIRST_INDEX_PAGE → tree_header s' = tree_header s → header_page s → header_page s'.
Proof.
  unfold data_at. intros E Eh (g & rest & Hg & Hd). rewrite Hg in E. destruct (pages s' !! FIRST_INDEX_PAGE) as [g'|] eqn:Eg'; [|done]. cbn in E. injection E as E. exists g', rest. by rewrite E, Eh.
Qed.
Lemma tree_data s s' ls lvls root : (∀ q, q ∈ FIRST_INDEX_PAGE :: ls.*1.*2 ++ level_pages lvls → data_at s' q = data_at s q) → tree_header s' = tree_header s → tree_at s ls lvls root → tree_at s' ls lvls root.
Proof.
  intros E Eh []. constructor; try done.
  - apply (level_data s); [|done]. intros q. rewrite leaf_nodes_pages. intros Hq. apply E. right. apply elem_of_app. by left.
  - apply (levels_data s); [|done]. intros q Hq. apply E. right. apply elem_of_app. by right.
  - by rewrite Eh.
  - apply (header_data s); [apply E; left|done|done].
Qed.
Lemma tree_has_data s s' l ht : (∀ q, data_at s' q = data_at s q) → tree_header s' = tree_header s → tree_has s l ht → tree_has s' l ht.
Proof.
  intros E Eh [(H1 & H2 & H3 & H4)|(ls & lvls & root & H1 & H2 & H3)]; [left|right].
  - rewrite Eh. split; [done|]. split; [by apply (header_data s)|done].
  - exists ls, lvls, root. split; [by apply (tree_data s)|done].
Qed.

(** the scope of a mini transaction on a tree at rest *)
Definition opened s : St := mkMemo (m_pool s) (m_locks s) [] [] (with_need_log true (with_entries [] (m_client s))).
Lemma opened_ready s : idle s → header_like h (tree_header s) → ready h [] (opened s).
Proof.
  intros Hi Hl. split; [|done]. constructor; [|constructor|apply ordered_nil|apply ordered_nil]. by apply idle_holds.
Qed.
(** what an operation on the open tree has to leave behind, the pages it disposes of being gone *)
Lemma in_mtr_gone (body : M St RC) s rc s1 l ht l' ht' : tree_ok s l ht → body (opened s) = Some (rc, s1) → memo_ok [] s1 → header_like h (tree_header s1) →
  (∀ e, e ∈ entries_ (m_client s1) → in_memory s1 (entry_frame e)) → rc = SUCCESS ∨ entries_ (m_client s1) = [] → NoDup (disposed_pages_ s1) → (∀ q, q ∈ disposed_pages_ s1 → is_Some (pages s1 !! q)) →
  (∀ s2, (∀ q, q ∉ disposed_pages_ s1 → data_at s2 q = data_at s1 q) → tree_header s2 = tree_header s1 → tree_has s2 l' ht') →
  ∃ s', in_mtr Some body s = Some (rc, s') ∧ tree_ok s' l' ht' ∧ (free s1 ≤ free s')%nat ∧ tp_id (m_pool s') = tp_id (m_pool s1).
Proof.
  intros [] E Hm Hlike Hes Hrc Hnd Hex Hhas. destruct (end_mtr_ok rc s1 Hm Hes Hrc Hnd Hex) as (s2 & E2 & Hi2 & H1 & H2 & H3 & H4 & H5 & H6 & H7).
  unfold in_mtr. rewrite bind_get. change (begin_mtr s) with (Some (tt, opened s)). rewrite (bind_eq begin_mtr _ s tt (opened s) eq_refl), (bind_eq _ _ _ _ _ E), (bind_eq _ _ _ _ _ E2).
  eexists. split; [unfold outer_mtr; rewrite (bind_eq _ _ _ tt _ eq_refl); done|]. split; [|done].
  destruct Hi2 as (Hp & Hpins & Hlk). constructor; cbn; [by split|done|done|unfold tree_header in *; cbn; by rewrite H3|].
  apply (tree_has_data s2); [done|done|]. apply Hhas; [|done]. intros q Hq. by rewrite H7, decide_False.
Qed.
Lemma in_mtr_ok (body : M St RC) s rc s1 l ht l' ht' : tree_ok s l ht → body (opened s) = Some (rc, s1) → memo_ok [] s1 → header_like h (tree_header s1) →
  (∀ e, e ∈ entries_ (m_client s1) → in_memory s1 (entry_frame e)) → rc = SUCCESS ∨ entries_ (m_client s1) = [] → disposed_pages_ s1 = [] → tree_has s1 l' ht' →
  ∃ s', in_mtr Some body s = Some (rc, s') ∧ tree_ok s' l' ht' ∧ (free s1 ≤ free s')%nat ∧ tp_id (m_pool s') = tp_id (m_pool s1).
Proof.
  intros Ht E Hm Hlike Hes Hrc Hd Hhas. apply (in_mtr_gone body s rc s1 l ht l' ht' Ht E Hm Hlike Hes Hrc); rewrite Hd; [constructor|by intros ? ?%elem_of_nil|].
  intros s2 E2 Eh. apply (tree_has_data s1); [|done|done]. intros q. apply E2, not_elem_of_nil.
Qed.

(** ** The first entry *)

Context `{KO : !KeyOrder valid cmp} (Hlen : ∀ k, valid k → len k = key_length h).
Abbreviation XL := (mkItem EXCLUSIVE OnLock).

Lemma lock_outside s : ready h [] s → m_locks s = ∅ →
  let s' := with_locks (<[OnLock := Locked]> (m_locks s)) s in lock OnLock s = Some (tt, s') ∧ ready h [XL] s' ∧ (∀ q : PageNum, ¬ latched s' (OnFrame q)).
Proof.
  intros [[Hs Hty Ho1 Ho2] Hlike] Hl s'. split; [unfold lock, s'; rewrite bind_get, Hl, lookup_empty; done|]. split; [split; [constructor; [|done| |done]|done]|].
  - destruct Hs. constructor; cbn [m_pool with_locks items_ m_locks]; [done| | |].
    + intros q. change ([XL] ++ items_ s) with (XL :: items_ s). rewrite ho_pins, (count_cons _ _ XL (items_ s)), (count_other_type PIN) by done. done.
    + intros w. change ([XL] ++ items_ s) with (XL :: items_ s). rewrite !(count_cons _ _ XL (items_ s)). specialize (ho_locks w). unfold s'. cbn [m_locks with_locks]. rewrite Hl, lookup_empty in ho_locks. rewrite Hl. unfold lock_state in ho_locks. cbn [app] in ho_locks.
      destruct (count EXCLUSIVE w (items_ s)) eqn:E1, (count SHARED w (items_ s)) eqn:E2; try done. destruct (decide (w = OnLock)) as [->|Hw]; [by rewrite lookup_insert_eq, count_self, count_other_type|by rewrite lookup_insert_ne, !count_other_on].
    + intros w. change ([XL] ++ items_ s) with (XL :: items_ s). rewrite !(count_cons _ _ XL (items_ s)). specialize (ho_locks w). rewrite Hl, lookup_empty in ho_locks. unfold lock_state in ho_locks. cbn [app] in ho_locks.
      destruct (count EXCLUSIVE w (items_ s)) eqn:E1, (count SHARED w (items_ s)) eqn:E2; try done. rewrite !count_one. destruct (decide _) as [[_ <-]|]; [rewrite decide_False by (by intros []); lia|]. lia.
  - intros l1 t pn l2 E _. by destruct l1 as [|? [|]].
  - intros q [x Hx]. cbn in Hx. by rewrite Hl, lookup_insert_ne, lookup_empty in Hx.
Qed.
Lemma unlock_outside s : ready h [XL] s → ∃ s', unlock OnLock s = Some (tt, s') ∧ ready h [] s' ∧ gives_back s s'.
Proof.
  intros [[Hs Hty Ho1 Ho2] Hlike]. destruct (release_latch [] EXCLUSIVE OnLock (items_ s) s Hs) as (s' & E & H1 & H2); [by left|by apply (needs_app [XL]); apply ordered_needs|].
  exists s'. split; [exact E|]. split; [|done]. split; [|unfold tree_header; by rewrite (gb_client _ _ H2)]. rewrite <-(gb_items _ _ H2) in *. constructor; [done|done|apply ordered_nil|done].
Qed.

Lemma create_new_tree_ok s key v : ready h [XL] s → (0 < free s)%nat → root_page (tree_header s) = BP_INVALID_PAGE_NUM → header_page s → (∀ q : PageNum, ¬ latched s (OnFrame q)) →
  valid key → len v = 8 → ∃ s' X q, create_new_tree key v s = Some (SUCCESS, s') ∧ ready h [XL] s' ∧ changes 1 X s s' ∧ tree_at s' [((key, q), [(key, v)])] [] q.
Proof.
  intros Hr Hf Hroot Hp Hlat Hk Hv. unfold create_new_tree. run (file_header_ok s). rewrite Hroot. change (negb (BP_INVALID_PAGE_NUM =? BP_INVALID_PAGE_NUM)) with false. cbv iota. pose proof (Hlen _ Hk) as Hkl.
  destruct (allocate_page_changes h [XL] s Hr Hf) as (s1 & q & E1 & C1 & Hh1 & Hnone & Hsome & _ & _). run E1. cbn [fst snd]. change (OB_FAIL SUCCESS) with false. cbv iota.
  pose proof (changes_ready h _ _ [XL] _ _ C1 Hr) as Hr1. destruct (leaf_init_ok h Hix [XL] s1 q Hr1 Hh1) as (s2 & E2 & C2 & H2). run E2.
  pose proof (ix_leaf_min _ Hix) as Hmin. destruct (leaf_insert_ok h Hix [XL] s2 q (-1) (-1) [] [] key v H2 Hkl Hv) as (s3 & E3 & C3 & H3); [unfold len; cbn; lia|]. change (len (@nil Item)) with 0 in E3. run E3. cbn [app] in H3.
  assert (C13 : changes 1 [q] s s3) by (apply (changes_trans [q] [q] [q] 1 0 s s1 s3); [done|by apply (changes_trans [q] [q] [q] 0 0 s1 s2 s3)|done|done]).
  assert (Hq1 : FIRST_INDEX_PAGE ≠ q) by (intros <-; destruct Hp as (g & rest & Hg & _); congruence). assert (Hf1 : FIRST_INDEX_PAGE ∉ [q]) by (clear - Hq1; set_solver).
  pose proof (header_page_changes 1 [q] s s3 C13 Hf1 Hp) as Hp3. pose proof (ch_header _ _ _ _ C13 Hf1) as Eh3.
  destruct (update_root_ok h Hix [XL] s3 q (proj1 H3) Hp3) as (s4 & E4 & C4 & Eh4 & Hp4).
  { intros Hl. destruct (ch_latched _ _ _ _ C13 _ Hl) as [Hl'|(r & Hr' & [= <-])]; [by apply Hlat in Hl'|done]. }
  { rewrite Eh3, Hroot. unfold in_int32, BP_INVALID_PAGE_NUM. lia. }
  run E4. assert (H4 : at_node h [XL] s4 q (LeafOf (-1) (-1) [(key, v)])) by (eapply at_node_changes; [exact C4|clear - Hq1; set_solver|done]).
  destruct (dirty_ok h [XL] s4 q _ H4) as (s5 & E5 & C5 & H5). run E5. set (X := [q; FIRST_INDEX_PAGE]). exists s5, X, q. split; [done|]. split; [apply H5|].
  split; [apply (changes_trans X [q] X 1 0 s s3 s5); [done|apply (changes_trans X [FIRST_INDEX_PAGE] [q] 0 0 s3 s4 s5); [done|done|clear; set_solver|clear; set_solver]|clear; set_solver|done]|].
  constructor.
  - done.
  - cbn. apply level_stored_cons. split; [apply H5|constructor].
  - done.
  - cbn. apply NoDup_cons. split; [done|apply NoDup_singleton].
  - cbn. split; [by constructor|]. repeat constructor.
  - constructor; [|constructor]. unfold leaf_sized, len. cbn. lia.
  - rewrite (ch_header _ _ _ _ C5 Hf1), Eh4. by destruct (tree_header s3).
  - by apply (header_page_changes 0 [q] s4).
Qed.

(** ** Inserting *)

(** the part of [insert_entry] inside the mini transaction *)
Definition insert_body (n : nat) (key v : list Z) : M St RC :=
  let* e := is_empty in
  if e : bool then
    lock OnLock ;;;
    let* rc := create_new_tree key v in
    unlock OnLock ;;;
    ret rc
  else
    let* fl := find_leaf n INSERT key in
    if OB_FAIL fl.1 then ret fl.1
    else insert_entry_into_leaf_node n fl.2 key v.
Lemma is_empty_ok s : is_empty s = Some (root_page (tree_header s) =? BP_INVALID_PAGE_NUM, s).
Proof. done. Qed.
Lemma leaf_nodes_leaves ls nx : Forall (λ x : PageNum * Node, ∃ p nx l, x.2 = LeafOf p nx l) (leaf_nodes ls nx).
Proof. revert nx. induction ls as [|x ls IH]; intros nx; constructor; [by eexists _, _, _|apply IH]. Qed.

(** the outcome, and the state at the end of the mini transaction *)
Definition inserts s l ht (kv : Item) (rc : RC) s1 : Prop :=
  ready h [] s1 ∧ disposed_pages_ s1 = [] ∧ (∀ e, e ∈ entries_ (m_client s1) → in_memory s1 (entry_frame e)) ∧ tp_id (m_pool s1) = tp_id (m_pool s) ∧
  if has_key cmp kv.1 l then rc = RECORD_DUPLICATE_KEY ∧ entries_ (m_client s1) = [] ∧ free s1 = free s ∧ tree_has s1 l ht
  else rc = SUCCESS ∧ (free s ≤ free s1 + S ht)%nat ∧ ∃ ht', (ht' ≤ S ht)%nat ∧ tree_has s1 (insert_sorted cmp kv l) ht'.

Lemma insert_first n s key v : idle s → header_like h (tree_header s) → root_page (tree_header s) = BP_INVALID_PAGE_NUM → header_page s → (0 < free s)%nat → valid key → len v = 8 →
  ∃ rc s1, insert_body n key v (opened s) = Some (rc, s1) ∧ inserts s [] 0 (key, v) rc s1.
Proof.
  intros Hi Hlike Hroot Hp Hf Hk Hv. pose proof (opened_ready s Hi Hlike) as Hr. unfold insert_body. run (is_empty_ok (opened s)). change (tree_header (opened s)) with (tree_header s). rewrite Hroot. change (BP_INVALID_PAGE_NUM =? BP_INVALID_PAGE_NUM) with true. cbv iota.
  destruct (lock_outside (opened s) Hr) as (E1 & Hr1 & Hlat1); [apply Hi|]. run E1. set (s1 := with_locks _ _) in *.
  destruct (create_new_tree_ok s1 key v Hr1 Hf Hroot Hp Hlat1 Hk Hv) as (s2 & X & q & E2 & Hr2 & C2 & Ht2). run E2.
  destruct (unlock_outside s2 Hr2) as (s3 & E3 & Hr3 & G). run E3. exists SUCCESS, s3. split; [done|]. split; [done|]. split; [rewrite (gb_disposed _ _ G); apply (ch_disposed _ _ _ _ C2)|].
  split; [|split; [rewrite (gb_id _ _ G); apply (ch_id _ _ _ _ C2)|]].
  - intros e. rewrite (gb_client _ _ G). intros He. destruct (ch_entries _ _ _ _ C2 e He) as [He1|[H1 H2]]; [by apply elem_of_nil in He1|]. split; [by apply (gb_memory _ _ G)|by rewrite (gb_pages _ _ G)].
  - cbn [has_key existsb]. split; [done|]. split; [rewrite (gb_free _ _ G); pose proof (ch_free _ _ _ _ C2); change (free s1) with (free s) in *; lia|]. exists 1%nat. split; [done|]. right. exists [((key, q), [(key, v)])], [], q.
    split; [|done]. apply (tree_data s2); [|unfold tree_header; by rewrite (gb_client _ _ G)|done]. intros r _. unfold data_at. by rewrite (gb_pages _ _ G).
Qed.

Lemma insert_more n s key v ls lvls root : idle s → header_like h (tree_header s) → tree_at s ls lvls root → (S (S (length lvls)) ≤ free s)%nat → (length lvls < n)%nat → valid key → len v = 8 →
  ∃ rc s1, insert_body n key v (opened s) = Some (rc, s1) ∧ inserts s (contents ls) (S (length lvls)) (key, v) rc s1.
Proof.
  intros Hi Hlike Ht Hf Hn Hk Hv. pose proof (opened_ready s Hi Hlike) as Hr. pose proof Ht as Ht0. destruct Ht. apply NoDup_cons in ta_pages as [_ Hnd].
  unfold insert_body. run (is_empty_ok (opened s)). change (tree_header (opened s)) with (tree_header s).
  destruct (root_stored h lvls ls.*1 (leaf_nodes ls (-1)) s root ta_levels) as [N HN]; [apply leaf_nodes_pages|done|done|].
  pose proof (page_int32 _ (opened s) root (proj1 Hr) (stored_exists _ _ _ _ HN)) as Broot. rewrite ta_root, (proj2 (Z.eqb_neq root BP_INVALID_PAGE_NUM)) by (unfold BP_INVALID_PAGE_NUM; lia).
  destruct (find_leaf_ok h Hix valid Hlen lvls ls.*1 (leaf_nodes ls (-1)) root (opened s) n ta_levels (leaf_nodes_pages ls _) ta_leaves (levels_data s (opened s) lvls (λ _ _, eq_refl) ta_lvls) (sorted_seps _ ta_sorted) Hnd (leaf_nodes_leaves _ _) Hn Hr (proj2 (proj2 Hi)) ta_root INSERT key Hk)
    as (s1 & A' & k & q & B' & Els & Hc & E1 & Hr1 & L1 & Hh1 & Hlat1 & _).
  assert (Hlat1' : ∀ r : PageNum, latched s1 (OnFrame r) → r ∈ q :: level_pages lvls) by (intros r Hr'; destruct (Hlat1 r Hr') as [->|?%over_pages]; [left|by right]). clear Hlat1. rename Hlat1' into Hlat1.
  run E1. cbn [fst snd]. change (OB_FAIL SUCCESS) with false. cbv iota.
  apply fmap_app_inv in Els as (A & ls' & -> & E2 & ->). destruct ls' as [|[kq l] B]; [done|]. cbn in E2. injection E2 as <- ->.
  assert (Ht1 : tree_at s1 (A ++ ((k, q), l) :: B) lvls root).
  { apply (tree_data s); [|unfold tree_header; by rewrite (lk_client _ _ L1)|done]. intros r _. unfold data_at. by rewrite (lk_pages _ _ L1). }
  pose proof Ht1 as [_ Hleaves1 _ _ _ _ _ _]. destruct (leaf_at h s1 A k q l B lvls Hleaves1) as (p1 & p & p2 & Ep & Lp & Hst).
  assert (Hf1 : (S (S (length lvls)) ≤ free s1)%nat) by (rewrite (lk_free _ _ L1); done).
  pose proof (insert_leaf_ok h Hix valid Hlen s1 A k q l B lvls root key v n Ht1 Hr1 Hh1 Hlat1 Hk Hv Hc p1 p p2 Ep Lp Hst Hf1 Hn) as Hins.
  assert (Hin : ∀ s2 j X, changes j X s1 s2 → ready h [] s2 ∧ disposed_pages_ s2 = [] ∧ (∀ e, e ∈ entries_ (m_client s2) → in_memory s2 (entry_frame e)) ∧ tp_id (m_pool s2) = tp_id (m_pool s)).
  { intros s2 j X C. split; [by apply (changes_ready h _ _ [] _ _ C)|]. split; [rewrite (ch_disposed _ _ _ _ C); apply (lk_disposed _ _ L1)|]. split; [|rewrite (ch_id _ _ _ _ C); apply (lk_id _ _ L1)].
    intros e He. destruct (ch_entries _ _ _ _ C e He) as [He1|]; [|done]. rewrite (lk_client _ _ L1) in He1. by apply elem_of_nil in He1. }
  unfold inserts. destruct (has_key cmp key _) eqn:Ehas.
  - exists RECORD_DUPLICATE_KEY, s1. split; [exact Hins|]. cbn [fst]. rewrite Ehas. destruct (Hin s1 0%nat [] (changes_refl s1)) as (H1 & H2 & H3 & H4). split; [done|]. split; [done|]. split; [done|]. split; [done|].
    split; [done|]. split; [by rewrite (lk_client _ _ L1)|]. split; [apply (lk_free _ _ L1)|]. right. by exists (A ++ ((k, q), l) :: B), lvls, root.
  - destruct Hins as (s2 & ls2 & lvls2 & root2 & j & X & E2 & C & Hj & Hlv2 & Ht2 & Ec). exists SUCCESS, s2. split; [exact E2|]. cbn [fst]. rewrite Ehas. destruct (Hin s2 j X C) as (H1 & H2 & H3 & H4). split; [done|]. split; [done|]. split; [done|]. split; [done|].
    split; [done|]. split; [pose proof (ch_free _ _ _ _ C); rewrite (lk_free _ _ L1) in *; change (free (opened s)) with (free s) in *; lia|]. exists (S (length lvls2)). split; [lia|]. right. by exists ls2, lvls2, root2.
Qed.

Lemma insert_entry_ok n user_key k rid s l ht :
  tree_ok s l ht → mem_read user_key 0 (attr_length h) = Some k → valid (k ++ rid_bytes rid) → (S ht ≤ free s)%nat → (ht ≤ n)%nat →
  let kv := (k ++ rid_bytes rid, rid_bytes rid) in
  ∃ rc s', insert_entry n (Some user_key) (Some rid) s = Some (rc, s') ∧ tp_id (m_pool s') = tp_id (m_pool s) ∧
    if has_key cmp kv.1 l then rc = RECORD_DUPLICATE_KEY ∧ tree_ok s' l ht ∧ (free s ≤ free s')%nat
    else rc = SUCCESS ∧ (free s ≤ free s' + S ht)%nat ∧ ∃ ht', (ht' ≤ S ht)%nat ∧ tree_ok s' (insert_sorted cmp kv l) ht'.
Proof.
  intros Ht Hkey Hv Hf Hn kv. pose proof Ht as Ht0. destruct Ht. assert (Hv8 : len (rid_bytes rid) = 8) by (unfold rid_bytes; by rewrite len_app, !len_enc32).
  assert (E : ∃ rc s1, insert_body n kv.1 kv.2 (opened s) = Some (rc, s1) ∧ inserts s l ht kv rc s1).
  { destruct to_has0 as [(H1 & H2 & -> & ->)|(ls & lvls & root & H1 & -> & ->)]; [apply insert_first; done|apply (insert_more n s _ _ ls lvls root); done]. }
  destruct E as (rc & s1 & E & Hr1 & Hd1 & Hes1 & Hid1 & Hins). unfold insert_entry, make_key. rewrite bind_assoc. run (file_header_ok s). rewrite bind_assoc.
  destruct to_header0 as [r0 Eh]. rewrite Eh. change (attr_length (with_root r0 h)) with (attr_length h). rewrite (bind_liftO _ _ _ _ Hkey), bind_ret. fold kv.1.
  destruct (has_key cmp kv.1 l).
  - destruct Hins as (-> & He1 & Hf1 & Hhas). destruct (in_mtr_ok (insert_body n kv.1 kv.2) s _ s1 l ht l ht Ht0 E (proj1 Hr1) (proj2 Hr1) Hes1) as (s' & E' & Ht' & Hf' & Hid'); [by right|done|done|].
    exists RECORD_DUPLICATE_KEY, s'. split; [exact E'|]. split; [congruence|]. split; [done|]. split; [done|lia].
  - destruct Hins as (-> & Hf1 & ht' & Hht' & Hhas). destruct (in_mtr_ok (insert_body n kv.1 kv.2) s _ s1 l ht (insert_sorted cmp kv l) ht' Ht0 E (proj1 Hr1) (proj2 Hr1) Hes1) as (s' & E' & Ht' & Hf' & Hid'); [by left|done|done|].
    exists SUCCESS, s'. split; [exact E'|]. split; [congruence|]. split; [done|]. split; [lia|]. by exists ht'.
Qed.
End entry.
