(* ===== verification/BplusScanner.v ===== *)
(** * BplusScanner: scanning an index (BplusTreeScanner in storage/index/bplus_tree.cpp, bplus_tree_index.cpp)

    A scanner has a mini transaction of its own; while it works that is the one in the state.
    It holds the page it is on; [iter_index_] is the item that was answered last. *)
From S2P Require Import Prelude Types Encoding LogHandler KeyCompare LatchMemo BplusNode BplusLog BplusTree.

Record BplusTreeScanner := mkScanner {
  inited_ : bool;
  current_frame_ : option PageNum;
  right_key_ : option (list Z);
  iter_index_ : Z;
  first_emitted_ : bool;
}.
Definition new_scanner : BplusTreeScanner := mkScanner false None None (-1) false.
Definition sc_frame (f : option PageNum) (sc : BplusTreeScanner) : BplusTreeScanner := mkScanner (inited_ sc) f (right_key_ sc) (iter_index_ sc) (first_emitted_ sc).
Definition sc_index (i : Z) (sc : BplusTreeScanner) : BplusTreeScanner := mkScanner (inited_ sc) (current_frame_ sc) (right_key_ sc) i (first_emitted_ sc).
Definition sc_right (k : option (list Z)) (sc : BplusTreeScanner) : BplusTreeScanner := mkScanner (inited_ sc) (current_frame_ sc) k (iter_index_ sc) (first_emitted_ sc).
Definition sc_emitted (sc : BplusTreeScanner) : BplusTreeScanner := mkScanner (inited_ sc) (current_frame_ sc) (right_key_ sc) (iter_index_ sc) true.

(** [fix_user_key]: the key cut or padded to the length of the attribute, and whether the bound
    becomes inclusive; undefined where the assertions fail or [user_key] is too short *)
Definition fix_user_key (h : IndexFileHeader) (user_key : list Z) (key_len : Z) (want_greater : bool) : option (list Z * bool) :=
  if negb (bool_decide (attr_type h = CHARS)) || (Z.of_nat (strnlen (length user_key) user_key) <? key_len) then None
  else if key_len <=? attr_length h then
    k ← mem_read user_key 0 key_len;
    Some (k ++ replicate (Z.to_nat (attr_length h - key_len)) 0, false)
  else
    k ← mem_read user_key 0 (attr_length h);
    c ← rd user_key (attr_length h);
    if c =? 0 then Some (k, false)
    else if want_greater then
      last ← rd k (attr_length h - 1);
      k ← wr k (attr_length h - 1) ((last + 1) mod 256);
      Some (k, true)
    else Some (k, true).

Section scanner.
Context {P : Type} `{TP : TreePool P}.
Abbreviation St := (Memo P TreeState).

Definition fixed_key (h : IndexFileHeader) (user_key : list Z) (key_len : Z) (inclusive want_greater : bool) : option (list Z * bool) :=
  if bool_decide (attr_type h = CHARS) then
    r ← fix_user_key h user_key key_len want_greater; Some (r.1, inclusive || r.2)
  else Some (user_key, inclusive).

Definition touch_end (sc : BplusTreeScanner) : M St bool :=
  match right_key_ sc with
  | None => ret false
  | Some rkey =>
      let* f := liftO (current_frame_ sc) in
      let* h := file_header in
      let* k := key_at LeafNode f (iter_index_ sc) in
      ret (0 <? comparator h k rkey)
  end.
Definition fetch_item (sc : BplusTreeScanner) : M St RID :=
  let* f := liftO (current_frame_ sc) in
  let* v := leaf_value_at f (iter_index_ sc) in
  ret (rid_at v).

(** where the scan begins: [inl] an end of [open], with no page or with an error *)
Definition open_left (n : nat) (left_user_key : option (list Z)) (left_len : Z) (left_inclusive : bool) : M St (RC + PageNum * Z) :=
  match left_user_key with
  | None =>
      let* r := left_most_page n in
      if bool_decide (r.1 = EMPTY) then ret (inl SUCCESS)
      else if OB_FAIL r.1 then ret (inl r.1)
      else ret (inr (r.2, 0))
  | Some user_key =>
      let* h := file_header in
      let* fixed := liftO (fixed_key h user_key left_len left_inclusive true) in
      let* left_key := make_key fixed.1 (if fixed.2 : bool then rid_min else rid_max) in
      let* r := find_leaf n READ left_key in
      if bool_decide (r.1 = EMPTY) then ret (inl SUCCESS)
      else if OB_FAIL r.1 then ret (inl r.1)
      else
        let* p := leaf_lookup r.2 left_key in
        let left_index := p.1 in
        let* k := size r.2 in
        if k <=? left_index then
          let* next := next_page r.2 in
          if next =? BP_INVALID_PAGE_NUM then release ;;; ret (inl SUCCESS)
          else
            let* rc := get_page next in
            if OB_FAIL rc then ret (inl rc)
            else slatch next ;;; ret (inr (next, 0))
        else ret (inr (r.2, left_index))
  end.
Definition scan_open (n : nat) (sc : BplusTreeScanner) (left_user_key : option (list Z)) (left_len : Z) (left_inclusive : bool)
    (right_user_key : option (list Z)) (right_len : Z) (right_inclusive : bool) : M St (RC * BplusTreeScanner) :=
  if inited_ sc then ret (INTERNAL, sc)
  else
    let sc := mkScanner true (current_frame_ sc) (right_key_ sc) (iter_index_ sc) false in
    let* h := file_header in
    let result := match left_user_key, right_user_key with
                  | Some l, Some r => Some (attr_comparator (attr_type h) (attr_length h) l r)
                  | _, _ => None
                  end in
    if match result with Some c => (0 <? c) || ((c =? 0) && (negb left_inclusive || negb right_inclusive)) | None => false end
    then ret (INVALID_ARGUMENT, sc)
    else
      let* r := open_left n left_user_key left_len left_inclusive in
      match r with
      | inl rc => ret (rc, sc_frame None sc)
      | inr (f, i) =>
          let sc := sc_index i (sc_frame (Some f) sc) in
          let* rkey := match right_user_key with
                        | None => ret None
                        | Some user_key =>
                            let* fixed := liftO (fixed_key h user_key right_len right_inclusive false) in
                            let* k := make_key fixed.1 (if fixed.2 : bool then rid_max else rid_min) in
                            ret (Some k)
                        end in
          let sc := sc_right rkey sc in
          let* t := touch_end sc in
          ret (SUCCESS, if t : bool then sc_frame None sc else sc)
      end.

(** one more round, after the page has changed, if the new page is not empty *)
Fixpoint next_entry (n : nat) (sc : BplusTreeScanner) : M St (RC * option RID * BplusTreeScanner) :=
  match n, current_frame_ sc with
  | _, None => ret (RECORD_EOF, None, sc)
  | O, _ => abort
  | S n, Some f =>
      if negb (first_emitted_ sc) then
        let* rid := fetch_item sc in
        ret (SUCCESS, Some rid, sc_emitted sc)
      else
        let sc := sc_index (iter_index_ sc + 1) sc in
        let* k := size f in
        if iter_index_ sc <? k then
          let* t := touch_end sc in
          if t : bool then ret (RECORD_EOF, None, sc)
          else
            let* rid := fetch_item sc in
            ret (SUCCESS, Some rid, sc)
        else
          let* next := next_page f in
          if BP_INVALID_PAGE_NUM =? next then ret (RECORD_EOF, None, sc)
          else
            let* s := get in
            let point := memo_point s in
            let* rc := get_page next in
            if OB_FAIL rc then ret (rc, None, sc_frame None sc)
            else
              let sc := sc_frame (Some next) sc in
              let* locked := try_slatch next in
              if negb locked then ret (LOCKED_NEED_WAIT, None, sc)
              else
                release_to point ;;;
                next_entry n (sc_index (-1) sc)
  end.
Definition scan_close (sc : BplusTreeScanner) : BplusTreeScanner := mkScanner false (current_frame_ sc) (right_key_ sc) (iter_index_ sc) (first_emitted_ sc).

(** the loop of [get_entry]: the record ids until the scanner answers something else *)
Fixpoint get_entry_loop (n : nat) (sc : BplusTreeScanner) (rids : list RID) : M St (RC * list RID) :=
  match n with
  | O => abort
  | S m =>
      let* r := next_entry n sc in
      match r with
      | (SUCCESS, Some rid, sc) => get_entry_loop m sc (rids ++ [rid])
      | (rc, _, _) => ret (rc, rids)
      end
  end.
Definition get_entry (n : nat) (user_key : list Z) (key_len : Z) : M St (RC * list RID) :=
  in_mtr (λ _, None) (
    let* r := scan_open n new_scanner (Some user_key) key_len true (Some user_key) key_len true in
    if OB_FAIL r.1 then ret (r.1, [])
    else
      let* r := get_entry_loop n r.2 [] in
      ret (if bool_decide (r.1 = RECORD_EOF) then SUCCESS else r.1, r.2)).

(** ** BplusTreeIndex: the key of a record is its bytes at the offset of the field *)

Definition index_insert_entry (n : nat) (field_offset : Z) (record : list Z) (rid : RID) : M St RC :=
  insert_entry n (Some (drop (Z.to_nat field_offset) record)) (Some rid).
Definition index_delete_entry (n : nat) (field_offset : Z) (record : list Z) (rid : RID) : M St RC :=
  delete_entry n (drop (Z.to_nat field_offset) record) rid.
End scanner.
