(* ===== verification/BplusScan.v ===== *)
(** * BplusScan: scanning a tree

    A scanner that is opened with a lower and an upper bound answers the items between the
    bounds, in their order, and leaves the tree as it was. *)
From stdpp Require Import sorting.
From S2P Require Import Prelude Types Encoding KeyCompare LatchMemo LatchMemoSpec BplusNode BplusLog BplusNodeSpec BplusOps BplusNodeOps BplusMoves BplusShape BplusTree BplusRoot BplusInsert BplusGrow BplusLeaves BplusFind BplusInsertLeaf BplusMtr BplusEntry BplusScanner.

(** ** The reference *)

Section reference.
Context (cmp : list Z → list Z → Z).
(** [None] for no bound *)
Definition past (hi : option (list Z)) (k : list Z) : bool := match hi with Some hi => 0 <? cmp k hi | None => false end.
Definition before (lo : option (list Z)) (k : list Z) : bool := match lo with Some lo => cmp k lo <? 0 | None => false end.
Definition in_range (lo hi : option (list Z)) (l : list Item) : list Item := filter (λ kv, before lo kv.1 = false ∧ past hi kv.1 = false) l.
Fixpoint upto (hi : option (list Z)) (l : list Item) : list Item :=
  match l with
  | [] => []
  | kv :: l => if past hi kv.1 then [] else kv :: upto hi l
  end.
End reference.

Section scan.
Context {P : Type} `{TL : TreePoolLaws P}.
Context (h : IndexFileHeader).
Abbreviation St := (Memo P TreeState).
Implicit Types (s : St) (pn q : PageNum) (N : Node) (ls A B : list Leaf) (l : list Item) (x : Leaf).
Abbreviation stored := (stored h).
Abbreviation ready := (ready h []).
Abbreviation at_node := (at_node h []).
Context (Hix : index_ok h) (valid : list Z → Prop).
Abbreviation cmp := (comparator h).
Context `{KO : !KeyOrder valid cmp} (Hlen : ∀ k, valid k → len k = key_length h).
Abbreviation tree_at := (tree_at h valid).

Lemma in_range_upto lo hi l1 l2 : ascending valid cmp (l1 ++ l2).*1 → (∀ k, hi = Some k → valid k) → Forall (λ kv, before cmp lo kv.1 = true) l1 → Forall (λ kv, before cmp lo kv.1 = false) l2 →
  in_range cmp lo hi (l1 ++ l2) = upto cmp hi l2.
Proof.
  intros Hs Hhi H1 H2. unfold in_range. rewrite filter_app, list_filter_none, app_nil_l; [|eapply Forall_impl; [exact H1|]; cbn; intros ? ->; by intros []].
  rewrite fmap_app in Hs. apply ascending_app in Hs as (_ & Hs & _). clear H1. induction l2 as [|kv l2 IH]; [done|]. inversion_clear H2 as [|? ? Hb H3]. cbn in Hs. pose proof Hs as Hs'. apply ascending_cons in Hs' as (Hv & Hs' & Hall).
  rewrite filter_cons. cbn [upto]. destruct (past cmp hi kv.1) eqn:Ep.
  - rewrite decide_False by (by intros []). apply list_filter_none. apply Forall_forall. intros kw Hkw [_ Hp]. destruct hi as [k|]; [|done]. cbn in Ep, Hp. zbool. pose proof (Hhi k eq_refl) as Hk.
    assert (Hkv : valid kw.1) by (apply (proj1 (Forall_forall _ _) (proj1 Hs')), list_elem_of_fmap_2; done).
    assert (Hlt : cmp kv.1 kw.1 < 0) by (apply (proj1 (Forall_forall _ _) Hall), list_elem_of_fmap_2; done). pose proof (cmp_lt_le_trans _ _ _ Hv Hkv Hk Hlt Hp). lia.
  - rewrite decide_True by done. f_equal. by apply IH.
Qed.

(** ** On a leaf *)

Context (ls0 : list Leaf) (lvls : list (list Inner)) (root : PageNum).
(** the pages of the items that were passed may still be held *)
Record on_leaf s A x B : Prop := {
  ol_ready : ready s;
  ol_leaves : ls0 = A ++ x :: B;
  ol_tree : tree_at s ls0 lvls root;
  ol_held : held s x.1.2;
  ol_latched : ∀ q, latched s (OnFrame q) → q ∈ (A ++ [x]).*1.*2;
}.
Lemma on_leaf_node s A x B : on_leaf s A x B → ∃ p, at_node s x.1.2 (LeafOf p (first_page B (-1)) x.2).
Proof.
  intros []. pose proof ol_tree0 as [_ Hl _ _ _ _ _ _]. subst ls0. destruct x as [[k q] l]. destruct (leaf_at h s A k q l B lvls Hl) as (p1 & p & p2 & _ & _ & Hst). by exists p.
Qed.
Lemma looks_tree s s' ls : looks s s' → tree_at s ls lvls root → tree_at s' ls lvls root.
Proof. intros L. apply tree_data; [|unfold tree_header; by rewrite (lk_client _ _ L)]. intros q _. unfold data_at. by rewrite (lk_pages _ _ L). Qed.

Lemma leaf_value_ok s pn p nx l1 kv l2 : at_node s pn (LeafOf p nx (l1 ++ kv :: l2)) → leaf_value_at pn (len l1) s = Some (kv.2, s).
Proof.
  intros Hat. unfold leaf_value_at. assert (Hi : 0 ≤ len l1 < size_of (LeafOf p nx (l1 ++ kv :: l2))) by (cbn [size_of]; rewrite len_app; unfold len; cbn [length]; lia).
  run (in_node_ok _ _ _ _ _ Hat _ Hi). destruct (stored_at _ _ _ _ _ Hat) as (d & Ha & Hn & Hok). pose proof (proj2 (proj1 Hat)) as Hlike.
  cbn [node_ok] in Hok. destruct Hok as [_ Hok]. rewrite Forall_app, Forall_cons in Hok. destruct Hok as (_ & [Hk Hv] & _).
  change (item_size (class_of (LeafOf p nx (l1 ++ kv :: l2))) h) with (item_size LeafNode h) in Hn. rewrite <-(item_size_like _ _ _ Hlike) in Hn.
  apply (rn_raw_value _ _ _ _ _ _ _ _ _ (class_raw_of (LeafOf p nx (l1 ++ kv :: l2))) eq_refl Ha Hn (item_bytes <$> l1) kv.1 kv.2 (item_bytes <$> l2)).
  - cbn [raws_of]. by rewrite fmap_app.
  - by rewrite len_fmap.
  - rewrite Hk. destruct Hlike as [r Hl]. unfold tree_header in Hl. by rewrite Hl.
  - done.
Qed.
Lemma leaf_key_ok s pn p nx l1 kv l2 : at_node s pn (LeafOf p nx (l1 ++ kv :: l2)) → key_at LeafNode pn (len l1) s = Some (kv.1, s).
Proof. intros Hat. apply (key_at_ok _ _ _ _ _ Hat). cbn [keys_of]. destruct kv. apply rd_middle. Qed.

(** the next leaf is latched *)
Lemma next_fetched s A x y B : on_leaf s A x (y :: B) →
  ∃ s1 s2, get_page y.1.2 s = Some (SUCCESS, s1) ∧ latch y.1.2 SHARED s1 = Some (tt, s2) ∧ ready s2 ∧ looks s s2 ∧ held s2 y.1.2 ∧ items_ s2 = items_ s ++ read_items y.1.2 ∧ 0 < y.1.2.
Proof.
  intros []. pose proof ol_tree0 as [_ Hl _ Hnd _ _ _ _].
  assert (Hin : y.1.2 ∈ (leaf_nodes ls0 (-1)).*1) by (rewrite leaf_nodes_pages, ol_leaves0, !fmap_app; cbn; clear; set_solver). pose proof (level_stored_exists h _ _ _ _ Hl Hin) as Hex.
  assert (Hnl : ¬ latched s (OnFrame y.1.2)).
  { intros Hq. apply ol_latched0 in Hq. rewrite ol_leaves0 in Hnd. apply NoDup_cons in Hnd as [_ Hnd]. apply NoDup_app in Hnd as (Hnd & _). rewrite !fmap_app in *. cbn in *. rewrite (cons_middle x.1.2), app_assoc in Hnd. apply NoDup_app in Hnd as (_ & Hnd & _). apply (Hnd _ Hq). left. }
  destruct (fetch_ok h s y.1.2 true ol_ready0 Hex Hnl) as (s1 & s2 & E1 & E2 & Hr2 & L2 & Hh2 & Ei2). exists s1, s2. pose proof (page_int32 _ _ _ (proj1 ol_ready0) Hex) as [Hy _]. done.
Qed.
(** the pages that were held are given back *)
Lemma hop_ok s A x y B : on_leaf s A x (y :: B) →
  ∃ s1 s2 s', get_page y.1.2 s = Some (SUCCESS, s1) ∧ try_slatch y.1.2 s1 = Some (true, s2) ∧ release_to (memo_point s) s2 = Some (tt, s') ∧ on_leaf s' (A ++ [x]) y B ∧ looks s s'.
Proof.
  intros Hol. pose proof Hol as []. destruct (next_fetched _ _ _ _ _ Hol) as (s1 & s2 & E1 & E2 & Hr2 & L2 & Hh2 & Ei2 & _).
  destruct (front_released h s2 (items_ s) _ Hr2 Ei2 (ordered_pair _ _)) as (s3 & E3 & Hr3 & L3 & Ei3). exists s1, s2, s3. split; [done|].
  split; [|split; [done|]].
  - unfold latch in E2. unfold try_slatch, try_read_latch. rewrite bind_assoc. destruct (read_latch y.1.2 s1) as [[[] s1']|] eqn:E4; [|unfold bind in E2; by rewrite E4 in E2].
    rewrite (bind_eq _ _ _ _ _ E4) in E2. rewrite (bind_eq _ _ _ _ _ E4), bind_ret, (bind_eq _ _ _ _ _ E2). done.
  - pose proof (looks_trans _ _ _ L2 L3) as L. split; [|done]. constructor; [done|rewrite ol_leaves0, <-app_assoc; done|by apply (looks_tree s)| |].
    + apply (held_pins [] s3 _ (proj1 Hr3)). apply count_elem. rewrite Ei3. left.
    + intros q Hq. apply (latched_items [] s3 _ (proj1 Hr3)) in Hq. rewrite Ei3 in Hq. destruct (decide (q = y.1.2)) as [->|Hne]; [rewrite fmap_app; cbn; rewrite fmap_app; cbn; clear; set_solver|].
      cbn [app] in Hq. unfold read_items in Hq. rewrite !count_pair_other in Hq by congruence. lia.
Qed.

(** ** The cursor *)

Context (hi : option (list Z)) (Hfull : Forall (λ x : Leaf, x.2 ≠ []) ls0).
Abbreviation upto := (upto cmp hi).

(** the scanner stands before [rest] *)
Record cursor s (sc : BplusTreeScanner) (rest : list Item) : Prop := {
  cu_at : ∃ A x B l1 l2, on_leaf s A x B ∧ x.2 = l1 ++ l2 ∧ current_frame_ sc = Some x.1.2 ∧ iter_index_ sc = len l1 - 1 ∧ rest = l2 ++ contents B;
  cu_emitted : first_emitted_ sc = true;
  cu_right : right_key_ sc = hi;
}.

Lemma touch_ok s A x B l1 kv l2 sc : on_leaf s A x B → x.2 = l1 ++ kv :: l2 → current_frame_ sc = Some x.1.2 → iter_index_ sc = len l1 → right_key_ sc = hi →
  touch_end sc s = Some (past cmp hi kv.1, s).
Proof.
  intros Hol E Ec Ei Er. unfold touch_end. rewrite Er. unfold past. destruct hi as [k|]; [|done]. destruct (on_leaf_node _ _ _ _ Hol) as [p Hat]. rewrite E in Hat. rewrite Ec. rewrite (bind_liftO _ _ _ _ (eq_refl (Some x.1.2))).
  run (file_header_ok s). rewrite Ei. run (leaf_key_ok _ _ _ _ _ _ _ Hat). destruct (proj2 (proj1 Hat)) as [r ->]. done.
Qed.
Lemma fetch_item_ok s A x B l1 kv l2 sc : on_leaf s A x B → x.2 = l1 ++ kv :: l2 → current_frame_ sc = Some x.1.2 → iter_index_ sc = len l1 → fetch_item sc s = Some (rid_at kv.2, s).
Proof.
  intros Hol E Ec Ei. unfold fetch_item. destruct (on_leaf_node _ _ _ _ Hol) as [p Hat]. rewrite E in Hat. rewrite Ec. rewrite (bind_liftO _ _ _ _ (eq_refl (Some x.1.2))). rewrite Ei. by run (leaf_value_ok _ _ _ _ _ _ _ Hat).
Qed.

(** one more item on this leaf *)
Lemma next_here n s A x B l1 kv l2 sc : on_leaf s A x B → x.2 = l1 ++ kv :: l2 → current_frame_ sc = Some x.1.2 → iter_index_ sc = len l1 - 1 → first_emitted_ sc = true → right_key_ sc = hi →
  next_entry (S n) sc s = Some (if past cmp hi kv.1 then (RECORD_EOF, None, sc_index (len l1) sc) else (SUCCESS, Some (rid_at kv.2), sc_index (len l1) sc), s).
Proof.
  intros Hol E Ec Ei Ef Er. destruct (on_leaf_node _ _ _ _ Hol) as [p Hat]. rewrite E in Hat. cbn [next_entry]. rewrite Ec, Ef. cbn [negb]. replace (iter_index_ sc + 1) with (len l1) by lia. run (size_ok _ _ _ _ _ Hat). cbn [size_of].
  change (iter_index_ (sc_index (len l1) sc)) with (len l1). rewrite (proj2 (Z.ltb_lt _ _)) by (rewrite len_app; unfold len; cbn [length]; lia).
  rewrite (bind_eq _ _ _ _ _ (touch_ok s A x B l1 kv l2 (sc_index (len l1) sc) Hol E Ec eq_refl Er)). destruct (past cmp hi kv.1); [done|].
  by rewrite (bind_eq _ _ _ _ _ (fetch_item_ok s A x B l1 kv l2 (sc_index (len l1) sc) Hol E Ec eq_refl)).
Qed.
Lemma cursor_here s A x B l1 kv l2 sc : on_leaf s A x B → x.2 = l1 ++ kv :: l2 → current_frame_ sc = Some x.1.2 → first_emitted_ sc = true → right_key_ sc = hi → cursor s (sc_index (len l1) sc) (l2 ++ contents B).
Proof.
  intros Hol E Ec Ef Er. constructor; [|done|done]. exists A, x, B, (l1 ++ [kv]), l2. split; [done|]. split; [by rewrite <-app_assoc|]. split; [done|]. split; [cbn; rewrite len_app; unfold len; cbn [length]; lia|done].
Qed.

Lemma scan_next_ok n s sc rest : cursor s sc rest → (2 ≤ n)%nat →
  match upto rest with
  | [] => ∃ sc' s', next_entry n sc s = Some ((RECORD_EOF, None, sc'), s') ∧ ready s' ∧ looks s s'
  | kv :: more => ∃ sc' s' rest', next_entry n sc s = Some ((SUCCESS, Some (rid_at kv.2), sc'), s') ∧ cursor s' sc' rest' ∧ looks s s' ∧ more = upto rest'
  end.
Proof.
  intros [(A & x & B & l1 & l2 & Hol & E & Ec & Ei & ->) Ef Er] Hn. destruct n as [|[|n]]; [lia|lia|]. destruct l2 as [|kv l2].
  - rewrite app_nil_l. destruct (on_leaf_node _ _ _ _ Hol) as [p Hat]. assert (E1 : ∀ k : M St (RC * option RID * BplusTreeScanner), next_entry (S (S n)) sc s =
        (if BP_INVALID_PAGE_NUM =? first_page B (-1) then ret (RECORD_EOF, None, sc_index (len l1) sc) else
         let* st := get in let point := memo_point st in let* rc := get_page (first_page B (-1)) in
         if OB_FAIL rc then ret (rc, None, sc_frame None (sc_index (len l1) sc))
         else let* locked := try_slatch (first_page B (-1)) in
              if negb locked then ret (LOCKED_NEED_WAIT, None, sc_frame (Some (first_page B (-1))) (sc_index (len l1) sc))
              else release_to point ;;; next_entry (S n) (sc_index (-1) (sc_frame (Some (first_page B (-1))) (sc_index (len l1) sc)))) s).
    { intros _. cbn [next_entry]. rewrite Ec, Ef. cbn [negb]. replace (iter_index_ sc + 1) with (len l1) by lia. run (size_ok _ _ _ _ _ Hat). cbn [size_of]. change (iter_index_ (sc_index (len l1) sc)) with (len l1).
      rewrite (proj2 (Z.ltb_ge _ _)) by (rewrite E, app_nil_r; lia). run (next_ok _ _ _ _ _ Hat p (first_page B (-1)) x.2 eq_refl). done. }
    rewrite E1 by exact abort. clear E1. destruct B as [|y B].
    + exists (sc_index (len l1) sc), s. split; [done|]. split; [apply Hol|apply looks_refl].
    + destruct (hop_ok s A x y B Hol) as (s1 & s2 & s3 & E1 & E2 & E3 & Hol3 & L3). cbn [first_page] in *.
      destruct (on_leaf_node _ _ _ _ Hol3) as [p3 Hat3]. pose proof (page_int32 _ _ _ (proj1 (proj1 Hat3)) (stored_exists _ _ _ _ (proj2 (proj2 Hat3)))) as By.
      rewrite (proj2 (Z.eqb_neq BP_INVALID_PAGE_NUM y.1.2)) by (unfold BP_INVALID_PAGE_NUM; lia). rewrite bind_get. run E1. change (OB_FAIL SUCCESS) with false. cbv iota. run E2. cbn [negb]. run E3.
      assert (Hy : y.2 ≠ []) by (rewrite (ol_leaves _ _ _ _ Hol), Forall_app, !Forall_cons in Hfull; tauto). destruct (y.2) as [|kv l] eqn:Ey; [done|]. rewrite contents_cons, Ey. cbn [app].
      set (sc3 := sc_index (-1) _). pose proof (next_here n s3 (A ++ [x]) y B [] kv l sc3 Hol3 Ey eq_refl eq_refl Ef Er) as E4. rewrite E4. cbn [BplusScan.upto]. destruct (past cmp hi kv.1).
      * eexists _, s3. split; [done|]. split; [apply Hol3|done].
      * eexists _, s3, (l ++ contents B). split; [done|]. split; [by apply (cursor_here s3 (A ++ [x]) y B [] kv l sc3 Hol3 Ey)|done].
  - rewrite <-app_comm_cons. cbn [BplusScan.upto]. rewrite (next_here (S n) s A x B l1 kv l2 sc Hol E Ec Ei Ef Er). destruct (past cmp hi kv.1).
    + eexists _, s. split; [done|]. split; [apply Hol|apply looks_refl].
    + eexists _, s, (l2 ++ contents B). split; [done|]. split; [by apply (cursor_here s A x B l1 kv l2 sc Hol E)|]. split; [apply looks_refl|done].
Qed.

(** to the end *)
Lemma scan_loop_ok n : ∀ s sc rest rids, cursor s sc rest → (length (upto rest) + 2 ≤ n)%nat →
  ∃ s', get_entry_loop n sc rids s = Some ((RECORD_EOF, rids ++ ((λ kv, rid_at kv.2) <$> upto rest)), s') ∧ ready s' ∧ looks s s'.
Proof.
  induction n as [|n IH]; intros s sc rest rids Hcu Hn; [lia|]. cbn [get_entry_loop]. pose proof (scan_next_ok (S n) s sc rest Hcu ltac:(lia)) as Hnext. destruct (upto rest) as [|kv more].
  - destruct Hnext as (sc' & s' & E & Hr & L). run E. exists s'. rewrite app_nil_r. done.
  - destruct Hnext as (sc' & s1 & rest' & E & Hcu1 & L1 & ->). run E. destruct (IH s1 sc' rest' (rids ++ [rid_at kv.2]) Hcu1) as (s' & E' & Hr' & L'); [cbn in Hn; lia|].
    exists s'. rewrite E', <-app_assoc. split; [done|]. split; [done|]. by apply (looks_trans _ s1).
Qed.

(** ** Opening *)

(** the key that a bound of the user stands for *)
Definition bound_key (user_key : list Z) (key_len : Z) (inclusive want_greater : bool) (rid_in rid_out : RID) : option (list Z) :=
  fixed ← fixed_key h user_key key_len inclusive want_greater;
  k ← mem_read fixed.1 0 (attr_length h);
  Some (k ++ rid_bytes (if fixed.2 : bool then rid_in else rid_out)).
Definition is_bound (user : option (list Z)) (key_len : Z) (inclusive want_greater : bool) (rid_in rid_out : RID) (k : option (list Z)) : Prop :=
  match user, k with
  | None, None => True
  | Some user, Some k => bound_key user key_len inclusive want_greater rid_in rid_out = Some k ∧ valid k
  | _, _ => False
  end.

Lemma release_reader s : ready s → disposed_pages_ s = [] → ∃ s', release s = Some (tt, s') ∧ ready s' ∧ looks s s'.
Proof.
  intros Hr Hd. destruct (front_released h s (items_ s) [] Hr (eq_sym (app_nil_r _)) ordered_nil) as (s1 & E & Hr1 & L1 & Ei1).
  unfold release. rewrite bind_get. unfold memo_point. run E. rewrite bind_get, (lk_disposed _ _ L1), Hd. cbn [forM]. rewrite bind_ret. eexists. split; [done|]. split.
  - destruct Hr1 as [[[] ? ? ?] Hl]. split; [|done]. constructor; [|done..]. by constructor.
  - destruct L1. by constructor.
Qed.
Lemma make_bound s fk inc k rid_in rid_out : ready s → mem_read fk 0 (attr_length h) = Some k → make_key fk (if inc : bool then rid_in else rid_out) s = Some (k ++ rid_bytes (if inc then rid_in else rid_out), s).
Proof. intros [_ [r Hl]] Hk. unfold make_key. run (file_header_ok s). rewrite Hl. change (attr_length (with_root r h)) with (attr_length h). by rewrite (bind_liftO _ _ _ _ Hk). Qed.

Context (s0 : St) (Hr0 : ready s0) (Hlk0 : m_locks s0 = ∅) (Hd0 : disposed_pages_ s0 = []) (Ht0 : tree_at s0 ls0 lvls root).
Context (n : nat) (Hn : (length lvls < n)%nat).

Lemma count_in t w (l : list LatchMemoItem) : (0 < count t w l)%nat → mkItem t w ∈ l.
Proof.
  unfold count. intros Hc. destruct (filter (is_item t w) l) as [|i l'] eqn:E; [cbn in Hc; lia|]. assert (Hi : i ∈ filter (is_item t w) l) by (rewrite E; left).
  apply list_elem_of_filter in Hi as [[<- <-] Hi]. by destruct i.
Qed.
(** a reader that arrived at a leaf *)
Lemma arrived s A x B : ready s → looks s0 s → ls0 = A ++ x :: B → held s x.1.2 → (∀ i, i ∈ items_ s → ∃ q, item_on i = OnFrame q ∧ q ∈ (A ++ [x]).*1.*2) → on_leaf s A x B.
Proof.
  intros Hr L E Hh Hi. constructor; [done|done|by apply (looks_tree s0)|done|]. intros q Hq. apply (latched_items [] s _ (proj1 Hr)) in Hq. cbn [app] in Hq.
  assert (Hin : ∃ t, mkItem t (OnFrame q) ∈ items_ s).
  { destruct (decide (0 < count EXCLUSIVE (OnFrame q) (items_ s))%nat); [exists EXCLUSIVE|exists SHARED]; apply count_in; lia. }
  destruct Hin as [t Hin]. destruct (Hi _ Hin) as (q' & [= <-] & Hq'). done.
Qed.
Lemma read_items_on q i (ps : list PageNum) : i ∈ read_items q → q ∈ ps → ∃ q', item_on i = OnFrame q' ∧ q' ∈ ps.
Proof. intros [->|Hi%list_elem_of_singleton]%elem_of_cons Hq; exists q; by rewrite ?Hi. Qed.
Lemma page_in A x : x.1.2 ∈ (A ++ [x]).*1.*2.
Proof. rewrite !fmap_app. apply elem_of_app. right. left. Qed.

Definition opened_at lo user (key_len : Z) (inclusive : bool) s : Prop :=
  (∃ A x B l1 kv l2, open_left n user key_len inclusive s0 = Some (inr (x.1.2, len l1), s) ∧ on_leaf s A x B ∧ x.2 = l1 ++ kv :: l2 ∧
     Forall (λ kv, before cmp lo kv.1 = true) (contents A ++ l1) ∧ Forall (λ kv, before cmp lo kv.1 = false) ((kv :: l2) ++ contents B)) ∨
  (open_left n user key_len inclusive s0 = Some (inl SUCCESS, s) ∧ ready s ∧ Forall (λ kv, before cmp lo kv.1 = true) (contents ls0)).

Lemma open_first key_len inclusive : ∃ s, opened_at None None key_len inclusive s ∧ looks s0 s.
Proof.
  pose proof Ht0 as [Hlv Hl Hst Hnd Hsrt _ Hroot _]. apply NoDup_cons in Hnd as [_ Hnd].
  destruct (left_most_ok h Hix valid lvls ls0.*1 (leaf_nodes ls0 (-1)) root s0 n Hlv (leaf_nodes_pages ls0 _) Hl Hst (sorted_seps _ Hsrt) Hnd (leaf_nodes_leaves _ _) Hn Hr0 Hlk0 Hroot)
    as (s1 & k & q & B' & Els & E1 & Hr1 & L1 & Hh1 & _ & Ei1).
  apply fmap_cons_inv in Els as ([kq l] & B & Ekq & _ & El). cbn in Ekq. subst kq. assert (Hl0 : l ≠ []) by (rewrite El in Hfull; by apply Forall_cons in Hfull as [? _]). destruct l as [|kv l]; [done|].
  exists s1. split; [|done]. left. exists [], ((k, q), kv :: l), B, [], kv, l.
  split; [unfold open_left; run E1; done|]. split; [|split; [done|split; [constructor|by apply Forall_forall]]]. apply arrived; try done. intros i Hi. rewrite Ei1 in Hi. apply (read_items_on q); [done|left].
Qed.

Lemma bounds_below lo l : below cmp lo l.*1 → Forall (λ kv, before cmp (Some lo) kv.1 = true) l.
Proof. intros Hb. unfold below in Hb. rewrite Forall_fmap in Hb. eapply Forall_impl; [exact Hb|]. cbn. intros kv Hkv. by apply Z.ltb_lt. Qed.
Lemma bounds_above lo l : Forall (λ k, 0 ≤ cmp k lo) l.*1 → Forall (λ kv, before cmp (Some lo) kv.1 = false) l.
Proof. intros Hb. rewrite Forall_fmap in Hb. eapply Forall_impl; [exact Hb|]. cbn. intros kv Hkv. by apply Z.ltb_ge. Qed.

Lemma open_from user fk inc k key_len inclusive : fixed_key h user key_len inclusive true = Some (fk, inc) → mem_read fk 0 (attr_length h) = Some k → let lo := k ++ rid_bytes (if inc then rid_min else rid_max) in valid lo →
  ∃ s, opened_at (Some lo) (Some user) key_len inclusive s ∧ looks s0 s.
Proof.
  intros Hfix Hfk lo Hlo. pose proof Ht0 as [Hlv Hl Hst Hnd Hsrt _ Hroot _]. pose proof Hnd as Hnd0. apply NoDup_cons in Hnd0 as [_ Hnd0].
  destruct (find_leaf_ok h Hix valid Hlen lvls ls0.*1 (leaf_nodes ls0 (-1)) root s0 n Hlv (leaf_nodes_pages ls0 _) Hl Hst (sorted_seps _ Hsrt) Hnd0 (leaf_nodes_leaves _ _) Hn Hr0 Hlk0 Hroot READ lo Hlo)
    as (s1 & A' & k1 & q & B' & Els & Hc & E1 & Hr1 & L1 & Hh1 & _ & Ei1). specialize (Ei1 eq_refl).
  apply fmap_app_inv in Els as (A & ls' & -> & E2 & Els). destruct ls' as [|[kq l] B]; [done|]. cbn in E2. injection E2 as <- ->. rewrite Els in Hsrt.
  assert (Hol : on_leaf s1 A ((k1, q), l) B) by (apply arrived; try done; intros i Hi; rewrite Ei1 in Hi; apply (read_items_on q); [done|apply (page_in A ((k1, q), l))]).
  pose proof (covered_below _ _ _ _ _ Hsrt Hlo Hc) as Hbel. pose proof (covered_above _ _ _ _ _ Hsrt Hlo Hc) as Habv.
  destruct (on_leaf_node _ _ _ _ Hol) as [p Hat]. cbn [fst snd] in Hat. destruct (leaf_lookup_ok h valid [] s1 q p _ l lo Hat Hlo (sorted_leaf _ _ _ _ Hsrt)) as (i & b & E3 & Hloc).
  assert (E4 : open_left n (Some user) key_len inclusive s0 = (let* k := size q in if k <=? i then
        let* next := next_page q in
        if next =? BP_INVALID_PAGE_NUM then release ;;; ret (inl SUCCESS)
        else let* rc := get_page next in if OB_FAIL rc then ret (inl rc) else slatch next ;;; ret (inr (next, 0))
      else ret (inr (q, i))) s1).
  { unfold open_left. run (file_header_ok s0). destruct (proj2 Hr0) as [r Hlike]. rewrite Hlike. change (fixed_key (with_root r h)) with (fixed_key h). rewrite (bind_liftO _ _ _ _ Hfix). cbn [fst snd].
    rewrite (bind_eq _ _ _ _ _ (make_bound s0 fk inc k rid_min rid_max Hr0 Hfk)). fold lo. run E1. cbn [fst snd]. change (bool_decide (SUCCESS = EMPTY)) with false. change (OB_FAIL SUCCESS) with false. cbv iota. run E3. done. }
  assert (Hcut : ∃ l1 l2, l = l1 ++ l2 ∧ i = len l1 ∧ Forall (λ kv, before cmp (Some lo) kv.1 = true) (contents A ++ l1) ∧ Forall (λ kv, before cmp (Some lo) kv.1 = false) (l2 ++ contents B)).
  { pose proof (bounds_below _ _ Hbel) as HA. pose proof (bounds_above _ _ (Forall_impl _ _ _ Habv (λ k H1, Z.lt_le_incl _ _ H1))) as HB. inversion Hloc as [ks1 k' ks2 Eks H1 H2 H3 Ei Eb|ks1 ks2 Eks H1 H2 Ei Eb]; subst i b; clear E4 Hloc.
    - apply fmap_app_inv in Eks as (l1 & l2 & -> & Ek2 & ->). rewrite len_fmap. exists l1, l2. split; [done|]. split; [done|]. rewrite !Forall_app. split; [split; [done|by apply bounds_below]|]. split; [|done]. apply bounds_above. rewrite <-Ek2.
      apply Forall_cons. split; [by rewrite H2|]. eapply Forall_impl; [exact H3|cbn; lia].
    - apply fmap_app_inv in Eks as (l1 & l2 & -> & -> & ->). rewrite len_fmap. exists l1, l2. split; [done|]. split; [done|]. rewrite !Forall_app. split; [split; [done|by apply bounds_below]|]. split; [|done]. apply bounds_above.
      eapply Forall_impl; [exact H2|cbn; lia]. }
  destruct Hcut as (l1 & l2 & -> & -> & Hb1 & Hb2). revert E4. run (size_ok _ _ _ _ _ Hat). cbn [size_of]. destruct l2 as [|kv l2].
  - rewrite app_nil_r, (proj2 (Z.leb_le _ _)) by lia. run (next_ok _ _ _ _ _ Hat p _ _ eq_refl). destruct B as [|y B]; cbn [first_page].
    + change (-1 =? BP_INVALID_PAGE_NUM) with true. cbv iota. destruct (release_reader s1 Hr1) as (s2 & E5 & Hr2 & L2); [by rewrite (lk_disposed _ _ L1)|]. run E5. intros E4. exists s2. split; [|by apply (looks_trans _ s1)].
      right. split; [done|]. split; [done|]. rewrite Els, contents_app, contents_cons. rewrite !app_nil_r. done.
    + rewrite app_nil_r in Hol, Els. destruct (next_fetched _ _ _ _ _ Hol) as (s2 & s3 & E5 & E6 & Hr3 & L3 & Hh3 & Ei3 & By). rewrite (proj2 (Z.eqb_neq y.1.2 BP_INVALID_PAGE_NUM)) by (unfold BP_INVALID_PAGE_NUM; lia).
      run E5. change (OB_FAIL SUCCESS) with false. cbv iota. unfold slatch. run E6. intros E4. exists s3. split; [|by apply (looks_trans _ s1)]. left.
      assert (Hy : y.2 ≠ []) by (rewrite Els, Forall_app, !Forall_cons in Hfull; tauto). destruct (y.2) as [|kv l] eqn:Ey; [done|].
      exists (A ++ [((k1, q), l1)]), y, B, [], kv, l. split; [exact E4|]. split; [|split; [done|]].
      * apply arrived; [done|by apply (looks_trans _ s1)|by rewrite <-app_assoc|done|]. intros i Hi. rewrite Ei3, Ei1 in Hi. apply elem_of_app in Hi as [Hi|Hi]; [apply (read_items_on q); [done|]|apply (read_items_on y.1.2); [done|apply page_in]].
        rewrite !fmap_app. cbn. clear. set_solver.
      * rewrite app_nil_l, contents_cons, Ey in Hb2. rewrite app_nil_r, contents_app. change (contents [((k1, q), l1)]) with (l1 ++ []). rewrite app_nil_r. done.
  - rewrite (proj2 (Z.leb_gt _ _)) by (rewrite len_app; unfold len; cbn [length]; lia). intros E4. exists s1. split; [|done]. left. by exists A, ((k1, q), l1 ++ kv :: l2), B, l1, kv, l2.
Qed.

Lemma open_left_ok user key_len inclusive lo : is_bound user key_len inclusive true rid_min rid_max lo → ∃ s, opened_at lo user key_len inclusive s ∧ looks s0 s.
Proof.
  destruct user as [user|], lo as [lo|]; try done; cbn [is_bound]; [|intros _; apply open_first].
  unfold bound_key. intros [E Hlo]. destruct (fixed_key h user key_len inclusive true) as [[fk inc]|] eqn:Efix; [|done]. cbn in E. destruct (mem_read fk 0 (attr_length h)) as [k|] eqn:Ek; [|done]. injection E as <-.
  by apply (open_from user fk inc k).
Qed.
(** the first item is answered without another look at the bound *)
Lemma first_ok s A x B l1 kv l2 sc m : on_leaf s A x B → x.2 = l1 ++ kv :: l2 → current_frame_ sc = Some x.1.2 → iter_index_ sc = len l1 → first_emitted_ sc = false → right_key_ sc = hi →
  (length (upto (l2 ++ contents B)) + 3 ≤ m)%nat →
  ∃ s', get_entry_loop m sc [] s = Some ((RECORD_EOF, rid_at kv.2 :: ((λ kv, rid_at kv.2) <$> upto (l2 ++ contents B))), s') ∧ ready s' ∧ looks s s'.
Proof.
  intros Hol E Ec Ei Ef Er Hm. destruct m as [|m]; [lia|]. cbn [get_entry_loop].
  assert (E1 : next_entry (S m) sc s = Some ((SUCCESS, Some (rid_at kv.2), sc_emitted sc), s)) by (cbn [next_entry]; rewrite Ec, Ef; cbn [negb]; by rewrite (bind_eq _ _ _ _ _ (fetch_item_ok s A x B l1 kv l2 sc Hol E Ec Ei))).
  run E1. assert (Hcu : cursor s (sc_emitted sc) (l2 ++ contents B)).
  { constructor; [|done|done]. exists A, x, B, (l1 ++ [kv]), l2. split; [done|]. split; [by rewrite <-app_assoc|]. split; [done|]. split; [cbn; rewrite Ei, len_app; unfold len; cbn [length]; lia|done]. }
  destruct (scan_loop_ok m s (sc_emitted sc) (l2 ++ contents B) [rid_at kv.2] Hcu) as (s' & E2 & Hr & L); [lia|]. exists s'. done.
Qed.

Definition bounds_cross (left right : option (list Z)) (left_inclusive right_inclusive : bool) : bool :=
  match left, right with
  | Some l, Some r => let c := attr_comparator (attr_type h) (attr_length h) l r in (0 <? c) || ((c =? 0) && (negb left_inclusive || negb right_inclusive))
  | _, _ => false
  end.

Lemma scan_range_ok left left_len left_inclusive right right_len right_inclusive lo m : bounds_cross left right left_inclusive right_inclusive = false →
  is_bound left left_len left_inclusive true rid_min rid_max lo → is_bound right right_len right_inclusive false rid_max rid_min hi → (length (in_range cmp lo hi (contents ls0)) + 3 ≤ m)%nat →
  ∃ sc s1 s2, scan_open n new_scanner left left_len left_inclusive right right_len right_inclusive s0 = Some ((SUCCESS, sc), s1) ∧
    get_entry_loop m sc [] s1 = Some ((RECORD_EOF, (λ kv, rid_at kv.2) <$> in_range cmp lo hi (contents ls0)), s2) ∧ ready s2 ∧ looks s0 s2.
Proof.
  intros Hcross Hlo Hhi Hm. destruct (open_left_ok left left_len left_inclusive lo Hlo) as (s1 & Hop & L1). pose proof Ht0 as [_ _ _ _ Hsrt _ _ _]. pose proof (sorted_keys _ Hsrt) as Hkeys.
  assert (Hvhi : ∀ k, hi = Some k → valid k) by (intros k Ek; rewrite Ek in Hhi; destruct right; [by destruct Hhi|done]).
  assert (Eopen : ∀ r s, open_left n left left_len left_inclusive s0 = Some (r, s) → ready s → scan_open n new_scanner left left_len left_inclusive right right_len right_inclusive s0 = (match r with
      | inl rc => ret (rc, sc_frame None (mkScanner true None None (-1) false))
      | inr (f, i) => let sc := mkScanner true (Some f) hi i false in let* t := touch_end sc in ret (SUCCESS, if t : bool then sc_frame None sc else sc)
      end) s).
  { intros r s E Hr. unfold scan_open. cbn [inited_ new_scanner current_frame_ right_key_ iter_index_]. run (file_header_ok s0). destruct (proj2 Hr0) as [rr Hlike]. rewrite Hlike.
    change (attr_comparator (attr_type (with_root rr h)) (attr_length (with_root rr h))) with (attr_comparator (attr_type h) (attr_length h)). replace (match match left, right with Some l, Some r0 => _ | _, _ => _ end with Some c => _ | None => _ end) with (bounds_cross left right left_inclusive right_inclusive) by (by destruct left, right).
    rewrite Hcross. run E. destruct r as [rc|[f i]]; [done|]. clear - Hhi Hr. destruct right as [right|]; cbn [is_bound] in Hhi; destruct hi as [k0|]; try done.
    destruct Hhi as [Hk _]. unfold bound_key in Hk. destruct (fixed_key h right right_len right_inclusive false) as [[fk inc]|] eqn:Efix; [|done]. cbn in Hk. destruct (mem_read fk 0 (attr_length h)) as [k|] eqn:Ek; [|done]. injection Hk as <-.
    rewrite bind_assoc. change (fixed_key (with_root rr h)) with (fixed_key h). rewrite (bind_liftO _ _ _ _ Efix). cbn [fst snd]. rewrite bind_assoc, (bind_eq _ _ _ _ _ (make_bound s fk inc k rid_max rid_min Hr Ek)). done. }
  destruct Hop as [(A & x & B & l1 & kv & l2 & E & Hol & Ex & Hb1 & Hb2)|(E & Hr1 & Hb)].
  - assert (Ec : contents ls0 = (contents A ++ l1) ++ kv :: l2 ++ contents B) by (rewrite (ol_leaves _ _ _ _ Hol), contents_app, contents_cons, Ex, <-!app_assoc; done). rewrite Ec in *.
    rewrite (in_range_upto lo hi _ _ Hkeys Hvhi Hb1 Hb2) in *. set (sc := mkScanner true (Some x.1.2) hi (len l1) false) in *. pose proof (touch_ok s1 A x B l1 kv l2 sc Hol Ex eq_refl eq_refl eq_refl) as E2.
    cbn [BplusScan.upto] in *. destruct (past cmp hi kv.1) eqn:Ep.
    + exists (sc_frame None sc), s1, s1. split; [rewrite (Eopen _ _ E (ol_ready _ _ _ _ Hol)); fold sc; by run E2|]. split; [destruct m; [lia|]; done|]. split; [apply Hol|done].
    + cbn [length] in Hm. destruct (first_ok s1 A x B l1 kv l2 sc m Hol Ex eq_refl eq_refl eq_refl eq_refl) as (s2 & E3 & Hr2 & L2); [lia|].
      exists sc, s1, s2. split; [rewrite (Eopen _ _ E (ol_ready _ _ _ _ Hol)); fold sc; by run E2|]. split; [done|]. split; [done|by apply (looks_trans _ s1)].
  - assert (Er : in_range cmp lo hi (contents ls0) = []) by (rewrite <-(app_nil_r (contents ls0)), (in_range_upto lo hi _ []); [done|by rewrite app_nil_r|done|done|constructor]). rewrite Er in *.
    eexists _, s1, s1. split; [rewrite (Eopen _ _ E Hr1); done|]. split; [destruct m; [lia|]; done|]. done.
Qed.
End scan.
