(* ===== verification/BplusIndex.v ===== *)
(** * BplusIndex: what an index promises

    An index that is at rest holds a sorted list of entries. [insert_entry] inserts into it or
    finds the entry there, [get_entry] answers the record ids in a range and changes nothing. *)
From stdpp Require Import sorting.
From S2P Require Import Prelude Types Encoding KeyCompare LatchMemo LatchMemoSpec BplusNode BplusLog BplusNodeSpec BplusOps BplusNodeOps BplusMoves BplusShape BplusTree BplusRoot BplusInsert BplusGrow BplusLeaves BplusFind BplusInsertLeaf BplusMtr BplusEntry BplusScanner BplusScan.

Section index.
Context {P : Type} `{TL : TreePoolLaws P}.
Context (h : IndexFileHeader).
Abbreviation St := (Memo P TreeState).
Implicit Types (s : St) (pn q : PageNum) (l : list Item).
Context (Hix : index_ok h) (valid : list Z → Prop).
Abbreviation cmp := (comparator h).
Context `{KO : !KeyOrder valid cmp} (Hlen : ∀ k, valid k → len k = key_length h).
Abbreviation tree_ok := (tree_ok h valid).

(** reading needs no log *)
Lemma read_mtr_ok {A} (body : M St A) (a : A) s s1 l ht : tree_ok s l ht → body (opened s) = Some (a, s1) → ready h [] s1 → looks (opened s) s1 →
  ∃ s', in_mtr (λ _, None) body s = Some (a, s') ∧ tree_ok s' l ht ∧ (free s ≤ free s')%nat.
Proof.
  intros [] E [Hm Hlike] L. assert (Ee : entries_ (m_client s1) = []) by (by rewrite (lk_client _ _ L)). assert (Ed : disposed_pages_ s1 = []) by apply (lk_disposed _ _ L).
  assert (Ec : commit s1 = Some (SUCCESS, s1)) by (unfold commit, tree_state; rewrite (bind_eq _ _ _ _ _ eq_refl), Ee; done).
  destruct (release_ok s1 Hm) as (s2 & E2 & Hi2 & H1 & H2 & H3 & H4 & H5 & H6); [rewrite Ed; constructor|rewrite Ed; by intros ? ?%elem_of_nil|].
  assert (E3 : end_mtr None s1 = Some (tt, s2)) by (unfold end_mtr; rewrite bind_ret, (bind_eq _ _ _ _ _ Ec); done).
  unfold in_mtr. rewrite bind_get. rewrite (bind_eq begin_mtr _ s tt (opened s) eq_refl), (bind_eq _ _ _ _ _ E). rewrite (bind_eq _ _ _ _ _ E3).
  eexists. split; [unfold outer_mtr; rewrite (bind_eq _ _ _ tt _ eq_refl); done|]. split; [|etrans; [|exact H5]; rewrite (lk_free _ _ L); reflexivity].
  assert (Eh : tree_header s2 = tree_header s) by (unfold tree_header; rewrite H3, (lk_client _ _ L); done).
  destruct Hi2 as (Hp & Hpins & Hlk). constructor; cbn; [by split|done|done|change (header_like h (tree_header s2)); by rewrite Eh|].
  apply (tree_has_data h valid s); [|exact Eh|done]. intros q. unfold data_at, pages. cbn. fold (pages s2). rewrite H6, Ed. rewrite decide_False by apply not_elem_of_nil. by rewrite (lk_pages _ _ L).
Qed.

Lemma sized_items top ls : Forall (leaf_sized h top) ls → Forall (λ x : Leaf, x.2 ≠ []) ls.
Proof.
  intros Hs. eapply Forall_impl; [exact Hs|]. intros x [H1 _] E. rewrite E in H1. unfold len in H1. cbn in H1. pose proof (lmax_half h Hix). destruct top; lia.
Qed.
Lemma find_leaf_empty n op key s : m_locks s = ∅ → root_page (tree_header s) = BP_INVALID_PAGE_NUM → ready h [] s →
  ∃ s', find_leaf n op key s = Some ((EMPTY, BP_INVALID_PAGE_NUM), s') ∧ ready h [] s' ∧ looks s s'.
Proof.
  intros Hlk Hroot Hr. destruct (lock_ok h op s Hr) as (s1 & E1 & Hr1 & L1 & _); [by rewrite Hlk|]. exists s1. split; [|done]. unfold find_leaf, find_leaf_internal. run E1. run (is_empty_ok s1). unfold tree_header. rewrite (lk_client _ _ L1).
  change (file_header_ (m_client s)) with (tree_header s). rewrite Hroot. done.
Qed.

Lemma get_entry_ok n user_key key_len s l ht lo hi : tree_ok s l ht → (ht ≤ n)%nat → (length (in_range cmp (Some lo) (Some hi) l) + 3 ≤ n)%nat →
  bound_key h user_key key_len true true rid_min rid_max = Some lo → valid lo → bound_key h user_key key_len true false rid_max rid_min = Some hi → valid hi →
  attr_comparator (attr_type h) (attr_length h) user_key user_key ≤ 0 →
  ∃ s', get_entry n user_key key_len s = Some ((SUCCESS, (λ kv, rid_at kv.2) <$> in_range cmp (Some lo) (Some hi) l), s') ∧ tree_ok s' l ht ∧ (free s ≤ free s')%nat.
Proof.
  intros Ht Hn Hm Hlo Hvlo Hhi Hvhi Hself. pose proof Ht as []. pose proof (opened_ready h s to_idle to_header) as Hr. unfold get_entry.
  assert (Hcross : bounds_cross h (Some user_key) (Some user_key) true true = false) by (cbn; rewrite (proj2 (Z.ltb_ge _ _)) by lia; by rewrite andb_false_r).
  match goal with |- ∃ _, in_mtr _ ?b _ = _ ∧ _ => set (body := b) end.
  assert (E : ∃ s1, body (opened s) = Some ((SUCCESS, (λ kv, rid_at kv.2) <$> in_range cmp (Some lo) (Some hi) l), s1) ∧ ready h [] s1 ∧ looks (opened s) s1).
  { destruct to_has as [(Hroot & _ & -> & _)|(ls & lvls & root & Hta & -> & ->)].
    - destruct (find_leaf_empty n READ lo (opened s) (proj2 (proj2 to_idle)) Hroot Hr) as (s1 & E1 & Hr1 & L1). exists s1. split; [|done]. unfold body.
      assert (E2 : scan_open n new_scanner (Some user_key) key_len true (Some user_key) key_len true (opened s) = Some ((SUCCESS, sc_frame None (mkScanner true None None (-1) false)), s1)); [|run E2; cbn [fst snd]; change (OB_FAIL SUCCESS) with false; cbv iota; destruct n; [cbn in Hm; lia|done]].
      unfold scan_open. cbn [inited_ new_scanner current_frame_ right_key_ iter_index_]. run (file_header_ok (opened s)). destruct (proj2 Hr) as [r Hlike]. rewrite Hlike. cbv zeta iota beta.
      change (attr_comparator (attr_type (with_root r h)) (attr_length (with_root r h))) with (attr_comparator (attr_type h) (attr_length h)). cbn [negb orb]. rewrite (proj2 (Z.ltb_ge _ _)), andb_false_r by lia. cbn [orb].
      assert (E2 : open_left n (Some user_key) key_len true (opened s) = Some (inl SUCCESS, s1)); [|by run E2].
      unfold open_left. run (file_header_ok (opened s)). rewrite Hlike. change (fixed_key (with_root r h)) with (fixed_key h). revert Hlo. unfold bound_key.
      destruct (fixed_key h user_key key_len true true) as [[fk inc]|] eqn:Efix; [|done]. cbn [mbind option_bind fst snd]. destruct (mem_read fk 0 (attr_length h)) as [k|] eqn:Ek; [|done]. cbn [mbind option_bind]. intros [= Elo].
      rewrite (bind_liftO _ _ _ _ (eq_refl (Some (fk, inc)))). cbn [fst snd]. rewrite (bind_eq _ _ _ _ _ (make_bound h (opened s) fk inc k rid_min rid_max Hr Ek)), Elo. run E1. done.
    - assert (Hta' : tree_at h valid (opened s) ls lvls root) by (by apply (tree_data h valid s)).
      destruct (scan_range_ok h Hix valid Hlen ls lvls root (Some hi) (sized_items _ _ (ta_sized _ _ _ _ _ _ Hta)) (opened s) Hr (proj2 (proj2 to_idle)) eq_refl Hta' n ltac:(lia) (Some user_key) key_len true (Some user_key) key_len true (Some lo) n Hcross (conj Hlo Hvlo) (conj Hhi Hvhi) Hm)
        as (sc & s1 & s2 & E1 & E2 & Hr2 & L2).
      exists s2. split; [|done]. unfold body. run E1. cbn [fst snd]. change (OB_FAIL SUCCESS) with false. cbv iota. run E2. done. }
  destruct E as (s1 & E & Hr1 & L1). destruct (read_mtr_ok body _ s s1 l ht Ht E Hr1 L1) as (s' & E' & Ht' & Hid'). by exists s'.
Qed.
End index.
