(* ===== verification/BplusDelete.v ===== *)
(** * BplusDelete: deleting an entry

    [delete_entry] removes an item from its leaf. A leaf that has become too small shares with
    a neighbour or is merged with it; the levels above follow ([BplusShrink]), and the pages
    that are not needed any more go back to the file. For the items, in order, this is the
    removal from a sorted list. *)
From stdpp Require Import sorting.
From S2P Require Import Prelude Types Encoding KeyCompare LatchMemo LatchMemoSpec BplusNode BplusLog BplusNodeSpec BplusOps BplusNodeOps BplusMoves BplusShape BplusTree BplusRoot BplusInsert BplusGrow BplusLeaves BplusFind BplusInsertLeaf BplusMtr BplusGive BplusPair BplusNeighbour BplusShrink BplusEntry BplusIndex.

(** ** Levels of leaves *)

(** two leaves that follow each other *)
Lemma leaf_pair lowA : ∀ ls nx q1 Na q2 Nb lowB, leaf_nodes ls nx = lowA ++ (q1, Na) :: (q2, Nb) :: lowB →
  ∃ lA k1 a k2 b lB, ls = lA ++ ((k1, q1), a) :: ((k2, q2), b) :: lB ∧ lowA = leaf_nodes lA q1 ∧ Na = LeafOf 0 q2 a ∧ Nb = LeafOf 0 (first_page lB nx) b ∧ lowB = leaf_nodes lB nx.
Proof.
  induction lowA as [|x lowA IH]; intros [|[[k1 p1] a] ls] nx q1 Na q2 Nb lowB E; try done.
  - destruct ls as [|[[k2 p2] b] ls]; [done|]. cbn in E. injection E as -> <- -> <- <-. by exists [], k1, a, k2, b, ls.
  - cbn in E. injection E as <- E. destruct (IH _ _ _ _ _ _ _ E) as (lA & k1' & a' & k2 & b & lB & -> & -> & -> & -> & ->). exists (((k1, p1), a) :: lA), k1', a', k2, b, lB. cbn. repeat (split; [done|]). split; [by destruct lA|done].
Qed.
Lemma leaf_nodes_sized h ls nx : Forall (λ x : PageNum * Node, Z.quot (leaf_max_size h) 2 ≤ size_of x.2 ≤ leaf_max_size h) (leaf_nodes ls nx) ↔ Forall (leaf_sized h false) ls.
Proof. revert nx. induction ls as [|x ls IH]; intros nx; [by split|]. cbn [leaf_nodes]. rewrite !Forall_cons, IH. done. Qed.
Lemma leaf_nodes_class ls nx : Forall (λ x : PageNum * Node, class_of x.2 = LeafNode) (leaf_nodes ls nx).
Proof. revert nx. induction ls as [|x ls IH]; intros nx; constructor; [done|apply IH]. Qed.

Section delete.
Context {P : Type} `{TL : TreePoolLaws P}.
Context (h : IndexFileHeader).
Abbreviation St := (Memo P TreeState).
Implicit Types (s : St) (pn q r : PageNum) (N : Node) (lvls : list (list Inner)) (ls : list Leaf).
Abbreviation ready := (ready h).
Abbreviation at_node := (at_node h []).
Abbreviation stored := (stored h).
Abbreviation level_stored := (level_stored h).
Abbreviation levels_stored := (levels_stored h).
Abbreviation imax := (internal_max_size h).
Abbreviation lmax := (leaf_max_size h).
Context (Hix : index_ok h) (valid : list Z → Prop).
Abbreviation cmp := (comparator h).
Context `{KO : !KeyOrder valid cmp} (Hlen : ∀ k, valid k → len k = key_length h) (Hcap : 4 ≤ lmax ∧ 6 ≤ imax).
Abbreviation tree_at := (tree_at h valid).
Abbreviation tree_has := (tree_has h valid).
Abbreviation sorted := (sorted_leaves (valid := valid) (cmp := cmp)).

(** the state that a removal leaves before the pages [D] go back to the file: a tree with the
    items [l'], of height [ht] at most *)
Record leaves D s l' (ht : nat) s' : Prop := {
  lv_drops : ∃ X, drops D X s s';
  lv_pages : NoDup D;
  lv_exist : ∀ r, r ∈ D → is_Some (pages s !! r);
  lv_tree : ∃ ht', (ht' ≤ ht)%nat ∧ ∀ s2, (∀ r, r ∉ D → data_at s2 r = data_at s' r) → tree_header s2 = tree_header s' → tree_has s2 l' ht';
}.
Lemma tree_pages_exist s ls lvls root r : tree_at s ls lvls root → r ∈ ls.*1.*2 ++ level_pages lvls → is_Some (pages s !! r).
Proof.
  intros [] [Hr|Hr]%elem_of_app; [|by apply (levels_stored_exists h _ _ r ta_lvls)]. apply (level_stored_exists h _ _ _ r ta_leaves). by rewrite leaf_nodes_pages.
Qed.
Lemma leaves_tree D X s s' ls lvls root ls' lvls' root' : tree_at s ls lvls root → drops D X s s' → tree_at s' ls' lvls' root' → (ls'.*1.*2 ++ level_pages lvls') ++ D ≡ₚ ls.*1.*2 ++ level_pages lvls →
  (length lvls' ≤ length lvls)%nat → leaves D s (contents ls') (S (length lvls)) s'.
Proof.
  intros Ht Hd Ht' Hp Hl. pose proof (ta_pages _ _ _ _ _ _ Ht) as [Hn1 Hnd]%NoDup_cons. rewrite <-Hp in Hn1, Hnd. apply NoDup_app in Hnd as (_ & Hnd1 & Hnd2). constructor.
  - by exists X.
  - done.
  - intros r Hr. apply (tree_pages_exist s ls lvls root); [done|]. rewrite <-Hp. apply elem_of_app. by right.
  - exists (S (length lvls')). split; [lia|]. intros s2 E Eh. right. exists ls', lvls', root'. split; [|done]. apply (tree_data h valid s'); [|done|done].
    intros r [->|Hr]%elem_of_cons; apply E; [|by apply Hnd1]. intros Hin. apply Hn1, elem_of_app. by right.
Qed.

(** ** A leaf that has lost an item *)

Section at_leaf.
Context (s0 s : St) (A : list Leaf) (k : list Z) (q : PageNum) (l l' : list Item) (B : list Leaf) (lvls : list (list Inner)) (root : PageNum) (n : nat).
Abbreviation ls := (A ++ ((k, q), l) :: B).
Abbreviation ls' := (A ++ ((k, q), l') :: B).
Context (Ht : tree_at s0 ls lvls root) (Hlat : ∀ r : PageNum, latched s (OnFrame r) → r = q ∨ over lvls q r).
Context (p1 : list PageNum) (p : PageNum) (p2 : list PageNum) (Ep : pars lvls = p1 ++ p :: p2) (Lp : length (leaf_nodes A q) = length p1).
Context (C : changes 0 [q] s0 s) (Hat : at_node s q (LeafOf p (first_page B (-1)) l')).
Context (Hs : sorted ls') (Hsz : len l' = len l - 1) (Hlt : len l' < lmax - Z.quot lmax 2).

Lemma leaf_deficient up lvls2 : lvls = up :: lvls2 →
  deficient h valid s [] A.*1 k q B.*1 (leaf_nodes A q) (LeafOf 0 (first_page B (-1)) l') (leaf_nodes B (-1)) up lvls2 root.
Proof.
  intros El. destruct (leaf_kept h valid s0 A k q l B lvls root Ht p1 p p2 Ep Lp s l' C Hat) as (K1 & K2 & K3 & K4). destruct Ht. pose proof (lmax_half h Hix) as Hhf. pose proof (Z.quot_rem' lmax 2) as Hq2. pose proof (Z.rem_bound_pos lmax 2) as Hr2.
  subst lvls. cbn [is_top] in *. destruct (only_leaf h _ _ _ _ _ ta_levels ta_sized) as [HA HB]. rewrite fmap_app in ta_levels. cbn [fmap list_fmap fst] in ta_levels. destruct ta_levels as (Hsame & Hup & Hlv).
  assert (Hl : leaf_sized h false ((k, q), l)) by (rewrite Forall_app, Forall_cons in ta_sized; apply ta_sized). destruct Hl as [Hl1 Hl2]. cbn [snd] in Hl1, Hl2. rewrite leaf_nodes_app in K1. cbn in K1. rewrite !fmap_app in ta_pages. cbn in ta_pages.
  pose proof (below_leaves ls' (-1)) as [B1 B2]. rewrite leaf_nodes_app in B1, B2. cbn [leaf_nodes first_page fst snd] in B1, B2.
  constructor; rewrite ?B1, ?B2; try done; rewrite ?leaf_nodes_pages; try done.
  - apply Hat.
  - by rewrite K4.
  - constructor.
  - apply Forall_app. split; apply leaf_nodes_class.
  - apply Forall_app. split; by apply leaf_nodes_sized.
  - unfold half. cbn [max_of size_of]. lia.
  - apply Hat.
  - apply NoDup_cons in ta_pages as [M1 M2]. apply NoDup_app in M2 as (_ & M2 & _). intros r Hr. rewrite fmap_app. cbn. destruct (Hlat r Hr) as [->|Ho].
    + split; [done|]. split; [intros Hin; exfalso; apply (M2 q); [apply elem_of_app; right; left|done]|]. intros ->. apply M1. apply elem_of_app. left. apply elem_of_app. right. left.
    + pose proof (over_pages _ _ _ Ho) as Hin. split; [intros Hq; exfalso; by apply (M2 r)|]. split; [done|]. intros ->. apply M1, elem_of_app. by right.
  - rewrite fmap_app. cbn. done.
  - pose proof (sorted_seps _ Hs) as Hseps. rewrite fmap_app in Hseps. exact Hseps.
  - destruct l' as [|kv la _] using rev_ind; [change (len (@nil Item)) with 0 in Hsz; lia|]. exists kv.1. cbn [keys_of size_of]. split; [|apply (leaf_covers A (k, q) (la ++ [kv]) B); [done|rewrite fmap_app; apply elem_of_app; right; left]].
    rewrite len_app. change (len [kv]) with 1. replace (len la + 1 - 1) with (len la) by lia. destruct kv as [kl v]. apply rd_middle.
Qed.

(** the tree is in order again, with the same items *)
Definition evened : Prop := ∃ s' ls2 lvls' root' D X, coalesce_or_redistribute n LeafNode q s = Some (SUCCESS, s') ∧ drops D X s s' ∧ tree_at s' ls2 lvls' root' ∧ contents ls2 = contents ls' ∧
  (ls2.*1.*2 ++ level_pages lvls') ++ D ≡ₚ ls.*1.*2 ++ level_pages lvls ∧ (length lvls' ≤ length lvls)%nat.

Section pair.
Context (m : nat) (up : list Inner) (lvls2 : list (list Inner)) (Em : n = S m) (El : lvls = up :: lvls2).
Context (lA : list Leaf) (k1 : list Z) (q1 : PageNum) (a : list Item) (k2 : list Z) (q2 : PageNum) (b : list Item) (lB : list Leaf) (Els : ls' = lA ++ ((k1, q1), a) :: ((k2, q2), b) :: lB).
Context (uA2 : list Inner) (pn2 : PageNum) (c1 : list Kid) (k1p : list Z) (c2 : list Kid) (uB2 : list Inner) (r1 : list PageNum) (pp : PageNum) (r2 : list PageNum) (neighbor : PageNum) (index : Z).
Abbreviation Na := (LeafOf 0 q2 a).
Abbreviation Nb := (LeafOf 0 (first_page lB (-1)) b).
Abbreviation NL := (LeafOf 0 (first_page B (-1)) l').
Context (Hpg : pairing h s up lvls2 lA.*1 k1 q1 k2 q2 lB.*1 (leaf_nodes lA q1) Na Nb (leaf_nodes lB (-1)) uA2 pn2 c1 k1p c2 uB2 r1 pp r2).
Context (Hch : chosen c1 q1 q2 q neighbor index) (Hwho : (q = q1 ∧ NL = Na ∧ A.*1 = lA.*1) ∨ (q = q2 ∧ NL = Nb ∧ A.*1 = lA.*1 ++ [(k1, q1)] ∧ k = k2)).

Lemma leaf_pair_at : deficient h valid s [] A.*1 k q B.*1 (leaf_nodes A q) NL (leaf_nodes B (-1)) up lvls2 root ∧
  A.*1 ++ (k, q) :: B.*1 = lA.*1 ++ (k1, q1) :: (k2, q2) :: lB.*1 ∧ leaf_nodes A q ++ (q, NL) :: leaf_nodes B (-1) = leaf_nodes lA q1 ++ (q1, Na) :: (q2, Nb) :: leaf_nodes lB (-1).
Proof.
  split; [by apply leaf_deficient|]. split.
  - pose proof (f_equal (fmap fst) Els) as E. by rewrite !fmap_app in E.
  - pose proof (f_equal (λ x, leaf_nodes x (-1)) Els) as E. cbn beta in E. by rewrite !leaf_nodes_app in E.
Qed.
Lemma leaf_others : Forall (leaf_sized h false) lA ∧ Forall (leaf_sized h false) lB ∧ 1 ≤ len a.
Proof.
  destruct leaf_pair_at as (Hdf & E1 & E2). pose proof (lmax_half h Hix) as Hhf. pose proof (Z.quot_rem' lmax 2) as Hq2. pose proof (Z.rem_bound_pos lmax 2) as Hr2.
  pose proof (others_sized h valid Hcap s [] _ _ _ _ _ _ _ _ _ _ Hdf _ _ _ _ _ _ _ _ _ _ _ _ _ _ _ _ _ _ _ _ _ Hpg E1 E2 Hch Hwho) as Hz.
  pose proof (pair_facts h valid s [] _ _ _ _ _ _ _ _ _ _ Hdf _ _ _ _ _ _ _ _ _ _ _ _ _ _ _ _ _ _ _ _ _ Hpg E1 E2 Hch Hwho) as (_ & _ & J1 & J2).
  change (half h NL) with (Z.quot lmax 2) in *. cbn [max_of size_of] in *. apply Forall_app in Hz as [HzA HzB]. apply leaf_nodes_sized in HzA. apply leaf_nodes_sized in HzB.
  split; [done|]. split; [done|]. unfold of_frame in *. destruct (decide _); lia.
Qed.
Lemma pair_merged_sorted : sorted (lA ++ ((k1, q1), a ++ b) :: lB).
Proof. apply (sorted_merge lA k1 q1 a k2 q2 b lB). by rewrite <-Els. Qed.
Lemma leaf_pages_same : ls'.*1.*2 = ls.*1.*2.
Proof. by rewrite !fmap_app. Qed.

Lemma leaf_balanced : lmax < len a + len b → evened.
Proof.
  intros Hsum. destruct leaf_pair_at as (Hdf & E1 & E2). destruct leaf_others as (HzA & HzB & Ha).
  destruct (step_balanced h Hix valid Hlen Hcap m s [] _ _ _ _ _ _ _ _ _ _ Hdf _ _ _ _ _ _ _ _ _ _ _ _ _ _ _ _ _ _ _ _ _ Hpg E1 E2 Hch Hwho Hsum) as (s' & Na' & Nb' & k2' & E & Hsp & Hk2 & Hsa & Hsb & Hst).
  inversion Hsp as [? ? ? ? ? ? a' b' Eab|]; subst Na' Nb'. cbn [size_of max_of keys_of] in Hsa, Hsb, Hk2. change (half h NL) with (Z.quot lmax 2) in *.
  destruct b' as [|kv b']; [done|]. injection Hk2 as <-. destruct (lmax_half h Hix) as [Hh1 _]. assert (Ha' : a' ≠ []) by (intros ->; change (len (@nil Item)) with 0 in Hsa; lia).
  destruct (balanced_levels h valid s [] _ _ _ _ _ _ _ _ _ _ Hdf _ _ _ _ _ _ _ _ _ _ _ _ _ _ _ _ _ _ _ _ _ Hpg Hch kv.1 _ _ s' Hst) as [Hlv Hpgs]. destruct (step_header h valid s [] _ _ _ _ _ _ _ _ _ _ Hdf _ _ _ _ _ _ _ _ _ _ _ _ _ _ _ _ _ _ _ Hpg E1 E2 _ _ _ s' Hst) as (_ & Hhp & Eh).
  set (u3 := uA2 ++ (pn2, c1 ++ (k1p, q1) :: [(kv.1, q2)] ++ c2) :: uB2) in *. set (ls2 := lA ++ ((k1, q1), a') :: ((kv.1, q2), kv :: b') :: lB).
  assert (Epg : ls2.*1.*2 = ls.*1.*2) by (rewrite <-leaf_pages_same, Els; unfold ls2; by rewrite !fmap_app). pose proof (df_root _ _ _ _ _ _ _ _ _ _ _ _ _ _ Hdf) as Hroot.
  exists s', ls2, (u3 :: lvls2), root, [], (pn2 :: q1 :: q2 :: (@nil PageNum)). rewrite Em. split; [exact E|]. split; [apply Hst|]. split; [|split; [|split; [by rewrite app_nil_r, Epg, Hpgs, El|by rewrite El]]].
  - constructor.
    + unfold ls2. rewrite fmap_app. exact Hlv.
    + unfold ls2. rewrite leaf_nodes_app. apply Hst.
    + apply Hst.
    + rewrite Epg, Hpgs, <-El. apply Ht.
    + apply sorted_split; [done|]. rewrite <-Eab. apply pair_merged_sorted.
    + unfold ls2. rewrite Forall_app, !Forall_cons. done.
    + by rewrite Eh.
    + done.
  - unfold ls2. rewrite Els, !contents_app, !contents_cons. cbn [snd]. rewrite (app_assoc a), Eab. by rewrite <-app_assoc.
Qed.
Lemma leaf_merged : len a + len b ≤ lmax → (length lvls2 < m)%nat → evened.
Proof.
  intros Hsum Hm. destruct leaf_pair_at as (Hdf & E1 & E2). destruct leaf_others as (HzA & HzB & Ha).
  destruct (step_merged h Hix valid Hlen Hcap m s [] _ _ _ _ _ _ _ _ _ _ Hdf _ _ _ _ _ _ _ _ _ _ _ _ _ _ _ _ _ _ _ _ _ Hpg E1 E2 Hch Hwho Hsum) as (s1 & N & E & Hfu & Hsz1 & Hh1 & Hst).
  inversion Hfu; subst N. cbn [size_of max_of] in Hsz1. change (half h NL) with (Z.quot lmax 2) in *. set (ls2 := lA ++ ((k1, q1), a ++ b) :: lB).
  pose proof (merged_thin h valid Hcap s [] _ _ _ _ _ _ _ _ _ _ Hdf _ _ _ _ _ _ _ _ _ _ _ _ _ _ _ _ _ _ _ _ _ Hpg E1 E2 Hch Hwho _ s1 Hst Hh1) as Ht1. destruct (step_header h valid s [] _ _ _ _ _ _ _ _ _ _ Hdf _ _ _ _ _ _ _ _ _ _ _ _ _ _ _ _ _ _ _ Hpg E1 E2 _ _ _ s1 Hst) as (_ & Hhp & Eh).
  pose proof (up_pages h s q _ _ _ _ _ _ _ _ _ _ _ _ _ _ _ _ _ _ _ _ _ _ _ Hpg Hch []) as Eu. destruct (shrink_ok h Hix valid Hlen Hcap root lvls2 m _ _ _ _ _ _ _ _ Hm Ht1) as (s2 & lvls' & root' & D & E3 & []).
  set (u3 := uA2 ++ (pn2, c1 ++ (k1p, q1) :: [] ++ c2) :: uB2) in *. assert (Epl : level_pages (u3 :: lvls2) = level_pages lvls) by (rewrite El; change (u3.*1 ++ level_pages lvls2 = up.*1 ++ level_pages lvls2); by rewrite Eu). rewrite Epl in sh_pages.
  assert (Esub : ls.*1.*2 ≡ₚ ls2.*1.*2 ++ [q2]) by (rewrite <-leaf_pages_same, Els; unfold ls2; rewrite !fmap_app; cbn; solve_Permutation).
  assert (Hperm : (ls2.*1.*2 ++ level_pages lvls') ++ [q2] ++ D ≡ₚ ls.*1.*2 ++ level_pages lvls) by (rewrite Esub, <-sh_pages; solve_Permutation). pose proof (df_root _ _ _ _ _ _ _ _ _ _ _ _ _ _ Hdf) as Hroot.
  pose proof (ta_pages _ _ _ _ _ _ Ht) as Hnd.
  exists s2, ls2, lvls', root', ([q2] ++ D). eexists. rewrite Em. split; [rewrite <-E3; exact E|]. split; [eapply drops_trans; [apply Hst|exact sh_drops|intros r Hr; apply elem_of_app; left; exact Hr|intros r Hr; apply elem_of_app; right; exact Hr]|]. split; [|split; [|split; [done|rewrite El; done]]].
  - constructor; try done.
    + unfold ls2. by rewrite fmap_app.
    + unfold ls2. by rewrite leaf_nodes_app.
    + rewrite <-Hperm in Hnd. clear - Hnd. apply NoDup_cons in Hnd as [H1 H2]. apply NoDup_app in H2 as [H2 _]. apply NoDup_cons. split; [|done]. intros Hin. apply H1, elem_of_app. by left.
    + apply pair_merged_sorted.
    + destruct (lmax_half h Hix) as [Hh2 _]. assert (Hall : Forall (leaf_sized h false) ls2) by (unfold ls2; rewrite Forall_app, !Forall_cons; done).
      eapply Forall_impl; [exact Hall|]. intros x [J1 J2]. unfold leaf_sized. destruct (is_top lvls'); [lia|done].
    + by rewrite sh_root.
  - unfold ls2. rewrite Els, !contents_app, !contents_cons. cbn [snd]. by rewrite <-!app_assoc.
Qed.
End pair.

Lemma leaf_evened up lvls2 : lvls = up :: lvls2 → (length lvls < n)%nat → evened.
Proof.
  intros El Hn. assert (∃ m, n = S m) as [m Em] by (clear - Hn; destruct n; [lia|eauto]). destruct (leaf_deficient up lvls2 El) as [].
  destruct (pairing_ok h s up lvls2 _ _ _ _ _ _ _ df_same df_lowA df_lowB df_low df_lvls (fits_two h Hcap _ _ df_upsized)) as (A' & k1 & q1 & k2 & q2 & B' & lowA' & Na & Nb & lowB' & uA2 & pn2 & c1 & k1p & c2 & uB2 & r1 & pp & r2 & neighbor & index & Hpg & Ees & Elow & Hch & Hwho).
  assert (Eall : leaf_nodes A q ++ (q, LeafOf 0 (first_page B (-1)) l') :: leaf_nodes B (-1) = leaf_nodes ls' (-1)) by (by rewrite leaf_nodes_app). pose proof Elow as Enn. rewrite Eall in Enn.
  destruct (leaf_pair _ _ _ _ _ _ _ _ Enn) as (lA & k1' & a & k2' & b & lB & Els & -> & -> & -> & ->). pose proof (f_equal (fmap fst) Els) as Ekd. rewrite !fmap_app in Ekd. cbn in Ekd. rewrite Ees in Ekd.
  assert (Hab : A' = lA.*1 ∧ k1 = k1' ∧ k2 = k2' ∧ B' = lB.*1).
  { apply app_inj_1 in Ekd as [<- Ekd]; [by injection Ekd as <- <- <-|]. destruct Hpg. apply (f_equal length) in pg_lowA. rewrite leaf_nodes_pages, !length_fmap in pg_lowA. by rewrite length_fmap. }
  destruct Hab as (-> & -> & -> & ->). destruct (decide (lmax < len a + len b)) as [Hsum|Hsum].
  - by apply (leaf_balanced m up lvls2 Em El lA k1' q1 a k2' q2 b lB Els uA2 pn2 c1 k1p c2 uB2 r1 pp r2 neighbor index Hpg Hch Hwho).
  - apply (leaf_merged m up lvls2 Em El lA k1' q1 a k2' q2 b lB Els uA2 pn2 c1 k1p c2 uB2 r1 pp r2 neighbor index Hpg Hch Hwho); [lia|]. rewrite El in Hn. cbn in Hn. lia.
Qed.
End at_leaf.

(** a leaf without items is the root *)
Lemma empty_root n s q nx : at_node s q (LeafOf (-1) nx []) → header_page s → root_page (tree_header s) = q → ¬ latched s (OnFrame FIRST_INDEX_PAGE) → (0 < n)%nat →
  ∃ s' X, coalesce_or_redistribute n LeafNode q s = Some (SUCCESS, s') ∧ drops [q] X s s' ∧ header_page s' ∧ root_page (tree_header s') = BP_INVALID_PAGE_NUM.
Proof.
  intros Hat Hp Hroot Hl Hn. destruct n as [|n]; [lia|]. destruct (lmax_half h Hix) as [Hh1 Hh2]. cbn [coalesce_or_redistribute]. run (size_ok _ _ _ _ _ Hat). run (min_size_ok _ _ _ _ _ Hat). cbn [size_of max_of]. change (len (@nil Item)) with 0.
  rewrite (proj2 (Z.leb_gt _ _)) by lia. run (parent_ok _ _ _ _ _ Hat). cbn [parent_of]. change (BP_INVALID_PAGE_NUM =? -1) with true. cbv iota. change (1 <? 0) with false. cbv iota. rewrite bind_assoc.
  destruct (update_root_ok h Hix [] s BP_INVALID_PAGE_NUM (proj1 Hat) Hp Hl) as (s1 & E1 & C1 & Eh1 & Hp1); [rewrite Hroot; pose proof (page_int32 _ _ _ (proj1 (proj1 Hat)) (stored_exists _ _ _ _ (proj2 (proj2 Hat)))); unfold in_int32; lia|].
  destruct (dispose_drops q s1) as (s2 & E2 & D2). exists s2, [FIRST_INDEX_PAGE].
  assert (E : adjust_root q s = Some (SUCCESS, s2)) by (unfold adjust_root; run (is_leaf_ok _ _ _ _ _ Hat); run (size_ok _ _ _ _ _ Hat); cbn [size_of]; change (len (@nil Item)) with 0; cbn [andb Z.ltb Z.compare]; rewrite bind_assertM by done; run E1; run E2; done).
  run E. split; [done|]. split; [apply (drops_trans _ [] [q] [FIRST_INDEX_PAGE] [] s s1 s2); [by apply changes_drops|done|done|apply list_subseteq_nil]|].
  destruct D2 as [C2 _]. pose proof (ch_header _ _ _ _ C2 (not_elem_of_nil _)) as Eh2. split; [apply (header_page_changes _ _ _ _ C2 (not_elem_of_nil _) Hp1)|]. unfold tree_header in *. cbn in Eh2. by rewrite Eh2, Eh1.
Qed.
(** the root has no lower bound but one item *)
Lemma leaf_root n s q nx l : at_node s q (LeafOf (-1) nx l) → 1 ≤ len l < lmax - Z.quot lmax 2 → (0 < n)%nat →
  ∃ s', coalesce_or_redistribute n LeafNode q s = Some (SUCCESS, s') ∧ changes 0 [q] s s' ∧ at_node s' q (LeafOf (-1) nx l).
Proof.
  intros Hat Hsz Hn. destruct n as [|n]; [lia|]. cbn [coalesce_or_redistribute]. run (size_ok _ _ _ _ _ Hat). run (min_size_ok _ _ _ _ _ Hat). cbn [size_of max_of].
  rewrite (proj2 (Z.leb_gt _ _)) by lia. run (parent_ok _ _ _ _ _ Hat). cbn [parent_of]. change (BP_INVALID_PAGE_NUM =? -1) with true. cbv iota.
  destruct (decide (1 < len l)) as [H1|H1]; [rewrite (proj2 (Z.ltb_lt _ _) H1)|rewrite (proj2 (Z.ltb_ge _ _)) by lia].
  - exists s. split; [done|]. split; [apply (changes_weaken []); [apply list_subseteq_nil|apply changes_refl]|done].
  - destruct (dirty_ok _ _ _ _ _ Hat) as (s1 & E1 & C1 & A1). exists s1. split; [|done]. rewrite bind_assoc.
    assert (E : adjust_root q s = Some (SUCCESS, s1)) by (unfold adjust_root; run (is_leaf_ok _ _ _ _ _ Hat); run (size_ok _ _ _ _ _ Hat); cbn [size_of]; rewrite (proj2 (Z.ltb_lt 0 _)) by lia; cbn [andb]; run E1; done). by run E.
Qed.

(** ** [delete_entry_internal] *)

Lemma delete_leaf_ok s A k q l B lvls root n key : tree_at s (A ++ ((k, q), l) :: B) lvls root → ready [] s → held s q → (∀ r : PageNum, latched s (OnFrame r) → r = q ∨ over lvls q r) → valid key → covers (cmp := cmp) key A.*1.*1 k B.*1.*1 → (length lvls < n)%nat →
  let ls := A ++ ((k, q), l) :: B in
  if has_key cmp key (contents ls) then ∃ s' D, delete_entry_internal n q key s = Some (SUCCESS, s') ∧ leaves D s (remove_key cmp key (contents ls)) (S (length lvls)) s'
  else delete_entry_internal n q key s = Some (RECORD_NOT_EXIST, s).
Proof.
  intros Ht Hr Hh Hlat Hk Hc Hn ls. destruct (leaf_at h s A k q l B lvls (ta_leaves _ _ _ _ _ _ Ht)) as (p1 & p & p2 & Ep & Lp & Hst). pose proof (ta_sorted _ _ _ _ _ _ Ht) as Hsrt.
  assert (Hat : at_node s q (LeafOf p (first_page B (-1)) l)) by done. destruct (leaf_lookup_ok h valid [] s q p _ l key Hat Hk (sorted_leaf _ _ _ _ Hsrt)) as (i & b & E & Hloc).
  unfold ls. rewrite (covered_has_key A (k, q) l B key Hsrt Hk Hc), (has_key_located _ _ _ _ _ Hloc). unfold delete_entry_internal, leaf_remove_key. rewrite bind_assoc. run E. cbn [fst snd]. destruct b; [|done].
  inversion Hloc as [ks1 kv ks2 El Ha Hkey Hb Ei|]; subst i. apply fmap_app_inv in El as (la & lb' & -> & El & ->). destruct lb' as [|item lb]; [done|]. cbn in El. injection El as -> ->. rewrite len_fmap.
  destruct (sorted_remove A (k, q) la item lb B key Hsrt Hk Hc Ha Hkey) as [Hs' Ec]. rewrite bind_assoc. fold ls in Ec |- *. rewrite <-Ec. set (l' := la ++ lb) in *.
  destruct (leaf_remove_ok h [] s q p _ la item lb Hat) as (s1 & E1 & C1 & A1). run E1. rewrite bind_ret. change (1 =? 0) with false. cbv iota. destruct (dirty_ok _ _ _ _ _ A1) as (s2 & E2 & C2 & A2). run E2.
  assert (C : changes 0 [q] s s2) by (by apply (changes_one 0 [q] s s1)). run (size_ok _ _ _ _ _ A2). run (min_size_ok _ _ _ _ _ A2). cbn [size_of max_of]. fold l'. fold l' in A2.
  assert (Hsz : len l' = len (la ++ item :: lb) - 1) by (unfold l'; rewrite !len_app; unfold len; cbn [length]; lia). set (l := la ++ item :: lb) in *.
  destruct (lmax_half h Hix) as [Hh1 Hh2]. assert (Hl2 : 1 ≤ len l ≤ lmax). { pose proof (ta_sized _ _ _ _ _ _ Ht) as Hz. rewrite Forall_app, Forall_cons in Hz. destruct Hz as (_ & [H1 H2] & _). cbn [snd] in *. destruct (is_top lvls); lia. }
  assert (Hlat2 : ∀ r : PageNum, latched s2 (OnFrame r) → r = q ∨ over lvls q r) by (intros r Hr'; destruct (ch_latched _ _ _ _ C _ Hr') as [?|(r' & ->%list_elem_of_singleton & [= ->])]; [by apply Hlat|by left]).
  assert (Hkeep : ∀ s', changes 0 [q] s s' → at_node s' q (LeafOf p (first_page B (-1)) l') → leaf_sized h (is_top lvls) ((k, q), l') → leaves [] s (contents (A ++ ((k, q), l') :: B)) (S (length lvls)) s').
  { intros s' C' A' Hz. apply (leaves_tree [] [q] s s' ls lvls root _ lvls root Ht (changes_drops _ _ _ C')); [|unfold ls; by rewrite app_nil_r, !fmap_app|lia].
    by apply (leaf_replaced h valid s A k q l B lvls root Ht p1 p p2 Ep Lp). }
  destruct (decide (lmax - Z.quot lmax 2 ≤ len l')) as [Hge|Hlt]; [rewrite (proj2 (Z.leb_le _ _) Hge)|rewrite (proj2 (Z.leb_gt _ _)) by lia].
  - exists s2, []. split; [done|]. apply Hkeep; [done|done|]. unfold leaf_sized. cbn [snd]. destruct (is_top lvls); lia.
  - destruct lvls as [|up lvls2] eqn:Elv.
    + destruct p1 as [|? [|]]; try done. cbn in Ep. injection Ep as <- <-. pose proof (ta_levels _ _ _ _ _ _ Ht) as Hroot. unfold ls in Hroot. rewrite fmap_app in Hroot. cbn in Hroot.
      destruct (decide (len l' = 0)) as [H0|H0].
      * assert (El0 : l' = []) by (clear - H0; clearbody l'; destruct l'; [done|unfold len in H0; cbn in H0; lia]). assert (EAB : A = [] ∧ B = [] ∧ q = root) by (clear - Hroot; destruct A as [|? [|]], B as [|]; try done; by injection Hroot as ->). destruct EAB as (-> & -> & Eq). clear Hroot.
        destruct (leaf_kept h valid s [] k q l [] [] root Ht [] (-1) [] eq_refl eq_refl s2 l' C A2) as (_ & _ & K3 & K4). rewrite El0 in A2. pose proof (ta_pages _ _ _ _ _ _ Ht) as [Hf _]%NoDup_cons. cbn in Hf.
        destruct (empty_root n s2 q _ A2 K3) as (s3 & X & E3 & D3 & Hp3 & Hroot3); [rewrite K4, Eq; apply Ht|intros Hlf; destruct (Hlat2 _ Hlf) as [<-|[]]; apply Hf; left|lia|].
        exists s3, [q]. split; [exact E3|]. rewrite El0. constructor.
        -- exists (q :: X). apply (drops_trans _ [] [q] [q] X s s2 s3); [by apply changes_drops|done| |]; clear; set_solver.
        -- apply NoDup_singleton.
        -- intros r ->%list_elem_of_singleton. by apply (stored_exists _ _ _ _ Hst).
        -- exists 0%nat. split; [lia|]. intros s4 E4 Eh4. left. split; [by rewrite Eh4|]. split; [|done]. apply (header_data s3); [apply E4; clear - Hf; set_solver|done|done].
      * pose proof (len_pos l'). destruct (leaf_root n s2 q _ l' A2) as (s3 & E3 & C3 & A3); [lia|lia|]. exists s3, []. split; [exact E3|]. apply Hkeep; [by apply (changes_one 0 [q] s s2)|done|]. unfold leaf_sized. cbn [snd is_top]. lia.
    + rewrite <-Elv in *. destruct (leaf_evened s s2 A k q l l' B lvls root n Ht Hlat2 p1 p p2 Ep Lp C A2 Hs' Hsz ltac:(lia) up lvls2 Elv Hn) as (s3 & ls2 & lvls' & root' & D & X & E3 & D3 & Ht3 & Ec3 & Hp3 & Hlv3).
      exists s3, D. split; [exact E3|]. rewrite <-Ec3. apply (leaves_tree D (q :: X) s s3 ls lvls root ls2 lvls' root'); try done. apply (drops_trans _ [] D [q] X s s2 s3); [by apply changes_drops|done| |]; clear; set_solver.
Qed.

(** ** [delete_entry] *)

(** the part inside the mini transaction *)
Definition delete_body (n : nat) (key : list Z) : M St RC :=
  let* fl := find_leaf n DELETE key in
  if bool_decide (fl.1 = EMPTY) then ret RECORD_NOT_EXIST
  else if OB_FAIL fl.1 then ret fl.1
  else delete_entry_internal n fl.2 key.
(** the outcome, and the state at the end of the mini transaction *)
Definition deletes s l ht (key : list Z) (rc : RC) s1 : Prop :=
  ready [] s1 ∧ (∀ e, e ∈ entries_ (m_client s1) → in_memory s1 (entry_frame e)) ∧ tp_id (m_pool s1) = tp_id (m_pool s) ∧ free s1 = free s ∧
  NoDup (disposed_pages_ s1) ∧ (∀ r, r ∈ disposed_pages_ s1 → is_Some (pages s1 !! r)) ∧ ∃ ht', (ht' ≤ ht)%nat ∧
  (∀ s2, (∀ r, r ∉ disposed_pages_ s1 → data_at s2 r = data_at s1 r) → tree_header s2 = tree_header s1 → tree_has s2 (if has_key cmp key l then remove_key cmp key l else l) ht') ∧
  if has_key cmp key l then rc = SUCCESS else rc = RECORD_NOT_EXIST ∧ entries_ (m_client s1) = [] ∧ ht' = ht.

(** nothing but latches and pins was taken *)
Lemma deletes_nothing s s1 l ht key : idle s → looks (opened s) s1 → ready [] s1 → tree_has s l ht → has_key cmp key l = false → deletes s l ht key RECORD_NOT_EXIST s1.
Proof.
  intros Hi L Hr Hhas Hno. unfold deletes. rewrite Hno. assert (Ee : entries_ (m_client s1) = []) by (by rewrite (lk_client _ _ L)). assert (Ed : disposed_pages_ s1 = []) by apply (lk_disposed _ _ L).
  split; [done|]. split; [rewrite Ee; by intros ? ?%elem_of_nil|]. split; [apply (lk_id _ _ L)|]. split; [apply (lk_free _ _ L)|]. rewrite Ed. split; [constructor|]. split; [by intros ? ?%elem_of_nil|]. exists ht. split; [done|]. split; [|done].
  intros s2 E Eh. apply (tree_has_data h valid s); [|rewrite Eh; unfold tree_header; by rewrite (lk_client _ _ L)|done]. intros q. rewrite E by apply not_elem_of_nil. unfold data_at. by rewrite (lk_pages _ _ L).
Qed.
Lemma delete_some n s key ls lvls root : idle s → header_like h (tree_header s) → tree_at s ls lvls root → (length lvls < n)%nat → valid key →
  ∃ rc s1, delete_body n key (opened s) = Some (rc, s1) ∧ deletes s (contents ls) (S (length lvls)) key rc s1.
Proof.
  intros Hi Hlike Ht Hn Hk. pose proof (opened_ready h s Hi Hlike) as Hr. pose proof Ht as Ht0. destruct Ht. apply NoDup_cons in ta_pages as [_ Hnd]. unfold delete_body.
  destruct (find_leaf_ok h Hix valid Hlen lvls ls.*1 (leaf_nodes ls (-1)) root (opened s) n ta_levels (leaf_nodes_pages ls _) ta_leaves (levels_data h s (opened s) lvls (λ _ _, eq_refl) ta_lvls) (sorted_seps _ ta_sorted) Hnd (leaf_nodes_leaves _ _) Hn Hr (proj2 (proj2 Hi)) ta_root DELETE key Hk)
    as (s1 & A' & k & q & B' & Els & Hc & E1 & Hr1 & L1 & Hh1 & Hlat1 & _).
  run E1. cbn [fst snd]. change (bool_decide (SUCCESS = EMPTY)) with false. change (OB_FAIL SUCCESS) with false. cbv iota.
  apply fmap_app_inv in Els as (A & ls' & -> & E2 & ->). destruct ls' as [|[kq l] B]; [done|]. cbn in E2. injection E2 as <- ->. set (ls := A ++ ((k, q), l) :: B) in *.
  assert (Ht1 : tree_at s1 ls lvls root).
  { apply (tree_data h valid s); [|unfold tree_header; by rewrite (lk_client _ _ L1)|done]. intros r _. unfold data_at. by rewrite (lk_pages _ _ L1). }
  pose proof (delete_leaf_ok s1 A k q l B lvls root n key Ht1 Hr1 Hh1 Hlat1 Hk Hc Hn) as Hdel. cbn zeta in Hdel. fold ls in Hdel. destruct (has_key cmp key (contents ls)) eqn:Ehas.
  - destruct Hdel as (s2 & D & E2 & [[X HD] H1 H2 (ht' & Hht & H3)]). exists SUCCESS, s2. split; [done|]. unfold deletes. rewrite Ehas. pose proof HD as [C2 Ed]. rewrite (lk_disposed _ _ L1) in Ed. cbn in Ed.
    split; [eapply drops_ready; [exact HD|done]|]. split; [intros e He; destruct (ch_entries _ _ _ _ C2 e He) as [He1|He1]; [rewrite (lk_client _ _ L1) in He1; by apply elem_of_nil in He1|exact He1]|].
    split; [etrans; [apply (ch_id _ _ _ _ C2)|apply (lk_id _ _ L1)]|]. split; [etrans; [symmetry; apply (ch_free _ _ _ _ C2)|apply (lk_free _ _ L1)]|]. rewrite Ed. split; [done|]. split; [intros r Hr'; apply (ch_exists _ _ _ _ C2); by apply H2|]. by exists ht'.
  - exists RECORD_NOT_EXIST, s1. split; [exact Hdel|]. apply deletes_nothing; try done. right. by exists ls, lvls, root.
Qed.

Lemma delete_entry_ok n user_key k rid s l ht :
  tree_ok h valid s l ht → mem_read user_key 0 (attr_length h) = Some k → valid (k ++ rid_bytes rid) → (ht ≤ n)%nat → (0 < n)%nat →
  let key := k ++ rid_bytes rid in
  ∃ rc s', delete_entry n user_key rid s = Some (rc, s') ∧ tp_id (m_pool s') = tp_id (m_pool s) ∧ (free s ≤ free s')%nat ∧
    if has_key cmp key l then rc = SUCCESS ∧ ∃ ht', (ht' ≤ ht)%nat ∧ tree_ok h valid s' (remove_key cmp key l) ht'
    else rc = RECORD_NOT_EXIST ∧ tree_ok h valid s' l ht.
Proof.
  intros Ht Hkey Hv Hn Hn0 key. pose proof Ht as Ht0. destruct Ht.
  assert (E : ∃ rc s1, delete_body n key (opened s) = Some (rc, s1) ∧ deletes s l ht key rc s1).
  { destruct to_has as [(H1 & H2 & -> & ->)|(ls & lvls & root & H1 & -> & ->)]; [|apply (delete_some n s key ls lvls root); try done; lia].
    destruct (find_leaf_empty h n DELETE key (opened s)) as (s1 & E1 & Hr1 & L1); [apply to_idle|done|by apply opened_ready|]. exists RECORD_NOT_EXIST, s1. split; [unfold delete_body; run E1; done|]. apply deletes_nothing; try done. by left. }
  destruct E as (rc & s1 & E & Hr1 & Hes1 & Hid1 & Hf1 & Hnd & Hex & ht' & Hht & Hhas & Hrc). unfold delete_entry, make_key. rewrite bind_assoc. run (file_header_ok s). rewrite bind_assoc.
  destruct to_header as [r0 Eh]. rewrite Eh. change (attr_length (with_root r0 h)) with (attr_length h). rewrite (bind_liftO _ _ _ _ Hkey), bind_ret. fold key.
  destruct (in_mtr_gone h valid (delete_body n key) s rc s1 l ht (if has_key cmp key l then remove_key cmp key l else l) ht' Ht0 E (proj1 Hr1) (proj2 Hr1) Hes1) as (s' & E' & Ht' & Hf' & Hid'); [destruct (has_key cmp key l); [by left|right; apply Hrc]|done|done|exact Hhas|].
  exists rc, s'. split; [exact E'|]. split; [congruence|]. split; [lia|]. destruct (has_key cmp key l); [split; [done|by exists ht']|]. destruct Hrc as (-> & _ & ->). done.
Qed.
End delete.
