(* ===== verification/BplusTheorems.v ===== *)
(** * BplusTheorems: the operations of an index refine those of a sorted list

    The theorems hold for every pool with the laws of [TreePoolLaws], for every index whose keys are
    totally ordered and whose nodes fit into a page. The witnesses run on the pool of TreePoolMem
    with nodes of four and six items. *)
From S2P Require Import Prelude Types Encoding KeyCompare LatchMemo LatchMemoSpec TreePoolMem BplusNode BplusLog BplusNodeSpec BplusOps BplusNodeOps BplusTree BplusRoot BplusLeaves BplusEntry BplusScanner BplusScan BplusIndex BplusDelete.

(** ** A small index, for the witnesses *)

Definition demo_header : IndexFileHeader := mkIndexFileHeader BP_INVALID_PAGE_NUM 6 4 4 12 INTS.
Definition demo_pool : MemPool := mkMemPool {[1 := mkTPage 0 (enc_index_header demo_header ++ replicate 88 0)]} ∅ 2 100 7 [].
Definition demo_index : Memo MemPool TreeState := mkMemo demo_pool ∅ [] [] (mkTreeState true demo_header false [] false).
Definition demo_key (z slot : Z) : list Z := enc32 z ++ rid_bytes (mkRID 1 slot).
Definition demo_item (z slot : Z) : Item := (demo_key z slot, rid_bytes (mkRID 1 slot)).

Lemma demo_ok : index_ok demo_header.
Proof. by constructor; vm_compute. Qed.
Lemma demo_cap : 4 ≤ leaf_max_size demo_header ∧ 6 ≤ internal_max_size demo_header.
Proof. by vm_compute. Qed.
Lemma demo_len k : valid_key 4 k → len k = key_length demo_header.
Proof. by intros []. Qed.
Lemma demo_empty : tree_ok demo_header (valid_key 4) demo_index [] 0.
Proof.
  constructor; [|done|done|by exists (-1)|].
  - split; [|done]. constructor; cbn; [|by intros ? ? ?%lookup_empty_Some|done|lia].
    by apply map_Forall_singleton.
  - left. split; [done|]. split; [|done]. by eexists _, _.
Qed.

(** ** Runs of operations *)

(** what the executor asks of an index of integers *)
Inductive IndexOp :=
| OpInsert (user_key : list Z) (rid : RID)
| OpDelete (user_key : list Z) (rid : RID)
| OpGet (user_key : list Z).
Definition op_ok (op : IndexOp) : Prop :=
  match op with
  | OpInsert k r | OpDelete k r => len k = 4 ∧ Forall (λ b, 0 ≤ b < 256) k ∧ rid_ok r
  | OpGet k => len k = 4 ∧ Forall (λ b, 0 ≤ b < 256) k
  end.
(** on the index, and on a sorted list *)
Definition index_op {P : Type} `{TP : TreePool P} (n : nat) (op : IndexOp) : M (Memo P TreeState) (RC * list RID) :=
  match op with
  | OpInsert k r => let* rc := insert_entry n (Some k) (Some r) in ret (rc, [])
  | OpDelete k r => let* rc := delete_entry n k r in ret (rc, [])
  | OpGet k => get_entry n k 4
  end.
Definition list_op (cmp : list Z → list Z → Z) (op : IndexOp) (l : list Item) : (RC * list RID) * list Item :=
  match op with
  | OpInsert k r =>
      let key := k ++ rid_bytes r in
      if has_key cmp key l then ((RECORD_DUPLICATE_KEY, []), l) else ((SUCCESS, []), insert_sorted cmp (key, rid_bytes r) l)
  | OpDelete k r =>
      let key := k ++ rid_bytes r in
      if has_key cmp key l then ((SUCCESS, []), remove_key cmp key l) else ((RECORD_NOT_EXIST, []), l)
  | OpGet k => ((SUCCESS, (λ kv, rid_at kv.2) <$> filter (λ kv : Item, dec32 (take 4 kv.1) = dec32 k) l), l)
  end.
Fixpoint index_ops {P : Type} `{TP : TreePool P} (n : nat) (ops : list IndexOp) : M (Memo P TreeState) (list (RC * list RID)) :=
  match ops with
  | [] => ret []
  | op :: ops => let* a := index_op n op in let* l := index_ops n ops in ret (a :: l)
  end.
Fixpoint list_ops (cmp : list Z → list Z → Z) (ops : list IndexOp) (l : list Item) : list (RC * list RID) * list Item :=
  match ops with
  | [] => ([], l)
  | op :: ops => let '(a, l1) := list_op cmp op l in let '(rest, l2) := list_ops cmp ops l1 in (a :: rest, l2)
  end.

Section theorems.
Context {P : Type} `{TL : TreePoolLaws P}.
Abbreviation St := (Memo P TreeState).
Implicit Types (s : St) (l : list Item).

(** ** What is in an index *)

Lemma tree_ok_sorted h valid s l ht : tree_ok h valid s l ht → ascending valid (comparator h) l.*1.
Proof.
  intros []. destruct to_has as [(_ & _ & -> & _)|(ls & lvls & root & [] & -> & _)]; [split; constructor|by apply sorted_keys].
Qed.
Lemma tree_ok_valid h valid s l ht kv : tree_ok h valid s l ht → kv ∈ l → valid kv.1.
Proof. intros [Hv _]%tree_ok_sorted Hin. apply (proj1 (Forall_forall _ _) Hv), list_elem_of_fmap_2; done. Qed.

(** *** Integer keys *)

Lemma rid_le_max r : rid_ok r → rid_compare r rid_max ≤ 0 ∧ 0 ≤ rid_compare r rid_min.
Proof.
  destruct r as [p sl]. intros Hr. pose proof (rid_compare_lex _ rid_max Hr ltac:(by vm_compute)) as H1. pose proof (rid_compare_lex _ rid_min Hr ltac:(by vm_compute)) as H2. destruct Hr as [Hp Hsl]. cbn [page_num slot_num rid_max rid_min lex] in *.
  destruct (p =? 2 ^ 31 - 1) eqn:E1, (sl =? 2 ^ 31 - 1) eqn:E2, (p =? 0) eqn:E3, (sl =? 0) eqn:E4; zbool; lia.
Qed.
Lemma int_bounds k x : len k = 4 → valid_key 4 x →
  let cmp := key_comparator INTS 4 in
  (before cmp (Some (k ++ rid_bytes rid_min)) x = false ∧ past cmp (Some (k ++ rid_bytes rid_max)) x = false) ↔ dec32 (take 4 x) = dec32 k.
Proof.
  intros Hk (_ & _ & Hr) cmp. destruct (rid_le_max _ Hr) as [H1 H2]. assert (Lk : length k = 4%nat) by (unfold len in Hk; lia).
  assert (Ec : ∀ r, rid_ok r → cmp x (k ++ rid_bytes r) = if compare_int (dec32 (take 4 x)) (dec32 k) =? 0 then rid_compare (key_rid 4 x) r else compare_int (dec32 (take 4 x)) (dec32 k)).
  { intros r Hro. unfold cmp, key_comparator, attr_comparator. cbn [type_compare set_data int_compare]. fold (key_rid 4 x). change (Z.to_nat 4) with 4%nat.
    rewrite take_app_length', drop_app_length' by done. rewrite rid_at_bytes by done. by destruct (_ =? 0). }
  unfold before, past. rewrite !Ec by (by vm_compute). unfold compare_int.
  destruct (dec32 k <? dec32 (take 4 x)) eqn:E1; [|destruct (dec32 (take 4 x) <? dec32 k) eqn:E2]; cbn [Z.eqb]; zbool; split; intros; try lia; zbool; lia.
Qed.
Lemma int_filter k l : len k = 4 → Forall (valid_key 4) l.*1 →
  in_range (key_comparator INTS 4) (Some (k ++ rid_bytes rid_min)) (Some (k ++ rid_bytes rid_max)) l = filter (λ kv, dec32 (take 4 kv.1) = dec32 k) l.
Proof.
  intros Hk Hl. unfold in_range. induction l as [|kv l IH]; [done|]. inversion_clear Hl as [|? ? Hv Hl']. rewrite !filter_cons, (IH Hl').
  pose proof (int_bounds k kv.1 Hk Hv) as E. cbn zeta in E. destruct (decide (dec32 (take 4 kv.1) = dec32 k)) as [Ed|Ed]; [by rewrite decide_True by tauto|by rewrite decide_False by tauto].
Qed.

Lemma get_int_ok h n user_key s l ht :
  index_ok h → attr_type h = INTS → attr_length h = 4 → key_length h = 12 → tree_ok h (valid_key 4) s l ht →
  len user_key = 4 → Forall (λ b, 0 ≤ b < 256) user_key → (ht ≤ n)%nat → (length l + 3 ≤ n)%nat →
  let found := filter (λ kv : Item, dec32 (take 4 kv.1) = dec32 user_key) l in
  ∃ s', get_entry n user_key 4 s = Some ((SUCCESS, (λ kv, rid_at kv.2) <$> found), s') ∧ tree_ok h (valid_key 4) s' l ht ∧ (free s ≤ free s')%nat.
Proof.
  intros Hix Et El Ek Ht Hlu Hb Hn Hm found. assert (Ec : comparator h = key_comparator INTS 4) by (unfold comparator; by rewrite Et, El).
  pose proof (int_key_order : KeyOrder (valid_key 4) (key_comparator INTS 4)) as KO. rewrite <-Ec in KO. assert (Hlen : ∀ k, valid_key 4 k → len k = key_length h) by (intros k []; lia).
  assert (Ef : found = in_range (comparator h) (Some (user_key ++ rid_bytes rid_min)) (Some (user_key ++ rid_bytes rid_max)) l).
  { rewrite Ec, int_filter; [done|done|]. by apply (tree_ok_sorted h _ s l ht). }
  assert (Hbound : ∀ w r1 r2, bound_key h user_key 4 true w r1 r2 = Some (user_key ++ rid_bytes r1)).
  { intros w r1 r2. unfold bound_key, fixed_key. rewrite Et. cbn [bool_decide decide_rel]. change (bool_decide (INTS = CHARS)) with false. cbn [mbind option_bind fst snd]. rewrite El, <-Hlu, mem_read_all. done. }
  assert (Hvb : ∀ r, r = rid_min ∨ r = rid_max → valid_key 4 (user_key ++ rid_bytes r)).
  { intros r Hr. assert (rid_ok r ∧ Forall (λ b, 0 ≤ b < 256) (rid_bytes r)) as [Hok Hbs] by (destruct Hr as [->| ->]; (split; [by vm_compute|by apply (bool_decide_unpack _); vm_compute])).
    split; [unfold rid_bytes; rewrite !len_app, !len_enc32; lia|]. split; [by apply Forall_app|]. unfold key_rid. change (Z.to_nat 4) with 4%nat. rewrite drop_app_length' by (unfold len in Hlu; lia). by rewrite rid_at_bytes. }
  assert (Hlf : (length found ≤ length l)%nat) by apply length_filter.
  destruct (get_entry_ok h Hix (valid_key 4) Hlen n user_key 4 s l ht _ _ Ht Hn ltac:(rewrite <-Ef; lia) (Hbound true rid_min rid_max) (Hvb _ (or_introl eq_refl)) (Hbound false rid_max rid_min) (Hvb _ (or_intror eq_refl))) as (s' & E & Ht' & Hf').
  - rewrite Et. cbn. unfold compare_int. by rewrite Z.ltb_irrefl.
  - exists s'. rewrite Ef. done.
Qed.

(** *** One operation of a run *)

Lemma insert_sorted_length cmp kv l : length (insert_sorted cmp kv l) = S (length l).
Proof. induction l as [|kw l IH]; [done|]. cbn. destruct (_ <? 0); cbn; [by rewrite IH|done]. Qed.
Lemma remove_key_length cmp key l : (length (remove_key cmp key l) ≤ length l)%nat.
Proof. induction l as [|kw l IH]; [done|]. cbn. destruct (_ =? 0); cbn; lia. Qed.
Lemma int_key_valid k r : len k = 4 → Forall (λ b, 0 ≤ b < 256) k → rid_ok r → valid_key 4 (k ++ rid_bytes r).
Proof.
  intros Hk Hb Hr. split; [unfold rid_bytes; rewrite !len_app, !len_enc32; lia|]. split; [apply Forall_app; split; [done|]; unfold rid_bytes; apply Forall_app; split; apply le_bytes_range|].
  unfold key_rid. change (Z.to_nat 4) with 4%nat. rewrite drop_app_length' by (unfold len in Hk; lia). by rewrite rid_at_bytes.
Qed.
Lemma index_op_ok h n op s l ht : index_ok h → 4 ≤ leaf_max_size h ∧ 6 ≤ internal_max_size h → attr_type h = INTS → attr_length h = 4 → key_length h = 12 →
  tree_ok h (valid_key 4) s l ht → op_ok op → (S ht ≤ free s)%nat → (ht < n)%nat → (length l + 3 ≤ n)%nat →
  ∃ s' ht', index_op n op s = Some ((list_op (comparator h) op l).1, s') ∧ tree_ok h (valid_key 4) s' (list_op (comparator h) op l).2 ht' ∧ (ht' ≤ S ht)%nat ∧ (free s ≤ free s' + S ht)%nat ∧ (length (list_op (comparator h) op l).2 ≤ S (length l))%nat.
Proof.
  intros Hix Hcap Et El Ek Ht Hop Hf Hn Hm. pose proof (int_key_order : KeyOrder (valid_key 4) (key_comparator INTS 4)) as KO.
  assert (Ec : key_comparator INTS 4 = comparator h) by (unfold comparator; by rewrite Et, El). rewrite Ec in KO. assert (Hlen : ∀ k, valid_key 4 k → len k = key_length h) by (intros k []; lia).
  assert (Hread : ∀ k : list Z, len k = 4 → mem_read k 0 (attr_length h) = Some k) by (intros k Hk; rewrite El, <-Hk; apply mem_read_all).
  destruct op as [k r|k r|k]; cbn [op_ok index_op list_op] in *.
  - destruct Hop as (Hk & Hb & Hr). destruct (insert_entry_ok h Hix (valid_key 4) Hlen n k k r s l ht Ht (Hread k Hk) (int_key_valid k r Hk Hb Hr) Hf ltac:(lia)) as (rc & s' & E & _ & H'). run E. cbn [fst] in H'. destruct (has_key (comparator h) (k ++ rid_bytes r) l).
    + destruct H' as (-> & Ht' & Hf'). exists s', ht. cbn [fst snd]. split; [done|]. split; [done|]. lia.
    + destruct H' as (-> & Hf' & ht' & Hht & Ht'). exists s', ht'. cbn [fst snd]. split; [done|]. split; [done|]. rewrite insert_sorted_length. lia.
  - destruct Hop as (Hk & Hb & Hr). destruct (delete_entry_ok h Hix (valid_key 4) Hlen Hcap n k k r s l ht Ht (Hread k Hk) (int_key_valid k r Hk Hb Hr) ltac:(lia) ltac:(lia)) as (rc & s' & E & _ & Hf' & H'). run E. destruct (has_key (comparator h) (k ++ rid_bytes r) l).
    + destruct H' as (-> & ht' & Hht & Ht'). exists s', ht'. cbn [fst snd]. split; [done|]. split; [done|]. pose proof (remove_key_length (comparator h) (k ++ rid_bytes r) l). lia.
    + destruct H' as (-> & Ht'). exists s', ht. cbn [fst snd]. split; [done|]. split; [done|]. lia.
  - destruct Hop as (Hk & Hb). destruct (get_int_ok h n k s l ht Hix Et El Ek Ht Hk Hb ltac:(lia) Hm) as (s' & E & Ht' & Hf'). exists s', ht. cbn [fst snd]. split; [exact E|]. split; [done|]. lia.
Qed.
Lemma index_ops_ok h n : index_ok h → 4 ≤ leaf_max_size h ∧ 6 ≤ internal_max_size h → attr_type h = INTS → attr_length h = 4 → key_length h = 12 → ∀ ops s l ht,
  tree_ok h (valid_key 4) s l ht → Forall op_ok ops → (length ops * (ht + length ops) ≤ free s)%nat → (ht + length ops ≤ n)%nat → (length l + length ops + 3 ≤ n)%nat →
  ∃ s' ht', index_ops n ops s = Some ((list_ops (comparator h) ops l).1, s') ∧ tree_ok h (valid_key 4) s' (list_ops (comparator h) ops l).2 ht'.
Proof.
  intros Hix Hcap Et El Ek ops. induction ops as [|op ops IH]; intros s l ht Ht Hops Hf Hn Hm; [by exists s, ht|]. apply Forall_cons in Hops as [Hop Hops]. cbn [length] in *.
  destruct (index_op_ok h n op s l ht Hix Hcap Et El Ek Ht Hop) as (s1 & ht1 & E1 & Ht1 & Hh1 & Hf1 & Hl1); [nia|lia|lia|]. cbn [index_ops list_ops]. run E1. destruct (list_op (comparator h) op l) as [a l1]. cbn [fst snd] in *.
  destruct (IH s1 l1 ht1 Ht1 Hops) as (s2 & ht2 & E2 & Ht2); [nia|lia|lia|]. run E2. destruct (list_ops (comparator h) ops l1) as [rest l2]. by exists s2, ht2.
Qed.
End theorems.

(** ** Insertion *)

(** [C8] [insert_entry] is the insertion into a sorted list: on an index at rest that holds the
    sorted items [l], it finds the key there and changes nothing, or it answers
    SUCCESS and the index holds [l] with the new item at its place. Leaves and inner nodes
    are split on the way, and the tree has at most one more level. It always returns: the fuel
    need only cover the levels, the pool one free page for each of them and one for a new root. *)
Theorem insert_entry_refines {P : Type} `{TL : TreePoolLaws P} (h : IndexFileHeader) (valid : list Z → Prop) `{KO : !KeyOrder valid (comparator h)} n user_key k rid (s : Memo P TreeState) l ht :
  index_ok h → (∀ k, valid k → len k = key_length h) → tree_ok h valid s l ht →
  mem_read user_key 0 (attr_length h) = Some k → valid (k ++ rid_bytes rid) → (S ht ≤ free s)%nat → (ht ≤ n)%nat →
  let kv := (k ++ rid_bytes rid, rid_bytes rid) in
  ∃ rc s', insert_entry n (Some user_key) (Some rid) s = Some (rc, s') ∧
    if has_key (comparator h) kv.1 l then rc = RECORD_DUPLICATE_KEY ∧ tree_ok h valid s' l ht ∧ (free s ≤ free s')%nat
    else rc = SUCCESS ∧ (free s ≤ free s' + S ht)%nat ∧ ∃ ht', (ht' ≤ S ht)%nat ∧ tree_ok h valid s' (insert_sorted (comparator h) kv l) ht'.
Proof.
  intros Hix Hlen Ht Hk Hv Hf Hn kv. destruct (insert_entry_ok h Hix valid Hlen n user_key k rid s l ht Ht Hk Hv Hf Hn) as (rc & s' & E & _ & H'). by exists rc, s'.
Qed.

(** inserting 5, 3 and 5 once more *)
Lemma insert_entry_refines_witness : ∃ s1 s2 s3 ht,
  insert_entry 9 (Some (enc32 5)) (Some (mkRID 1 0)) demo_index = Some (SUCCESS, s1) ∧
  insert_entry 9 (Some (enc32 3)) (Some (mkRID 1 1)) s1 = Some (SUCCESS, s2) ∧
  insert_entry 9 (Some (enc32 5)) (Some (mkRID 1 0)) s2 = Some (RECORD_DUPLICATE_KEY, s3) ∧
  tree_ok demo_header (valid_key 4) s3 [demo_item 3 1; demo_item 5 0] ht.
Proof.
  pose (KO := int_key_order : KeyOrder (valid_key 4) (comparator demo_header)).
  assert (Hv : ∀ z sl, (z, sl) ∈ [(5, 0); (3, 1)] → valid_key 4 (demo_key z sl)).
  { intros z sl [[= -> ->]|[[= -> ->]|[]%elem_of_nil]%elem_of_cons]%elem_of_cons; (split; [done|]; split; [by apply (bool_decide_unpack _); vm_compute|by vm_compute]). }
  destruct (insert_entry_refines demo_header (valid_key 4) 9 (enc32 5) (enc32 5) (mkRID 1 0) demo_index [] 0 demo_ok demo_len demo_empty) as (rc1 & s1 & E1 & -> & F1 & h1 & L1 & T1); [done|by apply Hv; left|cbn; lia|lia|].
  change (free demo_index) with 100%nat in F1.
  destruct (insert_entry_refines demo_header (valid_key 4) 9 (enc32 3) (enc32 3) (mkRID 1 1) s1 [demo_item 5 0] h1 demo_ok demo_len T1) as (rc2 & s2 & E2 & -> & F2 & h2 & L2 & T2); [done|by apply Hv; right; left|lia|lia|].
  destruct (insert_entry_refines demo_header (valid_key 4) 9 (enc32 5) (enc32 5) (mkRID 1 0) s2 [demo_item 3 1; demo_item 5 0] h2 demo_ok demo_len T2) as (rc3 & s3 & E3 & -> & T3 & _); [done|by apply Hv; left|lia|lia|].
  exists s1, s2, s3, h2. exact (conj E1 (conj E2 (conj E3 T3))).
Defined.

(** ** Lookup *)

(** [C10] [get_entry] on an index of integers answers SUCCESS with the record ids of exactly the
    items whose attribute is equal to the key of the user, in the order of the index. It leaves
    the contents of the index as they were and holds no page afterwards. *)
Theorem get_entry_equal {P : Type} `{TL : TreePoolLaws P} (h : IndexFileHeader) n user_key (s : Memo P TreeState) l ht :
  index_ok h → attr_type h = INTS → attr_length h = 4 → key_length h = 12 → tree_ok h (valid_key 4) s l ht →
  len user_key = 4 → Forall (λ b, 0 ≤ b < 256) user_key → (ht ≤ n)%nat → (length l + 3 ≤ n)%nat →
  let found := filter (λ kv : Item, dec32 (take 4 kv.1) = dec32 user_key) l in
  ∃ s', get_entry n user_key 4 s = Some ((SUCCESS, (λ kv, rid_at kv.2) <$> found), s') ∧ tree_ok h (valid_key 4) s' l ht.
Proof.
  intros Hix Et El Ek Ht Hlu Hb Hn Hm found. destruct (get_int_ok h n user_key s l ht Hix Et El Ek Ht Hlu Hb Hn Hm) as (s' & E & Ht' & _). by exists s'.
Qed.

(** the key 5 in an index that holds it *)
Lemma get_entry_equal_witness : ∃ s1 s2 s3,
  insert_entry 9 (Some (enc32 5)) (Some (mkRID 1 0)) demo_index = Some (SUCCESS, s1) ∧
  get_entry 9 (enc32 5) 4 s1 = Some ((SUCCESS, [mkRID 1 0]), s2) ∧ get_entry 9 (enc32 4) 4 s2 = Some ((SUCCESS, []), s3).
Proof.
  pose (KO := int_key_order : KeyOrder (valid_key 4) (comparator demo_header)).
  assert (Hv : valid_key 4 (demo_key 5 0)) by (split; [done|]; split; [by apply (bool_decide_unpack _); vm_compute|by vm_compute]).
  destruct (insert_entry_ok demo_header demo_ok (valid_key 4) demo_len 9 (enc32 5) (enc32 5) (mkRID 1 0) demo_index [] 0 demo_empty) as (rc1 & s1 & E1 & _ & -> & F1 & h1 & L1 & T1); [done|done|cbn; lia|lia|].
  change (insert_sorted _ _ _) with [demo_item 5 0] in T1.
  destruct (get_entry_equal demo_header 9 (enc32 5) s1 [demo_item 5 0] h1 demo_ok eq_refl eq_refl eq_refl T1) as (s2 & E2 & T2); [done|by apply (bool_decide_unpack _); vm_compute|lia|cbn; lia|].
  destruct (get_entry_equal demo_header 9 (enc32 4) s2 [demo_item 5 0] h1 demo_ok eq_refl eq_refl eq_refl T2) as (s3 & E3 & T3); [done|by apply (bool_decide_unpack _); vm_compute|lia|cbn; lia|].
  exists s1, s2, s3. exact (conj E1 (conj E2 E3)).
Defined.

(** ** Deletion *)

(** [C9] [delete_entry] is the removal from a sorted list: on an index at rest that holds the
    sorted items [l], it answers RECORD_NOT_EXIST and changes nothing if the key is
    not there, and otherwise it answers SUCCESS and the index holds [l] without that item. A
    node that has become too small takes an item from a neighbour or is merged with it, up to the
    root, which may give its place to its last child; the pages that are not needed any more go
    back to the pool. It always returns: the fuel need only cover the levels. *)
Theorem delete_entry_refines {P : Type} `{TL : TreePoolLaws P} (h : IndexFileHeader) (valid : list Z → Prop) `{KO : !KeyOrder valid (comparator h)} n user_key k rid (s : Memo P TreeState) l ht :
  index_ok h → 4 ≤ leaf_max_size h ∧ 6 ≤ internal_max_size h → (∀ k, valid k → len k = key_length h) → tree_ok h valid s l ht →
  mem_read user_key 0 (attr_length h) = Some k → valid (k ++ rid_bytes rid) → (ht ≤ n)%nat → (0 < n)%nat →
  let key := k ++ rid_bytes rid in
  ∃ rc s', delete_entry n user_key rid s = Some (rc, s') ∧ (free s ≤ free s')%nat ∧
    if has_key (comparator h) key l then rc = SUCCESS ∧ ∃ ht', (ht' ≤ ht)%nat ∧ tree_ok h valid s' (remove_key (comparator h) key l) ht'
    else rc = RECORD_NOT_EXIST ∧ tree_ok h valid s' l ht.
Proof.
  intros Hix Hcap Hlen Ht Hk Hv Hn Hn0 key. destruct (delete_entry_ok h Hix valid Hlen Hcap n user_key k rid s l ht Ht Hk Hv Hn Hn0) as (rc & s' & E & _ & H'). by exists rc, s'.
Qed.

(** inserting 5, deleting 3 in vain, deleting 5 *)
Lemma delete_entry_refines_witness : ∃ s1 s2 s3,
  insert_entry 9 (Some (enc32 5)) (Some (mkRID 1 0)) demo_index = Some (SUCCESS, s1) ∧
  delete_entry 9 (enc32 3) (mkRID 1 1) s1 = Some (RECORD_NOT_EXIST, s2) ∧
  delete_entry 9 (enc32 5) (mkRID 1 0) s2 = Some (SUCCESS, s3) ∧
  ∃ ht, tree_ok demo_header (valid_key 4) s3 [] ht.
Proof.
  pose (KO := int_key_order : KeyOrder (valid_key 4) (comparator demo_header)).
  assert (Hv : ∀ z sl, (z, sl) ∈ [(5, 0); (3, 1)] → valid_key 4 (demo_key z sl)).
  { intros z sl [[= -> ->]|[[= -> ->]|[]%elem_of_nil]%elem_of_cons]%elem_of_cons; (split; [done|]; split; [by apply (bool_decide_unpack _); vm_compute|by vm_compute]). }
  destruct (insert_entry_ok demo_header demo_ok (valid_key 4) demo_len 9 (enc32 5) (enc32 5) (mkRID 1 0) demo_index [] 0 demo_empty) as (rc1 & s1 & E1 & _ & -> & F1 & h1 & L1 & T1); [done|by apply Hv; left|cbn; lia|lia|].
  destruct (delete_entry_refines demo_header (valid_key 4) 9 (enc32 3) (enc32 3) (mkRID 1 1) s1 [demo_item 5 0] h1 demo_ok demo_cap demo_len T1) as (rc2 & s2 & E2 & _ & -> & T2); [done|by apply Hv; right; left|lia|lia|].
  destruct (delete_entry_refines demo_header (valid_key 4) 9 (enc32 5) (enc32 5) (mkRID 1 0) s2 [demo_item 5 0] h1 demo_ok demo_cap demo_len T2) as (rc3 & s3 & E3 & _ & -> & h3 & L3 & T3); [done|by apply Hv; left|lia|lia|].
  change (remove_key _ _ _) with (@nil Item) in T3. exists s1, s2, s3. exact (conj E1 (conj E2 (conj E3 (ex_intro _ h3 T3)))).
Defined.

(** ** Runs *)

(** [C2] Any run of insertions, deletions and lookups on an index of integers gives the answers that
    the same run gives on a sorted list, and leaves an index that holds that list. The
    pool needs free pages for the levels that the run may add, and the fuel covers the levels and
    the items. *)
Theorem index_runs_refine {P : Type} `{TL : TreePoolLaws P} (h : IndexFileHeader) n ops (s : Memo P TreeState) l ht :
  index_ok h → 4 ≤ leaf_max_size h ∧ 6 ≤ internal_max_size h → attr_type h = INTS → attr_length h = 4 → key_length h = 12 →
  tree_ok h (valid_key 4) s l ht → Forall op_ok ops → (length ops * (ht + length ops) ≤ free s)%nat → (ht + length ops ≤ n)%nat → (length l + length ops + 3 ≤ n)%nat →
  ∃ s' ht', index_ops n ops s = Some ((list_ops (comparator h) ops l).1, s') ∧ tree_ok h (valid_key 4) s' (list_ops (comparator h) ops l).2 ht'.
Proof. intros Hix Hcap Et El Ek. by apply index_ops_ok. Qed.

(** five items, which take two leaves, of which two are deleted, so that the leaves are merged *)
Definition demo_run : list IndexOp :=
  ((λ z, OpInsert (enc32 z) (mkRID 1 z)) <$> [1; 4; 2; 5; 3; 4]) ++
  [OpDelete (enc32 2) (mkRID 1 2); OpDelete (enc32 2) (mkRID 1 2); OpDelete (enc32 1) (mkRID 1 1); OpGet (enc32 4)].
Lemma demo_run_ok : Forall op_ok demo_run.
Proof. by repeat (constructor; [split; [done|]; try split; by apply (bool_decide_unpack _); vm_compute|]). Qed.
Lemma demo_run_list : list_ops (comparator demo_header) demo_run [] =
  ([(SUCCESS, []); (SUCCESS, []); (SUCCESS, []); (SUCCESS, []); (SUCCESS, []); (RECORD_DUPLICATE_KEY, []); (SUCCESS, []); (RECORD_NOT_EXIST, []); (SUCCESS, []); (SUCCESS, [mkRID 1 4])],
   [demo_item 3 3; demo_item 4 4; demo_item 5 5]).
Proof. by vm_compute. Qed.
Lemma index_runs_refine_witness : ∃ s' ht, index_ops 30 demo_run demo_index =
    Some ([(SUCCESS, []); (SUCCESS, []); (SUCCESS, []); (SUCCESS, []); (SUCCESS, []); (RECORD_DUPLICATE_KEY, []); (SUCCESS, []); (RECORD_NOT_EXIST, []); (SUCCESS, []); (SUCCESS, [mkRID 1 4])], s') ∧
  tree_ok demo_header (valid_key 4) s' [demo_item 3 3; demo_item 4 4; demo_item 5 5] ht.
Proof.
  destruct (index_runs_refine demo_header 30 demo_run demo_index [] 0 demo_ok demo_cap eq_refl eq_refl eq_refl demo_empty demo_run_ok) as (s' & ht & E & Ht); [cbn; lia|cbn; lia|cbn; lia|].
  rewrite demo_run_list in E, Ht. exists s', ht. exact (conj E Ht).
Defined.
