(* ===== verification/TreeTableIndex.v ===== *)
(** * TreeTableIndex: a B+ tree as an index of a table (storage/index/bplus_tree_index.cpp)

    [BplusTreeIndex] hands the key of its field, [record + field_meta_.offset()], to the B+ tree.
    Here the field holds an integer of four bytes. The laws of an index follow from the
    theorems on the operations of the tree: the entries are the pairs of key and [RID] of its
    items. *)
From stdpp Require Import sorting.
From S2P Require Import Prelude Types Encoding KeyCompare LatchMemo LatchMemoSpec BplusNode BplusLog BplusNodeSpec BplusOps BplusNodeOps BplusTree BplusRoot BplusLeaves BplusEntry BplusIndex BplusDelete BplusTheorems LogHandler RecordPageHandler RecordPool RecordFile RecordScan Table.

(** ** [BplusTreeIndex] *)

(** [index_handler_] with the pool, the latches and the log it works on, and [field_meta_.offset()] *)
Record BplusTreeIndex (P : Type) := mkTreeIndex { index_handler_ : Memo P TreeState; field_offset : Z }.
Arguments mkTreeIndex {P} _ _.
Arguments index_handler_ {P} _.
Arguments field_offset {P} _.

Section tree_index.
Context {P : Type} `{TP : TreePool P}.
(** the fuel of the operations of the tree *)
Variable fuel : nat.

Definition on_tree {A} (op : M (Memo P TreeState) A) : M (BplusTreeIndex P) A := λ i,
  match op (index_handler_ i) with Some (a, s) => Some (a, mkTreeIndex s (field_offset i)) | None => None end.
(** [record + field_meta_.offset()] *)
Definition field_at (offset : Z) (record : list Z) : list Z := drop (Z.to_nat offset) record.
Definition tree_insert_entry (record : list Z) (rid : RID) : M (BplusTreeIndex P) RC := λ i,
  on_tree (insert_entry fuel (Some (field_at (field_offset i) record)) (Some rid)) i.
Definition tree_delete_entry (record : list Z) (rid : RID) : M (BplusTreeIndex P) RC := λ i,
  on_tree (delete_entry fuel (field_at (field_offset i) record) rid) i.
(** the integer the field holds *)
Definition field_int (offset : Z) (record : list Z) : Z := dec32 (take 4 (field_at offset record)).

Definition TreeTableIndex : TableIndex (BplusTreeIndex P) Z := {|
  index_insert := tree_insert_entry;
  index_delete := tree_delete_entry;
  index_key i := field_int (field_offset i);
|}.
End tree_index.

(** ** Items and entries *)

Section items.
Context {valid : list Z → Prop} {cmp : list Z → list Z → Z} `{KO : !KeyOrder valid cmp}.
Implicit Types (l : list Item).

Lemma elem_of_insert_sorted kv l x : x ∈ insert_sorted cmp kv l ↔ x = kv ∨ x ∈ l.
Proof. induction l as [|kw l IH]; cbn; [by rewrite elem_of_cons|]. destruct (_ <? 0); rewrite !elem_of_cons, ?IH; tauto. Qed.
Lemma has_key_elem key l : has_key cmp key l = true ↔ ∃ kv, kv ∈ l ∧ cmp kv.1 key = 0.
Proof.
  unfold has_key. rewrite existsb_exists. split; intros (kv & Hin & Hk); exists kv; (split; [by apply list_elem_of_In|]); by apply Z.eqb_eq.
Qed.
(** the keys are distinct: a removal takes every item that compares equal *)
Lemma elem_of_remove_key key l x : ascending valid cmp l.*1 → valid key → x ∈ remove_key cmp key l ↔ x ∈ l ∧ cmp x.1 key ≠ 0.
Proof.
  intros [Hv Hs] Hk. induction l as [|kw l IH]; cbn [remove_key]; [split; [by intros ?%elem_of_nil|by intros [?%elem_of_nil _]]|].
  cbn in Hv, Hs. apply Forall_cons in Hv as [Hw Hv]. apply StronglySorted_inv in Hs as [Hs Hlt]. pose proof (IH Hv Hs) as IH'. rewrite Forall_fmap, Forall_forall in Hlt, Hv.
  destruct (_ =? 0) eqn:E; zbool.
  - rewrite elem_of_cons. split; [|intros [[->|?] ?]; done]. intros Hx. split; [by right|]. specialize (Hlt x Hx). cbn in Hlt.
    pose proof (cmp_flip_le kw.1 key Hw Hk) as H1. intros Hx0. pose proof (cmp_trans x.1 key kw.1 (Hv x Hx) Hk Hw) as H2. pose proof (cmp_anti kw.1 key Hw Hk). pose proof (cmp_flip_lt kw.1 x.1 Hw (Hv x Hx)). lia.
  - rewrite !elem_of_cons, IH'. split; [intros [->|[? ?]]; [split; [by left|done]|split; [by right|done]]|]. intros [[->|?] ?]; [by left|by right].
Qed.
End items.

(** two keys compare equal when their integers and [RID]s are equal *)
Lemma int_cmp_zero a b : valid_key 4 a → valid_key 4 b → key_comparator INTS 4 a b = 0 ↔ dec32 (take 4 a) = dec32 (take 4 b) ∧ key_rid 4 a = key_rid 4 b.
Proof.
  intros (_ & _ & Ha) (_ & _ & Hb). unfold key_comparator, attr_comparator. cbn [type_compare KeyCompare.set_data int_compare]. unfold compare_int. fold (key_rid 4 a). fold (key_rid 4 b).
  set (x := dec32 (take 4 a)). set (y := dec32 (take 4 b)). destruct (y <? x) eqn:E1; zbool; [cbn; split; [done|intros [? _]; lia]|]. destruct (x <? y) eqn:E2; zbool; [cbn; split; [done|intros [? _]; lia]|].
  cbn [negb Z.eqb]. pose proof (rid_compare_lex _ _ Ha Hb) as Hl. destruct (key_rid 4 a) as [p1 s1], (key_rid 4 b) as [p2 s2]. cbn [page_num slot_num lex] in *.
  destruct (p1 =? p2) eqn:E3; zbool; [destruct (s1 =? s2) eqn:E4; zbool|]; split.
  - intros _. split; [lia|congruence].
  - intros _. lia.
  - intros Hz. rewrite Hz in Hl. destruct (s1 <? s2) eqn:E5; cbn in Hl; zbool; lia.
  - intros [_ [= -> ->]]. lia.
  - intros Hz. rewrite Hz in Hl. destruct (p1 <? p2) eqn:E5; cbn in Hl; zbool; lia.
  - intros [_ [= -> ->]]. lia.
Qed.

(** the entries of the items [l] *)
Definition item_entries (l : list Item) : gset (Z * RID) := list_to_set ((λ kv : Item, (dec32 (take 4 kv.1), key_rid 4 kv.1)) <$> l).
Lemma elem_of_item_entries l e : e ∈ item_entries l ↔ ∃ kv, kv ∈ l ∧ e = (dec32 (take 4 kv.1), key_rid 4 kv.1).
Proof. unfold item_entries. rewrite elem_of_list_to_set, list_elem_of_fmap. naive_solver. Qed.

(** ** The laws *)

Section laws.
Context {P : Type} `{TL : TreePoolLaws P}.
Variables (fuel : nat) (h : IndexFileHeader).
Hypothesis (Hix : index_ok h) (Hcap : 4 ≤ leaf_max_size h ∧ 6 ≤ internal_max_size h) (Et : attr_type h = INTS) (El : attr_length h = 4) (Ek : key_length h = 12).

(** the tree is at rest and has the fuel and the free pages for [n] more calls *)
Definition tree_holds (n : nat) (X : gset (Z * RID)) (i : BplusTreeIndex P) : Prop :=
  ∃ l ht, tree_ok h (valid_key 4) (index_handler_ i) l ht ∧ X = item_entries l ∧
    (n * (ht + n) ≤ free (index_handler_ i))%nat ∧ (ht + n ≤ fuel)%nat ∧ (0 < fuel)%nat.
(** the record has the bytes of the field *)
Definition tree_row (i : BplusTreeIndex P) (record : list Z) : Prop :=
  0 ≤ field_offset i ∧ field_offset i + 4 ≤ len record ∧ Forall (λ b, 0 ≤ b < 256) record.

Lemma field_key i rec rid : tree_row i rec → rid_ok rid →
  let k := take 4 (field_at (field_offset i) rec) in
  mem_read (field_at (field_offset i) rec) 0 (attr_length h) = Some k ∧ len k = 4 ∧ valid_key 4 (k ++ rid_bytes rid) ∧
  dec32 (take 4 (k ++ rid_bytes rid)) = field_int (field_offset i) rec ∧ key_rid 4 (k ++ rid_bytes rid) = rid.
Proof.
  intros (H0 & Hl & Hb) Hrid k. assert (Lk : length k = 4%nat) by (unfold k, field_at, len in *; rewrite length_take, length_drop; lia).
  split; [rewrite El; unfold mem_read; rewrite decide_True; [done|unfold field_at, len in *; rewrite length_drop; lia]|]. split; [unfold len; lia|].
  assert (Hr : key_rid 4 (k ++ rid_bytes rid) = rid) by (unfold key_rid; change (Z.to_nat 4) with 4%nat; rewrite drop_app_length' by done; by apply rid_at_bytes).
  split; [|split; [by rewrite take_app_length'|done]]. split; [unfold rid_bytes; rewrite !len_app, !len_enc32; unfold len; lia|]. split; [|by rewrite Hr].
  apply Forall_app. split; [unfold k, field_at; by apply Forall_take, Forall_drop|]. unfold rid_bytes. apply Forall_app; split; apply le_bytes_range.
Qed.
Lemma cmp_eq : comparator h = key_comparator INTS 4.
Proof. unfold comparator. by rewrite Et, El. Qed.

(** an entry is in the index when the tree has its key *)
Lemma entry_has s l ht k rid z : tree_ok h (valid_key 4) s l ht → valid_key 4 (k ++ rid_bytes rid) → dec32 (take 4 (k ++ rid_bytes rid)) = z → key_rid 4 (k ++ rid_bytes rid) = rid →
  has_key (comparator h) (k ++ rid_bytes rid) l = true ↔ (z, rid) ∈ item_entries l.
Proof.
  intros Ht Hv Hz Hr. rewrite has_key_elem, elem_of_item_entries. split; intros (kv & Hin & Hk); exists kv; (split; [done|]); pose proof (BplusTheorems.tree_ok_valid _ _ _ _ _ kv Ht Hin) as Hvk.
  - rewrite cmp_eq in Hk. apply int_cmp_zero in Hk as [H1 H2]; [|done..]. by rewrite H1, H2, Hz, Hr.
  - rewrite cmp_eq. injection Hk as H1 H2. apply int_cmp_zero; [done|done|]. by rewrite Hz, Hr.
Qed.

Lemma int_valid_len k : valid_key 4 k → len k = key_length h.
Proof. intros []. lia. Qed.
Lemma int_order : KeyOrder (valid_key 4) (comparator h).
Proof. rewrite cmp_eq. apply int_key_order. Qed.

Lemma tree_insert_ok n X i rec rid : tree_holds (S n) X i → tree_row i rec → rid_ok rid →
  ∃ rc i', tree_insert_entry fuel rec rid i = Some (rc, i') ∧ field_offset i' = field_offset i ∧
    ((rc = SUCCESS ∧ ((field_int (field_offset i) rec, rid) ∉ X) ∧ tree_holds n ({[(field_int (field_offset i) rec, rid)]} ∪ X) i') ∨ (rc ≠ SUCCESS ∧ tree_holds n X i')).
Proof.
  pose proof int_order as KO.
  intros (l & ht & Ht & -> & Hf & Hn & H0) Hrow Hrid. destruct (field_key i rec rid Hrow Hrid) as (Hread & Hl4 & Hv & Hz & Hr).
  destruct (insert_entry_ok h Hix (valid_key 4) int_valid_len fuel _ _ rid _ l ht Ht Hread Hv) as (rc & s' & E & _ & H'); [lia|lia|].
  exists rc, (mkTreeIndex s' (field_offset i)). split; [unfold tree_insert_entry, on_tree; by rewrite E|]. split; [done|]. cbn [fst] in H'. pose proof (entry_has _ l ht _ rid _ Ht Hv Hz Hr) as He.
  destruct (has_key (comparator h) _ l) eqn:Eh.
  + destruct H' as (-> & Ht' & Hf'). right. split; [done|]. exists l, ht. split; [done|]. split; [done|]. cbn [index_handler_]. nia.
  + destruct H' as (-> & Hf' & ht' & Hht & Ht'). left. split; [done|]. split; [by intros ?%He|]. exists (insert_sorted (comparator h) (take 4 (field_at (field_offset i) rec) ++ rid_bytes rid, rid_bytes rid) l), ht'. split; [done|]. split; [|cbn [index_handler_]; nia].
    apply leibniz_equiv. intros e. rewrite elem_of_union, elem_of_singleton, !elem_of_item_entries.  setoid_rewrite elem_of_insert_sorted. split.
    * intros [->|(kv & Hin & ->)]; [eexists; split; [by left|cbn [fst]; by rewrite Hz, Hr]|eauto].
    * intros (kv & [->|Hin] & ->); [left; cbn [fst]; by rewrite Hz, Hr|right; eauto].
Qed.
Lemma tree_delete_ok n X i rec rid : tree_holds (S n) X i → tree_row i rec → rid_ok rid →
  ∃ rc i', tree_delete_entry fuel rec rid i = Some (rc, i') ∧ field_offset i' = field_offset i ∧
    tree_holds n (X ∖ {[(field_int (field_offset i) rec, rid)]}) i' ∧ (rc = SUCCESS ↔ (field_int (field_offset i) rec, rid) ∈ X).
Proof.
  pose proof int_order as KO.
  intros (l & ht & Ht & -> & Hf & Hn & H0) Hrow Hrid. destruct (field_key i rec rid Hrow Hrid) as (Hread & Hl4 & Hv & Hz & Hr).
  destruct (delete_entry_ok h Hix (valid_key 4) int_valid_len Hcap fuel _ _ rid _ l ht Ht Hread Hv) as (rc & s' & E & _ & Hf' & H'); [lia|lia|].
  exists rc, (mkTreeIndex s' (field_offset i)). split; [unfold tree_delete_entry, on_tree; by rewrite E|]. split; [done|]. pose proof (entry_has _ l ht _ rid _ Ht Hv Hz Hr) as He.
  destruct (has_key (comparator h) _ l) eqn:Eh.
  + destruct H' as (-> & ht' & Hht & Ht'). split; [|split; [intros _; by apply He|done]]. exists (remove_key (comparator h) (take 4 (field_at (field_offset i) rec) ++ rid_bytes rid) l), ht'. split; [done|]. split; [|cbn [index_handler_]; nia].
    apply leibniz_equiv. intros e. rewrite elem_of_difference, elem_of_singleton, !elem_of_item_entries. pose proof (BplusTheorems.tree_ok_sorted _ _ _ _ _ Ht) as Hs. setoid_rewrite (λ x, elem_of_remove_key _ l x Hs Hv). rewrite cmp_eq.
    assert (Hvl : ∀ kv, kv ∈ l → valid_key 4 kv.1) by (intros kv; by apply (BplusTheorems.tree_ok_valid _ _ _ _ _ kv Ht)). split.
    * intros [(kv & Hin & ->) Hne]. exists kv. split; [|done]. split; [done|]. intros [H1 H2]%int_cmp_zero; [|by apply Hvl|done]. apply Hne. by rewrite H1, H2, Hz, Hr.
    * intros (kv & [Hin Hne] & ->). split; [eauto|]. intros [= H1 H2]. apply Hne, int_cmp_zero; [by apply Hvl|done|]. by rewrite Hz, Hr.
  + destruct H' as (-> & Ht'). split; [|split; [done|by intros ?%He]]. exists l, ht. split; [done|]. split; [|cbn [index_handler_]; nia].
    apply leibniz_equiv, difference_disjoint. intros e He1 ->%elem_of_singleton. by apply He in He1.
Qed.
Lemma tree_holds_weaken n X i : tree_holds (S n) X i → tree_holds n X i.
Proof. intros (l & ht & Ht & -> & Hf & Hn & H0). exists l, ht. split; [done|]. split; [done|]. nia. Qed.
Lemma same_field (i i' : BplusTreeIndex P) : field_offset i' = field_offset i → (λ r, field_int (field_offset i') r) = (λ r, field_int (field_offset i) r) ∧ tree_row i' = tree_row i.
Proof. intros E. unfold tree_row. by rewrite E. Qed.

#[program] Definition tree_laws : @TableIndexLaws (BplusTreeIndex P) Z _ _ (TreeTableIndex fuel) := {|
  index_row := tree_row; index_holds := tree_holds; index_holds_weaken := tree_holds_weaken;
|}.
Next Obligation.
  intros n X i rec rid Hh Hr Hrid. destruct (tree_insert_ok n X i rec rid Hh Hr Hrid) as (rc & i' & E & [Hk Hrow]%same_field & Hcase). by exists rc, i'.
Qed.
Next Obligation.
  intros n X i rec rid Hh Hr Hrid. destruct (tree_delete_ok n X i rec rid Hh Hr Hrid) as (rc & i' & E & [Hk Hrow]%same_field & Hcase). by exists rc, i'.
Qed.
End laws.
