(* ===== verification/TableTheorems.v ===== *)
(** * TableTheorems: the rows of a table and its indexes stay in step

    The theorems hold for every record pool, every log that takes the records of the file
    handler, and every index with the laws of [TableIndexLaws]. The witnesses run on the pools
    in memory, with the B+ tree of TreeTableIndex as the index. *)
From S2P Require Import Prelude Types Bitmap Encoding KeyCompare LatchMemo TreePoolMem BplusNode BplusNodeSpec BplusTree BplusIndex BplusTheorems LogHandler RecordPageHandler RecordPageSpec RecordPool RecordFile RecordFileSpec RecordScan RecordScanSpec RecordFileTheorems Table TableSpec TreeTableIndex.

(** opening the record file ([Table::init_record_handler]), then the operations *)
Definition table_session {B L I K} `{RecordPool B} `{LogHandler L} `{TableIndex I K} (begin : gset PageNum → PageNum) (uninit id rs : Z)
    (ops : list TableOp) : M (Table B L I) (RC * list (RC * option RID * option (list Z))) :=
  let* rc := on_file (file_init id None) in
  let* res := table_run begin uninit rs ops in
  ret (rc, res).
(** the same, then a new index *)
Definition index_session {B L I K} `{RecordPool B} `{LogHandler L} `{TableIndex I K} (id : Z) (n : nat) (trx : option (RecordScan.Row → ReadWriteMode → RC))
    (index_name field_meta : option (list Ascii.ascii)) (created : RC * I) (files : MetaFiles) : M (MetaTable B L I) (RC * RC) :=
  let* rc := on_table (on_file (file_init id None)) in
  let* rc' := table_create_index n id trx index_name field_meta created files in
  ret (rc, rc').

(** the rows of a file, by their identifiers *)
Definition rows_of {B} `{RecordPool B} (id : Z) (b : B) : gmap RID (list Z) := list_to_map (file_rows id b).

(** a table that is closed: its file is well formed and its rows are of the schema *)
Record table_closed {B L I} `{RecordPool B} `{LogTotal L} (id : Z) (hd : PageHeader) (row_good : list Z → Prop) (t : Table B L I) : Prop := {
  tc_closed : disk_buffer_pool_ (record_handler_ t) = None;
  tc_free : free_pages_ (record_handler_ t) = ∅;
  tc_format : storage_format_ (record_handler_ t) = ROW_FORMAT;
  tc_log : log_ready (rf_log (record_handler_ t));
  tc_pages : file_pages_ok id hd (rf_pool (record_handler_ t));
  tc_rows : map_Forall (λ _ r, row_good r) (rows_of id (rf_pool (record_handler_ t)));
}.
(** every index holds exactly the entries of the rows, and can take [n] more calls *)
Definition indexes_hold {I K} `{TableIndexLaws I K} (n : nat) (m : gmap RID (list Z)) (l : list I) : Prop :=
  Forall (λ i, index_holds n (entries (index_key i) m) i) l.

Section theorems.
Context {B L I K : Type} `{PL : RecordPoolLaws B} `{LT : LogTotal L} `{IL : TableIndexLaws I K}.
Variables (begin : gset PageNum → PageNum) (uninit id rs : Z) (hd : PageHeader).
Hypothesis begin_elem : ∀ X, X ≠ ∅ → begin X ∈ X.
Hypothesis rs_pos : 1 ≤ rs.
Hypothesis hd_fresh : fix_record_capacity (fresh_header rs 0) = Some hd.
Hypothesis cap_pos : 0 < record_capacity hd.
Variable row_good : list Z → Prop.
Hypothesis row_good_len : ∀ r, row_good r → len r = rs.
Implicit Types (t : Table B L I).

(** after [init] the table is related to the rows of its file *)
Lemma table_init_ok n t : table_closed id hd row_good t → indexes_hold n (rows_of id (rf_pool (record_handler_ t))) (indexes_ t) →
  Forall (λ i, ∀ r, row_good r → index_row i r) (indexes_ t) →
  ∃ t' a, on_file (file_init id None) t = Some (SUCCESS, t') ∧ table_rel id hd row_good n (index_key <$> indexes_ t) t' a ∧ fs_rows a = rows_of id (rf_pool (record_handler_ t)).
Proof.
  intros [] Hi Hr. destruct (init_ok id hd (record_handler_ t) None) as (s & E & Hf); [done..|].
  eexists _, (file_spec_of id (rf_pool (record_handler_ t))). split; [by apply on_file_eq|]. split; [|done]. constructor; [done| |done|done].
  unfold indexes_hold in Hi. cbn [indexes_]. rewrite Forall_forall in Hi, Hr |- *. intros i Hin. split; [by apply Hi|by apply Hr].
Qed.
Lemma rel_holds n keys t a : table_rel id hd row_good n keys t a →
  fs_rows a = rows_of id (rf_pool (record_handler_ t)) ∧ indexes_hold n (rows_of id (rf_pool (record_handler_ t))) (indexes_ t) ∧ index_key <$> indexes_ t = keys.
Proof.
  intros [Hf Hi Hk _]. pose proof (rel_rows id hd _ _ Hf) as Hr. split; [done|]. split; [|done]. unfold rows_of. rewrite <-Hr.
  unfold indexes_hold. eapply Forall_impl; [exact Hi|]. by intros i [].
Qed.
Lemma meta_on_table_eq {A} (op : M (Table B L I) A) mt r t : op (the_table mt) = Some (r, t) → on_table op mt = Some (r, mkMetaTable t (table_meta_ mt)).
Proof. unfold on_table. by intros ->. Qed.
(** the number of rows a scan meets *)
Lemma file_rows_size (b : B) : base.size (rows_of id b) = length (file_rows id b).
Proof. unfold rows_of. apply map_size_list_to_map, file_rows_nodup. Qed.
End theorems.

(** ** Properties *)

(** [C1] The indexes of a table stay in step with its rows. On a table whose indexes hold exactly the
    entries of its rows, any sequence of insertions, deletions, reads and visits runs to its end
    and answers what the map of the rows answers: an insertion that fails, in the file or in any
    index, changes nothing, since its entries and its row are taken back. At the end every index
    again holds exactly the entries of the rows that are in the file. *)
Theorem table_runs_in_step {B L I K} `{PL : RecordPoolLaws B} `{LT : LogTotal L} `{IL : TableIndexLaws I K} (begin : gset PageNum → PageNum) (uninit id rs : Z) (hd : PageHeader)
    (row_good : list Z → Prop) (n : nat) (t : Table B L I) (ops : list TableOp) :
  (∀ X, X ≠ ∅ → begin X ∈ X) → 1 ≤ rs → fix_record_capacity (fresh_header rs 0) = Some hd → 0 < record_capacity hd →
  (∀ r, row_good r → len r = rs) → table_closed id hd row_good t →
  indexes_hold (2 * length ops + n) (rows_of id (rf_pool (record_handler_ t))) (indexes_ t) → Forall (λ i, ∀ r, row_good r → index_row i r) (indexes_ t) →
  Forall (top_ok row_good (index_key <$> indexes_ t) (record_capacity hd)) ops →
  ∃ res t', table_session begin uninit id rs ops t = Some ((SUCCESS, res), t') ∧
    let rows := rows_of id (rf_pool (record_handler_ t')) in
    table_specs ops (rows_of id (rf_pool (record_handler_ t))) res rows ∧
    indexes_hold n rows (indexes_ t') ∧ index_key <$> indexes_ t' = index_key <$> indexes_ t.
Proof.
  intros Hb Hrs Hhd Hcap Hlen Hc Hi Hr Hops. destruct (table_init_ok id hd row_good _ t Hc Hi Hr) as (t1 & a1 & E1 & Hrel & Ha).
  destruct (table_run_ok begin uninit id rs hd Hb Hrs Hhd Hcap row_good Hlen _ ops n t1 a1 Hrel Hops) as (res & t2 & a2 & E2 & Hrel2 & Hsp).
  destruct (rel_holds id hd row_good n _ t2 a2 Hrel2) as (Ha2 & Hi2 & Hk2). exists res, t2. unfold table_session. rewrite (bind_eq _ _ _ _ _ E1), (bind_eq _ _ _ _ _ E2).
  rewrite Ha, Ha2 in Hsp. done.
Qed.

(** an empty file of rows of 1000 bytes and an empty tree on the integer they begin with *)
Definition demo_hd : PageHeader := mkPageHeader 0 0 1000 1000 8 32 32.
Definition demo_row (x : Z) : list Z := enc32 x ++ replicate 996 0.
Definition demo_good (r : list Z) : Prop := len r = 1000 ∧ Forall (λ b, 0 ≤ b < 256) r.
Definition tree_index : BplusTreeIndex TreePoolMem.MemPool := mkTreeIndex demo_index 0.
Definition demo_table (b : RecordPool.MemPool) (l : list (BplusTreeIndex TreePoolMem.MemPool)) : Table RecordPool.MemPool (list LogRec) (BplusTreeIndex TreePoolMem.MemPool) :=
  mkTable (mkRFile b [] None ∅ ROW_FORMAT None) l.
(** a visit sets a hidden field behind the key *)
Definition demo_table_ops : list TableOp :=
  [TInsert (demo_row 5); TInsert (demo_row 3); TVisit (mkRID 1 0) (λ r, (true, <[5%nat := 7]> r)); TDelete (mkRID 1 1)].
#[export] Instance DemoTableIndex : TableIndex (BplusTreeIndex TreePoolMem.MemPool) Z := TreeTableIndex 20.
#[export] Instance DemoTableIndexLaws : TableIndexLaws (BplusTreeIndex TreePoolMem.MemPool) Z := tree_laws 20 demo_header demo_ok demo_cap eq_refl eq_refl eq_refl.

Lemma demo_row_good x : demo_good (demo_row x).
Proof. split; [unfold demo_row; by rewrite len_app, len_enc32|]. apply Forall_app. split; [apply le_bytes_range|]. by apply Forall_replicate. Qed.
Lemma demo_good_row r : demo_good r → index_row tree_index r.
Proof. intros [Hl Hb]. split; [done|]. split; [|done]. cbn. lia. Qed.
Lemma demo_visit_ok : top_ok demo_good [index_key tree_index] 8 (TVisit (mkRID 1 0) (λ r, (true, <[5%nat := 7]> r))).
Proof.
  split; [done|]. split; [done|]. split; [intros r; cbn [snd]; unfold len; by rewrite length_insert|]. intros r [Hl Hb]. split; cbn [snd].
  - split; [unfold len in *; by rewrite length_insert|]. by apply Forall_insert.
  - apply Forall_singleton. change (index_key tree_index) with (field_int 0). unfold field_int, field_at. change (Z.to_nat 0) with 0%nat. rewrite !drop_0, take_insert_ge; [done|lia].
Qed.
Lemma demo_ops_ok : Forall (top_ok demo_good [index_key tree_index] 8) demo_table_ops.
Proof.
  apply Forall_cons. split; [exact (demo_row_good 5)|]. apply Forall_cons. split; [exact (demo_row_good 3)|]. apply Forall_cons. split; [exact demo_visit_ok|].
  apply Forall_singleton. by cbn.
Qed.
Lemma tree_index_holds n : (n * n ≤ 100)%nat → (n ≤ 20)%nat → index_holds n ∅ tree_index.
Proof. intros Hn Hf. exists [], 0%nat. split; [exact demo_empty|]. split; [done|]. cbn. lia. Qed.
Lemma empty_table_closed l : table_closed 1 demo_hd demo_good (demo_table ∅ l).
Proof. split; try done. Qed.

Lemma table_runs_in_step_witness :
  ∃ res t', table_session first_page 0 1 1000 demo_table_ops (demo_table ∅ [tree_index]) = Some ((SUCCESS, res), t') ∧
    let rows := rows_of 1 (rf_pool (record_handler_ t')) in
    table_specs demo_table_ops (rows_of 1 (∅ : RecordPool.MemPool)) res rows ∧ indexes_hold 1 rows (indexes_ t') ∧ index_key <$> indexes_ t' = [index_key tree_index].
Proof.
  apply (table_runs_in_step first_page 0 1 1000 demo_hd demo_good 1 (demo_table ∅ [tree_index]) demo_table_ops).
  - exact first_page_elem.
  - done.
  - done.
  - done.
  - by intros r [].
  - apply empty_table_closed.
  - apply Forall_singleton. apply (tree_index_holds 9); lia.
  - apply Forall_singleton. exact demo_good_row.
  - exact demo_ops_ok.
Defined.

(** a file with two rows, in the slots 0 and 2 of its page *)
Definition two_rows : RecordPool.MemPool :=
  {[ (1, 1) := mkRecordFrame 1 0 false (mkPageHeader 2 0 1000 1000 8 32 32) [5] (replicate (Z.to_nat BP_PAGE_DATA_SIZE) 3) ]}.
Lemma two_rows_ok : file_pages_ok 1 demo_hd two_rows.
Proof.
  intros pn f H1 (Hf & Hn & _)%mem_frame_Some. unfold two_rows in Hf. apply lookup_singleton_Some in Hf as [[= <-] <-]. split; [|done]. constructor; try (by vm_compute).
  split; [by vm_compute|repeat constructor; by vm_compute|by vm_compute].
Qed.
Lemma two_rows_rows : rows_of 1 two_rows = <[mkRID 1 0 := replicate 1000 3]> {[mkRID 1 2 := replicate 1000 3]}.
Proof. by vm_compute. Qed.
Lemma two_rows_closed l : table_closed 1 demo_hd demo_good (demo_table two_rows l).
Proof.
  split; [done..|exact two_rows_ok|]. change (rf_pool _) with two_rows. rewrite two_rows_rows. assert (Hg : demo_good (replicate 1000 3)) by (split; [done|by apply Forall_replicate]).
  apply map_Forall_insert_2; [done|]. by apply map_Forall_singleton.
Qed.

(** what [create_index] has done on a table with the rows [rows]: nothing, or a new last index *)
Inductive index_created {B L I K} `{TableIndexLaws I K} (n : nat) (trx : option (RecordScan.Row → ReadWriteMode → RC)) (index_name field_meta : option (list Ascii.ascii))
    (new_index : I) (files : MetaFiles) (rows : gmap RID (list Z)) (mt mt' : MetaTable B L I) : RC → Prop :=
| NotCreated rc : rc ≠ SUCCESS → indexes_ (the_table mt') = indexes_ (the_table mt) → table_meta_ mt' = table_meta_ mt →
    index_created n trx index_name field_meta new_index files rows mt mt' rc
| Created name field i rc : index_name = Some name → field_meta = Some field →
    indexes_ (the_table mt') = indexes_ (the_table mt) ++ [i] → index_key i = index_key new_index → index_row i = index_row new_index →
    index_holds n (entries (index_key new_index) (seen_rows trx rows)) i → rc = write_table_meta files →
    table_meta_ mt' = (if OB_FAIL rc then table_meta_ mt else table_meta_ mt ++ [mkIndexMeta name field]) →
    index_created n trx index_name field_meta new_index files rows mt mt' rc.

Section index_theorems.
Context {B L I K : Type} `{PL : RecordPoolLaws B} `{LT : LogTotal L} `{IL : TableIndexLaws I K}.
Variables (id rs : Z) (hd : PageHeader) (row_good : list Z → Prop) (trx : option (RecordScan.Row → ReadWriteMode → RC)).
Hypothesis rs_pos : 1 ≤ rs.
Hypothesis hd_fresh : fix_record_capacity (fresh_header rs 0) = Some hd.
Hypothesis cap_pos : 0 < record_capacity hd.
Hypothesis trx_codes : ∀ r, visit trx READ_ONLY r ≠ RECORD_EOF.
Variables (index_name field_meta : option (list Ascii.ascii)) (created : RC * I) (files : MetaFiles).
Hypothesis new_rows : ∀ r, row_good r → index_row created.2 r.

Lemma create_index_ok n keys t metas a k : table_rel id hd row_good n keys t a →
  (length (file_rows id (rf_pool (record_handler_ t))) < k)%nat → index_holds (length (file_rows id (rf_pool (record_handler_ t))) + n) ∅ created.2 →
  ∃ rc mt', table_create_index k id trx index_name field_meta created files (mkMetaTable t metas) = Some (rc, mt') ∧
    file_rel id hd (record_handler_ (the_table mt')) a ∧
    index_created n trx index_name field_meta created.2 files (fs_rows a) (mkMetaTable t metas) mt' rc.
Proof.
  intros Hrel Hk Hnew. pose proof (tr_file _ _ _ _ _ _ _ Hrel) as Hf. set (mt := mkMetaTable t metas).
  assert (Hno : ∀ rc t2, rc ≠ SUCCESS → indexes_ t2 = indexes_ t → index_created n trx index_name field_meta created.2 files (fs_rows a) mt (mkMetaTable t2 metas) rc)
    by (intros; by apply NotCreated).
  unfold table_create_index. destruct index_name as [name|], field_meta as [field|]; try (exists INVALID_ARGUMENT, mt; split; [done|]; split; [done|]; by apply Hno).
  unfold index_meta_init. destruct (is_blank name); [exists INVALID_ARGUMENT, mt; split; [done|]; split; [done|]; by apply Hno|]. change (OB_FAIL SUCCESS) with false. cbv iota.
  destruct (OB_FAIL created.1) eqn:Ecr; [exists created.1, mt; split; [done|]; split; [done|]; apply Hno; [by apply bool_decide_eq_true in Ecr|done]|].
  destruct (table_fill_ok id rs hd rs_pos hd_fresh cap_pos row_good trx trx_codes n keys t a k created.2 Hrel Hk Hnew new_rows) as (r & i & t2 & E2 & Hrel2 & Ht2 & Hkey & Hrow & Hcase).
  pose proof (tr_file _ _ _ _ _ _ _ Hrel2) as Hf2. rewrite (bind_eq _ _ _ _ _ (meta_on_table_eq _ mt _ _ E2)). cbn [fst snd table_meta_ mt].
  destruct Hcase as [[-> Hi2]|(rc & Hr2 & Hrc & Hne)].
  2:{ exists rc, (mkMetaTable t2 metas). split; [destruct Hr2 as [-> | ->]; [by destruct rc|done]|]. split; [done|]. by apply Hno. }
  set (t3 := mkTable (record_handler_ t2) (indexes_ t2 ++ [i])).
  assert (E4 : on_table (modify (λ t0 : Table B L I, mkTable (record_handler_ t0) (indexes_ t0 ++ [i]))) (mkMetaTable t2 metas) = Some (tt, mkMetaTable t3 metas)) by done.
  rewrite (bind_eq _ _ _ _ _ E4), bind_get. cbn [table_meta_ add_index fst snd]. change (OB_FAIL SUCCESS) with false. cbv iota.
  exists (write_table_meta files), (mkMetaTable t3 (if OB_FAIL (write_table_meta files) then metas else metas ++ [mkIndexMeta name field])). split; [|split; [done|]].
  - destruct (OB_FAIL (write_table_meta files)) eqn:Ew; [done|]. unfold OB_FAIL in Ew. apply bool_decide_eq_false, dec_stable in Ew. by rewrite Ew.
  - apply (Created _ _ _ _ _ _ _ _ _ name field i); try done. cbn [the_table indexes_ t3]. by rewrite Ht2.
Qed.

(** opening the file and creating the index, together *)
Lemma index_session_ok k n (mt : MetaTable B L I) :
  let t := the_table mt in
  let rows := rows_of id (rf_pool (record_handler_ t)) in
  table_closed id hd row_good t → (base.size rows < k)%nat → index_holds (base.size rows + n) ∅ created.2 →
  indexes_hold n rows (indexes_ t) → Forall (λ i, ∀ r, row_good r → index_row i r) (indexes_ t) →
  ∃ rc mt' a, index_session id k trx index_name field_meta created files mt = Some ((SUCCESS, rc), mt') ∧ fs_rows a = rows ∧
    index_created n trx index_name field_meta created.2 files rows mt mt' rc ∧ file_rel id hd (record_handler_ (the_table mt')) a.
Proof.
  intros t rows Hc Hk Hnew Hi Hr. destruct (table_init_ok id hd row_good _ t Hc Hi Hr) as (t1 & a & E1 & Hrel & Ha). fold rows in Ha.
  assert (Ht1 : indexes_ t1 = indexes_ t) by (unfold on_file in E1; case_match; [|done]; case_match; by injection E1 as _ <-).
  destruct (rel_holds id hd row_good _ _ t1 a Hrel) as (Ha1 & _). rewrite <-Ha, Ha1, file_rows_size in Hk, Hnew.
  destruct (create_index_ok n _ t1 (table_meta_ mt) a k Hrel Hk Hnew) as (rc & mt' & E2 & Hf & Hcr). exists rc, mt', a.
  unfold index_session. rewrite (bind_eq _ _ _ _ _ (meta_on_table_eq _ mt _ _ E1)), (bind_eq _ _ _ _ _ E2). split; [done|]. split; [done|]. split; [|done].
  rewrite <-Ha. destruct Hcr as [rc' Hrc Hix Hm|name field i rc' Hn Hfd Hix Hkey Hirow Hh Hrc Hm]; cbn [the_table] in Hix; rewrite Ht1 in Hix;
    [by apply NotCreated|by apply (Created _ _ _ _ _ _ _ _ _ name field i)].
Qed.
End index_theorems.


(** a transaction that sees every row, one that does not see the row in slot 2, and names *)
Definition seeing : option (RecordScan.Row → ReadWriteMode → RC) := Some (λ _ _, SUCCESS).
Definition hiding : option (RecordScan.Row → ReadWriteMode → RC) := Some (λ r _, if slot_num r.1 =? 2 then RECORD_INVISIBLE else SUCCESS).
Definition demo_name : option (list Ascii.ascii) := Some [Ascii.ascii_of_N 105].
Definition demo_field : option (list Ascii.ascii) := Some [Ascii.ascii_of_N 97].
Definition good_files : MetaFiles := mkMetaFiles true 100 0.
Definition two_rows_table : MetaTable RecordPool.MemPool (list LogRec) (BplusTreeIndex TreePoolMem.MemPool) := mkMetaTable (demo_table two_rows []) [].


(** [C40] A row that the transaction of [create_index] does not see cannot be deleted any more. When
    [create_index] has answered SUCCESS, the new index has no entry for such a row; whoever deletes
    the row afterwards (the transaction that inserted it, when it rolls back) makes the ASSERT of
    [Table::delete_record] fail, which ends the process. *)
Theorem hidden_rows_break_deletion {B L I K} `{PL : RecordPoolLaws B} `{LT : LogTotal L} `{IL : TableIndexLaws I K} (uninit id rs : Z) (hd : PageHeader)
    (row_good : list Z → Prop) (k : nat) (trx : option (RecordScan.Row → ReadWriteMode → RC)) (index_name field_meta : option (list Ascii.ascii)) (created : RC * I) (files : MetaFiles)
    (mt mt1 : MetaTable B L I) (rid : RID) (row : list Z) :
  1 ≤ rs → fix_record_capacity (fresh_header rs 0) = Some hd → 0 < record_capacity hd →
  (∀ r, visit trx READ_ONLY r ≠ RECORD_EOF) → table_closed id hd row_good (the_table mt) →
  let rows := rows_of id (rf_pool (record_handler_ (the_table mt))) in
  (base.size rows < k)%nat → index_holds (base.size rows + 1) ∅ created.2 → (∀ r, row_good r → index_row created.2 r) →
  indexes_hold 1 rows (indexes_ (the_table mt)) → Forall (λ i, ∀ r, row_good r → index_row i r) (indexes_ (the_table mt)) →
  rows !! rid = Some row → visit trx READ_ONLY (rid, row) = RECORD_INVISIBLE →
  index_session id k trx index_name field_meta created files mt = Some ((SUCCESS, SUCCESS), mt1) →
  table_delete_record uninit rid (the_table mt1) = None.
Proof.
  intros Hrs Hhd Hcap Hcodes Hc rows Hk Hnew Hnrow Hi Hr Hrow Hhid E.
  destruct (index_session_ok id rs hd row_good trx Hrs Hhd Hcap Hcodes index_name field_meta created files Hnrow k 1 mt Hc Hk Hnew Hi Hr) as (rc & mt' & a & E' & Ha & Hcr & Hf).
  rewrite E in E'. injection E' as <- <-. fold rows in Ha, Hcr.
  assert (Hst : Forall (in_step row_good 1 rows) (indexes_ (the_table mt))).
  { unfold indexes_hold in Hi. rewrite Forall_forall in Hi, Hr |- *. intros i Hin. split; [by apply Hi|by apply Hr]. }
  pose proof (tc_rows _ _ _ _ Hc rid row Hrow) as Hg. rewrite <-Ha in Hrow.
  inversion Hcr as [? Hne|name field i ? Hn Hfd Hix Hkey Hir Hh Hrc Hm]; [done|].
  destruct (rel_rid_ok id rs hd Hrs Hhd Hcap _ a rid row Hf Hrow) as (Hrid & Hp & Hs).
  destruct (file_step_ok first_page uninit id rs hd first_page_elem Hrs Hhd Hcap (FGet rid) _ a Hf) as (r & s' & a' & E2 & Hrel & Hres%spec_get); [split; [done|lia]|].
  rewrite Hrow in Hres. destruct Hres as [_ ->]. apply (file_call _ (λ x, mkFileRes x.1 None x.2)) in E2 as ([rc2 o] & E2 & [= <- <-]).
  unfold table_delete_record. rewrite (bind_eq _ _ _ _ _ (on_file_eq _ (the_table mt1) _ _ E2)). cbn [fst snd]. change (OB_FAIL SUCCESS) with false. cbv iota.
  rewrite (bind_liftO _ _ _ _ eq_refl). unfold table_delete_the_record, on_indexes, bind. cbn [indexes_]. rewrite Hix.
  rewrite (delete_missing row_good 0 rows row rid i (entries (index_key created.2) (seen_rows trx rows))); [done|done|by rewrite <-Ha|done|done|done|by rewrite Hir; apply Hnrow|].
  rewrite elem_of_entries. intros (x & [Hx Hv]%map_lookup_filter_Some & _). unfold sees in Hv. rewrite <-Ha, Hrow in Hx. injection Hx as <-. congruence.
Qed.

Definition hidden_table : MetaTable RecordPool.MemPool (list LogRec) (BplusTreeIndex TreePoolMem.MemPool) :=
  match index_session 1 3 hiding demo_name demo_field (SUCCESS, tree_index) good_files two_rows_table with Some (_, mt) => mt | None => two_rows_table end.
Lemma hidden_table_eq : index_session 1 3 hiding demo_name demo_field (SUCCESS, tree_index) good_files two_rows_table = Some ((SUCCESS, SUCCESS), hidden_table).
Proof. by vm_compute. Qed.
Lemma hidden_rows_break_deletion_witness : table_delete_record 0 (mkRID 1 2) (the_table hidden_table) = None.
Proof.
  apply (hidden_rows_break_deletion 0 1 1000 demo_hd demo_good 3 hiding demo_name demo_field (SUCCESS, tree_index) good_files two_rows_table hidden_table (mkRID 1 2) (replicate 1000 3)).
  - done.
  - done.
  - done.
  - intros r. cbn. by case_match.
  - apply two_rows_closed.
  - change (rf_pool (record_handler_ (the_table two_rows_table))) with two_rows. rewrite two_rows_rows. by vm_compute.
  - change (rf_pool (record_handler_ (the_table two_rows_table))) with two_rows. rewrite two_rows_rows. apply (tree_index_holds 3); lia.
  - exact demo_good_row.
  - apply Forall_nil_2.
  - apply Forall_nil_2.
  - change (rf_pool (record_handler_ (the_table two_rows_table))) with two_rows. by rewrite two_rows_rows.
  - done.
  - exact hidden_table_eq.
Defined.
