(* ===== verification/Expression.v ===== *)
(** * Expression: values and expressions (common/value.cpp, common/type, sql/expr/expression.cpp)

    The conversions, comparisons and arithmetic of [Value] and of the data types, and the
    evaluation of expressions on a tuple. The chunk-at-a-time evaluation ([get_column], [eval])
    and the parsing and printing of values are not modelled.

    An answer [inl rc] is a return code other than SUCCESS, [inr v] is SUCCESS with the output
    parameter. [None] is a failed [ASSERT], a null dereference or a conversion that is undefined.
    Signed overflow wraps around. *)
From Stdlib Require Import SpecFloat.
From stdpp Require Import strings.
From S2P Require Import Prelude Types Encoding KeyCompare.

(** [std::stof] and [std::stol]: [None] is an exception. The theorems hold for whatever they answer *)
Class CStrings := { stof : list Z → option spec_float; stol : list Z → option Z }.

(** ** Values *)

Definition attr_type (v : Value) : AttrType :=
  match v with VChars _ _ => CHARS | VInt _ => INTS | VFloat _ => FLOATS | VBool _ => BOOLEANS | VUndefined => UNDEFINED end.
(** a new [Value] after [set_type(t)]; there is no [VChars] without a string *)
Definition set_type (t : AttrType) : option Value :=
  match t with
  | UNDEFINED => Some VUndefined | INTS => Some (VInt 0) | FLOATS => Some (VFloat (S754_zero false)) | BOOLEANS => Some (VBool false)
  | CHARS => None
  end.

(** [Value::operator=] and the copy constructor: [set_string_from_other] does not set the pointer
    when the string is empty; in a new value it is then null *)
Definition copy_value (v : Value) : Value :=
  match v with VChars p n => VChars (if n =? 0 then None else p) n | _ => v end.
(** a value whose pointer was not set *)
Definition pointer_unset (v : Value) : bool := match v with VChars None _ => true | _ => false end.

(** the conversions between [int] and [float]: to the nearest, and towards zero *)
Definition float_of_int (z : Z) : spec_float := binary_normalize 24 128 z 0 false.
Definition int_of_float (f : spec_float) : option Z :=
  match f with
  | S754_zero _ => Some 0
  | S754_finite s m e =>
      let z := cond_Zopp s (if 0 <=? e then Zpos m * 2 ^ e else Zpos m / 2 ^ (- e)) in
      if (- 2 ^ 31 <=? z) && (z <? 2 ^ 31) then Some z else None
  | _ => None
  end.
(** [val >= EPSILON || val <= -EPSILON] and [val > -EPSILON && val < EPSILON], as [double]s *)
Definition not_near_zero (val : spec_float) : bool := SFleb EPSILON (to_double val) || SFleb (to_double val) (SFopp EPSILON).
Definition near_zero (val : spec_float) : bool := SFltb (SFopp EPSILON) (to_double val) && SFltb (to_double val) EPSILON.
(** [numeric_limits<float>::max()] *)
Definition float_max : spec_float := S754_finite false 16777215 104.

Section values.
Context `{CStrings}.

Definition get_int (v : Value) : option Z :=
  match v with
  | VChars p _ => Some (match p ≫= stol with Some z => wrap32 z | None => 0 end)
  | VInt z => Some z
  | VFloat f => int_of_float f
  | VBool b => Some (Z.b2z b)
  | VUndefined => Some 0
  end.
Definition get_float (v : Value) : spec_float :=
  match v with
  | VChars p _ => default (S754_zero false) (p ≫= stof)
  | VInt z => float_of_int z
  | VFloat f => f
  | VBool b => float_of_int (Z.b2z b)
  | VUndefined => S754_zero false
  end.
(** a string is true whatever it says: the last test is the one of its pointer. From a null pointer
    [stof] makes no string; it throws, and the test answers false *)
Definition get_boolean (v : Value) : bool :=
  match v with
  | VChars None _ => false
  | VChars (Some s) _ =>
      match stof s with
      | Some val => if not_near_zero val then true else match stol s with Some z => if negb (wrap32 z =? 0) then true else true | None => true end
      | None => true
      end
  | VInt z => negb (z =? 0)
  | VFloat val => not_near_zero val
  | VBool b => b
  | VUndefined => false
  end.

(** ** Comparison *)

(** [IntegerType::compare]: beside a [float] the bits of the [int] are read as a [float] *)
Definition integer_compare (l : Z) (right : Value) : option Z :=
  match right with
  | VInt r => Some (compare_int l r)
  | VFloat r => Some (compare_float (float_of_bits (l mod 2 ^ 32)) r)
  | _ => None
  end.
Definition float_type_compare (l : spec_float) (right : Value) : option Z :=
  match right with
  | VInt _ | VFloat _ => Some (compare_float l (get_float right))
  | _ => None
  end.
Definition char_type_compare (l : option (list Z)) (n : Z) (right : Value) : option Z :=
  match right with VChars r m => Some (compare_string (default [] l) n (default [] r) m) | _ => None end.
(** [Value::compare] *)
Definition value_compare (left right : Value) : option Z :=
  match left with
  | VChars l n => char_type_compare l n right
  | VInt l => integer_compare l right
  | VFloat l => float_type_compare l right
  | VBool _ | VUndefined => Some (data_type_compare left right)
  end.

(** ** Arithmetic: [Value::add] and the others dispatch on the type of the result *)

Definition integer_op (op : Z → Z → Z) (left right : Value) : option (RC * Value) :=
  l ← get_int left; r ← get_int right; Some (SUCCESS, VInt (wrap32 (op l r))).
Definition float_op (op : spec_float → spec_float → spec_float) (left right : Value) : option (RC * Value) :=
  Some (SUCCESS, VFloat (op (get_float left) (get_float right))).
(** an operation the type does not have *)
Definition unsupported (result : Value) : option (RC * Value) := Some (UNSUPPORTED, result).
Definition value_add (left right result : Value) : option (RC * Value) :=
  match attr_type result with INTS => integer_op Z.add left right | FLOATS => float_op (SFadd 24 128) left right | _ => unsupported result end.
Definition value_subtract (left right result : Value) : option (RC * Value) :=
  match attr_type result with INTS => integer_op Z.sub left right | FLOATS => float_op (SFsub 24 128) left right | _ => unsupported result end.
Definition value_multiply (left right result : Value) : option (RC * Value) :=
  match attr_type result with INTS => integer_op Z.mul left right | FLOATS => float_op (SFmul 24 128) left right | _ => unsupported result end.
Definition float_divide (l r : spec_float) : spec_float := if near_zero r then float_max else SFdiv 24 128 l r.
Definition value_divide (left right result : Value) : option (RC * Value) :=
  match attr_type result with FLOATS => float_op float_divide left right | _ => unsupported result end.
Definition value_negative (value result : Value) : option (RC * Value) :=
  match attr_type result with
  | INTS => z ← get_int value; Some (SUCCESS, VInt (wrap32 (- z)))
  | FLOATS => Some (SUCCESS, VFloat (SFopp (get_float value)))
  | _ => unsupported result
  end.
(** [Value::cast_to]: no data type has an implementation *)
Definition cast_to (value : Value) (to_type : AttrType) : RC + Value :=
  match attr_type value with CHARS => inl UNIMPLEMENTED | _ => inl UNSUPPORTED end.
End values.

(** ** Expressions *)

Inductive CompOp := EQUAL_TO | LESS_EQUAL | NOT_EQUAL | LESS_THAN | GREAT_EQUAL | GREAT_THAN | NO_OP.
Inductive ConjunctionType := AND | OR.
#[export] Instance ConjunctionType_eq_dec : EqDecision ConjunctionType.
Proof. solve_decision. Defined.
Inductive ArithmeticType := ADD | SUB | MUL | DIV | NEGATIVE.
#[export] Instance ArithmeticType_eq_dec : EqDecision ArithmeticType.
Proof. solve_decision. Defined.
Inductive AggregateType := COUNT | SUM | AVG | MAX | MIN.

Inductive Expression :=
| StarExpr (table_name : string)
| UnboundFieldExpr (table_name field_name : string)
| FieldExpr (table_name field_name : string) (field_type : AttrType)
| ValueExpr (value : Value)
| CastExpr (child : Expression) (cast_type : AttrType)
| ComparisonExpr (comp : CompOp) (left right : Expression)
| ConjunctionExpr (type : ConjunctionType) (children : list Expression)
| ArithmeticExpr (type : ArithmeticType) (left : Expression) (right : option Expression)
| UnboundAggregateExpr (aggregate_name : string) (child : Expression)
| AggregateExpr (type : AggregateType) (name : string) (child : Expression).

(** [TupleCellSpec], and [Tuple::find_cell] *)
Record TupleCellSpec := mkSpec { table_name : string; field_name : string; alias : string }.
Definition field_spec (table field : string) : TupleCellSpec :=
  mkSpec table field (if bool_decide (table = ""%string) then field else table +:+ "." +:+ field).
Definition alias_spec (name : string) : TupleCellSpec := mkSpec "" "" name.
Definition Tuple : Type := TupleCellSpec → RC + Value.

(** [ArithmeticExpr::value_type] *)
Definition arithmetic_value_type (type : ArithmeticType) (left_type : AttrType) (o : option AttrType) : AttrType :=
  match o with
  | None => left_type
  | Some right_type => if bool_decide (left_type = INTS) && bool_decide (right_type = INTS) && negb (bool_decide (type = DIV)) then INTS else FLOATS
  end.
(** [Expression::value_type] *)
Fixpoint value_type (e : Expression) : AttrType :=
  match e with
  | StarExpr _ | UnboundFieldExpr _ _ => UNDEFINED
  | FieldExpr _ _ t => t
  | ValueExpr v => attr_type v
  | CastExpr _ t => t
  | ComparisonExpr _ _ _ | ConjunctionExpr _ _ => BOOLEANS
  | ArithmeticExpr type l o => arithmetic_value_type type (value_type l) (match o with Some r => Some (value_type r) | None => None end)
  | UnboundAggregateExpr _ c | AggregateExpr _ _ c => value_type c
  end.

(** what a call answers: an error or a result *)
Definition Answer (A : Type) : Type := option (RC + A).
Definition and_then {A B} (a : Answer A) (k : A → Answer B) : Answer B :=
  match a with None => None | Some (inl rc) => Some (inl rc) | Some (inr x) => k x end.
Notation "'let!' x ':=' a 'in' k" := (and_then a (λ x, k)) (at level 10, x binder, a at level 200, k at level 200).

Section expressions.
Context `{CStrings}.

(** [CastExpr::cast] *)
Definition cast (cast_type : AttrType) (value : Value) : Answer Value :=
  if bool_decide (cast_type = attr_type value) then Some (inr (copy_value value)) else Some (cast_to value cast_type).
(** [ComparisonExpr::compare_value] *)
Definition compare_value (comp : CompOp) (left right : Value) : Answer bool :=
  match value_compare left right with
  | None => None
  | Some cmp_result =>
      match comp with
      | EQUAL_TO => Some (inr (0 =? cmp_result))
      | LESS_EQUAL => Some (inr (cmp_result <=? 0))
      | NOT_EQUAL => Some (inr (negb (cmp_result =? 0)))
      | LESS_THAN => Some (inr (cmp_result <? 0))
      | GREAT_EQUAL => Some (inr (0 <=? cmp_result))
      | GREAT_THAN => Some (inr (0 <? cmp_result))
      | NO_OP => Some (inl INTERNAL)
      end
  end.
(** [ArithmeticExpr::calc_value]: the codes of the operations are not looked at *)
Definition calc_value (type : ArithmeticType) (target_type : AttrType) (left right : Value) : Answer Value :=
  value ← set_type target_type;
  r ← match type with
      | ADD => value_add left right value
      | SUB => value_subtract left right value
      | MUL => value_multiply left right value
      | DIV => value_divide left right value
      | NEGATIVE => value_negative left value
      end;
  Some (inr r.2).

(** the value that decides a conjunction *)
Definition decides (type : ConjunctionType) (b : bool) : bool :=
  bool_decide (type = AND) && negb b || bool_decide (type = OR) && b.
(** the loop of [ConjunctionExpr::get_value]. [tmp_value] is one variable for all children: when the
    pointer of a copied string is not set it is whatever the value before has left there, and the
    loop has no answer (also for the first child, before which nothing was left) *)
Fixpoint conjunction_loop {A} (value_of : A → Answer Value) (type : ConjunctionType) (children : list A) : Answer Value :=
  match children with
  | [] => Some (inr (VBool (bool_decide (type = AND))))
  | c :: cs =>
      let! v := value_of c in
      if pointer_unset v then None else
      let b := get_boolean v in
      if decides type b then Some (inr (VBool b)) else conjunction_loop value_of type cs
  end.

(** the [get_value] of each class; [value_of] evaluates the parts *)
Definition field_get_value (tuple : Tuple) (table field : string) : Answer Value := Some (tuple (field_spec table field)).
Definition value_get_value (value : Value) : Answer Value := Some (inr (copy_value value)).
Definition cast_get_value (value_of : Expression → Answer Value) (c : Expression) (cast_type : AttrType) : Answer Value :=
  let! v := value_of c in cast cast_type v.
Definition comparison_get_value (value_of : Expression → Answer Value) (comp : CompOp) (l r : Expression) : Answer Value :=
  let! lv := value_of l in
  let! rv := value_of r in
  let! b := compare_value comp lv rv in
  Some (inr (VBool b)).
Definition conjunction_get_value (value_of : Expression → Answer Value) (type : ConjunctionType) (children : list Expression) : Answer Value :=
  match children with [] => Some (inr (VBool true)) | _ => conjunction_loop value_of type children end.
Definition arithmetic_get_value (value_of : Expression → Answer Value) (type : ArithmeticType) (target_type : AttrType) (l : Expression) (o : option Expression) : Answer Value :=
  let! lv := value_of l in
  match o with
  | None => None
  | Some r => let! rv := value_of r in calc_value type target_type lv rv
  end.
Definition aggregate_get_value (tuple : Tuple) (name : string) : Answer Value := Some (tuple (alias_spec name)).
(** [Expression::get_value] *)
Fixpoint get_value (tuple : Tuple) (e : Expression) {struct e} : Answer Value :=
  match e with
  | StarExpr _ => Some (inl UNIMPLEMENTED)
  | UnboundFieldExpr _ _ | UnboundAggregateExpr _ _ => Some (inl INTERNAL)
  | FieldExpr t f _ => field_get_value tuple t f
  | AggregateExpr _ name _ => aggregate_get_value tuple name
  | ValueExpr v => value_get_value v
  | CastExpr c t => cast_get_value (get_value tuple) c t
  | ComparisonExpr comp l r => comparison_get_value (get_value tuple) comp l r
  | ConjunctionExpr type children => conjunction_get_value (get_value tuple) type children
  | ArithmeticExpr type l o => arithmetic_get_value (get_value tuple) type (value_type e) l o
  end.

(** the [try_get_value] of each class *)
Definition cast_try_get_value (try_of : Expression → Answer Value) (c : Expression) (cast_type : AttrType) : Answer Value :=
  let! v := try_of c in cast cast_type v.
Definition comparison_try_get_value (comp : CompOp) (l r : Expression) : Answer Value :=
  match l, r with
  | ValueExpr left_cell, ValueExpr right_cell => let! b := compare_value comp left_cell right_cell in Some (inr (VBool b))
  | _, _ => Some (inl INVALID_ARGUMENT)
  end.
Definition arithmetic_try_get_value (try_of : Expression → Answer Value) (type : ArithmeticType) (target_type : AttrType) (l : Expression) (o : option Expression) : Answer Value :=
  let! lv := try_of l in
  let! rv := match o with None => Some (inr VUndefined) | Some r => try_of r end in
  calc_value type target_type lv rv.
(** [Expression::try_get_value] *)
Fixpoint try_get_value (e : Expression) : Answer Value :=
  match e with
  | ValueExpr v => Some (inr (copy_value v))
  | CastExpr c t => cast_try_get_value try_get_value c t
  | ComparisonExpr comp l r => comparison_try_get_value comp l r
  | ArithmeticExpr type l o => arithmetic_try_get_value try_get_value type (value_type e) l o
  | _ => Some (inl UNIMPLEMENTED)
  end.
End expressions.
