(* ===== verification/ExprRewrite.v ===== *)
(** * ExprRewrite: the rewriting of expressions and logical plans (sql/optimizer)

    The rules of [ExpressionRewriter], [PredicateRewriteRule], [PredicatePushdownRewriter], and the
    loop of [OptimizeStage::rewrite], which rewrites a plan until nothing changes. An expression
    that a rule replaces or shortens is visited again as it is then; the fuel of the recursive
    functions is the size of the expression or of the plan. *)
From S2P Require Import Prelude Types KeyCompare Expression.

(** ** The rules on expressions *)

Section rules.
Context `{CStrings}.

(** [ComparisonSimplificationRule::rewrite] *)
Definition comparison_simplification (e : Expression) : option (Expression * bool) :=
  match e with
  | ComparisonExpr _ _ _ =>
      match try_get_value e with
      | None => None
      | Some (inr v) => Some (ValueExpr v, true)
      | Some (inl _) => Some (e, false)
      end
  | _ => Some (e, false)
  end.

Definition try_to_get_bool_constant (e : Expression) : option bool :=
  match e with ValueExpr (VBool b) => Some b | _ => None end.
(** the loop of [ConjunctionSimplificationRule::rewrite]: [kept] are the children before the iterator.
    Constants that do not decide are erased; at one that does, the conjunction becomes
    [child_exprs.front()] ([inr]) *)
Fixpoint simplify_children (type : ConjunctionType) (kept rest : list Expression) : list Expression + Expression :=
  match rest with
  | [] => inl kept
  | c :: cs =>
      match try_to_get_bool_constant c with
      | None => simplify_children type (kept ++ [c]) cs
      | Some b => if decides type b then inr (default c (head kept)) else simplify_children type kept cs
      end
  end.
(** [ConjunctionSimplificationRule::rewrite]: only a conjunction of one child counts as a change *)
Definition conjunction_simplification (e : Expression) : Expression * bool :=
  match e with
  | ConjunctionExpr type children =>
      match simplify_children type [] children with
      | inr c => (c, false)
      | inl [c] => (c, true)
      | inl cs => (ConjunctionExpr type cs, false)
      end
  | _ => (e, false)
  end.

(** a loop over expressions or operators, and whether anything changed *)
Fixpoint rewrite_each {A} (rewrite : A → option (A * bool)) (l : list A) : option (list A * bool) :=
  match l with
  | [] => Some ([], false)
  | x :: l =>
      '(x', b) ← rewrite x;
      '(l', b') ← rewrite_each rewrite l;
      Some (x' :: l', b || b')
  end.
(** [ExpressionRewriter::rewrite_expression] *)
Fixpoint rewrite_expression (n : nat) (e : Expression) : option (Expression * bool) :=
  match n with
  | O => None
  | S n =>
      '(e1, c1) ← comparison_simplification e;
      let '(e2, c2) := conjunction_simplification e1 in
      if c1 || c2 then Some (e2, true)
      else
        match e2 with
        | CastExpr c t => '(c', b) ← rewrite_expression n c; Some (CastExpr c' t, b)
        | ComparisonExpr comp l r =>
            '(l', bl) ← rewrite_expression n l;
            '(r', br) ← rewrite_expression n r;
            Some (ComparisonExpr comp l' r', bl || br)
        | ConjunctionExpr type cs =>
            '(cs', b) ← rewrite_each (rewrite_expression n) cs;
            Some (ConjunctionExpr type cs', b)
        | _ => Some (e2, false)
        end
  end.
End rules.

(** the number of nodes *)
Fixpoint expr_size (e : Expression) : nat :=
  match e with
  | StarExpr _ | UnboundFieldExpr _ _ | FieldExpr _ _ _ | ValueExpr _ => 1
  | CastExpr c _ | UnboundAggregateExpr _ c | AggregateExpr _ _ c => S (expr_size c)
  | ComparisonExpr _ l r => S (expr_size l + expr_size r)
  | ConjunctionExpr _ cs => S (sum_list_with expr_size cs)
  | ArithmeticExpr _ l o => S (expr_size l + match o with Some r => expr_size r | None => 0 end)
  end.

(** ** Logical operators *)

Inductive LogicalOperatorType := CALC | TABLE_GET | PREDICATE | PROJECTION | JOIN | INSERT | DELETE | EXPLAIN | GROUP_BY.
#[export] Instance LogicalOperatorType_eq_dec : EqDecision LogicalOperatorType.
Proof. solve_decision. Defined.
(** [detail] is what rewriting does not touch: the table, the values to insert, the aggregates;
    [predicates] are those of [TableGetLogicalOperator] *)

Inductive LogicalOperator (D : Type) :=
| Oper (type : LogicalOperatorType) (detail : D) (expressions predicates : list Expression) (children : list (LogicalOperator D)).
Arguments Oper {D} _ _ _ _ _.

Section plans.
Context `{CStrings} {D : Type}.
Implicit Types (oper : LogicalOperator D).

(** [ExpressionRewriter::rewrite] *)
Fixpoint rewrite_expressions oper : option (LogicalOperator D * bool) :=
  let '(Oper type d expressions predicates children) := oper in
  '(expressions', b) ← rewrite_each (λ e, rewrite_expression (expr_size e) e) expressions;
  '(children', b') ← rewrite_each rewrite_expressions children;
  Some (Oper type d expressions' predicates children', b || b').

(** [PredicateRewriteRule::rewrite] *)
Definition predicate_rewrite oper : LogicalOperator D * bool :=
  match oper with
  | Oper type d expressions predicates [Oper PREDICATE _ [ValueExpr v] _ grand_children] =>
      if get_boolean v then (Oper type d expressions predicates grand_children, true) else (Oper type d expressions predicates [], true)
  | _ => (oper, false)
  end.

Definition is_field (e : Expression) : bool := match e with FieldExpr _ _ _ => true | _ => false end.
Definition is_value (e : Expression) : bool := match e with ValueExpr _ => true | _ => false end.
(** the loop of [get_exprs_can_pushdown] over the children of an AND: the children that stay, and
    the expressions that go down *)
Fixpoint pushdown_children {A} (push : A → RC + (option A * list A)) (children : list A) : RC + (list A * list A) :=
  match children with
  | [] => inr ([], [])
  | c :: cs =>
      match push c with
      | inl rc => inl rc
      | inr (o, pushed) =>
          match pushdown_children push cs with
          | inl rc => inl rc
          | inr (cs', pushed') => inr (match o with Some c' => c' :: cs' | None => cs' end, pushed ++ pushed')
          end
      end
  end.
(** [PredicatePushdownRewriter::get_exprs_can_pushdown]: what is left of the expression, none if it
    was moved as a whole *)
Fixpoint get_exprs_can_pushdown (e : Expression) : RC + (option Expression * list Expression) :=
  match e with
  | ConjunctionExpr OR _ => inl UNIMPLEMENTED
  | ConjunctionExpr AND children =>
      match pushdown_children get_exprs_can_pushdown children with
      | inl rc => inl rc
      | inr (cs, pushed) => inr (Some (ConjunctionExpr AND cs), pushed)
      end
  | ComparisonExpr _ l r =>
      if negb (is_field l) && negb (is_field r) then inr (Some e, [])
      else if negb (is_field l) && negb (is_value l) && negb (is_field r) && negb (is_value r) then inr (Some e, [])
      else inr (None, [e])
  | _ => inr (Some e, [])
  end.
Definition is_empty_predicate (o : option Expression) : bool :=
  match o with None => true | Some (ConjunctionExpr _ []) => true | _ => false end.
(** [PredicatePushdownRewriter::rewrite] *)
Definition predicate_pushdown oper : RC + (LogicalOperator D * bool) :=
  match oper with
  | Oper PREDICATE d [predicate] predicates [Oper TABLE_GET d' expressions' predicates' children'] =>
      match get_exprs_can_pushdown predicate with
      | inl rc => inl rc
      | inr (o, pushed) =>
          let predicate' := if is_empty_predicate o then ValueExpr (VBool true) else default predicate o in
          let predicates' := match pushed with [] => predicates' | _ => pushed end in
          inr (Oper PREDICATE d [predicate'] predicates [Oper TABLE_GET d' expressions' predicates' children'],
               negb (bool_decide (length pushed = 0%nat)))
      end
  | _ => inr (oper, false)
  end.

(** the loop over the children in [Rewriter::rewrite] *)
Fixpoint rewrite_children {A} (rewrite : A → Answer (A * bool)) (l : list A) : Answer (list A * bool) :=
  match l with
  | [] => Some (inr ([], false))
  | x :: l =>
      let! r := rewrite x in
      let! rs := rewrite_children rewrite l in
      Some (inr (r.1 :: rs.1, r.2 || rs.2))
  end.
(** [Rewriter::rewrite]: the three rules, then the children *)
Fixpoint rewriter_rewrite (n : nat) oper : Answer (LogicalOperator D * bool) :=
  match n with
  | O => None
  | S n =>
      match rewrite_expressions oper with
      | None => None
      | Some (oper1, b1) =>
          let '(oper2, b2) := predicate_rewrite oper1 in
          match predicate_pushdown oper2 with
          | inl rc => Some (inl rc)
          | inr (Oper type d expressions predicates children, b3) =>
              let! rs := rewrite_children (rewriter_rewrite n) children in
              Some (inr (Oper type d expressions predicates rs.1, b1 || b2 || b3 || rs.2))
          end
      end
  end.

(** the nodes of a plan: its operators, and the nodes of their expressions *)
Fixpoint plan_size oper : nat :=
  let '(Oper _ _ expressions _ children) := oper in S (sum_list_with expr_size expressions + sum_list_with plan_size children).
(** [OptimizeStage::rewrite]: at most [n] rounds *)
Fixpoint optimize_rewrite (n : nat) oper : Answer (LogicalOperator D) :=
  match n with
  | O => None
  | S n =>
      let! r := rewriter_rewrite (plan_size oper) oper in
      if r.2 : bool then optimize_rewrite n r.1 else Some (inr r.1)
  end.
End plans.
