(* ===== verification/ExprSpec.v ===== *)
(** * ExprSpec: the types of expressions, and what rewriting does to them *)
From S2P Require Import Prelude Types KeyCompare Expression ExprRewrite.

(** ** Types *)

(** the comparisons that no [ASSERT] forbids *)
Definition comparable (l r : AttrType) : bool :=
  match l with
  | INTS | FLOATS => bool_decide (r = INTS ∨ r = FLOATS)
  | CHARS => bool_decide (r = CHARS)
  | BOOLEANS | UNDEFINED => true
  end.
(** the types of the cells of a tuple *)
Definition Schema : Type := TupleCellSpec → AttrType.
Definition tuple_typed (Γ : Schema) (tuple : Tuple) : Prop :=
  ∀ spec, match tuple spec with inl rc => rc ≠ SUCCESS | inr v => attr_type v = Γ spec end.

(** bound expressions: sides of a comparison can be compared, the children of a conjunction are
    boolean, arithmetic has two operands *)
Inductive well_typed (Γ : Schema) : Expression → Prop :=
| WTField t f ty : Γ (field_spec t f) = ty → well_typed Γ (FieldExpr t f ty)
| WTValue v : well_typed Γ (ValueExpr v)
| WTCast c ty : well_typed Γ c → well_typed Γ (CastExpr c ty)
| WTComparison comp l r : well_typed Γ l → well_typed Γ r → comparable (value_type l) (value_type r) = true → well_typed Γ (ComparisonExpr comp l r)
| WTConjunction type cs : Forall (λ c, well_typed Γ c ∧ value_type c = BOOLEANS) cs → well_typed Γ (ConjunctionExpr type cs)
| WTArithmetic type l r : well_typed Γ l → well_typed Γ r → well_typed Γ (ArithmeticExpr type l (Some r))
| WTAggregate type name c : well_typed Γ c → Γ (alias_spec name) = value_type c → well_typed Γ (AggregateExpr type name c).

(** copies have the type of the value, and compare as it does *)
Lemma copy_type v : attr_type (copy_value v) = attr_type v.
Proof. by destruct v. Qed.
Lemma compare_string_empty s s' n t m : n = 0 → compare_string s n t m = compare_string s' n t m ∧ compare_string t m s n = compare_string t m s' n.
Proof.
  intros ->. unfold compare_string. assert (Hn : ∀ k, k ≤ 0 → Z.to_nat k = 0%nat) by (intros; lia).
  rewrite !Hn by lia. done.
Qed.
Lemma compare_copy `{CStrings} v w : value_compare (copy_value v) (copy_value w) = value_compare v w.
Proof.
  destruct v as [p n| | | |], w as [q m| | | |]; try done; cbn. f_equal. destruct (n =? 0) eqn:En; zbool.
  - rewrite (proj1 (compare_string_empty _ (default [] p) n _ m En)). destruct (m =? 0) eqn:Em; zbool; [|done]. apply (compare_string_empty _ _ m _ n Em).
  - destruct (m =? 0) eqn:Em; zbool; [|done]. apply (compare_string_empty _ _ m _ n Em).
Qed.

Section typing.
Context `{CStrings}.
Variable Γ : Schema.
Implicit Types (e c l r : Expression) (v : Value).

(** an answer of the type [t] *)
Definition answers (t : AttrType) (a : Answer Value) : Prop :=
  ∃ x, a = Some x ∧ match x with inl rc => rc ≠ SUCCESS | inr v => attr_type v = t end.

Lemma answers_value t v : attr_type v = t → answers t (Some (inr v)).
Proof. intros. by exists (inr v). Qed.
Lemma answers_then t t' (a : Answer Value) k : answers t a → (∀ v, attr_type v = t → answers t' (k v)) → answers t' (and_then a k).
Proof. intros ([rc|v] & -> & Hx) Hk; [by exists (inl rc)|by apply Hk]. Qed.

Lemma cast_typed t v : answers t (cast t v).
Proof.
  unfold cast. case_bool_decide as Ht; [by apply answers_value; rewrite copy_type|]. unfold cast_to. by destruct (attr_type v); eexists.
Qed.
Lemma compare_typed v w : comparable (attr_type v) (attr_type w) = true → is_Some (value_compare v w).
Proof. destruct v, w; cbn; intros; try done; eauto; by repeat case_bool_decide. Qed.
Lemma compare_value_typed comp v w : comparable (attr_type v) (attr_type w) = true →
  ∃ x, compare_value comp v w = Some x ∧ match x with inl rc => rc ≠ SUCCESS | inr _ => True end.
Proof. intros [z Hz]%compare_typed. unfold compare_value. rewrite Hz. destruct comp; eexists; by split. Qed.

(** arithmetic on two operands: integers, or numbers that are converted to [float] *)
Lemma calc_typed type v w : let t := arithmetic_value_type type (attr_type v) (Some (attr_type w)) in answers t (calc_value type t v w).
Proof.
  unfold arithmetic_value_type. destruct (bool_decide (attr_type v = INTS) && bool_decide (attr_type w = INTS) && negb (bool_decide (type = DIV))) eqn:E.
  - rewrite !andb_true_iff, negb_true_iff, !bool_decide_eq_true, bool_decide_eq_false in E. destruct E as [[Hv Hw] Ht].
    destruct v; try done. destruct w; try done. destruct type; try done; by eexists.
  - by destruct type; eexists.
Qed.

Lemma conjunction_typed (value_of : Expression → Answer Value) type cs : Forall (λ c, answers BOOLEANS (value_of c)) cs → answers BOOLEANS (conjunction_loop value_of type cs).
Proof.
  induction 1 as [|c cs Hc _ IH]; [by apply answers_value|]. cbn. apply (answers_then BOOLEANS); [done|]. intros v Hv. destruct v; try done. cbn. destruct (decides type _); [by apply answers_value|done].
Qed.

(** sizes, for inductions over expressions *)
Lemma size_in c cs : c ∈ cs → (expr_size c ≤ sum_list_with expr_size cs)%nat.
Proof. induction 1; cbn; lia. Qed.
Lemma size_pos e : (0 < expr_size e)%nat.
Proof. destruct e; cbn; lia. Qed.

Lemma get_value_answers tuple : tuple_typed Γ tuple → ∀ n e, (expr_size e ≤ n)%nat → well_typed Γ e → answers (value_type e) (get_value tuple e).
Proof.
  intros Htup n. induction n as [|n IH]; intros e Hn He; [pose proof (size_pos e); lia|].
  assert (Hcell : ∀ spec, answers (Γ spec) (Some (tuple spec))) by (intros spec; exists (tuple spec); split; [done|apply Htup]).
  destruct He as [t f ty <-|v|c ty Hc|comp l r Hl Hr Hcmp|type cs Hcs|type l r Hl Hr|type name c Hc Hg]; cbn [get_value value_type expr_size] in *; unfold field_get_value, value_get_value, cast_get_value, comparison_get_value, conjunction_get_value, arithmetic_get_value, aggregate_get_value.
  - apply Hcell.
  - apply answers_value, copy_type.
  - apply (answers_then (value_type c)); [apply IH; [lia|done]|]. intros v _. apply cast_typed.
  - apply (answers_then (value_type l)); [apply IH; [lia|done]|]. intros v Hv. apply (answers_then (value_type r)); [apply IH; [lia|done]|]. intros w Hw.
    destruct (compare_value_typed comp v w) as ([rc|b] & -> & Hx); [by rewrite Hv, Hw|by exists (inl rc)|by apply answers_value].
  - assert (Hloop : answers BOOLEANS (conjunction_loop (get_value tuple) type cs)).
    { apply conjunction_typed. rewrite Forall_forall in Hcs |- *. intros c Hin. destruct (Hcs c Hin) as [Hc <-]. apply IH; [|done]. apply size_in in Hin. lia. }
    destruct cs; [by apply answers_value|done].
  - apply (answers_then (value_type l)); [apply IH; [lia|done]|]. intros v Hv. apply (answers_then (value_type r)); [apply IH; [lia|done]|]. intros w Hw.
    rewrite <-Hv, <-Hw. apply calc_typed.
  - rewrite <-Hg. apply Hcell.
Qed.
Lemma get_value_typed tuple e : tuple_typed Γ tuple → well_typed Γ e → answers (value_type e) (get_value tuple e).
Proof. intros Htup. by apply (get_value_answers tuple Htup (expr_size e)). Qed.

(** a boolean expression answers an error or a truth value *)
Lemma get_boolean_answer tuple e : tuple_typed Γ tuple → well_typed Γ e → value_type e = BOOLEANS →
  (∃ rc, get_value tuple e = Some (inl rc)) ∨ (∃ b, get_value tuple e = Some (inr (VBool b))).
Proof.
  intros Htup He Ht. destruct (get_value_typed tuple e Htup He) as ([rc|v] & -> & Hx); [by left; exists rc|right]. rewrite Ht in Hx. destruct v; try done. by eexists.
Qed.
End typing.

(** ** Rewriting keeps types and does not grow an expression *)

(** the children that are not constants *)
Abbreviation variable := (λ c, try_to_get_bool_constant c = None).

Section shrinking.
Context `{CStrings}.
Variable Γ : Schema.
Implicit Types (e c l r : Expression).

Lemma constant_eq c b : try_to_get_bool_constant c = Some b → c = ValueExpr (VBool b).
Proof. destruct c as [| | |[]| | | | | |]; cbn; congruence. Qed.
Lemma simplify_cases type : ∀ rest kept,
  match simplify_children type kept rest with inl cs => cs = kept ++ filter variable rest | inr c => c ∈ kept ++ rest end.
Proof.
  induction rest as [|c rest IH]; intros kept; cbn [simplify_children]; [by rewrite app_nil_r|].
  rewrite filter_cons. destruct (try_to_get_bool_constant c) as [b|] eqn:Ec.
  - rewrite decide_False by done. destruct (decides type b); [|specialize (IH kept); destruct (simplify_children _ _ _); [done|]; rewrite elem_of_app, elem_of_cons; rewrite elem_of_app in IH; tauto].
    destruct kept; cbn; rewrite elem_of_cons, ?elem_of_app; tauto.
  - rewrite decide_True by done. specialize (IH (kept ++ [c])). by rewrite <-!app_assoc in IH.
Qed.
Lemma filter_size cs : (sum_list_with expr_size (filter variable cs) ≤ sum_list_with expr_size cs)%nat.
Proof. induction cs as [|c cs IH]; [done|]. rewrite filter_cons. case_decide; cbn; lia. Qed.

(** an expression in the place of [e] *)
Definition replaces e (e' : Expression) (changed : bool) : Prop :=
  well_typed Γ e' ∧ value_type e' = value_type e ∧ (expr_size e' ≤ expr_size e)%nat ∧ (changed = true → expr_size e' < expr_size e)%nat.
Lemma replaces_refl e : well_typed Γ e → replaces e e false.
Proof. done. Qed.
Lemma replaces_trans e1 e2 e3 b1 b2 : replaces e1 e2 b1 → replaces e2 e3 b2 → replaces e1 e3 (b1 || b2).
Proof. intros (_ & Ht & Hs & Hb) (Hw & Ht' & Hs' & Hb'). split; [done|]. split; [congruence|]. split; [lia|]. intros [?%Hb|?%Hb']%orb_true_iff; lia. Qed.

Lemma comparison_replaces e : well_typed Γ e → ∃ e' b, comparison_simplification e = Some (e', b) ∧ replaces e e' b.
Proof.
  intros He. destruct e as [| | | | |comp l r| | | |]; try (do 2 eexists; by split). destruct l as [| | |v| | | | | |]; try (do 2 eexists; by split). destruct r as [| | |w| | | | | |]; try (do 2 eexists; by split).
  inversion_clear He as [| | |? ? ? _ _ Hcmp| | |]. cbn in *. destruct (compare_value_typed comp v w Hcmp) as ([rc|b] & -> & _); cbn.
  - do 2 eexists. split; [done|]. apply replaces_refl. by repeat constructor.
  - do 2 eexists. split; [done|]. split; [constructor|]. split; [done|]. split; cbn; lia.
Qed.
Lemma conjunction_replaces e : well_typed Γ e → let '(e', b) := conjunction_simplification e in replaces e e' b.
Proof.
  intros He. destruct e as [| | | | | |type cs| | |]; try done. cbn [conjunction_simplification]. inversion_clear He as [| | | |? ? Hcs| |]. pose proof (simplify_cases type cs []) as Hs.
  assert (Hin : ∀ c, c ∈ cs → well_typed Γ c ∧ value_type c = BOOLEANS ∧ (expr_size c < expr_size (ConjunctionExpr type cs))%nat).
  { intros c Hc. rewrite Forall_forall in Hcs. destruct (Hcs c Hc). split; [done|]. split; [done|]. apply size_in in Hc. cbn. lia. }
  destruct (simplify_children type [] cs) as [cs'|c]; [|destruct (Hin c Hs) as (? & ? & ?); by repeat split; auto; lia].
  cbn [app] in Hs. assert (Hsub : ∀ c, c ∈ cs' → c ∈ cs) by (intros c; rewrite Hs, list_elem_of_filter; tauto). pose proof (filter_size cs) as Hle. rewrite <-Hs in Hle.
  assert (Hconj : replaces (ConjunctionExpr type cs) (ConjunctionExpr type cs') false).
  { split; [constructor; apply Forall_forall; intros c Hc; destruct (Hin c (Hsub c Hc)); tauto|]. split; [done|]. split; [cbn; lia|done]. }
  destruct cs' as [|c [|c2 cs']]; [done| |done]. destruct (Hin c (Hsub c ltac:(by left))) as (? & ? & ?). by repeat split; auto; lia.
Qed.

Lemma each_replaces (f : Expression → option (Expression * bool)) cs : Forall (λ c, ∃ c' b, f c = Some (c', b) ∧ replaces c c' b) cs →
  ∃ cs' b, rewrite_each f cs = Some (cs', b) ∧ Forall2 (λ c c', well_typed Γ c' ∧ value_type c' = value_type c) cs cs' ∧
    (sum_list_with expr_size cs' ≤ sum_list_with expr_size cs)%nat ∧ (b = true → sum_list_with expr_size cs' < sum_list_with expr_size cs)%nat.
Proof.
  induction 1 as [|c cs (c' & b & Ec & (Hw & Ht & Hs & Hb)) _ (cs' & b' & Ecs & Hall & Hs' & Hb')]; [by exists [], false|].
  exists (c' :: cs'), (b || b'). cbn. rewrite Ec. cbn. rewrite Ecs. split; [done|]. split; [by constructor|]. split; [lia|]. intros [?%Hb|?%Hb']%orb_true_iff; lia.
Qed.

(** with the size of the expression as fuel, a pass of the rewriter ends; a pass that changes
    something makes the expression smaller *)
Lemma rewrite_replaces : ∀ n e, (expr_size e ≤ n)%nat → well_typed Γ e → ∃ e' b, rewrite_expression n e = Some (e', b) ∧ replaces e e' b.
Proof.
  induction n as [|n IH]; intros e Hn He; [pose proof (size_pos e); lia|]. cbn [rewrite_expression].
  destruct (comparison_replaces e He) as (e1 & b1 & -> & H1). cbn. pose proof (conjunction_replaces e1 (proj1 H1)) as H2. destruct (conjunction_simplification e1) as [e2 b2].
  pose proof (replaces_trans _ _ _ _ _ H1 H2) as H12. destruct (b1 || b2); [by do 2 eexists|]. clear H1 H2 e1 b1 b2.
  enough (∃ e' b, match e2 with CastExpr _ _ | ComparisonExpr _ _ _ | ConjunctionExpr _ _ => _ | _ => _ end = Some (e', b) ∧ replaces e2 e' b) as (e' & b & -> & Hr).
  { exists e', b. split; [done|]. by apply (replaces_trans _ _ _ _ _ H12). }
  destruct H12 as (He2 & _ & Hs & _). destruct He2 as [t f ty Ht|v|c ty Hc|comp l r Hl Hr Hcmp|type cs Hcs|type l r Hl Hr|type name c Hc Hg]; cbn [expr_size] in Hs.
  - do 2 eexists. split; [done|]. apply replaces_refl. by constructor.
  - do 2 eexists. split; [done|]. apply replaces_refl. by constructor.
  - destruct (IH c ltac:(lia) Hc) as (c' & b & -> & (Hw & _ & Hsc & Hb)). do 2 eexists. split; [done|]. split; [by constructor|]. split; [done|]. cbn. split; [lia|]. intros ?%Hb. lia.
  - destruct (IH l ltac:(lia) Hl) as (l' & bl & -> & (Hwl & Htl & Hsl & Hbl)), (IH r ltac:(lia) Hr) as (r' & br & -> & (Hwr & Htr & Hsr & Hbr)). do 2 eexists. split; [done|].
    split; [constructor; [done|done|by rewrite Htl, Htr]|]. split; [done|]. cbn. split; [lia|]. intros [?%Hbl|?%Hbr]%orb_true_iff; lia.
  - destruct (each_replaces (rewrite_expression n) cs) as (cs' & b & -> & Hall & Hsc & Hb).
    { rewrite Forall_forall in Hcs |- *. intros c Hin. destruct (Hcs c Hin) as [Hc _]. apply IH; [apply size_in in Hin; lia|done]. }
    do 2 eexists. split; [done|]. split; [|split; [done|cbn; split; [lia|intros ?%Hb; lia]]]. constructor. clear - Hcs Hall. induction Hall as [|c c' cs cs' [Hw Ht] _ IH]; [done|].
    apply Forall_cons in Hcs as [[_ Hb] Hcs]. constructor; [by rewrite Ht|by apply IH].
  - do 2 eexists. split; [done|]. apply replaces_refl. by constructor.
  - do 2 eexists. split; [done|]. apply replaces_refl. by constructor.
Qed.
End shrinking.

(** ** Rewriting a plan ends *)

Inductive plan_typed {D} (Γ : Schema) : LogicalOperator D → Prop :=
| PTOper type d expressions predicates children :
    Forall (well_typed Γ) expressions → Forall (plan_typed Γ) children → plan_typed Γ (Oper type d expressions predicates children).

Section plans.
Context `{CStrings} {D : Type}.
Variable Γ : Schema.
Implicit Types (oper : LogicalOperator D) (e c : Expression).

(** a plan in the place of [oper] *)
Definition plan_replaces oper oper' (changed : bool) : Prop :=
  plan_typed Γ oper' ∧ (plan_size oper' ≤ plan_size oper)%nat ∧ (changed = true → plan_size oper' < plan_size oper)%nat.
Lemma plan_replaces_trans o1 o2 o3 b1 b2 : plan_replaces o1 o2 b1 → plan_replaces o2 o3 b2 → plan_replaces o1 o3 (b1 || b2).
Proof. intros (_ & Hs & Hb) (Hw & Hs' & Hb'). split; [done|]. split; [lia|]. intros [?%Hb|?%Hb']%orb_true_iff; lia. Qed.
Lemma plan_size_in oper l : oper ∈ l → (plan_size oper ≤ sum_list_with plan_size l)%nat.
Proof. induction 1; cbn; lia. Qed.
Lemma plan_size_pos oper : (0 < plan_size oper)%nat.
Proof. destruct oper; cbn; lia. Qed.

(** the loops over the parts of an operator *)
Lemma each_shrinks {A} (size : A → nat) (good : A → Prop) (f : A → option (A * bool)) l :
  Forall (λ x, ∃ x' b, f x = Some (x', b) ∧ good x' ∧ (size x' ≤ size x)%nat ∧ (b = true → size x' < size x)%nat) l →
  ∃ l' b, rewrite_each f l = Some (l', b) ∧ Forall good l' ∧ (sum_list_with size l' ≤ sum_list_with size l)%nat ∧ (b = true → sum_list_with size l' < sum_list_with size l)%nat.
Proof.
  induction 1 as [|x l (x' & b & Ex & Hg & Hs & Hb) _ (l' & b' & El & Hgl & Hs' & Hb')]; [by exists [], false|].
  exists (x' :: l'), (b || b'). cbn. rewrite Ex. cbn. rewrite El. split; [done|]. split; [by constructor|]. split; [lia|]. intros [?%Hb|?%Hb']%orb_true_iff; lia.
Qed.

Lemma expressions_replace : ∀ n oper, (plan_size oper ≤ n)%nat → plan_typed Γ oper → ∃ oper' b, rewrite_expressions oper = Some (oper', b) ∧ plan_replaces oper oper' b.
Proof.
  induction n as [|n IH]; intros oper Hn Ho; [pose proof (plan_size_pos oper); lia|]. destruct Ho as [type d es ps cs Hes Hcs]. cbn [rewrite_expressions plan_size] in *.
  destruct (each_shrinks expr_size (well_typed Γ) (λ e, rewrite_expression (expr_size e) e) es) as (es' & b & -> & Hes' & Hs & Hb).
  { eapply Forall_impl; [exact Hes|]. intros e He. destruct (rewrite_replaces Γ (expr_size e) e ltac:(done) He) as (e' & b & E & (Hw & _ & Hs & Hb)). by exists e', b. }
  destruct (each_shrinks plan_size (plan_typed Γ) rewrite_expressions cs) as (cs' & b' & Ecs & Hcs' & Hs' & Hb').
  { rewrite Forall_forall in Hcs |- *. intros c Hin. apply IH; [apply plan_size_in in Hin; lia|by apply Hcs]. }
  cbn. rewrite Ecs. do 2 eexists. split; [done|]. split; [by constructor|]. cbn. split; [lia|]. intros [?%Hb|?%Hb']%orb_true_iff; lia.
Qed.
Lemma predicate_replaces oper : plan_typed Γ oper → let '(oper', b) := predicate_rewrite oper in plan_replaces oper oper' b.
Proof.
  intros Ho. destruct oper as [type d es ps cs]. destruct cs as [|[[] d' [|[| | |v| | | | | |] [|]] ps' gcs] [|]]; try done. cbn [predicate_rewrite].
  inversion_clear Ho as [? ? ? ? ? Hes Hcs]. rewrite Forall_singleton in Hcs. inversion_clear Hcs as [? ? ? ? ? _ Hgcs].
  destruct (get_boolean v); (split; [by constructor|]; cbn; lia).
Qed.

(** what goes down is taken from the predicate *)
Lemma pushdown_shrinks : ∀ n e, (expr_size e ≤ n)%nat → well_typed Γ e →
  match get_exprs_can_pushdown e with
  | inl rc => rc = UNIMPLEMENTED
  | inr (o, pushed) =>
      match o with Some e' => well_typed Γ e' ∧ value_type e' = value_type e | None => True end ∧
      (default O (expr_size <$> o) + 3 * length pushed ≤ expr_size e)%nat
  end.
Proof.
  induction n as [|n IH]; intros e Hn He; [pose proof (size_pos e); lia|].
  destruct e as [| | | | |comp l r|[] cs| | |]; cbn [get_exprs_can_pushdown]; try (cbn; split; [done|lia]).
  - pose proof (size_pos l). pose proof (size_pos r). destruct (_ && _); [cbn; split; [done|lia]|]. destruct (_ && _); cbn; split; (done || lia).
  - inversion_clear He as [| | | |? ? Hcs| |]. cbn in Hn.
    assert (Hloop : match pushdown_children get_exprs_can_pushdown cs with inl rc => rc = UNIMPLEMENTED
      | inr (cs', pushed) => Forall (λ c, well_typed Γ c ∧ value_type c = BOOLEANS) cs' ∧ (sum_list_with expr_size cs' + 3 * length pushed ≤ sum_list_with expr_size cs)%nat end).
    { induction Hcs as [|c cs [Hc Ht] _ IHcs]; [cbn; split; [done|lia]|]. cbn in *. pose proof (IH c ltac:(lia) Hc) as H1. destruct (get_exprs_can_pushdown c) as [rc|[o pushed]]; [done|].
      specialize (IHcs ltac:(lia)). destruct (pushdown_children _ cs) as [rc|[cs' pushed']]; [done|]. destruct H1 as [Ho H1], IHcs as [Hcs' H2].
      rewrite length_app. destruct o as [c'|]; cbn in *; [|split; [done|lia]]. split; [|lia]. constructor; [|done]. destruct Ho as [? ->]. by split. }
    destruct (pushdown_children _ cs) as [rc|[cs' pushed]]; [done|]. destruct Hloop as [Hcs' Hs]. cbn. split; [split; [by constructor|done]|lia].
  - done.
Qed.
Lemma predicate_pushdown_replaces oper : plan_typed Γ oper →
  match predicate_pushdown oper with inl rc => rc = UNIMPLEMENTED | inr (oper', b) => plan_replaces oper oper' b end.
Proof.
  intros Ho. destruct oper as [type d es ps cs]. destruct type; try done. destruct es as [|e [|]]; try done. destruct cs as [|[[] d' es' ps' cs'] [|]]; try done. cbn [predicate_pushdown].
  inversion_clear Ho as [? ? ? ? ? Hes Hcs]. rewrite Forall_singleton in Hes. rewrite Forall_singleton in Hcs. inversion_clear Hcs as [? ? ? ? ? Hes' Hcs'].
  pose proof (pushdown_shrinks (expr_size e) e ltac:(done) Hes) as Hp. destruct (get_exprs_can_pushdown e) as [rc|[o pushed]]; [done|]. destruct Hp as [Ho Hs].
  set (e' := if is_empty_predicate o then _ else _).
  assert (He' : well_typed Γ e' ∧ (expr_size e' + 2 * length pushed ≤ expr_size e)%nat).
  { unfold e'. pose proof (size_pos e). destruct o as [e1|]; cbn in Hs |- *; [|split; [constructor|]; destruct pushed; cbn in *; lia].
    destruct Ho as [Ho _]. pose proof (size_pos e1). destruct e1 as [| | | | | |? [|]| | |]; cbn in Hs |- *; (split; [done || constructor|lia]). }
  destruct He' as [Hw Hle]. split; [constructor; [by apply Forall_singleton|by apply Forall_singleton; constructor]|].
  destruct pushed as [|p pushed]; cbn in *; [split; [lia|done]|]. split; [lia|]. intros _. lia.
Qed.

(** a round of the rewriter ends, with the size of the plan as fuel, and makes the plan smaller if it changes it *)
Lemma rewriter_ends : ∀ n oper, (plan_size oper ≤ n)%nat → plan_typed Γ oper →
  ∃ x, rewriter_rewrite n oper = Some x ∧ match x with inl rc => rc = UNIMPLEMENTED | inr (oper', b) => plan_replaces oper oper' b end.
Proof.
  induction n as [|n IH]; intros oper Hn Ho; [pose proof (plan_size_pos oper); lia|]. cbn [rewriter_rewrite].
  destruct (expressions_replace _ oper Hn Ho) as (o1 & b1 & -> & H1). pose proof (predicate_replaces o1 (proj1 H1)) as H2. destruct (predicate_rewrite o1) as [o2 b2].
  pose proof (predicate_pushdown_replaces o2 (proj1 H2)) as H3. destruct (predicate_pushdown o2) as [rc|[o3 b3]]; [by exists (inl rc)|].
  pose proof (plan_replaces_trans _ _ _ _ _ (plan_replaces_trans _ _ _ _ _ H1 H2) H3) as H13. clear H1 H2 H3 o1 o2. destruct o3 as [type d es ps cs].
  destruct H13 as (Ht & Hs & Hb). inversion_clear Ht as [? ? ? ? ? Hes Hcs]. cbn [plan_size] in Hs, Hb.
  assert (Hloop : ∃ x, rewrite_children (rewriter_rewrite n) cs = Some x ∧ match x with inl rc => rc = UNIMPLEMENTED
    | inr (cs', b) => Forall (plan_typed Γ) cs' ∧ (sum_list_with plan_size cs' ≤ sum_list_with plan_size cs)%nat ∧ (b = true → sum_list_with plan_size cs' < sum_list_with plan_size cs)%nat end).
  { assert (Hn' : (sum_list_with plan_size cs ≤ n)%nat) by lia. clear - IH Hcs Hn'. induction Hcs as [|c cs Hc _ IHcs]; [by exists (inr ([], false))|]. cbn in *.
    destruct (IH c ltac:(lia) Hc) as ([rc|[c' b]] & -> & Hx); [by exists (inl rc)|]. destruct (IHcs ltac:(lia)) as ([rc|[cs' b']] & Ecs & Hxs); cbn; rewrite Ecs; [by exists (inl rc)|].
    eexists. split; [done|]. destruct Hx as (Hw & Hs & Hb), Hxs as (Hws & Hss & Hbs). cbn. split; [by constructor|]. split; [lia|]. intros [?%Hb|?%Hbs]%orb_true_iff; lia. }
  destruct Hloop as ([rc|[cs' b]] & -> & Hx); [by exists (inl rc)|]. eexists. split; [done|]. destruct Hx as (Hw & Hss & Hbs). cbn [fst snd]. split; [by constructor|]. cbn [plan_size].
  split; [lia|]. intros [?%Hb|?%Hbs]%orb_true_iff; lia.
Qed.
Lemma optimize_ends : ∀ n oper, (plan_size oper ≤ n)%nat → plan_typed Γ oper →
  ∃ x, optimize_rewrite n oper = Some x ∧ match x with inl rc => rc = UNIMPLEMENTED | inr oper' => plan_typed Γ oper' ∧ (plan_size oper' ≤ plan_size oper)%nat end.
Proof.
  induction n as [|n IH]; intros oper Hn Ho; [pose proof (plan_size_pos oper); lia|]. cbn [optimize_rewrite].
  destruct (rewriter_ends (plan_size oper) oper ltac:(done) Ho) as ([rc|[o1 b]] & -> & Hx); cbn; [by exists (inl rc)|]. destruct Hx as (Ht & Hs & Hb).
  destruct b; [|by exists (inr o1)]. destruct (IH o1 ltac:(specialize (Hb eq_refl); lia) Ht) as ([rc|o2] & -> & Hx); [by exists (inl rc)|]. exists (inr o2). split; [done|]. destruct Hx. split; [done|lia].
Qed.
End plans.
