(* ===== verification/ExprTheorems.v ===== *)
(** * ExprTheorems: the properties of expressions and of their rewriting

    Expressions have the types they announce; rewriting keeps their values where it does not
    pick the wrong child of a conjunction; the rewriting of a plan ends. *)
From stdpp Require Import strings.
From S2P Require Import Prelude Types KeyCompare Expression ExprRewrite ExprSpec.

(** ** Values under rewriting *)

Section same.
Context `{CStrings}.
Variable Γ : Schema.
Implicit Types (e c l r : Expression).

(** [e] is the constant [b], whatever the tuple *)
Definition always e (b : bool) : Prop := ∀ tuple, tuple_typed Γ tuple → get_value tuple e = Some (inr (VBool b)).
(** a conjunction whose children other than the first do not decide it for every tuple; not all
    children of an OR are always false *)
Definition children_ok (type : ConjunctionType) (cs : list Expression) : Prop :=
  Forall (λ c, ∀ b, decides type b = true → ¬ always c b) (tail cs) ∧
  (type = OR → cs ≠ [] → Exists (λ c, ¬ always c false) cs).
(** the conjunctions that rewriting may reach *)
Inductive order_safe : Expression → Prop :=
| OSLeaf e : match e with CastExpr _ _ | ComparisonExpr _ _ _ | ConjunctionExpr _ _ => False | _ => True end → order_safe e
| OSCast c t : order_safe c → order_safe (CastExpr c t)
| OSComparison comp l r : order_safe l → order_safe r → order_safe (ComparisonExpr comp l r)
| OSConjunction type cs : Forall order_safe cs → children_ok type cs → order_safe (ConjunctionExpr type cs).

(** equal on every tuple of the schema *)
Definition same_value e e' : Prop := ∀ tuple, tuple_typed Γ tuple → get_value tuple e' = get_value tuple e.
Lemma same_trans e1 e2 e3 : same_value e1 e2 → same_value e2 e3 → same_value e1 e3.
Proof. intros H1 H2 tuple Ht. by rewrite H2, H1. Qed.
Lemma always_same e e' b : same_value e e' → always e' b ↔ always e b.
Proof. intros Hs. split; intros Ha tuple Ht; [rewrite <-Hs by done|rewrite Hs by done]; by apply Ha. Qed.
Lemma always_constant c b : try_to_get_bool_constant c = Some b → always c b.
Proof. by intros ->%constant_eq tuple _. Qed.

(** *** Conjunctions *)

Lemma conjunction_filter tuple type cs : (∀ c b, c ∈ cs → try_to_get_bool_constant c = Some b → decides type b = false) →
  conjunction_loop (get_value tuple) type (filter variable cs) = conjunction_loop (get_value tuple) type cs.
Proof.
  induction cs as [|c cs IH]; intros Hc; [done|]. specialize (IH (λ x b Hx, Hc x b ltac:(by right))). rewrite filter_cons. cbn [conjunction_loop].
  case_decide as Ec; [cbn [conjunction_loop]; by rewrite IH|]. destruct (try_to_get_bool_constant c) as [b|] eqn:Eb; [|done].
  pose proof (Hc c b ltac:(by left) Eb) as Hd. apply constant_eq in Eb as ->. cbn. by rewrite Hd.
Qed.
Lemma conjunction_single tuple type c : tuple_typed Γ tuple → well_typed Γ c → value_type c = BOOLEANS →
  conjunction_loop (get_value tuple) type [c] = get_value tuple c.
Proof.
  intros Ht Hc Hb. cbn. destruct (get_boolean_answer Γ tuple c Ht Hc Hb) as [[rc ->]|[b ->]]; [done|]. by destruct type, b.
Qed.
Lemma conjunction_value tuple type cs : (type = OR → cs ≠ []) → get_value tuple (ConjunctionExpr type cs) = conjunction_loop (get_value tuple) type cs.
Proof. destruct cs, type; try done. intros Hc. by destruct (Hc eq_refl). Qed.

(** no constant behind the first child decides *)
Lemma tail_constants type cs : children_ok type cs → ∀ c b, c ∈ tail cs → try_to_get_bool_constant c = Some b → decides type b = false.
Proof.
  intros [Ht _] c b Hin Hc. rewrite Forall_forall in Ht. apply not_true_iff_false. intros Hd. by apply (Ht c Hin b Hd), always_constant.
Qed.
Lemma simplify_filter type : ∀ rest kept, (∀ c b, c ∈ rest → try_to_get_bool_constant c = Some b → decides type b = false) →
  simplify_children type kept rest = inl (kept ++ filter variable rest).
Proof.
  induction rest as [|c rest IH]; intros kept Hc; cbn [simplify_children]; [by rewrite app_nil_r|]. rewrite filter_cons.
  destruct (try_to_get_bool_constant c) as [b|] eqn:Eb.
  - rewrite (Hc c b ltac:(by left) Eb), decide_False by done. apply IH. intros x b' Hx. apply Hc. by right.
  - rewrite decide_True by done. rewrite IH, <-app_assoc; [done|]. intros x b' Hx. apply Hc. by right.
Qed.
(** either the first child decides, or the constants go *)
Lemma simplify_safe type cs : children_ok type cs →
  (∃ c b cs', cs = c :: cs' ∧ try_to_get_bool_constant c = Some b ∧ decides type b = true ∧ simplify_children type [] cs = inr c) ∨
  ((∀ c b, c ∈ cs → try_to_get_bool_constant c = Some b → decides type b = false) ∧ simplify_children type [] cs = inl (filter variable cs)).
Proof.
  intros Hok. destruct cs as [|c cs]; [right; split; [by intros ? ? ?%elem_of_nil|done]|]. pose proof (tail_constants type _ Hok) as Ht. cbn [tail] in Ht.
  destruct (try_to_get_bool_constant c) as [b|] eqn:Eb; [destruct (decides type b) eqn:Ed|].
  - left. exists c, b, cs. cbn. by rewrite Eb, Ed.
  - right. split; [|cbn [simplify_children]; rewrite Eb, Ed; rewrite simplify_filter by done; by rewrite filter_cons, decide_False by (by rewrite Eb)].
    intros x b' [->|Hx]%elem_of_cons; [by rewrite Eb; intros [= <-]|by apply Ht].
  - right. split; [intros x b' [->|Hx]%elem_of_cons; [by rewrite Eb|by apply Ht]|]. cbn [simplify_children]. rewrite Eb. rewrite simplify_filter by done. by rewrite filter_cons, decide_True.
Qed.
Lemma filter_ok type cs : (∀ c b, c ∈ cs → try_to_get_bool_constant c = Some b → decides type b = false) → children_ok type cs →
  children_ok type (filter variable cs) ∧ (type = OR → cs ≠ [] → filter variable cs ≠ []).
Proof.
  intros Hc [Ht Hor]. assert (Hex : type = OR → cs ≠ [] → Exists (λ c, ¬ always c false) (filter variable cs)).
  { intros -> Hne. specialize (Hor eq_refl Hne). rewrite Exists_exists in Hor |- *. destruct Hor as (c & Hin & Hnf). exists c. split; [|done]. apply list_elem_of_filter. split; [|done].
    destruct (try_to_get_bool_constant c) as [[]|] eqn:Eb; [by specialize (Hc c true Hin Eb)| |done]. by destruct Hnf; apply always_constant. }
  split; [split|]; [|by intros -> Hne; apply Hex; [|destruct cs; [done|]]|].
  - destruct cs as [|c cs]; [done|]. cbn [tail] in Ht. rewrite filter_cons. apply Forall_forall. intros x Hx. rewrite Forall_forall in Ht. apply Ht.
    case_decide; cbn [tail] in Hx; [by apply list_elem_of_filter in Hx as [_ ?]|]. assert (Hx' : x ∈ filter variable cs) by (destruct (filter variable cs); [by apply elem_of_nil in Hx|by right]). by apply list_elem_of_filter in Hx' as [_ ?].
  - intros -> Hne E. specialize (Hex eq_refl Hne). rewrite E in Hex. by apply Exists_nil in Hex.
Qed.

(** *** The rules and the passes *)

Lemma comparison_same e e' b : comparison_simplification e = Some (e', b) → order_safe e → order_safe e' ∧ same_value e e'.
Proof.
  intros E He. destruct e as [| | | | |comp l r| | | |]; try (injection E as <- <-; by split).
  destruct l as [| | |v| | | | | |]; try (injection E as <- <-; by split). destruct r as [| | |w| | | | | |]; try (injection E as <- <-; by split). cbn in E.
  destruct (compare_value comp v w) as [[rc|x]|] eqn:Ec; try done; injection E as <- <-; [by split|]. split; [by constructor|]. intros tuple _. cbn. unfold comparison_get_value, value_get_value. cbn. unfold compare_value in Ec |- *. rewrite compare_copy. by rewrite Ec.
Qed.
Lemma conjunction_same e : well_typed Γ e → order_safe e → let '(e', _) := conjunction_simplification e in order_safe e' ∧ same_value e e'.
Proof.
  intros Hw He. destruct e as [| | | | | |type cs| | |]; try done. cbn [conjunction_simplification]. inversion_clear Hw as [| | | |? ? Hcs| |]. inversion_clear He as [? Hf| | |? ? Hsafe Hok]; [by cbn in Hf|].
  destruct (simplify_safe type cs Hok) as [(c & b & cs' & -> & Eb & Ed & ->)|[Hc ->]].
  - apply Forall_cons in Hsafe as [Hs _]. split; [done|]. intros tuple _. apply constant_eq in Eb as ->. cbn. by rewrite Ed.
  - assert (Hcs0 : cs = [] ∨ cs ≠ []) by (destruct cs; [by left|by right]). destruct Hcs0 as [->|Hcs0]; [split; [by constructor|done]|].
    destruct (filter_ok type cs Hc Hok) as [Hok' Hne]. assert (Hsame : ∀ tuple, get_value tuple (ConjunctionExpr type cs) = conjunction_loop (get_value tuple) type (filter variable cs))
      by (intros tuple; by rewrite conjunction_filter, conjunction_value).
    assert (Hfs : Forall order_safe (filter variable cs)) by (apply Forall_forall; intros c [_ Hin]%list_elem_of_filter; by apply (proj1 (Forall_forall _ _) Hsafe)).
    assert (Hcon : order_safe (ConjunctionExpr type (filter variable cs)) ∧ same_value (ConjunctionExpr type cs) (ConjunctionExpr type (filter variable cs))).
    { split; [by constructor|]. intros tuple _. rewrite Hsame. apply conjunction_value. intros Ht. by apply Hne. }
    destruct (filter variable cs) as [|c [|c2 cs2]] eqn:Ef; [done| |done]. rewrite Forall_singleton in Hfs. split; [done|]. intros tuple Ht.
    assert (Hin : c ∈ cs) by (assert (Hin : c ∈ filter variable cs) by (rewrite Ef; by left); by apply list_elem_of_filter in Hin as [_ ?]).
    rewrite Forall_forall in Hcs. destruct (Hcs c Hin). by rewrite Hsame, conjunction_single.
Qed.

Lemma children_same type cs cs' : Forall2 same_value cs cs' → children_ok type cs → children_ok type cs'.
Proof.
  intros Hall [Ht Hor]. split.
  - destruct Hall as [|c c' cs cs' _ Hall]; [done|]. cbn [tail] in *. clear - Hall Ht. induction Hall as [|c c' cs cs' Hc _ IH]; [done|]. apply Forall_cons in Ht as [Hn Ht].
    constructor; [|by apply IH]. intros b Hb Ha. by apply (Hn b Hb), (always_same _ _ _ Hc).
  - intros -> Hne. assert (Hex : Exists (λ c, ¬ always c false) cs) by (apply Hor; [done|]; intros ->; by inversion Hall; subst). clear - Hall Hex.
    induction Hall as [|c c' cs cs' Hc _ IH]; [done|]. apply Exists_cons in Hex as [Hn|Hex]; [left; by rewrite (always_same _ _ _ Hc)|right; by apply IH].
Qed.
Lemma loop_same tuple type cs cs' : tuple_typed Γ tuple → Forall2 same_value cs cs' → conjunction_loop (get_value tuple) type cs' = conjunction_loop (get_value tuple) type cs.
Proof. intros Ht. induction 1 as [|c c' cs cs' Hc _ IH]; [done|]. cbn. rewrite Hc by done. by rewrite IH. Qed.
Lemma each_same n cs : (∀ c e' b, c ∈ cs → rewrite_expression n c = Some (e', b) → order_safe e' ∧ same_value c e') →
  ∀ cs' b, rewrite_each (rewrite_expression n) cs = Some (cs', b) → Forall order_safe cs' ∧ Forall2 same_value cs cs'.
Proof.
  induction cs as [|c cs IH]; intros Hc cs' b E; cbn in E; [by injection E as <- _|].
  destruct (rewrite_expression n c) as [[c' b1]|] eqn:E1; [|done]. destruct (rewrite_each _ cs) as [[cs1 b2]|] eqn:E2; [|done]. injection E as <- _.
  destruct (Hc c c' b1 ltac:(by left) E1). destruct (IH (λ x e' b Hx, Hc x e' b ltac:(by right)) cs1 b2 eq_refl). by split; constructor.
Qed.

(** a pass keeps the values and the order *)
Lemma rewrite_same : ∀ n e e' b, rewrite_expression n e = Some (e', b) → well_typed Γ e → order_safe e → order_safe e' ∧ same_value e e'.
Proof.
  induction n as [|n IH]; intros e e' b E Hw Hs; [done|]. cbn [rewrite_expression] in E.
  destruct (comparison_replaces Γ e Hw) as (e1 & b1 & E1 & H1). rewrite E1 in E. cbn in E. destruct (comparison_same e e1 b1 E1 Hs) as [Hs1 Hv1].
  pose proof (conjunction_same e1 (proj1 H1) Hs1) as H2. pose proof (conjunction_replaces Γ e1 (proj1 H1)) as H3. destruct (conjunction_simplification e1) as [e2 b2]. destruct H2 as [Hs2 Hv2].
  pose proof (same_trans _ _ _ Hv1 Hv2) as Hv. destruct H3 as [Hw2 _]. destruct (b1 || b2); [by injection E as <- <-|]. clear - IH E Hs2 Hv Hw2.
  enough (order_safe e' ∧ same_value e2 e') as [? ?] by (split; [done|by apply (same_trans _ e2)]). clear Hv.
  destruct Hw2 as [t f ty Ht|v|c ty Hc|comp l r Hl Hr Hcmp|type cs Hcs|type l r Hl Hr|type name c Hc Hg]; try (injection E as <- <-; by split).
  - inversion_clear Hs2 as [? Hf|? ? Hsc| |]; [by cbn in Hf|]. destruct (rewrite_expression n c) as [[c' b']|] eqn:Ec; [|done]. injection E as <- <-. destruct (IH c c' b' Ec Hc Hsc) as [Hs' Hv'].
    split; [by constructor|]. intros tuple Ht. cbn. unfold cast_get_value. by rewrite Hv'.
  - inversion_clear Hs2 as [? Hf| |? ? ? Hsl Hsr|]; [by cbn in Hf|]. destruct (rewrite_expression n l) as [[l' bl]|] eqn:El; [|done]. destruct (rewrite_expression n r) as [[r' br]|] eqn:Er; [|done].
    injection E as <- <-. destruct (IH l l' bl El Hl Hsl) as [Hs1 Hv1], (IH r r' br Er Hr Hsr) as [Hs2 Hv2]. split; [by constructor|]. intros tuple Ht. cbn. unfold comparison_get_value. by rewrite Hv1, Hv2.
  - inversion_clear Hs2 as [? Hf| | |? ? Hsc Hok]; [by cbn in Hf|]. destruct (rewrite_each (rewrite_expression n) cs) as [[cs' b']|] eqn:Ec; [|done]. injection E as <- <-. rewrite Forall_forall in Hcs, Hsc.
    destruct (each_same n cs (λ c e' b Hin E, IH c e' b E (proj1 (Hcs c Hin)) (Hsc c Hin)) cs' b' Ec) as [Hs' Hv']. split; [constructor; [done|by apply (children_same type cs)]|].
    intros tuple Ht. pose proof (loop_same tuple type cs cs' Ht Hv') as Hl. destruct Hv'; [done|]. exact Hl.
Qed.
End same.

(** ** Properties *)

(** [k] passes of [rewrite_expression], each with the size of the expression as fuel *)
Fixpoint rewrite_passes `{CStrings} (k : nat) (e : Expression) : option Expression :=
  match k with
  | O => Some e
  | S k => '(e', _) ← rewrite_expression (expr_size e) e; rewrite_passes k e'
  end.

(** [C19] Expressions have the type they announce. A well-typed expression on a tuple of its schema
    fails no assertion; it answers an error or a value of its [value_type]. A pass of the
    rewriter ends and gives a well-typed expression of the same [value_type] that is not larger. *)
Theorem expressions_have_their_types `{CStrings} (Γ : Schema) (e : Expression) (tuple : Tuple) :
  well_typed Γ e → tuple_typed Γ tuple →
  (∃ x, get_value tuple e = Some x ∧ match x with inl rc => rc ≠ SUCCESS | inr v => attr_type v = value_type e end) ∧
  (∃ e' b, rewrite_expression (expr_size e) e = Some (e', b) ∧ well_typed Γ e' ∧ value_type e' = value_type e ∧ (expr_size e' ≤ expr_size e)%nat).
Proof.
  intros He Ht. split; [by apply (get_value_typed Γ)|]. destruct (rewrite_replaces Γ (expr_size e) e ltac:(done) He) as (e' & b & E & Hw & Hty & Hs & _). by exists e', b.
Qed.

(** no string is a number *)
#[export] Instance NoNumbers : CStrings := {| stof _ := None; stol _ := None |}.
Definition demo_schema : Schema := λ spec, if bool_decide (field_name spec = "name"%string) then CHARS else INTS.
Definition demo_tuple : Tuple := λ spec, if bool_decide (field_name spec = "id"%string) then inr (VInt 7) else if bool_decide (field_name spec = "name"%string) then inr (VChars (Some [97]) 1) else inl NOTFOUND.
(** [id + 1 > 3 AND id = id] and [1 = 1 AND id = 7] *)
Definition id_field : Expression := FieldExpr "t" "id" INTS.
Definition int_value (z : Z) : Expression := ValueExpr (VInt z).
Definition demo_and : Expression :=
  ConjunctionExpr AND [ComparisonExpr GREAT_THAN (ArithmeticExpr ADD id_field (Some (int_value 1))) (int_value 3); ComparisonExpr EQUAL_TO id_field id_field].
Definition demo_const : Expression := ConjunctionExpr AND [ComparisonExpr EQUAL_TO (int_value 1) (int_value 1); ComparisonExpr EQUAL_TO id_field (int_value 7)].
Lemma demo_schema_ok : tuple_typed demo_schema demo_tuple.
Proof.
  intros [t f a]. unfold demo_tuple, demo_schema. cbn. case_bool_decide as H1; [subst f; done|]. by case_bool_decide.
Qed.
Lemma demo_and_typed : well_typed demo_schema demo_and.
Proof. constructor. repeat first [apply Forall_cons; split|apply Forall_nil_2|split; [|done]|constructor]; done. Qed.
Lemma demo_const_typed : well_typed demo_schema demo_const.
Proof. constructor. repeat first [apply Forall_cons; split|apply Forall_nil_2|split; [|done]|constructor]; done. Qed.

Lemma expressions_have_their_types_witness :
  (∃ x, get_value demo_tuple demo_and = Some x ∧ match x with inl rc => rc ≠ SUCCESS | inr v => attr_type v = BOOLEANS end) ∧
  (∃ e' b, rewrite_expression (expr_size demo_and) demo_and = Some (e', b) ∧ well_typed demo_schema e' ∧ value_type e' = BOOLEANS ∧ (expr_size e' ≤ 9)%nat).
Proof. exact (expressions_have_their_types demo_schema demo_and demo_tuple demo_and_typed demo_schema_ok). Defined.

(** [C17] Rewriting keeps the value of an expression. If in every conjunction only the first child
    can be a constant that decides it, and not all children of an OR are always false, then
    any number of passes over a well-typed expression gives one with the same answer, value or
    error, on every tuple of the schema. Without that the rule may keep the wrong child. *)
Theorem rewriting_keeps_values `{CStrings} (Γ : Schema) (k : nat) (e : Expression) :
  well_typed Γ e → order_safe Γ e →
  ∃ e', rewrite_passes k e = Some e' ∧ well_typed Γ e' ∧ ∀ tuple, tuple_typed Γ tuple → get_value tuple e' = get_value tuple e.
Proof.
  revert e. induction k as [|k IH]; intros e Hw Hs; [by exists e|]. destruct (rewrite_replaces Γ (expr_size e) e ltac:(done) Hw) as (e1 & b & E & Hw1 & _).
  destruct (rewrite_same Γ _ e e1 b E Hw Hs) as [Hs1 Hv1]. destruct (IH e1 Hw1 Hs1) as (e2 & E2 & Hw2 & Hv2). exists e2. cbn. rewrite E. cbn. split; [done|]. split; [done|].
  intros tuple Ht. by rewrite Hv2, Hv1.
Qed.

Lemma demo_const_safe : order_safe demo_schema demo_const.
Proof.
  apply OSConjunction; [repeat first [apply Forall_nil_2|apply Forall_cons; split|apply OSComparison|by apply OSLeaf]|]. split; [|done]. apply Forall_singleton. intros b Hb Ha. specialize (Ha demo_tuple demo_schema_ok). destruct b; [done|]. by vm_compute in Ha.
Qed.
Lemma rewriting_keeps_values_witness :
  rewrite_passes 2 demo_const = Some (ComparisonExpr EQUAL_TO id_field (int_value 7)) ∧
  ∃ e', rewrite_passes 2 demo_const = Some e' ∧ well_typed demo_schema e' ∧ ∀ tuple, tuple_typed demo_schema tuple → get_value tuple e' = get_value tuple demo_const.
Proof. split; [done|]. exact (rewriting_keeps_values demo_schema 2 demo_const demo_const_typed demo_const_safe). Defined.

(** [C18] The rewriting of a plan ends. On a plan whose expressions are well typed the loop of
    [OptimizeStage::rewrite] stops after at most as many rounds as the plan has nodes: a round
    that reports a change makes the plan smaller. It gives a well-typed plan, or UNIMPLEMENTED for
    an OR above a table. *)
Theorem plan_rewriting_ends `{CStrings} {D} (Γ : Schema) (n : nat) (oper : LogicalOperator D) :
  plan_typed Γ oper → (plan_size oper ≤ n)%nat →
  ∃ x, optimize_rewrite n oper = Some x ∧ match x with inl rc => rc = UNIMPLEMENTED | inr oper' => plan_typed Γ oper' ∧ (plan_size oper' ≤ plan_size oper)%nat end.
Proof. intros Ho Hn. by apply optimize_ends. Qed.

(** a projection of a selection from a table, where [1 = 1 AND id = 7] *)
Definition demo_plan : LogicalOperator unit := Oper PROJECTION () [id_field] [] [Oper PREDICATE () [demo_const] [] [Oper TABLE_GET () [] [] []]].
Lemma demo_plan_typed : plan_typed demo_schema demo_plan.
Proof.
  constructor; [apply Forall_singleton; by constructor|]. apply Forall_singleton. constructor; [apply Forall_singleton; exact demo_const_typed|]. apply Forall_singleton. by constructor.
Qed.
Lemma plan_rewriting_ends_witness :
  optimize_rewrite 11 demo_plan = Some (inr (Oper PROJECTION () [id_field] [] [Oper TABLE_GET () [] [ComparisonExpr EQUAL_TO id_field (int_value 7)] []])) ∧
  ∃ x, optimize_rewrite 11 demo_plan = Some x ∧ match x with inl rc => rc = UNIMPLEMENTED | inr oper' => plan_typed demo_schema oper' ∧ (plan_size oper' ≤ 11)%nat end.
Proof. split; [done|]. apply (plan_rewriting_ends demo_schema 11 demo_plan demo_plan_typed). by vm_compute. Defined.

(** ** Where rewriting changes the answer *)

(** [id = id AND 1 = 2] becomes [id = id]: the first child is kept, not the one that decides *)
Lemma and_false_is_lost : rewrite_passes 2 (ConjunctionExpr AND [ComparisonExpr EQUAL_TO id_field id_field; ComparisonExpr EQUAL_TO (int_value 1) (int_value 2)]) = Some (ComparisonExpr EQUAL_TO id_field id_field).
Proof. done. Qed.
(** an OR of false constants loses all of them, and an empty conjunction is true *)
Lemma or_of_false_is_true tuple : rewrite_passes 1 (ConjunctionExpr OR [ValueExpr (VBool false); ValueExpr (VBool false)]) = Some (ConjunctionExpr OR []) ∧
  get_value tuple (ConjunctionExpr OR []) = Some (inr (VBool true)).
Proof. done. Qed.
(** the sign of a field dereferences the operand that is not there *)
Lemma negative_of_field tuple : (∃ v, tuple (field_spec "t" "id") = inr v) → get_value tuple (ArithmeticExpr NEGATIVE id_field None) = None.
Proof. intros [v Hv]. cbn -[field_spec]. unfold arithmetic_get_value, field_get_value. cbn -[field_spec]. by rewrite Hv. Qed.
(** [1] and [1.0] *)
Lemma integer_beside_float : value_compare (VInt 1) (VFloat (float_of_int 1)) = Some (-1) ∧ value_compare (VFloat (float_of_int 1)) (VInt 1) = Some 0.
Proof. by vm_compute. Qed.
